(* ===== verification/_CoqProject ===== *)
-Q . S2P
Prelude.v
LinkedList.v
Bytes.v
Pmm.v
PmmBlocks.v
PmmInv.v
PmmAlloc.v
PmmInit.v
PageAlloc.v
PmmTheorems.v
Thread.v
Sched.v
SchedInv.v
SchedPick.v
Switch.v
SchedRefine.v
SchedRun.v
SchedTheorems.v
KernelHeap.v
Heap.v
HeapLists.v
HeapInv.v
HeapOps.v
HeapAlloc.v
HeapPages.v
HeapSpec.v
HeapPmm.v
HeapTheorems.v
HeapShared.v
Vfs.v
VfsInv.v
VfsTree.v
VfsFile.v
VfsTheorems.v
Net.v
NetCodec.v
NetInv.v
NetArp.v
NetUdp.v
NetDhcp.v
NetCalls.v
NetTheorems.v
Vmm.v
VmmInv.v
VmmMap.v
VmmCopy.v
VmmTheorems.v
Elf.v
ElfLoad.v
Process.v
ProcInv.v
ProcTheorems.v
Device.v
Syscall.v
SyscallInv.v
SyscallTheorems.v
PortIo.v
Pci.v
Eth.v
Nvme.v
NvmeRing.v
NvmeQueues.v
NvmeInit.v
NvmeTheorems.v
Serial.v
Framebuffer.v
Descriptors.v
Interrupts.v
PageFaultReturn.v
Apic.v
Acpi.v
Hpet.v
Smp.v
CLib.v
Types.v
Limine.v
Boot.v
System.v
SystemAcpi.v
VfsTests.v
