(* ===== verification/Prelude.v ===== *)
(** * VortexOS kernel: verification library

    A model of the VortexOS kernel (x86-64, C++) and the properties that make
    its components correct.  The sources are named relative to the repository:
    src/kernel/x.cpp, src/arch/x86_64/x.cpp, include/vortex/kernel/x.hpp.

    ** The program and how its parts interact

    The boot loader hands the kernel a memory map, through requests in its image
    (limine.hpp).  The physical memory manager
    (mm.cpp) is a buddy allocator over it; everything that needs pages calls
    it.  The heap (heap.cpp) gives objects to the file system (vfs.cpp), to
    virtual memory (vmm.cpp) and to processes (process.cpp).  Threads (thread.cpp)
    get their stacks from the page allocator, the scheduler (scheduler.cpp) keeps
    the ready queues and switches between them (context_switch.S).  The page-fault
    handler (pf.cpp) and the program loader (elf.cpp) work on page tables.
    System calls (syscall.cpp, syscall_entry.asm) bring these together; drivers
    may list their devices in a registry (device.cpp).
    The network stack (net.cpp) sits on the virtio driver (eth.cpp), which finds
    its device over the PCI configuration ports (pci.cpp, io.hpp); so does the
    NVMe driver (nvme.cpp), which shares its queues with the controller.
    Interrupts enter through the gates of idt.cpp and the assembly of
    isr_stubs.cpp, on the segments and stacks of gdt.cpp, and are dispatched to
    the handlers of the other files.  The local APIC (apic.cpp) drives the
    scheduler's timer and starts the other processors (smp.cpp), found like the
    HPET (hpet.cpp) in the tables of the firmware.  Output goes to the serial port
    (serial.cpp) and the framebuffer (framebuffer.cpp); [kernel_main] (entry.cpp)
    initialises everything in order.

    ** How code is modelled

    A routine is a function of [M S A] below: explicit state passing with three
    outcomes, [Ok] with a value and a state, [Panic] for KERNEL_PANIC and
    KERNEL_BUG_ON, and [UB] for what C++ leaves undefined (a read outside an
    object, a null dereference, a shift by the width) and for a loop that runs
    out of fuel.  [wp] is total correctness, so a theorem with a [wp] or an [Ok]
    says that the routine returns.  Unsigned integers are [Z] with [wrap w]
    where the code wraps.  Static variables are record fields, heap objects
    entries of a [gmap] by address, raw memory a function of the address.  Log
    output to the serial port is left out, except in the handlers of processor
    exceptions and in the panic routine, whose output is what they are for.

    Code outside a component is an argument: [PageAllocator] (PageAlloc.v) is
    what the clients of the page allocator rely on, and Pmm* discharges it;
    [KernelHeap] (KernelHeap.v) is what clients of kmalloc and kfree rely on,
    discharged by the slab heap in HeapTheorems.v; [FrameStore] (Heap.v) is what
    that heap relies on in the page frames, discharged in HeapPmm.v; [EthLayer]
    (Net.v) is what the network stack relies on, discharged by the driver in Eth.v and by a wire
    that keeps its frames in NetTheorems.v; [hardware] (PortIo.v) is what the
    ports return, arbitrary but for [config_space], the documented behaviour
    of PCI configuration mechanism 1; [mmio_device] (PortIo.v) is what
    memory-mapped registers return, and the classes [HasPorts], [HasMmio] and
    [HasMsrs] say which states record such accesses; [controller] (NvmeRing.v) is
    the protocol of an NVMe controller, which NvmeTheorems.v gives an instance
    of; [boot_ops] (Boot.v) are the operations the boot calls, which
    System.v gives the components' own; [limine_answers] (Limine.v) is what the
    boot loader leaves in memory; [framed] (HeapShared.v) is the page allocator as
    one of several users of the same pages sees it; [xlate] (Syscall.v) is the address
    translation of the processor for kernel accesses to user memory.

    ** Files

    - Prelude, LinkedList, Bytes: the monad, its logic and tactics; singly and
      doubly linked lists in memory; little-endian words and byte memory.
    - Pmm (mm.cpp, mm.hpp), PmmBlocks, PmmInv, PmmAlloc, PmmInit, PageAlloc,
      PmmTheorems: the buddy allocator.  State: frames, the eleven free lists
      and the counters.  Invariant [pmm_inv]: the lists are doubly linked
      chains, free and allocated blocks are aligned, disjoint and inside
      memory, and kFreePages counts the free pages.
    - Thread (thread.cpp), Sched (scheduler.cpp), SchedInv, SchedPick, Switch
      (context_switch.S), SchedRefine, SchedRun, SchedTheorems: threads, ready
      queues and the switch of register files; [abs_schedule] is the abstract
      scheduler on lists, [sched_step] the runs of the whole component.
    - Heap (heap.cpp), HeapLists, HeapInv, HeapOps, HeapAlloc, HeapPages, HeapSpec,
      HeapPmm, HeapTheorems, HeapShared: the slab heap.  State: the page allocator, slab
      headers by address, the first words of free objects and the nine caches.
      Invariant [heap_inv]: every slab is a page of its own on the list its
      free count says, its free list is a chain of distinct objects in the page,
      and the live addresses are the other objects and the blocks handed out.
      HeapShared has one allocator under the heap and under clients that
      take pages themselves; its invariant [mem_inv] says who holds what.
    - KernelHeap, Vfs (vfs.cpp), VfsInv, VfsTree, VfsFile, VfsTheorems: nodes,
      mounts, path walks, tmpfs and devfs; abstractly a tree with child lists
      and files as byte lists.  VfsTests: the repository's tests of it.
    - Net (net.cpp), NetCodec, NetInv, NetArp, NetUdp, NetDhcp, NetCalls,
      NetTheorems: frames as byte lists through Ethernet, ARP, IPv4, ICMP, UDP, the TCP
      stub, DHCP and the socket calls.
    - Vmm (vmm.cpp, pf.cpp), VmmInv, VmmMap, VmmCopy, VmmTheorems: page tables as
      512 words in memory.  [table] follows present entries from a root, [pte]
      is the leaf entry of an address; invariant [as_inv]: tables are distinct
      page frames outside the free memory.
    - Elf (elf.cpp), ElfLoad: the program loader.
    - Process (process.cpp), ProcInv, ProcTheorems: the process list; invariant
      [procs_inv]: a chain of exactly the live process objects with distinct
      identifiers.
    - Syscall (syscall.cpp, syscall_entry.asm), SyscallInv, SyscallTheorems: the
      system calls over processes, threads and files put together in one
      [kernel] record; the components share one page allocator, heap and memory,
      kept with the processes.
    - Device (device.cpp): the device registry, a list threaded through the
      devices; abstractly a list of at most 128 distinct names.
    - PortIo (io.hpp): port, memory-mapped and machine-specific registers;
      accesses are recorded events.
    - Pci (pci.cpp), Eth (eth.cpp): enumeration; the
      handshake of the network driver.
    - Nvme (nvme.cpp), NvmeRing, NvmeQueues, NvmeInit, NvmeTheorems: queues in
      memory the controller also writes.  Invariant of a ring: indices and phase
      are the counts of commands and completions modulo its size.
    - Serial (serial.cpp), Framebuffer (framebuffer.cpp): output; abstractly decimal numerals and a console of pixels.
    - Descriptors (gdt.cpp, arch/x86_64/syscall.cpp), Interrupts (idt.cpp,
      isr_stubs.cpp), PageFaultReturn: descriptor tables and gates as the
      processor decodes them; the stubs instruction by instruction, from delivery
      to iretq; their composition with the page-fault handler.
    - Apic (apic.cpp), Acpi, Hpet (hpet.cpp), Smp (smp.cpp, trampoline.asm): the
      timers, the firmware tables and the start of the other processors.
    - CLib (string.cpp, panic.cpp): memory routines and the panic report.
    - Types (types.hpp, ktest.hpp, userland.hpp): address types, results, latency
      checks, system call wrappers.
    - Limine (limine.hpp, the requests of entry.cpp), Boot (entry.cpp): the boot
      protocol and the boot sequence, over any kernel state.
    - System, SystemAcpi: the boot over the state of the whole kernel, with every
      operation the component's own.  Memory, traces and the store of pages and
      objects are kept once and lent to a component for a call.

    ** What the theorems show

    - Page allocator: allocation and deallocation on every branch, round trip,
      initialisation from a memory map, safety of any client that frees what it
      holds; the bounds of the alignment functions; blocks split after boot
      never merge again.
    - Heap: no run of kmalloc and kfree, mixed with direct calls of the page
      allocator, faults from boot on, and objects and pages held never overlap; with a frame array that was not zero, kfree follows garbage.
    - Scheduler: [schedule] refines the abstract scheduler and restores the
      registers of the thread it switches to; the choice of the next thread;
      round robin; the invariant in every run from boot; outcomes of thread
      creation; the first switch to a new thread calls address 0; the idle
      thread starves normal threads.
    - File system: opening is the walk of the path's components; directories
      made are found; reads give back writes, which refine byte lists;
      initialisation leaves a well-formed tree; writes past the one page of a file
      are undefined; of the repository's 26 tests 25 pass on the model.
    - Network: a datagram sent is the datagram received; no public call faults
      on frames with consistent lengths; ARP cache, checksum and DHCP against their
      specifications; the client never gets an address; headers with options
      are read past their copy.
    - Virtual memory: mapping and unmapping change exactly one translation;
      copy-on-write faults; what a clone shares.
    - Loader: what is in memory when the entry address is returned.
    - Processes: creation, lookup and destruction on a consistent list.
    - System calls: fork on every branch, with the invariants of processes and
      threads together; the entry code loses the number of every call; execve
      faults on any argument and returns to the old address.
    - Device registry: find, register and unregister refine operations on a list
      of distinct names.
    - PCI and network driver: the scan ends when bridges lead upwards and never ends
      on a cycle; the accesses of the driver are the virtio handshake.
    - NVMe: against any controller the driver returns and keeps its memory;
      against one that keeps the protocol every command is answered with its own
      status; a block transfer issues the command it should.
    - Interrupts: tables decode to the intended segments and gates; an interrupt
      without error code resumes the interrupted code with its registers; what
      a handler is given; a page fault that was resolved does not resume, because
      the error code stays on the stack.
    - Timers and processors: the calibration and the accesses of the APIC; the
      clock of the HPET is exact below its overflow; every usable
      processor is listed and sent its start-up commands.
    - Output: decimal numerals read back; writing to the console refines drawing,
      wrapping and scrolling a picture, inside the framebuffer.
    - Boot: each component is initialised once and after those it uses, or the
      boot halts before any of them.
    - The kernel as a whole: without ACPI tables the boot reaches its idle loop with
      every component in the state its own theorems start from; with them it
      does not, because the HPET driver reads a physical address.

    ** Fuel

    List loops take the number of objects as fuel and are proved to need no
    more (the chain has no repetition).  The order search of the allocator has
    fuel 64, the number of defined shifts.  The page loop of the loader has the
    number of pages plus one.  The recursion of the PCI scan takes its fuel as an
    argument: 256 minus the bus number is enough when bridges lead upwards, and
    no fuel is enough on a cycle.  Reading user strings in execve takes any fuel:
    their length is up to the program.  Loops that wait for hardware without a
    bound in the code (serial port, APIC, HPET sleep, start of a processor) take
    their fuel as an argument, and the theorems say how much the answers of the
    hardware make enough; the waits of the NVMe driver have the code's own bound
    of 1000000 turns.

    ** Not modelled

    The answers of the boot loader that are only logged (its name, the kernel's
    addresses, the base revision) and its description of framebuffers, which
    nothing uses.  In the components' models the strong address types are plain
    integers.  The assembly
    the other processors start in is modelled by the lengths of its
    instructions only, which decide where the code finds its parameters; what
    those processors run after is not.  Memory is sequentially consistent: the
    order in which devices and other processors see stores is the program order.
    The TLB is not modelled, so properties of page tables speak of the tables in
    memory.  The files of the file system, the address spaces and the queues of
    the NVMe driver are proved over a heap and a page allocator of their own each;
    that such users can share one memory is what HeapShared.v shows for any
    mixture of their calls, and System.v for the boot. *)

From stdpp Require Export base tactics option list numbers gmap functions.
From stdpp Require Export strings.

Open Scope Z_scope.

(** ** Machine integers

    An unsigned [w]-bit integer is a [Z] in [0, 2^w); the C++ arithmetic on
    [uintN_t] wraps, which is written out with [wrap]. *)

Declare Scope vortex_scope.
Delimit Scope vortex_scope with vx.

Definition wrap (w x : Z) : Z := x mod 2 ^ w.

Abbreviation u8 := (wrap 8).
Abbreviation u16 := (wrap 16).
Abbreviation u32 := (wrap 32).
Abbreviation u64 := (wrap 64).

Notation "x +64 y" := (wrap 64 (x + y)) (at level 50, left associativity) : vortex_scope.
Notation "x -64 y" := (wrap 64 (x - y)) (at level 50, left associativity) : vortex_scope.
Open Scope vortex_scope.

Lemma wrap_range w x : 0 ≤ w → 0 ≤ wrap w x < 2 ^ w.
Proof. intros Hw. apply Z.mod_pos_bound, Z.pow_pos_nonneg; lia. Qed.

Lemma wrap_small w x : 0 ≤ x < 2 ^ w → wrap w x = x.
Proof. apply Z.mod_small. Qed.

Lemma wrap_idemp w x : 0 ≤ w → wrap w (wrap w x) = wrap w x.
Proof. intros Hw. apply wrap_small, wrap_range, Hw. Qed.

Lemma wrap_sub_add w x y : wrap w (wrap w (x + y) - y) = wrap w x.
Proof. unfold wrap. rewrite Zminus_mod_idemp_l. f_equal. lia. Qed.

(** ** Outcomes of kernel code

    A kernel routine returns, stops the machine ([KERNEL_PANIC]), or does
    something the C++ standard leaves undefined (an access outside the object
    it indexes, a shift by 64 or more, a null dereference).  The three are the
    constructors of [outcome]; routines that touch state live in the state
    monad [M] over it. *)

Inductive outcome (A : Type) : Type :=
  | Ok (a : A)
  | Panic (msg : string)
  | UB.
Arguments Ok {A} a.
Arguments Panic {A} msg.
Arguments UB {A}.

Definition M (S A : Type) : Type := S → outcome (A * S).

Global Instance M_ret S : MRet (M S) := λ A a s, Ok (a, s).
Global Instance M_bind S : MBind (M S) := λ A B k m s,
  match m s with
  | Ok (a, s') => k a s'
  | Panic msg => Panic msg
  | UB => UB
  end.

Definition get {S} : M S S := λ s, Ok (s, s).
Definition gets {S A} (f : S → A) : M S A := λ s, Ok (f s, s).
Definition modify {S} (f : S → S) : M S () := λ s, Ok ((), f s).
Definition undefined {S A} : M S A := λ _, UB.
Definition panic {S A} (msg : string) : M S A := λ _, Panic msg.

(** The state a routine leaves when it returns. *)
Definition final_state {S A} (m : M S A) (s : S) : S :=
  match m s with Ok (_, s') => s' | _ => s end.

(** A read through a pointer or an index: [None] is outside the object. *)
Definition deref {S A} (o : option A) : M S A :=
  match o with Some a => mret a | None => undefined end.

(** [if (b) m;] with no else branch. *)
Definition when {S} (b : bool) (m : M S ()) : M S () :=
  if b then m else mret ().

(** [for (x : xs) f(x);] *)
Fixpoint for_each {S} (xs : list Z) (f : Z → M S ()) : M S () :=
  match xs with
  | [] => mret ()
  | x :: xs => f x;; for_each xs f
  end.

(** Total-correctness weakest precondition of [M]: the routine returns, and
    [Q] holds of its value and final state. *)
Definition wp {S A} (m : M S A) (Q : A → S → Prop) (s : S) : Prop :=
  match m s with Ok (a, s') => Q a s' | _ => False end.

Section wp.
Context {S : Type}.

Lemma wp_ret {A} (a : A) (Q : A → S → Prop) s : Q a s → wp (mret a) Q s.
Proof. done. Qed.

Lemma wp_bind {A B} (m : M S A) (k : A → M S B) (Q : B → S → Prop) s :
  wp m (λ a, wp (k a) Q) s → wp (m ≫= k) Q s.
Proof. unfold wp, mbind, M_bind. destruct (m s) as [[a s']| |]; done. Qed.

Lemma wp_mono {A} (m : M S A) (P Q : A → S → Prop) s :
  wp m P s → (∀ a s', P a s' → Q a s') → wp m Q s.
Proof. unfold wp. destruct (m s) as [[a s']| |]; naive_solver. Qed.

Lemma wp_get (Q : S → S → Prop) s : Q s s → wp get Q s.
Proof. done. Qed.

Lemma wp_gets {A} (f : S → A) (Q : A → S → Prop) s : Q (f s) s → wp (gets f) Q s.
Proof. done. Qed.

Lemma wp_modify (f : S → S) (Q : () → S → Prop) s : Q () (f s) → wp (modify f) Q s.
Proof. done. Qed.

Lemma wp_deref {A} (o : option A) a (Q : A → S → Prop) s :
  o = Some a → Q a s → wp (deref o) Q s.
Proof. by intros ->. Qed.

Lemma wp_when (b : bool) (m : M S ()) (Q : () → S → Prop) s :
  (if b then wp m Q s else Q () s) → wp (when b m) Q s.
Proof. by destruct b. Qed.

Lemma wp_ok {A} (m : M S A) (Q : A → S → Prop) s :
  wp m Q s ↔ ∃ a s', m s = Ok (a, s') ∧ Q a s'.
Proof. unfold wp. destruct (m s) as [[a s']| |]; naive_solver. Qed.

Lemma wp_eq {A} (m : M S A) (Q : A → S → Prop) s a s' : m s = Ok (a, s') → Q a s' → wp m Q s.
Proof. unfold wp. by intros ->. Qed.

Lemma wp_result {A} (m : M S A) (Q : A → S → Prop) s a s' : wp m Q s → m s = Ok (a, s') → Q a s'.
Proof. unfold wp. intros H E. by rewrite E in H. Qed.

Lemma wp_final_state {A} (m : M S A) (Q : A → S → Prop) s : wp m Q s → ∃ a, Q a (final_state m s).
Proof. unfold wp, final_state. destruct (m s) as [[a s']| |]; [eauto|done..]. Qed.

Lemma wp_bind_assoc {A B C} (m : M S A) (k : A → M S B) (h : B → M S C) (Q : C → S → Prop) s :
  wp ((m ≫= k) ≫= h) Q s → wp (m ≫= λ a, k a ≫= h) Q s.
Proof. unfold wp, mbind, M_bind. by destruct (m s) as [[? ?]| |]. Qed.

Lemma bind_ok {A B} (m : M S A) (k : A → M S B) s a s' :
  m s = Ok (a, s') → (m ≫= k) s = k a s'.
Proof. intros H. unfold mbind, M_bind. by rewrite H. Qed.

Lemma bind_ext2 {A B} (m m' : M S A) (k k' : A → M S B) s :
  m s = m' s → (∀ a s', k a s' = k' a s') → (m ≫= k) s = (m' ≫= k') s.
Proof. intros E H. unfold mbind, M_bind. rewrite E. by destruct (m' s) as [[a s']| |]. Qed.

Lemma bind_ext {A B} (m : M S A) (k k' : A → M S B) s :
  (∀ a s', k a s' = k' a s') → (m ≫= k) s = (m ≫= k') s.
Proof. by apply bind_ext2. Qed.

Lemma bind_ub {A B} (m : M S A) (k : A → M S B) s : m s = UB → (m ≫= k) s = UB.
Proof. intros H. unfold mbind, M_bind. by rewrite H. Qed.
End wp.

(** A counting loop keeps what each turn hands to the next. *)
Lemma for_each_wp {S} (I : Z → S → Prop) a n (f : Z → M S ()) s : 0 ≤ n → I a s →
  (∀ i s', a ≤ i < a + n → I i s' → wp (f i) (λ _, I (i + 1)) s') →
  wp (for_each (seqZ a n) f) (λ _, I (a + n)) s.
Proof.
  intros Hn. rewrite <-(Z2Nat.id n Hn). generalize (Z.to_nat n). clear n Hn. intros n. revert a s.
  induction n as [|n IH]; intros a s Ha Hf; [rewrite Z.add_0_r; by apply wp_ret|].
  rewrite seqZ_cons by lia. cbn [for_each]. replace (Z.of_nat (Datatypes.S n)) with (Z.succ (Z.of_nat n)) in * by lia.
  rewrite Z.pred_succ. apply wp_bind. eapply wp_mono; [apply (Hf a); [lia|done]|]. intros [] s1 H1. cbn beta in H1.
  replace (a + Z.succ (Z.of_nat n)) with (Z.succ a + Z.of_nat n) by lia. apply IH; [by replace (Z.succ a) with (a + 1) by lia|].
  intros i s2 Hi H2. apply Hf; [lia|done].
Qed.

(** Partial correctness: if the routine returns, [Q] holds. *)
Definition wlp {S A} (m : M S A) (Q : A → S → Prop) (s : S) : Prop :=
  match m s with Ok (a, s') => Q a s' | _ => True end.

Section wlp.
Context {S : Type}.

Lemma wlp_bind {A B} (m : M S A) (k : A → M S B) (Q : B → S → Prop) s :
  wlp m (λ a, wlp (k a) Q) s → wlp (m ≫= k) Q s.
Proof. unfold wlp, mbind, M_bind. destruct (m s) as [[a s']| |]; done. Qed.

Lemma wlp_ret {A} (a : A) (Q : A → S → Prop) s : Q a s → wlp (mret a) Q s.
Proof. done. Qed.

Lemma wlp_get (Q : S → S → Prop) s : Q s s → wlp get Q s.
Proof. done. Qed.

Lemma wlp_modify (f : S → S) (Q : () → S → Prop) s : Q () (f s) → wlp (modify f) Q s.
Proof. done. Qed.

Lemma wlp_mono {A} (m : M S A) (P Q : A → S → Prop) s :
  wlp m P s → (∀ a s', P a s' → Q a s') → wlp m Q s.
Proof. unfold wlp. destruct (m s) as [[a s']| |]; naive_solver. Qed.

Lemma wlp_deref {A} (o : option A) (Q : A → S → Prop) s :
  (∀ a, o = Some a → Q a s) → wlp (deref o) Q s.
Proof. destruct o; simpl; [|done]. intros H. by apply H. Qed.

Lemma wlp_result {A} (m : M S A) (Q : A → S → Prop) s a s' : wlp m Q s → m s = Ok (a, s') → Q a s'.
Proof. unfold wlp. intros H E. by rewrite E in H. Qed.

Lemma wlp_true {A} (m : M S A) (Q : A → S → Prop) s : (∀ a s', Q a s') → wlp m Q s.
Proof. intros HQ. unfold wlp. by destruct (m s) as [[a s']| |]. Qed.

Lemma wp_wlp {A} (m : M S A) (P Q : A → S → Prop) s : wp m P s → wlp m Q s → wp m (λ a s', P a s' ∧ Q a s') s.
Proof. unfold wp, wlp. by destruct (m s) as [[a s']| |]. Qed.
End wlp.

(** ** Frames

    A routine that, when it returns, has moved the state along a preorder. *)

Definition keeps {S A} (R : S → S → Prop) (m : M S A) : Prop := ∀ s, wlp m (λ _ s', R s s') s.

Section keeps.
Context {S : Type} {R : S → S → Prop} `{!PreOrder R}.

Lemma keeps_bind {A B} (m : M S A) (k : A → M S B) : keeps R m → (∀ a, keeps R (k a)) → keeps R (m ≫= k).
Proof.
  intros Hm Hk s. apply wlp_bind. eapply wlp_mono; [apply Hm|]. intros a s1 H1. eapply wlp_mono; [apply Hk|].
  intros b s2 H2. exact (transitivity H1 H2).
Qed.
Lemma keeps_ret {A} (a : A) : keeps R (mret a).
Proof. intros s. apply wlp_ret. reflexivity. Qed.
Lemma keeps_deref {A} (o : option A) : keeps R (deref o).
Proof. intros s. apply wlp_deref. intros a _. reflexivity. Qed.
Lemma keeps_undefined {A} : keeps R (@undefined S A).
Proof. done. Qed.
Lemma keeps_panic {A} msg : keeps R (@panic S A msg).
Proof. done. Qed.
Lemma keeps_gets {A} (f : S → A) : keeps R (gets f).
Proof. intros s. cbn. reflexivity. Qed.
Lemma keeps_get : keeps R get.
Proof. intros s. apply wlp_get. reflexivity. Qed.
Lemma keeps_modify f : (∀ s, R s (f s)) → keeps R (modify f).
Proof. intros Hf s. apply wlp_modify, Hf. Qed.
Lemma keeps_for_each (xs : list Z) f : (∀ x, keeps R (f x)) → keeps R (for_each xs f).
Proof. intros Hf. induction xs as [|x xs IH]; [apply keeps_ret|]. cbn [for_each]. by apply keeps_bind. Qed.
Lemma keeps_when b m : keeps R m → keeps R (when b m).
Proof. destruct b; [done|]. intros _. apply keeps_ret. Qed.
Lemma keeps_weaken {A} (R' : S → S → Prop) (m : M S A) : (∀ s s', R' s s' → R s s') → keeps R' m → keeps R m.
Proof. intros H Hm s. eapply wlp_mono; [apply Hm|]. intros a s'. apply H. Qed.
Lemma keeps_result {A} (m : M S A) s a s' : keeps R m → m s = Ok (a, s') → R s s'.
Proof. intros Hm. apply (wlp_result m (λ _, R s)), Hm. Qed.
End keeps.

Create HintDb vortex.
#[export] Hint Resolve keeps_ret keeps_deref keeps_undefined keeps_panic keeps_gets keeps_get keeps_for_each keeps_when : vortex.
#[export] Hint Extern 0 (PreOrder _) => typeclasses eauto : vortex.

(** Walks through the structure of a routine; what it calls is left to the hints. *)
Ltac keeps_tac :=
  repeat match goal with
  | |- keeps _ (_ ≫= _) => apply keeps_bind; intros
  | |- keeps _ (match ?x with _ => _ end) => destruct x
  end; auto with vortex.

(** ** Automation *)

#[export] Hint Resolve wp_ret wp_get wp_gets wp_modify : vortex.

(** One step of symbolic execution of a monadic routine. *)
Ltac wp_step :=
  match goal with
  | |- wp (_ ≫= _) _ _ => apply wp_bind
  | |- wp (mret _) _ _ => apply wp_ret
  | |- wp get _ _ => apply wp_get
  | |- wp (gets _) _ _ => apply wp_gets; cbn beta
  | |- wp (modify _) _ _ => apply wp_modify; cbn beta
  | |- wp (deref _) _ _ => eapply wp_deref; [by eauto|]
  | |- wp (when _ _) _ _ => apply wp_when
  end.
Ltac wp_run := repeat wp_step.

(** Turn boolean tests of the code into propositions. *)
Ltac bool_props :=
  repeat match goal with
  | H : (_ && _) = true |- _ => apply andb_prop in H; destruct H
  | H : (_ || _) = false |- _ => apply orb_false_elim in H; destruct H
  | H : negb _ = true |- _ => apply negb_true_iff in H
  | H : negb _ = false |- _ => apply negb_false_iff in H
  | H : (_ =? _) = true |- _ => apply Z.eqb_eq in H
  | H : (_ =? _) = false |- _ => apply Z.eqb_neq in H
  | H : (_ <? _) = true |- _ => apply Z.ltb_lt in H
  | H : (_ <? _) = false |- _ => apply Z.ltb_ge in H
  | H : (_ <=? _) = true |- _ => apply Z.leb_le in H
  | H : (_ <=? _) = false |- _ => apply Z.leb_gt in H
  end.

(** Case analysis on the outermost boolean test of the goal. *)
Ltac case_if :=
  match goal with
  | |- context [if ?b then _ else _] => destruct b eqn:?; bool_props
  end.

(** ** Flag words *)

Definition has_flag (flags bit : Z) : bool := negb (Z.land flags bit =? 0).
Definition set_flag (flags bit : Z) : Z := Z.lor flags bit.
Definition clear_flag (w flags bit : Z) : Z := Z.land flags (wrap w (Z.lnot bit)).

Section flags.
Implicit Types f j k w : Z.

Lemma testbit_shiftl_1 k j : 0 ≤ k → 0 ≤ j → Z.testbit (Z.shiftl 1 k) j = (j =? k).
Proof.
  intros Hk Hj. rewrite Z.shiftl_1_l, Z.pow2_bits_eqb by done. apply Z.eqb_sym.
Qed.

Lemma has_flag_bit f k : 0 ≤ k → has_flag f (Z.shiftl 1 k) = Z.testbit f k.
Proof.
  intros Hk. unfold has_flag. destruct (Z.testbit f k) eqn:E.
  - apply negb_true_iff, Z.eqb_neq. intros H0. apply (f_equal (λ z, Z.testbit z k)) in H0.
    rewrite Z.land_spec, testbit_shiftl_1, E, Z.eqb_refl, Z.bits_0 in H0 by done. done.
  - apply negb_false_iff, Z.eqb_eq, Z.bits_inj'. intros j Hj.
    rewrite Z.land_spec, testbit_shiftl_1, Z.bits_0 by done.
    destruct (Z.eqb_spec j k) as [->|]; [by rewrite E | apply andb_false_r].
Qed.

Lemma set_flag_bit f k j : 0 ≤ k → 0 ≤ j →
  Z.testbit (set_flag f (Z.shiftl 1 k)) j = Z.testbit f j || (j =? k).
Proof. intros Hk Hj. unfold set_flag. by rewrite Z.lor_spec, testbit_shiftl_1. Qed.

Lemma clear_flag_bit w f k j : 0 ≤ k → 0 ≤ j < w →
  Z.testbit (clear_flag w f (Z.shiftl 1 k)) j = Z.testbit f j && negb (j =? k).
Proof.
  intros Hk Hj. unfold clear_flag, wrap.
  rewrite Z.land_spec, Z.mod_pow2_bits_low, Z.lnot_spec, testbit_shiftl_1 by lia. done.
Qed.
End flags.

(** ** Words below a power of two *)

Lemma testbit_high x k n : 0 ≤ x < 2 ^ k → 0 ≤ k ≤ n → Z.testbit x n = false.
Proof. intros Hx Hn. rewrite <-(Z.mod_small x (2 ^ k)) by done. apply Z.mod_pow2_bits_high. lia. Qed.

Lemma lor_bound a b k : 0 ≤ k → 0 ≤ a < 2 ^ k → 0 ≤ b < 2 ^ k → 0 ≤ Z.lor a b < 2 ^ k.
Proof.
  intros Hk Ha Hb. split; [apply Z.lor_nonneg; lia|].
  assert (E : Z.lor a b = Z.lor a b mod 2 ^ k).
  { apply Z.bits_inj'. intros n Hn. destruct (decide (n < k)) as [Hl|Hl].
    - by rewrite Z.mod_pow2_bits_low.
    - rewrite Z.mod_pow2_bits_high, Z.lor_spec by lia.
      rewrite (testbit_high a k), (testbit_high b k) by lia. done. }
  rewrite E. apply Z.mod_pos_bound. lia.
Qed.
