(* ===== verification/LinkedList.v ===== *)
(** * Intrusive linked lists

    The kernel threads its lists through the objects themselves (page frames,
    thread control blocks, devices, processes, VFS nodes).  This file relates
    such a list, given by its link functions, to the Rocq list of the objects
    it visits.  The link functions are partial views of a component's store, so
    the lemmas speak of link functions that agree on the members only. *)

From S2P Require Import Prelude.

Section lists.
Context {K : Type} `{!EqDecision K}.
Implicit Types (next prev : K → option K) (l : list K) (x y : K) (h p t q : option K).

(** ** Singly linked segments *)

Fixpoint lseg next h l t : Prop :=
  match l with
  | [] => h = t
  | x :: l' => h = Some x ∧ lseg next (next x) l' t
  end.

Definition chain next h l : Prop := lseg next h l None.

Lemma lseg_app next h l1 l2 t :
  lseg next h (l1 ++ l2) t ↔ ∃ m, lseg next h l1 m ∧ lseg next m l2 t.
Proof. revert h; induction l1 as [|x l1 IH]; intros h; simpl; [naive_solver|]. rewrite IH. naive_solver. Qed.

Lemma lseg_ext next next' h l t :
  (∀ x, x ∈ l → next' x = next x) → lseg next h l t → lseg next' h l t.
Proof.
  revert h; induction l as [|x l IH]; intros h Hext; simpl; [done|].
  intros [-> Hl]. split; [done|]. rewrite Hext by set_solver. apply IH; set_solver.
Qed.

Lemma lseg_head next h l : chain next h l → head l = h.
Proof. unfold chain. destruct l; simpl; naive_solver. Qed.

Lemma chain_det next h l l' : chain next h l → chain next h l' → l = l'.
Proof.
  unfold chain. revert h l'; induction l as [|x l IH]; intros h [|y l']; simpl; naive_solver.
Qed.

(** A chain cannot visit an object twice: it would never end. *)
Lemma chain_NoDup next h l : chain next h l → NoDup l.
Proof.
  unfold chain. revert h; induction l as [|x l IH]; intros h; [constructor|].
  intros [-> Hl]. constructor; [|by eapply IH].
  intros (l1 & l2 & ->)%list_elem_of_split.
  pose proof Hl as Hl'. apply lseg_app in Hl as (m & _ & [-> Hx]).
  pose proof (chain_det _ _ _ _ Hl' Hx) as E. apply (f_equal length) in E.
  rewrite length_app in E. simpl in E. lia.
Qed.

(** Appending behind the last object. *)
Lemma chain_snoc next next' h l x :
  chain next h l → x ∉ l →
  next' x = None →
  (∀ y, y ∈ l → next' y = if decide (last l = Some y) then Some x else next y) →
  chain next' (match h with Some _ => h | None => Some x end) (l ++ [x]).
Proof.
  intros Hc Hx Hnx Hn. unfold chain in *.
  destruct l as [|y l0 _] using rev_ind.
  { simpl in *. by subst. }
  rewrite last_snoc in Hn.
  assert (NoDup (l0 ++ [y])) as Hnd by by eapply chain_NoDup.
  apply lseg_app in Hc as (m & H0 & [-> Hy]). simpl in Hy.
  assert (Hh : match h with Some _ => h | None => Some x end = h).
  { destruct l0; simpl in H0; naive_solver. }
  rewrite Hh, <-app_assoc. apply lseg_app. exists (Some y). split.
  - apply (lseg_ext next); [|done]. intros z Hz. rewrite Hn by set_solver.
    rewrite decide_False; [done|]. intros [= ->].
    apply NoDup_app in Hnd. set_solver.
  - simpl. split; [done|]. rewrite Hn by set_solver. rewrite decide_True by done. by rewrite Hnx.
Qed.

(** Unlinking a member by redirecting its predecessor. *)
Lemma chain_remove next next' h l1 x l2 :
  chain next h (l1 ++ x :: l2) →
  (∀ y, y ∈ l1 ++ l2 → next' y = if decide (last l1 = Some y) then next x else next y) →
  chain next' (match last l1 with Some _ => h | None => next x end) (l1 ++ l2).
Proof.
  intros Hc Hn. pose proof (chain_NoDup _ _ _ Hc) as Hnd. unfold chain in *.
  apply lseg_app in Hc as (m & H1 & [-> H2]).
  apply NoDup_app in Hnd as (Hnd1 & Hdisj & [Hx Hnd2]%NoDup_cons).
  assert (Htail : lseg next' (next x) l2 None).
  { eapply lseg_ext, H2. intros y Hy. rewrite Hn by set_solver. rewrite decide_False; [done|].
    intros Hl%last_Some_elem_of. set_solver. }
  destruct l1 as [|y l0 _] using rev_ind; [done|]. rewrite last_snoc in *.
  apply lseg_app in H1 as (m & H0 & [-> Hy]). apply NoDup_app in Hnd1 as (_ & Hyl & _).
  rewrite <-app_assoc. apply lseg_app. exists (Some y). split.
  - eapply lseg_ext, H0. intros z Hz. rewrite Hn by set_solver. rewrite decide_False; [done|]. set_solver.
  - split; [done|]. rewrite Hn by set_solver. by rewrite decide_True.
Qed.

Lemma chain_next next h l1 x l2 : chain next h (l1 ++ x :: l2) → next x = list.head l2.
Proof.
  intros Hc. apply lseg_app in Hc as (m & _ & [_ H2]). symmetry. by apply (lseg_head next).
Qed.

(** ** Doubly linked lists *)

Fixpoint dseg next prev p h l q t : Prop :=
  match l with
  | [] => h = t ∧ p = q
  | x :: l' => h = Some x ∧ prev x = p ∧ dseg next prev (Some x) (next x) l' q t
  end.

Definition dchain next prev h l : Prop := ∃ q, dseg next prev None h l q None.

Lemma dseg_app next prev p h l1 l2 q t :
  dseg next prev p h (l1 ++ l2) q t ↔
  ∃ m hm, dseg next prev p h l1 m hm ∧ dseg next prev m hm l2 q t.
Proof.
  revert p h; induction l1 as [|x l1 IH]; intros p h; simpl.
  - split; [eauto 10|]. by intros (?&?&[-> ->]&?).
  - rewrite IH. naive_solver.
Qed.

Lemma dseg_ext next prev next' prev' p h l q t :
  (∀ x, x ∈ l → next' x = next x) → (∀ x, x ∈ l → prev' x = prev x) →
  dseg next prev p h l q t → dseg next' prev' p h l q t.
Proof.
  revert p h; induction l as [|x l IH]; intros p h Hn Hp; simpl; [done|].
  intros (-> & Hpx & Hl). split; [done|]. rewrite Hn, Hp by set_solver.
  split; [done|]. apply IH; set_solver.
Qed.

Lemma dchain_ext next prev next' prev' h l :
  (∀ x, x ∈ l → next' x = next x) → (∀ x, x ∈ l → prev' x = prev x) →
  dchain next prev h l → dchain next' prev' h l.
Proof. intros ?? [q Hl]. exists q. by eapply dseg_ext. Qed.

Lemma dseg_lseg next prev p h l q t : dseg next prev p h l q t → lseg next h l t.
Proof. revert p h; induction l; intros p h; simpl; naive_solver. Qed.

Lemma dchain_chain next prev h l : dchain next prev h l → chain next h l.
Proof. intros [q Hl]. by eapply dseg_lseg. Qed.

Lemma dchain_NoDup next prev h l : dchain next prev h l → NoDup l.
Proof. intros Hl%dchain_chain. by eapply chain_NoDup. Qed.

Lemma dchain_nil_inv next prev h l : dchain next prev h l → h = None → l = [].
Proof. intros [q Hl] ->. destruct l; simpl in Hl; naive_solver. Qed.

Lemma dchain_cons_inv next prev h l x :
  dchain next prev h l → h = Some x → ∃ l', l = x :: l' ∧ prev x = None.
Proof. intros [q Hl] ->. destruct l; simpl in Hl; naive_solver. Qed.

Lemma dchain_head next prev h l x : dchain next prev h (x :: l) → h = Some x.
Proof. intros [q Hl]. simpl in Hl. naive_solver. Qed.

Lemma dseg_last next prev p h l q t :
  dseg next prev p h l q t → q = from_option Some p (last l).
Proof.
  revert p h; induction l as [|x l IH]; intros p h; [by intros [_ ->]|].
  intros (_ & _ & Hl). apply IH in Hl. rewrite Hl, last_cons. by destruct (last l).
Qed.

(** Links out of a member lead to members. *)
Lemma dchain_links next prev h l1 x l2 :
  dchain next prev h (l1 ++ x :: l2) → prev x = last l1 ∧ next x = head l2.
Proof.
  intros (q & Hl). apply dseg_app in Hl as (m & hm & H1 & (-> & Hp & H2)).
  apply dseg_last in H1. split.
  - rewrite Hp, H1. by destruct (last l1).
  - destruct l2; simpl in H2; naive_solver.
Qed.

(** Insertion at the front, as [list_add] does it. *)
Lemma dchain_push next prev next' prev' h l x :
  dchain next prev h l → x ∉ l →
  next' x = h → prev' x = None →
  (∀ y, y ∈ l → next' y = next y) →
  (∀ y, y ∈ l → prev' y = if decide (h = Some y) then Some x else prev y) →
  dchain next' prev' (Some x) (x :: l).
Proof.
  intros Hd Hx Hnx Hpx Hn Hp. pose proof (dchain_NoDup _ _ _ _ Hd) as Hnd.
  destruct Hd as [q Hd]. destruct l as [|y l]; simpl in *.
  { exists (Some x). simpl. naive_solver. }
  destruct Hd as (-> & Hpy & Hd). apply NoDup_cons in Hnd as [Hy Hnd].
  exists q. split_and!; [done..|]. rewrite Hnx. split_and!; [done|..].
  - rewrite Hp by set_solver. by rewrite decide_True.
  - rewrite Hn by set_solver. eapply dseg_ext, Hd.
    + set_solver.
    + intros z Hz. rewrite Hp by set_solver. rewrite decide_False; [done|]. set_solver.
Qed.

(** Removal of an arbitrary member, as [list_remove] does it. *)
Lemma dchain_remove next prev next' prev' h l1 x l2 :
  dchain next prev h (l1 ++ x :: l2) →
  (∀ y, y ∈ l1 ++ l2 → next' y = if decide (prev x = Some y) then next x else next y) →
  (∀ y, y ∈ l1 ++ l2 → prev' y = if decide (next x = Some y) then prev x else prev y) →
  dchain next' prev' (match prev x with Some _ => h | None => next x end) (l1 ++ l2).
Proof.
  intros Hd Hn Hp. pose proof (dchain_NoDup _ _ _ _ Hd) as Hnd.
  destruct (dchain_links _ _ _ _ _ _ Hd) as [Epx Enx].
  destruct Hd as [q Hd]. apply dseg_app in Hd as (m & hm & H1 & (-> & Hpx & H2)).
  apply NoDup_app in Hnd as (Hnd1 & Hdisj & [Hx Hnd2]%NoDup_cons).
  rewrite Enx, Epx in Hn, Hp |- *. rewrite Epx in Hpx. subst m.
  assert (Hfront : dseg next' prev' None (match last l1 with Some _ => h | None => head l2 end)
            l1 (last l1) (head l2)).
  { destruct l1 as [|y l0 _] using rev_ind.
    { simpl. done. }
    rewrite last_snoc in *. apply dseg_app in H1 as (m & hm & H0 & (-> & Hpy & _)).
    apply NoDup_app in Hnd1 as (_ & Hy & _).
    apply dseg_app. exists m, (Some y). split.
    - eapply dseg_ext, H0.
      + intros z Hz. rewrite Hn by set_solver. rewrite decide_False; [done|].
        intros [= ->]. set_solver.
      + intros z Hz. rewrite Hp by set_solver. rewrite decide_False; [done|].
        intros Hh. destruct l2; simplify_eq/=. set_solver.
    - simpl. split_and!; [done|..].
      + rewrite Hp by set_solver. rewrite decide_False; [done|].
        intros Hh. destruct l2; simplify_eq/=. set_solver.
      + rewrite Hn by set_solver. by rewrite decide_True.
      + done. }
  exists (match last l2 with Some z => Some z | None => last l1 end).
  apply dseg_app. do 2 eexists. split; [exact Hfront|].
  destruct l2 as [|z l2]; [done|]. simpl in H2. destruct H2 as (Hz & Hpz & H2).
  change (head (z :: l2)) with (Some z) in *.
  split_and!; [done|..].
  - rewrite Hp by set_solver. by rewrite decide_True.
  - apply NoDup_cons in Hnd2 as [Hzl Hnd2]. rewrite Hn by set_solver.
    rewrite decide_False.
    2:{ intros Hl. apply last_Some_elem_of in Hl. set_solver. }
    assert (Eq : (match last (z :: l2) with Some w => Some w | None => last l1 end) = q).
    { apply dseg_last in H2. subst q. rewrite last_cons. by destruct (last l2). }
    rewrite Eq. eapply dseg_ext, H2.
    + intros w Hw. rewrite Hn by set_solver. rewrite decide_False; [done|].
      intros Hl. apply last_Some_elem_of in Hl. set_solver.
    + intros w Hw. rewrite Hp by set_solver. rewrite decide_False; [done|]. set_solver.
Qed.
End lists.
