(* ===== verification/Bytes.v ===== *)
(** * Bytes in memory

    Little-endian integers as the x86 loads and stores them, the byte swaps of
    the network headers, and copies out of a buffer. *)

From S2P Require Import Prelude.
Open Scope Z_scope.

(** A byte, and a string of bytes. *)
Definition byte_ok (b : Z) : Prop := 0 ≤ b < 256.
Definition bytes_ok (l : list Z) : Prop := Forall byte_ok l.

Fixpoint le_bytes (n : nat) (x : Z) : list Z :=
  match n with
  | O => []
  | S n => x mod 256 :: le_bytes n (x / 256)
  end.

Fixpoint le_value (l : list Z) : Z :=
  match l with
  | [] => 0
  | b :: l => b + 256 * le_value l
  end.

(** [n] bytes from index [i]; [None] when they do not all exist. *)
Definition slice (d : list Z) (i n : nat) : option (list Z) :=
  if (i + n <=? length d)%nat then Some (take n (drop i d)) else None.

Definition get8 (d : list Z) (i : nat) : option Z := d !! i.
Definition get16 (d : list Z) (i : nat) : option Z := le_value <$> slice d i 2.
Definition get32 (d : list Z) (i : nat) : option Z := le_value <$> slice d i 4.

(** [__builtin_bswap16] and [__builtin_bswap32]. *)
Definition bswap (n : nat) (x : Z) : Z := le_value (reverse (le_bytes n x)).
Definition ntohs : Z → Z := bswap 2.
Definition ntohl : Z → Z := bswap 4.
Definition htons : Z → Z := bswap 2.
Definition htonl : Z → Z := bswap 4.

(** ** Conversions *)

Lemma le_bytes_length n x : length (le_bytes n x) = n.
Proof. revert x; induction n; intros x; simpl; [done|]. by rewrite IHn. Qed.

Lemma le_bytes_ok n x : bytes_ok (le_bytes n x).
Proof.
  revert x; induction n as [|n IH]; intros x; [by constructor|]. constructor; [|apply IH].
  pose proof (Z.mod_pos_bound x 256). unfold byte_ok. lia.
Qed.

Lemma le_value_bound l : bytes_ok l → 0 ≤ le_value l < 256 ^ Z.of_nat (length l).
Proof.
  induction 1 as [|b l Hb Hl IH]; cbn [le_value length]; [lia|]. unfold byte_ok in Hb.
  rewrite Nat2Z.inj_succ, Z.pow_succ_r by lia. lia.
Qed.

Lemma le_bytes_value l : bytes_ok l → le_bytes (length l) (le_value l) = l.
Proof.
  induction 1 as [|b l Hb Hl IH]; cbn [le_value length le_bytes]; [done|]. unfold byte_ok in Hb.
  replace (b + 256 * le_value l) with (b + le_value l * 256) by lia.
  rewrite Z.mod_add, Z.mod_small by lia. rewrite Z.div_add, Z.div_small, Z.add_0_l by lia. by rewrite IH.
Qed.

Lemma le_value_bytes n x : 0 ≤ x < 256 ^ Z.of_nat n → le_value (le_bytes n x) = x.
Proof.
  revert x; induction n as [|n IH]; intros x Hx; cbn [le_bytes le_value]; [simpl in Hx; lia|].
  rewrite Nat2Z.inj_succ, Z.pow_succ_r in Hx by lia.
  rewrite IH; [pose proof (Z.div_mod x 256); lia|].
  split; [apply Z.div_pos; lia|]. apply Z.div_lt_upper_bound; lia.
Qed.

Lemma le_value_inj l l' : bytes_ok l → bytes_ok l' → length l = length l' → le_value l = le_value l' → l = l'.
Proof. intros Hl Hl' Hlen E. rewrite <-(le_bytes_value l), <-(le_bytes_value l') by done. by rewrite Hlen, E. Qed.

Lemma bswap_value l : bytes_ok l → bswap (length l) (le_value l) = le_value (reverse l).
Proof. intros Hl. unfold bswap. by rewrite le_bytes_value. Qed.

Lemma bytes_ok_reverse l : bytes_ok l → bytes_ok (reverse l).
Proof. intros Hl. unfold bytes_ok. by rewrite reverse_Permutation. Qed.

Lemma bswap_bytes n x : le_bytes n (bswap n x) = reverse (le_bytes n x).
Proof.
  unfold bswap. rewrite <-(le_bytes_length n x) at 1. rewrite <-length_reverse.
  apply le_bytes_value, bytes_ok_reverse, le_bytes_ok.
Qed.

Lemma bswap_bound n x : 0 ≤ bswap n x < 256 ^ Z.of_nat n.
Proof.
  pose proof (le_value_bound (reverse (le_bytes n x)) (bytes_ok_reverse _ (le_bytes_ok n x))) as Hb.
  by rewrite length_reverse, le_bytes_length in Hb.
Qed.

(** The byte swap is an involution, so reading what was written in network
    order gives the number back. *)
Lemma bswap_invol n x : 0 ≤ x < 256 ^ Z.of_nat n → bswap n (bswap n x) = x.
Proof. intros Hx. unfold bswap at 1. by rewrite bswap_bytes, reverse_involutive, le_value_bytes. Qed.

(** ** Slices *)

Lemma slice_all d : slice d 0 (length d) = Some d.
Proof. unfold slice. rewrite drop_0. simpl. by rewrite Nat.leb_refl, take_ge. Qed.

Lemma slice_app_l a b n : length a = n → slice (a ++ b) 0 n = Some a.
Proof.
  intros <-. unfold slice. rewrite drop_0, length_app. destruct (Nat.leb_spec (0 + length a) (length a + length b)); [|lia].
  by rewrite take_app_length.
Qed.

Lemma slice_app_r a b i n : (length a ≤ i)%nat → slice (a ++ b) i n = slice b (i - length a) n.
Proof.
  intros Hi. unfold slice. rewrite length_app, drop_app_ge by done.
  destruct (Nat.leb_spec (i + n) (length a + length b)), (Nat.leb_spec (i - length a + n) (length b)); (done || lia).
Qed.

Lemma slice_length d i n x : slice d i n = Some x → length x = n.
Proof. unfold slice. case_match eqn:E; [|done]. apply Nat.leb_le in E. intros [= <-]. rewrite length_take, length_drop. lia. Qed.

Lemma slice_ok d i n x : bytes_ok d → slice d i n = Some x → bytes_ok x.
Proof. unfold slice. intros Hd. case_match; [|done]. intros [= <-]. by apply Forall_take, Forall_drop. Qed.

Lemma slice_some d i n : (i + n ≤ length d)%nat → slice d i n = Some (take n (drop i d)).
Proof. intros H. unfold slice. by rewrite (proj2 (Nat.leb_le _ _) H). Qed.

Lemma slice_none d i n : (length d < i + n)%nat → slice d i n = None.
Proof. intros H. unfold slice. destruct (Nat.leb_spec (i + n) (length d)); [lia|done]. Qed.

Lemma get16_le a d x : 0 ≤ x < 65536 → get16 (a ++ le_bytes 2 x ++ d) (length a) = Some x.
Proof.
  intros Hx. unfold get16. rewrite slice_app_r, Nat.sub_diag, slice_app_l by (done || by rewrite le_bytes_length).
  change (Some (le_value (le_bytes 2 x)) = Some x). f_equal. by apply le_value_bytes.
Qed.

(** ** Memory *)

Fixpoint mem_write (mem : Z → Z) (a : Z) (bs : list Z) : Z → Z :=
  match bs with
  | [] => mem
  | b :: bs => mem_write (<[a := b]> mem) (a + 1) bs
  end.

Lemma mem_write_lookup mem a bs x :
  mem_write mem a bs x =
    if decide (a ≤ x < a + Z.of_nat (length bs)) then bs !!! Z.to_nat (x - a) else mem x.
Proof.
  revert mem a. induction bs as [|b bs IH]; intros mem a; cbn [mem_write length].
  - by rewrite decide_False by lia.
  - rewrite IH. destruct (decide (x = a)) as [->|Hne].
    + rewrite decide_False, decide_True, fn_lookup_insert by lia. by rewrite Z.sub_diag.
    + rewrite fn_lookup_insert_ne by done. destruct (decide (a + 1 ≤ x < a + 1 + Z.of_nat (length bs))).
      * rewrite decide_True by lia. replace (Z.to_nat (x - a)) with (S (Z.to_nat (x - (a + 1)))) by lia. done.
      * by rewrite decide_False by lia.
Qed.

(** 64-bit words at an address. *)
Definition load64 (mem : Z → Z) (a : Z) : Z := le_value ((λ i : nat, mem (a + Z.of_nat i)) <$> seq 0 8).
Definition store64 (mem : Z → Z) (a v : Z) : Z → Z := mem_write mem a (le_bytes 8 v).

Lemma load64_ext mem mem' a : (∀ x, a ≤ x < a + 8 → mem x = mem' x) → load64 mem a = load64 mem' a.
Proof.
  intros H. unfold load64. f_equal. apply list_fmap_ext. intros i j Hj. apply lookup_seq in Hj as [-> Hi]. apply H. lia.
Qed.

Lemma load64_write mem a bs b : b + 8 ≤ a ∨ a + Z.of_nat (length bs) ≤ b → load64 (mem_write mem a bs) b = load64 mem b.
Proof. intros H. apply load64_ext. intros x Hx. rewrite mem_write_lookup. by rewrite decide_False by lia. Qed.

Lemma load_store64 mem a v : 0 ≤ v < 2 ^ 64 → load64 (store64 mem a v) a = v.
Proof.
  intros Hv. transitivity (le_value (le_bytes 8 v)); [|by apply (le_value_bytes 8)]. unfold load64, store64. f_equal.
  apply list_eq. intros i. rewrite list_lookup_fmap. destruct (decide (i < 8)%nat) as [Hi|Hi].
  - rewrite lookup_seq_lt by done. cbn [fmap option_fmap option_map]. cbv beta. rewrite mem_write_lookup, le_bytes_length, decide_True by lia.
    replace (Z.to_nat (a + Z.of_nat (0 + i) - a)) with i by lia. symmetry. apply list_lookup_lookup_total_lt.
    by rewrite le_bytes_length.
  - rewrite lookup_seq_ge by lia. symmetry. apply lookup_ge_None. rewrite le_bytes_length. lia.
Qed.

Lemma load_store64_ne mem a b v : b + 8 ≤ a ∨ a + 8 ≤ b → load64 (store64 mem a v) b = load64 mem b.
Proof. intros H. unfold store64. apply load64_write. by rewrite le_bytes_length. Qed.
