(* ===== verification/Pmm.v ===== *)
(** * Physical memory manager: the buddy allocator

    Model of src/kernel/mm.cpp and include/vortex/kernel/mm.hpp.  [kFrames] is
    the metadata array, indexed by page frame number; a [PageFrame*] is the
    index of the frame it points to ([None] is [nullptr]), so [frame - kFrames]
    is the index itself.  A dereference outside the array is undefined.  Block
    orders ([uint8_t], at most 64 in every execution) are naturals.  The serial
    log lines of [pmm_init] are not modelled. *)

From S2P Require Import Prelude.
Open Scope Z_scope.

(** ** Constants (mm.hpp) *)

Definition PAGE_SIZE : Z := 4096.
Definition PAGE_SHIFT : Z := 12.
Definition PAGE_MASK : Z := PAGE_SIZE - 1.
Definition MAX_ORDER : nat := 10.

Definition PAGE_FREE : Z := Z.shiftl 1 0.
Definition PAGE_USED : Z := Z.shiftl 1 1.
Definition PAGE_RESERVED : Z := Z.shiftl 1 2.

(** [sizeof(PageFrame)]: 1 + 1 + 2 + 4 bytes and three pointers. *)
Definition sizeof_PageFrame : Z := 32.

Record PageFrame := mkPageFrame {
  pf_order : nat;
  pf_flags : Z;
  pf_refcount : Z;
  pf_numa_node : Z;
  pf_private_data : Z;
  pf_next : option Z;
  pf_prev : option Z
}.

Definition pf_set_order (o : nat) (f : PageFrame) : PageFrame :=
  mkPageFrame o (pf_flags f) (pf_refcount f) (pf_numa_node f) (pf_private_data f) (pf_next f) (pf_prev f).
Definition pf_set_flags (v : Z) (f : PageFrame) : PageFrame :=
  mkPageFrame (pf_order f) v (pf_refcount f) (pf_numa_node f) (pf_private_data f) (pf_next f) (pf_prev f).
Definition pf_set_private_data (v : Z) (f : PageFrame) : PageFrame :=
  mkPageFrame (pf_order f) (pf_flags f) (pf_refcount f) (pf_numa_node f) v (pf_next f) (pf_prev f).
Definition pf_set_next (n : option Z) (f : PageFrame) : PageFrame :=
  mkPageFrame (pf_order f) (pf_flags f) (pf_refcount f) (pf_numa_node f) (pf_private_data f) n (pf_prev f).
Definition pf_set_prev (p : option Z) (f : PageFrame) : PageFrame :=
  mkPageFrame (pf_order f) (pf_flags f) (pf_refcount f) (pf_numa_node f) (pf_private_data f) (pf_next f) p.

(** ** Address helpers *)

Definition page_align_down (addr : Z) : Z := Z.land addr (u64 (Z.lnot PAGE_MASK)).
Definition page_align_up (addr : Z) : Z := Z.land (addr +64 PAGE_MASK) (u64 (Z.lnot PAGE_MASK)).
Definition phys_to_pfn (phys : Z) : Z := Z.shiftr phys PAGE_SHIFT.
Definition pfn_to_phys (pfn : Z) : Z := u64 (Z.shiftl pfn PAGE_SHIFT).

(** [1ULL << order] *)
Definition block_size (order : nat) : Z := Z.shiftl 1 (Z.of_nat order).

Definition buddy_of (pfn : Z) (order : nat) : Z := Z.lxor pfn (block_size order).

(** ** State: the file's static variables *)

Record pmm := mkPmm {
  kFrames : gmap Z PageFrame;
  kFramesAddr : Z;
  kTotalPages : Z;
  kFreePages : Z;
  kHhdmOffset : Z;
  kFreeLists : list (option Z)
}.

Definition set_kFrames (fs : gmap Z PageFrame) (s : pmm) : pmm :=
  mkPmm fs (kFramesAddr s) (kTotalPages s) (kFreePages s) (kHhdmOffset s) (kFreeLists s).
Definition set_kFreePages (n : Z) (s : pmm) : pmm :=
  mkPmm (kFrames s) (kFramesAddr s) (kTotalPages s) n (kHhdmOffset s) (kFreeLists s).
Definition set_kFreeLists (l : list (option Z)) (s : pmm) : pmm :=
  mkPmm (kFrames s) (kFramesAddr s) (kTotalPages s) (kFreePages s) (kHhdmOffset s) l.

(** The statics before [pmm_init] runs. *)
Definition pmm_boot : pmm := mkPmm ∅ 0 0 0 0 (replicate (S MAX_ORDER) None).

Definition read_frame (i : Z) : M pmm PageFrame := s ← get; deref (kFrames s !! i).
Definition write_frame (i : Z) (g : PageFrame → PageFrame) : M pmm () :=
  f ← read_frame i; modify (λ s, set_kFrames (<[i := g f]> (kFrames s)) s).
Definition read_head (order : nat) : M pmm (option Z) :=
  s ← get; deref (kFreeLists s !! order).
Definition write_head (order : nat) (h : option Z) : M pmm () :=
  _ ← read_head order; modify (λ s, set_kFreeLists (<[order := h]> (kFreeLists s)) s).

(** ** Free-list links *)

Definition list_add (order : nat) (frame : Z) : M pmm () :=
  h ← read_head order;
  write_frame frame (pf_set_next h);;
  write_frame frame (pf_set_prev None);;
  match h with
  | Some n => write_frame n (pf_set_prev (Some frame))
  | None => mret ()
  end;;
  write_head order (Some frame);;
  write_frame frame (λ f, pf_set_flags (set_flag (pf_flags f) PAGE_FREE) f);;
  write_frame frame (pf_set_order order).

Definition list_remove (order : nat) (frame : Z) : M pmm () :=
  f ← read_frame frame;
  match pf_prev f with
  | Some p => write_frame p (pf_set_next (pf_next f))
  | None => write_head order (pf_next f)
  end;;
  f ← read_frame frame;
  match pf_next f with
  | Some n => write_frame n (pf_set_prev (pf_prev f))
  | None => mret ()
  end;;
  write_frame frame (λ f, pf_set_flags (clear_flag 8 (pf_flags f) PAGE_FREE) f).

(** ** Initialisation *)

Record MemmapEntry := mkMemmapEntry { me_base : Z; me_length : Z; me_type : Z }.
Definition MEMMAP_USABLE : Z := 0.

Definition entry_end (e : MemmapEntry) : Z := me_base e +64 me_length e.
Definition entry_usable (e : MemmapEntry) : bool := me_type e =? MEMMAP_USABLE.

Definition highest_addr (entries : list MemmapEntry) : Z :=
  foldl (λ hi e, if hi <? entry_end e then entry_end e else hi) 0 entries.

(** The first usable region long enough for the metadata array. *)
Definition find_metadata (entries : list MemmapEntry) (size : Z) : option MemmapEntry :=
  snd <$> list_find (λ e, entry_usable e ∧ size ≤ me_length e) entries.

(** Step 3: every field but [private_data], which keeps the byte pattern
    [raw i] the memory held before. *)
Definition init_frame (raw : Z → Z) (i : Z) : PageFrame :=
  mkPageFrame 0 PAGE_RESERVED 0 0 (raw i) None None.
Definition init_frames (raw : Z → Z) (total : Z) : gmap Z PageFrame :=
  list_to_map ((λ i, (i, init_frame raw i)) <$> seqZ 0 total).

(** The [while] that finds the largest order that fits at [pfn]; [fuel] counts
    the orders left below [MAX_ORDER]. *)
Fixpoint fit_order (fuel order : nat) (pfn end_pfn meta_start : Z) : nat :=
  match fuel with
  | O => order
  | S fuel =>
    if (pfn mod block_size (S order) =? 0) && (pfn + block_size (S order) <=? end_pfn) then
      if (pfn <? meta_start) && (meta_start <? pfn + block_size (S order)) then order
      else fit_order fuel (S order) pfn end_pfn meta_start
    else order
  end.

(** The loop over the frames of one usable region.  Each round advances [pfn],
    so [end_pfn - pfn] rounds are enough. *)
Fixpoint free_region (fuel : nat) (pfn end_pfn meta_start meta_end : Z) : M pmm () :=
  if negb (pfn <? end_pfn) then mret ()
  else match fuel with
  | O => undefined
  | S fuel =>
    if (meta_start <=? pfn) && (pfn <? meta_end) then
      free_region fuel meta_end end_pfn meta_start meta_end
    else
      let order := fit_order MAX_ORDER 0 pfn end_pfn meta_start in
      write_frame pfn (pf_set_flags 0);;
      list_add order pfn;;
      modify (λ s, set_kFreePages (kFreePages s +64 block_size order) s);;
      free_region fuel (pfn + block_size order) end_pfn meta_start meta_end
  end.

Fixpoint free_usable (entries : list MemmapEntry) (metadata_size : Z) : M pmm () :=
  match entries with
  | [] => mret ()
  | e :: entries =>
    (if entry_usable e then
       let start_pfn := phys_to_pfn (page_align_up (me_base e)) in
       let end_pfn := phys_to_pfn (page_align_down (entry_end e)) in
       s ← get;
       let meta_start := phys_to_pfn (kFramesAddr s -64 kHhdmOffset s) in
       let meta_end := meta_start + (metadata_size + PAGE_SIZE - 1) / PAGE_SIZE in
       free_region (Z.to_nat (end_pfn - start_pfn)) start_pfn end_pfn meta_start meta_end
     else mret ());;
    free_usable entries metadata_size
  end.

Definition pmm_init (raw : Z → Z) (entries : list MemmapEntry) (hhdm_offset : Z) : M pmm () :=
  let total := phys_to_pfn (highest_addr entries) in
  let metadata_size := u64 (total * sizeof_PageFrame) in
  match find_metadata entries metadata_size with
  | None => panic "PMM: Could not allocate metadata"
  | Some e =>
    modify (λ s, mkPmm (init_frames raw total) (me_base e +64 hhdm_offset) total
                   (kFreePages s) hhdm_offset (kFreeLists s));;
    free_usable entries metadata_size
  end.

(** ** Allocation *)

(** [while ((1ULL << target_order) < count) target_order++]: at order 64 the
    shift is undefined. *)
Fixpoint target_order_loop (fuel order : nat) (count : Z) : option nat :=
  match fuel with
  | O => None
  | S fuel => if block_size order <? count then target_order_loop fuel (S order) count else Some order
  end.
Definition target_order (count : Z) : option nat := target_order_loop 64 0 count.

(** Split [frame]'s block from order [target + n] down to [target]. *)
Fixpoint split_block (n target : nat) (frame : Z) : M pmm () :=
  match n with
  | O => mret ()
  | S n =>
    let order := (target + n)%nat in
    list_add order (buddy_of frame order);;
    split_block n target frame
  end.

(** The [for] over the orders; [fuel] is the number of orders left to try. *)
Fixpoint alloc_from (fuel order target : nat) : M pmm Z :=
  match fuel with
  | O => mret 0
  | S fuel =>
    h ← read_head order;
    match h with
    | Some frame =>
      list_remove order frame;;
      split_block (order - target) target frame;;
      write_frame frame (λ f, pf_set_flags (set_flag (pf_flags f) PAGE_USED) f);;
      write_frame frame (pf_set_order target);;
      modify (λ s, set_kFreePages (kFreePages s -64 block_size target) s);;
      mret (pfn_to_phys frame)
    | None => alloc_from fuel (S order) target
    end
  end.

Definition pmm_alloc_pages (count : Z) : M pmm Z :=
  if count =? 0 then mret 0
  else
    target ← deref (target_order count);
    if (MAX_ORDER <? target)%nat then mret 0
    else alloc_from (S MAX_ORDER - target) target target.

Definition pmm_alloc_page : M pmm Z := pmm_alloc_pages 1.

(** ** Deallocation *)

Definition mergeable (order : nat) (buddy : PageFrame) : bool :=
  negb (negb (has_flag (pf_flags buddy) PAGE_FREE)
        || negb (pf_order buddy =? order)%nat
        || has_flag (pf_flags buddy) PAGE_RESERVED).

(** The merge loop; [fuel] bounds the orders below [MAX_ORDER]. *)
Fixpoint merge_loop (fuel : nat) (pfn : Z) (order : nat) : M pmm (Z * nat) :=
  match fuel with
  | O => mret (pfn, order)
  | S fuel =>
    if negb (order <? MAX_ORDER)%nat then mret (pfn, order)
    else
      let buddy_pfn := buddy_of pfn order in
      total ← gets kTotalPages;
      if total <=? buddy_pfn then mret (pfn, order)
      else
        buddy ← read_frame buddy_pfn;
        if negb (mergeable order buddy) then mret (pfn, order)
        else
          list_remove order buddy_pfn;;
          merge_loop fuel (if buddy_pfn <? pfn then buddy_pfn else pfn) (S order)
  end.

Definition pmm_free_pages (phys count : Z) : M pmm () :=
  if phys =? 0 then mret ()
  else
    let pfn := phys_to_pfn phys in
    f ← read_frame pfn;
    let order := pf_order f in
    (if (64 <=? order)%nat then undefined else mret ());;
    modify (λ s, set_kFreePages (kFreePages s +64 block_size order) s);;
    write_frame pfn (λ f, pf_set_flags (clear_flag 8 (pf_flags f) PAGE_USED) f);;
    '(pfn, order) ← merge_loop MAX_ORDER pfn order;
    list_add order pfn.

Definition pmm_free_page (phys : Z) : M pmm () := pmm_free_pages phys 1.

(** ** Queries *)

Definition pmm_get_frame (phys : Z) : M pmm (option Z) :=
  s ← get;
  let pfn := phys_to_pfn phys in
  mret (if kTotalPages s <=? pfn then None else Some pfn).

Record PmmStats := mkPmmStats {
  total_pages : Z; free_pages : Z; used_pages : Z; total_bytes : Z
}.

Definition pmm_get_stats : M pmm PmmStats :=
  s ← get;
  mret (mkPmmStats (kTotalPages s) (kFreePages s) (kTotalPages s -64 kFreePages s)
          (u64 (kTotalPages s * PAGE_SIZE))).

Definition pmm_get_hhdm_offset : M pmm Z := gets kHhdmOffset.
