(* ===== verification/PmmBlocks.v ===== *)
(** * Geometry of buddy blocks

    A block [(p, o)] covers the page frames [p, p + 2^o).  This file holds the
    arithmetic of buddies and the bookkeeping of lists of pairwise disjoint
    blocks, up to permutation; the allocator's invariant is stated with it. *)

From S2P Require Import Prelude Pmm.
Open Scope Z_scope.

Abbreviation block := (Z * nat)%type.

(** ** Sizes and buddies *)

Lemma block_size_pow o : block_size o = 2 ^ Z.of_nat o.
Proof. unfold block_size. rewrite Z.shiftl_1_l. done. Qed.

Lemma block_size_pos o : 0 < block_size o.
Proof. rewrite block_size_pow. apply Z.pow_pos_nonneg; lia. Qed.

Lemma block_size_S o : block_size (S o) = 2 * block_size o.
Proof. rewrite !block_size_pow, Nat2Z.inj_succ, Z.pow_succ_r; lia. Qed.

Lemma block_size_mono o o' : (o ≤ o')%nat → (block_size o | block_size o').
Proof.
  intros Ho. rewrite !block_size_pow. replace (Z.of_nat o') with (Z.of_nat o + Z.of_nat (o' - o)) by lia.
  rewrite Z.pow_add_r by lia. apply Z.divide_factor_l.
Qed.

Lemma block_size_le o o' : (o ≤ o')%nat → block_size o ≤ block_size o'.
Proof. intros Ho. apply Z.divide_pos_le; [apply block_size_pos | by apply block_size_mono]. Qed.

Lemma block_size_max o : (o ≤ MAX_ORDER)%nat → block_size o ≤ 1024.
Proof. intros Ho. by apply (block_size_le o MAX_ORDER). Qed.

Lemma lxor_1 k : Z.lxor k 1 = if Z.even k then k + 1 else k - 1.
Proof.
  destruct (Z.even k) eqn:E.
  - symmetry. apply Z.add_nocarry_lxor. apply Z.even_spec in E as [m ->].
    change 1 with (Z.ones 1). rewrite Z.land_ones by lia. rewrite Z.mul_comm. apply Z_mod_mult.
  - assert (Z.odd k = true) as [m ->]%Z.odd_spec by by rewrite <-Z.negb_even, E.
    assert (E2 : 2 * m + 1 = Z.lxor (2 * m) 1).
    { apply Z.add_nocarry_lxor. change 1 with (Z.ones 1). rewrite Z.land_ones by lia.
      rewrite Z.mul_comm. apply Z_mod_mult. }
    rewrite E2 at 1. rewrite Z.lxor_assoc, Z.lxor_nilpotent, Z.lxor_0_r. lia.
Qed.

(** The buddy of an aligned block is the other half of its parent. *)
Lemma buddy_of_spec p o :
  (block_size o | p) →
  ((block_size (S o) | p) ∧ buddy_of p o = p + block_size o) ∨
  ((block_size (S o) | p - block_size o) ∧ buddy_of p o = p - block_size o).
Proof.
  intros [k ->]. unfold buddy_of. pose proof (block_size_pos o).
  assert (E : Z.lxor (k * block_size o) (block_size o) = Z.lxor k 1 * block_size o).
  { unfold block_size. rewrite !Z.shiftl_1_l, <-!Z.shiftl_mul_pow2 by lia.
    rewrite Z.shiftl_lxor, Z.shiftl_1_l. done. }
  rewrite E, lxor_1, block_size_S. destruct (Z.even k) eqn:Ek.
  - apply Z.even_spec in Ek as [m ->]. left. split; [exists m; lia | lia].
  - assert (Z.odd k = true) as [m ->]%Z.odd_spec by by rewrite <-Z.negb_even, Ek.
    right. split; [exists m; lia | lia].
Qed.

Lemma buddy_of_low p o : (block_size (S o) | p) → buddy_of p o = p + block_size o.
Proof.
  intros Hp. destruct (buddy_of_spec p o) as [[_ ?]|[Hq _]]; [|done|].
  - etrans; [|exact Hp]. apply block_size_mono; lia.
  - exfalso. pose proof (block_size_pos o).
    assert (Hd : (block_size (S o) | block_size o)).
    { replace (block_size o) with (p - (p - block_size o)) by lia. by apply Z.divide_sub_r. }
    apply Z.divide_pos_le in Hd; [|done]. rewrite block_size_S in Hd. lia.
Qed.

(** ** Page sets of block lists *)

Definition block_pages (b : block) : list Z := seqZ b.1 (block_size b.2).
Definition pages (bs : list block) : list Z := bs ≫= block_pages.

Definition block_ok (total : Z) (b : block) : Prop :=
  (b.2 ≤ MAX_ORDER)%nat ∧ (block_size b.2 | b.1) ∧ 0 ≤ b.1 ∧ b.1 + block_size b.2 ≤ total.

Definition blocks_ok (total : Z) (bs : list block) : Prop :=
  Forall (block_ok total) bs ∧ NoDup (pages bs).

Lemma elem_of_block_pages x b : x ∈ block_pages b ↔ b.1 ≤ x < b.1 + block_size b.2.
Proof. unfold block_pages. rewrite elem_of_seqZ. done. Qed.

Lemma elem_of_pages x bs : x ∈ pages bs ↔ ∃ b, b ∈ bs ∧ b.1 ≤ x < b.1 + block_size b.2.
Proof. unfold pages. rewrite list_elem_of_bind. setoid_rewrite elem_of_block_pages. naive_solver. Qed.

Lemma pages_head b bs : b ∈ bs → b.1 ∈ pages bs.
Proof. intros Hb. apply elem_of_pages. exists b. pose proof (block_size_pos b.2). split; [done|lia]. Qed.

Lemma pages_cons b bs : pages (b :: bs) = block_pages b ++ pages bs.
Proof. done. Qed.

Lemma pages_app bs bs' : pages (bs ++ bs') = pages bs ++ pages bs'.
Proof. apply bind_app. Qed.

Lemma length_block_pages b : Z.of_nat (length (block_pages b)) = block_size b.2.
Proof. unfold block_pages. rewrite length_seqZ. pose proof (block_size_pos b.2). lia. Qed.

#[export] Instance pages_perm : Proper ((≡ₚ) ==> (≡ₚ)) pages.
Proof. intros bs bs' E. unfold pages. by rewrite E. Qed.

#[export] Instance blocks_ok_perm total : Proper ((≡ₚ) ==> iff) (blocks_ok total).
Proof. intros bs bs' E. unfold blocks_ok. by rewrite E. Qed.

(** Two aligned halves are one block. *)
Lemma block_pages_halves p o :
  block_pages (p, S o) = block_pages (p, o) ++ block_pages (p + block_size o, o).
Proof.
  unfold block_pages; simpl. pose proof (block_size_pos o).
  rewrite block_size_S. replace (2 * block_size o) with (block_size o + block_size o) by lia.
  rewrite seqZ_app by lia. done.
Qed.

Lemma blocks_ok_halves total p o bs :
  (S o ≤ MAX_ORDER)%nat → (block_size (S o) | p) →
  blocks_ok total ((p, S o) :: bs) ↔ blocks_ok total ((p, o) :: (p + block_size o, o) :: bs).
Proof.
  intros Ho Hp. unfold blocks_ok. rewrite !pages_cons, block_pages_halves, <-app_assoc.
  rewrite !Forall_cons. unfold block_ok; simpl. rewrite (block_size_S o).
  assert (block_size o | p) by (etrans; [apply (block_size_mono o (S o)); lia | done]).
  assert (block_size o | p + block_size o) by (by apply Z.divide_add_r).
  pose proof (block_size_pos o). rewrite block_size_S in Hp.
  split; intros ((? & ?) & ?); split; try done; split_and?; try done; try lia; naive_solver lia.
Qed.

Lemma blocks_ok_app_l total bs bs' : blocks_ok total (bs ++ bs') → blocks_ok total bs.
Proof. intros [HF HN]. rewrite pages_app, NoDup_app in HN. rewrite Forall_app in HF. split; naive_solver. Qed.

Lemma blocks_ok_cons_inv total b bs :
  blocks_ok total (b :: bs) → block_ok total b ∧ blocks_ok total bs.
Proof. intros [HF HN]. rewrite pages_cons, NoDup_app in HN. rewrite Forall_cons in HF. split; [|split]; naive_solver. Qed.

(** Heads of disjoint blocks differ. *)
Lemma blocks_ok_head total p o bs o' : blocks_ok total ((p, o) :: bs) → (p, o') ∉ bs.
Proof.
  intros [_ HN] Hin. rewrite pages_cons, NoDup_app in HN. destruct HN as (_ & Hd & _).
  apply (Hd p).
  - apply elem_of_block_pages. simpl. pose proof (block_size_pos o). lia.
  - by apply (pages_head (p, o')).
Qed.

(** Disjoint blocks of a memory of [total] frames hold at most [total] pages. *)
Lemma blocks_ok_length total bs : 0 ≤ total → blocks_ok total bs → Z.of_nat (length (pages bs)) ≤ total.
Proof.
  intros Ht [HF HN]. assert (Hs : pages bs ⊆+ seqZ 0 total).
  { apply NoDup_submseteq; [done|]. intros x (b & Hb & Hx)%elem_of_pages.
    rewrite Forall_forall in HF. specialize (HF _ Hb) as (_ & _ & H0 & H1).
    apply elem_of_seqZ. lia. }
  apply submseteq_length in Hs. rewrite length_seqZ in Hs. lia.
Qed.

(** ** Free lists as block lists *)

Definition blocks (L : nat → list Z) : list block :=
  seq 0 (S MAX_ORDER) ≫= λ o, (λ p, (p, o)) <$> L o.

Lemma elem_of_blocks L p o : (p, o) ∈ blocks L ↔ (o ≤ MAX_ORDER)%nat ∧ p ∈ L o.
Proof.
  unfold blocks. rewrite list_elem_of_bind. setoid_rewrite elem_of_seq.
  setoid_rewrite list_elem_of_fmap. split.
  - intros (o' & (q & [= -> ->] & Hq) & Ho). split; [unfold MAX_ORDER in *; lia | done].
  - intros [Ho Hp]. exists o. split; [by exists p | unfold MAX_ORDER in *; lia].
Qed.

Lemma blocks_insert L o :
  (o ≤ MAX_ORDER)%nat →
  ∃ rest, ∀ l, blocks (<[o := l]> L) ≡ₚ ((λ p, (p, o)) <$> l) ++ rest.
Proof.
  intros Ho. exists ((seq 0 o ++ seq (S o) (MAX_ORDER - o)) ≫= λ o, (λ p, (p, o)) <$> L o).
  intros l. unfold blocks. replace (S MAX_ORDER) with (o + S (MAX_ORDER - o))%nat by lia.
  rewrite seq_app, !bind_app. simpl. rewrite fn_lookup_insert.
  assert (Hext : ∀ a n, (∀ o', (a ≤ o' < a + n)%nat → o' ≠ o) →
    (seq a n ≫= λ o', (λ p, (p, o')) <$> (<[o := l]> L) o') =
    (seq a n ≫= λ o', (λ p, (p, o')) <$> L o')).
  { intros a n Hne. apply Forall_bind_ext, Forall_forall. intros o' Ho'%elem_of_seq.
    rewrite fn_lookup_insert_ne; [done|]. apply not_eq_sym, Hne, Ho'. }
  rewrite !Hext by lia. apply Permutation_app_swap_app.
Qed.

Lemma blocks_insert_id L o : blocks (<[o := L o]> L) = blocks L.
Proof.
  unfold blocks. apply list_bind_ext; [|done]. intros o'.
  unfold insert, fn_insert. by case_decide; subst.
Qed.

Lemma blocks_push L o p :
  (o ≤ MAX_ORDER)%nat → blocks (<[o := p :: L o]> L) ≡ₚ (p, o) :: blocks L.
Proof.
  intros Ho. destruct (blocks_insert L o Ho) as [rest Hl]. rewrite Hl.
  rewrite <-(blocks_insert_id L o), Hl. done.
Qed.

Lemma blocks_remove L o l1 p l2 :
  (o ≤ MAX_ORDER)%nat → L o = l1 ++ p :: l2 →
  blocks L ≡ₚ (p, o) :: blocks (<[o := l1 ++ l2]> L).
Proof.
  intros Ho E. destruct (blocks_insert L o Ho) as [rest Hl].
  rewrite <-(blocks_insert_id L o). rewrite !Hl, E, !fmap_app, fmap_cons.
  rewrite <-Permutation_middle. done.
Qed.
