(* ===== verification/PmmInv.v ===== *)
(** * The allocator's invariant

    [pmm_lists s L A]: the free lists of [s] are the doubly linked lists [L],
    their frames and no others carry [PAGE_FREE], and the free blocks together
    with the blocks [A] outside the lists are aligned, inside memory and
    pairwise disjoint.  [pmm_inv] adds what the callers rely on: [A] are the
    allocated blocks, their frames record their order, and [kFreePages] counts
    the pages of the free blocks. *)

From S2P Require Import Prelude LinkedList Pmm PmmBlocks.
Open Scope Z_scope.

(** ** Views of the frame array *)

Definition frame_next (s : pmm) (p : Z) : option Z := kFrames s !! p ≫= pf_next.
Definition frame_prev (s : pmm) (p : Z) : option Z := kFrames s !! p ≫= pf_prev.

(** What a frame holds beside its list links. *)
Definition pf_data (f : PageFrame) : nat * Z * Z * Z * Z :=
  (pf_order f, pf_flags f, pf_refcount f, pf_numa_node f, pf_private_data f).

Definition is_free (f : PageFrame) : bool := has_flag (pf_flags f) PAGE_FREE.

(** The variables no operation after [pmm_init] touches. *)
Definition pmm_static (s : pmm) : Z * Z * Z := (kTotalPages s, kFramesAddr s, kHhdmOffset s).

(** Frames other than those in [ps] keep everything but their links. *)
Definition frames_agree (ps : list Z) (s s' : pmm) : Prop :=
  ∀ q, q ∉ ps → pf_data <$> kFrames s' !! q = pf_data <$> kFrames s !! q.

Lemma frames_agree_refl ps s : frames_agree ps s s.
Proof. done. Qed.

Lemma frames_agree_trans ps s1 s2 s3 :
  frames_agree ps s1 s2 → frames_agree ps s2 s3 → frames_agree ps s1 s3.
Proof. intros H1 H2 q Hq. by rewrite H2, H1. Qed.

Lemma frames_agree_mono ps ps' s s' : ps ⊆ ps' → frames_agree ps s s' → frames_agree ps' s s'.
Proof. intros Hps H q Hq. apply H. set_solver. Qed.

(** ** Flags *)

Lemma is_free_set f : is_free (pf_set_flags (set_flag (pf_flags f) PAGE_FREE) f) = true.
Proof.
  unfold is_free, PAGE_FREE. rewrite has_flag_bit by done. cbn [pf_flags pf_set_flags].
  rewrite set_flag_bit by done. by rewrite orb_true_r.
Qed.

Lemma is_free_clear f : is_free (pf_set_flags (clear_flag 8 (pf_flags f) PAGE_FREE) f) = false.
Proof.
  unfold is_free, PAGE_FREE. rewrite has_flag_bit by done. cbn [pf_flags pf_set_flags].
  rewrite clear_flag_bit by done. by rewrite andb_false_r.
Qed.

Lemma is_free_set_used f : is_free (pf_set_flags (set_flag (pf_flags f) PAGE_USED) f) = is_free f.
Proof.
  unfold is_free, PAGE_FREE, PAGE_USED. rewrite !has_flag_bit by done. cbn [pf_flags pf_set_flags].
  rewrite set_flag_bit by done. by rewrite orb_false_r.
Qed.

Lemma is_free_clear_used f : is_free (pf_set_flags (clear_flag 8 (pf_flags f) PAGE_USED) f) = is_free f.
Proof.
  unfold is_free, PAGE_FREE, PAGE_USED. rewrite !has_flag_bit by done. cbn [pf_flags pf_set_flags].
  rewrite clear_flag_bit by done. by rewrite andb_true_r.
Qed.

Lemma pf_data_free f f' : pf_data f = pf_data f' → is_free f = is_free f' ∧ pf_order f = pf_order f'.
Proof. unfold pf_data, is_free. intros [= E1 E2 _ _ _]. by rewrite E1, E2. Qed.

(** ** The invariant *)

Record pmm_lists (s : pmm) (L : nat → list Z) (A : list block) : Prop := {
  pl_heads : length (kFreeLists s) = S MAX_ORDER;
  pl_total : 0 ≤ kTotalPages s ≤ 2 ^ 52;
  pl_dom : ∀ p, is_Some (kFrames s !! p) ↔ 0 ≤ p < kTotalPages s;
  pl_chain : ∀ o h, kFreeLists s !! o = Some h →
    dchain (frame_next s) (frame_prev s) h (L o);
  pl_mem : ∀ o p f, (o ≤ MAX_ORDER)%nat → p ∈ L o → kFrames s !! p = Some f →
    is_free f = true ∧ pf_order f = o;
  pl_free : ∀ p f, kFrames s !! p = Some f → is_free f = true →
    ∃ o, (o ≤ MAX_ORDER)%nat ∧ p ∈ L o;
  pl_blocks : blocks_ok (kTotalPages s) (blocks L ++ A)
}.

Record pmm_inv (s : pmm) (L : nat → list Z) (A : list block) : Prop := {
  pi_lists : pmm_lists s L A;
  pi_count : kFreePages s = Z.of_nat (length (pages (blocks L)));
  pi_alloc : ∀ p o, (p, o) ∈ A → ∃ f, kFrames s !! p = Some f ∧ pf_order f = o ∧
    has_flag (pf_flags f) PAGE_USED = true
}.

Lemma pl_head_some s L A o : pmm_lists s L A → (o ≤ MAX_ORDER)%nat →
  ∃ h, kFreeLists s !! o = Some h.
Proof. intros H Ho. apply lookup_lt_is_Some. rewrite (pl_heads _ _ _ H). lia. Qed.

Lemma pl_head_order s L A o h : pmm_lists s L A → kFreeLists s !! o = Some h → (o ≤ MAX_ORDER)%nat.
Proof. intros H Hh. apply lookup_lt_Some in Hh. rewrite (pl_heads _ _ _ H) in Hh. lia. Qed.

Lemma pl_block_frame s L A b : pmm_lists s L A → b ∈ blocks L ++ A → is_Some (kFrames s !! b.1).
Proof.
  intros H Hb. apply (pl_dom _ _ _ H). destruct (pl_blocks _ _ _ H) as [HF _].
  rewrite Forall_forall in HF. destruct (HF _ Hb) as (_ & _ & ? & ?).
  pose proof (block_size_pos b.2). lia.
Qed.

Lemma pl_mem_frame s L A o p : pmm_lists s L A → (o ≤ MAX_ORDER)%nat → p ∈ L o → is_Some (kFrames s !! p).
Proof.
  intros H Ho Hp. apply (pl_block_frame s L A (p, o) H). apply elem_of_app. left.
  by apply elem_of_blocks.
Qed.

(** The head of a block outside the lists is in no free list. *)
Lemma pl_outside s L A p o o' : pmm_lists s L ((p, o) :: A) → (o' ≤ MAX_ORDER)%nat → p ∉ L o'.
Proof.
  intros H Ho' Hp. pose proof (pl_blocks _ _ _ H) as Hb.
  rewrite <-Permutation_middle in Hb. apply blocks_ok_head with (o' := o') in Hb.
  apply Hb, elem_of_app. left. by apply elem_of_blocks.
Qed.

Lemma pl_outside_free s L A p o f :
  pmm_lists s L ((p, o) :: A) → kFrames s !! p = Some f → is_free f = false.
Proof.
  intros H Hf. apply not_true_is_false. intros Hfree.
  destruct (pl_free _ _ _ H _ _ Hf Hfree) as (o' & Ho' & Hp). by eapply pl_outside.
Qed.

(** A frame sits in at most one list. *)
Lemma pl_unique s L A o o' p :
  pmm_lists s L A → (o ≤ MAX_ORDER)%nat → (o' ≤ MAX_ORDER)%nat → p ∈ L o → p ∈ L o' → o = o'.
Proof.
  intros H Ho Ho' Hp Hp'. destruct (pl_mem_frame _ _ _ _ _ H Ho Hp) as [f Hf].
  destruct (pl_mem _ _ _ H _ _ _ Ho Hp Hf) as [_ <-].
  by destruct (pl_mem _ _ _ H _ _ _ Ho' Hp' Hf) as [_ <-].
Qed.

#[export] Instance pmm_lists_perm s L : Proper ((≡ₚ) ==> iff) (pmm_lists s L).
Proof.
  intros A A' E. split; intros []; split; try done; [by rewrite <-E | by rewrite E].
Qed.

(** Writes to frames outside the lists that keep [PAGE_FREE]. *)
Lemma pl_write_outside s L A p o f g :
  pmm_lists s L ((p, o) :: A) → kFrames s !! p = Some f →
  is_free (g f) = is_free f →
  pmm_lists (set_kFrames (<[p := g f]> (kFrames s)) s) L ((p, o) :: A).
Proof.
  intros H Hf Hg. assert (Hout : ∀ o' q, (o' ≤ MAX_ORDER)%nat → q ∈ L o' → q ≠ p).
  { intros o' q Ho' Hq ->. by eapply pl_outside. }
  pose proof H as []. split; simpl; try done.
  - intros q. rewrite <-pl_dom0. destruct (decide (q = p)) as [->|Hne].
    + rewrite lookup_insert_eq, Hf. done.
    + by rewrite lookup_insert_ne.
  - intros o' h Hh. pose proof (pl_head_order _ _ _ _ _ H Hh).
    eapply dchain_ext, pl_chain0, Hh; intros q Hq;
      unfold frame_next, frame_prev; simpl; rewrite lookup_insert_ne; try done;
      apply not_eq_sym; by eapply Hout.
  - intros o' q fq Ho' Hq. rewrite lookup_insert_ne by (apply not_eq_sym; by eapply Hout). by apply pl_mem0.
  - intros q fq Hq Hfree. destruct (decide (q = p)) as [->|Hne].
    + rewrite lookup_insert_eq in Hq. simplify_eq. rewrite Hg in Hfree. by eapply pl_free0.
    + rewrite lookup_insert_ne in Hq by done. by eapply pl_free0.
Qed.

Lemma pl_counters s L A n : pmm_lists s L A → pmm_lists (set_kFreePages n s) L A.
Proof. intros []. by split. Qed.

(** ** Symbolic execution of the frame accesses *)

Ltac frame_lookup :=
  simpl; repeat first
    [ apply lookup_insert_eq | eassumption | rewrite lookup_insert_ne by congruence ].

Lemma wp_read_frame i f Q s : kFrames s !! i = Some f → Q f s → wp (read_frame i) Q s.
Proof. intros Hf HQ. unfold read_frame. wp_run. done. Qed.

Lemma wp_write_frame i f g Q s :
  kFrames s !! i = Some f → Q () (set_kFrames (<[i := g f]> (kFrames s)) s) → wp (write_frame i g) Q s.
Proof. intros Hf HQ. unfold write_frame. wp_run. eapply wp_read_frame; [done|]. by wp_run. Qed.

Lemma wp_read_head o h Q s : kFreeLists s !! o = Some h → Q h s → wp (read_head o) Q s.
Proof. intros Hh HQ. unfold read_head. wp_run. done. Qed.

Lemma wp_write_head o h h' Q s :
  kFreeLists s !! o = Some h → Q () (set_kFreeLists (<[o := h']> (kFreeLists s)) s) → wp (write_head o h') Q s.
Proof. intros Hh HQ. unfold write_head. wp_run. eapply wp_read_head; [done|]. by wp_run. Qed.

(** Effect of the two link operations on every frame. *)
Definition add_view (o : nat) (p : Z) (h : option Z) (s : pmm) (q : Z) : option PageFrame :=
  if decide (q = p) then
    (λ f, mkPageFrame o (set_flag (pf_flags f) PAGE_FREE) (pf_refcount f) (pf_numa_node f)
            (pf_private_data f) h None) <$> kFrames s !! q
  else if decide (h = Some q) then pf_set_prev (Some p) <$> kFrames s !! q
  else kFrames s !! q.

Lemma list_add_run o p s f h Q :
  kFrames s !! p = Some f → kFreeLists s !! o = Some h →
  (∀ n, h = Some n → n ≠ p ∧ is_Some (kFrames s !! n)) →
  (∀ s', pmm_static s' = pmm_static s → kFreePages s' = kFreePages s →
     kFreeLists s' = <[o := Some p]> (kFreeLists s) →
     (∀ q, kFrames s' !! q = add_view o p h s q) → Q () s') →
  wp (list_add o p) Q s.
Proof.
  intros Hf Hh Hn HQ. unfold list_add. wp_run. eapply wp_read_head; [done|]. wp_run.
  eapply wp_write_frame; [done|]. wp_run.
  eapply wp_write_frame; [frame_lookup|]. wp_run. simpl.
  destruct h as [n|].
  - destruct (Hn n eq_refl) as [Hne [fn Hfn]].
    eapply wp_write_frame; [frame_lookup|]. wp_run.
    eapply wp_write_head; [done|]. wp_run.
    eapply wp_write_frame; [frame_lookup|]. wp_run.
    eapply wp_write_frame; [frame_lookup|].
    apply HQ; try done. intros q. unfold add_view. simpl.
    destruct (decide (q = p)) as [->|]; [by simplify_map_eq|].
    destruct (decide (Some n = Some q)) as [[= <-]|]; [by simplify_map_eq|].
    by rewrite !lookup_insert_ne by congruence.
  - wp_run. eapply wp_write_head; [done|]. wp_run.
    eapply wp_write_frame; [frame_lookup|]. wp_run.
    eapply wp_write_frame; [frame_lookup|].
    apply HQ; try done. intros q. unfold add_view. simpl.
    destruct (decide (q = p)) as [->|]; by simplify_map_eq.
Qed.

Definition remove_view (p : Z) (f : PageFrame) (s : pmm) (q : Z) : option PageFrame :=
  if decide (q = p) then Some (pf_set_flags (clear_flag 8 (pf_flags f) PAGE_FREE) f)
  else
    (λ g, mkPageFrame (pf_order g) (pf_flags g) (pf_refcount g) (pf_numa_node g) (pf_private_data g)
            (if decide (pf_prev f = Some q) then pf_next f else pf_next g)
            (if decide (pf_next f = Some q) then pf_prev f else pf_prev g)) <$> kFrames s !! q.

(** The second half of the removal, after the predecessor or the head was redirected. *)
Lemma list_remove_tail o p s s1 f Q :
  kFrames s !! p = Some f →
  (∀ n, pf_next f = Some n ∨ pf_prev f = Some n → n ≠ p ∧ is_Some (kFrames s !! n)) →
  (∀ s', pmm_static s' = pmm_static s → kFreePages s' = kFreePages s →
     kFreeLists s' = (match pf_prev f with Some _ => kFreeLists s | None => <[o := pf_next f]> (kFreeLists s) end) →
     (∀ q, kFrames s' !! q = remove_view p f s q) → Q () s') →
  pmm_static s1 = pmm_static s → kFreePages s1 = kFreePages s →
  kFreeLists s1 = (match pf_prev f with Some _ => kFreeLists s | None => <[o := pf_next f]> (kFreeLists s) end) →
     (∀ q, kFrames s1 !! q = if decide (pf_prev f = Some q) then pf_set_next (pf_next f) <$> kFrames s !! q
                             else kFrames s !! q) →
  wp (f ← read_frame p;
         match pf_next f with
         | Some n => write_frame n (pf_set_prev (pf_prev f))
         | None => mret ()
         end;;
         write_frame p (λ f, pf_set_flags (clear_flag 8 (pf_flags f) PAGE_FREE) f)) Q s1.
Proof.
  intros Hf Hn HQ H1 H2 H3 Hs1. wp_run.
  assert (Hp1 : kFrames s1 !! p = Some f).
  { rewrite Hs1, decide_False; [done|]. intros Hp. by destruct (Hn p (or_intror Hp)). }
  eapply wp_read_frame; [done|]. wp_run.
  destruct (pf_next f) as [n|] eqn:En.
  - destruct (Hn n (or_introl eq_refl)) as [Hne [fn Hfn]].
    eapply wp_write_frame.
    { rewrite Hs1, Hfn. instantiate (1 := if decide (pf_prev f = Some n) then _ else _).
      by case_decide. }
    eapply wp_write_frame; [frame_lookup|].
    apply HQ; simpl; try done. intros q. unfold remove_view.
    destruct (decide (q = p)) as [->|]; [by simplify_map_eq|].
    rewrite En. destruct (decide (Some n = Some q)) as [[= ->]|Hnq].
    + rewrite lookup_insert_ne, lookup_insert_eq, Hfn by done. simpl. by case_decide.
    + rewrite !lookup_insert_ne, Hs1 by congruence.
      case_decide; destruct (kFrames s !! q) as [[]|]; done.
  - wp_run. eapply wp_write_frame; [done|].
    apply HQ; simpl; try done. intros q. unfold remove_view.
    destruct (decide (q = p)) as [->|]; [by simplify_map_eq|].
    rewrite En, lookup_insert_ne, Hs1 by done.
    case_decide; destruct (kFrames s !! q) as [[]|]; done.
Qed.

Lemma list_remove_run o p s f h Q :
  kFrames s !! p = Some f → kFreeLists s !! o = Some h →
  (∀ n, pf_next f = Some n ∨ pf_prev f = Some n → n ≠ p ∧ is_Some (kFrames s !! n)) →
  (∀ s', pmm_static s' = pmm_static s → kFreePages s' = kFreePages s →
     kFreeLists s' = (match pf_prev f with Some _ => kFreeLists s | None => <[o := pf_next f]> (kFreeLists s) end) →
     (∀ q, kFrames s' !! q = remove_view p f s q) → Q () s') →
  wp (list_remove o p) Q s.
Proof.
  intros Hf Hh Hn HQ. unfold list_remove. wp_run. eapply wp_read_frame; [done|]. wp_run.
  pose proof (λ s1, list_remove_tail o p s s1 f Q Hf Hn HQ) as Hlast.
  destruct (pf_prev f) as [m|] eqn:Em.
  - destruct (Hn m (or_intror eq_refl)) as [Hne [fm Hfm]].
    eapply wp_write_frame; [done|]. apply Hlast; try done. intros q. simpl.
    destruct (decide (Some m = Some q)) as [[= <-]|]; [by simplify_map_eq|].
    by rewrite lookup_insert_ne by congruence.
  - eapply wp_write_head; [done|]. apply Hlast; try done.
Qed.

(** ** The link operations preserve the invariant *)

Section add.
Context (s s' : pmm) (L : nat → list Z) (A : list block) (p : Z) (o : nat) (h : option Z).
Hypothesis Hl : pmm_lists s L ((p, o) :: A).
Hypothesis Hh : kFreeLists s !! o = Some h.
Hypothesis Hs' : ∀ q, kFrames s' !! q = add_view o p h s q.

Lemma add_next q : q ≠ p → frame_next s' q = frame_next s q.
Proof.
  intros Hq. unfold frame_next. rewrite Hs'. unfold add_view.
  rewrite decide_False by done. case_decide; [|done]. by destruct (kFrames s !! q).
Qed.

Lemma add_prev q : is_Some (kFrames s !! q) → q ≠ p →
  frame_prev s' q = if decide (h = Some q) then Some p else frame_prev s q.
Proof.
  intros [f Hf] Hq. unfold frame_prev. rewrite Hs'. unfold add_view.
  rewrite decide_False by done. case_decide; [|done]. by rewrite Hf.
Qed.

Lemma add_data q : q ≠ p → pf_data <$> kFrames s' !! q = pf_data <$> kFrames s !! q.
Proof.
  intros Hq. rewrite Hs'. unfold add_view. rewrite decide_False by done.
  case_decide; [|done]. by destruct (kFrames s !! q).
Qed.

Lemma add_outside o' q : (o' ≤ MAX_ORDER)%nat → q ∈ L o' → q ≠ p.
Proof. intros Ho' Hq ->. by eapply pl_outside. Qed.

Lemma add_head : ∃ f', kFrames s' !! p = Some f' ∧ is_free f' = true ∧ pf_order f' = o ∧
  pf_next f' = h ∧ pf_prev f' = None.
Proof.
  destruct (pl_block_frame s L _ (p, o) Hl) as [f Hf]; [set_solver|]. simpl in Hf.
  rewrite Hs'. unfold add_view. rewrite decide_True, Hf by done. eexists. split; [done|].
  split; [|done]. exact (is_free_set f).
Qed.

Lemma add_chain : kFreeLists s' = <[o := Some p]> (kFreeLists s) →
  ∀ o' h', kFreeLists s' !! o' = Some h' →
    dchain (frame_next s') (frame_prev s') h' ((<[o := p :: L o]> L : nat → list Z) o').
Proof.
  intros Hheads o' h'. rewrite Hheads. pose proof add_outside as Hout. pose proof add_head as Hp'.
  pose proof (pl_head_order _ _ _ _ _ Hl Hh) as Ho. pose proof Hl as [].
  destruct (decide (o' = o)) as [->|Hoo].
  + rewrite list_lookup_insert_eq, fn_lookup_insert by (rewrite pl_heads0; lia).
    intros [= <-]. destruct Hp' as (f' & Hf' & _ & _ & Hn' & Hp').
    eapply dchain_push; [by eapply pl_chain0|..].
    * intros Hin. by eapply Hout.
    * unfold frame_next. rewrite Hf'. done.
    * unfold frame_prev. rewrite Hf'. done.
    * intros q Hq. apply add_next. by eapply Hout.
    * intros q Hq. apply add_prev; [by eapply pl_mem_frame | by eapply Hout].
  + rewrite list_lookup_insert_ne, fn_lookup_insert_ne by done. intros Hh'.
    pose proof (pl_head_order _ _ _ _ _ Hl Hh') as Ho'.
    eapply dchain_ext, pl_chain0, Hh'; intros q Hq.
    * apply add_next. by eapply Hout.
    * rewrite add_prev; [|by eapply pl_mem_frame|by eapply Hout].
      rewrite decide_False; [done|]. intros ->. apply Hoo.
      eapply (pl_unique s); [done|done|done|exact Hq|].
      destruct (dchain_cons_inv _ _ _ _ q (pl_chain0 _ _ Hh) eq_refl) as (? & -> & _). set_solver.
Qed.

Lemma add_lists :
  kFreeLists s' = <[o := Some p]> (kFreeLists s) → pmm_static s' = pmm_static s →
  pmm_lists s' (<[o := p :: L o]> L) A.
Proof.
  intros Hheads [= Ht Ha Hhh]. pose proof (pl_head_order _ _ _ _ _ Hl Hh) as Ho.
  pose proof add_outside as Hout. pose proof add_head as Hp'.
  assert (Hdata : ∀ q f', q ≠ p → kFrames s' !! q = Some f' →
            ∃ g, kFrames s !! q = Some g ∧ is_free g = is_free f' ∧ pf_order g = pf_order f').
  { intros q f' Hq Hf'. pose proof (add_data q Hq) as E. rewrite Hf' in E.
    destruct (kFrames s !! q) as [g|]; [|done]. apply (inj Some) in E.
    apply pf_data_free in E as [E1 E2]. exists g. by rewrite E1, E2. }
  pose proof Hl as []. split.
  - rewrite Hheads, length_insert. done.
  - by rewrite Ht.
  - intros q. rewrite Ht, <-pl_dom0, Hs'. unfold add_view.
    repeat case_decide; by rewrite ?fmap_is_Some.
  - by apply add_chain.
  - intros o' q f' Ho' Hq Hf'. destruct (decide (q = p)) as [->|Hqp].
    + destruct Hp' as (f2 & Hf2 & ? & ? & _). simplify_eq. split; [done|].
      destruct (decide (o' = pf_order f2)) as [->|Hne]; [done|].
      rewrite fn_lookup_insert_ne in Hq by done. exfalso. by eapply Hout.
    + destruct (Hdata q f' Hqp Hf') as (g & Hg & <- & <-).
      assert (q ∈ L o').
      { destruct (decide (o' = o)) as [->|?].
        - rewrite fn_lookup_insert in Hq. set_solver.
        - by rewrite fn_lookup_insert_ne in Hq. }
      by apply (pl_mem0 o' q g).
  - intros q f' Hf' Hfree. destruct (decide (q = p)) as [->|Hqp].
    + exists o. rewrite fn_lookup_insert. set_solver.
    + destruct (Hdata q f' Hqp Hf') as (g & Hg & Eg & _). rewrite <-Eg in Hfree.
      destruct (pl_free0 _ _ Hg Hfree) as (o' & Ho' & Hq). exists o'. split; [done|].
      destruct (decide (o' = o)) as [->|?]; rewrite ?fn_lookup_insert, ?fn_lookup_insert_ne by done;
        set_solver.
  - rewrite Ht, blocks_push by done. simpl. by rewrite Permutation_middle.
Qed.
End add.

Lemma list_add_inv s L A p o Q :
  pmm_lists s L ((p, o) :: A) →
  (∀ s', pmm_lists s' (<[o := p :: L o]> L) A → frames_agree [p] s s' →
     pmm_static s' = pmm_static s → kFreePages s' = kFreePages s → Q () s') →
  wp (list_add o p) Q s.
Proof.
  intros Hl HQ. assert (Ho : (o ≤ MAX_ORDER)%nat).
  { destruct (pl_blocks _ _ _ Hl) as [HF _]. rewrite Forall_forall in HF.
    apply (HF (p, o)). set_solver. }
  destruct (pl_head_some _ _ _ o Hl Ho) as [h Hh].
  destruct (pl_block_frame s L _ (p, o) Hl) as [f Hf]; [set_solver|]. simpl in Hf.
  eapply list_add_run; [done|done|..].
  - intros n ->. destruct (dchain_cons_inv _ _ _ _ n (pl_chain _ _ _ Hl _ _ Hh) eq_refl) as (l & El & _).
    assert (n ∈ L o) by (rewrite El; set_solver).
    split; [|by eapply pl_mem_frame]. intros ->. by eapply pl_outside.
  - intros s' Hst Hfp Hheads Hs'. apply HQ; [|..|done|done].
    + by eapply add_lists.
    + intros q Hq. eapply add_data; [done|set_solver].
Qed.

Section remove.
Context (s : pmm) (L : nat → list Z) (A : list block) (p : Z) (o : nat) (f : PageFrame).
Context (l1 l2 : list Z).
Hypothesis Hl : pmm_lists s L A.
Hypothesis Ho : (o ≤ MAX_ORDER)%nat.
Hypothesis HLo : L o = l1 ++ p :: l2.
Hypothesis Hf : kFrames s !! p = Some f.

Lemma remove_links : pf_prev f = last l1 ∧ pf_next f = head l2 ∧ p ∉ l1 ++ l2.
Proof.
  destruct (pl_head_some _ _ _ o Hl Ho) as [h Hh]. pose proof (pl_chain _ _ _ Hl _ _ Hh) as Hc.
  rewrite HLo in Hc. pose proof (dchain_NoDup _ _ _ _ Hc) as Hnd.
  apply dchain_links in Hc as [Hp Hn]. unfold frame_prev, frame_next in *. rewrite Hf in *.
  split_and!; [done|done|]. rewrite <-Permutation_middle in Hnd. by apply NoDup_cons in Hnd as [? _].
Qed.

Lemma remove_neighbours n : pf_next f = Some n ∨ pf_prev f = Some n → n ∈ l1 ++ l2.
Proof.
  destruct remove_links as (-> & -> & _). intros [Hn|Hn].
  - destruct l2; simplify_eq/=. set_solver.
  - apply last_Some_elem_of in Hn. set_solver.
Qed.

Context (s' : pmm).
Hypothesis Hs' : ∀ q, kFrames s' !! q = remove_view p f s q.

Lemma remove_next q : is_Some (kFrames s !! q) → q ≠ p →
  frame_next s' q = if decide (pf_prev f = Some q) then pf_next f else frame_next s q.
Proof.
  intros [g Hg] Hq. unfold frame_next. rewrite Hs'. unfold remove_view.
  rewrite decide_False, Hg by done. simpl. by case_decide.
Qed.

Lemma remove_prev q : is_Some (kFrames s !! q) → q ≠ p →
  frame_prev s' q = if decide (pf_next f = Some q) then pf_prev f else frame_prev s q.
Proof.
  intros [g Hg] Hq. unfold frame_prev. rewrite Hs'. unfold remove_view.
  rewrite decide_False, Hg by done. simpl. by case_decide.
Qed.

Lemma remove_data q : q ≠ p → pf_data <$> kFrames s' !! q = pf_data <$> kFrames s !! q.
Proof.
  intros Hq. rewrite Hs'. unfold remove_view. rewrite decide_False by done.
  by destruct (kFrames s !! q).
Qed.

Lemma remove_elem o' q : (o' ≤ MAX_ORDER)%nat →
  q ∈ (<[o := l1 ++ l2]> L) o' ↔ q ∈ L o' ∧ q ≠ p.
Proof.
  intros Ho'. destruct remove_links as (_ & _ & Hp). destruct (decide (o' = o)) as [->|Hne].
  - rewrite fn_lookup_insert, HLo. set_solver.
  - rewrite fn_lookup_insert_ne by done. split; [|by intros []]. intros Hq. split; [done|].
    intros ->. apply Hne. apply (pl_unique s L A o' o p); try done. rewrite HLo. set_solver.
Qed.

Lemma remove_chain_other o' h' : o' ≠ o → kFreeLists s !! o' = Some h' →
  dchain (frame_next s') (frame_prev s') h' (L o').
Proof.
  intros Hne Hh'. pose proof (pl_head_order _ _ _ _ _ Hl Hh') as Ho'.
  assert (Hout : ∀ q, q ∈ L o' → q ≠ p ∧ q ∉ l1 ++ l2).
  { intros q Hq. split; intros Hq2; apply Hne; apply (pl_unique s L A o' o q); try done;
      rewrite HLo; set_solver. }
  eapply dchain_ext, (pl_chain _ _ _ Hl), Hh'; intros q Hq; destruct (Hout q Hq).
  - rewrite remove_next by (done || by eapply pl_mem_frame).
    rewrite decide_False; [done|]. intros E. naive_solver eauto using remove_neighbours.
  - rewrite remove_prev by (done || by eapply pl_mem_frame).
    rewrite decide_False; [done|]. intros E. naive_solver eauto using remove_neighbours.
Qed.

Lemma remove_chain h : kFreeLists s !! o = Some h →
  dchain (frame_next s') (frame_prev s')
    (match pf_prev f with Some _ => h | None => pf_next f end) (l1 ++ l2).
Proof.
  intros Hh. pose proof (pl_chain _ _ _ Hl _ _ Hh) as Hc. rewrite HLo in Hc.
  destruct remove_links as (_ & _ & Hp).
  assert (Hmem : ∀ q, q ∈ l1 ++ l2 → is_Some (kFrames s !! q) ∧ q ≠ p).
  { intros q Hq. split; [|set_solver]. eapply (pl_mem_frame s L A o); [done|done|].
    rewrite HLo. set_solver. }
  assert (Ep : frame_prev s p = pf_prev f) by (unfold frame_prev; by rewrite Hf).
  assert (En : frame_next s p = pf_next f) by (unfold frame_next; by rewrite Hf).
  rewrite <-Ep, <-En. eapply dchain_remove; [exact Hc|..]; rewrite Ep, En; intros q [? ?]%Hmem.
  - by apply remove_next.
  - by apply remove_prev.
Qed.

Lemma remove_lists :
  kFreeLists s' =
    (match pf_prev f with Some _ => kFreeLists s | None => <[o := pf_next f]> (kFreeLists s) end) →
  pmm_static s' = pmm_static s →
  pmm_lists s' (<[o := l1 ++ l2]> L) ((p, o) :: A).
Proof.
  intros Hheads [= Ht Ha Hhh]. destruct (pl_head_some _ _ _ o Hl Ho) as [h Hh].
  pose proof (remove_chain h Hh) as Hc.
  assert (Hdata : ∀ q f', q ≠ p → kFrames s' !! q = Some f' →
            ∃ g, kFrames s !! q = Some g ∧ is_free g = is_free f' ∧ pf_order g = pf_order f').
  { intros q f' Hq Hf'. pose proof (remove_data q Hq) as E. rewrite Hf' in E.
    destruct (kFrames s !! q) as [g|]; [|done]. apply (inj Some) in E.
    apply pf_data_free in E as [E1 E2]. exists g. by rewrite E1, E2. }
  pose proof Hl as []. split.
  - rewrite Hheads. destruct (pf_prev f); by rewrite ?length_insert.
  - by rewrite Ht.
  - intros q. rewrite Ht, <-pl_dom0, Hs'. unfold remove_view.
    case_decide; [subst; by rewrite Hf | by rewrite fmap_is_Some].
  - intros o' h'. rewrite Hheads. destruct (decide (o' = o)) as [->|Hoo].
    + rewrite fn_lookup_insert. destruct (pf_prev f) eqn:Ep.
      * rewrite Hh. by intros [= <-].
      * rewrite list_lookup_insert_eq by (rewrite pl_heads0; lia). by intros [= <-].
    + rewrite fn_lookup_insert_ne by done. intros Hh'. apply remove_chain_other; [done|].
      destruct (pf_prev f); [done|]. by rewrite list_lookup_insert_ne in Hh'.
  - intros o' q f' Ho' Hq Hf'. apply remove_elem in Hq as [Hq Hqp]; [|done].
    destruct (Hdata q f' Hqp Hf') as (g & Hg & <- & <-). by apply (pl_mem0 o' q g).
  - intros q f' Hf' Hfree. destruct (decide (q = p)) as [->|Hqp].
    + rewrite Hs' in Hf'. unfold remove_view in Hf'. rewrite decide_True in Hf' by done.
      simplify_eq. by rewrite is_free_clear in Hfree.
    + destruct (Hdata q f' Hqp Hf') as (g & Hg & Eg & _). rewrite <-Eg in Hfree.
      destruct (pl_free0 _ _ Hg Hfree) as (o' & Ho' & Hq). exists o'. split; [done|].
      by apply remove_elem.
  - rewrite Ht, <-Permutation_middle. change ((p, o) :: ?x ++ A) with (((p, o) :: x) ++ A).
    by rewrite <-(blocks_remove L o l1 p l2).
Qed.
End remove.

Lemma list_remove_inv s L A p o Q :
  pmm_lists s L A → (o ≤ MAX_ORDER)%nat → p ∈ L o →
  (∀ s' l1 l2, L o = l1 ++ p :: l2 → pmm_lists s' (<[o := l1 ++ l2]> L) ((p, o) :: A) →
     frames_agree [p] s s' →
     pf_order <$> kFrames s' !! p = pf_order <$> kFrames s !! p →
     pmm_static s' = pmm_static s → kFreePages s' = kFreePages s → Q () s') →
  wp (list_remove o p) Q s.
Proof.
  intros Hl Ho Hp HQ. destruct (list_elem_of_split _ _ Hp) as (l1 & l2 & HLo).
  destruct (pl_head_some _ _ _ o Hl Ho) as [h Hh].
  destruct (pl_mem_frame _ _ _ _ _ Hl Ho Hp) as [f Hf].
  eapply list_remove_run; [done|done|..].
  - intros n Hn%(remove_neighbours s L A p o f l1 l2 Hl Ho HLo Hf).
    destruct (remove_links s L A p o f l1 l2 Hl Ho HLo Hf) as (_ & _ & Hnp).
    split; [set_solver|]. eapply (pl_mem_frame s L A o); [done|done|]. rewrite HLo. set_solver.
  - intros s' Hst Hfp Hheads Hs'. eapply HQ; [done|..|done|done].
    + by eapply remove_lists.
    + intros q Hq. eapply remove_data; [done|set_solver].
    + rewrite Hs', Hf. unfold remove_view. by rewrite decide_True.
Qed.
