(* ===== verification/PmmAlloc.v ===== *)
(** * Correctness of allocation and deallocation

    Loop specifications of [split_block], [alloc_from] and [merge_loop], the
    contracts of [pmm_alloc_pages] and [pmm_free_pages], and the reachable
    states of a client that allocates and frees in any order. *)

From stdpp Require Import relations.
From S2P Require Import Prelude LinkedList Pmm PmmBlocks PmmInv.
Open Scope Z_scope.

(** ** Addresses *)

Lemma pfn_to_phys_mul p : 0 ≤ p < 2 ^ 52 → pfn_to_phys p = p * PAGE_SIZE.
Proof.
  intros Hp. unfold pfn_to_phys, PAGE_SHIFT, PAGE_SIZE. rewrite Z.shiftl_mul_pow2 by done.
  apply wrap_small. lia.
Qed.

Lemma phys_to_pfn_to_phys p : 0 ≤ p < 2 ^ 52 → phys_to_pfn (pfn_to_phys p) = p.
Proof.
  intros Hp. rewrite pfn_to_phys_mul by done. unfold phys_to_pfn, PAGE_SHIFT, PAGE_SIZE.
  rewrite Z.shiftr_div_pow2 by done. by apply Z_div_mult.
Qed.

(** ** The order search *)

Lemma target_order_loop_spec fuel o count :
  (fuel + o = 64)%nat → (∀ k, (k < o)%nat → block_size k < count) → count ≤ 2 ^ 63 → (o ≤ 63)%nat →
  ∃ t, target_order_loop fuel o count = Some t ∧ (t ≤ 63)%nat ∧ count ≤ block_size t ∧
       ∀ k, (k < t)%nat → block_size k < count.
Proof.
  revert o; induction fuel as [|fuel IH]; intros o Hfo Hlt Hc Ho; [lia|]. simpl.
  case_if.
  - destruct (decide (o = 63%nat)) as [->|Hne].
    { rewrite block_size_pow in *. change (2 ^ Z.of_nat 63) with (2 ^ 63) in *. lia. }
    apply IH; try lia. intros k Hk. destruct (decide (k = o)) as [->|]; [done|]. apply Hlt. lia.
  - exists o. done.
Qed.

Lemma target_order_spec count : count ≤ 2 ^ 63 →
  ∃ t, target_order count = Some t ∧ count ≤ block_size t ∧ ∀ k, (k < t)%nat → block_size k < count.
Proof.
  intros Hc. destruct (target_order_loop_spec 64 0 count) as (t & ? & _ & ? & ?); [lia..|]. eauto.
Qed.

(** ** Splitting *)

(** The free lists after splitting: one upper half per order. *)
Fixpoint split_lists (n t : nat) (p : Z) (L : nat → list Z) : nat → list Z :=
  match n with
  | O => L
  | S n => split_lists n t p (<[(t + n)%nat := (p + block_size (t + n)) :: L (t + n)%nat]> L)
  end.

Lemma split_block_inv n t p s L A Q :
  pmm_lists s L ((p, t + n)%nat :: A) →
  (∀ s', pmm_lists s' (split_lists n t p L) ((p, t) :: A) →
     frames_agree (filter (λ q, q ≠ p) (block_pages (p, t + n)%nat)) s s' →
     pmm_static s' = pmm_static s → kFreePages s' = kFreePages s → Q () s') →
  wp (split_block n t p) Q s.
Proof.
  revert s L Q; induction n as [|n IH]; intros s L Q Hl HQ; simpl.
  { wp_run. rewrite Nat.add_0_r in *. apply HQ; done. }
  rewrite Nat.add_succ_r in *. wp_run.
  assert (Hb : block_ok (kTotalPages s) (p, S (t + n))).
  { destruct (pl_blocks _ _ _ Hl) as [HF _]. rewrite Forall_forall in HF. apply HF. set_solver. }
  destruct Hb as (Ho & Hp & Hp0 & Hpt); simpl in *.
  rewrite buddy_of_low by done.
  assert (Hl' : pmm_lists s L ((p + block_size (t + n), (t + n)%nat) :: (p, t + n)%nat :: A)).
  { destruct Hl. split; try done. rewrite <-Permutation_middle in pl_blocks.
    rewrite (blocks_ok_halves _ p (t + n)) in pl_blocks by done.
    rewrite <-Permutation_middle, <-Permutation_middle. by rewrite Permutation_swap. }
  pose proof (block_size_pos (t + n)).
  eapply list_add_inv; [exact Hl'|]. intros s1 Hl1 Hag1 Hst1 Hfp1. simpl in Hl1.
  eapply IH; [exact Hl1|]. intros s2 Hl2 Hag2 Hst2 Hfp2. apply HQ.
  - done.
  - eapply frames_agree_trans; eapply frames_agree_mono; [|exact Hag1| |exact Hag2].
    + intros q [->|[]%not_elem_of_nil]%elem_of_cons. apply list_elem_of_filter.
      rewrite block_pages_halves, elem_of_app, !elem_of_block_pages. simpl. lia.
    + intros q. rewrite !list_elem_of_filter, block_pages_halves, elem_of_app. naive_solver.
  - congruence.
  - congruence.
Qed.

Lemma split_lists_pages n t p L :
  (t + n ≤ MAX_ORDER)%nat → (block_size (t + n) | p) →
  pages (blocks (split_lists n t p L)) ++ block_pages (p, t) ≡ₚ pages (blocks L) ++ block_pages (p, (t + n)%nat).
Proof.
  revert L; induction n as [|n IH]; intros L Hn Hp; simpl.
  { by rewrite Nat.add_0_r. }
  rewrite Nat.add_succ_r in *.
  rewrite IH; [|lia|etrans; [|exact Hp]; apply block_size_mono; lia].
  rewrite blocks_push by lia. rewrite pages_cons, block_pages_halves.
  rewrite <-app_assoc, (Permutation_app_comm (block_pages (p, _))), !app_assoc.
  apply Permutation_app_tail. apply Permutation_app_comm.
Qed.

(** ** Allocation *)

(** What [alloc_from order target] does: take the first free block of the first
    non-empty list, split it, and hand out its lower end. *)
Definition alloc_outcome (order target : nat) (L : nat → list Z) (o : nat) (p : Z) (l : list Z) : Prop :=
  (order ≤ o ≤ MAX_ORDER)%nat ∧ L o = p :: l ∧ ∀ k, (order ≤ k < o)%nat → L k = [].

(** An allocated frame stays one when its data is kept. *)
Lemma allocated_kept s s' q o :
  (∃ f, kFrames s !! q = Some f ∧ pf_order f = o ∧ has_flag (pf_flags f) PAGE_USED = true) →
  pf_data <$> kFrames s' !! q = pf_data <$> kFrames s !! q →
  ∃ f, kFrames s' !! q = Some f ∧ pf_order f = o ∧ has_flag (pf_flags f) PAGE_USED = true.
Proof.
  intros (f & Hf & Hfo & Hfu) E. rewrite Hf in E. destruct (kFrames s' !! q) as [g|]; [|done].
  simpl in E. apply (inj Some) in E. exists g. split; [done|]. unfold pf_data in E. split; congruence.
Qed.

Lemma allocated_apart s L A p o q o' :
  pmm_lists s L A → (o ≤ MAX_ORDER)%nat → p ∈ L o → (q, o') ∈ A → q ∉ block_pages (p, o).
Proof.
  intros Hl Ho Hp Hin Hq. destruct (pl_blocks _ _ _ Hl) as [_ HN]. rewrite pages_app, NoDup_app in HN.
  destruct HN as (_ & Hd & _). eapply (Hd q); [|by apply (pages_head (q, o'))].
  apply elem_of_pages. exists (p, o). split; [|by apply elem_of_block_pages]. by apply elem_of_blocks.
Qed.

(** The count of free pages after a block was split and its lower end taken. *)
Lemma split_count s L A o target p l :
  pmm_lists s L A → (target ≤ o ≤ MAX_ORDER)%nat → L o = p :: l →
  Z.of_nat (length (pages (blocks L))) -64 block_size target =
    Z.of_nat (length (pages (blocks (split_lists (o - target) target p (<[o := l]> L))))).
Proof.
  intros Hl Ho HLo. assert (Hp : block_ok (kTotalPages s) (p, o)).
  { destruct (pl_blocks _ _ _ Hl) as [HF _]. rewrite Forall_forall in HF. apply HF, elem_of_app.
    left. apply elem_of_blocks. rewrite HLo. set_solver by lia. }
  pose proof (split_lists_pages (o - target) target p (<[o := l]> L)) as Hpg.
  replace (target + (o - target))%nat with o in Hpg by lia.
  specialize (Hpg (proj1 Hp) (proj1 (proj2 Hp))).
  pose proof (blocks_remove L o [] p l ltac:(lia) HLo) as Hrm. simpl in Hrm.
  assert (Hlen : Z.of_nat (length (pages (blocks L))) =
    Z.of_nat (length (pages (blocks (split_lists (o - target) target p (<[o:=l]> L))))) + block_size target).
  { rewrite Hrm, pages_cons, Permutation_app_comm, <-Hpg, length_app, Nat2Z.inj_add, length_block_pages. done. }
  rewrite Hlen.
  pose proof (blocks_ok_length _ _ (proj1 (pl_total _ _ _ Hl)) (blocks_ok_app_l _ _ _ (pl_blocks _ _ _ Hl))).
  pose proof (pl_total _ _ _ Hl). pose proof (block_size_pos target). rewrite wrap_small; lia.
Qed.

Lemma alloc_block_inv s L A o target p l Q :
  pmm_inv s L A → (target ≤ o ≤ MAX_ORDER)%nat → L o = p :: l →
  (∀ s', pmm_inv s' (split_lists (o - target) target p (<[o := l]> L)) ((p, target) :: A) →
     pmm_static s' = pmm_static s → Q (pfn_to_phys p) s') →
  wp (list_remove o p;;
      split_block (o - target) target p;;
      write_frame p (λ f, pf_set_flags (set_flag (pf_flags f) PAGE_USED) f);;
      write_frame p (pf_set_order target);;
      modify (λ s, set_kFreePages (kFreePages s -64 block_size target) s);;
      mret (pfn_to_phys p)) Q s.
Proof.
  intros [Hl Hc Ha] Ho HLo HQ. wp_run.
  eapply list_remove_inv; [exact Hl|lia|rewrite HLo; set_solver|].
  intros s1 l1 l2 E Hl1 Hag1 _ Hst1 Hfp1.
  assert (l1 = [] ∧ l2 = l) as [-> ->].
  { rewrite HLo in E. destruct l1 as [|x l1]; simplify_eq/=; [done|].
    destruct (pl_head_some _ _ _ o Hl) as [h Hh]; [lia|].
    pose proof (pl_chain _ _ _ Hl _ _ Hh) as Hch%dchain_NoDup. rewrite HLo in Hch.
    apply NoDup_cons in Hch. set_solver. }
  simpl in Hl1. replace o with (target + (o - target))%nat in Hl1 at 2 by lia.
  wp_run. eapply split_block_inv; [exact Hl1|]. intros s2 Hl2 Hag2 Hst2 Hfp2.
  destruct (pl_block_frame s2 _ _ (p, target) Hl2) as [f2 Hf2]; [set_solver|]. simpl in Hf2.
  wp_run. eapply wp_write_frame; [done|].
  pose proof (pl_write_outside _ _ _ _ _ f2 (λ f, pf_set_flags (set_flag (pf_flags f) PAGE_USED) f)
                Hl2 Hf2 (is_free_set_used f2)) as Hl3.
  wp_run. eapply wp_write_frame; [frame_lookup|].
  pose proof (pl_write_outside _ _ _ _ _ _ (pf_set_order target) Hl3 (lookup_insert_eq _ _ _) eq_refl) as Hl4.
  wp_run. apply HQ; [|by rewrite <-Hst1, <-Hst2]. split; simpl.
  - by apply pl_counters.
  - rewrite Hfp2, Hfp1, Hc. by eapply split_count.
  - intros q o' [[= -> ->]|Hin]%elem_of_cons.
    { eexists. split; [apply lookup_insert_eq|]. split; [done|].
      cbn [pf_flags pf_set_order pf_set_flags]. unfold PAGE_USED.
      rewrite has_flag_bit, set_flag_bit by done. apply orb_true_r. }
    assert (Hnb : q ∉ block_pages (p, o)).
    { eapply allocated_apart; [exact Hl|lia|rewrite HLo; set_solver|exact Hin]. }
    assert (Hqp : q ≠ p).
    { intros ->. apply Hnb, elem_of_block_pages. simpl. pose proof (block_size_pos o). lia. }
    rewrite !lookup_insert_ne by done. apply (allocated_kept s s2 q o' (Ha _ _ Hin)).
    replace (target + (o - target))%nat with o in Hag2 by lia.
    rewrite (Hag2 q), (Hag1 q); [done|set_solver|rewrite list_elem_of_filter; naive_solver].
Qed.

Lemma alloc_from_inv fuel order target s L A Q :
  pmm_inv s L A → (fuel + order = S MAX_ORDER)%nat → (target ≤ order)%nat →
  ((∀ k, (order ≤ k ≤ MAX_ORDER)%nat → L k = []) → Q 0 s) →
  (∀ s' o p l, alloc_outcome order target L o p l →
     pmm_inv s' (split_lists (o - target) target p (<[o := l]> L)) ((p, target) :: A) →
     pmm_static s' = pmm_static s → Q (pfn_to_phys p) s') →
  wp (alloc_from fuel order target) Q s.
Proof.
  intros Hi. revert order; induction fuel as [|fuel IH]; intros order Hfo Hto HQ0 HQ; simpl.
  { apply wp_ret, HQ0. lia. }
  pose proof (pi_lists _ _ _ Hi) as Hl.
  destruct (pl_head_some _ _ _ order Hl ltac:(lia)) as [h Hh].
  pose proof (pl_chain _ _ _ Hl _ _ Hh) as Hch.
  wp_run. eapply wp_read_head; [done|]. destruct h as [p|].
  - destruct (dchain_cons_inv _ _ _ _ p Hch eq_refl) as (l & HLo & _).
    eapply (alloc_block_inv _ _ _ _ _ _ _ _ Hi); [lia|exact HLo|]. intros s' Hs' Hst.
    eapply HQ; [|exact Hs'|done]. split_and!; [lia|lia|done|lia].
  - pose proof (dchain_nil_inv _ _ _ _ Hch eq_refl) as Hnil.
    apply IH; [lia|lia|..].
    + intros Hk. apply HQ0. intros k Hk2. destruct (decide (k = order)) as [->|]; [done|]. apply Hk. lia.
    + intros s' o p l (Ho & HLo & Hemp) Hs' Hst. eapply HQ; [|exact Hs'|done].
      split_and!; [lia|lia|done|]. intros k Hk. destruct (decide (k = order)) as [->|]; [done|].
      apply Hemp. lia.
Qed.

(** ** Deallocation *)

(** Why the merge loop stops at [(p, o)]. *)
Definition merge_stuck (s : pmm) (p : Z) (o : nat) : Prop :=
  o = MAX_ORDER ∨ kTotalPages s ≤ buddy_of p o ∨
  ∃ f, kFrames s !! buddy_of p o = Some f ∧ mergeable o f = false.

Lemma block_of_outside s L A p o : pmm_lists s L ((p, o) :: A) → block_ok (kTotalPages s) (p, o).
Proof.
  intros Hl. destruct (pl_blocks _ _ _ Hl) as [HF _]. rewrite Forall_forall in HF.
  apply HF. set_solver.
Qed.

Lemma mergeable_free o f : mergeable o f = true → is_free f = true ∧ pf_order f = o.
Proof.
  unfold mergeable, is_free. intros Hm. bool_props. split; [done|]. by apply Nat.eqb_eq.
Qed.

(** The held block and a free buddy of the same order are one block of the next. *)
Lemma merge_step s L A p o :
  (o < MAX_ORDER)%nat → pmm_lists s L ((buddy_of p o, o) :: (p, o) :: A) →
  let p' := if buddy_of p o <? p then buddy_of p o else p in
  pmm_lists s L ((p', S o) :: A) ∧
  block_pages (p', S o) ≡ₚ block_pages (buddy_of p o, o) ++ block_pages (p, o).
Proof.
  intros Ho Hl. assert (Hb : block_ok (kTotalPages s) (p, o)).
  { apply (block_of_outside s L ((buddy_of p o, o) :: A)). by rewrite Permutation_swap in Hl. }
  destruct Hb as (_ & Hp & _ & _); simpl in Hp. pose proof (block_size_pos o).
  destruct (buddy_of_spec p o Hp) as [[Hal E]|[Hal E]]; rewrite E in *.
  - rewrite (proj2 (Z.ltb_ge _ _)) by lia. split.
    + destruct Hl. split; try done. rewrite <-Permutation_middle.
      rewrite blocks_ok_halves by (done || lia).
      rewrite Permutation_swap, !Permutation_middle. done.
    + rewrite block_pages_halves. apply Permutation_app_comm.
  - rewrite (proj2 (Z.ltb_lt _ _)) by lia. split.
    + destruct Hl. split; try done. rewrite <-Permutation_middle.
      rewrite blocks_ok_halves by (done || lia).
      replace (p - block_size o + block_size o) with p by lia.
      rewrite !Permutation_middle. done.
    + rewrite block_pages_halves. by replace (p - block_size o + block_size o) with p by lia.
Qed.

Lemma merge_loop_inv fuel p o s L A Q :
  pmm_lists s L ((p, o) :: A) → (MAX_ORDER ≤ fuel + o)%nat →
  (∀ p' o' s' L', pmm_lists s' L' ((p', o') :: A) →
     pages (blocks L') ++ block_pages (p', o') ≡ₚ pages (blocks L) ++ block_pages (p, o) →
     block_pages (p, o) ⊆ block_pages (p', o') →
     merge_stuck s' p' o' →
     frames_agree (pages (blocks L)) s s' →
     pmm_static s' = pmm_static s → kFreePages s' = kFreePages s → Q (p', o') s') →
  wp (merge_loop fuel p o) Q s.
Proof.
  revert p o s L Q; induction fuel as [|fuel IH]; intros p o s L Q Hl Hfuel HQ; simpl;
    pose proof (block_of_outside _ _ _ _ _ Hl) as (Ho & Hp & Hp0 & Hpt); simpl in *.
  { apply wp_ret. eapply HQ; try done. left. lia. }
  destruct (Nat.ltb_spec o MAX_ORDER) as [Hlt|Hge]; simpl.
  2:{ apply wp_ret. eapply HQ; try done. left. lia. }
  wp_run. case_if.
  { apply wp_ret. eapply HQ; try done. by right; left. }
  assert (Hb0 : 0 ≤ buddy_of p o).
  { unfold buddy_of. apply Z.lxor_nonneg. pose proof (block_size_pos o). lia. }
  destruct (proj2 (pl_dom _ _ _ Hl (buddy_of p o))) as [fb Hfb]; [lia|].
  wp_run. eapply wp_read_frame; [done|].
  destruct (mergeable o fb) eqn:Hm; simpl.
  2:{ apply wp_ret. eapply HQ; try done. right; right. by exists fb. }
  apply mergeable_free in Hm as [Hfree Hord].
  destruct (pl_free _ _ _ Hl _ _ Hfb Hfree) as (o2 & Ho2 & Hin).
  destruct (pl_mem _ _ _ Hl _ _ _ Ho2 Hin Hfb) as [_ Eo2].
  assert (o2 = o) as -> by congruence.
  wp_run. eapply list_remove_inv; [exact Hl|exact Ho|exact Hin|].
  intros s1 l1 l2 HLo Hl1 Hag1 _ Hst1 Hfp1.
  destruct (merge_step _ _ _ _ _ Hlt Hl1) as [Hl2 Hpg].
  pose proof (blocks_remove L o l1 _ l2 Ho HLo) as Hrm.
  eapply IH; [exact Hl2|lia|]. intros p' o' s' L' Hl' Hpages Hsub Hstuck Hag Hst Hfp.
  eapply HQ; [exact Hl'|..]; try congruence.
  - rewrite Hpages, Hpg, Hrm, pages_cons, app_assoc. apply Permutation_app_tail, Permutation_app_comm.
  - etrans; [|exact Hsub]. intros q Hq. rewrite Hpg. apply elem_of_app. by right.
  - eapply frames_agree_trans; eapply frames_agree_mono; [|exact Hag1| |exact Hag].
    + intros q [->|[]%not_elem_of_nil]%elem_of_cons. apply (pages_head (buddy_of p o, o)).
      rewrite Hrm. set_solver.
    + intros q Hq. rewrite Hrm, pages_cons. apply elem_of_app. by right.
Qed.

Lemma merge_stuck_kept s s' p o :
  buddy_of p o ≠ p → kTotalPages s' = kTotalPages s → frames_agree [p] s s' →
  merge_stuck s p o → merge_stuck s' p o.
Proof.
  intros Hne Ht Hag [?|[?|(fb & Hfb & Hm)]]; [by left|right; left; by rewrite Ht|right; right].
  specialize (Hag (buddy_of p o) ltac:(set_solver)). rewrite Hfb in Hag.
  destruct (kFrames s' !! buddy_of p o) as [g|]; [|done]. exists g. split; [done|].
  apply (inj Some) in Hag. unfold pf_data in Hag. simplify_eq. unfold mergeable in *. congruence.
Qed.

(** The first page of another allocated block is not among the pages that become free. *)
Lemma freed_apart s L A p o q oq :
  pmm_lists s L ((p, o) :: A) → (q, oq) ∈ A → q ∉ block_pages (p, o) ++ pages (blocks L).
Proof.
  intros Hl Hq. assert (HN : NoDup (pages (blocks L ++ (p, o) :: A))) by apply (pl_blocks _ _ _ Hl).
  rewrite pages_app, pages_cons, NoDup_app in HN. destruct HN as (_ & Hd & HN).
  rewrite NoDup_app in HN. destruct HN as (_ & Hd2 & _).
  assert (Hqin : q ∈ pages A) by by apply (pages_head (q, oq)).
  intros [Hq1|Hq1]%elem_of_app; [by eapply Hd2|]. eapply Hd; [done|]. apply elem_of_app. by right.
Qed.

Lemma pmm_free_block s L A p o c Q :
  pmm_inv s L ((p, o) :: A) → p ≠ 0 →
  (∀ s' L' p' o', pmm_inv s' L' A →
     pages (blocks L') ≡ₚ block_pages (p, o) ++ pages (blocks L) →
     p' ∈ L' o' → block_pages (p, o) ⊆ block_pages (p', o') → merge_stuck s' p' o' →
     pmm_static s' = pmm_static s → Q () s') →
  wp (pmm_free_pages (pfn_to_phys p) c) Q s.
Proof.
  intros [Hl Hc Ha] Hp0 HQ.
  pose proof (block_of_outside _ _ _ _ _ Hl) as (Ho & Hal & Hp & Hpt); simpl in *.
  pose proof (pl_total _ _ _ Hl) as Ht. pose proof (block_size_pos o) as Hbs.
  pose proof (block_size_max o Ho) as Hbm.
  unfold pmm_free_pages. rewrite pfn_to_phys_mul by lia.
  destruct (Z.eqb_spec (p * PAGE_SIZE) 0); [unfold PAGE_SIZE in *; lia|].
  rewrite <-pfn_to_phys_mul, phys_to_pfn_to_phys by lia.
  destruct (Ha p o) as (f & Hf & Hfo & _); [set_solver|].
  wp_run. eapply wp_read_frame; [done|]. rewrite Hfo.
  destruct (Nat.leb_spec 64 o); [unfold MAX_ORDER in *; lia|]. wp_run.
  eapply wp_write_frame; [done|].
  pose proof (pl_write_outside _ _ _ _ _ f (λ f, pf_set_flags (clear_flag 8 (pf_flags f) PAGE_USED) f)
                (pl_counters _ _ _ (kFreePages s +64 block_size o) Hl) Hf (is_free_clear_used f)) as Hl1.
  wp_run. eapply merge_loop_inv; [exact Hl1|lia|].
  intros p' o' s2 L2 Hl2 Hpages Hsub Hstuck Hag2 Hst2 Hfp2.
  eapply list_add_inv; [exact Hl2|]. intros s3 Hl3 Hag3 Hst3 Hfp3.
  pose proof (block_of_outside _ _ _ _ _ Hl2) as (Ho' & Hal' & Hp' & Hpt'); simpl in *.
  assert (Hfinal : pages (blocks (<[o':=p' :: L2 o']> L2)) ≡ₚ block_pages (p, o) ++ pages (blocks L)).
  { rewrite blocks_push by done. rewrite pages_cons, Permutation_app_comm, Hpages.
    apply Permutation_app_comm. }
  eapply (HQ s3 _ p' o'); [|exact Hfinal| |done| |].
  - split; [done|..].
    + rewrite Hfp3, Hfp2. simpl. rewrite Hc, Hfinal, length_app, Nat2Z.inj_add, length_block_pages. simpl.
      pose proof (blocks_ok_length _ _ (proj1 Ht) (blocks_ok_app_l _ _ _ (pl_blocks _ _ _ Hl))).
      rewrite wrap_small; lia.
    + intros q oq Hq. pose proof (freed_apart _ _ _ _ _ _ _ Hl Hq) as Hqn.
      assert (Hqp : q ≠ p).
      { intros ->. apply Hqn, elem_of_app. left. apply elem_of_block_pages. simpl. lia. }
      assert (Hqp' : q ≠ p').
      { intros ->. apply Hqn. rewrite <-Hfinal, blocks_push, pages_cons by done.
        apply elem_of_app. left. apply elem_of_block_pages. simpl. pose proof (block_size_pos o'). lia. }
      apply not_elem_of_app in Hqn as [_ Hqn]. eapply allocated_kept; [apply Ha; set_solver|].
      rewrite (Hag3 q), (Hag2 q Hqn) by set_solver. simpl. by rewrite lookup_insert_ne.
  - rewrite fn_lookup_insert. set_solver.
  - eapply merge_stuck_kept; [|by injection Hst3 as ->|exact Hag3|done].
    pose proof (block_size_pos o'). destruct (buddy_of_spec p' o' Hal') as [[_ ->]|[_ ->]]; lia.
  - rewrite Hst3, Hst2. done.
Qed.
