(* ===== verification/PmmInit.v ===== *)
(** * Initialisation of the page allocator

    [pmm_init] turns a boot memory map into a state that satisfies the
    allocator's invariant, whose free pages are exactly the usable pages that
    do not hold the metadata array. *)

From S2P Require Import Prelude LinkedList Pmm PmmBlocks PmmInv PmmAlloc.
Open Scope Z_scope.

(** ** Page alignment *)

Lemma page_align_down_spec x : 0 ≤ x < 2 ^ 64 → page_align_down x = x - x mod PAGE_SIZE.
Proof.
  intros Hx. unfold page_align_down, PAGE_MASK, PAGE_SIZE.
  assert (E : x - x mod 4096 = Z.shiftl (Z.shiftr x 12) 12).
  { rewrite Z.shiftl_mul_pow2, Z.shiftr_div_pow2 by lia. change (2 ^ 12) with 4096.
    pose proof (Z.div_mod x 4096). lia. }
  rewrite E. apply Z.bits_inj'. intros i Hi. rewrite Z.land_spec, Z.shiftl_spec by done.
  change (u64 (Z.lnot (4096 - 1))) with (Z.shiftl (Z.ones 52) 12). rewrite Z.shiftl_spec by done.
  destruct (decide (i < 12)).
  { rewrite !(Z.testbit_neg_r _ (i - 12)) by lia. apply andb_false_r. }
  rewrite Z.shiftr_spec, Z.testbit_ones_nonneg by lia. replace (i - 12 + 12) with i by lia.
  destruct (Z.ltb_spec (i - 12) 52); [apply andb_true_r|].
  rewrite andb_false_r. symmetry. rewrite <-(Z.mod_small x (2 ^ 64)) by done.
  apply Z.mod_pow2_bits_high. lia.
Qed.

Lemma page_align_up_spec x : 0 ≤ x → x + PAGE_MASK < 2 ^ 64 →
  page_align_up x = page_align_down (x + PAGE_MASK).
Proof. intros H1 H2. unfold page_align_up. rewrite wrap_small; [done|]. unfold PAGE_MASK, PAGE_SIZE in *. lia. Qed.

Lemma pfn_aligned x : 0 ≤ x < 2 ^ 64 → phys_to_pfn (page_align_down x) = x / PAGE_SIZE.
Proof.
  intros Hx. rewrite page_align_down_spec by done. unfold phys_to_pfn, PAGE_SHIFT, PAGE_SIZE.
  rewrite Z.shiftr_div_pow2 by done. change (2 ^ 12) with 4096.
  pose proof (Z.div_mod x 4096 ltac:(lia)). pose proof (Z.mod_pos_bound x 4096).
  symmetry. apply (Z.div_unique _ _ _ 0); lia.
Qed.

(** ** Boot memory maps

    What the Limine protocol documents of the entries: no wrap-around, usable
    entries page-aligned and overlapping no other usable entry. *)

Definition pfn_of (addr : Z) : Z := addr / PAGE_SIZE.

Definition in_entry (e : MemmapEntry) (x : Z) : Prop :=
  pfn_of (me_base e) ≤ x < pfn_of (me_base e + me_length e).

Definition entry_ok (e : MemmapEntry) : Prop :=
  0 ≤ me_base e ∧ 0 ≤ me_length e ∧ me_base e + me_length e < 2 ^ 64 ∧
  (entry_usable e = true →
     (PAGE_SIZE | me_base e) ∧ (PAGE_SIZE | me_length e) ∧ me_base e + PAGE_MASK < 2 ^ 64).

Definition usable_disjoint (e1 e2 : MemmapEntry) : Prop :=
  entry_usable e1 = true → entry_usable e2 = true → ∀ x, in_entry e1 x → ¬ in_entry e2 x.

Definition memmap_ok (entries : list MemmapEntry) : Prop :=
  Forall entry_ok entries ∧ ForallOrdPairs usable_disjoint entries.

Lemma entry_end_ok e : entry_ok e → entry_end e = me_base e + me_length e.
Proof. intros (? & ? & ? & _). apply wrap_small. lia. Qed.

Lemma entry_range e : entry_ok e → entry_usable e = true →
  phys_to_pfn (page_align_up (me_base e)) = pfn_of (me_base e) ∧
  phys_to_pfn (page_align_down (entry_end e)) = pfn_of (me_base e + me_length e).
Proof.
  intros He Hu. pose proof He as (H0 & H1 & H2 & Ha). destruct (Ha Hu) as ([k Hk] & _ & Hw).
  rewrite entry_end_ok by done. unfold PAGE_MASK in *.
  rewrite page_align_up_spec, !pfn_aligned by (unfold PAGE_MASK, PAGE_SIZE in *; lia).
  split; [|done]. unfold pfn_of. rewrite Hk. unfold PAGE_MASK, PAGE_SIZE in *.
  rewrite Z_div_mult by lia. symmetry. apply (Z.div_unique _ _ _ 4095); lia.
Qed.

Lemma highest_addr_ge entries : ∀ h, h ≤ foldl (λ hi e, if hi <? entry_end e then entry_end e else hi) h entries.
Proof.
  induction entries as [|e entries IH]; intros h; simpl; [done|].
  etrans; [|apply IH]. case_if; lia.
Qed.

Lemma highest_addr_max entries e : e ∈ entries → entry_end e ≤ highest_addr entries.
Proof.
  unfold highest_addr. generalize 0. induction entries as [|e' entries IH]; intros h He; [set_solver|].
  apply elem_of_cons in He as [<-|He]; simpl; [|by apply IH].
  etrans; [|apply highest_addr_ge]. case_if; lia.
Qed.

Lemma highest_addr_range entries : Forall entry_ok entries → 0 ≤ highest_addr entries < 2 ^ 64.
Proof.
  intros HF. unfold highest_addr. assert (∀ h, 0 ≤ h < 2 ^ 64 →
    0 ≤ foldl (λ hi e, if hi <? entry_end e then entry_end e else hi) h entries < 2 ^ 64) as H; [|apply H; lia].
  induction HF as [|e entries He HF IH]; intros h Hh; simpl; [done|]. apply IH.
  case_if; [|done]. apply wrap_range. lia.
Qed.

(** ** Choosing the order of a block *)

Lemma fit_order_spec fuel o pfn e m :
  (block_size o | pfn) → pfn + block_size o ≤ e → (pfn < m → pfn + block_size o ≤ m) →
  let r := fit_order fuel o pfn e m in
  (o ≤ r ≤ fuel + o)%nat ∧ (block_size r | pfn) ∧ pfn + block_size r ≤ e ∧
  (pfn < m → pfn + block_size r ≤ m).
Proof.
  revert o; induction fuel as [|fuel IH]; intros o Hd He Hm; cbv zeta; cbn [fit_order].
  { split; [lia|done]. }
  case_if; [|split; [lia|done]].
  destruct ((pfn <? m) && (m <? pfn + block_size (S o))) eqn:E2; [split; [lia|done]|].
  assert (block_size (S o) | pfn) by (apply Z.mod_divide; [pose proof (block_size_pos (S o)); lia|done]).
  destruct (IH (S o)) as (? & ? & ? & ?); [done|done| |by split_and!; try lia].
  intros Hlt. rewrite (proj2 (Z.ltb_lt _ _) Hlt) in E2. simpl in E2. by bool_props.
Qed.

(** ** Releasing the usable regions *)

Lemma pmm_lists_extend s L A b :
  pmm_lists s L A → block_ok (kTotalPages s) b →
  (∀ x, x ∈ block_pages b → x ∉ pages (blocks L ++ A)) → pmm_lists s L (b :: A).
Proof.
  intros [] Hb Hd. split; try done. rewrite <-Permutation_middle. destruct pl_blocks as [HF HN].
  split; [by constructor|]. rewrite pages_cons. apply NoDup_app. split_and!; [|done|done].
  apply NoDup_seqZ.
Qed.

Lemma release_block s L p o Q :
  pmm_inv s L [] → block_ok (kTotalPages s) (p, o) →
  (∀ x, p ≤ x < p + block_size o → x ∉ pages (blocks L)) →
  (∀ s', pmm_inv s' (<[o := p :: L o]> L) [] → pmm_static s' = pmm_static s → Q () s') →
  wp (write_frame p (pf_set_flags 0);;
      list_add o p;;
      modify (λ s, set_kFreePages (kFreePages s +64 block_size o) s)) Q s.
Proof.
  intros [Hl Hc _] Hb Hd HQ.
  assert (Hl1 : pmm_lists s L [(p, o)]).
  { apply pmm_lists_extend; [done|done|]. intros x Hx%elem_of_block_pages. rewrite app_nil_r. by apply Hd. }
  destruct (pl_block_frame _ _ _ (p, o) Hl1) as [f Hf]; [set_solver|]. simpl in Hf.
  wp_run. eapply wp_write_frame; [done|].
  assert (Hfl : is_free (pf_set_flags 0 f) = is_free f) by by rewrite (pl_outside_free _ _ _ _ _ _ Hl1 Hf).
  pose proof (pl_write_outside _ _ _ _ _ f (pf_set_flags 0) Hl1 Hf Hfl) as Hl2.
  wp_run. eapply list_add_inv; [exact Hl2|]. intros s' Hl' _ Hst Hfp. wp_run.
  apply HQ; [|exact Hst]. split; [by apply pl_counters| |intros ?? []%not_elem_of_nil].
  simpl. rewrite Hfp. simpl. rewrite Hc, blocks_push by apply Hb.
  rewrite pages_cons, length_app, Nat2Z.inj_add, length_block_pages. simpl.
  pose proof (blocks_ok_length _ _ (proj1 (pl_total _ _ _ Hl)) (blocks_ok_app_l _ _ _ (pl_blocks _ _ _ Hl))).
  pose proof (pl_total _ _ _ Hl). destruct Hb as (Ho & _ & _ & _). simpl in Ho.
  pose proof (block_size_max o Ho). pose proof (block_size_pos o). rewrite wrap_small; lia.
Qed.

(** Three statements run before a continuation. *)
Lemma wp_bind3 {S} (a b c k : M S ()) (Q : () → S → Prop) s :
  wp (a;; b;; c) (λ _, wp k Q) s → wp (a;; b;; c;; k) Q s.
Proof.
  unfold wp, mbind, M_bind. destruct (a s) as [[? s1]| |]; [|done..].
  destruct (b s1) as [[? s2]| |]; [|done..]. by destruct (c s2) as [[? s3]| |].
Qed.

Lemma free_region_inv fuel pfn e ms me s L (P : Z → Prop) Q :
  pmm_inv s L [] → (Z.to_nat (e - pfn) ≤ fuel)%nat → 0 ≤ pfn → e ≤ kTotalPages s →
  (∀ x, x ∈ pages (blocks L) ↔ P x) → (∀ x, pfn ≤ x < e → ¬ P x) →
  (∀ s' L', pmm_inv s' L' [] → pmm_static s' = pmm_static s →
     (∀ x, x ∈ pages (blocks L') ↔ P x ∨ (pfn ≤ x < e ∧ ¬ (ms ≤ x < me))) → Q () s') →
  wp (free_region fuel pfn e ms me) Q s.
Proof.
  revert pfn s L P Q; induction fuel as [|fuel IH]; intros pfn s L P Q Hi Hfuel H0 He HP Hdis HQ;
    cbn [free_region]; (case_if; [apply wp_ret; apply (HQ s L); [done|done|]; intros x; rewrite HP; split; [by left|by intros [?|[? ?]]; [|lia]]|]);
    [lia|].
  case_if.
  - eapply IH; [exact Hi|lia|lia|done|exact HP| |].
    { intros x Hx. apply Hdis. lia. }
    intros s' L' Hi' Hst' HP'. apply (HQ s' L'); [done|done|]. intros x. rewrite HP'.
    split; intros [?|[? ?]]; auto; right; split; lia.
  - assert (Hgap : ¬ (ms ≤ pfn < me)).
    { intros [H1 H2]. apply Z.leb_le in H1. apply Z.ltb_lt in H2.
      match goal with H : _ && _ = false |- _ => rewrite H1, H2 in H end. done. }
    destruct (fit_order_spec MAX_ORDER 0 pfn e ms) as (Hr & Hd & Hre & Hrm);
      [apply Z.divide_1_l|change (block_size 0) with 1; lia..|].
    cbv zeta. set (o := fit_order MAX_ORDER 0 pfn e ms) in *. pose proof (block_size_pos o) as Hbs.
    assert (Hrun : ∀ Q', (∀ s', pmm_inv s' (<[o := pfn :: L o]> L) [] → pmm_static s' = pmm_static s → Q' () s') →
      wp (write_frame pfn (pf_set_flags 0);; list_add o pfn;;
          modify (λ s, set_kFreePages (kFreePages s +64 block_size o) s)) Q' s).
    { intros Q' HQ'. eapply release_block; [exact Hi| | |exact HQ'].
      - split_and!; simpl; [lia|done|lia|lia].
      - intros x Hx. rewrite HP. apply Hdis. lia. }
    apply (wp_bind3 _ _ _ _ _ s). apply Hrun. intros s1 Hi1 Hst1.
    assert (Ht1 : kTotalPages s1 = kTotalPages s) by (unfold pmm_static in Hst1; congruence).
    eapply (IH _ s1 _ (λ x, P x ∨ pfn ≤ x < pfn + block_size o)); [exact Hi1|lia|lia|lia|..].
    + intros x. rewrite blocks_push by lia. rewrite pages_cons, elem_of_app, elem_of_block_pages, HP. simpl. tauto.
    + intros x Hx [HPx|?]; [|lia]. eapply Hdis; [|exact HPx]. lia.
    + intros s' L' Hi' Hst' HP'. apply (HQ s' L'); [done|congruence|].
      intros x. rewrite HP'. split.
      * intros [[?|?]|[? ?]]; [by left|right|right]; split; lia.
      * intros [?|[? ?]]; [by left; left|].
        destruct (decide (x < pfn + block_size o)); [left; right; lia|right; split; lia].
Qed.

(** The page frames of the metadata array. *)
Definition meta_range (s : pmm) (metadata_size : Z) (x : Z) : Prop :=
  let start := phys_to_pfn (kFramesAddr s -64 kHhdmOffset s) in
  start ≤ x < start + (metadata_size + PAGE_SIZE - 1) / PAGE_SIZE.

(** What the regions [entries] contribute to the free lists. *)
Definition released (meta : Z → Prop) (entries : list MemmapEntry) (x : Z) : Prop :=
  ∃ e, e ∈ entries ∧ entry_usable e = true ∧ in_entry e x ∧ ¬ meta x.

Lemma meta_range_static s s' size x :
  pmm_static s' = pmm_static s → meta_range s' size x ↔ meta_range s size x.
Proof. unfold meta_range. by intros [= _ -> ->]. Qed.

Lemma released_cons meta e entries x :
  released meta (e :: entries) x ↔
  (entry_usable e = true ∧ in_entry e x ∧ ¬ meta x) ∨ released meta entries x.
Proof. unfold released. setoid_rewrite elem_of_cons. naive_solver. Qed.

Lemma free_usable_inv entries size s L (P : Z → Prop) Q :
  memmap_ok entries →
  (∀ e, e ∈ entries → pfn_of (me_base e + me_length e) ≤ kTotalPages s) →
  pmm_inv s L [] → (∀ x, x ∈ pages (blocks L) ↔ P x) →
  (∀ e x, e ∈ entries → entry_usable e = true → in_entry e x → ¬ P x) →
  (∀ s' L', pmm_inv s' L' [] → pmm_static s' = pmm_static s →
     (∀ x, x ∈ pages (blocks L') ↔ P x ∨ released (meta_range s size) entries x) → Q () s') →
  wp (free_usable entries size) Q s.
Proof.
  intros [HF HD]. revert s L P HF; induction HD as [|e entries Hd HD IH];
    intros s L P HF Ht Hi HP Hdis HQ; cbn [free_usable].
  { apply wp_ret, (HQ s L); [done|done|]. intros x. rewrite HP. split; [by left|].
    intros [?|(e & []%not_elem_of_nil & _)]; done. }
  apply Forall_cons in HF as [He HF]. apply wp_bind.
  assert (Hrest : ∀ s' L' P', pmm_inv s' L' [] → pmm_static s' = pmm_static s →
     (∀ x, x ∈ pages (blocks L') ↔ P' x) →
     (∀ x, P' x ↔ P x ∨ (entry_usable e = true ∧ in_entry e x ∧ ¬ meta_range s size x)) →
     wp (free_usable entries size) Q s').
  { intros s' L' P' Hi' Hst HL' HP'. eapply (IH s' L' P'); [done| |exact Hi'|exact HL'|..].
    - intros e' He'. injection Hst as -> _ _. apply Ht. set_solver.
    - intros e' x He' Hu' Hx [HPx|(Hu & Hx2 & _)]%HP'.
      + eapply Hdis; [|exact Hu'|exact Hx|exact HPx]. set_solver.
      + rewrite Forall_forall in Hd. by eapply (Hd e').
    - intros s2 L2 Hi2 Hst2 HL2. apply (HQ s2 L2); [done|congruence|]. intros x.
      rewrite HL2, HP', released_cons. unfold released.
      setoid_rewrite (meta_range_static s s' size); [tauto|done]. }
  destruct (entry_usable e) eqn:Hu.
  2:{ apply wp_ret, (Hrest s L P); [done|done|done|]. intros x. naive_solver. }
  wp_run. destruct (entry_range e He Hu) as [-> ->].
  assert (H0 : 0 ≤ pfn_of (me_base e)).
  { destruct He as (? & _). apply Z.div_pos; [done|]. unfold PAGE_SIZE. lia. }
  eapply (free_region_inv _ _ _ _ _ _ L P); [exact Hi|done|done|apply Ht; set_solver|exact HP| |].
  - intros x Hx. eapply (Hdis e); [set_solver|done|exact Hx].
  - intros s' L' Hi' Hst' HL'. eapply Hrest; [exact Hi'|done|exact HL'|].
    intros x. cbv beta. unfold in_entry, meta_range. cbv zeta. naive_solver.
Qed.

(** ** The initial state *)

Lemma init_frames_lookup raw total i :
  init_frames raw total !! i = if decide (0 ≤ i < total) then Some (init_frame raw i) else None.
Proof.
  unfold init_frames. case_decide as Hi.
  - apply elem_of_list_to_map_1.
    + rewrite <-list_fmap_compose. rewrite list_fmap_id. apply NoDup_seqZ.
    + apply list_elem_of_fmap. exists i. split; [done|]. apply elem_of_seqZ. lia.
  - apply not_elem_of_list_to_map_1. rewrite <-list_fmap_compose.
    rewrite list_fmap_id, elem_of_seqZ. lia.
Qed.

Lemma init_frames_inv raw total addr hhdm :
  0 ≤ total ≤ 2 ^ 52 →
  pmm_inv (mkPmm (init_frames raw total) addr total 0 hhdm (replicate (S MAX_ORDER) None)) (λ _, []) [].
Proof.
  intros Ht. split; [|done|intros ?? []%not_elem_of_nil]. split; simpl; try done.
  - intros p. rewrite init_frames_lookup. case_decide; split; try done; try by intros [? [=]].
  - intros o h Hh. apply list_elem_of_lookup_2 in Hh. exists None. simpl. split; [|done].
    by apply (elem_of_replicate (S MAX_ORDER) None h) in Hh as [-> _].
  - intros o p f _ []%not_elem_of_nil.
  - intros p f Hf Hfree. rewrite init_frames_lookup in Hf. case_decide; [|done].
    by simplify_eq.
  - split; [constructor|]. vm_compute. constructor.
Qed.

Lemma find_metadata_Some entries size e :
  find_metadata entries size = Some e → e ∈ entries ∧ entry_usable e = true ∧ size ≤ me_length e.
Proof.
  unfold find_metadata. intros ([i e'] & Hp & ->)%fmap_Some.
  apply list_find_Some in Hp as (Hi & [Hu Hs] & _). apply list_elem_of_lookup_2 in Hi.
  split_and!; [done|by apply Is_true_eq_true|done].
Qed.

(** Pages of usable memory that do not hold the metadata array, placed at the
    start of [e]. *)
Definition initially_free (entries : list MemmapEntry) (e : MemmapEntry) (x : Z) : Prop :=
  let size := phys_to_pfn (highest_addr entries) * sizeof_PageFrame in
  released (λ x, pfn_of (me_base e) ≤ x < pfn_of (me_base e) + (size + PAGE_SIZE - 1) / PAGE_SIZE)
    entries x.

Lemma pfn_of_phys x : phys_to_pfn x = pfn_of x.
Proof. unfold phys_to_pfn, pfn_of, PAGE_SHIFT, PAGE_SIZE. by rewrite Z.shiftr_div_pow2. Qed.

Lemma pmm_init_inv raw entries hhdm e Q :
  memmap_ok entries → 0 ≤ hhdm < 2 ^ 64 →
  find_metadata entries (phys_to_pfn (highest_addr entries) * sizeof_PageFrame) = Some e →
  (∀ s L, pmm_inv s L [] → kTotalPages s = phys_to_pfn (highest_addr entries) →
     kHhdmOffset s = hhdm →
     (∀ x, x ∈ pages (blocks L) ↔ initially_free entries e x) → Q () s) →
  wp (pmm_init raw entries hhdm) Q pmm_boot.
Proof.
  intros Hmm Hh Hfind HQ. pose proof (highest_addr_range entries (proj1 Hmm)) as Hhi.
  assert (Ht : 0 ≤ phys_to_pfn (highest_addr entries) < 2 ^ 52).
  { rewrite pfn_of_phys. unfold pfn_of, PAGE_SIZE. split; [apply Z.div_pos; lia|].
    apply Z.div_lt_upper_bound; lia. }
  unfold pmm_init. cbv zeta. rewrite wrap_small by (unfold sizeof_PageFrame; lia). rewrite Hfind.
  destruct (find_metadata_Some _ _ _ Hfind) as (He & Hu & Hsz).
  pose proof (proj1 (Forall_forall _ _) (proj1 Hmm) e He) as (Hb0 & Hl0 & Hbl & _).
  wp_run. simpl. set (s0 := mkPmm _ _ _ _ _ _).
  eapply (free_usable_inv _ _ s0 (λ _, []) (λ _, False)); [done| |by apply init_frames_inv; lia| |..].
  - intros e' He'. simpl. rewrite pfn_of_phys. apply Z.div_le_mono; [done|].
    rewrite <-entry_end_ok; [by apply highest_addr_max|].
    by apply (proj1 (Forall_forall _ _) (proj1 Hmm)).
  - intros x. simpl. split; [|done]. intros []%not_elem_of_nil.
  - intros ??. tauto.
  - intros s' L' Hi' Hst Hp. injection Hst as Hst1 _ Hst3. eapply HQ; [exact Hi'|done|done|].
    intros x. rewrite Hp. unfold initially_free, meta_range, s0. simpl. rewrite wrap_sub_add.
    rewrite wrap_small by lia. rewrite !pfn_of_phys. split; [by intros [[]|?]|by right].
Qed.
