(* ===== verification/PageAlloc.v ===== *)
(** * What a page allocator promises to the rest of the kernel

    The class [PageAllocator] is the contract the other components rely on:
    its abstract state is the set of free page frames and the list of blocks
    handed out.  A client that allocates and frees in any order is a step
    relation; its safety is proved against the contract alone, so it holds of
    every implementation that discharges the laws. *)

From stdpp Require Import relations.
From S2P Require Import Prelude Pmm PmmBlocks.
Open Scope Z_scope.

Definition page_set (bs : list block) : gset Z := list_to_set (pages bs).

Lemma elem_of_page_set x bs : x ∈ page_set bs ↔ x ∈ pages bs.
Proof. apply elem_of_list_to_set. Qed.

Lemma elem_of_page_set_1 x b : x ∈ page_set [b] ↔ x ∈ block_pages b.
Proof. rewrite elem_of_page_set. unfold pages; simpl. by rewrite app_nil_r. Qed.

Lemma page_set_perm bs bs' : bs ≡ₚ bs' → page_set bs = page_set bs'.
Proof. intros E. apply set_eq. intros x. rewrite !elem_of_page_set. by rewrite E. Qed.

Lemma page_set_cons b bs : page_set (b :: bs) = page_set [b] ∪ page_set bs.
Proof.
  apply set_eq. intros x. rewrite elem_of_union, !elem_of_page_set, !pages_cons, !elem_of_app.
  split; [tauto|]. intros [[?|[]%not_elem_of_nil]|?]; auto.
Qed.

(** The block an allocation of [count] pages receives: the smallest order that
    holds them. *)
Definition fits (count : Z) (o : nat) : Prop :=
  count ≤ block_size o ∧ ∀ k, (k < o)%nat → block_size k < count.

(** The states an allocation may leave, with its result. *)
Definition alloc_post {S} (inv : S → gset Z → list block → Prop)
    (s : S) (F : gset Z) (A : list block) (count : Z) (r : Z) (s' : S) : Prop :=
  (r = 0 ∧ s' = s) ∨
  ∃ p o, r = p * PAGE_SIZE ∧ fits count o ∧ page_set [(p, o)] ⊆ F ∧
         inv s' (F ∖ page_set [(p, o)]) ((p, o) :: A).

Class PageAllocator (S : Type) := {
  pa_alloc : Z → M S Z;
  pa_free : Z → Z → M S ();
  pa_hhdm : S → Z;
  pa_inv : S → gset Z → list block → Prop;
  pa_perm s F A A' : A ≡ₚ A' → pa_inv s F A → pa_inv s F A';
  pa_wf s F A : pa_inv s F A →
    NoDup (pages A) ∧ page_set A ## F ∧ ∀ b, b ∈ A → 0 ≤ b.1 ∧ (block_size b.2 | b.1);
  pa_alloc_spec s F A count : pa_inv s F A → 0 ≤ count ≤ 2 ^ 63 →
    wp (pa_alloc count) (λ r s', alloc_post pa_inv s F A count r s' ∧ pa_hhdm s' = pa_hhdm s) s;
  pa_free_spec s F A p o c : pa_inv s F ((p, o) :: A) → p ≠ 0 →
    wp (pa_free (p * PAGE_SIZE) c) (λ _ s', pa_inv s' (F ∪ page_set [(p, o)]) A ∧ pa_hhdm s' = pa_hhdm s) s
}.

(** ** Clients

    A client holds allocations [(address, count)]; it allocates, treating a
    null address as failure, and frees what it holds.  [Stuck] is reached when
    a call panics or is undefined. *)

Section client.
Context {S : Type} `{!PageAllocator S}.

Inductive config :=
  | Running (s : S) (held : list (Z * Z))
  | Stuck.

Definition hold (r count : Z) (held : list (Z * Z)) : list (Z * Z) :=
  if r =? 0 then held else (r, count) :: held.

Inductive client_step : config → config → Prop :=
  | step_alloc s s' held count r :
      0 ≤ count ≤ 2 ^ 63 → pa_alloc count s = Ok (r, s') →
      client_step (Running s held) (Running s' (hold r count held))
  | step_alloc_stuck s held count :
      0 ≤ count ≤ 2 ^ 63 → (∀ r s', pa_alloc count s ≠ Ok (r, s')) →
      client_step (Running s held) Stuck
  | step_free s s' held held' addr count :
      held ≡ₚ (addr, count) :: held' → pa_free addr count s = Ok ((), s') →
      client_step (Running s held) (Running s' held')
  | step_free_stuck s held held' addr count :
      held ≡ₚ (addr, count) :: held' → (∀ s', pa_free addr count s ≠ Ok ((), s')) →
      client_step (Running s held) Stuck.

(** The block behind each held allocation. *)
Definition backs (a : Z * Z) (b : block) : Prop :=
  a.1 = b.1 * PAGE_SIZE ∧ b.1 ≠ 0 ∧ fits a.2 b.2.

Definition client_inv (U : gset Z) (c : config) : Prop :=
  match c with
  | Stuck => False
  | Running s held => ∃ F A bs leaked,
      pa_inv s F A ∧ Forall2 backs held bs ∧ A ≡ₚ bs ++ leaked ∧ F ∪ page_set A = U
  end.

Lemma client_inv_alloc U s s' held count r :
  0 ≤ count ≤ 2 ^ 63 → client_inv U (Running s held) → pa_alloc count s = Ok (r, s') →
  client_inv U (Running s' (hold r count held)).
Proof.
  intros Hc (F & A & bs & leaked & Hi & Hb & HA & HU) Hrun.
  pose proof (pa_alloc_spec s F A count Hi Hc) as Hw. unfold wp in Hw. rewrite Hrun in Hw.
  destruct Hw as [[[-> ->]|(p & o & -> & Hfit & Hsub & Hi')] _]; [by exists F, A, bs, leaked|].
  assert (HU' : (F ∖ page_set [(p, o)]) ∪ page_set ((p, o) :: A) = U).
  { rewrite (page_set_cons (p, o) A), <-HU. revert Hsub. generalize (page_set [(p, o)]) as X.
    intros X Hsub. rewrite (assoc_L (∪)), difference_union_L. set_solver. }
  unfold hold. destruct (Z.eqb_spec (p * PAGE_SIZE) 0) as [E|E].
  - exists (F ∖ page_set [(p, o)]), ((p, o) :: A), bs, ((p, o) :: leaked).
    split_and!; [done|done|by rewrite HA, Permutation_middle|done].
  - exists (F ∖ page_set [(p, o)]), ((p, o) :: A), ((p, o) :: bs), leaked.
    split_and!; [done| |by rewrite HA|done]. constructor; [|done].
    split_and!; simpl; [done|intros ->; by apply E|done].
Qed.

Lemma client_inv_free U s held held' addr count :
  client_inv U (Running s held) → held ≡ₚ (addr, count) :: held' →
  wp (pa_free addr count) (λ _ s', client_inv U (Running s' held')) s.
Proof.
  intros (F & A & bs & leaked & Hi & Hb & HA & HU) Hperm.
  destruct (Permutation_Forall2 Hperm Hb) as (bs' & Hp & HB).
  apply Forall2_cons_inv_l in HB as ([p o] & bs2 & (E & Hp0 & Hfit) & HB & ->). simpl in *. subst addr.
  assert (HA2 : A ≡ₚ (p, o) :: (bs2 ++ leaked)) by by rewrite HA, Hp.
  eapply wp_mono; [eapply (pa_free_spec _ F (bs2 ++ leaked) p o); [by eapply pa_perm|done]|].
  intros [] s' [Hi' _]. exists (F ∪ page_set [(p, o)]), (bs2 ++ leaked), bs2, leaked.
  split_and!; [done|done|done|]. rewrite <-HU, (page_set_perm _ _ HA2), (page_set_cons (p, o) (_ ++ _)).
  by rewrite (assoc_L (∪)).
Qed.

Lemma client_inv_step U c c' : client_inv U c → client_step c c' → client_inv U c'.
Proof.
  intros Hc Hstep. destruct Hstep as [? ? ? ? ? Hn Hr|s held count Hn Hr|? ? ? ? ? ? Hp Hr|? ? ? ? ? Hp Hr].
  - by eapply client_inv_alloc.
  - destruct Hc as (F & A & bs & leaked & Hi & _).
    pose proof (pa_alloc_spec s F A count Hi Hn) as (r & s' & E & _)%wp_ok. by eapply Hr.
  - pose proof (client_inv_free _ _ _ _ _ _ Hc Hp) as Hw. unfold wp in Hw. by rewrite Hr in Hw.
  - pose proof (client_inv_free _ _ _ _ _ _ Hc Hp) as ([] & s' & E & _)%wp_ok. by eapply Hr.
Qed.

Lemma client_inv_reachable U c c' : client_inv U c → rtc client_step c c' → client_inv U c'.
Proof. intros Hc. induction 1; eauto using client_inv_step. Qed.

(** The page frames of an allocation. *)
Definition held_pages (a : Z * Z) : list Z := seqZ (a.1 / PAGE_SIZE) a.2.

Lemma backs_pages a b : backs a b → held_pages a ⊆ block_pages b.
Proof.
  intros (E & _ & Hf & _) x. unfold held_pages. rewrite E, Z_div_mult by done.
  rewrite elem_of_seqZ, elem_of_block_pages. lia.
Qed.

Lemma backs_disjoint held bs : Forall2 backs held bs → NoDup (pages bs) →
  NoDup (held ≫= held_pages) ∧ ∀ x, x ∈ held ≫= held_pages → x ∈ pages bs.
Proof.
  induction 1 as [|a b held bs Hab H IH]; [done|]. rewrite pages_cons, NoDup_app.
  intros (_ & Hd & Hn). destruct (IH Hn) as [IH1 IH2]. pose proof (backs_pages _ _ Hab) as Hsub.
  split.
  - rewrite bind_cons. apply NoDup_app. split_and!; [apply NoDup_seqZ| |done].
    intros x Hx Hx2. eapply Hd; [by apply Hsub|]. by apply IH2.
  - intros x. rewrite bind_cons, !elem_of_app. intros [Hx|Hx]; [left; by apply Hsub|right; by apply IH2].
Qed.

Lemma client_inv_safe U c : client_inv U c →
  ∃ s held, c = Running s held ∧ NoDup (held ≫= held_pages) ∧ ∀ x, x ∈ held ≫= held_pages → x ∈ U.
Proof.
  destruct c as [s held|]; [|done]. intros (F & A & bs & leaked & Hi & Hb & HA & HU).
  exists s, held. destruct (pa_wf _ _ _ Hi) as (HN & _). rewrite HA, pages_app, NoDup_app in HN.
  destruct (backs_disjoint held bs Hb) as [H1 H2]; [by destruct HN|].
  split_and!; [done|done|]. intros x Hx%H2. rewrite <-HU, elem_of_union, elem_of_page_set, HA, pages_app, elem_of_app.
  auto.
Qed.
End client.
