(* ===== verification/PmmTheorems.v ===== *)
(** * The page allocator: its contract and its properties

    The buddy allocator discharges the laws of [PageAllocator]; the theorems
    state the behaviour of each entry point on every branch, the round trip,
    and the safety of every client run from boot. *)

From stdpp Require Import relations.
From S2P Require Import Prelude LinkedList Pmm PmmBlocks PmmInv PmmAlloc PmmInit PageAlloc.
Open Scope Z_scope.

(** ** The contracts of the entry points *)

(** Every branch of [pmm_alloc_pages]: refused, nothing large enough, or the
    first block of the first non-empty list, split down to the order asked. *)
Definition alloc_branches (L : nat → list Z) (A : list block) (s : pmm) (count r : Z) (s' : pmm) : Prop :=
  (count = 0 ∨ block_size MAX_ORDER < count) ∧ r = 0 ∧ s' = s
  ∨ ∃ t, 0 < count ∧ (t ≤ MAX_ORDER)%nat ∧ fits count t ∧
    ((∀ k, (t ≤ k ≤ MAX_ORDER)%nat → L k = []) ∧ r = 0 ∧ s' = s
     ∨ ∃ o p l, alloc_outcome t t L o p l ∧ r = p * PAGE_SIZE ∧
         pmm_inv s' (split_lists (o - t) t p (<[o := l]> L)) ((p, t) :: A) ∧
         kFreePages s' = kFreePages s - block_size t ∧ pmm_static s' = pmm_static s).

Lemma alloc_outcome_pages s L A t o p l :
  pmm_inv s L A → alloc_outcome t t L o p l →
  pages (blocks (split_lists (o - t) t p (<[o := l]> L))) ++ block_pages (p, t) ≡ₚ pages (blocks L) ∧
  0 ≤ p < 2 ^ 52.
Proof.
  intros [Hl _ _] (Ho & HLo & _).
  assert (Hb : block_ok (kTotalPages s) (p, o)).
  { destruct (pl_blocks _ _ _ Hl) as [HF _]. rewrite Forall_forall in HF. apply HF, elem_of_app.
    left. apply elem_of_blocks. rewrite HLo. split; [lia|]. apply elem_of_cons. by left. }
  destruct Hb as (_ & Hal & Hp0 & Hpt); simpl in *.
  pose proof (split_lists_pages (o - t) t p (<[o := l]> L)) as Hpg.
  replace (t + (o - t))%nat with o in Hpg by lia. rewrite Hpg by (done || lia).
  split.
  - rewrite (blocks_remove L o [] p l) by (done || lia). rewrite pages_cons. apply Permutation_app_comm.
  - pose proof (pl_total _ _ _ Hl). pose proof (block_size_pos o). lia.
Qed.

Lemma free_count s L A p t L' s' :
  pmm_inv s L A → pmm_inv s' L' ((p, t) :: A) →
  pages (blocks L') ++ block_pages (p, t) ≡ₚ pages (blocks L) →
  kFreePages s' = kFreePages s - block_size t.
Proof.
  intros Hi Hi' Hpg. rewrite (pi_count _ _ _ Hi), (pi_count _ _ _ Hi'), <-Hpg.
  rewrite length_app, Nat2Z.inj_add, length_block_pages. simpl. lia.
Qed.

Lemma pmm_alloc_wp s L A count :
  pmm_inv s L A → 0 ≤ count ≤ 2 ^ 63 →
  wp (pmm_alloc_pages count) (alloc_branches L A s count) s.
Proof.
  intros Hi Hc. unfold pmm_alloc_pages. case_if.
  { apply wp_ret. left. auto. }
  destruct (target_order_spec count) as (t & Et & Ht & Hmin); [lia|]. rewrite Et. wp_run.
  destruct (Nat.ltb_spec MAX_ORDER t) as [Hlt|Hle].
  { apply wp_ret. left. split; [right; by apply Hmin|done]. }
  eapply alloc_from_inv; [exact Hi|lia|done|..].
  - intros He. right. exists t. split_and!; [lia|done|done|]. left. split; [|done].
    intros k Hk. apply He. lia.
  - intros s' o p l Hout Hi' Hst. right. exists t. split_and!; [lia|done|done|]. right. exists o, p, l.
    destruct (alloc_outcome_pages _ _ _ _ _ _ _ Hi Hout) as [Hpg Hp].
    split_and!; [done|by apply pfn_to_phys_mul|done| |done]. by eapply free_count.
Qed.

Lemma fits_unique count o o' : fits count o → fits count o' → o = o'.
Proof.
  intros [H1 H2] [H3 H4]. destruct (lt_eq_lt_dec o o') as [[Hlt|]|Hlt]; [|done|].
  - specialize (H4 o Hlt). lia.
  - specialize (H2 o' Hlt). lia.
Qed.

Lemma alloc_success_inv s L A count p t s' :
  pmm_inv s L A → 0 ≤ count ≤ 2 ^ 63 → p ≠ 0 → fits count t →
  pmm_alloc_pages count s = Ok (p * PAGE_SIZE, s') → ∃ L', pmm_inv s' L' ((p, t) :: A).
Proof.
  intros Hi Hc Hp Hfit Hr. pose proof (pmm_alloc_wp _ _ _ _ Hi Hc) as Hw. unfold wp in Hw.
  rewrite Hr in Hw. unfold PAGE_SIZE in *.
  destruct Hw as [(_ & ? & _)|(t' & _ & _ & Hfit' & [(_ & ? & _)|(o & p' & l & _ & E & Hi' & _)])]; [lia..|].
  rewrite (fits_unique _ _ _ Hfit Hfit'). assert (p = p') as -> by (unfold PAGE_SIZE in E; lia). eauto.
Qed.

(** ** The instance *)

Definition pmm_view (s : pmm) (F : gset Z) (A : list block) : Prop :=
  ∃ L, pmm_inv s L A ∧ F = page_set (blocks L).

Lemma pmm_view_perm s F A A' : A ≡ₚ A' → pmm_view s F A → pmm_view s F A'.
Proof.
  intros E (L & [Hl Hc Ha] & ->). exists L. split; [|done]. split; [by rewrite <-E|done|].
  intros p o Hin. apply Ha. by rewrite E.
Qed.

Lemma pmm_view_wf s F A : pmm_view s F A →
  NoDup (pages A) ∧ page_set A ## F ∧ ∀ b, b ∈ A → 0 ≤ b.1 ∧ (block_size b.2 | b.1).
Proof.
  intros (L & [Hl _ _] & ->). destruct (pl_blocks _ _ _ Hl) as [HF HN].
  rewrite pages_app, NoDup_app in HN. destruct HN as (_ & Hd & HN). split_and!; [done|..].
  - intros x. rewrite !elem_of_page_set. intros HA HL. by eapply Hd.
  - intros b Hb. rewrite Forall_forall in HF. destruct (HF b) as (_ & ? & ? & _); [|done].
    apply elem_of_app. by right.
Qed.

Lemma pmm_view_alloc s F A count : pmm_view s F A → 0 ≤ count ≤ 2 ^ 63 →
  wp (pmm_alloc_pages count)
    (λ r s', alloc_post pmm_view s F A count r s' ∧ kHhdmOffset s' = kHhdmOffset s) s.
Proof.
  intros (L & Hi & ->) Hc. eapply wp_mono; [by eapply pmm_alloc_wp|].
  intros r s' [(_ & -> & ->)|(t & _ & _ & Hfit & [(_ & -> & ->)|(o & p & l & Hout & -> & Hi' & _ & Hst)])];
    [split; [by left|done]..|]. split; [|by injection Hst]. right.
  destruct (alloc_outcome_pages _ _ _ _ _ _ _ Hi Hout) as [Hpg _].
  set (L' := split_lists _ _ _ _) in *. pose proof (pl_blocks _ _ _ (pi_lists _ _ _ Hi')) as [_ HN].
  rewrite pages_app, pages_cons, NoDup_app in HN. destruct HN as (_ & Hd & _).
  exists p, t. split_and!; [done|done|..].
  - intros x. rewrite elem_of_page_set_1, elem_of_page_set, <-Hpg, elem_of_app. tauto.
  - exists L'. split; [done|]. apply set_eq. intros x.
    rewrite elem_of_difference, elem_of_page_set_1, !elem_of_page_set, <-Hpg, elem_of_app.
    specialize (Hd x). rewrite elem_of_app in Hd. tauto.
Qed.

Lemma pmm_view_free s F A p o c : pmm_view s F ((p, o) :: A) → p ≠ 0 →
  wp (pmm_free_pages (p * PAGE_SIZE) c) (λ _ s', pmm_view s' (F ∪ page_set [(p, o)]) A ∧ kHhdmOffset s' = kHhdmOffset s) s.
Proof.
  intros (L & Hi & ->) Hp.
  pose proof (block_of_outside _ _ _ _ _ (pi_lists _ _ _ Hi)) as (_ & _ & H0 & H1); simpl in *.
  pose proof (pl_total _ _ _ (pi_lists _ _ _ Hi)). pose proof (block_size_pos o).
  rewrite <-pfn_to_phys_mul by lia. eapply pmm_free_block; [exact Hi|done|].
  intros s' L' p' o' Hi' Hpg _ _ _ Hst. split; [|by injection Hst]. exists L'. split; [done|]. apply set_eq. intros x.
  rewrite elem_of_union, elem_of_page_set_1, !elem_of_page_set, Hpg, elem_of_app. tauto.
Qed.

#[export] Instance pmm_allocator : PageAllocator pmm := {|
  pa_alloc := pmm_alloc_pages;
  pa_free := pmm_free_pages;
  pa_hhdm := kHhdmOffset;
  pa_inv := pmm_view;
  pa_perm := pmm_view_perm;
  pa_wf := pmm_view_wf;
  pa_alloc_spec := pmm_view_alloc;
  pa_free_spec := pmm_view_free
|}.

(** ** A machine to run the witnesses on

    One usable region of eight pages at 0x1000; page 1 holds the metadata. *)

Definition small_memmap : list MemmapEntry := [mkMemmapEntry 0x1000 0x8000 MEMMAP_USABLE].

Lemma small_memmap_ok : memmap_ok small_memmap.
Proof.
  split.
  - constructor; [|constructor]. split_and!; simpl; try lia. intros _. split_and!; try (vm_compute; done).
    + by exists 1. + by exists 8.
  - repeat constructor.
Qed.

Definition small_pmm : pmm :=
  match pmm_init (λ _, 0) small_memmap 0xffff800000000000 pmm_boot with
  | Ok (_, s) => s
  | _ => pmm_boot
  end.

Lemma small_pmm_inv : ∃ L, pmm_inv small_pmm L [].
Proof.
  assert (Hw : wp (pmm_init (λ _, 0) small_memmap 0xffff800000000000) (λ _ s, ∃ L, pmm_inv s L []) pmm_boot).
  { eapply pmm_init_inv; [apply small_memmap_ok|lia|vm_compute; reflexivity|]. eauto. }
  unfold wp in Hw. unfold small_pmm. by destruct (pmm_init _ _ _ _) as [[? ?]| |].
Qed.

(** ** Properties *)

(** C1: [pmm_alloc_pages] never faults for a representable request and does
    one of four things: it refuses a count of 0 or above 1024 pages; it
    returns 0 with the state unchanged when no list from the smallest
    sufficient order upwards has a block; otherwise it takes the first block of
    the first non-empty such list, splits the upper halves off into the lower
    lists, and returns the address of the lower end, with the invariant
    preserved, the block recorded as allocated and the free count lowered by
    exactly the block's size. *)
Theorem pmm_alloc_pages_correct s L A count :
  pmm_inv s L A → 0 ≤ count ≤ 2 ^ 63 →
  ∃ r s', pmm_alloc_pages count s = Ok (r, s') ∧ alloc_branches L A s count r s'.
Proof. intros Hi Hc. apply wp_ok. by apply pmm_alloc_wp. Qed.

Lemma pmm_alloc_pages_correct_witness :
  ∃ L r s', pmm_alloc_pages 3 small_pmm = Ok (r, s') ∧ alloc_branches L [] small_pmm 3 r s'.
Proof.
  destruct small_pmm_inv as [L Hi].
  destruct (pmm_alloc_pages_correct small_pmm L [] 3 Hi) as (r & s' & Hr & Hb); [lia|].
  exists L, r, s'. exact (conj Hr Hb).
Defined.

(** C5: freeing an allocated block (at a non-null address) returns normally;
    its pages and no others join the free pages, the free count grows by the
    block's size, the invariant holds with the block no longer allocated, and
    the block ends up inside a listed block that could not be merged further:
    it has the maximal order, its buddy lies outside memory, or its buddy is
    not a mergeable free block of the same order. *)
Theorem pmm_free_pages_correct s L A p o c :
  pmm_inv s L ((p, o) :: A) → p ≠ 0 →
  ∃ s' L' p' o', pmm_free_pages (p * PAGE_SIZE) c s = Ok ((), s') ∧ pmm_inv s' L' A ∧
    pages (blocks L') ≡ₚ block_pages (p, o) ++ pages (blocks L) ∧
    kFreePages s' = kFreePages s + block_size o ∧
    p' ∈ L' o' ∧ block_pages (p, o) ⊆ block_pages (p', o') ∧ merge_stuck s' p' o'.
Proof.
  intros Hi Hp. pose proof (block_of_outside _ _ _ _ _ (pi_lists _ _ _ Hi)) as (_ & _ & H0 & H1); simpl in *.
  pose proof (pl_total _ _ _ (pi_lists _ _ _ Hi)). pose proof (block_size_pos o).
  assert (Hw : wp (pmm_free_pages (pfn_to_phys p) c) (λ _ s', ∃ L' p' o', pmm_inv s' L' A ∧
    pages (blocks L') ≡ₚ block_pages (p, o) ++ pages (blocks L) ∧
    kFreePages s' = kFreePages s + block_size o ∧
    p' ∈ L' o' ∧ block_pages (p, o) ⊆ block_pages (p', o') ∧ merge_stuck s' p' o') s).
  { eapply pmm_free_block; [exact Hi|done|]. intros s' L' p' o' Hi' Hpg Hin Hsub Hstuck _.
    exists L', p', o'. split_and!; try done. rewrite (pi_count _ _ _ Hi'), (pi_count _ _ _ Hi), Hpg.
    rewrite length_app, Nat2Z.inj_add, length_block_pages. simpl. lia. }
  rewrite pfn_to_phys_mul in Hw by lia. apply wp_ok in Hw as ([] & s' & E & L' & p' & o' & HQ).
  by exists s', L', p', o'.
Qed.

(** The small machine after an allocation of three pages: block 4 of order 2. *)
Definition small_pmm_3 : pmm :=
  match pmm_alloc_pages 3 small_pmm with Ok (_, s) => s | _ => small_pmm end.

Lemma small_alloc_3 : pmm_alloc_pages 3 small_pmm = Ok (4 * PAGE_SIZE, small_pmm_3).
Proof. vm_compute. reflexivity. Qed.

Lemma small_pmm_3_inv : ∃ L, pmm_inv small_pmm_3 L [(4, 2%nat)].
Proof.
  destruct small_pmm_inv as [L Hi].
  apply (alloc_success_inv small_pmm L [] 3 4 2 small_pmm_3 Hi); [lia|lia| |exact small_alloc_3].
  split; [vm_compute; done|]. intros [|[|k]] Hk; [vm_compute; done..|lia].
Qed.

Lemma pmm_free_pages_correct_witness :
  ∃ L s' L' p' o', pmm_free_pages (4 * PAGE_SIZE) 3 small_pmm_3 = Ok ((), s') ∧ pmm_inv s' L' [] ∧
    pages (blocks L') ≡ₚ block_pages (4, 2%nat) ++ pages (blocks L) ∧
    kFreePages s' = kFreePages small_pmm_3 + 4 ∧
    p' ∈ L' o' ∧ block_pages (4, 2%nat) ⊆ block_pages (p', o') ∧ merge_stuck s' p' o'.
Proof.
  destruct small_pmm_3_inv as [L Hi]. exists L.
  apply (pmm_free_pages_correct small_pmm_3 L [] 4 2 3 Hi). lia.
Defined.

(** From the statics as they are at boot, [pmm_init] on a well-formed
    memory map with room for the metadata array returns, establishes the
    allocator's invariant with nothing allocated, and leaves in the free lists
    exactly the usable pages that do not hold the metadata array, which
    [kFreePages] counts. *)
Theorem pmm_init_correct raw entries hhdm e :
  memmap_ok entries → 0 ≤ hhdm < 2 ^ 64 →
  find_metadata entries (phys_to_pfn (highest_addr entries) * sizeof_PageFrame) = Some e →
  ∃ s L, pmm_init raw entries hhdm pmm_boot = Ok ((), s) ∧ pmm_inv s L [] ∧
    kTotalPages s = phys_to_pfn (highest_addr entries) ∧
    (∀ x, x ∈ pages (blocks L) ↔ initially_free entries e x) ∧
    kFreePages s = Z.of_nat (length (pages (blocks L))).
Proof.
  intros Hm Hh He. assert (Hw : wp (pmm_init raw entries hhdm) (λ _ s, ∃ L, pmm_inv s L [] ∧
    kTotalPages s = phys_to_pfn (highest_addr entries) ∧
    (∀ x, x ∈ pages (blocks L) ↔ initially_free entries e x) ∧
    kFreePages s = Z.of_nat (length (pages (blocks L)))) pmm_boot).
  { eapply pmm_init_inv; [done|done|done|]. intros s L Hi Ht _ Hp. exists L.
    split_and!; [done|done|done|]. apply Hi. }
  apply wp_ok in Hw as ([] & s & E & L & HQ). by exists s, L.
Qed.

Lemma pmm_init_correct_witness :
  ∃ s L, pmm_init (λ _, 0) small_memmap 0xffff800000000000 pmm_boot = Ok ((), s) ∧ pmm_inv s L [] ∧
    kTotalPages s = 9 ∧
    (∀ x, x ∈ pages (blocks L) ↔ initially_free small_memmap (mkMemmapEntry 0x1000 0x8000 MEMMAP_USABLE) x) ∧
    kFreePages s = Z.of_nat (length (pages (blocks L))).
Proof.
  apply (pmm_init_correct (λ _, 0) small_memmap); [apply small_memmap_ok|lia|vm_compute; reflexivity].
Defined.

(** C4: a client that starts after [pmm_init] and allocates and frees in any
    order, freeing only what it holds, never makes the allocator fault or
    panic; at every point the page ranges it holds are pairwise disjoint and
    lie in usable memory outside the metadata array. *)
Theorem pmm_client_safe raw entries hhdm e s c :
  memmap_ok entries → 0 ≤ hhdm < 2 ^ 64 →
  find_metadata entries (phys_to_pfn (highest_addr entries) * sizeof_PageFrame) = Some e →
  pmm_init raw entries hhdm pmm_boot = Ok ((), s) →
  rtc client_step (Running s []) c →
  ∃ s' held, c = Running s' held ∧ NoDup (held ≫= held_pages) ∧
    ∀ x, x ∈ held ≫= held_pages → initially_free entries e x.
Proof.
  intros Hm Hh He Hs Hsteps.
  assert (Hw : wp (pmm_init raw entries hhdm) (λ _ s, ∃ L, pmm_inv s L [] ∧
    ∀ x, x ∈ pages (blocks L) ↔ initially_free entries e x) pmm_boot).
  { eapply pmm_init_inv; [done|done|done|]. intros s1 L Hi _ _ Hp. by exists L. }
  unfold wp in Hw. rewrite Hs in Hw. destruct Hw as (L & Hi & HL).
  assert (Hc : client_inv (page_set (blocks L)) (Running s [])).
  { exists (page_set (blocks L)), [], [], []. split_and!; [by exists L|constructor|done|].
    apply set_eq. intros x. rewrite elem_of_union, !elem_of_page_set. unfold pages at 2. simpl.
    rewrite elem_of_nil. tauto. }
  destruct (client_inv_safe _ _ (client_inv_reachable _ _ _ Hc Hsteps)) as (s' & held & -> & Hd & Hin).
  exists s', held. split_and!; [done|done|]. intros x Hx%Hin. apply HL. by apply elem_of_page_set.
Qed.

Lemma pmm_client_safe_witness :
  ∃ s' held, Running small_pmm_3 [(4 * PAGE_SIZE, 3)] = Running s' held ∧ NoDup (held ≫= held_pages) ∧
    ∀ x, x ∈ held ≫= held_pages → initially_free small_memmap (mkMemmapEntry 0x1000 0x8000 MEMMAP_USABLE) x.
Proof.
  apply (pmm_client_safe (λ _, 0) small_memmap 0xffff800000000000 _ small_pmm);
    [apply small_memmap_ok|lia|vm_compute; reflexivity|vm_compute; reflexivity|].
  apply rtc_once. refine (step_alloc small_pmm small_pmm_3 [] 3 (4 * PAGE_SIZE) _ _); [lia|].
  vm_compute. reflexivity.
Defined.

(** Allocating and freeing at once restores the allocator: whatever address
    an allocation returned, freeing it succeeds and gives back the same free
    pages, the same free count and the same allocated blocks. *)
Theorem pmm_alloc_free_roundtrip s L A count c :
  pmm_inv s L A → 0 ≤ count ≤ 2 ^ 63 →
  ∃ r s1, pmm_alloc_pages count s = Ok (r, s1) ∧
    (r ≠ 0 → ∃ s2 L2, pmm_free_pages r c s1 = Ok ((), s2) ∧ pmm_inv s2 L2 A ∧
       pages (blocks L2) ≡ₚ pages (blocks L) ∧ kFreePages s2 = kFreePages s).
Proof.
  intros Hi Hc. pose proof (pmm_alloc_wp _ _ _ _ Hi Hc) as (r & s1 & E & Hb)%wp_ok.
  exists r, s1. split; [done|]. intros Hr.
  destruct Hb as [(_ & ? & _)|(t & _ & _ & _ & [(_ & ? & _)|(o & p & l & Hout & -> & Hi1 & _)])]; [done..|].
  destruct (alloc_outcome_pages _ _ _ _ _ _ _ Hi Hout) as [Hpg Hp].
  assert (Hw : wp (pmm_free_pages (pfn_to_phys p) c) (λ _ s2, ∃ L2, pmm_inv s2 L2 A ∧
       pages (blocks L2) ≡ₚ pages (blocks L)) s1).
  { eapply pmm_free_block; [exact Hi1|intros ->; by apply Hr|].
    intros s2 L2 p' o' Hi2 Hpg2 _ _ _ _. exists L2. split; [done|].
    rewrite Hpg2, <-Hpg. apply Permutation_app_comm. }
  rewrite pfn_to_phys_mul in Hw by done. apply wp_ok in Hw as ([] & s2 & E2 & L2 & Hi2 & Hpg2).
  exists s2, L2. split_and!; [done|done|done|]. by rewrite (pi_count _ _ _ Hi2), (pi_count _ _ _ Hi), Hpg2.
Qed.

Lemma pmm_alloc_free_roundtrip_witness :
  ∃ L r s1, pmm_alloc_pages 3 small_pmm = Ok (r, s1) ∧
    (r ≠ 0 → ∃ s2 L2, pmm_free_pages r 3 s1 = Ok ((), s2) ∧ pmm_inv s2 L2 [] ∧
       pages (blocks L2) ≡ₚ pages (blocks L) ∧ kFreePages s2 = kFreePages small_pmm).
Proof.
  destruct small_pmm_inv as [L Hi]. exists L.
  apply (pmm_alloc_free_roundtrip small_pmm L [] 3 3 Hi). lia.
Defined.

(** In a state that satisfies the invariant an allocation is undefined
    exactly for counts above 2^63, where the order search shifts by 64. *)
Theorem pmm_alloc_pages_undefined s L A count :
  pmm_inv s L A → 0 ≤ count < 2 ^ 64 →
  pmm_alloc_pages count s = UB ↔ 2 ^ 63 < count.
Proof.
  intros Hi Hc. split.
  - intros HU. destruct (decide (2 ^ 63 < count)); [done|].
    pose proof (pmm_alloc_wp _ _ _ count Hi ltac:(lia)) as Hw. unfold wp in Hw. by rewrite HU in Hw.
  - intros Hlt. unfold pmm_alloc_pages. destruct (Z.eqb_spec count 0); [lia|].
    assert (Hloop : ∀ fuel o, (fuel + o = 64)%nat → target_order_loop fuel o count = None).
    { induction fuel as [|fuel IH]; intros o Ho; [done|]. cbn [target_order_loop].
      rewrite (proj2 (Z.ltb_lt _ _)); [apply IH; lia|].
      assert (block_size o ≤ block_size 63) as H63 by (apply block_size_le; lia).
      change (block_size 63) with (2 ^ 63) in H63. lia. }
    unfold target_order. by rewrite Hloop.
Qed.

Lemma pmm_alloc_pages_undefined_witness : pmm_alloc_pages (2 ^ 63 + 1) small_pmm = UB ↔ 2 ^ 63 < 2 ^ 63 + 1.
Proof.
  destruct small_pmm_inv as [L Hi]. apply (pmm_alloc_pages_undefined small_pmm L [] (2 ^ 63 + 1) Hi). lia.
Defined.

(** [page_align_down] rounds to the page below and [page_align_up] to the
    page above, except in the last page of the address space, where the
    rounding wraps to 0. *)
Theorem page_align_bounds addr :
  0 ≤ addr < 2 ^ 64 →
  (PAGE_SIZE | page_align_down addr) ∧ addr - PAGE_SIZE < page_align_down addr ≤ addr ∧
  (PAGE_SIZE | page_align_up addr) ∧
  (addr ≤ 2 ^ 64 - PAGE_SIZE → addr ≤ page_align_up addr < addr + PAGE_SIZE) ∧
  (2 ^ 64 - PAGE_SIZE < addr → page_align_up addr = 0).
Proof.
  intros Ha. assert (Hd : ∀ x, 0 ≤ x < 2 ^ 64 →
    (PAGE_SIZE | page_align_down x) ∧ x - PAGE_SIZE < page_align_down x ≤ x).
  { intros x Hx. rewrite page_align_down_spec by done.
    pose proof (Z.mod_pos_bound x PAGE_SIZE ltac:(done)). split; [|lia].
    exists (x / PAGE_SIZE). pose proof (Z.div_mod x PAGE_SIZE ltac:(done)). lia. }
  destruct (Hd addr Ha) as [H1 H2]. split_and!; [done|lia|lia|..].
  - apply (Hd (addr +64 PAGE_MASK)). apply wrap_range. lia.
  - intros Hle. destruct (decide (addr = 2 ^ 64 - PAGE_SIZE)) as [->|Hne]; [by vm_compute|].
    rewrite page_align_up_spec by (unfold PAGE_MASK; lia).
    destruct (Hd (addr + PAGE_MASK)) as [_ ?]; unfold PAGE_MASK in *; lia.
  - intros Hgt. unfold page_align_up. assert (E : addr +64 PAGE_MASK = addr + PAGE_MASK - 2 ^ 64).
    { unfold wrap, PAGE_MASK, PAGE_SIZE in *. symmetry. apply (Z.mod_unique _ _ 1); lia. }
    rewrite E. change (page_align_down (addr + PAGE_MASK - 2 ^ 64) = 0).
    assert (Hr : 0 ≤ addr + PAGE_MASK - 2 ^ 64 < PAGE_SIZE) by (unfold PAGE_MASK, PAGE_SIZE in *; lia).
    rewrite page_align_down_spec by (unfold PAGE_SIZE in *; lia). rewrite Z.mod_small by done. lia.
Qed.

Lemma page_align_bounds_witness :
  (PAGE_SIZE | page_align_down 0x1234) ∧ 0x1234 - PAGE_SIZE < page_align_down 0x1234 ≤ 0x1234 ∧
  (PAGE_SIZE | page_align_up 0x1234) ∧
  (0x1234 ≤ 2 ^ 64 - PAGE_SIZE → 0x1234 ≤ page_align_up 0x1234 < 0x1234 + PAGE_SIZE) ∧
  (2 ^ 64 - PAGE_SIZE < 0x1234 → page_align_up 0x1234 = 0).
Proof. apply (page_align_bounds 0x1234). lia. Defined.

(** Two usable regions, the second one an aligned block of eight pages. *)
Definition two_region_memmap : list MemmapEntry :=
  [mkMemmapEntry 0x1000 0x1000 MEMMAP_USABLE; mkMemmapEntry 0x8000 0x8000 MEMMAP_USABLE].

Definition two_region_pmm : pmm := final_state (pmm_init (λ _, 0) two_region_memmap 0) pmm_boot.
Definition two_region_after : pmm := final_state (r ← pmm_alloc_page; pmm_free_page r) two_region_pmm.

(** Freed blocks do not coalesce back.  Only the first frame of each boot
    block loses [PAGE_RESERVED], so a half split off by an allocation is never
    mergeable: on this machine an allocation of eight pages succeeds right
    after [pmm_init], yet allocating and freeing a single page, which leaves
    the same free count, makes it return 0. *)
Theorem pmm_split_blocks_never_merge :
  pmm_init (λ _, 0) two_region_memmap 0 pmm_boot = Ok ((), two_region_pmm) ∧
  pmm_alloc_pages 8 two_region_pmm =
    Ok (0x8000, final_state (pmm_alloc_pages 8) two_region_pmm) ∧
  (r ← pmm_alloc_page; pmm_free_page r) two_region_pmm = Ok ((), two_region_after) ∧
  kFreePages two_region_after = kFreePages two_region_pmm ∧
  pmm_alloc_pages 8 two_region_after = Ok (0, two_region_after).
Proof. split_and!; vm_compute; reflexivity. Qed.
