(* ===== verification/Thread.v ===== *)
(** * Kernel threads

    Model of src/kernel/thread.cpp, include/vortex/kernel/thread.hpp and
    src/arch/x86_64/context_switch.S.  A [ThreadControlBlock*] is the index of
    the block in the static pool [kTcbPool].  The machine state gathers what
    threads and the scheduler share: their static variables, the callee-saved
    registers of the CPU, the 64-bit words of the kernel stacks, and the
    registers of the TSS and the APIC timer they program.  The page allocator
    enters through its contract [PageAllocator].  Log lines are not modelled. *)

From S2P Require Import Prelude Pmm PmmBlocks PageAlloc.
Open Scope Z_scope.

(** ** Data (thread.hpp) *)

Inductive ThreadState := READY | RUNNING | BLOCKED | DEAD.
Inductive SchedPolicy := FIFO | RR | DL | NORMAL.

#[export] Instance ThreadState_eq_dec : EqDecision ThreadState.
Proof. solve_decision. Defined.
#[export] Instance SchedPolicy_eq_dec : EqDecision SchedPolicy.
Proof. solve_decision. Defined.

Record CpuContext := mkCpuContext {
  ctx_rbx : Z; ctx_rbp : Z; ctx_r12 : Z; ctx_r13 : Z; ctx_r14 : Z; ctx_r15 : Z;
  ctx_rsp : Z
}.

Record ThreadControlBlock := mkTcb {
  t_context : CpuContext;
  t_stack_base : Z;
  t_stack_pages : Z;
  t_state : ThreadState;
  t_policy : SchedPolicy;
  t_priority : Z;
  t_pad : Z;
  t_runtime_ns : Z;
  t_deadline_ns : Z;
  t_period_ns : Z;
  t_abs_deadline : Z;
  t_id : Z;
  t_name : string;
  t_process : option Z;
  t_next : option Z
}.

Definition KTHREAD_STACK_PAGES : Z := 4.
Definition MAX_THREADS : Z := 64.

Definition zero_context : CpuContext := mkCpuContext 0 0 0 0 0 0 0.

(** A block whose bytes are all zero. *)
Definition zero_tcb : ThreadControlBlock :=
  mkTcb zero_context 0 0 READY FIFO 0 0 0 0 0 0 0 EmptyString None None.

Definition set_ctx_rsp (v : Z) (r : CpuContext) : CpuContext :=
  mkCpuContext (ctx_rbx r) (ctx_rbp r) (ctx_r12 r) (ctx_r13 r) (ctx_r14 r) (ctx_r15 r) v.
Definition set_t_context (v : CpuContext) (r : ThreadControlBlock) : ThreadControlBlock :=
  mkTcb v (t_stack_base r) (t_stack_pages r) (t_state r) (t_policy r) (t_priority r) (t_pad r) (t_runtime_ns r)
    (t_deadline_ns r) (t_period_ns r) (t_abs_deadline r) (t_id r) (t_name r) (t_process r) (t_next r).
Definition set_t_stack_base (v : Z) (r : ThreadControlBlock) : ThreadControlBlock :=
  mkTcb (t_context r) v (t_stack_pages r) (t_state r) (t_policy r) (t_priority r) (t_pad r) (t_runtime_ns r)
    (t_deadline_ns r) (t_period_ns r) (t_abs_deadline r) (t_id r) (t_name r) (t_process r) (t_next r).
Definition set_t_stack_pages (v : Z) (r : ThreadControlBlock) : ThreadControlBlock :=
  mkTcb (t_context r) (t_stack_base r) v (t_state r) (t_policy r) (t_priority r) (t_pad r) (t_runtime_ns r)
    (t_deadline_ns r) (t_period_ns r) (t_abs_deadline r) (t_id r) (t_name r) (t_process r) (t_next r).
Definition set_t_state (v : ThreadState) (r : ThreadControlBlock) : ThreadControlBlock :=
  mkTcb (t_context r) (t_stack_base r) (t_stack_pages r) v (t_policy r) (t_priority r) (t_pad r)
    (t_runtime_ns r)
    (t_deadline_ns r) (t_period_ns r) (t_abs_deadline r) (t_id r) (t_name r) (t_process r) (t_next r).
Definition set_t_policy (v : SchedPolicy) (r : ThreadControlBlock) : ThreadControlBlock :=
  mkTcb (t_context r) (t_stack_base r) (t_stack_pages r) (t_state r) v (t_priority r) (t_pad r) (t_runtime_ns r)
    (t_deadline_ns r) (t_period_ns r) (t_abs_deadline r) (t_id r) (t_name r) (t_process r) (t_next r).
Definition set_t_priority (v : Z) (r : ThreadControlBlock) : ThreadControlBlock :=
  mkTcb (t_context r) (t_stack_base r) (t_stack_pages r) (t_state r) (t_policy r) v (t_pad r) (t_runtime_ns r)
    (t_deadline_ns r) (t_period_ns r) (t_abs_deadline r) (t_id r) (t_name r) (t_process r) (t_next r).
Definition set_t_abs_deadline (v : Z) (r : ThreadControlBlock) : ThreadControlBlock :=
  mkTcb (t_context r) (t_stack_base r) (t_stack_pages r) (t_state r) (t_policy r) (t_priority r) (t_pad r)
    (t_runtime_ns r) (t_deadline_ns r) (t_period_ns r) v (t_id r) (t_name r) (t_process r) (t_next r).
Definition set_t_id (v : Z) (r : ThreadControlBlock) : ThreadControlBlock :=
  mkTcb (t_context r) (t_stack_base r) (t_stack_pages r) (t_state r) (t_policy r) (t_priority r) (t_pad r)
    (t_runtime_ns r) (t_deadline_ns r) (t_period_ns r) (t_abs_deadline r) v (t_name r) (t_process r) (t_next r).
Definition set_t_name (v : string) (r : ThreadControlBlock) : ThreadControlBlock :=
  mkTcb (t_context r) (t_stack_base r) (t_stack_pages r) (t_state r) (t_policy r) (t_priority r) (t_pad r)
    (t_runtime_ns r) (t_deadline_ns r) (t_period_ns r) (t_abs_deadline r) (t_id r) v (t_process r) (t_next r).
Definition set_t_process (v : option Z) (r : ThreadControlBlock) : ThreadControlBlock :=
  mkTcb (t_context r) (t_stack_base r) (t_stack_pages r) (t_state r) (t_policy r) (t_priority r) (t_pad r)
    (t_runtime_ns r) (t_deadline_ns r) (t_period_ns r) (t_abs_deadline r) (t_id r) (t_name r) v (t_next r).
Definition set_t_next (v : option Z) (r : ThreadControlBlock) : ThreadControlBlock :=
  mkTcb (t_context r) (t_stack_base r) (t_stack_pages r) (t_state r) (t_policy r) (t_priority r) (t_pad r)
    (t_runtime_ns r) (t_deadline_ns r) (t_period_ns r) (t_abs_deadline r) (t_id r) (t_name r) (t_process r) v.

(** ** Machine state *)

Record ReadyQueue := mkReadyQueue { rq_head : option Z; rq_tail : option Z }.

(** The callee-saved registers, the stack pointer and the instruction pointer. *)
Record Cpu := mkCpu { rbx : Z; rbp : Z; r12 : Z; r13 : Z; r14 : Z; r15 : Z; rsp : Z; rip : Z }.

Definition set_rsp (v : Z) (c : Cpu) : Cpu :=
  mkCpu (rbx c) (rbp c) (r12 c) (r13 c) (r14 c) (r15 c) v (rip c).

(** Addresses the linker assigns: [thread_trampoline], and the instruction that
    follows the call of [context_switch] in [schedule]. *)
Record code_layout := mkLayout { thread_trampoline_addr : Z; schedule_resume_addr : Z }.

Record machine (PA : Type) := mkMachine {
  m_pages : PA;
  kTcbPool : gmap Z ThreadControlBlock;
  kNextTcbIndex : Z;
  kNextThreadId : Z;
  kCurrentThread : option Z;
  kIdleThread : option Z;
  kReadyQueues : list ReadyQueue;
  kTotalReady : Z;
  kSchedulingEnabled : bool;
  m_cpu : Cpu;
  m_stack : Z → Z;
  m_tss_rsp0 : Z;
  m_timer : option Z;
  m_interrupts : bool
}.
Arguments mkMachine {PA}.
Arguments m_pages {PA} _.
Arguments kTcbPool {PA} _.
Arguments kNextTcbIndex {PA} _.
Arguments kNextThreadId {PA} _.
Arguments kCurrentThread {PA} _.
Arguments kIdleThread {PA} _.
Arguments kReadyQueues {PA} _.
Arguments kTotalReady {PA} _.
Arguments kSchedulingEnabled {PA} _.
Arguments m_cpu {PA} _.
Arguments m_stack {PA} _.
Arguments m_tss_rsp0 {PA} _.
Arguments m_timer {PA} _.
Arguments m_interrupts {PA} _.

Definition set_m_pages {PA} (v : PA) (r : machine PA) : machine PA :=
  mkMachine v (kTcbPool r) (kNextTcbIndex r) (kNextThreadId r) (kCurrentThread r) (kIdleThread r)
    (kReadyQueues r) (kTotalReady r) (kSchedulingEnabled r) (m_cpu r) (m_stack r) (m_tss_rsp0 r) (m_timer r) (m_interrupts r).
Definition set_kTcbPool {PA} (v : gmap Z ThreadControlBlock) (r : machine PA) : machine PA :=
  mkMachine (m_pages r) v (kNextTcbIndex r) (kNextThreadId r) (kCurrentThread r) (kIdleThread r)
    (kReadyQueues r) (kTotalReady r) (kSchedulingEnabled r) (m_cpu r) (m_stack r) (m_tss_rsp0 r) (m_timer r) (m_interrupts r).
Definition set_kNextTcbIndex {PA} (v : Z) (r : machine PA) : machine PA :=
  mkMachine (m_pages r) (kTcbPool r) v (kNextThreadId r) (kCurrentThread r) (kIdleThread r) (kReadyQueues r) (kTotalReady r) (kSchedulingEnabled r) (m_cpu r) (m_stack r) (m_tss_rsp0 r) (m_timer r)
    (m_interrupts r).
Definition set_kNextThreadId {PA} (v : Z) (r : machine PA) : machine PA :=
  mkMachine (m_pages r) (kTcbPool r) (kNextTcbIndex r) v (kCurrentThread r) (kIdleThread r) (kReadyQueues r) (kTotalReady r) (kSchedulingEnabled r) (m_cpu r) (m_stack r) (m_tss_rsp0 r) (m_timer r)
    (m_interrupts r).
Definition set_kCurrentThread {PA} (v : option Z) (r : machine PA) : machine PA :=
  mkMachine (m_pages r) (kTcbPool r) (kNextTcbIndex r) (kNextThreadId r) v (kIdleThread r) (kReadyQueues r) (kTotalReady r) (kSchedulingEnabled r) (m_cpu r) (m_stack r) (m_tss_rsp0 r) (m_timer r)
    (m_interrupts r).
Definition set_kIdleThread {PA} (v : option Z) (r : machine PA) : machine PA :=
  mkMachine (m_pages r) (kTcbPool r) (kNextTcbIndex r) (kNextThreadId r) (kCurrentThread r) v
    (kReadyQueues r) (kTotalReady r) (kSchedulingEnabled r) (m_cpu r) (m_stack r) (m_tss_rsp0 r) (m_timer r) (m_interrupts r).
Definition set_kReadyQueues {PA} (v : list ReadyQueue) (r : machine PA) : machine PA :=
  mkMachine (m_pages r) (kTcbPool r) (kNextTcbIndex r) (kNextThreadId r) (kCurrentThread r) (kIdleThread r) v (kTotalReady r) (kSchedulingEnabled r) (m_cpu r) (m_stack r) (m_tss_rsp0 r) (m_timer r)
    (m_interrupts r).
Definition set_kTotalReady {PA} (v : Z) (r : machine PA) : machine PA :=
  mkMachine (m_pages r) (kTcbPool r) (kNextTcbIndex r) (kNextThreadId r) (kCurrentThread r) (kIdleThread r) (kReadyQueues r) v (kSchedulingEnabled r) (m_cpu r) (m_stack r) (m_tss_rsp0 r) (m_timer r)
    (m_interrupts r).
Definition set_kSchedulingEnabled {PA} (v : bool) (r : machine PA) : machine PA :=
  mkMachine (m_pages r) (kTcbPool r) (kNextTcbIndex r) (kNextThreadId r) (kCurrentThread r) (kIdleThread r) (kReadyQueues r) (kTotalReady r) v (m_cpu r) (m_stack r) (m_tss_rsp0 r) (m_timer r) (m_interrupts r).
Definition set_m_cpu {PA} (v : Cpu) (r : machine PA) : machine PA :=
  mkMachine (m_pages r) (kTcbPool r) (kNextTcbIndex r) (kNextThreadId r) (kCurrentThread r) (kIdleThread r) (kReadyQueues r) (kTotalReady r) (kSchedulingEnabled r) v (m_stack r) (m_tss_rsp0 r) (m_timer r)
    (m_interrupts r).
Definition set_m_stack {PA} (v : Z → Z) (r : machine PA) : machine PA :=
  mkMachine (m_pages r) (kTcbPool r) (kNextTcbIndex r) (kNextThreadId r) (kCurrentThread r) (kIdleThread r) (kReadyQueues r) (kTotalReady r) (kSchedulingEnabled r) (m_cpu r) v (m_tss_rsp0 r) (m_timer r)
    (m_interrupts r).
Definition set_m_tss_rsp0 {PA} (v : Z) (r : machine PA) : machine PA :=
  mkMachine (m_pages r) (kTcbPool r) (kNextTcbIndex r) (kNextThreadId r) (kCurrentThread r) (kIdleThread r) (kReadyQueues r) (kTotalReady r) (kSchedulingEnabled r) (m_cpu r) (m_stack r) v (m_timer r)
    (m_interrupts r).
Definition set_m_timer {PA} (v : option Z) (r : machine PA) : machine PA :=
  mkMachine (m_pages r) (kTcbPool r) (kNextTcbIndex r) (kNextThreadId r) (kCurrentThread r) (kIdleThread r) (kReadyQueues r) (kTotalReady r) (kSchedulingEnabled r) (m_cpu r) (m_stack r) (m_tss_rsp0 r) v
    (m_interrupts r).
Definition set_m_interrupts {PA} (v : bool) (r : machine PA) : machine PA :=
  mkMachine (m_pages r) (kTcbPool r) (kNextTcbIndex r) (kNextThreadId r) (kCurrentThread r) (kIdleThread r) (kReadyQueues r) (kTotalReady r) (kSchedulingEnabled r) (m_cpu r) (m_stack r) (m_tss_rsp0 r)
    (m_timer r) v.

(** ** Accessors *)

Section threads.
Context {PA : Type}.
Implicit Types m : machine PA.

Definition read_tcb (t : Z) : M (machine PA) ThreadControlBlock :=
  m ← get; deref (kTcbPool m !! t).
Definition write_tcb (t : Z) (g : ThreadControlBlock → ThreadControlBlock) : M (machine PA) () :=
  b ← read_tcb t; modify (λ m, set_kTcbPool (<[t := g b]> (kTcbPool m)) m).

(** Dereference of a pointer variable. *)
Definition the (p : option Z) : M (machine PA) Z := deref p.

(** [pmm_*] calls act on the allocator's part of the state. *)
Definition lift_pages {A} (op : M PA A) : M (machine PA) A := λ m,
  match op (m_pages m) with
  | Ok (a, pa) => Ok (a, set_m_pages pa m)
  | Panic msg => Panic msg
  | UB => UB
  end.

(** [*--sp = v] *)
Definition store_down (sp v : Z) : M (machine PA) Z :=
  let sp := sp -64 8 in
  modify (λ m, set_m_stack (<[sp := v]> (m_stack m)) m);;
  mret sp.

(** ** Thread blocks *)

Definition alloc_tcb : M (machine PA) (option Z) :=
  m ← get;
  if MAX_THREADS <=? kNextTcbIndex m then mret None
  else
    let tcb := kNextTcbIndex m in
    modify (λ m, set_kNextTcbIndex (u32 (kNextTcbIndex m + 1)) m);;
    write_tcb tcb (λ _, zero_tcb);;
    write_tcb tcb (set_t_id (kNextThreadId m));;
    modify (λ m, set_kNextThreadId (u32 (kNextThreadId m + 1)) m);;
    mret (Some tcb).

Definition thread_init : M (machine PA) () :=
  t ← alloc_tcb;
  match t with
  | None => panic "KERNEL_BUG_ON: kIdleThread == nullptr"
  | Some t =>
    modify (set_kIdleThread (Some t));;
    write_tcb t (set_t_name "idle");;
    write_tcb t (set_t_priority 0);;
    write_tcb t (set_t_state RUNNING);;
    write_tcb t (set_t_stack_base 0);;
    write_tcb t (set_t_stack_pages 0);;
    modify (set_kCurrentThread (Some t))
  end.

Definition thread_current : M (machine PA) (option Z) := gets kCurrentThread.
Definition thread_idle : M (machine PA) (option Z) := gets kIdleThread.
Definition thread_set_current (t : Z) : M (machine PA) () := modify (set_kCurrentThread (Some t)).

(** Marks the thread; it then halts in a loop until a timer tick schedules
    another one. *)
Definition thread_exit : M (machine PA) () :=
  c ← thread_current; t ← the c; write_tcb t (set_t_state DEAD).

(** ** Thread creation *)

Context `{!PageAllocator PA} (lay : code_layout).

Definition stack_top (hhdm stack_phys pages : Z) : Z :=
  (stack_phys +64 hhdm) +64 u64 (pages * PAGE_SIZE).

(** The words [kthread_create] leaves on the new stack, in the order pushed. *)
Definition push_initial_frame (top func : Z) : M (machine PA) Z :=
  sp ← store_down top (thread_trampoline_addr lay);
  sp ← store_down sp 0;
  sp ← store_down sp 0;
  sp ← store_down sp 0;
  sp ← store_down sp func;
  sp ← store_down sp 0;
  store_down sp 0.

Definition kthread_create (func : Z) (name : string) (priority : Z) : M (machine PA) (option Z) :=
  t ← alloc_tcb;
  match t with
  | None => mret None
  | Some tcb =>
    stack_phys ← lift_pages (pa_alloc KTHREAD_STACK_PAGES);
    if stack_phys =? 0 then panic "kthread_create: out of memory for stack"
    else
      write_tcb tcb (set_t_name name);;
      write_tcb tcb (set_t_priority priority);;
      write_tcb tcb (set_t_state READY);;
      write_tcb tcb (set_t_stack_base stack_phys);;
      write_tcb tcb (set_t_stack_pages KTHREAD_STACK_PAGES);;
      write_tcb tcb (set_t_next None);;
      hhdm ← gets (λ m, pa_hhdm (m_pages m));
      sp ← push_initial_frame (stack_top hhdm stack_phys KTHREAD_STACK_PAGES) func;
      write_tcb tcb (λ b, set_t_context (set_ctx_rsp sp (t_context b)) b);;
      mret (Some tcb)
  end.

(** ** The context switch (context_switch.S) *)

Definition push (v : Z) : M (machine PA) () :=
  m ← get;
  sp ← store_down (rsp (m_cpu m)) v;
  modify (λ m, set_m_cpu (set_rsp sp (m_cpu m)) m).

Definition pop : M (machine PA) Z :=
  m ← get;
  let sp := rsp (m_cpu m) in
  modify (λ m, set_m_cpu (set_rsp (sp +64 8) (m_cpu m)) m);;
  mret (m_stack m sp).

Definition context_switch (old new : Z) : M (machine PA) () :=
  m ← get;
  let c := m_cpu m in
  push (rbx c);; push (rbp c);; push (r12 c);; push (r13 c);; push (r14 c);; push (r15 c);;
  m ← get;
  write_tcb old (λ b, set_t_context (set_ctx_rsp (rsp (m_cpu m)) (t_context b)) b);;
  b ← read_tcb new;
  modify (λ m, set_m_cpu (set_rsp (ctx_rsp (t_context b)) (m_cpu m)) m);;
  vr15 ← pop; vr14 ← pop; vr13 ← pop; vr12 ← pop; vrbp ← pop; vrbx ← pop;
  ret ← pop;
  modify (λ m, set_m_cpu (mkCpu vrbx vrbp vr12 vr13 vr14 vr15 (rsp (m_cpu m)) ret) m).

(** The address a new thread calls: what it finds in [r12]. *)
Definition thread_trampoline : M (machine PA) Z := gets (λ m, r12 (m_cpu m)).

End threads.
