(* ===== verification/Sched.v ===== *)
(** * The scheduler

    Model of src/kernel/scheduler.cpp.  The ready queues are the intrusive
    singly linked lists of the source, threaded through [t_next].  A walk of a
    queue carries as fuel the size of the thread pool: a longer walk revisits a
    thread, so it would never end, which the model reports as undefined.

    [context_switch] does not return to its caller but resumes another thread,
    so the text of [schedule] is two definitions: [schedule] runs up to and
    including the switch and reports what happened; [schedule_tail] is the code
    after the call, which runs when the thread that called it is resumed. *)

From S2P Require Import Prelude Pmm PmmBlocks PageAlloc Thread.
Open Scope Z_scope.

Definition QUEUES : nat := 140.
Definition TICK_INTERVAL_MS : Z := 1.
Definition QUEUE_FUEL : nat := Z.to_nat MAX_THREADS.

(** How [schedule] left the CPU. *)
Inductive sched_result :=
  | Disabled
  | Stay
  | Switched (from to : Z).

Section sched.
Context {PA : Type} `{!PageAllocator PA} (lay : code_layout).

(** ** Queue operations *)

Definition read_queue (prio : nat) : M (machine PA) ReadyQueue :=
  m ← get; deref (kReadyQueues m !! prio).
Definition write_queue (prio : nat) (q : ReadyQueue) : M (machine PA) () :=
  _ ← read_queue prio;
  modify (λ m, set_kReadyQueues (<[prio := q]> (kReadyQueues m)) m).

Definition queue_push_back (prio : Z) (tcb : Z) : M (machine PA) () :=
  if Z.of_nat QUEUES <=? prio then panic "KERNEL_BUG_ON: prio >= 140"
  else
    write_tcb tcb (set_t_next None);;
    q ← read_queue (Z.to_nat prio);
    match rq_tail q with
    | Some t => write_tcb t (set_t_next (Some tcb))
    | None => write_queue (Z.to_nat prio) (mkReadyQueue (Some tcb) (rq_tail q))
    end;;
    q ← read_queue (Z.to_nat prio);
    write_queue (Z.to_nat prio) (mkReadyQueue (rq_head q) (Some tcb));;
    modify (λ m, set_kTotalReady (u32 (kTotalReady m + 1)) m).

Definition queue_pop_front (prio : nat) : M (machine PA) (option Z) :=
  q ← read_queue prio;
  match rq_head q with
  | None => mret None
  | Some tcb =>
    b ← read_tcb tcb;
    write_queue prio (mkReadyQueue (t_next b)
      (match t_next b with None => None | Some _ => rq_tail q end));;
    write_tcb tcb (set_t_next None);;
    modify (λ m, set_kTotalReady (u32 (kTotalReady m - 1)) m);;
    mret (Some tcb)
  end.

(** ** Choosing the next thread *)

(** The inner [while] of the deadline scan; [best] is [earliest_deadline] and
    [next]. *)
Fixpoint dl_scan_queue (fuel : nat) (curr : option Z) (best : Z * option Z) : M (machine PA) (Z * option Z) :=
  match curr with
  | None => mret best
  | Some t =>
    match fuel with
    | O => undefined
    | S fuel =>
      b ← read_tcb t;
      dl_scan_queue fuel (t_next b)
        (if bool_decide (t_policy b = DL) && (t_abs_deadline b <? best.1)
         then (t_abs_deadline b, Some t) else best)
    end
  end.

(** The outer [for] over the priorities [p, p + n). *)
Fixpoint dl_scan (n p : nat) (best : Z * option Z) : M (machine PA) (Z * option Z) :=
  match n with
  | O => mret best
  | S n =>
    q ← read_queue p;
    best ← dl_scan_queue QUEUE_FUEL (rq_head q) best;
    dl_scan n (S p) best
  end.

(** The search for the predecessor of [target]. *)
Fixpoint find_prev (fuel : nat) (prev curr : option Z) (target : Z) : M (machine PA) (option Z) :=
  if decide (curr = Some target) then mret prev
  else match fuel with
  | O => undefined
  | S fuel =>
    t ← the curr;
    b ← read_tcb t;
    find_prev fuel (Some t) (t_next b) target
  end.

(** Unlinking a thread found by the deadline scan. *)
Definition queue_remove (target : Z) : M (machine PA) () :=
  b ← read_tcb target;
  let prio := Z.to_nat (t_priority b) in
  q ← read_queue prio;
  prev ← find_prev QUEUE_FUEL None (rq_head q) target;
  b ← read_tcb target;
  match prev with
  | Some p => write_tcb p (set_t_next (t_next b))
  | None => write_queue prio (mkReadyQueue (t_next b) (rq_tail q))
  end;;
  b ← read_tcb target;
  match t_next b with
  | None => q ← read_queue prio; write_queue prio (mkReadyQueue (rq_head q) prev)
  | Some _ => mret ()
  end;;
  write_tcb target (set_t_next None);;
  modify (λ m, set_kTotalReady (u32 (kTotalReady m - 1)) m).

(** [for (p ...) { next = queue_pop_front(p); if (next) break; }] *)
Fixpoint pop_first (prios : list nat) : M (machine PA) (option Z) :=
  match prios with
  | [] => mret None
  | p :: prios =>
    next ← queue_pop_front p;
    match next with Some _ => mret next | None => pop_first prios end
  end.

(** 99 down to 0, then 100 up to 139. *)
Definition rt_order : list nat := reverse (seq 0 100).
Definition normal_order : list nat := seq 100 40.

Definition pick_next : M (machine PA) (option Z) :=
  best ← dl_scan QUEUES 0 (2 ^ 64 - 1, None);
  match best.2 with
  | Some next => queue_remove next;; mret (Some next)
  | None =>
    next ← pop_first rt_order;
    match next with Some _ => mret next | None => pop_first normal_order end
  end.

(** ** The timer *)

Context (ticks_per_ms : Z).

Definition apic_timer_oneshot (ticks : Z) : M (machine PA) () :=
  modify (set_m_timer (Some ticks)).

(** ** Schedule *)

(** Its last part, once [next] is chosen. *)
Definition finish_schedule (current next : Z) : M (machine PA) sched_result :=
  if decide (next = current) then
    write_tcb next (set_t_state RUNNING);;
    mret Stay
  else
    write_tcb next (set_t_state RUNNING);;
    thread_set_current next;;
    b ← read_tcb next;
    when (negb (t_stack_base b =? 0))
      (hhdm ← gets (λ m, pa_hhdm (m_pages m));
       modify (set_m_tss_rsp0 (stack_top hhdm (t_stack_base b) (t_stack_pages b))));;
    push (schedule_resume_addr lay);;
    context_switch current next;;
    mret (Switched current next).

Definition schedule : M (machine PA) sched_result :=
  enabled ← gets kSchedulingEnabled;
  if negb enabled then mret Disabled
  else
    c ← thread_current;
    current ← the c;
    b ← read_tcb current;
    (if decide (t_state b = RUNNING) then
       write_tcb current (set_t_state READY);;
       queue_push_back (t_priority b) current
     else mret ());;
    picked ← pick_next;
    next ← (match picked with
            | Some t => mret t
            | None => i ← thread_idle; the i
            end);
    finish_schedule current next.

(** What runs after the call of [context_switch] returns, with the local
    variable [next] the suspended call of [schedule] had. *)
Definition schedule_tail (next : Z) : M (machine PA) () :=
  b ← read_tcb next;
  let quantum := if decide (t_policy b = FIFO) then 10 else TICK_INTERVAL_MS in
  apic_timer_oneshot (u32 (ticks_per_ms * quantum)).

(** [for (p = 99; p > priority; --p) if (kReadyQueues[p].head) ...] *)
Definition higher_ready (prio : Z) : M (machine PA) bool :=
  m ← get;
  mret (existsb (λ p, match kReadyQueues m !! p with
                      | Some q => bool_decide (is_Some (rq_head q))
                      | None => false
                      end)
          (filter (λ p, prio < Z.of_nat p) rt_order)).

Definition apic_timer_handler : M (machine PA) sched_result :=
  c ← thread_current;
  current ← the c;
  b ← read_tcb current;
  should_resched ← (if decide (t_policy b = FIFO) then higher_ready (t_priority b) else mret true);
  if (should_resched : bool) then schedule
  else
    apic_timer_oneshot (u32 (ticks_per_ms * TICK_INTERVAL_MS));;
    mret Stay.

(** [cli; schedule(); sti]: after a switch the [sti] runs on resumption. *)
Definition yield : M (machine PA) sched_result :=
  modify (set_m_interrupts false);;
  r ← schedule;
  match r with
  | Switched _ _ => mret ()
  | _ => modify (set_m_interrupts true)
  end;;
  mret r.

(** The final test compares priorities and does nothing with the answer. *)
Definition enqueue_thread (tcb : Z) : M (machine PA) () :=
  write_tcb tcb (set_t_state READY);;
  b ← read_tcb tcb;
  queue_push_back (t_priority b) tcb;;
  enabled ← gets kSchedulingEnabled;
  when enabled (c ← thread_current; current ← the c; _ ← read_tcb current; mret ()).

Definition ready_queue_size : M (machine PA) Z := gets kTotalReady.

Definition scheduler_start : M (machine PA) () :=
  modify (set_kSchedulingEnabled true);;
  apic_timer_oneshot (u32 (ticks_per_ms * TICK_INTERVAL_MS));;
  modify (set_m_interrupts true).

End sched.

(** The statics before [thread_init] runs, on a CPU in any register state. *)
Definition sched_boot {PA} (pa : PA) (cpu : Cpu) (stack : Z → Z) : machine PA :=
  mkMachine pa (list_to_map ((λ i, (i, zero_tcb)) <$> seqZ 0 MAX_THREADS)) 0 1 None None
    (replicate QUEUES (mkReadyQueue None None)) 0 false cpu stack 0 None false.
