(* ===== verification/SchedInv.v ===== *)
(** * Ready queues: the invariant

    [queues_inv m Q]: the intrusive ready queues of [m] are the lists [Q], the
    queue of priority [p] holds ready threads of priority [p] only, and
    [kTotalReady] counts them.  Each queue operation is a list operation on
    [Q] that leaves everything else of the machine alone. *)

From S2P Require Import Prelude LinkedList Pmm PmmBlocks PageAlloc Thread Sched.
Open Scope Z_scope.

Section inv.
Context {PA : Type}.
Implicit Types (m : machine PA) (Q : nat → list Z) (t : Z) (p : nat) (b : ThreadControlBlock).

Definition next_of m t : option Z := kTcbPool m !! t ≫= t_next.

(** A thread block without its queue link. *)
Definition tcb_data b : ThreadControlBlock := set_t_next None b.

(** What the queue operations leave alone. *)
Definition m_rest m :=
  (m_pages m, kNextTcbIndex m, kNextThreadId m, kCurrentThread m, kIdleThread m,
   kSchedulingEnabled m, m_cpu m, m_stack m, m_tss_rsp0 m, m_timer m, m_interrupts m).

(** What no scheduling decision touches. *)
Definition m_other m := (m_pages m, kNextTcbIndex m, kNextThreadId m, kSchedulingEnabled m).

Definition same_data m m' : Prop :=
  m_rest m' = m_rest m ∧ ∀ t, tcb_data <$> kTcbPool m' !! t = tcb_data <$> kTcbPool m !! t.

Definition all_ready Q : list Z := seq 0 QUEUES ≫= Q.

Record queues_inv m Q : Prop := {
  qi_len : length (kReadyQueues m) = QUEUES;
  qi_dom : ∀ t, is_Some (kTcbPool m !! t) ↔ 0 ≤ t < MAX_THREADS;
  qi_chain : ∀ p q, kReadyQueues m !! p = Some q →
    chain (next_of m) (rq_head q) (Q p) ∧ rq_tail q = last (Q p);
  qi_mem : ∀ p t, (p < QUEUES)%nat → t ∈ Q p →
    ∃ b, kTcbPool m !! t = Some b ∧ t_priority b = Z.of_nat p ∧ t_state b = READY;
  qi_total : kTotalReady m = Z.of_nat (length (all_ready Q))
}.

Lemma same_data_refl m : same_data m m.
Proof. done. Qed.

Lemma same_data_trans m1 m2 m3 : same_data m1 m2 → same_data m2 m3 → same_data m1 m3.
Proof. intros [H1 H2] [H3 H4]. split; [congruence|]. intros t. by rewrite H4, H2. Qed.

Lemma same_data_lookup m m' t b : same_data m m' → kTcbPool m !! t = Some b →
  ∃ b', kTcbPool m' !! t = Some b' ∧ tcb_data b' = tcb_data b.
Proof.
  intros [_ H] Hb. specialize (H t). rewrite Hb in H. destruct (kTcbPool m' !! t) as [b'|]; [|done].
  exists b'. split; [done|]. by apply (inj Some) in H.
Qed.

Lemma tcb_data_fields b b' : tcb_data b = tcb_data b' →
  t_priority b = t_priority b' ∧ t_state b = t_state b' ∧ t_policy b = t_policy b' ∧
  t_abs_deadline b = t_abs_deadline b' ∧ t_stack_base b = t_stack_base b' ∧
  t_stack_pages b = t_stack_pages b' ∧ t_context b = t_context b'.
Proof. destruct b, b'. intros [=]. by subst. Qed.

(** ** Consequences *)

Lemma qi_queue m Q p : queues_inv m Q → (p < QUEUES)%nat → ∃ q, kReadyQueues m !! p = Some q.
Proof. intros Hi Hp. apply lookup_lt_is_Some. by rewrite (qi_len _ _ Hi). Qed.

Lemma qi_unique m Q p p' t :
  queues_inv m Q → (p < QUEUES)%nat → (p' < QUEUES)%nat → t ∈ Q p → t ∈ Q p' → p = p'.
Proof.
  intros Hi Hp Hp' H1 H2. destruct (qi_mem _ _ Hi p t Hp H1) as (b & Hb & E & _).
  destruct (qi_mem _ _ Hi p' t Hp' H2) as (b' & Hb' & E' & _). simplify_eq. lia.
Qed.

Lemma qi_nodup m Q p : queues_inv m Q → (p < QUEUES)%nat → NoDup (Q p).
Proof.
  intros Hi Hp. destruct (qi_queue _ _ _ Hi Hp) as [q Hq].
  destruct (qi_chain _ _ Hi _ _ Hq) as [Hc _]. by eapply chain_NoDup.
Qed.

Lemma qi_all_nodup m Q : queues_inv m Q → NoDup (all_ready Q).
Proof.
  intros Hi. unfold all_ready. apply NoDup_bind; [| |apply NoDup_seq].
  - intros p p' t Hp%elem_of_seq Hp'%elem_of_seq H1 H2. eapply (qi_unique m Q p p' t); eauto with lia.
  - intros p Hp%elem_of_seq. eapply qi_nodup; eauto with lia.
Qed.

Lemma elem_of_all_ready Q t : t ∈ all_ready Q ↔ ∃ p, (p < QUEUES)%nat ∧ t ∈ Q p.
Proof.
  unfold all_ready. rewrite list_elem_of_bind. setoid_rewrite elem_of_seq.
  split; intros (p & ? & ?); exists p; split; try done; lia.
Qed.

Lemma qi_bound m Q l : queues_inv m Q → NoDup l → (∀ t, t ∈ l → t ∈ all_ready Q) → (length l ≤ QUEUE_FUEL)%nat.
Proof.
  intros Hi Hn Hl. assert (Hs : l ⊆+ seqZ 0 MAX_THREADS).
  { apply NoDup_submseteq; [done|]. intros t (p & Hp & Ht)%Hl%elem_of_all_ready.
    destruct (qi_mem _ _ Hi p t Hp Ht) as (b & Hb & _). apply elem_of_seqZ.
    pose proof (proj1 (qi_dom _ _ Hi t) (mk_is_Some _ _ Hb)). lia. }
  apply submseteq_length in Hs. by rewrite length_seqZ in Hs.
Qed.

Lemma qi_queue_bound m Q p : queues_inv m Q → (p < QUEUES)%nat → (length (Q p) ≤ QUEUE_FUEL)%nat.
Proof.
  intros Hi Hp. eapply qi_bound; [done|by eapply qi_nodup|]. intros t Ht. apply elem_of_all_ready. eauto.
Qed.

Lemma qi_total_bound m Q : queues_inv m Q → 0 ≤ kTotalReady m ≤ MAX_THREADS.
Proof.
  intros Hi. rewrite (qi_total _ _ Hi).
  pose proof (qi_bound m Q _ Hi (qi_all_nodup _ _ Hi) (λ _ H, H)). unfold QUEUE_FUEL in *.
  change MAX_THREADS with 64 in *. lia.
Qed.

Lemma all_ready_insert Q p :
  (p < QUEUES)%nat → ∃ rest, ∀ l, all_ready (<[p := l]> Q) ≡ₚ l ++ rest.
Proof.
  intros Hp. exists ((seq 0 p ++ seq (S p) (QUEUES - S p)) ≫= Q). intros l. unfold all_ready.
  replace QUEUES with (p + S (QUEUES - S p))%nat at 1 by lia.
  rewrite seq_app, !bind_app. cbn [seq]. rewrite bind_cons, fn_lookup_insert.
  assert (Hext : ∀ a n, (∀ o, (a ≤ o < a + n)%nat → o ≠ p) →
    (seq a n ≫= <[p := l]> Q) = (seq a n ≫= Q)).
  { intros a n Hne. apply Forall_bind_ext, Forall_forall. intros o Ho%elem_of_seq.
    rewrite fn_lookup_insert_ne; [done|]. apply not_eq_sym, Hne, Ho. }
  rewrite !Hext by lia. rewrite Nat.add_0_l. apply Permutation_app_swap_app.
Qed.

Lemma all_ready_insert_id Q p : all_ready (<[p := Q p]> Q) = all_ready Q.
Proof.
  unfold all_ready. apply list_bind_ext; [|done]. intros o. unfold insert, fn_insert. by case_decide; subst.
Qed.

(** The effect on the count of replacing one queue. *)
Lemma all_ready_length Q p l : (p < QUEUES)%nat →
  (length (all_ready (<[p := l]> Q)) + length (Q p) = length (all_ready Q) + length l)%nat.
Proof.
  intros Hp. destruct (all_ready_insert Q p Hp) as [rest Hr].
  pose proof (all_ready_insert_id Q p) as Hid. rewrite <-Hid, !Hr, !length_app. lia.
Qed.

(** ** Symbolic execution *)

Lemma wp_read_tcb t b (R : _ → machine PA → Prop) m : kTcbPool m !! t = Some b → R b m → wp (read_tcb t) R m.
Proof. intros Hb HR. unfold read_tcb. wp_run. done. Qed.

Lemma wp_write_tcb t b g (R : _ → machine PA → Prop) m :
  kTcbPool m !! t = Some b → R () (set_kTcbPool (<[t := g b]> (kTcbPool m)) m) → wp (write_tcb t g) R m.
Proof. intros Hb HR. unfold write_tcb. wp_run. eapply wp_read_tcb; [done|]. by wp_run. Qed.

Lemma wp_read_queue p q (R : _ → machine PA → Prop) m :
  kReadyQueues m !! p = Some q → R q m → wp (read_queue p) R m.
Proof. intros Hq HR. unfold read_queue. wp_run. done. Qed.

Lemma wp_write_queue p q q' (R : _ → machine PA → Prop) m :
  kReadyQueues m !! p = Some q → R () (set_kReadyQueues (<[p := q']> (kReadyQueues m)) m) →
  wp (write_queue p q') R m.
Proof. intros Hq HR. unfold write_queue. wp_run. eapply wp_read_queue; [done|]. by wp_run. Qed.

(** ** Replacing one queue

    A step that changes the links of the queue [p] only, from [Q p] to [l']. *)
Lemma queues_replace m m' Q p l' q' :
  queues_inv m Q → (p < QUEUES)%nat → same_data m m' →
  kReadyQueues m' = <[p := q']> (kReadyQueues m) →
  (∀ t, t ∈ all_ready Q → t ∉ Q p → next_of m' t = next_of m t) →
  chain (next_of m') (rq_head q') l' → rq_tail q' = last l' →
  (∀ t, t ∈ l' → ∃ b, kTcbPool m !! t = Some b ∧ t_priority b = Z.of_nat p ∧ t_state b = READY) →
  kTotalReady m' = kTotalReady m + (Z.of_nat (length l') - Z.of_nat (length (Q p))) →
  queues_inv m' (<[p := l']> Q).
Proof.
  intros Hi Hp Hd Hq Hn Hc Ht Hmem Htot. split.
  - rewrite Hq, length_insert. apply Hi.
  - intros t. rewrite <-(qi_dom _ _ Hi t). destruct Hd as [_ Hd]. specialize (Hd t).
    destruct (kTcbPool m' !! t), (kTcbPool m !! t); naive_solver.
  - intros o q. rewrite Hq. destruct (decide (o = p)) as [->|Hne].
    + rewrite list_lookup_insert_eq, fn_lookup_insert by (by rewrite (qi_len _ _ Hi)). by intros [= <-].
    + rewrite list_lookup_insert_ne, fn_lookup_insert_ne by done. intros Hq0.
      destruct (qi_chain _ _ Hi _ _ Hq0) as [Hc0 Ht0]. split; [|done].
      assert (Ho : (o < QUEUES)%nat) by (rewrite <-(qi_len _ _ Hi); by eapply lookup_lt_Some).
      eapply lseg_ext, Hc0. intros t Hto. apply Hn; [apply elem_of_all_ready; eauto|].
      intros Htp. apply Hne. by eapply qi_unique.
  - intros o t Ho Hto. assert (Hb : ∃ b, kTcbPool m !! t = Some b ∧ t_priority b = Z.of_nat o ∧ t_state b = READY).
    { destruct (decide (o = p)) as [->|Hne].
      - rewrite fn_lookup_insert in Hto. auto.
      - rewrite fn_lookup_insert_ne in Hto by done. by eapply qi_mem. }
    destruct Hb as (b & Hb & Hpr & Hst). destruct (same_data_lookup _ _ _ _ Hd Hb) as (b' & Hb' & E).
    apply tcb_data_fields in E as (E1 & E2 & _). exists b'. split_and!; congruence.
  - rewrite Htot, (qi_total _ _ Hi). pose proof (all_ready_length Q p l' Hp). lia.
Qed.

(** A write of a link. *)
Lemma same_data_link m t b n : kTcbPool m !! t = Some b →
  same_data m (set_kTcbPool (<[t := set_t_next n b]> (kTcbPool m)) m).
Proof.
  intros Hb. split; [done|]. intros t'. simpl. destruct (decide (t' = t)) as [->|].
  - by rewrite lookup_insert_eq, Hb.
  - by rewrite lookup_insert_ne.
Qed.

Lemma next_of_link m t b n t' :
  next_of (set_kTcbPool (<[t := set_t_next n b]> (kTcbPool m)) m) t' = if decide (t' = t) then n else next_of m t'.
Proof.
  unfold next_of. simpl. case_decide; [subst; by rewrite lookup_insert_eq|by rewrite lookup_insert_ne].
Qed.

Lemma same_data_queues m qs : same_data m (set_kReadyQueues qs m).
Proof. done. Qed.
Lemma same_data_total m n : same_data m (set_kTotalReady n m).
Proof. done. Qed.

(** ** Push and pop *)

Lemma wrap32_small x : 0 ≤ x ≤ MAX_THREADS → u32 x = x.
Proof. intros Hx. apply wrap_small. unfold MAX_THREADS in Hx. lia. Qed.

(** A thread outside the queues leaves room for itself. *)
Lemma qi_fresh_bound m Q t : queues_inv m Q → is_Some (kTcbPool m !! t) → t ∉ all_ready Q →
  kTotalReady m + 1 ≤ MAX_THREADS.
Proof.
  intros Hi Ht Hfresh. assert (Hs : t :: all_ready Q ⊆+ seqZ 0 MAX_THREADS).
  { apply NoDup_submseteq; [constructor; [done|by eapply qi_all_nodup]|].
    intros t' [->|(o & Ho & Ht')%elem_of_all_ready]%elem_of_cons; apply elem_of_seqZ.
    - pose proof (proj1 (qi_dom _ _ Hi t) Ht). lia.
    - destruct (qi_mem _ _ Hi o t' Ho Ht') as (b' & Hb' & _).
      pose proof (proj1 (qi_dom _ _ Hi t') (mk_is_Some _ _ Hb')). lia. }
  apply submseteq_length in Hs. rewrite length_seqZ in Hs. simpl in Hs. rewrite (qi_total _ _ Hi).
  unfold MAX_THREADS in *. lia.
Qed.

(** Linking [t] behind the last thread of queue [p], whose record was [q]. *)
Lemma queue_append m m2 Q p q t b :
  queues_inv m Q → (p < QUEUES)%nat → kReadyQueues m !! p = Some q → kTcbPool m !! t = Some b →
  t_priority b = Z.of_nat p → t_state b = READY → t ∉ all_ready Q → same_data m m2 →
  kReadyQueues m2 = kReadyQueues m → kTotalReady m2 = kTotalReady m →
  (∀ t', next_of m2 t' = if decide (last (Q p) = Some t') then Some t else if decide (t' = t) then None else next_of m t') →
  queues_inv (set_kTotalReady (u32 (kTotalReady m2 + 1)) (set_kReadyQueues (<[p := mkReadyQueue
    (match rq_head q with Some h => Some h | None => Some t end) (Some t)]> (kReadyQueues m2)) m2)) (<[p := Q p ++ [t]]> Q).
Proof.
  intros Hi Hp Hq Hb Hpr Hst Hfresh Hd Hqs Htt Hnx. destruct (qi_chain _ _ Hi _ _ Hq) as [Hc Htl].
  assert (Htn : t ∉ Q p) by (intros H; apply Hfresh, elem_of_all_ready; eauto).
  assert (Htotal : u32 (kTotalReady m + 1) = kTotalReady m + 1).
  { apply wrap32_small. pose proof (qi_fresh_bound m Q t Hi (mk_is_Some _ _ Hb) Hfresh).
    pose proof (qi_total_bound _ _ Hi). lia. }
  eapply (queues_replace m); [done|done|exact Hd|by simpl; rewrite Hqs|..].
  - intros t' Hall Ht'. change (next_of m2 t' = next_of m t'). rewrite Hnx.
    rewrite !decide_False; [done|by intros ->|]. intros Hl%last_Some_elem_of. done.
  - simpl. change (chain (next_of m2) (match rq_head q with Some h => Some h | None => Some t end) (Q p ++ [t])).
    eapply eq_rect_r with (P := λ h, chain _ h _); [eapply (chain_snoc (next_of m)); [exact Hc|done|..]|by destruct (rq_head q)].
    + rewrite Hnx. rewrite decide_False, decide_True; [done|done|]. intros Hl%last_Some_elem_of. done.
    + intros y Hy. rewrite Hnx. case_decide; [done|]. rewrite decide_False; [done|]. by intros ->.
  - simpl. by rewrite last_snoc.
  - intros t' [Ht'|[->|[]%not_elem_of_nil]%elem_of_cons]%elem_of_app; [by eapply qi_mem|eauto].
  - simpl. rewrite Htt, Htotal, length_app. simpl. lia.
Qed.

Lemma queue_push_back_inv m Q p t b (R : () → machine PA → Prop) :
  queues_inv m Q → (p < QUEUES)%nat → kTcbPool m !! t = Some b →
  t_priority b = Z.of_nat p → t_state b = READY → t ∉ all_ready Q →
  (∀ m', queues_inv m' (<[p := Q p ++ [t]]> Q) → same_data m m' → R () m') →
  wp (queue_push_back (Z.of_nat p) t) R m.
Proof.
  intros Hi Hp Hb Hpr Hst Hfresh HR. unfold queue_push_back.
  rewrite (proj2 (Z.leb_gt _ _)) by lia. rewrite Nat2Z.id.
  destruct (qi_queue _ _ _ Hi Hp) as [q Hq]. destruct (qi_chain _ _ Hi _ _ Hq) as [Hc Htl].
  assert (Htn : t ∉ Q p) by (intros H; apply Hfresh, elem_of_all_ready; eauto).
  wp_run. eapply wp_write_tcb; [done|]. wp_run. eapply wp_read_queue; [done|]. wp_run.
  set (m1 := set_kTcbPool _ m).
  assert (Hlen : (length (kReadyQueues m) = QUEUES)) by apply Hi.
  pose proof (λ m2, queue_append m m2 Q p q t b Hi Hp Hq Hb Hpr Hst Hfresh) as Hfin.
  destruct (rq_tail q) as [z|] eqn:Ez.
  - assert (Hz : z ∈ Q p) by (apply last_Some_elem_of; congruence).
    assert (Hzt : z ≠ t) by by intros ->.
    destruct (qi_mem _ _ Hi p z Hp Hz) as (bz & Hbz & _).
    eapply wp_write_tcb; [simpl; rewrite lookup_insert_ne by done; exact Hbz|]. wp_run.
    eapply wp_read_queue; [exact Hq|]. wp_run. eapply wp_write_queue; [exact Hq|]. wp_run.
    assert (Hh : ∃ h, rq_head q = Some h).
    { apply (lseg_head (next_of m)) in Hc. rewrite <-Hc. destruct (Q p); [set_solver|eauto]. }
    destruct Hh as [h Hh]. set (m2 := set_kTcbPool _ m1).
    assert (Hd2 : same_data m m2).
    { eapply (same_data_trans m m1); [by apply same_data_link|]. apply (same_data_link m1).
      simpl. by rewrite lookup_insert_ne. }
    apply HR; [|exact Hd2]. specialize (Hfin m2 Hd2 eq_refl eq_refl). rewrite Hh in *. apply Hfin.
    intros t'. unfold m2. rewrite next_of_link. unfold m1. rewrite next_of_link.
    rewrite <-Htl. destruct (decide (t' = z)) as [->|]; [by rewrite decide_True|].
    by rewrite (decide_False (P := Some z = Some t')) by congruence.
  - eapply wp_write_queue; [exact Hq|]. wp_run. simpl.
    eapply wp_read_queue; [simpl; apply list_lookup_insert_eq; by rewrite Hlen|]. wp_run.
    eapply wp_write_queue; [simpl; apply list_lookup_insert_eq; by rewrite Hlen|]. wp_run.
    assert (Hd1 : same_data m m1) by by apply same_data_link.
    apply HR; [|exact Hd1]. simpl. rewrite list_insert_insert_eq.
    assert (HQ : Q p = []) by (symmetry in Htl; by apply last_None in Htl).
    assert (Hh : rq_head q = None) by (apply (lseg_head (next_of m)) in Hc; by rewrite HQ in Hc).
    specialize (Hfin m1 Hd1 eq_refl eq_refl). rewrite Hh in *. apply Hfin.
    intros t'. unfold m1. rewrite next_of_link, <-Htl. by rewrite (decide_False (P := None = Some t')).
Qed.

(** Unlinking [t] from [Q p = l1 ++ t :: l2], however the links were written. *)
Lemma queue_unlink m m' Q p l1 t l2 q :
  queues_inv m Q → (p < QUEUES)%nat → Q p = l1 ++ t :: l2 → kReadyQueues m !! p = Some q →
  same_data m m' → kTotalReady m' = u32 (kTotalReady m - 1) →
  kReadyQueues m' = <[p := mkReadyQueue
      (match last l1 with Some _ => rq_head q | None => next_of m t end)
      (match next_of m t with Some _ => rq_tail q | None => last l1 end)]> (kReadyQueues m) →
  (∀ t', t' ≠ t → next_of m' t' = if decide (last l1 = Some t') then next_of m t else next_of m t') →
  queues_inv m' (<[p := l1 ++ l2]> Q).
Proof.
  intros Hi Hp HQ Hq Hd Htot Hqs Hn. destruct (qi_chain _ _ Hi _ _ Hq) as [Hc Htl].
  pose proof (qi_nodup _ _ _ Hi Hp) as Hnd. rewrite HQ in Hc, Htl, Hnd.
  assert (Ht : t ∉ l1 ++ l2) by (rewrite <-Permutation_middle in Hnd; by apply NoDup_cons in Hnd as [? _]).
  eapply (queues_replace m); [done|done|done|exact Hqs|..]; simpl.
  - intros t' _ Ht'. rewrite HQ in Ht'. rewrite Hn by set_solver. rewrite decide_False; [done|].
    intros Hl%last_Some_elem_of. set_solver.
  - eapply chain_remove; [exact Hc|]. intros y Hy. apply Hn. by intros ->.
  - rewrite (chain_next _ _ _ _ _ Hc). destruct l2 as [|z l2]; simpl.
    + by rewrite app_nil_r.
    + rewrite Htl, !last_app. done.
  - intros t' Ht'. eapply qi_mem; [done|done|]. rewrite HQ. set_solver.
  - pose proof (qi_total_bound _ _ Hi). pose proof (qi_total _ _ Hi) as Ht2.
    assert (1 ≤ length (all_ready Q))%nat.
    { assert (Hin : t ∈ all_ready Q) by (apply elem_of_all_ready; exists p; rewrite HQ; set_solver).
      destruct (all_ready Q); [set_solver|simpl; lia]. }
    rewrite Htot, wrap32_small by lia. rewrite HQ, !length_app. simpl. lia.
Qed.

Lemma queue_pop_front_inv m Q p (R : option Z → machine PA → Prop) :
  queues_inv m Q → (p < QUEUES)%nat →
  (Q p = [] → R None m) →
  (∀ t l m', Q p = t :: l → queues_inv m' (<[p := l]> Q) → same_data m m' → R (Some t) m') →
  wp (queue_pop_front p) R m.
Proof.
  intros Hi Hp H0 H1. destruct (qi_queue _ _ _ Hi Hp) as [q Hq].
  destruct (qi_chain _ _ Hi _ _ Hq) as [Hc Htl]. unfold queue_pop_front. wp_run.
  eapply wp_read_queue; [done|]. destruct (Q p) as [|t l] eqn:HQ.
  { apply (lseg_head (next_of m)) in Hc. simpl in Hc. rewrite <-Hc. apply wp_ret. auto. }
  destruct Hc as [Hh Hc]. rewrite Hh.
  destruct (qi_mem _ _ Hi p t Hp) as (b & Hb & _); [rewrite HQ; set_solver|].
  assert (Hnt : next_of m t = t_next b) by (unfold next_of; by rewrite Hb).
  wp_run. eapply wp_read_tcb; [done|]. wp_run. eapply wp_write_queue; [done|]. wp_run.
  eapply wp_write_tcb; [done|]. wp_run.
  assert (Hd : ∀ qs n, same_data m (set_kTotalReady n (set_kTcbPool (<[t := set_t_next None b]> (kTcbPool m)) (set_kReadyQueues qs m)))).
  { intros qs n. by apply (same_data_link m). }
  eapply H1; [done| |apply Hd].
  apply (queue_unlink m _ Q p [] t l q); [done|done|done|done|apply Hd|done|..].
  - simpl. rewrite Hnt. by destruct (t_next b).
  - intros t' Ht'. unfold next_of. simpl. by rewrite lookup_insert_ne.
Qed.

End inv.
