(* ===== verification/SchedPick.v ===== *)
(** * Choosing the next thread

    An abstract scheduler on lists, and the proof that the pointer code of
    [pick_next] implements it. *)

From S2P Require Import Prelude LinkedList Pmm PmmBlocks PageAlloc Thread Sched SchedInv.
Open Scope Z_scope.

(** ** The abstract scheduler *)

(** [D t] is the absolute deadline of [t] when its policy is [DL]. *)
Definition dl_step (D : Z → option Z) (best : Z * option Z) (t : Z) : Z * option Z :=
  match D t with
  | Some d => if d <? best.1 then (d, Some t) else best
  | None => best
  end.

Definition dl_best (D : Z → option Z) (l : list Z) : Z * option Z :=
  foldl (dl_step D) (2 ^ 64 - 1, None) l.

Definition pick_order : list nat := rt_order ++ normal_order.

Definition abs_pick (D : Z → option Z) (Q : nat → list Z) : option Z * (nat → list Z) :=
  match (dl_best D (all_ready Q)).2 with
  | Some t => (Some t, λ p, filter (λ t', t' ≠ t) (Q p))
  | None =>
    match list_find (λ p, Q p ≠ []) pick_order with
    | Some (_, p) => (list.head (Q p), <[p := list.tail (Q p)]> Q)
    | None => (None, Q)
    end
  end.

(** One scheduling decision: the running thread goes to the back of its queue,
    then a thread is picked; [idle] when there is none. *)
Definition abs_schedule (D : Z → option Z) (prio : Z → nat) (idle : Z)
    (cur : Z) (running : bool) (Q : nat → list Z) : Z * (nat → list Z) :=
  let Q1 := if running then <[prio cur := Q (prio cur) ++ [cur]]> Q else Q in
  let '(t, Q2) := abs_pick D Q1 in
  (default idle t, Q2).

(** What the deadline scan finds: a thread of least deadline, the first one
    scanned; none when no thread has a deadline below the initial bound. *)
Lemma dl_fold_spec D l best :
  let r := foldl (dl_step D) best l in
  (r = best ∧ ∀ t d, t ∈ l → D t = Some d → best.1 ≤ d) ∨
  (∃ l1 t l2 d, l = l1 ++ t :: l2 ∧ r = (d, Some t) ∧ D t = Some d ∧ d < best.1 ∧
     (∀ t' d', t' ∈ l1 → D t' = Some d' → d < d') ∧ (∀ t' d', t' ∈ l2 → D t' = Some d' → d ≤ d')).
Proof.
  revert best; induction l as [|t l IH]; intros best; cbv zeta in *; cbn [foldl].
  { left. split; [done|]. intros ?? []%not_elem_of_nil. }
  destruct (D t) as [d|] eqn:Ed.
  - assert (Es : dl_step D best t = if d <? best.1 then (d, Some t) else best) by (unfold dl_step; by rewrite Ed).
    rewrite Es. destruct (Z.ltb_spec d best.1).
    + destruct (IH (d, Some t)) as [[-> Hle]|(l1 & t1 & l2 & d1 & -> & -> & Hd & Hlt & H1 & H2)].
      * right. exists [], t, l, d. simpl in *. split_and!; try done. intros ?? []%not_elem_of_nil.
      * right. exists (t :: l1), t1, l2, d1. simpl in *. split_and!; try done; [lia|].
        intros t' d' [->|Ht']%elem_of_cons Hd'; [|by eapply H1]. simplify_eq. done.
    + destruct (IH best) as [[-> Hle]|(l1 & t1 & l2 & d1 & -> & -> & Hd & Hlt & H1 & H2)].
      * left. split; [done|]. intros t' d' [->|Ht']%elem_of_cons Hd'; [by simplify_eq|by eapply Hle].
      * right. exists (t :: l1), t1, l2, d1. split_and!; try done.
        intros t' d' [->|Ht']%elem_of_cons Hd'; [simplify_eq; lia|by eapply H1].
  - assert (Es : dl_step D best t = best) by (unfold dl_step; by rewrite Ed). rewrite Es.
    destruct (IH best) as [[-> Hle]|(l1 & t1 & l2 & d1 & -> & -> & Hd & Hlt & H1 & H2)].
    + left. split; [done|]. intros t' d' [->|Ht']%elem_of_cons Hd'; [by simplify_eq|by eapply Hle].
    + right. exists (t :: l1), t1, l2, d1. split_and!; try done.
      intros t' d' [->|Ht']%elem_of_cons Hd'; [by simplify_eq|by eapply H1].
Qed.

Lemma dl_best_elem D l t : (dl_best D l).2 = Some t → t ∈ l.
Proof.
  unfold dl_best. destruct (dl_fold_spec D l (2 ^ 64 - 1, None)) as [[-> _]|(l1 & t1 & l2 & d & -> & -> & _)];
    [done|]. simpl. intros [= ->]. set_solver.
Qed.

Lemma elem_of_pick_order p : p ∈ pick_order ↔ (p < QUEUES)%nat.
Proof.
  unfold pick_order, rt_order, normal_order, QUEUES. rewrite elem_of_app, elem_of_reverse, !elem_of_seq. lia.
Qed.

Section pick.
Context {PA : Type}.
Implicit Types (m : machine PA) (Q : nat → list Z) (t : Z) (p : nat) (b : ThreadControlBlock).

Definition deadline_of m t : option Z :=
  kTcbPool m !! t ≫= λ b, if decide (t_policy b = DL) then Some (t_abs_deadline b) else None.
Definition prio_of m t : nat := Z.to_nat (default 0 (t_priority <$> kTcbPool m !! t)).

Lemma deadline_of_same m m' t : same_data m m' → deadline_of m' t = deadline_of m t.
Proof.
  intros [_ Hd]. specialize (Hd t). unfold deadline_of.
  destruct (kTcbPool m' !! t) as [b'|], (kTcbPool m !! t) as [b|]; try done.
  apply (inj Some), tcb_data_fields in Hd as (_ & _ & E1 & E2 & _). simpl. by rewrite E1, E2.
Qed.

Lemma queues_inv_ext m Q Q' : (∀ p, (p < QUEUES)%nat → Q' p = Q p) → queues_inv m Q → queues_inv m Q'.
Proof.
  intros HE Hi. split; [apply Hi|apply Hi|..].
  - intros p q Hq. rewrite HE; [by apply Hi|]. rewrite <-(qi_len _ _ Hi). by eapply lookup_lt_Some.
  - intros p t Hp. rewrite HE by done. by apply Hi.
  - rewrite (qi_total _ _ Hi). unfold all_ready. do 2 f_equal. apply Forall_bind_ext, Forall_forall.
    intros p Hp%elem_of_seq. symmetry. apply HE. lia.
Qed.

(** ** The deadline scan *)

Lemma dl_scan_queue_inv m Q p l h fuel best (R : _ → machine PA → Prop) :
  queues_inv m Q → (p < QUEUES)%nat → chain (next_of m) h l → (∀ t, t ∈ l → t ∈ Q p) →
  (length l ≤ fuel)%nat → R (foldl (dl_step (deadline_of m)) best l) m →
  wp (dl_scan_queue fuel h best) R m.
Proof.
  intros Hi Hp. revert l h best. induction fuel as [|fuel IH]; intros [|t l] h best Hc Hl Hf HR.
  - apply (lseg_head (next_of m)) in Hc as <-. by apply wp_ret.
  - simpl in Hf. lia.
  - apply (lseg_head (next_of m)) in Hc as <-. by apply wp_ret.
  - destruct Hc as [-> Hc]. destruct (qi_mem _ _ Hi p t Hp) as (b & Hb & _); [apply Hl; set_solver|].
    cbn [dl_scan_queue]. wp_run. eapply wp_read_tcb; [done|].
    eapply (IH l); [by unfold next_of in Hc; rewrite Hb in Hc|set_solver|simpl in Hf; lia|].
    cbn [foldl] in HR. unfold dl_step at 2 in HR. unfold deadline_of at 2 in HR. rewrite Hb in HR. simpl in HR.
    case_bool_decide as Epol; [|by rewrite decide_False in HR].
    rewrite decide_True in HR by done. simpl. by destruct (_ <? _).
Qed.

Lemma dl_scan_inv m Q n p best (R : _ → machine PA → Prop) :
  queues_inv m Q → (p + n ≤ QUEUES)%nat →
  R (foldl (dl_step (deadline_of m)) best (seq p n ≫= Q)) m → wp (dl_scan n p best) R m.
Proof.
  intros Hi. revert p best. induction n as [|n IH]; intros p best Hp HR; cbn [dl_scan].
  { by apply wp_ret. }
  destruct (qi_queue m Q p Hi) as [q Hq]; [lia|]. wp_run. eapply wp_read_queue; [done|].
  destruct (qi_chain _ _ Hi _ _ Hq) as [Hc _]. wp_run.
  eapply dl_scan_queue_inv; [exact Hi| |exact Hc|done|eapply qi_queue_bound; [done|]|]; [lia|lia|].
  apply IH; [lia|]. cbn [seq] in HR. by rewrite bind_cons, foldl_app in HR.
Qed.

(** ** Unlinking from the middle *)

Lemma find_prev_inv m Q p l0 l1 t l2 fuel h (R : _ → machine PA → Prop) :
  queues_inv m Q → (p < QUEUES)%nat → Q p = l0 ++ l1 ++ t :: l2 →
  chain (next_of m) h (l1 ++ t :: l2) → (length l1 ≤ fuel)%nat → t ∉ l1 →
  R (last (l0 ++ l1)) m → wp (find_prev fuel (last l0) h t) R m.
Proof.
  intros Hi Hp. revert l0 l1 h; induction fuel as [|fuel IH]; intros l0 [|x l1] h HQ Hc Hf Ht HR;
    simpl in Hf; cbn [find_prev]; destruct Hc as [-> Hc].
  - rewrite decide_True by done. apply wp_ret. by rewrite app_nil_r in HR.
  - lia.
  - rewrite decide_True by done. apply wp_ret. by rewrite app_nil_r in HR.
  - rewrite decide_False by set_solver. wp_run. unfold the. wp_run.
    destruct (qi_mem _ _ Hi p x Hp) as (b & Hb & _); [rewrite HQ; set_solver|].
    eapply wp_read_tcb; [done|]. replace (Some x) with (last (l0 ++ [x])) by by rewrite last_snoc.
    eapply (IH _ l1); [by rewrite HQ, <-app_assoc| |lia|set_solver|by rewrite <-app_assoc].
    unfold next_of in Hc. by rewrite Hb in Hc.
Qed.

(** Redirecting the predecessor of [t], or the head of its queue, past it. *)
Lemma redirect_prev m Q p q l1 t l2 b (R : () → machine PA → Prop) :
  queues_inv m Q → (p < QUEUES)%nat → Q p = l1 ++ t :: l2 → t ∉ l1 ++ l2 →
  kTcbPool m !! t = Some b → kReadyQueues m !! p = Some q →
  (∀ m1, kTcbPool m1 !! t = Some b → same_data m m1 → kTotalReady m1 = kTotalReady m →
     kReadyQueues m1 = <[p := mkReadyQueue (match last l1 with Some _ => rq_head q | None => t_next b end) (rq_tail q)]> (kReadyQueues m) →
     (∀ t', t' ≠ t → next_of m1 t' = if decide (last l1 = Some t') then t_next b else next_of m t') → R () m1) →
  wp (match last l1 with
      | Some z => write_tcb z (set_t_next (t_next b))
      | None => write_queue p (mkReadyQueue (t_next b) (rq_tail q))
      end) R m.
Proof.
  intros Hi Hp HQ Ht Hb Hq HR. destruct (last l1) as [z|] eqn:El.
  - assert (Hz : z ∈ l1) by by apply last_Some_elem_of. assert (z ≠ t) by set_solver.
    destruct (qi_mem _ _ Hi p z Hp) as (bz & Hbz & _); [rewrite HQ; set_solver|].
    eapply wp_write_tcb; [done|]. apply HR; simpl; [by rewrite lookup_insert_ne|by apply same_data_link|done| |].
    + rewrite list_insert_id; [done|]. by destruct q.
    + intros t' _. rewrite next_of_link. destruct (decide (t' = z)) as [->|]; [by rewrite decide_True|].
      by rewrite decide_False by congruence.
  - eapply wp_write_queue; [done|]. apply HR; try done.
Qed.

Lemma queue_remove_inv m Q p l1 t l2 (R : () → machine PA → Prop) :
  queues_inv m Q → (p < QUEUES)%nat → Q p = l1 ++ t :: l2 →
  (∀ m', queues_inv m' (<[p := l1 ++ l2]> Q) → same_data m m' → R () m') →
  wp (queue_remove t) R m.
Proof.
  intros Hi Hp HQ HR. destruct (qi_mem _ _ Hi p t Hp) as (b & Hb & Hpr & _); [rewrite HQ; set_solver|].
  destruct (qi_queue _ _ _ Hi Hp) as [q Hq]. destruct (qi_chain _ _ Hi _ _ Hq) as [Hc Htl].
  pose proof (qi_nodup _ _ _ Hi Hp) as Hnd. rewrite HQ in Hnd, Hc.
  assert (Ht : t ∉ l1 ++ l2) by (rewrite <-Permutation_middle in Hnd; by apply NoDup_cons in Hnd as [? _]).
  assert (Hnt : next_of m t = t_next b) by (unfold next_of; by rewrite Hb).
  assert (Hlen : length (kReadyQueues m) = QUEUES) by apply Hi.
  unfold queue_remove. wp_run. eapply wp_read_tcb; [done|]. rewrite Hpr, Nat2Z.id. wp_run.
  eapply wp_read_queue; [done|]. wp_run.
  apply (find_prev_inv m Q p [] l1 t l2); [done|done|done|done| |set_solver|].
  { pose proof (qi_queue_bound _ _ _ Hi Hp) as Hlb. rewrite HQ, length_app in Hlb. simpl in Hlb. lia. }
  simpl. wp_run. eapply wp_read_tcb; [done|]. wp_run.
  apply (redirect_prev m Q p q l1 t l2 b); try done. intros m1 Ht1 Hd1 Htot1 Hqs1 Hn1.
  wp_run. eapply wp_read_tcb; [exact Ht1|]. wp_run.
  assert (Hq1 : kReadyQueues m1 !! p = Some (mkReadyQueue (match last l1 with Some _ => rq_head q | None => t_next b end) (rq_tail q))).
  { rewrite Hqs1. apply list_lookup_insert_eq. by rewrite Hlen. }
  assert (Hfin : ∀ m2, kTcbPool m2 = kTcbPool m1 → same_data m m2 → kTotalReady m2 = kTotalReady m →
     kReadyQueues m2 = <[p := mkReadyQueue (match last l1 with Some _ => rq_head q | None => t_next b end)
        (match t_next b with Some _ => rq_tail q | None => last l1 end)]> (kReadyQueues m) →
     wp (write_tcb t (set_t_next None);; modify (λ m, set_kTotalReady (u32 (kTotalReady m - 1)) m)) R m2).
  { intros m2 Hp2 Hd2 Htot2 Hqs2. wp_run. eapply wp_write_tcb; [rewrite Hp2; exact Ht1|]. wp_run.
    assert (Hd3 : same_data m (set_kTcbPool (<[t := set_t_next None b]> (kTcbPool m2)) m2)).
    { eapply same_data_trans; [exact Hd2|]. apply same_data_link. by rewrite Hp2. }
    apply HR; [|exact Hd3]. apply (queue_unlink m _ Q p l1 t l2 q); [done|done|done|done|exact Hd3| |..].
    - simpl. by rewrite Htot2.
    - simpl. by rewrite Hqs2, Hnt.
    - intros t' Hne. change (next_of (set_kTcbPool (<[t := set_t_next None b]> (kTcbPool m2)) m2) t' =
        if decide (last l1 = Some t') then next_of m t else next_of m t').
      rewrite next_of_link, decide_False by done. rewrite Hnt, <-Hn1 by done. unfold next_of. by rewrite Hp2. }
  destruct (t_next b) eqn:En.
  - apply wp_ret. apply Hfin; done.
  - wp_run. eapply wp_read_queue; [exact Hq1|]. eapply wp_write_queue; [exact Hq1|].
    apply Hfin; [done|exact Hd1|done|]. simpl. by rewrite Hqs1, list_insert_insert_eq.
Qed.

(** ** The priority scan *)

Lemma pop_first_inv m Q ps (R : option Z → machine PA → Prop) :
  queues_inv m Q → (∀ p, p ∈ ps → (p < QUEUES)%nat) →
  (list_find (λ p, Q p ≠ []) ps = None → R None m) →
  (∀ i p t l m', list_find (λ p, Q p ≠ []) ps = Some (i, p) → Q p = t :: l →
     queues_inv m' (<[p := l]> Q) → same_data m m' → R (Some t) m') →
  wp (pop_first ps) R m.
Proof.
  intros Hi. induction ps as [|p ps IH]; intros Hps H0 H1; cbn [pop_first].
  { apply wp_ret. by apply H0. }
  wp_run. eapply queue_pop_front_inv; [exact Hi|apply Hps; set_solver|..].
  - intros HQ. cbn [list_find] in *. rewrite decide_False in H0, H1 by (by rewrite HQ; auto).
    apply IH; [set_solver| |].
    + intros Hn. apply H0. by rewrite Hn.
    + intros i q t l m' Hf. eapply (H1 (S i)). by rewrite Hf.
  - intros t l m' HQ Hi' Hd. apply wp_ret. eapply (H1 0%nat); [|exact HQ|done|done].
    cbn [list_find]. by rewrite decide_True by by rewrite HQ.
Qed.

Lemma abs_pick_deadline Q p l1 t l2 m :
  queues_inv m Q → (p < QUEUES)%nat → Q p = l1 ++ t :: l2 →
  ∀ o, (o < QUEUES)%nat → filter (λ t', t' ≠ t) (Q o) = (<[p := l1 ++ l2]> Q) o.
Proof.
  intros Hi Hp HQ o Ho. assert (Hid : ∀ l : list Z, t ∉ l → filter (λ t', t' ≠ t) l = l).
  { induction l as [|x l IHl]; intros Hx; [done|]. rewrite filter_cons_True by set_solver.
    rewrite IHl; [done|set_solver]. }
  destruct (decide (o = p)) as [->|Hne].
  - rewrite fn_lookup_insert, HQ. pose proof (qi_nodup _ _ _ Hi Hp) as Hnd. rewrite HQ in Hnd.
    rewrite <-Permutation_middle in Hnd. apply NoDup_cons in Hnd as [Ht _].
    rewrite filter_app, filter_cons_False by auto. rewrite !Hid by set_solver. done.
  - rewrite fn_lookup_insert_ne by done. apply Hid. intros Ht. apply Hne.
    eapply (qi_unique m Q o p t); [done..|]. rewrite HQ. set_solver.
Qed.

Lemma pick_next_inv m Q (R : option Z → machine PA → Prop) :
  queues_inv m Q →
  (∀ m', queues_inv m' (abs_pick (deadline_of m) Q).2 → same_data m m' →
     R (abs_pick (deadline_of m) Q).1 m') →
  wp pick_next R m.
Proof.
  intros Hi HR. unfold pick_next. wp_run. eapply dl_scan_inv; [exact Hi|done|].
  change (foldl _ _ _) with (dl_best (deadline_of m) (all_ready Q)).
  unfold abs_pick in HR. destruct (dl_best (deadline_of m) (all_ready Q)).2 as [t|] eqn:Eb.
  - pose proof (dl_best_elem _ _ _ Eb) as (p & Hp & Ht)%elem_of_all_ready.
    apply list_elem_of_split in Ht as (l1 & l2 & HQ). wp_run.
    eapply queue_remove_inv; [done|done|exact HQ|]. intros m' Hi' Hd. wp_run. apply HR; [|done].
    eapply queues_inv_ext, Hi'. intros o Ho. by eapply abs_pick_deadline.
  - assert (Hord : wp (pop_first pick_order) R m).
    { eapply pop_first_inv; [exact Hi|intros p; by rewrite elem_of_pick_order|..].
      - intros Hn. rewrite Hn in HR. by apply HR.
      - intros i p t l m' Hf HQ Hi' Hd. rewrite Hf in HR. simpl in HR. rewrite HQ in HR. by apply HR. }
    assert (Happ : ∀ ps qs, pop_first (ps ++ qs) m =
       (n ← pop_first ps; match n with Some _ => mret n | None => pop_first qs end) m).
    { intros ps qs. generalize m. induction ps as [|p ps IH]; intros m0; [done|]. cbn [app pop_first].
      unfold mbind, M_bind. destruct (queue_pop_front p m0) as [[[t|] m1]| |]; [done| |done..]. apply IH. }
    unfold wp in Hord |- *. unfold pick_order in Hord. by rewrite Happ in Hord.
Qed.

End pick.
