(* ===== verification/Switch.v ===== *)
(** * The context switch and thread creation

    [context_switch] as a function on the register file and the stacks, and
    what [kthread_create] leaves for the first switch to a new thread. *)

From S2P Require Import Prelude LinkedList Pmm PmmBlocks PageAlloc Thread Sched SchedInv.
Open Scope Z_scope.

(** The stack after the six pushes of [context_switch]. *)
Definition save_stack (c : Cpu) (st : Z → Z) : Z → Z :=
  <[rsp c - 48 := r15 c]> (<[rsp c - 40 := r14 c]> (<[rsp c - 32 := r13 c]>
  (<[rsp c - 24 := r12 c]> (<[rsp c - 16 := rbp c]> (<[rsp c - 8 := rbx c]> st))))).

(** The registers popped from a saved frame at [sp], and the return address. *)
Definition load_frame (st : Z → Z) (sp : Z) : Cpu :=
  mkCpu (st (sp + 40)) (st (sp + 32)) (st (sp + 24)) (st (sp + 16)) (st (sp + 8)) (st sp)
    (sp + 56) (st (sp + 48)).

Definition stack_ok (sp : Z) : Prop := 48 ≤ sp < 2 ^ 64.
Definition frame_ok (sp : Z) : Prop := 0 ≤ sp < 2 ^ 64 - 56.

Ltac machine_simpl :=
  cbn [m_cpu set_m_cpu m_stack set_m_stack kTcbPool set_kTcbPool set_rsp rsp rbx rbp r12 r13 r14 r15 rip].

Section switch.
Context {PA : Type}.
Implicit Types (m : machine PA) (b : ThreadControlBlock).

Definition saved_context (sp : Z) (b : ThreadControlBlock) : ThreadControlBlock :=
  set_t_context (set_ctx_rsp sp (t_context b)) b.

(** The machine after [context_switch old new]. *)
Definition switched (old new : Z) (bo bn : ThreadControlBlock) m : machine PA :=
  let c := m_cpu m in
  let st := save_stack c (m_stack m) in
  set_m_cpu (load_frame st (ctx_rsp (t_context bn)))
    (set_m_stack st (set_kTcbPool (<[old := saved_context (rsp c - 48) bo]> (kTcbPool m)) m)).

Lemma wp_store_down sp v (R : Z → machine PA → Prop) m :
  8 ≤ sp < 2 ^ 64 → R (sp - 8) (set_m_stack (<[sp - 8 := v]> (m_stack m)) m) → wp (store_down sp v) R m.
Proof. intros Hr HR. unfold store_down. rewrite wrap_small by lia. wp_run. done. Qed.

Lemma wp_push v (R : () → machine PA → Prop) m :
  8 ≤ rsp (m_cpu m) < 2 ^ 64 →
  R () (set_m_cpu (set_rsp (rsp (m_cpu m) - 8) (m_cpu m))
         (set_m_stack (<[rsp (m_cpu m) - 8 := v]> (m_stack m)) m)) →
  wp (push v) R m.
Proof.
  intros Hr HR. unfold push. wp_run. apply wp_store_down; [lia|]. by wp_run.
Qed.

Lemma wp_pop (R : Z → machine PA → Prop) m :
  0 ≤ rsp (m_cpu m) < 2 ^ 64 - 8 →
  R (m_stack m (rsp (m_cpu m))) (set_m_cpu (set_rsp (rsp (m_cpu m) + 8) (m_cpu m)) m) → wp pop R m.
Proof. intros Hr HR. unfold pop. wp_run. simpl. rewrite wrap_small by lia. done. Qed.

Lemma context_switch_wp old new bo bn m (R : () → machine PA → Prop) :
  kTcbPool m !! old = Some bo → kTcbPool m !! new = Some bn → old ≠ new →
  stack_ok (rsp (m_cpu m)) → frame_ok (ctx_rsp (t_context bn)) →
  R () (switched old new bo bn m) → wp (context_switch old new) R m.
Proof.
  intros Ho Hn Hne Hs Hf HR. unfold stack_ok, frame_ok in *. unfold context_switch. wp_run.
  set (sp := ctx_rsp (t_context bn)) in *.
  do 6 (apply wp_push; [machine_simpl; lia|]; wp_run; machine_simpl).
  eapply wp_write_tcb; [exact Ho|]. wp_run. machine_simpl.
  eapply wp_read_tcb; [machine_simpl; rewrite lookup_insert_ne by done; exact Hn|]. wp_run. machine_simpl.
  fold sp. do 7 (apply wp_pop; [machine_simpl; lia|]; wp_run; machine_simpl).
  rewrite <-!Z.sub_add_distr, <-!Z.add_assoc. exact HR.
Qed.

(** A call of [context_switch] from code at the return address [ra]: what it
    changes, field by field. *)
Lemma call_switch_wp ra old new bo bn m (R : () → machine PA → Prop) :
  kTcbPool m !! old = Some bo → kTcbPool m !! new = Some bn → old ≠ new →
  56 ≤ rsp (m_cpu m) < 2 ^ 64 → frame_ok (ctx_rsp (t_context bn)) →
  (∀ m', kTcbPool m' = <[old := saved_context (rsp (m_cpu m) - 56) bo]> (kTcbPool m) →
     kReadyQueues m' = kReadyQueues m → kTotalReady m' = kTotalReady m →
     kCurrentThread m' = kCurrentThread m → kIdleThread m' = kIdleThread m → m_other m' = m_other m →
     m_stack m' = save_stack (set_rsp (rsp (m_cpu m) - 8) (m_cpu m)) (<[rsp (m_cpu m) - 8 := ra]> (m_stack m)) →
     m_cpu m' = load_frame (m_stack m') (ctx_rsp (t_context bn)) → R () m') →
  wp (push ra;; context_switch old new) R m.
Proof.
  intros Ho Hn Hne Hs Hf HR. wp_run. apply wp_push; [lia|].
  eapply (context_switch_wp old new bo bn); [exact Ho|exact Hn|done|unfold stack_ok; machine_simpl; lia|done|].
  apply HR; try reflexivity. unfold switched. machine_simpl. by rewrite <-Z.sub_add_distr.
Qed.

(** A frame that no push overwrites is read back as it was saved. *)
Definition apart (sp0 sp : Z) : Prop := sp0 ≤ sp ∨ sp + 56 ≤ sp0 - 48.

Lemma save_stack_apart c st sp x : apart (rsp c) sp → sp ≤ x < sp + 56 → save_stack c st x = st x.
Proof. intros Ha Hx. unfold apart, save_stack in *. rewrite !fn_lookup_insert_ne by lia. done. Qed.

Lemma load_frame_apart c st sp : apart (rsp c) sp → load_frame (save_stack c st) sp = load_frame st sp.
Proof. intros Ha. unfold load_frame. rewrite !(save_stack_apart c st sp) by (done || lia). done. Qed.

(** The frame the pushes build holds the registers and the return address. *)
Lemma load_save_stack c st :
  load_frame (save_stack c st) (rsp c - 48) =
  mkCpu (rbx c) (rbp c) (r12 c) (r13 c) (r14 c) (r15 c) (rsp c + 8) (st (rsp c)).
Proof.
  unfold load_frame, save_stack. replace (rsp c - 48 + 48) with (rsp c) by lia.
  f_equal; try lia; unfold insert, fn_insert; repeat case_decide; lia || done.
Qed.

Lemma load_frame_ext st st' sp : (∀ x, sp ≤ x < sp + 56 → st' x = st x) → load_frame st' sp = load_frame st sp.
Proof. intros H. unfold load_frame. rewrite !H by lia. done. Qed.

End switch.

(** ** Thread creation *)

Section create.
Context {PA : Type} `{!PageAllocator PA} (lay : code_layout).
Implicit Types (m : machine PA).

(** The stack [kthread_create] prepares below [top]. *)
Definition initial_stack (top func : Z) (st : Z → Z) : Z → Z :=
  <[top - 56 := 0]> (<[top - 48 := 0]> (<[top - 40 := func]> (<[top - 32 := 0]> (<[top - 24 := 0]>
  (<[top - 16 := 0]> (<[top - 8 := thread_trampoline_addr lay]> st)))))).

Definition new_tcb (id : Z) (name : string) (priority stack_phys sp : Z) : ThreadControlBlock :=
  mkTcb (set_ctx_rsp sp zero_context) stack_phys KTHREAD_STACK_PAGES READY FIFO priority 0 0 0 0 0 id name None None.

Lemma push_initial_frame_wp top func m (R : Z → machine PA → Prop) :
  56 ≤ top < 2 ^ 64 → R (top - 56) (set_m_stack (initial_stack top func (m_stack m)) m) →
  wp (push_initial_frame lay top func) R m.
Proof.
  intros Ht HR. unfold push_initial_frame. repeat (wp_run; apply wp_store_down; [lia|]).
  machine_simpl. rewrite <-!Z.sub_add_distr. exact HR.
Qed.

(** The machine after a successful [kthread_create]. *)
Definition created m (pa : PA) (func : Z) (name : string) (priority stack_phys : Z) : machine PA :=
  let top := stack_phys + pa_hhdm pa + KTHREAD_STACK_PAGES * PAGE_SIZE in
  let i := kNextTcbIndex m in
  set_m_stack (initial_stack top func (m_stack m))
    (set_kTcbPool (<[i := new_tcb (kNextThreadId m) name priority stack_phys (top - 56)]> (kTcbPool m))
    (set_kNextThreadId (u32 (kNextThreadId m + 1)) (set_kNextTcbIndex (i + 1) (set_m_pages pa m)))).

Lemma alloc_tcb_wp m (R : option Z → machine PA → Prop) :
  (kNextTcbIndex m < MAX_THREADS → is_Some (kTcbPool m !! kNextTcbIndex m)) → 0 ≤ kNextTcbIndex m →
  (MAX_THREADS ≤ kNextTcbIndex m → R None m) →
  (kNextTcbIndex m < MAX_THREADS →
   R (Some (kNextTcbIndex m))
     (set_kNextThreadId (u32 (kNextThreadId m + 1))
       (set_kTcbPool (<[kNextTcbIndex m := set_t_id (kNextThreadId m) zero_tcb]> (kTcbPool m))
         (set_kNextTcbIndex (kNextTcbIndex m + 1) m)))) →
  wp alloc_tcb R m.
Proof.
  intros Hin Hn H0 H1. unfold alloc_tcb. wp_run. case_if; [apply wp_ret; auto|]. destruct Hin as [b Hb]; [lia|].
  wp_run. eapply wp_write_tcb; [exact Hb|]. wp_run.
  eapply wp_write_tcb; [apply lookup_insert_eq|]. wp_run.
  rewrite (wrap_small 32 (kNextTcbIndex m + 1)) by (unfold MAX_THREADS in *; lia). machine_simpl.
  rewrite insert_insert_eq. apply H1. lia.
Qed.

Lemma kthread_create_nomem m func name priority pa :
  0 ≤ kNextTcbIndex m < MAX_THREADS → is_Some (kTcbPool m !! kNextTcbIndex m) →
  pa_alloc KTHREAD_STACK_PAGES (m_pages m) = Ok (0, pa) →
  kthread_create lay func name priority m = Panic "kthread_create: out of memory for stack".
Proof.
  intros Hi Hin Hr. assert (Ha : ∃ m', alloc_tcb m = Ok (Some (kNextTcbIndex m), m') ∧ m_pages m' = m_pages m).
  { pose proof (alloc_tcb_wp m (λ t m', t = Some (kNextTcbIndex m) ∧ m_pages m' = m_pages m)) as Hw.
    destruct (proj1 (wp_ok _ _ _) (Hw (λ _, Hin) ltac:(lia) ltac:(lia) (λ _, conj eq_refl eq_refl)))
      as (t & m' & E & -> & Epg). eauto. }
  destruct Ha as (m' & Ha & Epg). unfold kthread_create. rewrite (bind_ok _ _ _ _ _ Ha).
  assert (Hl : lift_pages (pa_alloc KTHREAD_STACK_PAGES) m' = Ok (0, set_m_pages pa m'))
    by (unfold lift_pages; by rewrite Epg, Hr).
  by rewrite (bind_ok _ _ _ _ _ Hl).
Qed.

Lemma stack_top_small hhdm phys :
  0 ≤ phys → 0 ≤ hhdm → phys + hhdm + KTHREAD_STACK_PAGES * PAGE_SIZE < 2 ^ 64 →
  stack_top hhdm phys KTHREAD_STACK_PAGES = phys + hhdm + KTHREAD_STACK_PAGES * PAGE_SIZE.
Proof.
  intros Hp Hh Hlt. unfold stack_top. change (u64 (KTHREAD_STACK_PAGES * PAGE_SIZE)) with 16384.
  change (KTHREAD_STACK_PAGES * PAGE_SIZE) with 16384 in *. rewrite (wrap_small 64 (phys + hhdm)) by lia.
  apply wrap_small. lia.
Qed.

Lemma kthread_create_run m func name priority r pa :
  0 ≤ kNextTcbIndex m < MAX_THREADS → is_Some (kTcbPool m !! kNextTcbIndex m) →
  pa_alloc KTHREAD_STACK_PAGES (m_pages m) = Ok (r, pa) →
  0 < r → 0 ≤ pa_hhdm pa → r + pa_hhdm pa + KTHREAD_STACK_PAGES * PAGE_SIZE < 2 ^ 64 →
  kthread_create lay func name priority m =
    Ok (Some (kNextTcbIndex m), created m pa func name priority r).
Proof.
  intros Hi Hin Hr Hr0 Hh Htop.
  assert (Hw : wp (kthread_create lay func name priority)
    (λ t m', t = Some (kNextTcbIndex m) ∧ m' = created m pa func name priority r) m).
  { unfold kthread_create. wp_run. apply alloc_tcb_wp; [done|lia|lia|]. intros _. wp_run.
    unfold wp at 1, lift_pages. cbn [m_pages set_kNextThreadId set_kTcbPool set_kNextTcbIndex].
    rewrite Hr. destruct (Z.eqb_spec r 0); [lia|]. wp_run.
    do 6 (eapply wp_write_tcb; [apply lookup_insert_eq|]; wp_run).
    cbn [m_pages set_m_pages set_kNextThreadId set_kTcbPool set_kNextTcbIndex].
    rewrite stack_top_small by lia. apply push_initial_frame_wp;
      [change (KTHREAD_STACK_PAGES * PAGE_SIZE) with 16384 in *; lia|].
    wp_run. eapply wp_write_tcb; [apply lookup_insert_eq|]. wp_run. split; [done|].
    unfold created. cbn [kTcbPool set_kTcbPool set_m_stack set_m_pages set_kNextThreadId set_kNextTcbIndex].
    rewrite !insert_insert_eq. reflexivity. }
  apply wp_ok in Hw as (t & m' & -> & -> & ->). done.
Qed.

End create.
