(* ===== verification/SchedRefine.v ===== *)
(** * The scheduler implements its abstract specification

    The scheduler's invariant, and the proof that [schedule] takes the decision
    of [abs_schedule], saves the outgoing thread and resumes the chosen one. *)

From S2P Require Import Prelude LinkedList Pmm PmmBlocks PageAlloc.
From S2P Require Import Thread Sched SchedInv SchedPick Switch.
Open Scope Z_scope.

Section sched_inv.
Context {PA : Type} `{!PageAllocator PA} (lay : code_layout).
Implicit Types (m : machine PA) (Q : nat → list Z) (t : Z) (b : ThreadControlBlock).

(** The scheduler's invariant: the queues, a current thread outside them, an
    idle thread, priorities in range, and stack pointers that can be used. *)
Record sched_inv m Q (cur idle : Z) : Prop := {
  si_queues : queues_inv m Q;
  si_current : kCurrentThread m = Some cur;
  si_idle : kIdleThread m = Some idle;
  si_cur_tcb : is_Some (kTcbPool m !! cur);
  si_idle_tcb : is_Some (kTcbPool m !! idle);
  si_fresh : cur ∉ all_ready Q;
  si_prio : ∀ t b, kTcbPool m !! t = Some b → 0 ≤ t_priority b < Z.of_nat QUEUES
}.

Definition running m t : bool := bool_decide (t_state <$> kTcbPool m !! t = Some RUNNING).

(** What scheduling leaves of a thread block. *)
Definition tcb_static b : ThreadControlBlock := set_t_state READY (set_t_context zero_context (set_t_next None b)).
Definition same_static m m' : Prop :=
  ∀ t, tcb_static <$> kTcbPool m' !! t = tcb_static <$> kTcbPool m !! t.

Lemma same_data_static m m' : same_data m m' → same_static m m'.
Proof.
  intros [_ Hd] t. specialize (Hd t). destruct (kTcbPool m' !! t), (kTcbPool m !! t); try done.
  apply (inj Some) in Hd. simpl. f_equal. unfold tcb_static. by f_equal; f_equal.
Qed.

Lemma same_static_write m t b g : kTcbPool m !! t = Some b → tcb_static (g b) = tcb_static b →
  same_static m (set_kTcbPool (<[t := g b]> (kTcbPool m)) m).
Proof.
  intros Hb Hg t'. simpl. destruct (decide (t' = t)) as [->|]; [|by rewrite lookup_insert_ne].
  rewrite lookup_insert_eq, Hb. simpl. by rewrite Hg.
Qed.

Lemma same_static_trans m1 m2 m3 : same_static m1 m2 → same_static m2 m3 → same_static m1 m3.
Proof. intros H1 H2 t. by rewrite H2, H1. Qed.

Lemma same_static_prio m m' : same_static m m' →
  (∀ t b, kTcbPool m !! t = Some b → 0 ≤ t_priority b < Z.of_nat QUEUES) →
  ∀ t b, kTcbPool m' !! t = Some b → 0 ≤ t_priority b < Z.of_nat QUEUES.
Proof.
  intros Hs Hp t b' Hb'. specialize (Hs t). rewrite Hb' in Hs.
  destruct (kTcbPool m !! t) as [b|] eqn:Hb; [|done]. specialize (Hp t b Hb).
  apply (inj Some) in Hs. destruct b, b'. injection Hs. intros. simpl in *. by subst.
Qed.

Definition same_context m m' : Prop :=
  ∀ t, t_context <$> kTcbPool m' !! t = t_context <$> kTcbPool m !! t.

Lemma same_data_context m m' : same_data m m' → same_context m m'.
Proof.
  intros [_ Hd] t. specialize (Hd t). destruct (kTcbPool m' !! t), (kTcbPool m !! t); try done.
  apply (inj Some), tcb_data_fields in Hd as (_ & _ & _ & _ & _ & _ & E). simpl. by rewrite E.
Qed.

(** Writes that keep the queue data of queued threads. *)
Lemma queues_inv_write m Q t b g : queues_inv m Q → kTcbPool m !! t = Some b →
  (t ∈ all_ready Q → t_next (g b) = t_next b ∧ t_priority (g b) = t_priority b ∧ t_state (g b) = t_state b) →
  queues_inv (set_kTcbPool (<[t := g b]> (kTcbPool m)) m) Q.
Proof.
  intros Hi Hb Hg. split; simpl; [apply Hi|..|apply Hi].
  - intros t'. rewrite <-(qi_dom _ _ Hi t'). destruct (decide (t' = t)) as [->|];
      [by rewrite lookup_insert_eq, Hb|by rewrite lookup_insert_ne].
  - intros p q Hq. destruct (qi_chain _ _ Hi _ _ Hq) as [Hc Htl]. split; [|done].
    assert (Hp : (p < QUEUES)%nat) by (rewrite <-(qi_len _ _ Hi); by eapply lookup_lt_Some).
    eapply lseg_ext, Hc. intros t' Ht'. unfold next_of. simpl.
    destruct (decide (t' = t)) as [->|]; [|by rewrite lookup_insert_ne].
    rewrite lookup_insert_eq, Hb. simpl. apply Hg, elem_of_all_ready. eauto.
  - intros p t' Hp Ht'. destruct (qi_mem _ _ Hi p t' Hp Ht') as (b' & Hb' & ? & ?).
    destruct (decide (t' = t)) as [->|]; [|exists b'; by rewrite lookup_insert_ne].
    simplify_eq. exists (g b). rewrite lookup_insert_eq.
    destruct Hg as (_ & -> & ->); [apply elem_of_all_ready; eauto|done].
Qed.

(** ** The first half of [schedule] *)

Definition requeue m Q cur : nat → list Z :=
  if running m cur then <[prio_of m cur := Q (prio_of m cur) ++ [cur]]> Q else Q.

Lemma prio_of_queue m t b : kTcbPool m !! t = Some b →
  0 ≤ t_priority b < Z.of_nat QUEUES → t_priority b = Z.of_nat (prio_of m t) ∧ (prio_of m t < QUEUES)%nat.
Proof. intros Hb Hp. unfold prio_of. rewrite Hb. simpl. lia. Qed.

(** Re-enqueueing the current thread when it is still running. *)
Lemma requeue_wp m Q cur idle b (R : () → machine PA → Prop) :
  sched_inv m Q cur idle → kTcbPool m !! cur = Some b →
  (∀ m', queues_inv m' (requeue m Q cur) → same_static m m' → m_rest m' = m_rest m →
     (∀ t, deadline_of m' t = deadline_of m t) → same_context m m' → R () m') →
  wp (if decide (t_state b = RUNNING) then
        write_tcb cur (set_t_state READY);; queue_push_back (t_priority b) cur
      else mret ()) R m.
Proof.
  intros Hs Hb HR. unfold requeue, running in HR. rewrite Hb in HR. simpl in HR.
  destruct (decide (t_state b = RUNNING)) as [E|E].
  2:{ rewrite bool_decide_false in HR by congruence. apply wp_ret, HR; try done. apply Hs. }
  rewrite bool_decide_true in HR by congruence. wp_run. eapply wp_write_tcb; [done|].
  destruct (prio_of_queue m cur b Hb (si_prio _ _ _ _ Hs _ _ Hb)) as [Ep Hp]. rewrite Ep.
  set (m1 := set_kTcbPool _ m).
  eapply (queue_push_back_inv m1 Q); [|done|apply lookup_insert_eq|done|done|apply (si_fresh _ _ _ _ Hs)|].
  { apply queues_inv_write; [apply Hs|done|]. intros []%(si_fresh _ _ _ _ Hs). }
  intros m' Hi' Hd. apply HR; [done| |by destruct Hd| |].
  - eapply same_static_trans, same_data_static, Hd. by apply same_static_write.
  - intros t. rewrite (deadline_of_same m1 m') by done. unfold deadline_of, m1. simpl.
    destruct (decide (t = cur)) as [->|]; [|by rewrite lookup_insert_ne]. by rewrite lookup_insert_eq, Hb.
  - intros t. rewrite (same_data_context m1 m' Hd t). simpl.
    destruct (decide (t = cur)) as [->|]; [|by rewrite lookup_insert_ne]. by rewrite lookup_insert_eq, Hb.
Qed.

(** What [abs_pick] takes is no longer queued. *)
Lemma abs_pick_fresh m Q D : queues_inv m Q →
  match (abs_pick D Q).1 with
  | Some t => t ∈ all_ready Q ∧ t ∉ all_ready (abs_pick D Q).2
  | None => all_ready Q = [] ∧ (abs_pick D Q).2 = Q
  end.
Proof.
  intros Hi. unfold abs_pick. destruct (dl_best D (all_ready Q)).2 as [t|] eqn:Eb.
  { split; [by eapply dl_best_elem|]. intros (p & _ & [? _]%list_elem_of_filter)%elem_of_all_ready. done. }
  destruct (list_find (λ p, Q p ≠ []) pick_order) as [[i p]|] eqn:Ef; cbn [fst snd].
  - apply list_find_Some in Ef as (Hp & HQ & _). apply list_elem_of_lookup_2, elem_of_pick_order in Hp.
    destruct (Q p) as [|t l] eqn:EQ; [done|]. simpl. split; [apply elem_of_all_ready; exists p; rewrite EQ; set_solver|].
    intros (o & Ho & Ht)%elem_of_all_ready. destruct (decide (o = p)) as [->|Hne].
    + rewrite fn_lookup_insert in Ht. pose proof (qi_nodup _ _ _ Hi Hp) as Hnd. rewrite EQ in Hnd.
      apply NoDup_cons in Hnd as [? _]. done.
    + rewrite fn_lookup_insert_ne in Ht by done. apply Hne. eapply (qi_unique m Q o p t); [done..|].
      rewrite EQ. set_solver.
  - split; [|done]. apply list_find_None in Ef. rewrite Forall_forall in Ef.
    destruct (all_ready Q) as [|t l] eqn:Er; [done|].
    assert (t ∈ all_ready Q) as (p & Hp & Ht)%elem_of_all_ready by (rewrite Er; set_solver).
    destruct (Ef p); [by apply elem_of_pick_order|]. intros E. rewrite E in Ht. set_solver.
Qed.

(** ** The second half: switching *)

Definition stacks_ok m : Prop :=
  56 ≤ rsp (m_cpu m) < 2 ^ 64 ∧ ∀ t b, kTcbPool m !! t = Some b → frame_ok (ctx_rsp (t_context b)).

(** The frame [cur] will be resumed from: its registers, its stack pointer and
    the address after the call. *)
Definition resume_frame (c : Cpu) : Cpu :=
  mkCpu (rbx c) (rbp c) (r12 c) (r13 c) (r14 c) (r15 c) (rsp c) (schedule_resume_addr lay).

(** How a switch from [cur] to [next] leaves the CPU and the stacks. *)
Definition switch_post m cur next m' : Prop :=
  (∃ bn, kTcbPool m !! next = Some bn ∧ m_cpu m' = load_frame (m_stack m') (ctx_rsp (t_context bn))) ∧
  (∃ bc, kTcbPool m' !! cur = Some bc ∧
     load_frame (m_stack m') (ctx_rsp (t_context bc)) = resume_frame (m_cpu m)).

Lemma queues_inv_view m m' Q :
  kTcbPool m' = kTcbPool m → kReadyQueues m' = kReadyQueues m → kTotalReady m' = kTotalReady m →
  queues_inv m Q → queues_inv m' Q.
Proof. intros Ep Eq Et []. split; unfold next_of in *; rewrite ?Ep, ?Eq, ?Et; done. Qed.

(** The invariant after [next] was made current and [cur]'s stack pointer saved. *)
Lemma sched_inv_switched m Q cur next idle bc bn sp m' :
  queues_inv m Q → kTcbPool m !! cur = Some bc → kTcbPool m !! next = Some bn → cur ≠ next →
  is_Some (kTcbPool m !! idle) → next ∉ all_ready Q →
  (∀ t b, kTcbPool m !! t = Some b → 0 ≤ t_priority b < Z.of_nat QUEUES) →
  kTcbPool m' = <[cur := saved_context sp bc]> (<[next := set_t_state RUNNING bn]> (kTcbPool m)) →
  kReadyQueues m' = kReadyQueues m → kTotalReady m' = kTotalReady m →
  kCurrentThread m' = Some next → kIdleThread m' = Some idle →
  sched_inv m' Q next idle ∧ running m' next = true ∧ same_static m m'.
Proof.
  intros Hi Hbc Hbn Hne Hidle Hfresh Hprio Ep Eq Et Ec Eid.
  set (m1 := set_kTcbPool (<[next := set_t_state RUNNING bn]> (kTcbPool m)) m).
  set (m2 := set_kTcbPool (<[cur := saved_context sp bc]> (kTcbPool m1)) m1).
  assert (Hbc1 : kTcbPool m1 !! cur = Some bc) by (simpl; by rewrite lookup_insert_ne).
  assert (Hq : queues_inv m2 Q).
  { apply queues_inv_write; [|done|done]. by apply queues_inv_write. }
  assert (Hst : same_static m m').
  { intros t. rewrite Ep. change (tcb_static <$> kTcbPool m2 !! t = tcb_static <$> kTcbPool m !! t).
    apply (same_static_trans m m1 m2); by apply same_static_write. }
  assert (Hsome : ∀ t, is_Some (kTcbPool m !! t) → is_Some (kTcbPool m' !! t)).
  { intros t Ht. specialize (Hst t). destruct (kTcbPool m' !! t); [done|]. by destruct (kTcbPool m !! t), Ht. }
  assert (Hn' : kTcbPool m' !! next = Some (set_t_state RUNNING bn)).
  { rewrite Ep, lookup_insert_ne by done. apply lookup_insert_eq. }
  split_and!; [|by unfold running; rewrite Hn'|done].
  split; [by apply (queues_inv_view m2)|done|done|by rewrite Hn'|by apply Hsome|done|].
  by eapply same_static_prio.
Qed.

(** The call itself, once [next] is current. *)
Lemma switch_call_wp m m2 Q cur next idle bc bn (R : () → machine PA → Prop) :
  queues_inv m Q → cur ≠ next →
  kTcbPool m !! cur = Some bc → kTcbPool m !! next = Some bn → is_Some (kTcbPool m !! idle) →
  next ∉ all_ready Q → stacks_ok m →
  (∀ t b, kTcbPool m !! t = Some b → 0 ≤ t_priority b < Z.of_nat QUEUES) →
  kTcbPool m2 = <[next := set_t_state RUNNING bn]> (kTcbPool m) →
  kReadyQueues m2 = kReadyQueues m → kTotalReady m2 = kTotalReady m →
  kCurrentThread m2 = Some next → kIdleThread m2 = Some idle → m_cpu m2 = m_cpu m → m_other m2 = m_other m →
  (∀ m', sched_inv m' Q next idle → running m' next = true → same_static m m' → m_other m' = m_other m →
     stacks_ok m' → switch_post m cur next m' → R () m') →
  wp (push (schedule_resume_addr lay);; context_switch cur next) R m2.
Proof.
  intros Hi Hne Hbc Hbn Hbi Hfresh [Hrsp Hst] Hprio Ep Eq Et Ec Eid Ecpu Eo HR.
  apply (call_switch_wp _ cur next bc (set_t_state RUNNING bn));
    [by rewrite Ep, lookup_insert_ne|rewrite Ep; apply lookup_insert_eq|done|by rewrite Ecpu|exact (Hst next bn Hbn)|].
  intros m' Ep' Eq' Et' Ec' Eid' Eo' Estk' Ecpu'. rewrite Ep in Ep'.
  destruct (sched_inv_switched m Q cur next idle bc bn (rsp (m_cpu m2) - 56) m' Hi Hbc Hbn Hne Hbi Hfresh Hprio Ep')
    as (H1 & H2 & H3); [congruence..|].
  apply (HR _ H1 H2 H3 (eq_trans Eo' Eo)).
  { pose proof (Hst next bn Hbn) as Hfn. unfold frame_ok in Hfn. split; [rewrite Ecpu'; simpl; lia|].
    intros t b. rewrite Ep'. destruct (decide (t = cur)) as [->|].
    - rewrite lookup_insert_eq. intros [= <-]. simpl. rewrite Ecpu. unfold frame_ok. lia.
    - rewrite lookup_insert_ne by done. destruct (decide (t = next)) as [->|].
      + rewrite lookup_insert_eq. intros [= <-]. exact (Hst next bn Hbn).
      + rewrite lookup_insert_ne by done. apply Hst. }
  split; [exists bn; split; [exact Hbn|exact Ecpu']|].
  eexists. rewrite Ep'. split; [apply lookup_insert_eq|].
  rewrite Estk', Ecpu. cbn [saved_context set_t_context t_context set_ctx_rsp ctx_rsp].
  replace (rsp (m_cpu m) - 56) with (rsp (m_cpu m) - 8 - 48) by lia.
  etrans; [apply (load_save_stack (set_rsp (rsp (m_cpu m) - 8) (m_cpu m)))|].
  unfold resume_frame, set_rsp. cbn [rsp rbx rbp r12 r13 r14 r15]. f_equal; [lia|]. apply fn_lookup_insert.
Qed.

(** [next->stack_base] chooses whether the TSS is updated; nothing else changes. *)
Lemma set_rsp0_wp m b (R : () → machine PA → Prop) :
  (∀ v, R () (set_m_tss_rsp0 v m)) → R () m →
  wp (when (negb (t_stack_base b =? 0))
        (hhdm ← gets (λ m, pa_hhdm (m_pages m));
         modify (set_m_tss_rsp0 (stack_top hhdm (t_stack_base b) (t_stack_pages b))))) R m.
Proof. intros H1 H2. wp_run. destruct (negb (t_stack_base b =? 0)); [wp_run|]; auto. Qed.

Lemma switch_to_wp m Q cur next idle (R : sched_result → machine PA → Prop) :
  queues_inv m Q → kIdleThread m = Some idle → cur ≠ next →
  is_Some (kTcbPool m !! cur) → is_Some (kTcbPool m !! next) → is_Some (kTcbPool m !! idle) →
  next ∉ all_ready Q → stacks_ok m →
  (∀ t b, kTcbPool m !! t = Some b → 0 ≤ t_priority b < Z.of_nat QUEUES) →
  (∀ m', sched_inv m' Q next idle → running m' next = true → same_static m m' → m_other m' = m_other m →
     stacks_ok m' → switch_post m cur next m' → R (Switched cur next) m') →
  wp (write_tcb next (set_t_state RUNNING);;
      thread_set_current next;;
      b ← read_tcb next;
      when (negb (t_stack_base b =? 0))
        (hhdm ← gets (λ m, pa_hhdm (m_pages m));
         modify (set_m_tss_rsp0 (stack_top hhdm (t_stack_base b) (t_stack_pages b))));;
      push (schedule_resume_addr lay);;
      context_switch cur next;;
      mret (Switched cur next)) R m.
Proof.
  intros Hi Hidle Hne [bc Hbc] [bn Hbn] Hbi Hfresh Hst Hprio HR.
  assert (Hcont : ∀ m2, kTcbPool m2 = <[next := set_t_state RUNNING bn]> (kTcbPool m) →
     kReadyQueues m2 = kReadyQueues m → kTotalReady m2 = kTotalReady m →
     kCurrentThread m2 = Some next → kIdleThread m2 = Some idle → m_cpu m2 = m_cpu m → m_other m2 = m_other m →
     wp (push (schedule_resume_addr lay);; context_switch cur next;; mret (Switched cur next)) R m2).
  { intros m2 Ep Eq Et Ec Eid Ecpu Eo. apply wp_bind_assoc, wp_bind.
    apply (switch_call_wp m m2 Q cur next idle bc bn); [done..|]. intros m' H1 H2 H3 H4 H5 H6.
    apply wp_ret. by apply HR. }
  apply wp_bind. eapply wp_write_tcb; [exact Hbn|]. apply wp_bind. unfold thread_set_current. apply wp_modify.
  apply wp_bind. eapply wp_read_tcb; [apply lookup_insert_eq|].
  apply wp_bind, set_rsp0_wp; [intros v|]; apply Hcont; (reflexivity || exact Hidle).
Qed.

(** ** [schedule] implements the abstract scheduler *)

Lemma running_requeue_elem m Q cur t : queues_inv m Q → (prio_of m cur < QUEUES)%nat →
  t ∈ all_ready (requeue m Q cur) → t ∈ all_ready Q ∨ t = cur.
Proof.
  intros Hi Hp. unfold requeue. destruct (running m cur); [|auto].
  rewrite !elem_of_all_ready. intros (p & Hpq & Ht). destruct (decide (p = prio_of m cur)) as [->|Hne].
  - rewrite fn_lookup_insert in Ht. set_solver.
  - rewrite fn_lookup_insert_ne in Ht by done. eauto.
Qed.

Lemma stacks_ok_same m m' : same_context m m' → m_cpu m' = m_cpu m → stacks_ok m → stacks_ok m'.
Proof.
  intros Hd Hcpu [H1 H2]. split; [by rewrite Hcpu|].
  intros t b' Hb'. specialize (Hd t). rewrite Hb' in Hd. destruct (kTcbPool m !! t) as [b|] eqn:Hb; [|done].
  apply (inj Some) in Hd as ->. by eapply H2.
Qed.

Definition schedule_post m Q' cur next idle (r : sched_result) m' : Prop :=
  sched_inv m' Q' next idle ∧ running m' next = true ∧ same_static m m' ∧ m_other m' = m_other m ∧
  stacks_ok m' ∧
  if decide (next = cur) then r = Stay else r = Switched cur next ∧ switch_post m cur next m'.

Lemma finish_schedule_wp m Q cur next idle :
  queues_inv m Q → kCurrentThread m = Some cur → kIdleThread m = Some idle →
  is_Some (kTcbPool m !! cur) → is_Some (kTcbPool m !! next) → is_Some (kTcbPool m !! idle) →
  next ∉ all_ready Q → stacks_ok m →
  (∀ t b, kTcbPool m !! t = Some b → 0 ≤ t_priority b < Z.of_nat QUEUES) →
  wp (finish_schedule lay cur next) (schedule_post m Q cur next idle) m.
Proof.
  intros Hi Hcur Hidle Hbc [bn Hbn] Hbi Hfresh Hst Hprio. unfold finish_schedule, schedule_post.
  destruct (decide (next = cur)) as [->|Hne].
  - apply wp_bind. eapply wp_write_tcb; [exact Hbn|]. apply wp_ret.
    assert (Hsame : same_static m (set_kTcbPool (<[cur := set_t_state RUNNING bn]> (kTcbPool m)) m))
      by by apply same_static_write.
    split_and!; [| |done|done| |done].
    + split; [|exact Hcur|exact Hidle|..|done|].
      * by apply queues_inv_write.
      * simpl. by rewrite lookup_insert_eq.
      * simpl. destruct (decide (idle = cur)) as [->|]; [by rewrite lookup_insert_eq|by rewrite lookup_insert_ne].
      * by eapply same_static_prio.
    + unfold running. simpl. by rewrite lookup_insert_eq.
    + apply (stacks_ok_same m); [|done|done]. intros t. simpl.
      destruct (decide (t = cur)) as [->|]; [by rewrite lookup_insert_eq, Hbn|by rewrite lookup_insert_ne].
  - eapply switch_to_wp; [exact Hi|exact Hidle|done|done|done|done|done|done|done|].
    intros m' H1 H2 H3 H4 H5 H6. done.
Qed.

(** From the state after the pick back to the state before. *)
Lemma schedule_post_base m0 m Q' cur next idle r m' :
  same_static m0 m → m_cpu m = m_cpu m0 → m_other m = m_other m0 →
  same_context m0 m →
  schedule_post m Q' cur next idle r m' → schedule_post m0 Q' cur next idle r m'.
Proof.
  intros Hs Hcpu Ho Hctx (H1 & H2 & H3 & Ho' & Hok & H4).
  split_and!; [done|done|by eapply same_static_trans|exact (eq_trans Ho' Ho)|done|].
  destruct (decide (next = cur)); [done|]. destruct H4 as [-> [(bn & Hbn & Hl) Hr]]. split; [done|].
  specialize (Hctx next). rewrite Hbn in Hctx. destruct (kTcbPool m0 !! next) as [bn0|] eqn:Hbn0; [|done].
  apply (inj Some) in Hctx. split; [exists bn0; by rewrite <-Hctx|]. by rewrite <-Hcpu.
Qed.

Lemma same_static_some m m' t : same_static m m' → is_Some (kTcbPool m !! t) → is_Some (kTcbPool m' !! t).
Proof. intros Hs Ht. specialize (Hs t). destruct (kTcbPool m' !! t); [done|]. by destruct (kTcbPool m !! t), Ht. Qed.

Lemma abs_pick_ext D D' Q : (∀ t, D t = D' t) → abs_pick D Q = abs_pick D' Q.
Proof.
  intros HD. unfold abs_pick, dl_best. assert (E : ∀ l best, foldl (dl_step D) best l = foldl (dl_step D') best l).
  { induction l as [|t l IH]; intros best; [done|]. cbn [foldl]. rewrite IH. unfold dl_step at 2 4. by rewrite HD. }
  by rewrite E.
Qed.

Lemma schedule_wp m Q cur idle :
  sched_inv m Q cur idle → kSchedulingEnabled m = true → stacks_ok m →
  let '(next, Q') := abs_schedule (deadline_of m) (prio_of m) idle cur (running m cur) Q in
  wp (schedule lay) (schedule_post m Q' cur next idle) m.
Proof.
  intros Hs Hen Hok. destruct (si_cur_tcb _ _ _ _ Hs) as [b Hb].
  destruct (abs_schedule _ _ _ _ _ _) as [next Q'] eqn:Eabs.
  unfold schedule, thread_current. apply wp_bind, wp_gets. rewrite Hen. cbn [negb].
  apply wp_bind, wp_gets. rewrite (si_current _ _ _ _ Hs). apply wp_bind. unfold the. eapply wp_deref; [done|].
  apply wp_bind. eapply wp_read_tcb; [done|]. apply wp_bind.
  eapply requeue_wp; [done|done|]. intros m1 Hi1 Hst1 Hr1 Hd1 Hctx1. apply wp_bind.
  eapply pick_next_inv; [exact Hi1|]. intros m2 Hi2 Hsd. pose proof (abs_pick_fresh m1 _ (deadline_of m1) Hi1) as Hf.
  rewrite (abs_pick_ext _ (deadline_of m)) in Hi2, Hf |- * by done.
  unfold abs_schedule in Eabs. fold (requeue m Q cur) in Eabs.
  destruct (abs_pick (deadline_of m) (requeue m Q cur)) as [picked Q2]. cbn [fst snd] in *. injection Eabs as Enext ->.
  assert (Hst2 : same_static m m2) by (eapply same_static_trans, same_data_static, Hsd; done).
  assert (Hctx2 : same_context m m2) by (intros t; by rewrite (same_data_context m1 m2 Hsd), Hctx1).
  destruct Hsd as [Hr2 Hsd]. pose proof (eq_trans Hr2 Hr1) as Hr. injection Hr as Hpg2 Hix2 Hid2 Hcur2 Hidle2 Hen2 Hcpu2 _ _ _ _.
  assert (Ho2 : m_other m2 = m_other m) by (unfold m_other; congruence).
  rewrite (si_current _ _ _ _ Hs) in Hcur2. rewrite (si_idle _ _ _ _ Hs) in Hidle2.
  assert (Hfin : ∀ n, is_Some (kTcbPool m2 !! n) → n ∉ all_ready Q' →
     wp (finish_schedule lay cur n) (schedule_post m Q' cur n idle) m2).
  { intros n Hn Hfr. eapply wp_mono; [eapply (finish_schedule_wp m2 Q' cur n idle)|];
      [done|done|done|exact (same_static_some _ _ _ Hst2 (si_cur_tcb _ _ _ _ Hs))|done
      |exact (same_static_some _ _ _ Hst2 (si_idle_tcb _ _ _ _ Hs))|done| | |].
    - by eapply stacks_ok_same.
    - exact (same_static_prio _ _ Hst2 (si_prio _ _ _ _ Hs)).
    - intros r m'. by apply schedule_post_base. }
  apply wp_bind. rewrite <-Enext. destruct picked as [t|].
  - destruct Hf as [Hin Hnin]. change (default idle (Some t)) with t. apply wp_ret, Hfin; [|done].
    assert (is_Some (kTcbPool m1 !! t)) as Ht1.
    { apply elem_of_all_ready in Hin as (p & Hp & Ht). destruct (qi_mem _ _ Hi1 p t Hp Ht) as (bt & Hbt & _). eauto. }
    specialize (Hsd t). destruct (kTcbPool m2 !! t); [done|]. by destruct (kTcbPool m1 !! t), Ht1.
  - destruct Hf as [Hemp ->]. change (default idle None) with idle. unfold thread_idle. apply wp_bind, wp_gets. rewrite Hidle2.
    eapply wp_deref; [done|]. apply Hfin; [exact (same_static_some _ _ _ Hst2 (si_idle_tcb _ _ _ _ Hs))|]. rewrite Hemp. apply not_elem_of_nil.
Qed.

End sched_inv.
