(* ===== verification/SchedRun.v ===== *)
(** * Runs of the thread subsystem

    The kernel's thread state under every operation: creation, enqueueing,
    exit, scheduling and the execution of threads in between. *)

From stdpp Require Import relations.
From S2P Require Import Prelude LinkedList Pmm PmmBlocks PageAlloc.
From S2P Require Import Thread Sched SchedInv SchedPick Switch SchedRefine.
Open Scope Z_scope.

Section run.
Context {PA : Type} `{!PageAllocator PA} (lay : code_layout).
Implicit Types (m : machine PA) (Q : nat → list Z) (t : Z).

(** Free page frames are mapped below the end of the address space. *)
Definition pages_ok m : Prop := ∃ F A,
  pa_inv (m_pages m) F A ∧ 0 ≤ pa_hhdm (m_pages m) ∧
  ∀ x, x ∈ F → (x + 1) * PAGE_SIZE + pa_hhdm (m_pages m) < 2 ^ 64.

Record kernel_inv m Q (cur idle : Z) : Prop := {
  ki_sched : sched_inv m Q cur idle;
  ki_stacks : stacks_ok m;
  ki_index : 0 ≤ kNextTcbIndex m ≤ MAX_THREADS;
  ki_created : cur < kNextTcbIndex m ∧ idle < kNextTcbIndex m ∧ ∀ t, t ∈ all_ready Q → t < kNextTcbIndex m;
  ki_pages : pages_ok m
}.

(** ** Boot *)

Lemma sched_boot_queues (pa : PA) cpu st : queues_inv (sched_boot pa cpu st) (λ _, []).
Proof.
  split.
  - done.
  - intros t. unfold sched_boot. cbn [kTcbPool].
    destruct (decide (0 ≤ t < MAX_THREADS)) as [Ht|Ht].
    + split; [done|intros _]. exists zero_tcb. apply elem_of_list_to_map_1.
      * rewrite <-list_fmap_compose, list_fmap_id. apply NoDup_seqZ.
      * apply list_elem_of_fmap. exists t. split; [done|]. by apply elem_of_seqZ.
    + split; [|done]. intros [b Hb]. exfalso. apply Ht.
      apply elem_of_list_to_map_2, list_elem_of_fmap in Hb as (i & [= -> _] & Hi%elem_of_seqZ). lia.
  - intros p q Hq%list_elem_of_lookup_2. apply elem_of_replicate in Hq as [-> _]. done.
  - intros p t _ []%not_elem_of_nil.
  - done.
Qed.

Lemma boot_lookup (pa : PA) cpu st t b : kTcbPool (sched_boot pa cpu st) !! t = Some b → b = zero_tcb.
Proof.
  intros Hb. unfold sched_boot in Hb. cbn [kTcbPool] in Hb.
  by apply elem_of_list_to_map_2, list_elem_of_fmap in Hb as (i & [= _ ->] & _).
Qed.

Definition idle_tcb : ThreadControlBlock := mkTcb zero_context 0 0 RUNNING FIFO 0 0 0 0 0 0 1 "idle" None None.

Lemma thread_init_run (pa : PA) cpu st :
  thread_init (sched_boot pa cpu st) =
  Ok ((), set_kCurrentThread (Some 0) (set_kTcbPool (<[0 := idle_tcb]> (kTcbPool (sched_boot pa cpu st)))
    (set_kIdleThread (Some 0) (set_kNextThreadId 2 (set_kNextTcbIndex 1 (sched_boot pa cpu st)))))).
Proof.
  set (m0 := sched_boot pa cpu st).
  assert (Hw : wp thread_init (λ _ m', m' = set_kCurrentThread (Some 0) (set_kTcbPool (<[0 := idle_tcb]> (kTcbPool m0))
    (set_kIdleThread (Some 0) (set_kNextThreadId 2 (set_kNextTcbIndex 1 m0))))) m0).
  { unfold thread_init. apply wp_bind, alloc_tcb_wp; [|done|done|].
    { intros _. by apply (qi_dom _ _ (sched_boot_queues pa cpu st)). }
    intros _. apply wp_bind, wp_modify.
    do 5 (apply wp_bind; eapply wp_write_tcb; [apply lookup_insert_eq|]). apply wp_modify.
    cbn [kTcbPool set_kTcbPool set_kIdleThread set_kNextThreadId set_kNextTcbIndex].
    rewrite !insert_insert_eq. reflexivity. }
  apply wp_ok in Hw as ([] & m' & -> & ->). done.
Qed.

Lemma thread_init_inv (pa : PA) cpu st F A :
  pa_inv pa F A → 0 ≤ pa_hhdm pa → (∀ x, x ∈ F → (x + 1) * PAGE_SIZE + pa_hhdm pa < 2 ^ 64) →
  56 ≤ rsp cpu < 2 ^ 64 →
  wp thread_init (λ _ m, kernel_inv m (λ _, []) 0 0 ∧ running m 0 = true) (sched_boot pa cpu st).
Proof.
  intros Hpa Hh HF Hrsp. unfold wp. rewrite thread_init_run.
  set (m0 := sched_boot pa cpu st).
  assert (Hq : queues_inv (set_kTcbPool (<[0 := idle_tcb]> (kTcbPool m0)) m0) (λ _, [])).
  { destruct (proj2 (qi_dom _ _ (sched_boot_queues pa cpu st) 0)) as [b Hb]; [done|].
    apply (queues_inv_write m0 _ 0 b (λ _, idle_tcb)); [apply sched_boot_queues|done|].
    intros (p & _ & []%not_elem_of_nil)%elem_of_all_ready. }
  assert (Hlk : ∀ t b, (<[0 := idle_tcb]> (kTcbPool m0)) !! t = Some b → b = idle_tcb ∨ b = zero_tcb).
  { intros t b. destruct (decide (t = 0)) as [->|]; [rewrite lookup_insert_eq; intros [= <-]; auto|].
    rewrite lookup_insert_ne by done. intros Hb. right. by eapply boot_lookup. }
  assert (Epg : m_pages m0 = pa) by done. assert (Ecpu : m_cpu m0 = cpu) by done. clearbody m0.
  split.
  - split.
    + split.
      * by eapply queues_inv_view, Hq.
      * done.
      * done.
      * eexists. apply lookup_insert_eq.
      * eexists. apply lookup_insert_eq.
      * by intros (p & _ & []%not_elem_of_nil)%elem_of_all_ready.
      * intros t b [->| ->]%Hlk; done.
    + split; [by cbn [m_cpu set_kCurrentThread set_kTcbPool set_kIdleThread set_kNextThreadId set_kNextTcbIndex]; rewrite Ecpu|]. intros t b [->| ->]%Hlk; done.
    + done.
    + split_and!; [done|done|]. by intros t (p & _ & []%not_elem_of_nil)%elem_of_all_ready.
    + exists F, A. unfold set_kCurrentThread, set_kTcbPool, set_kIdleThread, set_kNextThreadId, set_kNextTcbIndex.
      cbn [m_pages]. by rewrite Epg.
  - unfold running. cbn [kTcbPool set_kCurrentThread set_kTcbPool]. by rewrite lookup_insert_eq.
Qed.
(** ** Creation *)

(** The three outcomes of [kthread_create]. *)
Inductive create_outcome m func name priority : outcome (option Z * machine PA) → Prop :=
  | create_full : kNextTcbIndex m = MAX_THREADS → create_outcome m func name priority (Ok (None, m))
  | create_nomem : kNextTcbIndex m < MAX_THREADS →
      create_outcome m func name priority (Panic "kthread_create: out of memory for stack")
  | create_ok r pa F A p :
      kNextTcbIndex m < MAX_THREADS →
      pa_inv (m_pages m) F A → page_set [(p, 2%nat)] ⊆ F → r = p * PAGE_SIZE → 0 < r →
      pa_inv pa (F ∖ page_set [(p, 2%nat)]) ((p, 2%nat) :: A) → pa_hhdm pa = pa_hhdm (m_pages m) →
      0 ≤ pa_hhdm pa → (∀ x, x ∈ F → (x + 1) * PAGE_SIZE + pa_hhdm pa < 2 ^ 64) →
      create_outcome m func name priority
        (Ok (Some (kNextTcbIndex m), created lay m pa func name priority r)).

Lemma fits_four o : fits KTHREAD_STACK_PAGES o → o = 2%nat.
Proof.
  intros [H1 H2]. destruct (decide (2 < o)%nat) as [Hlt|]; [by specialize (H2 2%nat Hlt)|].
  destruct o as [|[|[|]]]; done || lia.
Qed.

Lemma page_set_elem p o x : p ≤ x < p + block_size o → x ∈ page_set [(p, o)].
Proof. intros Hx. apply elem_of_page_set_1, elem_of_block_pages. done. Qed.

Lemma kthread_create_cases m Q cur idle func name priority :
  kernel_inv m Q cur idle → create_outcome m func name priority (kthread_create lay func name priority m).
Proof.
  intros Hk. pose proof (ki_index _ _ _ _ Hk) as Hix. destruct (ki_pages _ _ _ _ Hk) as (F & A & Hpa & Hh & HF).
  destruct (decide (kNextTcbIndex m = MAX_THREADS)) as [E|E].
  { replace (kthread_create lay func name priority m) with (Ok (@None Z, m) : outcome (option Z * machine PA)); [by constructor|].
    unfold kthread_create, alloc_tcb, mbind, M_bind, get. rewrite E. done. }
  assert (Hin : is_Some (kTcbPool m !! kNextTcbIndex m)).
  { apply (qi_dom _ _ (si_queues _ _ _ _ (ki_sched _ _ _ _ Hk))). lia. }
  pose proof (pa_alloc_spec (m_pages m) F A KTHREAD_STACK_PAGES Hpa ltac:(done)) as (r & pa & Hr & Hpost & Hhh)%wp_ok.
  destruct (decide (r = 0)) as [->|Hr0].
  { rewrite (kthread_create_nomem lay m func name priority pa); [constructor; lia|lia|done|done]. }
  destruct Hpost as [[? _]|(p & o & -> & Hfit & Hsub & Hinv)]; [done|]. apply fits_four in Hfit as ->.
  pose proof (pa_wf _ _ _ Hinv) as (_ & _ & Hwf). destruct (Hwf (p, 2%nat)) as [Hp0 _]; [set_solver|]. simpl in Hp0.
  assert (Hpos : 0 < p * PAGE_SIZE) by (unfold PAGE_SIZE in *; lia).
  assert (HF3 : (p + 3 + 1) * PAGE_SIZE + pa_hhdm (m_pages m) < 2 ^ 64).
  { apply HF, Hsub, page_set_elem. change (block_size 2) with 4. lia. }
  erewrite kthread_create_run; [|lia|done|exact Hr|done|by rewrite Hhh|].
  - eapply create_ok; try done; [lia|by rewrite Hhh|by rewrite Hhh].
  - rewrite Hhh. unfold KTHREAD_STACK_PAGES, PAGE_SIZE in *. lia.
Qed.

Lemma created_inv m Q cur idle func name priority res t m' :
  kernel_inv m Q cur idle → 0 ≤ priority < Z.of_nat QUEUES →
  create_outcome m func name priority res → res = Ok (Some t, m') →
  kernel_inv m' Q cur idle ∧ t = kNextTcbIndex m ∧ kNextTcbIndex m' = t + 1 ∧
  ∃ b, kTcbPool m' !! t = Some b ∧ t_priority b = priority ∧ t_state b = READY.
Proof.
  intros Hk Hprio Hout Eres.
  destruct Hout as [?|?|r pa F A p Hlt Hpa Hsub -> Hr Hinv Hhh Hh HF]; [discriminate..|].
  injection Eres as <- <-. set (i := kNextTcbIndex m) in *.
  pose proof (ki_sched _ _ _ _ Hk) as Hs. pose proof (ki_created _ _ _ _ Hk) as (Hc & Hid & Hall).
  assert (Hfresh : i ∉ all_ready Q) by (intros Hin; specialize (Hall _ Hin); lia).
  destruct (proj2 (qi_dom _ _ (si_queues _ _ _ _ Hs) i)) as [bi Hbi]; [pose proof (ki_index _ _ _ _ Hk); lia|].
  assert (HF3 : (p + 3 + 1) * PAGE_SIZE + pa_hhdm pa < 2 ^ 64).
  { apply HF, Hsub, page_set_elem. change (block_size 2) with 4. lia. }
  unfold created. fold i. set (b := new_tcb _ _ _ _ _). set (st := initial_stack _ _ _ _).
  split_and!; [|done|done|exists b; split_and!; [apply lookup_insert_eq|done|done]]. split.
  - split; [|apply Hs|apply Hs|..|apply Hs|].
    + eapply (queues_inv_view (set_kTcbPool (<[i := b]> (kTcbPool m)) m)); try done.
      apply (queues_inv_write m Q i bi (λ _, b)); [apply Hs|done|done].
    + assert (cur ≠ i) by lia. pose proof (si_cur_tcb _ _ _ _ Hs) as [bc Hbc]. exists bc.
      by cbn [kTcbPool set_m_stack set_kTcbPool]; rewrite lookup_insert_ne.
    + assert (idle ≠ i) by lia. pose proof (si_idle_tcb _ _ _ _ Hs) as [bc Hbc]. exists bc.
      by cbn [kTcbPool set_m_stack set_kTcbPool]; rewrite lookup_insert_ne.
    + intros t b'. cbn [kTcbPool set_m_stack set_kTcbPool]. destruct (decide (t = i)) as [->|].
      * rewrite lookup_insert_eq. intros [= <-]. done.
      * rewrite lookup_insert_ne by done. apply Hs.
  - destruct (ki_stacks _ _ _ _ Hk) as [H1 H2]. split; [exact H1|]. intros t b'.
    cbn [kTcbPool set_m_stack set_kTcbPool]. destruct (decide (t = i)) as [->|].
    + rewrite lookup_insert_eq. intros [= <-]. unfold frame_ok. cbn [b new_tcb t_context set_ctx_rsp ctx_rsp].
      unfold KTHREAD_STACK_PAGES, PAGE_SIZE in *. lia.
    + rewrite lookup_insert_ne by done. apply H2.
  - cbn [kNextTcbIndex set_m_stack set_kTcbPool set_kNextThreadId set_kNextTcbIndex].
    pose proof (ki_index _ _ _ _ Hk). lia.
  - cbn [kNextTcbIndex set_m_stack set_kTcbPool set_kNextThreadId set_kNextTcbIndex].
    split_and!; [lia|lia|]. intros t Ht. specialize (Hall t Ht). lia.
  - exists (F ∖ page_set [(p, 2%nat)]), ((p, 2%nat) :: A). split_and!; [exact Hinv|exact Hh|].
    intros x [Hx _]%elem_of_difference. by apply HF.
Qed.

(** ** Enqueueing and exit *)

Lemma enqueue_thread_wp m Q cur idle t :
  kernel_inv m Q cur idle → 0 ≤ t < kNextTcbIndex m → t ∉ all_ready Q → t ≠ cur →
  wp (enqueue_thread t) (λ _ m', kernel_inv m' (<[prio_of m t := Q (prio_of m t) ++ [t]]> Q) cur idle ∧
        m_rest m' = m_rest m ∧ same_static m m') m.
Proof.
  intros Hk Ht Hfresh Hne. pose proof (ki_sched _ _ _ _ Hk) as Hs. pose proof (si_queues _ _ _ _ Hs) as Hi.
  destruct (proj2 (qi_dom _ _ Hi t)) as [b Hb]; [pose proof (ki_index _ _ _ _ Hk); lia|].
  destruct (prio_of_queue m t b Hb (si_prio _ _ _ _ Hs _ _ Hb)) as [Ep Hp].
  unfold enqueue_thread. apply wp_bind. eapply wp_write_tcb; [exact Hb|].
  apply wp_bind. eapply wp_read_tcb; [apply lookup_insert_eq|]. apply wp_bind.
  set (m1 := set_kTcbPool _ m). cbn [t_priority set_t_state]. rewrite Ep.
  assert (Hi1 : queues_inv m1 Q) by by apply queues_inv_write.
  eapply (queue_push_back_inv m1 Q); [exact Hi1|done|apply lookup_insert_eq|done|done|done|].
  intros m' Hi' Hd. assert (Hst : same_static m m').
  { eapply same_static_trans, same_data_static, Hd. by apply same_static_write. }
  assert (Hctx : same_context m m').
  { intros u. rewrite (same_data_context m1 m' Hd u). cbn [m1 kTcbPool set_kTcbPool].
    destruct (decide (u = t)) as [->|]; [by rewrite lookup_insert_eq, Hb|by rewrite lookup_insert_ne]. }
  destruct Hd as [Hr _]. assert (Hr' : m_rest m' = m_rest m) by exact Hr.
  injection Hr as Hpg Hix _ Hcur Hidle Hen Hcpu _ _ _ _.
  assert (Hall : ∀ u, u ∈ all_ready (<[prio_of m t := Q (prio_of m t) ++ [t]]> Q) → u ∈ all_ready Q ∨ u = t).
  { intros u. rewrite !elem_of_all_ready. intros (p & Hpq & Hu). destruct (decide (p = prio_of m t)) as [->|].
    - rewrite fn_lookup_insert in Hu. set_solver.
    - rewrite fn_lookup_insert_ne in Hu by done. eauto. }
  assert (Hk' : kernel_inv m' (<[prio_of m t := Q (prio_of m t) ++ [t]]> Q) cur idle).
  { destruct Hk as [_ Hok Hix0 (Hc & Hid & Hcr) Hpgs]. split.
    - split; [exact Hi'|by rewrite Hcur; apply Hs|by rewrite Hidle; apply Hs|..].
      + exact (same_static_some _ _ _ Hst (si_cur_tcb _ _ _ _ Hs)).
      + exact (same_static_some _ _ _ Hst (si_idle_tcb _ _ _ _ Hs)).
      + intros [Hin|?]%Hall; [by apply (si_fresh _ _ _ _ Hs)|done].
      + exact (same_static_prio _ _ Hst (si_prio _ _ _ _ Hs)).
    - exact (stacks_ok_same _ _ Hctx Hcpu Hok).
    - by rewrite Hix.
    - rewrite Hix. split_and!; [done|done|]. intros u [Hu| ->]%Hall; [by apply Hcr|cbn; lia].
    - unfold pages_ok. by rewrite Hpg. }
  apply wp_bind, wp_gets, wp_when. destruct (kSchedulingEnabled m'); [|done].
  unfold thread_current. apply wp_bind, wp_gets. rewrite (si_current _ _ _ _ (ki_sched _ _ _ _ Hk')).
  apply wp_bind. eapply wp_deref; [done|]. destruct (si_cur_tcb _ _ _ _ (ki_sched _ _ _ _ Hk')) as [bc Hbc].
  apply wp_bind. eapply wp_read_tcb; [exact Hbc|]. by apply wp_ret.
Qed.

Lemma kernel_inv_write_cur m Q cur idle b g :
  kernel_inv m Q cur idle → kTcbPool m !! cur = Some b → tcb_static (g b) = tcb_static b →
  t_context (g b) = t_context b →
  kernel_inv (set_kTcbPool (<[cur := g b]> (kTcbPool m)) m) Q cur idle.
Proof.
  intros [Hs Hok Hix Hcr Hpg] Hb Hg Hctx.
  assert (Hst : same_static m (set_kTcbPool (<[cur := g b]> (kTcbPool m)) m)) by by apply same_static_write.
  split; [|apply (stacks_ok_same m); [|done|done]|done|done|done].
  - split; [|apply Hs|apply Hs|..|apply Hs|].
    + apply queues_inv_write; [apply Hs|done|]. intros []%(si_fresh _ _ _ _ Hs).
    + exact (same_static_some _ _ _ Hst (si_cur_tcb _ _ _ _ Hs)).
    + exact (same_static_some _ _ _ Hst (si_idle_tcb _ _ _ _ Hs)).
    + exact (same_static_prio _ _ Hst (si_prio _ _ _ _ Hs)).
  - intros t. cbn [kTcbPool set_kTcbPool]. destruct (decide (t = cur)) as [->|]; [|by rewrite lookup_insert_ne].
    rewrite lookup_insert_eq, Hb. simpl. by rewrite Hctx.
Qed.

Lemma thread_exit_wp m Q cur idle :
  kernel_inv m Q cur idle →
  wp thread_exit (λ _ m', kernel_inv m' Q cur idle ∧ running m' cur = false) m.
Proof.
  intros Hk. destruct (si_cur_tcb _ _ _ _ (ki_sched _ _ _ _ Hk)) as [b Hb].
  unfold thread_exit, thread_current. apply wp_bind, wp_gets. rewrite (si_current _ _ _ _ (ki_sched _ _ _ _ Hk)).
  apply wp_bind. eapply wp_deref; [done|]. eapply wp_write_tcb; [exact Hb|]. split.
  - by apply kernel_inv_write_cur.
  - unfold running. cbn [kTcbPool set_kTcbPool]. by rewrite lookup_insert_eq.
Qed.

(** ** Scheduling *)

Lemma abs_pick_subset D Q p t : t ∈ (abs_pick D Q).2 p → t ∈ Q p.
Proof.
  unfold abs_pick. destruct (dl_best D (all_ready Q)).2 as [t0|]; cbn [snd].
  { by intros [_ ?]%list_elem_of_filter. }
  destruct (list_find (λ p, Q p ≠ []) pick_order) as [[i o]|]; cbn [snd]; [|done].
  destruct (decide (p = o)) as [->|]; [|by rewrite fn_lookup_insert_ne].
  rewrite fn_lookup_insert. destruct (Q o); [done|]. simpl. set_solver.
Qed.

Lemma abs_pick_elem D Q t : (abs_pick D Q).1 = Some t → t ∈ all_ready Q.
Proof.
  unfold abs_pick. destruct (dl_best D (all_ready Q)).2 as [t0|] eqn:Eb; cbn [fst].
  { intros [= ->]. by eapply dl_best_elem. }
  destruct (list_find (λ p, Q p ≠ []) pick_order) as [[i o]|] eqn:Ef; cbn [fst]; [|done].
  apply list_find_Some in Ef as (Ho%list_elem_of_lookup_2%elem_of_pick_order & _ & _).
  intros Ht. apply elem_of_all_ready. exists o. split; [done|]. destruct (Q o); simplify_eq/=. set_solver.
Qed.

Lemma abs_schedule_elems m Q cur idle D (prio : Z → nat) r next Q' :
  abs_schedule D prio idle cur r Q = (next, Q') →
  (next ∈ all_ready Q ∨ next = cur ∨ next = idle) ∧ ∀ t, t ∈ all_ready Q' → t ∈ all_ready Q ∨ t = cur.
Proof.
  unfold abs_schedule. set (Q1 := if r then _ else Q).
  assert (H1 : ∀ t, t ∈ all_ready Q1 → t ∈ all_ready Q ∨ t = cur).
  { intros t. unfold Q1. destruct r; [|auto]. rewrite !elem_of_all_ready. intros (p & Hp & Ht).
    destruct (decide (p = prio cur)) as [->|]; [rewrite fn_lookup_insert in Ht; set_solver|].
    rewrite fn_lookup_insert_ne in Ht by done. eauto. }
  pose proof (abs_pick_elem D Q1) as He. pose proof (abs_pick_subset D Q1) as Hsub.
  destruct (abs_pick D Q1) as [picked Q2]. intros [= <- <-]. cbn [fst snd] in *. split.
  - destruct picked as [t|]; [|auto]. destruct (H1 t (He t eq_refl)); auto.
  - intros t (p & Hp & Ht)%elem_of_all_ready. apply H1, elem_of_all_ready. eauto.
Qed.

Lemma schedule_post_inv m Q cur idle next Q' r m' :
  kernel_inv m Q cur idle →
  abs_schedule (deadline_of m) (prio_of m) idle cur (running m cur) Q = (next, Q') →
  schedule_post lay m Q' cur next idle r m' → kernel_inv m' Q' next idle.
Proof.
  intros [Hs _ Hix (Hc & Hid & Hcr) Hpg] Eabs (H1 & _ & _ & Ho & Hok & _). injection Ho as Hpages Hidx _ _.
  destruct (abs_schedule_elems m _ _ _ _ _ _ _ _ Eabs) as [Hn Hall].
  split; [done|done|by rewrite Hidx| |by unfold pages_ok; rewrite Hpages]. rewrite Hidx. split_and!; [|done|].
  - destruct Hn as [Hn|[-> | ->]]; auto.
  - intros t [Ht| ->]%Hall; auto.
Qed.

(** Scheduling always returns and keeps the invariant. *)
Lemma schedule_inv m Q cur idle :
  kernel_inv m Q cur idle → wp (schedule lay) (λ _ m', ∃ Q' cur', kernel_inv m' Q' cur' idle) m.
Proof.
  intros Hk. destruct (kSchedulingEnabled m) eqn:Hen.
  - pose proof (schedule_wp lay m Q cur idle (ki_sched _ _ _ _ Hk) Hen (ki_stacks _ _ _ _ Hk)) as Hw.
    destruct (abs_schedule _ _ _ _ _ _) as [next Q'] eqn:Eabs.
    eapply wp_mono; [exact Hw|]. intros r m' Hpost. exists Q', next. by eapply schedule_post_inv.
  - unfold schedule. apply wp_bind, wp_gets. rewrite Hen. apply wp_ret. eauto.
Qed.

Context (ticks_per_ms : Z).

Lemma kernel_inv_timer m Q cur idle v : kernel_inv m Q cur idle → kernel_inv (set_m_timer v m) Q cur idle.
Proof.
  intros [[Hq ? ? ? ? ? ?] ? ? ? ?]. split; [|done..]. split; [|done..]. by eapply queues_inv_view, Hq.
Qed.

Lemma apic_timer_handler_inv m Q cur idle :
  kernel_inv m Q cur idle →
  wp (apic_timer_handler lay ticks_per_ms) (λ _ m', ∃ Q' cur', kernel_inv m' Q' cur' idle) m.
Proof.
  intros Hk. destruct (si_cur_tcb _ _ _ _ (ki_sched _ _ _ _ Hk)) as [b Hb].
  unfold apic_timer_handler, thread_current. apply wp_bind, wp_gets.
  rewrite (si_current _ _ _ _ (ki_sched _ _ _ _ Hk)). apply wp_bind. eapply wp_deref; [done|].
  apply wp_bind. eapply wp_read_tcb; [exact Hb|]. apply wp_bind.
  assert (Hres : ∀ re : bool, wp (if re then schedule lay
      else apic_timer_oneshot (u32 (ticks_per_ms * TICK_INTERVAL_MS));; mret Stay)
      (λ _ m', ∃ Q' cur', kernel_inv m' Q' cur' idle) m).
  { intros []; [by eapply schedule_inv|]. apply wp_bind, wp_modify, wp_ret. exists Q, cur.
    by apply kernel_inv_timer. }
  destruct (decide (t_policy b = FIFO)); [|apply wp_ret; exact (Hres true)].
  unfold higher_ready. apply wp_bind, wp_get, wp_ret. apply (Hres (existsb _ _)).
Qed.

(** ** Runs *)

Inductive sched_step : machine PA → machine PA → Prop :=
  | run_create m m' func name priority (t : option Z) :
      0 ≤ priority < Z.of_nat QUEUES → kthread_create lay func name priority m = Ok (t, m') → sched_step m m'
  | run_enqueue m m' t :
      0 ≤ t < kNextTcbIndex m → kCurrentThread m ≠ Some t → (∀ Q, queues_inv m Q → t ∉ all_ready Q) →
      enqueue_thread t m = Ok ((), m') → sched_step m m'
  | run_schedule m m' r : schedule lay m = Ok (r, m') → sched_step m m'
  | run_tick m m' r : apic_timer_handler lay ticks_per_ms m = Ok (r, m') → sched_step m m'
  | run_exit m m' : thread_exit m = Ok ((), m') → sched_step m m'
  | run_start m m' : scheduler_start ticks_per_ms m = Ok ((), m') → sched_step m m'
  | run_code m cpu st : 56 ≤ rsp cpu < 2 ^ 64 → sched_step m (set_m_cpu cpu (set_m_stack st m)).

Lemma kernel_inv_code m Q cur idle cpu st :
  kernel_inv m Q cur idle → 56 ≤ rsp cpu < 2 ^ 64 → kernel_inv (set_m_cpu cpu (set_m_stack st m)) Q cur idle.
Proof.
  intros [[Hq ? ? ? ? ? ?] [_ Hst] ? ? ?] Hr. split; [|by split|done..]. split; [|done..].
  by eapply queues_inv_view, Hq.
Qed.

(** Pages may be exchanged under the scheduler. *)
Lemma kernel_inv_pages m Q cur idle pa : kernel_inv m Q cur idle → pages_ok (set_m_pages pa m) → kernel_inv (set_m_pages pa m) Q cur idle.
Proof.
  intros [[] Hst Hix Hcr _] Hp. split; [|done|done|done|exact Hp]. split; [|done..]. by apply (queues_inv_view m).
Qed.

Lemma kernel_inv_start m Q cur idle v w : kernel_inv m Q cur idle →
  kernel_inv (set_m_interrupts true (set_m_timer v (set_kSchedulingEnabled w m))) Q cur idle.
Proof.
  intros [[Hq ? ? ? ? ? ?] ? ? ? ?]. split; [|done..]. split; [|done..]. by eapply queues_inv_view, Hq.
Qed.

Lemma sched_step_inv m m' Q cur idle :
  kernel_inv m Q cur idle → sched_step m m' → ∃ Q' cur', kernel_inv m' Q' cur' idle.
Proof.
  intros Hk Hstep. destruct Hstep as [m m' f n p t Hp Hr|m m' t Ht Hne Hfr Hr|m m' r Hr|m m' r Hr|m m' Hr|m m' Hr|m cpu st Hc].
  - pose proof (kthread_create_cases m Q cur idle f n p Hk) as Hout. rewrite Hr in Hout. destruct t as [t|].
    + destruct (created_inv _ _ _ _ _ _ _ _ _ _ Hk Hp Hout eq_refl) as [? _]. eauto.
    + inversion Hout; subst. eauto.
  - rewrite (si_current _ _ _ _ (ki_sched _ _ _ _ Hk)) in Hne.
    pose proof (Hfr _ (si_queues _ _ _ _ (ki_sched _ _ _ _ Hk))) as Hfresh.
    pose proof (enqueue_thread_wp m Q cur idle t Hk Ht Hfresh ltac:(congruence)) as Hw.
    destruct (wp_result _ _ _ _ _ Hw Hr) as [? _]. eauto.
  - exact (wp_result _ _ _ _ _ (schedule_inv _ _ _ _ Hk) Hr).
  - exact (wp_result _ _ _ _ _ (apic_timer_handler_inv _ _ _ _ Hk) Hr).
  - destruct (wp_result _ _ _ _ _ (thread_exit_wp _ _ _ _ Hk) Hr) as [? _]. eauto.
  - injection Hr as <-. exists Q, cur. by apply kernel_inv_start.
  - exists Q, cur. by apply kernel_inv_code.
Qed.

Lemma sched_runs_inv m m' Q cur idle :
  kernel_inv m Q cur idle → rtc sched_step m m' → ∃ Q' cur', kernel_inv m' Q' cur' idle.
Proof.
  intros Hk Hs. revert Q cur Hk. induction Hs as [|m m1 m' Hstep _ IH]; intros Q cur Hk; [eauto|].
  destruct (sched_step_inv _ _ _ _ _ Hk Hstep) as (Q1 & cur1 & Hk1). by eapply IH.
Qed.

End run.
