(* ===== verification/SchedTheorems.v ===== *)
(** * Threads and scheduler: properties *)

From stdpp Require Import relations.
From S2P Require Import Prelude LinkedList Pmm PmmBlocks PmmInv PmmInit PageAlloc PmmTheorems.
From S2P Require Import Thread Sched SchedInv SchedPick Switch SchedRefine SchedRun.
Open Scope Z_scope.

(** ** A machine to run the witnesses on

    31 pages of usable memory; the idle thread runs, and one thread of the same
    priority has been created and enqueued. *)

Definition demo_memmap : list MemmapEntry := [mkMemmapEntry 0x1000 0x1f000 MEMMAP_USABLE].
Definition demo_pmm : pmm := final_state (pmm_init (λ _, 0) demo_memmap 0xffff800000000000) pmm_boot.
Definition demo_layout : code_layout := mkLayout 0x100000 0x200000.
Definition demo_cpu : Cpu := mkCpu 1 2 3 4 5 6 0xffff900000000000 0.
Definition demo_idle : machine pmm := final_state thread_init (sched_boot demo_pmm demo_cpu (λ _, 0)).
Definition demo_created : machine pmm := final_state (kthread_create demo_layout 0x300000 "worker" 0) demo_idle.
Definition demo_queued : machine pmm := final_state (enqueue_thread 1) demo_created.
Definition demo : machine pmm := final_state (scheduler_start 1000) demo_queued.

Lemma ok_final_state {S A} (op : M S A) s :
  (if op s is Ok _ then true else false) = true → ∃ a, op s = Ok (a, final_state op s).
Proof. unfold final_state. destruct (op s) as [[a s']| |]; [eauto|done..]. Qed.

Lemma demo_memmap_ok : memmap_ok demo_memmap.
Proof.
  split; [|repeat constructor]. constructor; [|constructor]. split_and!; simpl; try lia. intros _.
  split_and!; [by exists 1|by exists 31|done].
Qed.

Lemma demo_pmm_view : ∃ F, pmm_view demo_pmm F [] ∧ kHhdmOffset demo_pmm = 0xffff800000000000 ∧ ∀ x, x ∈ F → x < 32.
Proof.
  assert (Hw : wp (pmm_init (λ _, 0) demo_memmap 0xffff800000000000)
    (λ _ s, ∃ F, pmm_view s F [] ∧ kHhdmOffset s = 0xffff800000000000 ∧ ∀ x, x ∈ F → x < 32) pmm_boot).
  { eapply pmm_init_inv; [apply demo_memmap_ok|lia|vm_compute; reflexivity|]. intros s L Hi Ht Hh _.
    exists (page_set (blocks L)). split_and!; [by exists L|done|]. intros x (b & Hb & Hx)%elem_of_page_set%elem_of_pages.
    pose proof (pl_blocks _ _ _ (pi_lists _ _ _ Hi)) as [HF _]. rewrite Forall_forall in HF.
    destruct (HF b) as (_ & _ & _ & Hle); [apply elem_of_app; by left|]. rewrite Ht in Hle.
    change (phys_to_pfn (highest_addr demo_memmap)) with 32 in Hle. lia. }
  unfold demo_pmm, final_state. unfold wp in Hw. by destruct (pmm_init _ _ _ _) as [[? ?]| |].
Qed.

(** The hypotheses of a boot, for any allocator. *)
Lemma thread_init_final {PA} `{!PageAllocator PA} (pa : PA) cpu st F A h :
  pa_inv pa F A → pa_hhdm pa = h → 0 ≤ h → (∀ x, x ∈ F → (x + 1) * PAGE_SIZE + h < 2 ^ 64) →
  56 ≤ rsp cpu < 2 ^ 64 →
  let m := final_state thread_init (sched_boot pa cpu st) in
  thread_init (sched_boot pa cpu st) = Ok ((), m) ∧ kernel_inv m (λ _, []) 0 0 ∧ running m 0 = true.
Proof.
  intros Hpa <- Hh HF Hr. pose proof (thread_init_inv pa cpu st F A Hpa Hh HF Hr) as Hw.
  unfold wp in Hw. unfold final_state. destruct (thread_init _) as [[[] m]| |]; [by split|done..].
Qed.

Lemma demo_idle_inv :
  thread_init (sched_boot demo_pmm demo_cpu (λ _, 0)) = Ok ((), demo_idle) ∧
  kernel_inv demo_idle (λ _, []) 0 0 ∧ running demo_idle 0 = true.
Proof.
  destruct demo_pmm_view as (F & HF & Hh & Hx).
  refine (thread_init_final demo_pmm demo_cpu (λ _, 0) F [] 0xffff800000000000 HF Hh _ _ _); [lia| |].
  - intros x Hin. specialize (Hx x Hin). unfold PAGE_SIZE. lia.
  - unfold demo_cpu. cbn [rsp]. lia.
Qed.

Section finals.
Context {PA : Type} `{!PageAllocator PA} (lay : code_layout).
Implicit Types m : machine PA.

Lemma kthread_create_final m Q cur idle func name priority :
  kernel_inv m Q cur idle → 0 ≤ priority < Z.of_nat QUEUES → kNextTcbIndex m < MAX_THREADS →
  let op := kthread_create lay func name priority in
  (if op m is Ok _ then true else false) = true →
  op m = Ok (Some (kNextTcbIndex m), final_state op m) ∧ kernel_inv (final_state op m) Q cur idle ∧
  kNextTcbIndex (final_state op m) = kNextTcbIndex m + 1 ∧
  prio_of (final_state op m) (kNextTcbIndex m) = Z.to_nat priority.
Proof.
  intros Hk Hp Hlt op Hok. destruct (ok_final_state op m Hok) as [t Ht].
  pose proof (kthread_create_cases lay m Q cur idle func name priority Hk) as Hout. fold op in Hout. rewrite Ht in Hout.
  assert (Hn : ∀ m', create_outcome lay m func name priority (Ok (None, m')) → kNextTcbIndex m = MAX_THREADS)
    by (intros m' H; by inversion H; subst).
  destruct t as [t|]; [|apply Hn in Hout; lia].
  destruct (created_inv lay _ _ _ _ _ _ _ _ _ _ Hk Hp Hout eq_refl) as (Hk' & -> & Hix & b & Hb & Hpr & _).
  split_and!; [done|done|done|]. unfold prio_of. rewrite Hb. simpl. by rewrite Hpr.
Qed.

Lemma enqueue_final m Q cur idle t :
  kernel_inv m Q cur idle → 0 ≤ t < kNextTcbIndex m → t ∉ all_ready Q → t ≠ cur →
  let m' := final_state (enqueue_thread t) m in
  enqueue_thread t m = Ok ((), m') ∧ kernel_inv m' (<[prio_of m t := Q (prio_of m t) ++ [t]]> Q) cur idle.
Proof.
  intros Hk Ht Hf Hne. pose proof (enqueue_thread_wp m Q cur idle t Hk Ht Hf Hne) as Hw. unfold wp in Hw.
  unfold final_state. destruct (enqueue_thread t m) as [[[] m']| |]; [|done..]. split; [done|]. apply Hw.
Qed.
End finals.

Lemma demo_created_inv :
  kthread_create demo_layout 0x300000 "worker" 0 demo_idle = Ok (Some 1, demo_created) ∧
  kernel_inv demo_created (λ _, []) 0 0 ∧ kNextTcbIndex demo_created = 2 ∧ prio_of demo_created 1 = 0%nat.
Proof.
  destruct demo_idle_inv as (_ & Hk & _).
  assert (E : kNextTcbIndex demo_idle = 1) by (vm_compute; reflexivity).
  pose proof (kthread_create_final demo_layout demo_idle _ 0 0 0x300000 "worker" 0 Hk) as H. rewrite E in H.
  apply H; [unfold QUEUES; lia|unfold MAX_THREADS; lia|vm_compute; reflexivity].
Qed.

Definition demo_queues : nat → list Z := <[0%nat := [1]]> (λ _, []).

Lemma demo_inv : kernel_inv demo demo_queues 0 0 ∧ kSchedulingEnabled demo = true.
Proof.
  destruct demo_created_inv as (_ & Hk & Hix & Hpr).
  destruct (enqueue_final demo_created _ 0 0 1 Hk) as [_ Hk2]; [rewrite Hix; lia| |lia|].
  { intros (p & _ & []%not_elem_of_nil)%elem_of_all_ready. }
  rewrite Hpr in Hk2. split; [|reflexivity].
  exact (kernel_inv_start demo_queued demo_queues 0 0 _ true Hk2).
Qed.

Lemma demo_running : running demo 0 = true.
Proof. vm_compute. reflexivity. Qed.

(** ** The scheduling decision *)

(** C2: [schedule] implements the abstract scheduler.  With scheduling enabled
    it always returns; the thread it leaves current is the one [abs_schedule]
    chooses after re-queueing the caller, the queues become those of
    [abs_schedule], the invariant of the thread subsystem is preserved, and
    unless the choice is the caller itself the caller's registers and stack
    pointer are saved where a later switch finds them and the CPU is loaded
    from the chosen thread's saved frame. *)
Theorem schedule_refines {PA} `{!PageAllocator PA} lay (m : machine PA) Q cur idle :
  kernel_inv m Q cur idle → kSchedulingEnabled m = true →
  let '(next, Q') := abs_schedule (deadline_of m) (prio_of m) idle cur (running m cur) Q in
  ∃ r m', schedule lay m = Ok (r, m') ∧ kernel_inv m' Q' next idle ∧ running m' next = true ∧
    same_static m m' ∧
    if decide (next = cur) then r = Stay else r = Switched cur next ∧ switch_post lay m cur next m'.
Proof.
  intros Hk Hen.
  pose proof (schedule_wp lay m Q cur idle (ki_sched _ _ _ _ Hk) Hen (ki_stacks _ _ _ _ Hk)) as Hw.
  destruct (abs_schedule _ _ _ _ _ _) as [next Q'] eqn:Eabs. apply wp_ok in Hw as (r & m' & Hr & Hpost).
  exists r, m'. split; [done|]. split; [by eapply schedule_post_inv|].
  destruct Hpost as (_ & ? & ? & _ & _ & ?). done.
Qed.

Lemma schedule_refines_witness :
  let '(next, Q') := abs_schedule (deadline_of demo) (prio_of demo) 0 0 (running demo 0) demo_queues in
  ∃ r m', schedule demo_layout demo = Ok (r, m') ∧ kernel_inv m' Q' next 0 ∧ running m' next = true ∧
    same_static demo m' ∧
    if decide (next = 0) then r = Stay else r = Switched 0 next ∧ switch_post demo_layout demo 0 next m'.
Proof. exact (schedule_refines demo_layout demo demo_queues 0 0 (proj1 demo_inv) (proj2 demo_inv)). Defined.

(** The position of a priority in the order of choice: 99 is first, 0 is 99th,
    then 100 up to 139. *)
Definition rank (p : nat) : nat := if (p <? 100)%nat then (99 - p)%nat else p.

Lemma pick_order_rank p : (p < QUEUES)%nat → pick_order !! rank p = Some p.
Proof.
  intros Hp. assert (Hall : forallb (λ p, bool_decide (pick_order !! rank p = Some p)) (seq 0 QUEUES) = true)
    by (vm_compute; reflexivity).
  rewrite forallb_forall in Hall. eapply bool_decide_eq_true_1, Hall.
  apply list_elem_of_In, elem_of_seq. lia.
Qed.

Lemma pick_order_inj i p : pick_order !! i = Some p → i = rank p.
Proof.
  intros Hi. assert (Hall : forallb (λ i, match pick_order !! i with Some p => (i =? rank p)%nat | None => true end)
    (seq 0 QUEUES) = true) by (vm_compute; reflexivity).
  rewrite forallb_forall in Hall. assert (Hlt : (i < QUEUES)%nat) by (apply lookup_lt_Some in Hi; exact Hi).
  specialize (Hall i ltac:(apply list_elem_of_In, elem_of_seq; lia)). rewrite Hi in Hall. by apply Nat.eqb_eq.
Qed.

(** [pick_next] removes exactly the thread it returns.  If a ready thread
    with a deadline below the initial bound exists, the choice has the earliest
    deadline of all; otherwise it is the first thread of the first non-empty
    queue in the order 99 down to 0, then 100 up to 139; it returns no thread
    only when none is ready. *)
Theorem pick_next_correct {PA} `{!PageAllocator PA} (m : machine PA) Q :
  queues_inv m Q →
  ∃ r m', pick_next m = Ok (r, m') ∧ same_data m m' ∧
    match r with
    | None => all_ready Q = []
    | Some t =>
      t ∈ all_ready Q ∧ queues_inv m' (λ p, filter (λ t', t' ≠ t) (Q p)) ∧
      ((∃ d, deadline_of m t = Some d ∧ d < 2 ^ 64 - 1 ∧
          ∀ t' d', t' ∈ all_ready Q → deadline_of m t' = Some d' → d ≤ d') ∨
       ((∀ t' d', t' ∈ all_ready Q → deadline_of m t' = Some d' → 2 ^ 64 - 1 ≤ d') ∧
        ∃ p l, (p < QUEUES)%nat ∧ Q p = t :: l ∧
          ∀ p', (p' < QUEUES)%nat → (rank p' < rank p)%nat → Q p' = []))
    end.
Proof.
  intros Hi. pose proof (pick_next_inv m Q (λ r m', r = (abs_pick (deadline_of m) Q).1 ∧
    queues_inv m' (abs_pick (deadline_of m) Q).2 ∧ same_data m m') Hi) as Hw.
  destruct (proj1 (wp_ok _ _ _) (Hw (λ m' H1 H2, conj eq_refl (conj H1 H2)))) as (r & m' & Hr & -> & Hi' & Hd). clear Hw.
  exists (abs_pick (deadline_of m) Q).1, m'. split_and!; [done|done|].
  pose proof (abs_pick_fresh m Q (deadline_of m) Hi) as Hf. pose proof (abs_pick_elem (deadline_of m) Q) as Hel.
  revert Hi' Hf Hel. unfold abs_pick, dl_best.
  destruct (dl_fold_spec (deadline_of m) (all_ready Q) (2 ^ 64 - 1, None))
    as [[-> Hle]|(l1 & t & l2 & d & El & -> & Hdl & Hlt & H1 & H2)]; cbn [snd].
  2:{ intros Hi' _ Hel. cbn [fst]. split_and!; [by apply Hel|done|]. left. exists d. split_and!; [done|done|].
      intros t' d' Ht' Hd'. rewrite El, elem_of_app, elem_of_cons in Ht'.
      destruct Ht' as [Ht'|[->|Ht']]; [specialize (H1 t' d' Ht' Hd'); lia|simplify_eq; lia|by eapply H2]. }
  destruct (list_find (λ p, Q p ≠ []) pick_order) as [[i p]|] eqn:Ef; cbn [fst snd].
  2:{ intros _ [? _] _. done. }
  apply list_find_Some in Ef as (Hp & HQ & Hbefore). pose proof (pick_order_inj _ _ Hp) as ->.
  apply list_elem_of_lookup_2, elem_of_pick_order in Hp. destruct (Q p) as [|t l] eqn:EQ; [done|].
  cbn [list.head hd_error]. intros Hi' _ Hel. split_and!; [by apply Hel| |].
  - eapply queues_inv_ext, Hi'. intros o Ho. by apply (abs_pick_deadline Q p [] t l m).
  - right. split; [done|]. exists p, l. split_and!; [done|done|]. intros p' Hp' Hrank.
    destruct (decide (Q p' = [])); [done|]. destruct (Hbefore (rank p') p' (pick_order_rank p' Hp') Hrank). done.
Qed.

Lemma pick_next_correct_witness :
  ∃ r m', pick_next demo = Ok (r, m') ∧ same_data demo m' ∧
    match r with
    | None => all_ready demo_queues = []
    | Some t =>
      t ∈ all_ready demo_queues ∧ queues_inv m' (λ p, filter (λ t', t' ≠ t) (demo_queues p)) ∧
      ((∃ d, deadline_of demo t = Some d ∧ d < 2 ^ 64 - 1 ∧
          ∀ t' d', t' ∈ all_ready demo_queues → deadline_of demo t' = Some d' → d ≤ d') ∨
       ((∀ t' d', t' ∈ all_ready demo_queues → deadline_of demo t' = Some d' → 2 ^ 64 - 1 ≤ d') ∧
        ∃ p l, (p < QUEUES)%nat ∧ demo_queues p = t :: l ∧
          ∀ p', (p' < QUEUES)%nat → (rank p' < rank p)%nat → demo_queues p' = []))
    end.
Proof. exact (pick_next_correct demo demo_queues (si_queues _ _ _ _ (ki_sched _ _ _ _ (proj1 demo_inv)))). Defined.

(** ** Runs *)



(** ** Rotation within a priority *)

Section rotation.
Context {PA : Type} `{!PageAllocator PA} (lay : code_layout).
Implicit Types m : machine PA.

(** [n] calls of [schedule] in a row. *)
Fixpoint schedule_n (n : nat) : M (machine PA) () :=
  match n with
  | O => mret ()
  | S n => schedule lay;; schedule_n n
  end.

(** Only priority [p] has runnable threads, [cur] first and [l] behind it, and
    none has a deadline. *)
Definition level (p : nat) (idle : Z) m (cur : Z) (l : list Z) : Prop := ∃ Q,
  kernel_inv m Q cur idle ∧ kSchedulingEnabled m = true ∧ running m cur = true ∧
  (∀ t, deadline_of m t = None) ∧ (p < QUEUES)%nat ∧
  (∀ t, t ∈ cur :: l → prio_of m t = p) ∧
  Q p = l ∧ ∀ p', (p' < QUEUES)%nat → p' ≠ p → Q p' = [].

Lemma same_static_view m m' t : same_static m m' → deadline_of m' t = deadline_of m t ∧ prio_of m' t = prio_of m t.
Proof.
  intros Hs. specialize (Hs t). unfold deadline_of, prio_of.
  destruct (kTcbPool m' !! t) as [b'|], (kTcbPool m !! t) as [b|]; try done.
  apply (inj Some) in Hs. destruct b, b'. injection Hs. intros. simpl. by subst.
Qed.

Lemma dl_best_none D l : (∀ t, D t = None) → (dl_best D l).2 = None.
Proof.
  intros HD. unfold dl_best. generalize (2 ^ 64 - 1). intros z.
  assert (H : foldl (dl_step D) (z, None) l = (z, None)); [|by rewrite H].
  induction l as [|t l IH]; [done|]. cbn [foldl]. unfold dl_step at 2. by rewrite HD.
Qed.

(** The first non-empty queue, when [p] is the only one. *)
Lemma find_only_queue Q p : (p < QUEUES)%nat → Q p ≠ ([] : list Z) →
  (∀ p', (p' < QUEUES)%nat → p' ≠ p → Q p' = []) → ∃ i, list_find (λ p, Q p ≠ []) pick_order = Some (i, p).
Proof.
  intros Hp HQ Ho. destruct (list_find (λ p, Q p ≠ []) pick_order) as [[i o]|] eqn:Ef.
  - apply list_find_Some in Ef as (Hl%list_elem_of_lookup_2%elem_of_pick_order & Hne & _).
    destruct (decide (o = p)) as [->|]; [eauto|]. by destruct Hne; apply Ho.
  - apply list_find_None in Ef. rewrite Forall_forall in Ef. by destruct (Ef p); [apply elem_of_pick_order|].
Qed.

(** One call runs the thread at the front and puts the caller at the back. *)
Lemma level_step p idle m cur l n l' : level p idle m cur l → l ++ [cur] = n :: l' →
  wp (schedule lay) (λ _ m', level p idle m' n l') m.
Proof.
  intros (Q & Hk & Hen & Hrun & Hdl & Hp & Hpr & HQ & Hoth) El.
  pose proof (schedule_wp lay m Q cur idle (ki_sched _ _ _ _ Hk) Hen (ki_stacks _ _ _ _ Hk)) as Hw.
  assert (Hcp : prio_of m cur = p) by (apply Hpr; set_solver).
  assert (Eabs : abs_schedule (deadline_of m) (prio_of m) idle cur (running m cur) Q = (n, <[p := l']> (<[p := n :: l']> Q))).
  { unfold abs_schedule. rewrite Hrun, Hcp, HQ, El. unfold abs_pick. rewrite dl_best_none by done.
    destruct (find_only_queue (<[p := n :: l']> Q) p Hp) as [i ->].
    - by rewrite fn_lookup_insert.
    - intros p' Hp' Hne. rewrite fn_lookup_insert_ne by done. by apply Hoth.
    - by rewrite fn_lookup_insert. }
  rewrite Eabs in Hw. eapply wp_mono; [exact Hw|]. intros r m' Hpost.
  pose proof (schedule_post_inv lay _ _ _ _ _ _ _ _ Hk Eabs Hpost) as Hk'.
  destruct Hpost as (_ & Hrun' & Hst & Hother & _ & _). injection Hother as _ _ _ Hen'.
  exists (<[p := l']> (<[p := n :: l']> Q)). split_and!; [done|congruence|done|..|done| |by rewrite fn_lookup_insert|].
  - intros t. by rewrite (proj1 (same_static_view m m' t Hst)).
  - intros t Ht. rewrite (proj2 (same_static_view m m' t Hst)). apply Hpr. rewrite <-El in Ht. set_solver.
  - intros p' Hp' Hne. rewrite !fn_lookup_insert_ne by done. by apply Hoth.
Qed.

Lemma level_run p idle i : ∀ m cur l t, level p idle m cur l → (cur :: l) !! i = Some t →
  wp (schedule_n i) (λ _ m', kCurrentThread m' = Some t) m.
Proof.
  induction i as [|i IH]; intros m cur l t Hl Ht; cbn [schedule_n].
  - apply wp_ret. injection Ht as <-. destruct Hl as (Q & Hk & _). apply (si_current _ _ _ _ (ki_sched _ _ _ _ Hk)).
  - simpl in Ht. destruct l as [|n l]; [done|]. apply wp_bind.
    eapply wp_mono; [by eapply (level_step p idle m cur (n :: l) n (l ++ [cur]))|]. intros r m' Hl'.
    eapply IH; [exact Hl'|]. destruct i as [|i]; [done|]. simpl in *. by apply lookup_app_l_Some.
Qed.
End rotation.

(** C39: round robin.  When the runnable threads all have one priority and no
    deadlines, the thread at distance [i] from the running one is running
    after exactly [i] calls of [schedule]: no ready thread of the level waits
    longer than one round. *)
Theorem round_robin {PA} `{!PageAllocator PA} lay (m : machine PA) p idle cur l i t :
  level p idle m cur l → (cur :: l) !! i = Some t →
  ∃ m', schedule_n lay i m = Ok ((), m') ∧ kCurrentThread m' = Some t.
Proof.
  intros Hl Ht. destruct (proj1 (wp_ok _ _ _) (level_run lay p idle i m cur l t Hl Ht)) as ([] & m' & E & H). eauto.
Qed.

Lemma demo_no_deadline t : deadline_of demo t = None.
Proof.
  assert (Hall : forallb (λ i, bool_decide (deadline_of demo i = None)) (seqZ 0 MAX_THREADS) = true)
    by (vm_compute; reflexivity).
  rewrite forallb_forall in Hall. destruct (decide (0 ≤ t < MAX_THREADS)) as [Ht|Ht].
  - eapply bool_decide_eq_true_1, Hall, list_elem_of_In, elem_of_seqZ. lia.
  - unfold deadline_of. destruct (kTcbPool demo !! t) as [b|] eqn:Hb; [|reflexivity]. exfalso. apply Ht.
    apply (qi_dom _ _ (si_queues _ _ _ _ (ki_sched _ _ _ _ (proj1 demo_inv)))). eauto.
Qed.

Lemma round_robin_witness : ∃ m', schedule_n demo_layout 1 demo = Ok ((), m') ∧ kCurrentThread m' = Some 1.
Proof.
  refine (round_robin demo_layout demo 0 0 0 [1] 1 1 _ eq_refl).
  exists demo_queues. split; [exact (proj1 demo_inv)|]. split; [exact (proj2 demo_inv)|]. split; [exact demo_running|].
  split; [exact demo_no_deadline|]. split; [unfold QUEUES; lia|]. split; [|split; [reflexivity|]].
  - intros t Ht. apply elem_of_cons in Ht as [->|Ht]; [vm_compute; reflexivity|].
    apply elem_of_cons in Ht as [->|Ht]; [vm_compute; reflexivity|]. by apply not_elem_of_nil in Ht.
  - intros p' _ Hne. unfold demo_queues. by rewrite fn_lookup_insert_ne.
Defined.

(** ** The context switch *)

(** C38: switching away from a thread and back later restores it: if in between
    its saved stack pointer and the words of its saved frame were kept, and the
    switch back is made from a stack that does not overlap that frame, the
    callee-saved registers are those at the first switch, the stack pointer is
    the caller's after the return, and execution continues at the return
    address. *)
Theorem context_switch_roundtrip {PA} (m m1 m2 : machine PA) a b c ba bb bc ba2 :
  kTcbPool m !! a = Some ba → kTcbPool m !! b = Some bb → a ≠ b →
  stack_ok (rsp (m_cpu m)) → rsp (m_cpu m) < 2 ^ 64 - 8 → frame_ok (ctx_rsp (t_context bb)) →
  context_switch a b m = Ok ((), m1) →
  kTcbPool m2 !! a = Some ba2 → t_context ba2 = t_context (saved_context (rsp (m_cpu m) - 48) ba) →
  (∀ x, rsp (m_cpu m) - 48 ≤ x < rsp (m_cpu m) + 8 → m_stack m2 x = m_stack m1 x) →
  kTcbPool m2 !! c = Some bc → c ≠ a → stack_ok (rsp (m_cpu m2)) →
  apart (rsp (m_cpu m2)) (rsp (m_cpu m) - 48) →
  ∃ m3, context_switch c a m2 = Ok ((), m3) ∧
    m_cpu m3 = mkCpu (rbx (m_cpu m)) (rbp (m_cpu m)) (r12 (m_cpu m)) (r13 (m_cpu m)) (r14 (m_cpu m))
                 (r15 (m_cpu m)) (rsp (m_cpu m) + 8) (m_stack m (rsp (m_cpu m))).
Proof.
  intros Ha Hb Hab Hs Hs8 Hf Hsw Ha2 Hctx Hframe Hc Hca Hs2 Hap.
  assert (E1 : m1 = switched a b ba bb m).
  { pose proof (context_switch_wp a b ba bb m (λ _ m', m' = switched a b ba bb m) Ha Hb Hab Hs Hf eq_refl) as Hw.
    exact (wp_result _ _ _ _ _ Hw Hsw). }
  assert (Hst1 : m_stack m1 = save_stack (m_cpu m) (m_stack m)) by by rewrite E1.
  pose proof (context_switch_wp c a bc ba2 m2 (λ _ m', m' = switched c a bc ba2 m2) Hc Ha2 Hca Hs2) as Hw.
  rewrite Hctx in Hw. cbn [saved_context t_context set_t_context set_ctx_rsp ctx_rsp] in Hw.
  destruct (proj1 (wp_ok _ _ _) (Hw ltac:(unfold stack_ok, frame_ok in *; lia) eq_refl)) as ([] & m3 & E3 & ->).
  exists (switched c a bc ba2 m2). split; [done|].
  change (m_cpu (switched c a bc ba2 m2)) with
    (load_frame (save_stack (m_cpu m2) (m_stack m2)) (ctx_rsp (t_context ba2))).
  rewrite Hctx. cbn [saved_context t_context set_t_context set_ctx_rsp ctx_rsp].
  rewrite load_frame_apart by done. rewrite (load_frame_ext (m_stack m1)).
  - rewrite Hst1. apply load_save_stack.
  - intros x Hx. apply Hframe. lia.
Qed.

Definition demo_other : machine pmm := final_state (context_switch 0 1) demo.

Lemma context_switch_roundtrip_witness :
  ∃ m3, context_switch 1 0 demo_other = Ok ((), m3) ∧
    m_cpu m3 = mkCpu 1 2 3 4 5 6 (0xffff900000000000 + 8) (m_stack demo 0xffff900000000000).
Proof.
  refine (context_switch_roundtrip demo demo_other demo_other 0 1 1
    (default zero_tcb (kTcbPool demo !! 0)) (default zero_tcb (kTcbPool demo !! 1))
    (default zero_tcb (kTcbPool demo_other !! 1)) (default zero_tcb (kTcbPool demo_other !! 0))
    _ _ _ _ _ _ _ _ _ _ _ _ _ _).
  - vm_compute. reflexivity.
  - vm_compute. reflexivity.
  - lia.
  - vm_compute. split; [discriminate|reflexivity].
  - vm_compute. reflexivity.
  - vm_compute. split; [discriminate|reflexivity].
  - vm_compute. reflexivity.
  - vm_compute. reflexivity.
  - vm_compute. reflexivity.
  - intros x _. reflexivity.
  - vm_compute. reflexivity.
  - lia.
  - vm_compute. split; [discriminate|reflexivity].
  - left. vm_compute. discriminate.
Defined.

(** ** Thread creation *)

(** [kthread_create] has exactly three outcomes: a full pool gives a null
    pointer and changes nothing; no memory for the stack is a kernel panic;
    otherwise it takes the next thread block, a fresh block of four pages for
    the stack, and returns a thread with the given priority, ready and not
    queued, with the invariant of the thread subsystem preserved. *)
Theorem kthread_create_outcomes {PA} `{!PageAllocator PA} lay (m : machine PA) Q cur idle func name priority :
  kernel_inv m Q cur idle → 0 ≤ priority < Z.of_nat QUEUES →
  create_outcome lay m func name priority (kthread_create lay func name priority m) ∧
  ∀ t m', kthread_create lay func name priority m = Ok (Some t, m') →
    kernel_inv m' Q cur idle ∧ t = kNextTcbIndex m ∧ (t ∉ all_ready Q) ∧
    ∃ b, kTcbPool m' !! t = Some b ∧ t_priority b = priority ∧ t_state b = READY.
Proof.
  intros Hk Hp. pose proof (kthread_create_cases lay m Q cur idle func name priority Hk) as Hout.
  split; [done|]. intros t m' Hr. destruct (created_inv lay _ _ _ _ _ _ _ _ _ _ Hk Hp Hout Hr) as (Hk' & -> & _ & Hb).
  split_and!; [done|done| |done]. intros Hin. destruct (ki_created _ _ _ _ Hk) as (_ & _ & Hall).
  specialize (Hall _ Hin). lia.
Qed.

Lemma kthread_create_outcomes_witness :
  create_outcome demo_layout demo 0x400000 "second" 7 (kthread_create demo_layout 0x400000 "second" 7 demo) ∧
  ∀ t m', kthread_create demo_layout 0x400000 "second" 7 demo = Ok (Some t, m') →
    kernel_inv m' demo_queues 0 0 ∧ t = kNextTcbIndex demo ∧ (t ∉ all_ready demo_queues) ∧
    ∃ b, kTcbPool m' !! t = Some b ∧ t_priority b = 7 ∧ t_state b = READY.
Proof.
  apply (kthread_create_outcomes demo_layout demo demo_queues 0 0 0x400000 "second" 7 (proj1 demo_inv)).
  unfold QUEUES. lia.
Defined.

(** A new thread never reaches its entry function.  [kthread_create] pushes
    the callee-saved registers in the order opposite to the pops of
    [context_switch], so the first switch to the thread puts the entry address
    in [r13] and 0 in [r12], which is what the trampoline calls. *)
Theorem new_thread_calls_null {PA} `{!PageAllocator PA} lay (m : machine PA) Q cur idle func name priority t m1 bc :
  kernel_inv m Q cur idle → kthread_create lay func name priority m = Ok (Some t, m1) →
  kTcbPool m1 !! cur = Some bc →
  (∀ b, kTcbPool m1 !! t = Some b → apart (rsp (m_cpu m)) (ctx_rsp (t_context b))) →
  ∃ m2, context_switch cur t m1 = Ok ((), m2) ∧ rip (m_cpu m2) = thread_trampoline_addr lay ∧
    thread_trampoline m2 = Ok (0, m2) ∧ r13 (m_cpu m2) = func.
Proof.
  intros Hk Hr Hbc Hap. pose proof (kthread_create_cases lay m Q cur idle func name priority Hk) as Hout.
  pose proof (ki_created _ _ _ _ Hk) as (Hc & _ & _). destruct (ki_stacks _ _ _ _ Hk) as [Hrsp _].
  destruct Hout as [?|?|r pa F A p Hlt Hpa Hsub Er Hr0 Hinv Hhh Hh HF]; [discriminate..|].
  injection Hr as <- <-.
  set (top := r + pa_hhdm pa + KTHREAD_STACK_PAGES * PAGE_SIZE).
  set (bt := new_tcb (kNextThreadId m) name priority r (top - 56)).
  set (m1 := created lay m pa func name priority r) in *.
  assert (Hbt : kTcbPool m1 !! kNextTcbIndex m = Some bt) by apply lookup_insert_eq.
  assert (Htop : 56 ≤ top < 2 ^ 64).
  { assert (HF3 : (p + 3 + 1) * PAGE_SIZE + pa_hhdm pa < 2 ^ 64).
    { apply HF, Hsub, page_set_elem. change (block_size 2) with 4. lia. }
    unfold top, KTHREAD_STACK_PAGES, PAGE_SIZE in *. lia. }
  specialize (Hap bt Hbt). change (ctx_rsp (t_context bt)) with (top - 56) in Hap.
  assert (Ecpu : m_cpu m1 = m_cpu m) by reflexivity.
  assert (Estk : m_stack m1 = initial_stack lay top func (m_stack m)) by reflexivity.
  pose proof (context_switch_wp cur (kNextTcbIndex m) bc bt m1
    (λ _ m2, m2 = switched cur (kNextTcbIndex m) bc bt m1) Hbc Hbt ltac:(lia)) as Hw.
  rewrite Ecpu in Hw. destruct (proj1 (wp_ok _ _ _) (Hw ltac:(unfold stack_ok; lia)
    ltac:(change (ctx_rsp (t_context bt)) with (top - 56); unfold frame_ok; lia) eq_refl)) as ([] & m2 & E & ->).
  exists (switched cur (kNextTcbIndex m) bc bt m1). split; [done|].
  assert (Eload : m_cpu (switched cur (kNextTcbIndex m) bc bt m1) = load_frame (initial_stack lay top func (m_stack m)) (top - 56)).
  { rewrite <-(load_frame_apart (m_cpu m)) by done. rewrite <-Ecpu, <-Estk. reflexivity. }
  unfold thread_trampoline, gets. rewrite Eload. unfold load_frame, initial_stack. cbn [rip r12 r13].
  unfold insert, fn_insert. split_and!; [|do 2 f_equal|]; repeat case_decide; try lia; done.
Qed.

Lemma new_thread_calls_null_witness :
  ∃ m2, context_switch 0 1 demo_created = Ok ((), m2) ∧ rip (m_cpu m2) = 0x100000 ∧
    thread_trampoline m2 = Ok (0, m2) ∧ r13 (m_cpu m2) = 0x300000.
Proof.
  refine (new_thread_calls_null demo_layout demo_idle (λ _, []) 0 0 0x300000 "worker" 0 1 demo_created
    (default zero_tcb (kTcbPool demo_created !! 0)) (proj1 (proj2 demo_idle_inv)) (proj1 demo_created_inv) _ _).
  - vm_compute. reflexivity.
  - intros b Hb. assert (Hs : (ctx_rsp ∘ t_context) <$> kTcbPool demo_created !! 1 = Some 0xffff800000007fc8)
      by (vm_compute; reflexivity).
    rewrite Hb in Hs. injection Hs as Hs. simpl in Hs. rewrite Hs. right. vm_compute. discriminate.
Defined.

(** ** The idle thread and preemption *)

(** The idle thread starves normal threads.  It has priority 0, which is a
    real-time priority, and is re-queued like any other thread; while it runs
    and no other real-time or deadline thread is ready, [schedule] keeps it
    running and leaves every normal thread (priority 100 to 139) where it was,
    however many are ready. *)
Theorem idle_starves_normal {PA} `{!PageAllocator PA} lay (m : machine PA) Q idle :
  kernel_inv m Q idle idle → kSchedulingEnabled m = true → running m idle = true → prio_of m idle = 0%nat →
  (∀ t, deadline_of m t = None) → (∀ p, (p < 100)%nat → Q p = []) →
  ∃ m' Q', schedule lay m = Ok (Stay, m') ∧ kernel_inv m' Q' idle idle ∧ running m' idle = true ∧
    prio_of m' idle = 0%nat ∧ ∀ p, Q' p = Q p.
Proof.
  intros Hk Hen Hrun Hpr Hdl Hrt.
  pose proof (schedule_wp lay m Q idle idle (ki_sched _ _ _ _ Hk) Hen (ki_stacks _ _ _ _ Hk)) as Hw.
  assert (Eabs : abs_schedule (deadline_of m) (prio_of m) idle idle (running m idle) Q =
    (idle, <[0%nat := []]> (<[0%nat := [idle]]> Q))).
  { unfold abs_schedule. rewrite Hrun, Hpr, (Hrt 0%nat) by lia. cbn [app]. unfold abs_pick.
    rewrite dl_best_none by done. set (Q1 := <[0%nat := [idle]]> Q).
    assert (Hf : list_find (λ p, Q1 p ≠ []) pick_order = Some (99%nat, 0%nat)).
    { apply list_find_Some. split_and!; [vm_compute; reflexivity|unfold Q1; by rewrite fn_lookup_insert|].
      intros j p Hj Hlt. apply pick_order_inj in Hj. unfold rank in Hj.
      destruct (Nat.ltb_spec p 100); [|lia]. unfold Q1. rewrite fn_lookup_insert_ne, Hrt by lia. auto. }
    rewrite Hf. unfold Q1 at 1 2. by rewrite fn_lookup_insert. }
  rewrite Eabs in Hw. apply wp_ok in Hw as (r & m' & Hr & Hpost).
  pose proof (schedule_post_inv lay _ _ _ _ _ _ _ _ Hk Eabs Hpost) as Hk'.
  destruct Hpost as (_ & Hrun' & Hst & _ & _ & Hres). rewrite decide_True in Hres by done. subst r.
  exists m', (<[0%nat := []]> (<[0%nat := [idle]]> Q)). split_and!; [done|done|done|..].
  - by rewrite (proj2 (same_static_view m m' idle Hst)).
  - intros p. unfold insert, fn_insert. repeat case_decide; subst; try done. symmetry. apply Hrt. lia.
Qed.

(** The demo machine with the worker moved to a normal priority. *)
Definition normal_created : machine pmm := final_state (kthread_create demo_layout 0x300000 "worker" 120) demo_idle.
Definition normal_demo : machine pmm := final_state (scheduler_start 1000) (final_state (enqueue_thread 1) normal_created).
Definition normal_queues : nat → list Z := <[120%nat := [1]]> (λ _, []).

Lemma normal_demo_inv : kernel_inv normal_demo normal_queues 0 0.
Proof.
  destruct demo_idle_inv as (_ & Hk & _). assert (E : kNextTcbIndex demo_idle = 1) by (vm_compute; reflexivity).
  pose proof (kthread_create_final demo_layout demo_idle _ 0 0 0x300000 "worker" 120 Hk) as H. rewrite E in H.
  destruct H as (_ & Hk1 & Hix & Hpr); [unfold QUEUES; lia|unfold MAX_THREADS; lia|vm_compute; reflexivity|].
  fold normal_created in Hk1, Hix, Hpr. destruct (enqueue_final normal_created _ 0 0 1 Hk1) as [_ Hk2]; [lia| |lia|].
  { intros (p & _ & []%not_elem_of_nil)%elem_of_all_ready. }
  rewrite Hpr in Hk2. exact (kernel_inv_start _ normal_queues 0 0 _ true Hk2).
Qed.

Lemma normal_no_deadline t : deadline_of normal_demo t = None.
Proof.
  assert (Hall : forallb (λ i, bool_decide (deadline_of normal_demo i = None)) (seqZ 0 MAX_THREADS) = true)
    by (vm_compute; reflexivity).
  rewrite forallb_forall in Hall. destruct (decide (0 ≤ t < MAX_THREADS)) as [Ht|Ht].
  - eapply bool_decide_eq_true_1, Hall, list_elem_of_In, elem_of_seqZ. lia.
  - unfold deadline_of. destruct (kTcbPool normal_demo !! t) as [b|] eqn:Hb; [|reflexivity]. exfalso. apply Ht.
    apply (qi_dom _ _ (si_queues _ _ _ _ (ki_sched _ _ _ _ normal_demo_inv))). eauto.
Qed.

Lemma idle_starves_normal_witness :
  ∃ m' Q', schedule demo_layout normal_demo = Ok (Stay, m') ∧ kernel_inv m' Q' 0 0 ∧ running m' 0 = true ∧
    prio_of m' 0 = 0%nat ∧ ∀ p, Q' p = normal_queues p.
Proof.
  apply (idle_starves_normal demo_layout normal_demo normal_queues 0 normal_demo_inv);
    [vm_compute; reflexivity|vm_compute; reflexivity|vm_compute; reflexivity|exact normal_no_deadline|].
  intros p Hp. unfold normal_queues. rewrite fn_lookup_insert_ne by lia. reflexivity.
Defined.

(** A FIFO thread of priority 99 or above, normal priorities included, is
    never preempted by the timer: the handler only looks at queues 99 down to
    its own priority, finds nothing, re-arms the timer and returns, whatever
    real-time threads are ready. *)
Theorem fifo_not_preempted {PA} `{!PageAllocator PA} lay ticks (m : machine PA) cur b :
  kCurrentThread m = Some cur → kTcbPool m !! cur = Some b → t_policy b = FIFO → 99 ≤ t_priority b →
  apic_timer_handler lay ticks m = Ok (Stay, set_m_timer (Some (u32 (ticks * TICK_INTERVAL_MS))) m).
Proof.
  intros Hcur Hb Hpol Hpr.
  assert (Hw : wp (apic_timer_handler lay ticks)
    (λ r m', r = Stay ∧ m' = set_m_timer (Some (u32 (ticks * TICK_INTERVAL_MS))) m) m).
  { unfold apic_timer_handler, thread_current. apply wp_bind, wp_gets. rewrite Hcur.
    apply wp_bind. eapply wp_deref; [done|].
    apply wp_bind. eapply wp_read_tcb; [exact Hb|]. apply wp_bind. rewrite decide_True by done.
    unfold higher_ready. apply wp_bind, wp_get, wp_ret. destruct (existsb _ _) eqn:E.
    - exfalso. apply existsb_exists in E as (p & Hp & _).
      apply list_elem_of_In, list_elem_of_filter in Hp as [Hlt Hp]. unfold rt_order in Hp.
      rewrite elem_of_reverse, elem_of_seq in Hp. lia.
    - apply wp_bind, wp_modify, wp_ret. done. }
  apply wp_ok in Hw as (r & m' & -> & -> & ->). done.
Qed.

(** The running thread is a FIFO thread of priority 120; a real-time thread is ready. *)
Definition fifo_demo : machine pmm := final_state (write_tcb 0 (set_t_priority 120)) demo.

Lemma fifo_not_preempted_witness :
  rq_head <$> kReadyQueues fifo_demo !! 0%nat = Some (Some 1) ∧
  apic_timer_handler demo_layout 1000 fifo_demo = Ok (Stay, set_m_timer (Some 1000) fifo_demo).
Proof.
  split; [vm_compute; reflexivity|].
  refine (fifo_not_preempted demo_layout 1000 fifo_demo 0 (default zero_tcb (kTcbPool fifo_demo !! 0)) _ _ _ _);
    [vm_compute; reflexivity|vm_compute; reflexivity|vm_compute; reflexivity|vm_compute; discriminate].
Defined.

(** A thread created with a priority of 140 or above can never be made
    ready: enqueueing it is a kernel panic. *)
Theorem enqueue_priority_panics {PA} `{!PageAllocator PA} (m : machine PA) t b :
  kTcbPool m !! t = Some b → Z.of_nat QUEUES ≤ t_priority b →
  enqueue_thread t m = Panic "KERNEL_BUG_ON: prio >= 140".
Proof.
  intros Hb Hp. unfold enqueue_thread.
  assert (E1 : write_tcb t (set_t_state READY) m =
    Ok ((), set_kTcbPool (<[t := set_t_state READY b]> (kTcbPool m)) m)).
  { unfold write_tcb, read_tcb, mbind, M_bind, get, deref. by rewrite Hb. }
  rewrite (bind_ok _ _ _ _ _ E1).
  assert (E2 : read_tcb t (set_kTcbPool (<[t := set_t_state READY b]> (kTcbPool m)) m) =
    Ok (set_t_state READY b, set_kTcbPool (<[t := set_t_state READY b]> (kTcbPool m)) m)).
  { unfold read_tcb, mbind, M_bind, get, deref. cbn [kTcbPool set_kTcbPool]. by rewrite lookup_insert_eq. }
  rewrite (bind_ok _ _ _ _ _ E2). unfold mbind, M_bind, queue_push_back. cbn [t_priority set_t_state].
  by rewrite (proj2 (Z.leb_le _ _) Hp).
Qed.

Lemma enqueue_priority_panics_witness :
  enqueue_thread 1 (final_state (kthread_create demo_layout 0x300000 "high" 255) demo_idle) =
    Panic "KERNEL_BUG_ON: prio >= 140".
Proof.
  refine (enqueue_priority_panics _ 1
    (default zero_tcb (kTcbPool (final_state (kthread_create demo_layout 0x300000 "high" 255) demo_idle) !! 1)) _ _);
    [vm_compute; reflexivity|vm_compute; discriminate].
Defined.
