(* ===== verification/Heap.v ===== *)
(** * The slab heap

    Model of src/kernel/heap.cpp.  A slab is one page: its header, then objects
    of one size; the first word of a free object links to the next one.
    [hp_slabs] are the headers by address, [hp_link] those first words.  The heap
    reads and writes the metadata of page frames; [FrameStore] is what it relies
    on there, beyond the page allocator's contract. *)

From S2P Require Import Prelude Pmm PmmBlocks PageAlloc.
Open Scope Z_scope.

Class FrameStore (S : Type) `{!PageAllocator S} := {
  fs_private : S → Z → option Z;
  fs_order : S → Z → option nat;
  fs_set_private : Z → Z → M S ();
  fs_set_spec s F A q v : pa_inv s F A → q ∈ pages A → is_Some (fs_private s q) →
    wp (fs_set_private q v) (λ _ s', pa_inv s' F A ∧ pa_hhdm s' = pa_hhdm s ∧
      ∀ q', fs_private s' q' = if decide (q' = q) then Some v else fs_private s q') s;
  fs_alloc_keep s c r s' q : pa_alloc c s = Ok (r, s') → fs_private s' q = fs_private s q;
  fs_free_keep s a c s' q : pa_free a c s = Ok ((), s') → fs_private s' q = fs_private s q ∧ pa_hhdm s' = pa_hhdm s;
  fs_block s F A p o : pa_inv s F A → (p, o) ∈ A → is_Some (fs_private s p) ∧ fs_order s p = Some o
}.

Record Slab := mkSlab {
  sl_free_list : option Z;
  sl_free_count : Z;
  sl_next : option Z;
  sl_prev : option Z;
  sl_cache : nat
}.
Definition sizeof_Slab : Z := 40.

Definition set_sl_free (fl : option Z) (n : Z) (r : Slab) : Slab := mkSlab fl n (sl_next r) (sl_prev r) (sl_cache r).
Definition set_sl_next (v : option Z) (r : Slab) : Slab := mkSlab (sl_free_list r) (sl_free_count r) v (sl_prev r) (sl_cache r).
Definition set_sl_prev (v : option Z) (r : Slab) : Slab := mkSlab (sl_free_list r) (sl_free_count r) (sl_next r) v (sl_cache r).

Record SlabCache := mkCache { sc_object_size : Z; sc_partial : option Z; sc_full : option Z; sc_empty : option Z }.

Definition NUM_CACHES : nat := 9.
Definition kCaches : list SlabCache := (λ n, mkCache n None None None) <$> [8; 16; 32; 64; 128; 256; 512; 1024; 2048].

(** The three lists of a cache. *)
Inductive which := Partial | Full | Empty.

#[export] Instance which_eq_dec : EqDecision which.
Proof. solve_decision. Defined.

Definition sc_head (w : which) (c : SlabCache) : option Z :=
  match w with Partial => sc_partial c | Full => sc_full c | Empty => sc_empty c end.
Definition set_sc_head (w : which) (v : option Z) (c : SlabCache) : SlabCache :=
  match w with
  | Partial => mkCache (sc_object_size c) v (sc_full c) (sc_empty c)
  | Full => mkCache (sc_object_size c) (sc_partial c) v (sc_empty c)
  | Empty => mkCache (sc_object_size c) (sc_partial c) (sc_full c) v
  end.

Record heap (PA : Type) := mkHeap {
  hp_pages : PA;
  hp_slabs : gmap Z Slab;
  hp_link : Z → option Z;
  hp_caches : list SlabCache
}.
Arguments mkHeap {PA}.
Arguments hp_pages {PA} _.
Arguments hp_slabs {PA} _.
Arguments hp_link {PA} _.
Arguments hp_caches {PA} _.

Definition set_hp_pages {PA} (v : PA) (r : heap PA) : heap PA := mkHeap v (hp_slabs r) (hp_link r) (hp_caches r).
Definition set_hp_slabs {PA} (v : gmap Z Slab) (r : heap PA) : heap PA := mkHeap (hp_pages r) v (hp_link r) (hp_caches r).
Definition set_hp_link {PA} (v : Z → option Z) (r : heap PA) : heap PA := mkHeap (hp_pages r) (hp_slabs r) v (hp_caches r).
Definition set_hp_caches {PA} (v : list SlabCache) (r : heap PA) : heap PA := mkHeap (hp_pages r) (hp_slabs r) (hp_link r) v.

Section heap.
Context {PA : Type} `{!PageAllocator PA} `{!FrameStore PA}.
Abbreviation W := (M (heap PA)).

Definition hp_op {A} (op : M PA A) : W A := λ s,
  match op (hp_pages s) with
  | Ok (a, pa) => Ok (a, set_hp_pages pa s)
  | Panic msg => Panic msg
  | UB => UB
  end.
Definition read_slab (a : Z) : W Slab := s ← get; deref (hp_slabs s !! a).
Definition write_slab (a : Z) (f : Slab → Slab) : W () :=
  r ← read_slab a; modify (λ s, set_hp_slabs (<[a := f r]> (hp_slabs s)) s).
Definition read_cache (c : nat) : W SlabCache := s ← get; deref (hp_caches s !! c).
Definition write_cache (c : nat) (f : SlabCache → SlabCache) : W () :=
  r ← read_cache c; modify (λ s, set_hp_caches (<[c := f r]> (hp_caches s)) s).
(** [*reinterpret_cast<void**>(a) = v] *)
Definition write_link (a : Z) (v : option Z) : W () := modify (λ s, set_hp_link (<[a := v]> (hp_link s)) s).

(** ** Slabs *)

(** [n] links between objects of [size] bytes from [curr], then null. *)
Fixpoint build_links (n : nat) (curr size : Z) : W () :=
  match n with
  | O => write_link curr None
  | S n => write_link curr (Some (curr + size));; build_links n (curr + size) size
  end.

Definition slab_capacity (size : Z) : Z := (PAGE_SIZE - sizeof_Slab) / size.

Definition slab_create (c : nat) : W (option Z) :=
  phys ← hp_op (pa_alloc 1);
  if phys =? 0 then mret None
  else
    s ← get;
    let virt := phys +64 pa_hhdm (hp_pages s) in
    cache ← read_cache c;
    let size := sc_object_size cache in
    let free_count := u32 (slab_capacity size) in
    let first_obj := virt + sizeof_Slab in
    modify (λ s, set_hp_slabs (<[virt := mkSlab (Some first_obj) free_count None None c]> (hp_slabs s)) s);;
    build_links (Z.to_nat (u32 (free_count - 1))) first_obj size;;
    (match fs_private (hp_pages s) (phys_to_pfn phys) with None => undefined | Some _ => mret () end);;
    hp_op (fs_set_private (phys_to_pfn phys) virt);;
    mret (Some virt).

(** ** The lists of a cache *)

(** [slab->next = head; if (head) head->prev = slab; head = slab; slab->prev = nullptr] *)
Definition push_slab (c : nat) (w : which) (slab : Z) : W () :=
  cache ← read_cache c;
  write_slab slab (set_sl_next (sc_head w cache));;
  match sc_head w cache with
  | Some h => write_slab h (set_sl_prev (Some slab))
  | None => mret ()
  end;;
  write_cache c (set_sc_head w (Some slab));;
  write_slab slab (set_sl_prev None).

(** [if (prev) prev->next = next; else head = next; if (next) next->prev = prev] *)
Definition remove_slab (c : nat) (w : which) (slab : Z) : W () :=
  r ← read_slab slab;
  match sl_prev r with
  | Some p => write_slab p (set_sl_next (sl_next r))
  | None => write_cache c (set_sc_head w (sl_next r))
  end;;
  r ← read_slab slab;
  match sl_next r with
  | Some n => write_slab n (set_sl_prev (sl_prev r))
  | None => mret ()
  end.

(** [cache->empty = slab->next; if (cache->empty) cache->empty->prev = nullptr] *)
Definition pop_empty (c : nat) (slab : Z) : W () :=
  r ← read_slab slab;
  write_cache c (set_sc_head Empty (sl_next r));;
  match sl_next r with
  | Some n => write_slab n (set_sl_prev None)
  | None => mret ()
  end.

(** ** Allocation *)

(** The index of the first cache whose objects are large enough. *)
Fixpoint find_cache (size : Z) (cs : list SlabCache) (i : nat) : option nat :=
  match cs with
  | [] => None
  | c :: cs => if size <=? sc_object_size c then Some i else find_cache size cs (S i)
  end.

(** A slab at the head of the partial list; [None] when there is no page. *)
Definition partial_slab (c : nat) : W (option Z) :=
  cache ← read_cache c;
  match sc_partial cache with
  | Some slab => mret (Some slab)
  | None =>
    r ← match sc_empty cache with
        | None => slab_create c
        | Some slab => pop_empty c slab;; mret (Some slab)
        end;
    match r with
    | None => mret None
    | Some slab => push_slab c Partial slab;; mret (Some slab)
    end
  end.

(** Take the first free object of the slab; a full slab changes lists. *)
Definition take_object (c : nat) (slab : Z) : W Z :=
  r ← read_slab slab;
  match sl_free_list r with
  | None => undefined
  | Some obj =>
    s ← get;
    let n := u32 (sl_free_count r - 1) in
    write_slab slab (set_sl_free (hp_link s obj) n);;
    (if n =? 0 then remove_slab c Partial slab;; push_slab c Full slab else mret ());;
    mret obj
  end.

Definition kmalloc (size : Z) : W Z :=
  if size =? 0 then mret 0
  else
    s ← get;
    match find_cache size (hp_caches s) 0 with
    | None =>
      phys ← hp_op (pa_alloc ((size +64 PAGE_MASK) / PAGE_SIZE));
      if phys =? 0 then mret 0
      else s ← get; mret (phys +64 pa_hhdm (hp_pages s))
    | Some c =>
      r ← partial_slab c;
      match r with
      | None => mret 0
      | Some slab => take_object c slab
      end
    end.

(** ** Deallocation *)

(** The slab is completely free: from partial to empty. *)
Definition to_empty (c : nat) (slab : Z) : W () :=
  r ← read_slab slab;
  cache ← read_cache c;
  (if slab_capacity (sc_object_size cache) <=? sl_free_count r then remove_slab c Partial slab;; push_slab c Empty slab else mret ()).

(** The slab was full: from full to partial, before the test for empty. *)
Definition to_partial (c : nat) (slab : Z) : W () :=
  r ← read_slab slab;
  (if sl_free_count r =? 1 then remove_slab c Full slab;; push_slab c Partial slab else mret ());;
  to_empty c slab.

Definition free_object (slab ptr : Z) : W () :=
  r ← read_slab slab;
  let c := sl_cache r in
  write_link ptr (sl_free_list r);;
  write_slab slab (set_sl_free (Some ptr) (u32 (sl_free_count r + 1)));;
  to_partial c slab.

Definition kfree (ptr : Z) : W () :=
  if ptr =? 0 then mret ()
  else
    s ← get;
    let phys := ptr -64 pa_hhdm (hp_pages s) in
    let pfn := phys_to_pfn phys in
    match fs_private (hp_pages s) pfn with
    | None => mret ()
    | Some d =>
      if negb (d =? 0) then free_object d ptr
      else
        order ← deref (fs_order (hp_pages s) pfn);
        hp_op (pa_free phys (block_size order))
    end.
End heap.
