(* ===== verification/HeapLists.v ===== *)
(** * The slab lists

    Every cache has three doubly linked lists of slabs.  [G c w] are the slabs of
    list [w] of cache [c]; pushing and removing a slab change one of them and
    nothing else of any slab but its links. *)

From S2P Require Import Prelude LinkedList Pmm PmmBlocks PageAlloc Heap.
Open Scope Z_scope.

Section lists.
Context {PA : Type} `{!PageAllocator PA} `{!FrameStore PA}.
Implicit Types h : heap PA.

Definition snext h (a : Z) : option Z := hp_slabs h !! a ≫= sl_next.
Definition sprev h (a : Z) : option Z := hp_slabs h !! a ≫= sl_prev.
Definition chead h (c : nat) (w : which) : option Z := hp_caches h !! c ≫= sc_head w.

(** The slabs of [h'] are those of [h] with links [nx] and [pv]. *)
Definition relinked h h' (nx pv : Z → option Z) : Prop :=
  ∀ y, hp_slabs h' !! y = (λ r, mkSlab (sl_free_list r) (sl_free_count r) (nx y) (pv y) (sl_cache r)) <$> hp_slabs h !! y.

(** Everything but the slabs' links and one list head. *)
Definition same_rest (c : nat) (w : which) (v : option Z) h h' : Prop :=
  hp_pages h' = hp_pages h ∧ hp_link h' = hp_link h ∧
  ∀ c', hp_caches h' !! c' = (if decide (c' = c) then set_sc_head w v else id) <$> hp_caches h !! c'.

Lemma wp_write_slab a f r h (R : () → heap PA → Prop) : hp_slabs h !! a = Some r →
  R () (set_hp_slabs (<[a := f r]> (hp_slabs h)) h) → wp (write_slab a f) R h.
Proof. intros Hr HR. unfold write_slab, read_slab. apply wp_bind, wp_bind, wp_get. eapply wp_deref; [exact Hr|]. by apply wp_modify. Qed.

Lemma wp_read_slab a r h (R : Slab → heap PA → Prop) : hp_slabs h !! a = Some r → R r h → wp (read_slab a) R h.
Proof. intros Hr HR. unfold read_slab. apply wp_bind, wp_get. by eapply wp_deref. Qed.

Lemma wp_read_cache c r h (R : SlabCache → heap PA → Prop) : hp_caches h !! c = Some r → R r h → wp (read_cache c) R h.
Proof. intros Hr HR. unfold read_cache. apply wp_bind, wp_get. by eapply wp_deref. Qed.

Lemma cache_insert (cs : list SlabCache) c f r c' : cs !! c = Some r →
  <[c := f r]> cs !! c' = (if decide (c' = c) then f else id) <$> cs !! c'.
Proof.
  intros Hr. case_decide as E.
  - subst c'. rewrite list_lookup_insert_eq by by eapply lookup_lt_Some. by rewrite Hr.
  - rewrite list_lookup_insert_ne by done. by destruct (cs !! c').
Qed.

Lemma wp_write_cache c w v r h (R : () → heap PA → Prop) : hp_caches h !! c = Some r →
  (∀ cs, (∀ c', cs !! c' = (if decide (c' = c) then set_sc_head w v else id) <$> hp_caches h !! c') → R () (set_hp_caches cs h)) →
  wp (write_cache c (set_sc_head w v)) R h.
Proof.
  intros Hr HR. unfold write_cache. apply wp_bind. eapply wp_read_cache; [exact Hr|]. apply wp_modify, HR.
  intros c'. by apply cache_insert.
Qed.

Lemma push_slab_run c w a r cache h (R : () → heap PA → Prop) :
  hp_slabs h !! a = Some r → hp_caches h !! c = Some cache →
  (∀ x, sc_head w cache = Some x → x ≠ a ∧ is_Some (hp_slabs h !! x)) →
  (∀ h', same_rest c w (Some a) h h' →
     relinked h h' (λ y, if decide (y = a) then sc_head w cache else snext h y)
       (λ y, if decide (y = a) then None else if decide (sc_head w cache = Some y) then Some a else sprev h y) → R () h') →
  wp (push_slab c w a) R h.
Proof.
  intros Hr Hc Hx HR. unfold push_slab. apply wp_bind. eapply wp_read_cache; [exact Hc|].
  apply wp_bind. eapply wp_write_slab; [exact Hr|]. set (m1 := <[a := _]> (hp_slabs h)).
  assert (Hm1 : m1 !! a = Some (set_sl_next (sc_head w cache) r)) by apply lookup_insert_eq.
  assert (Hfin : ∀ m2, m2 !! a = Some (set_sl_next (sc_head w cache) r) →
    (∀ y, y ≠ a → m2 !! y = (λ r, mkSlab (sl_free_list r) (sl_free_count r) (sl_next r) (if decide (sc_head w cache = Some y) then Some a else sl_prev r) (sl_cache r)) <$> hp_slabs h !! y) →
    wp (write_cache c (set_sc_head w (Some a));; write_slab a (set_sl_prev None)) R (set_hp_slabs m2 h)).
  { intros m2 H2 Hy. apply wp_bind. eapply wp_write_cache; [exact Hc|]. intros cs Hcs. eapply wp_write_slab; [exact H2|].
    apply HR; [by split_and!|]. intros y. cbn [hp_slabs set_hp_slabs set_hp_caches]. destruct (decide (y = a)) as [->|Hne].
    - rewrite lookup_insert_eq, Hr. cbn [fmap option_fmap option_map]. done.
    - rewrite lookup_insert_ne, Hy by done. unfold snext, sprev. by destruct (hp_slabs h !! y). }
  apply wp_bind. destruct (sc_head w cache) as [x|] eqn:Eh.
  - destruct (Hx x eq_refl) as [Hxa [rx Hrx]]. eapply wp_write_slab; [cbn [hp_slabs set_hp_slabs]; subst m1; rewrite lookup_insert_ne by done; exact Hrx|].
    cbn [hp_slabs set_hp_slabs]. change (set_hp_slabs ?m (set_hp_slabs m1 h)) with (set_hp_slabs m h). apply Hfin.
    + by rewrite lookup_insert_ne by done.
    + intros y Hy. destruct (decide (y = x)) as [->|Hyx].
      * rewrite lookup_insert_eq, Hrx. cbn [fmap option_fmap option_map]. by destruct (decide (Some x = Some x)).
      * subst m1. rewrite !lookup_insert_ne by done. destruct (hp_slabs h !! y) as [[]|]; [|done].
        cbn [fmap option_fmap option_map]. by rewrite decide_False by congruence.
  - apply wp_ret, Hfin; [done|]. intros y Hy. subst m1. rewrite lookup_insert_ne by done.
    by destruct (hp_slabs h !! y) as [[]|].
Qed.

(** The links after the slab with header [r] was unlinked. *)
Definition unlinked_next h (r : Slab) (y : Z) : option Z := if decide (sl_prev r = Some y) then sl_next r else snext h y.
Definition unlinked_prev h (r : Slab) (y : Z) : option Z := if decide (sl_next r = Some y) then sl_prev r else sprev h y.

(** The head changes when the slab was first. *)
Definition rest_after (c : nat) (w : which) (r : Slab) h h' : Prop :=
  match sl_prev r with
  | None => same_rest c w (sl_next r) h h'
  | Some _ => hp_pages h' = hp_pages h ∧ hp_link h' = hp_link h ∧ hp_caches h' = hp_caches h
  end.

Lemma unlink_next_run a r h1 h (R : () → heap PA → Prop) c w :
  hp_slabs h !! a = Some r → rest_after c w r h h1 →
  (∀ y, hp_slabs h1 !! y = (λ s, mkSlab (sl_free_list s) (sl_free_count s) (if decide (sl_prev r = Some y) then sl_next r else sl_next s) (sl_prev s) (sl_cache s)) <$> hp_slabs h !! y) →
  (∀ x, sl_next r = Some x ∨ sl_prev r = Some x → x ≠ a ∧ is_Some (hp_slabs h !! x)) →
  (∀ h', rest_after c w r h h' → relinked h h' (unlinked_next h r) (unlinked_prev h r) → R () h') →
  wp (match sl_next r with Some n => write_slab n (set_sl_prev (sl_prev r)) | None => mret () end) R h1.
Proof.
  intros Hr Hrest Hm Hx HR. unfold relinked, unlinked_next, unlinked_prev, snext, sprev in HR. destruct (sl_next r) as [n|] eqn:En.
  - destruct (Hx n (or_introl eq_refl)) as [Hna [rn Hrn]].
    eapply wp_write_slab; [by rewrite Hm, Hrn|]. apply HR.
    + unfold rest_after, same_rest in *. by destruct (sl_prev r).
    + intros y. cbn [hp_slabs set_hp_slabs]. destruct (decide (y = n)) as [->|Hy].
      * rewrite lookup_insert_eq, Hrn. cbn [fmap option_fmap option_map mbind option_bind]. by destruct (decide (Some n = Some n)).
      * rewrite lookup_insert_ne, Hm by done. destruct (hp_slabs h !! y); [|done].
        cbn [fmap option_fmap option_map mbind option_bind]. by rewrite (decide_False (P := Some n = Some y)) by congruence.
  - apply wp_ret, HR; [done|]. intros y. rewrite Hm. by destruct (hp_slabs h !! y).
Qed.

Lemma remove_slab_run c w a r cache h (R : () → heap PA → Prop) :
  hp_slabs h !! a = Some r → hp_caches h !! c = Some cache →
  (∀ x, sl_next r = Some x ∨ sl_prev r = Some x → x ≠ a ∧ is_Some (hp_slabs h !! x)) →
  (∀ h', rest_after c w r h h' → relinked h h' (unlinked_next h r) (unlinked_prev h r) → R () h') →
  wp (remove_slab c w a) R h.
Proof.
  intros Hr Hc Hx HR. unfold remove_slab. apply wp_bind. eapply wp_read_slab; [exact Hr|].
  apply wp_bind. destruct (sl_prev r) as [p|] eqn:Ep.
  - destruct (Hx p (or_intror eq_refl)) as [Hpa [rp Hrp]]. eapply wp_write_slab; [exact Hrp|].
    apply wp_bind. eapply wp_read_slab; [cbn [hp_slabs set_hp_slabs]; rewrite lookup_insert_ne by done; exact Hr|].
    eapply unlink_next_run; [exact Hr| | |rewrite Ep; exact Hx|exact HR].
    + unfold rest_after. by rewrite Ep.
    + intros y. rewrite Ep. cbn [hp_slabs set_hp_slabs]. destruct (decide (y = p)) as [->|Hy].
      * rewrite lookup_insert_eq, Hrp. cbn [fmap option_fmap option_map]. by destruct (decide (Some p = Some p)).
      * rewrite lookup_insert_ne by done. destruct (hp_slabs h !! y) as [[]|]; [|done]. cbn [fmap option_fmap option_map].
        by rewrite decide_False by congruence.
  - eapply wp_write_cache; [exact Hc|]. intros cs Hcs. apply wp_bind. eapply wp_read_slab; [exact Hr|].
    eapply unlink_next_run; [exact Hr| | |rewrite Ep; exact Hx|exact HR].
    + unfold rest_after. rewrite Ep. by split_and!.
    + intros y. rewrite Ep. cbn [hp_slabs set_hp_caches]. by destruct (hp_slabs h !! y) as [[]|].
Qed.

(** [pop_empty] of the first slab is the removal. *)
Lemma pop_empty_run c a r cache h (R : () → heap PA → Prop) :
  hp_slabs h !! a = Some r → hp_caches h !! c = Some cache → sl_prev r = None →
  (∀ x, sl_next r = Some x → x ≠ a ∧ is_Some (hp_slabs h !! x)) →
  (∀ h', rest_after c Empty r h h' → relinked h h' (unlinked_next h r) (unlinked_prev h r) → R () h') →
  wp (pop_empty c a) R h.
Proof.
  intros Hr Hc Ep Hx HR. unfold pop_empty. apply wp_bind. eapply wp_read_slab; [exact Hr|].
  apply wp_bind. eapply wp_write_cache; [exact Hc|]. intros cs Hcs.
  rewrite <-Ep. eapply unlink_next_run; [exact Hr| | | |exact HR].
  - unfold rest_after. rewrite Ep. by split_and!.
  - intros y. rewrite Ep. cbn [hp_slabs set_hp_caches]. by destruct (hp_slabs h !! y) as [[]|].
  - rewrite Ep. intros x [?|?]; [by apply Hx|done].
Qed.
End lists.
