(* ===== verification/HeapInv.v ===== *)
(** * The heap's invariant

    A slab is a page of its own; the objects of a slab that are not on its free
    list are live, and so are the blocks of pages handed out directly.  [data_ok]
    says so without the lists of the caches; [lists_ok] is about those alone, so
    that moving a slab from list to list leaves [data_ok] as it is. *)

From S2P Require Import Prelude LinkedList Pmm PmmBlocks PageAlloc Heap HeapLists.
Open Scope Z_scope.

Definition cache_sizes : list Z := sc_object_size <$> kCaches.

(** The object addresses of a slab. *)
Definition objects (a size : Z) : list Z := (λ i, a + sizeof_Slab + i * size) <$> seqZ 0 (slab_capacity size).

Lemma cache_size_bounds c size : cache_sizes !! c = Some size →
  8 ≤ size ≤ 2048 ∧ 0 < slab_capacity size < 2 ^ 32 ∧ slab_capacity size * size ≤ PAGE_SIZE - sizeof_Slab.
Proof.
  intros Hc. assert (Hs : 8 ≤ size ≤ 2048).
  { apply list_elem_of_lookup_2 in Hc. revert Hc. cbn. rewrite !elem_of_cons, elem_of_nil. lia. }
  split; [done|]. unfold slab_capacity, PAGE_SIZE, sizeof_Slab in *. split.
  - split; [apply Z.div_str_pos; lia|]. apply Z.div_lt_upper_bound; lia.
  - rewrite Z.mul_comm. apply Z.mul_div_le. lia.
Qed.

Lemma elem_of_objects a size p : p ∈ objects a size ↔
  ∃ i, 0 ≤ i < slab_capacity size ∧ p = a + sizeof_Slab + i * size.
Proof.
  unfold objects. rewrite list_elem_of_fmap. setoid_rewrite elem_of_seqZ. split; intros (i & H1 & H2); exists i; (split; [lia|done]) || (split; [done|lia]).
Qed.

(** An object lies inside its slab's page. *)
Lemma object_range a c size p : cache_sizes !! c = Some size → p ∈ objects a size →
  a < p ∧ p + size ≤ a + PAGE_SIZE.
Proof.
  intros Hc (i & Hi & ->)%elem_of_objects. destruct (cache_size_bounds _ _ Hc) as (Hs & _ & Hb).
  unfold sizeof_Slab in *. nia.
Qed.

Lemma length_objects a size : length (objects a size) = Z.to_nat (slab_capacity size).
Proof. unfold objects. by rewrite length_fmap, length_seqZ. Qed.

(** The part of a slab header that is not a list link. *)
Definition payload (r : Slab) : option Z * Z * nat := (sl_free_list r, sl_free_count r, sl_cache r).

Section inv.
Context {PA : Type} `{!PageAllocator PA} `{!FrameStore PA}.
Implicit Types (h : heap PA) (place : Z → option which).

Definition slab_at h (a : Z) : option (option Z * Z * nat) := payload <$> hp_slabs h !! a.
Definition hhdm h : Z := pa_hhdm (hp_pages h).
Definition page_addr h (q : Z) : Z := hhdm h + q * PAGE_SIZE.
Definition private h (q : Z) : option Z := fs_private (hp_pages h) q.

(** A frame the direct map reaches. *)
Definition mapped h (q : Z) : Prop := 0 ≤ q ∧ page_addr h q + PAGE_SIZE ≤ 2 ^ 64.

Definition slab_ok h (A : list block) (fl : Z → list Z) (a : Z) (f : option Z) (n : Z) (c : nat) : Prop :=
  ∃ q size, a = page_addr h q ∧ (q, O) ∈ A ∧ q ≠ 0 ∧ mapped h q ∧ private h q = Some a ∧
    cache_sizes !! c = Some size ∧ chain (hp_link h) f (fl a) ∧ n = Z.of_nat (length (fl a)) ∧
    ∀ p, p ∈ fl a → p ∈ objects a size.

Definition direct_ok h (b : block) : Prop := b.1 ≠ 0 ∧ ∀ x, x ∈ block_pages b → mapped h x ∧ private h x = Some 0.

Definition object_live h (fl : Z → list Z) (p e : Z) : Prop :=
  ∃ a f n c, slab_at h a = Some (f, n, c) ∧ cache_sizes !! c = Some e ∧ p ∈ objects a e ∧ p ∉ fl a.
Definition direct_live h (D : list block) (p e : Z) : Prop :=
  ∃ q o, (q, o) ∈ D ∧ p = page_addr h q ∧ e = block_size o * PAGE_SIZE.

Record data_ok h (F : gset Z) (A : list block) (fl : Z → list Z) (D : list block) (L : gmap Z Z) : Prop := {
  do_pages : pa_inv (hp_pages h) F A;
  do_hhdm : 0 ≤ hhdm h;
  do_sizes : sc_object_size <$> hp_caches h = cache_sizes;
  do_free : ∀ q, q ∈ F → mapped h q ∧ private h q = Some 0;
  do_slabs : ∀ a f n c, slab_at h a = Some (f, n, c) → slab_ok h A fl a f n c;
  do_direct : ∀ b, b ∈ D → b ∈ A ∧ direct_ok h b;
  do_live : ∀ p e, L !! p = Some e ↔ object_live h fl p e ∨ direct_live h D p e
}.

(** [place a] is the list the slab [a] is on. *)
Definition lists_ok h (place : Z → option which) : Prop :=
  ∀ c w, ∃ l, dchain (snext h) (sprev h) (chead h c w) l ∧
    ∀ a, a ∈ l ↔ place a = Some w ∧ ∃ f n, slab_at h a = Some (f, n, c).

(** The list a slab with [n] free objects belongs to. *)
Definition belongs (w : which) (n cap : Z) : Prop :=
  match w with Partial => 0 < n < cap | Full => n = 0 | Empty => n = cap end.

Definition placed_ok h (place : Z → option which) : Prop :=
  ∀ a f n c, slab_at h a = Some (f, n, c) → ∃ w size, place a = Some w ∧ cache_sizes !! c = Some size ∧ belongs w n (slab_capacity size).

Definition heap_inv h (L : gmap Z Z) : Prop :=
  ∃ F A fl D place, data_ok h F A fl D L ∧ lists_ok h place ∧ placed_ok h place.

(** ** Moving slabs between lists *)

(** What list operations leave alone. *)
Definition moved h h' : Prop :=
  hp_pages h' = hp_pages h ∧ hp_link h' = hp_link h ∧
  sc_object_size <$> hp_caches h' = sc_object_size <$> hp_caches h ∧ ∀ a, slab_at h' a = slab_at h a.

Lemma data_ok_moved h h' F A fl D L : moved h h' → data_ok h F A fl D L → data_ok h' F A fl D L.
Proof.
  intros (Ep & El & Es & Ea) [H1 H2 H3 H4 H5 H6 H7].
  split; unfold object_live, direct_live, slab_ok, direct_ok, mapped, page_addr, private, hhdm in *;
    rewrite ?Ep, ?El; [done|done|by rewrite Es|done| |done|].
  - intros a f n c. rewrite Ea. apply H5.
  - setoid_rewrite Ea. done.
Qed.

Lemma moved_trans h h1 h2 : moved h h1 → moved h1 h2 → moved h h2.
Proof. intros (E1 & E2 & E3 & E4) (F1 & F2 & F3 & F4). split_and!; [congruence..|]. intros a. by rewrite F4, E4. Qed.

Lemma relinked_slab_at h h' nx pv : relinked h h' nx pv →
  (∀ a, slab_at h' a = slab_at h a) ∧
  (∀ a, is_Some (slab_at h a) → snext h' a = nx a ∧ sprev h' a = pv a).
Proof.
  unfold relinked, slab_at, snext, sprev. intros H. split; intros a; rewrite H; destruct (hp_slabs h !! a) as [[]|]; cbn; [done..|].
  by intros [? ?].
Qed.

Lemma sizes_same (cs cs' : list SlabCache) c w v :
  (∀ c', cs' !! c' = (if decide (c' = c) then set_sc_head w v else id) <$> cs !! c') →
  sc_object_size <$> cs' = sc_object_size <$> cs.
Proof.
  intros H. apply list_eq. intros i. rewrite !list_lookup_fmap, H. destruct (cs !! i) as [[]|]; [|done]. cbn.
  f_equal. case_decide; [by destruct w|done].
Qed.

Lemma same_rest_data h h' c w v : same_rest c w v h h' →
  hp_pages h' = hp_pages h ∧ hp_link h' = hp_link h ∧ sc_object_size <$> hp_caches h' = sc_object_size <$> hp_caches h.
Proof. intros (? & ? & Hc). split_and!; [done..|]. by eapply sizes_same. Qed.

Lemma same_rest_head h h' c w v cache : same_rest c w v h h' → hp_caches h !! c = Some cache →
  chead h' c w = v ∧ ∀ c' w', (c', w') ≠ (c, w) → chead h' c' w' = chead h c' w'.
Proof.
  intros (_ & _ & H) Hc. unfold chead. split.
  - rewrite H, Hc, decide_True by done. by destruct w.
  - intros c' w' Hne. rewrite H. destruct (hp_caches h !! c') as [[]|]; [|done]. cbn. case_decide; [|done].
    subst. destruct w, w'; done.
Qed.

Lemma in_list_slab h place c w (l : list Z) a : (∀ a, a ∈ l ↔ place a = Some w ∧ ∃ f n, slab_at h a = Some (f, n, c)) →
  a ∈ l → is_Some (slab_at h a) ∧ is_Some (hp_slabs h !! a).
Proof.
  intros Hl (_ & f & n & E)%Hl. split; [by eexists|]. unfold slab_at in E. by destruct (hp_slabs h !! a).
Qed.

(** A list the operation did not touch. *)
Lemma other_list h h' nx pv place place' c w (l : list Z) hd :
  relinked h h' nx pv → dchain (snext h) (sprev h) hd l →
  (∀ a, a ∈ l ↔ place a = Some w ∧ ∃ f n, slab_at h a = Some (f, n, c)) →
  (∀ a, a ∈ l → nx a = snext h a ∧ pv a = sprev h a) →
  (∀ a f n, slab_at h a = Some (f, n, c) → place' a = Some w ↔ place a = Some w) →
  ∃ l, dchain (snext h') (sprev h') hd l ∧ ∀ a, a ∈ l ↔ place' a = Some w ∧ ∃ f n, slab_at h' a = Some (f, n, c).
Proof.
  intros Hr Hd Hl Hk Hp. destruct (relinked_slab_at _ _ _ _ Hr) as [Ea En]. exists l. split.
  - eapply dchain_ext, Hd; intros a Ha; destruct (in_list_slab _ _ _ _ _ _ Hl Ha) as [Hs _];
      destruct (En a Hs) as [E1 E2]; destruct (Hk a Ha); congruence.
  - intros a. rewrite Hl, Ea. split; intros (H1 & f & n & H2); (split; [by eapply Hp|eauto]).
Qed.

Lemma push_slab_ok c w a f n h place (R : () → heap PA → Prop) :
  lists_ok h place → slab_at h a = Some (f, n, c) → (c < length (hp_caches h))%nat → place a = None →
  (∀ h', moved h h' → lists_ok h' (<[a := Some w]> place) → R () h') →
  wp (push_slab c w a) R h.
Proof.
  intros Hl Ha [cache Hc]%lookup_lt_is_Some_2 Hpa HR. destruct (Hl c w) as (l & Hd & Hel).
  assert (Hal : a ∉ l) by (rewrite Hel; intros [? _]; congruence).
  assert (Ehd : chead h c w = sc_head w cache) by (unfold chead; by rewrite Hc).
  assert (Hsl : ∃ r, hp_slabs h !! a = Some r) by (unfold slab_at in Ha; destruct (hp_slabs h !! a); [eauto|done]).
  destruct Hsl as [r Hr]. eapply push_slab_run; [exact Hr|exact Hc| |].
  { intros x Hx. rewrite <-Ehd in Hx. destruct (dchain_cons_inv _ _ _ _ _ Hd Hx) as (l' & -> & _).
    assert (Hin : x ∈ x :: l') by (apply elem_of_cons; by left).
    split; [intros ->; by apply Hal|by apply (in_list_slab h place c w (x :: l') x Hel Hin)]. }
  intros h' Hrest Hrel. destruct (same_rest_data _ _ _ _ _ Hrest) as (E1 & E2 & E3).
  destruct (relinked_slab_at _ _ _ _ Hrel) as [Ea En]. destruct (same_rest_head _ _ _ _ _ _ Hrest Hc) as [Eh Eo].
  apply HR; [by split_and!|]. intros c' w'. destruct (decide ((c', w') = (c, w))) as [[= -> ->]|Hne].
  - rewrite Eh. exists (a :: l). split.
    + eapply dchain_push; [exact Hd|done|..].
      * destruct (En a) as [-> _]; [by rewrite Ha|]. by rewrite decide_True.
      * destruct (En a) as [_ ->]; [by rewrite Ha|]. by rewrite decide_True.
      * intros y Hy. destruct (En y) as [-> _]; [by eapply in_list_slab|]. rewrite decide_False; [done|]. by intros ->.
      * intros y Hy. destruct (En y) as [_ ->]; [by eapply in_list_slab|]. rewrite decide_False by (by intros ->). by rewrite Ehd.
    + intros y. rewrite elem_of_cons, Hel, Ea. destruct (decide (y = a)) as [->|Hy].
      * rewrite fn_lookup_insert. split; [eauto|by left].
      * rewrite fn_lookup_insert_ne by done. naive_solver.
  - destruct (Hl c' w') as (l' & Hd' & Hel'). rewrite (Eo c' w' Hne). eapply other_list; [exact Hrel|exact Hd'|exact Hel'|..].
    + intros y Hy. pose proof (proj1 (Hel' y) Hy) as (Hpy & f' & n' & Hsy).
      rewrite decide_False by (intros ->; congruence). split; [done|]. rewrite decide_False by (intros ->; congruence).
      rewrite decide_False; [done|]. intros Hh. rewrite <-Ehd in Hh. destruct (dchain_cons_inv _ _ _ _ _ Hd Hh) as (l'' & -> & _).
      destruct (proj1 (Hel y) ltac:(apply elem_of_cons; by left)) as (Hpy' & f2 & n2 & Hsy'). congruence.
    + intros y f' n' Hsy. destruct (decide (y = a)) as [->|Hy]; [|by rewrite fn_lookup_insert_ne].
      rewrite fn_lookup_insert. split; [|congruence]. intros [= ->]. congruence.
Qed.
(** The neighbours of a listed slab. *)
Lemma listed_links h place c w a f n : lists_ok h place → slab_at h a = Some (f, n, c) → place a = Some w →
  ∃ l1 l2 r, dchain (snext h) (sprev h) (chead h c w) (l1 ++ a :: l2) ∧ hp_slabs h !! a = Some r ∧
    snext h a = sl_next r ∧ sprev h a = sl_prev r ∧ sl_prev r = last l1 ∧ sl_next r = list.head l2 ∧
    (∀ y, y ∈ l1 ++ a :: l2 ↔ place y = Some w ∧ ∃ f n, slab_at h y = Some (f, n, c)) ∧
    (∀ x, sl_next r = Some x ∨ sl_prev r = Some x → x ≠ a ∧ is_Some (hp_slabs h !! x)).
Proof.
  intros Hl Ha Hp. destruct (Hl c w) as (l & Hd & Hel).
  assert (Hin : a ∈ l) by (apply Hel; eauto). apply list_elem_of_split in Hin as (l1 & l2 & ->).
  assert (Hsl : ∃ r, hp_slabs h !! a = Some r) by (unfold slab_at in Ha; destruct (hp_slabs h !! a); [eauto|done]).
  destruct Hsl as [r Hr]. exists l1, l2, r. destruct (dchain_links _ _ _ _ _ _ Hd) as [E1 E2].
  assert (E3 : snext h a = sl_next r) by (unfold snext; by rewrite Hr).
  assert (E4 : sprev h a = sl_prev r) by (unfold sprev; by rewrite Hr).
  pose proof (dchain_NoDup _ _ _ _ Hd) as (_ & Hdis & [Hnin _]%NoDup_cons)%NoDup_app.
  split_and!; [done|done|done|done|congruence|congruence|done|]. rewrite <-E3, <-E4, E1, E2. intros x Hx.
  assert (Hxl : x ∈ l1 ∨ x ∈ l2).
  { destruct Hx as [Hx|Hx]; [right; by apply head_Some_elem_of|left; by apply last_Some_elem_of]. }
  split; [intros ->; set_solver|]. eapply (in_list_slab h place c w _ x Hel). set_solver.
Qed.

Lemma rest_after_data h h' c w r : rest_after c w r h h' →
  hp_pages h' = hp_pages h ∧ hp_link h' = hp_link h ∧ sc_object_size <$> hp_caches h' = sc_object_size <$> hp_caches h.
Proof.
  unfold rest_after. destruct (sl_prev r); [|apply same_rest_data]. intros (-> & -> & ->). done.
Qed.

Lemma rest_after_head h h' c w r cache : rest_after c w r h h' → hp_caches h !! c = Some cache →
  chead h' c w = match sl_prev r with Some _ => chead h c w | None => sl_next r end ∧
  ∀ c' w', (c', w') ≠ (c, w) → chead h' c' w' = chead h c' w'.
Proof.
  unfold rest_after. destruct (sl_prev r); [|apply same_rest_head]. intros (_ & _ & E) _. unfold chead. by rewrite E.
Qed.

Lemma unlinked_lists c w a f n l1 l2 r cache h h' place :
  lists_ok h place → slab_at h a = Some (f, n, c) → place a = Some w → hp_caches h !! c = Some cache →
  dchain (snext h) (sprev h) (chead h c w) (l1 ++ a :: l2) → snext h a = sl_next r → sprev h a = sl_prev r →
  sl_prev r = last l1 → sl_next r = list.head l2 →
  (∀ y, y ∈ l1 ++ a :: l2 ↔ place y = Some w ∧ ∃ f n, slab_at h y = Some (f, n, c)) →
  rest_after c w r h h' → relinked h h' (unlinked_next h r) (unlinked_prev h r) →
  lists_ok h' (<[a := None]> place).
Proof.
  intros Hl Ha Hp Hc Hd En Ep Epl Enl Hel Hrest Hrel. pose proof (dchain_NoDup _ _ _ _ Hd) as (_ & Hdis & [Hnin _]%NoDup_cons)%NoDup_app.
  destruct (relinked_slab_at _ _ _ _ Hrel) as [Ea Elk]. destruct (rest_after_head _ _ _ _ _ _ Hrest Hc) as [Eh Eo].
  assert (Hmem : ∀ y, y ∈ l1 ++ l2 ↔ y ∈ l1 ++ a :: l2 ∧ y ≠ a).
  { intros y. rewrite !elem_of_app, elem_of_cons. set_solver. }
  intros c' w'. destruct (decide ((c', w') = (c, w))) as [[= -> ->]|Hne].
  - rewrite Eh. exists (l1 ++ l2). split.
    + rewrite <-Ep, <-En. assert (Hs : ∀ y, y ∈ l1 ++ l2 → is_Some (slab_at h y)).
      { intros y [Hy _]%Hmem. by eapply in_list_slab. }
      apply (dchain_remove (snext h) (sprev h)); [done|..]; intros y Hy; destruct (Elk y (Hs y Hy)) as [E1 E2];
        rewrite ?E1, ?E2, En, Ep; done.
    + intros y. rewrite Hmem, Hel, Ea. destruct (decide (y = a)) as [->|Hy].
      * rewrite fn_lookup_insert. naive_solver.
      * rewrite fn_lookup_insert_ne by done. naive_solver.
  - destruct (Hl c' w') as (l' & Hd' & Hel'). rewrite (Eo c' w' Hne). eapply other_list; [exact Hrel|exact Hd'|exact Hel'|..].
    + assert (Hout : ∀ y, y ∈ l' → y ∉ l1 ++ a :: l2).
      { intros y (Hpy & f1 & n1 & H1)%Hel' (Hpy' & f2 & n2 & H2)%Hel. congruence. }
      intros y Hy. apply Hout in Hy. unfold unlinked_next, unlinked_prev. rewrite Epl, Enl. rewrite !decide_False; [done|..].
      * intros Hh%head_Some_elem_of. set_solver.
      * intros Hh%last_Some_elem_of. set_solver.
    + intros y f' n' Hsy. destruct (decide (y = a)) as [->|Hy]; [|by rewrite fn_lookup_insert_ne].
      rewrite fn_lookup_insert. split; [done|congruence].
Qed.

Lemma remove_slab_ok c w a f n h place (R : () → heap PA → Prop) :
  lists_ok h place → slab_at h a = Some (f, n, c) → (c < length (hp_caches h))%nat → place a = Some w →
  (∀ h', moved h h' → lists_ok h' (<[a := None]> place) → R () h') →
  wp (remove_slab c w a) R h.
Proof.
  intros Hl Ha [cache Hc]%lookup_lt_is_Some_2 Hp HR.
  destruct (listed_links _ _ _ _ _ _ _ Hl Ha Hp) as (l1 & l2 & r & Hd & Hr & E1 & E2 & E3 & E4 & Hel & Hx).
  eapply remove_slab_run; [done..|]. intros h' Hrest Hrel. apply HR; [|by eapply unlinked_lists].
  destruct (rest_after_data _ _ _ _ _ Hrest) as (? & ? & ?). split_and!; [done..|]. by eapply relinked_slab_at.
Qed.

(** The empty list's first slab. *)
Lemma pop_empty_ok c a f n h place (R : () → heap PA → Prop) :
  lists_ok h place → slab_at h a = Some (f, n, c) → (c < length (hp_caches h))%nat → chead h c Empty = Some a →
  (∀ h', moved h h' → lists_ok h' (<[a := None]> place) → R () h') →
  wp (pop_empty c a) R h.
Proof.
  intros Hl Ha [cache Hc]%lookup_lt_is_Some_2 Hh HR.
  assert (Hp : place a = Some Empty).
  { destruct (Hl c Empty) as (l & Hd & Hel). destruct (dchain_cons_inv _ _ _ _ _ Hd Hh) as (l' & -> & _).
    apply Hel, elem_of_cons. by left. }
  destruct (listed_links _ _ _ _ _ _ _ Hl Ha Hp) as (l1 & l2 & r & Hd & Hr & E1 & E2 & E3 & E4 & Hel & Hx).
  eapply pop_empty_run; [exact Hr|exact Hc| |intros x Hn; apply Hx; by left|].
  - rewrite <-E2. destruct (dchain_cons_inv _ _ _ _ _ Hd Hh) as (l' & _ & ?). done.
  - intros h' Hrest Hrel. apply HR; [|by eapply unlinked_lists].
    destruct (rest_after_data _ _ _ _ _ Hrest) as (? & ? & ?). split_and!; [done..|]. by eapply relinked_slab_at.
Qed.
End inv.
