(* ===== verification/HeapOps.v ===== *)
(** * The heap's operations keep its invariant

    Taking an object from a slab and putting one back, creating a slab, and the
    direct path to the page allocator. *)

From S2P Require Import Prelude LinkedList Pmm PmmBlocks PageAlloc Heap HeapLists HeapInv.
Open Scope Z_scope.

Section ops.
Context {PA : Type} `{!PageAllocator PA} `{!FrameStore PA}.
Implicit Types (h : heap PA) (place : Z → option which) (fl : Z → list Z).

(** ** Addresses and frames *)

(** The frame [kfree] computes from an address. *)
Lemma kfree_pfn h q p : 0 ≤ hhdm h → mapped h q → page_addr h q ≤ p < page_addr h q + PAGE_SIZE →
  phys_to_pfn (p -64 hhdm h) = q.
Proof.
  unfold mapped, page_addr, phys_to_pfn. intros Hh [Hq Hm] Hp. rewrite Z.shiftr_div_pow2 by done.
  change (2 ^ PAGE_SHIFT) with PAGE_SIZE. unfold PAGE_SIZE in *. unfold u64, wrap. rewrite Z.mod_small by lia.
  symmetry. apply Z.div_unique with (p - hhdm h - q * 4096); lia.
Qed.

(** An object belongs to one slab. *)
Lemma object_slab h F A fl D L a a' f f' n n' c c' e e' p : data_ok h F A fl D L →
  slab_at h a = Some (f, n, c) → slab_at h a' = Some (f', n', c') → cache_sizes !! c = Some e → cache_sizes !! c' = Some e' →
  p ∈ objects a e → p ∈ objects a' e' → a = a'.
Proof.
  intros Hd Ha Ha' Hc Hc' Hp Hp'. destruct (do_slabs _ _ _ _ _ _ Hd _ _ _ _ Ha) as (q & _ & Eq & _).
  destruct (do_slabs _ _ _ _ _ _ Hd _ _ _ _ Ha') as (q' & _ & Eq' & _).
  pose proof (object_range _ _ _ _ Hc Hp). pose proof (object_range _ _ _ _ Hc' Hp').
  pose proof (cache_size_bounds _ _ Hc). pose proof (cache_size_bounds _ _ Hc').
  unfold page_addr, PAGE_SIZE in *. assert (q = q') by lia. congruence.
Qed.

(** An object is not the address of a page. *)
Lemma object_not_page h F A fl D L a f n c e p q : data_ok h F A fl D L → slab_at h a = Some (f, n, c) →
  cache_sizes !! c = Some e → p ∈ objects a e → p ≠ page_addr h q.
Proof.
  intros Hd Ha Hc Hp. destruct (do_slabs _ _ _ _ _ _ Hd _ _ _ _ Ha) as (q' & _ & Eq & _).
  pose proof (object_range _ _ _ _ Hc Hp). pose proof (cache_size_bounds _ _ Hc).
  unfold page_addr, PAGE_SIZE in *. lia.
Qed.

(** ** Updating one slab *)

Lemma data_ok_update h h' F A fl fl' D L L' a f n c f' n' : data_ok h F A fl D L →
  slab_at h a = Some (f, n, c) → hp_pages h' = hp_pages h →
  sc_object_size <$> hp_caches h' = sc_object_size <$> hp_caches h →
  (∀ y, slab_at h' y = if decide (y = a) then Some (f', n', c) else slab_at h y) →
  (∀ y p, y ≠ a → is_Some (slab_at h y) → p ∈ fl y → hp_link h' p = hp_link h p) →
  (∀ y, y ≠ a → fl' y = fl y) → slab_ok h' A fl' a f' n' c →
  (∀ p e, L' !! p = Some e ↔ object_live h fl' p e ∨ direct_live h D p e) →
  data_ok h' F A fl' D L'.
Proof.
  intros Hd Ha Ep Es Ea El Ef Hok HL. destruct Hd as [H1 H2 H3 H4 H5 H6 _].
  split; unfold direct_ok, mapped, page_addr, private, hhdm in *; rewrite ?Ep; [done|done|by rewrite Es|done| |done|].
  - intros y f0 n0 c0. rewrite Ea. case_decide as E; [by intros [= <- <- <-]; subst|]. intros Hy.
    destruct (H5 _ _ _ _ Hy) as (q & size & X1 & X2 & X3 & [X4 X4'] & X5 & X6 & X7 & X8 & X9).
    exists q, size. unfold mapped, page_addr, private, hhdm in *. rewrite Ep, Ef by done. split_and!; [done..| |done|done].
    eapply lseg_ext; [|exact X7]. intros p Hp. apply (El y); [done|by rewrite Hy|done].
  - intros p e. rewrite HL. unfold object_live, direct_live, page_addr, hhdm. rewrite Ep. apply or_iff_compat_r.
    split; intros (y & f0 & n0 & c0 & Hy & X).
    + destruct (decide (y = a)) as [->|Hne].
      * exists a, f', n', c. rewrite Ea, decide_True by done. split; [done|]. assert (c0 = c) as -> by congruence. done.
      * exists y, f0, n0, c0. by rewrite Ea, decide_False.
    + rewrite Ea in Hy. destruct (decide (y = a)) as [->|Hne].
      * injection Hy as <- <- <-. by exists a, f, n, c.
      * by exists y, f0, n0, c0.
Qed.

Lemma object_live_iff h F A fl D L a f n c e p : data_ok h F A fl D L → slab_at h a = Some (f, n, c) →
  cache_sizes !! c = Some e → p ∈ objects a e → ∀ fl' e', object_live h fl' p e' ↔ e' = e ∧ p ∉ fl' a.
Proof.
  intros Hd Ha Hc Hp fl' e'. split.
  - intros (a' & f' & n' & c' & Ha' & Hc' & Hp' & Hn).
    assert (a = a') as <- by by eapply object_slab. assert (c' = c) as -> by congruence. split; [congruence|done].
  - intros [-> Hn]. by exists a, f, n, c.
Qed.

Lemma object_live_other h F A fl D L a f n c e p fl' e' : data_ok h F A fl D L → slab_at h a = Some (f, n, c) →
  cache_sizes !! c = Some e → p ∉ objects a e → (∀ y, y ≠ a → fl' y = fl y) →
  object_live h fl' p e' ↔ object_live h fl p e'.
Proof.
  intros Hd Ha Hc Hp Hfl. split; intros (a' & f' & n' & c' & Ha' & Hc' & Hp' & Hn); exists a', f', n', c'.
  - assert (a' ≠ a) by (intros ->; apply Hp; congruence). rewrite Hfl in Hn by done. done.
  - assert (a' ≠ a) by (intros ->; apply Hp; congruence). rewrite Hfl by done. done.
Qed.

(** The live objects when the free list of [a] changes by the object [p]. *)
Lemma live_taken h F A fl D L a f n c e p rest : data_ok h F A fl D L → slab_at h a = Some (f, n, c) →
  cache_sizes !! c = Some e → p ∈ objects a e → fl a = p :: rest → p ∉ rest →
  L !! p = None ∧
  ∀ p' e', <[p := e]> L !! p' = Some e' ↔ object_live h (<[a := rest]> fl) p' e' ∨ direct_live h D p' e'.
Proof.
  intros Hd Ha Hc Hp Hfl Hnin. pose proof (object_live_iff _ _ _ _ _ _ _ _ _ _ _ _ Hd Ha Hc Hp) as Hiff.
  assert (Hnd : ∀ e', ¬ direct_live h D p e') by (intros e' (q & o & _ & E & _); by eapply object_not_page).
  split.
  - apply eq_None_not_Some. intros [e' [Ho|Ho]%(do_live _ _ _ _ _ _ Hd)]; [|by eapply Hnd].
    apply Hiff in Ho as [_ Ho]. apply Ho. rewrite Hfl. set_solver.
  - intros p' e'. destruct (decide (p' = p)) as [->|Hne].
    + rewrite lookup_insert_eq, Hiff, fn_lookup_insert. specialize (Hnd e'). naive_solver.
    + rewrite lookup_insert_ne by done. rewrite (do_live _ _ _ _ _ _ Hd). apply or_iff_compat_r.
      destruct (decide (p' ∈ objects a e)) as [Hin|Hnin'].
      * pose proof (object_live_iff _ _ _ _ _ _ _ _ _ _ _ _ Hd Ha Hc Hin) as Hi. rewrite !Hi, fn_lookup_insert, Hfl.
        rewrite elem_of_cons. naive_solver.
      * symmetry. eapply object_live_other; [done..|]. intros y Hy. by rewrite fn_lookup_insert_ne.
Qed.

Lemma live_returned h F A fl D L a f n c e p : data_ok h F A fl D L → slab_at h a = Some (f, n, c) →
  cache_sizes !! c = Some e → p ∈ objects a e →
  ∀ p' e', delete p L !! p' = Some e' ↔ object_live h (<[a := p :: fl a]> fl) p' e' ∨ direct_live h D p' e'.
Proof.
  intros Hd Ha Hc Hp p' e'. destruct (decide (p' = p)) as [->|Hne].
  - rewrite lookup_delete_eq, (object_live_iff _ _ _ _ _ _ _ _ _ _ _ _ Hd Ha Hc Hp), fn_lookup_insert. split; [done|].
    intros [[_ Hn]|(q & o & _ & E & _)]; [set_solver|]. exfalso. by eapply object_not_page.
  - rewrite lookup_delete_ne by done. rewrite (do_live _ _ _ _ _ _ Hd). apply or_iff_compat_r.
    destruct (decide (p' ∈ objects a e)) as [Hin|Hnin'].
    + pose proof (object_live_iff _ _ _ _ _ _ _ _ _ _ _ _ Hd Ha Hc Hin) as Hi. rewrite !Hi, fn_lookup_insert, elem_of_cons. naive_solver.
    + symmetry. eapply object_live_other; [done..|]. intros y Hy. by rewrite fn_lookup_insert_ne.
Qed.
(** ** Lists after a change of a slab's free objects *)

Lemma lists_ok_ext h h' place place' : lists_ok h place →
  (∀ y, is_Some (slab_at h y) → snext h' y = snext h y ∧ sprev h' y = sprev h y) →
  (∀ c w, chead h' c w = chead h c w) →
  (∀ c w y, (place' y = Some w ∧ ∃ f n, slab_at h' y = Some (f, n, c)) ↔ (place y = Some w ∧ ∃ f n, slab_at h y = Some (f, n, c))) →
  lists_ok h' place'.
Proof.
  intros Hl Hlk Hh Hp c w. destruct (Hl c w) as (l & Hd & Hel). exists l. split.
  - rewrite Hh. eapply dchain_ext, Hd; intros y Hy; apply Hlk; by eapply in_list_slab.
  - intros y. by rewrite Hel, Hp.
Qed.

Lemma slab_at_some h a f n c : slab_at h a = Some (f, n, c) → ∃ r, hp_slabs h !! a = Some r ∧ payload r = (f, n, c).
Proof. unfold slab_at. destruct (hp_slabs h !! a) as [r|]; [|done]. intros E%(inj Some). eauto. Qed.

(** The heap after [set_sl_free] on the slab [a] and a change of the links. *)
Lemma set_free_view h a r f n c f' n' lk : hp_slabs h !! a = Some r → payload r = (f, n, c) →
  let h' := set_hp_slabs (<[a := set_sl_free f' n' r]> (hp_slabs h)) (set_hp_link lk h) in
  (∀ y, slab_at h' y = if decide (y = a) then Some (f', n', c) else slab_at h y) ∧
  (∀ y, snext h' y = snext h y ∧ sprev h' y = sprev h y) ∧
  (∀ place, lists_ok h place → lists_ok h' place).
Proof.
  intros Hr Hp h'. assert (Ha : slab_at h a = Some (f, n, c)) by (unfold slab_at; rewrite Hr; by rewrite <-Hp).
  assert (E1 : ∀ y, slab_at h' y = if decide (y = a) then Some (f', n', c) else slab_at h y).
  { intros y. unfold slab_at, h'. cbn [hp_slabs set_hp_slabs]. case_decide as E.
    - subst. rewrite lookup_insert_eq. cbn. unfold payload in Hp. by injection Hp as <- <- <-.
    - by rewrite lookup_insert_ne. }
  assert (E2 : ∀ y, snext h' y = snext h y ∧ sprev h' y = sprev h y).
  { intros y. unfold snext, sprev, h'. cbn [hp_slabs set_hp_slabs]. destruct (decide (y = a)) as [->|E].
    - by rewrite lookup_insert_eq, Hr.
    - by rewrite lookup_insert_ne. }
  split_and!; [done..|]. intros place Hl. eapply lists_ok_ext; [exact Hl|by intros y _|done|].
  intros c' w y. rewrite E1. case_decide as E; [subst|done]. rewrite Ha. split; intros (? & ? & ? & [= <- <- <-]); eauto.
Qed.

Lemma move_slab_ok c w w' a f n h place place' (R : () → heap PA → Prop) :
  lists_ok h place → slab_at h a = Some (f, n, c) → (c < length (hp_caches h))%nat → place a = Some w →
  place' a = Some w' → (∀ y, y ≠ a → place' y = place y) →
  (∀ h', moved h h' → lists_ok h' place' → R () h') →
  wp (remove_slab c w a;; push_slab c w' a) R h.
Proof.
  intros Hl Ha Hc Hp Ha' Hp' HR. apply wp_bind. eapply remove_slab_ok; [done..|]. intros h1 Hs1 Hl1.
  destruct Hs1 as (P1 & P2 & P3 & P4).
  eapply push_slab_ok; [exact Hl1|by rewrite P4| |apply fn_lookup_insert|].
  - apply (f_equal length) in P3. rewrite !length_fmap in P3. by rewrite P3.
  - intros h2 Hs2 Hl2. apply HR; [by eapply moved_trans|]. eapply lists_ok_ext; [exact Hl2|done|done|].
    intros c' w2 y. destruct (decide (y = a)) as [->|Hy]; [by rewrite Ha', fn_lookup_insert|].
    by rewrite Hp', !fn_lookup_insert_ne.
Qed.

(** ** Taking an object *)

(** Every slab but [a] is on the list it belongs to. *)
Definition placed_but h place (a : Z) : Prop :=
  ∀ y f n c, y ≠ a → slab_at h y = Some (f, n, c) →
    ∃ w size, place y = Some w ∧ cache_sizes !! c = Some size ∧ belongs w n (slab_capacity size).

Lemma placed_finish h place place' a f n c w size : placed_but h place a → slab_at h a = Some (f, n, c) →
  place' a = Some w → (∀ y, y ≠ a → place' y = place y) → cache_sizes !! c = Some size → belongs w n (slab_capacity size) →
  placed_ok h place'.
Proof.
  intros Hb Ha Hp Hp' Hc Hw y f0 n0 c0 Hy. destruct (decide (y = a)) as [->|Hne].
  - rewrite Ha in Hy. injection Hy as <- <- <-. eauto.
  - rewrite Hp' by done. by eapply Hb.
Qed.

Lemma placed_but_same h h' place a : (∀ y, y ≠ a → slab_at h' y = slab_at h y) → placed_but h place a → placed_but h' place a.
Proof. intros E Hb y f n c Hy. rewrite E by done. by apply Hb. Qed.

Lemma free_bounds h A fl a f n c size : slab_ok h A fl a f n c → cache_sizes !! c = Some size →
  0 ≤ n ≤ slab_capacity size ∧ NoDup (fl a).
Proof.
  intros (q & size' & _ & _ & _ & _ & _ & Hc & Hch & -> & Hin) Hc'. assert (size' = size) as -> by congruence.
  pose proof (chain_NoDup _ _ _ Hch) as Hnd. split; [|done]. split; [lia|].
  pose proof (submseteq_length _ _ (NoDup_submseteq _ _ Hnd Hin)) as Hle. rewrite length_objects in Hle.
  pose proof (cache_size_bounds _ _ Hc'). lia.
Qed.

Lemma caches_length h F A fl D L c size : data_ok h F A fl D L → cache_sizes !! c = Some size →
  (c < length (hp_caches h))%nat.
Proof.
  intros Hd Hc%lookup_lt_Some. rewrite <-(do_sizes _ _ _ _ _ _ Hd), length_fmap in Hc. done.
Qed.
End ops.
