(* ===== verification/HeapAlloc.v ===== *)
(** * Allocation and deallocation keep the heap's invariant *)

From S2P Require Import Prelude LinkedList Pmm PmmBlocks PageAlloc Heap HeapLists HeapInv HeapOps.
Open Scope Z_scope.

Section alloc.
Context {PA : Type} `{!PageAllocator PA} `{!FrameStore PA}.
Implicit Types (h : heap PA) (place : Z → option which) (fl : Z → list Z).

Lemma set_free_eq h m : set_hp_slabs m h = set_hp_slabs m (set_hp_link (hp_link h) h).
Proof. by destruct h. Qed.

(** What [kmalloc] returns from a slab. *)
Definition handed (size : Z) (L : gmap Z Z) (p : Z) h' : Prop :=
  0 < p ∧ L !! p = None ∧ heap_inv h' (<[p := size]> L).

Lemma take_object_ok c a f n size h F A fl D L place :
  data_ok h F A fl D L → lists_ok h place → placed_but h place a → slab_at h a = Some (f, n, c) →
  cache_sizes !! c = Some size → place a = Some Partial → 0 < n →
  wp (take_object c a) (handed size L) h.
Proof.
  intros Hd Hl Hb Ha Hc Hp Hn. destruct (slab_at_some _ _ _ _ _ Ha) as (r & Hr & Hpay).
  pose proof (do_slabs _ _ _ _ _ _ Hd _ _ _ _ Ha) as Hok. destruct (free_bounds _ _ _ _ _ _ _ _ Hok Hc) as [Hcap Hnd].
  destruct Hok as (q & size' & Eq & HA & Hq & Hm & Hpr & Hc' & Hch & En & Hin).
  assert (size' = size) as -> by congruence. destruct (fl a) as [|p rest] eqn:Efl; [cbn in En; lia|].
  destruct Hch as [Ef Hch]. apply NoDup_cons in Hnd as [Hnin Hnd].
  assert (Hpo : p ∈ objects a size) by (apply Hin, elem_of_cons; by left).
  pose proof (object_range _ _ _ _ Hc Hpo) as Hrange. pose proof (cache_size_bounds _ _ Hc) as Hsz.
  destruct (live_taken _ _ _ _ _ _ _ _ _ _ _ _ _ Hd Ha Hc Hpo Efl Hnin) as [HLp HL].
  unfold payload in Hpay. injection Hpay as E1 E2 E3.
  unfold take_object. apply wp_bind. eapply wp_read_slab; [exact Hr|]. rewrite E1, Ef, E2.
  assert (Eu : u32 (n - 1) = n - 1) by (unfold u32, wrap; rewrite Z.mod_small; lia). rewrite Eu.
  apply wp_bind, wp_get, wp_bind. eapply wp_write_slab; [exact Hr|]. rewrite set_free_eq.
  set (h1 := set_hp_slabs _ _).
  destruct (set_free_view h a r f n c (hp_link h p) (n - 1) (hp_link h) Hr) as (S1 & _ & S3); [unfold payload; congruence|].
  fold h1 in S1, S3.
  assert (Hd1 : data_ok h1 F A (<[a := rest]> fl) D (<[p := size]> L)).
  { eapply data_ok_update; [exact Hd|exact Ha|done|done|exact S1|done| | |exact HL].
    - intros y Hy. by rewrite fn_lookup_insert_ne.
    - exists q, size. rewrite !fn_lookup_insert. split_and!; [done..| |].
      + cbn [length] in En. lia.
      + intros x Hx. apply Hin, elem_of_cons. by right. }
  assert (Ha1 : slab_at h1 a = Some (hp_link h p, n - 1, c)) by (by rewrite S1, decide_True).
  assert (Hb1 : placed_but h1 place a) by (eapply placed_but_same, Hb; intros y Hy; by rewrite S1, decide_False).
  assert (Hfin : ∀ h' w, data_ok h' F A (<[a := rest]> fl) D (<[p := size]> L) → lists_ok h' (<[a := Some w]> place) →
     (∀ y, slab_at h' y = slab_at h1 y) → belongs w (n - 1) (slab_capacity size) → handed size L p h').
  { intros h' w Hd' Hl' Es Hw. split_and!; [subst; unfold page_addr, mapped, PAGE_SIZE in *; pose proof (do_hhdm _ _ _ _ _ _ Hd); lia|done|].
    exists F, A, (<[a := rest]> fl), D, (<[a := Some w]> place). split_and!; [done..|].
    eapply (placed_finish h' place); [by eapply placed_but_same, Hb1|by rewrite Es|apply fn_lookup_insert| |done|done].
    intros y Hy. by rewrite fn_lookup_insert_ne. }
  apply wp_bind. case_if.
  - eapply (move_slab_ok c Partial Full a _ _ h1 place (<[a := Some Full]> place));
      [by apply S3|exact Ha1|by eapply caches_length|done|apply fn_lookup_insert|intros y Hy; by rewrite fn_lookup_insert_ne|].
    intros h2 Hs Hl2. apply wp_ret, (Hfin _ Full); [by eapply data_ok_moved|done|apply Hs|done].
  - apply wp_ret, wp_ret, (Hfin _ Partial); [done| |done|cbn; lia].
    eapply lists_ok_ext; [apply S3, Hl|done|done|]. intros c' w y. destruct (decide (y = a)) as [->|Hy].
    + by rewrite fn_lookup_insert, Hp.
    + by rewrite fn_lookup_insert_ne.
Qed.

(** ** Putting an object back *)

Lemma cache_read h F A fl D L c size : data_ok h F A fl D L → cache_sizes !! c = Some size →
  ∃ cache, hp_caches h !! c = Some cache ∧ sc_object_size cache = size.
Proof.
  intros Hd Hc. rewrite <-(do_sizes _ _ _ _ _ _ Hd), list_lookup_fmap in Hc.
  destruct (hp_caches h !! c) as [cache|]; [|done]. injection Hc as <-. eauto.
Qed.

Lemma to_empty_ok c a f n size h F A fl D L place :
  data_ok h F A fl D L → lists_ok h place → placed_but h place a → slab_at h a = Some (f, n, c) →
  cache_sizes !! c = Some size → 0 < n ≤ slab_capacity size → place a = Some Partial →
  wp (to_empty c a) (λ _ h', heap_inv h' L) h.
Proof.
  intros Hd Hl Hb Ha Hc Hn Hp. destruct (slab_at_some _ _ _ _ _ Ha) as (r & Hr & Hpay).
  unfold payload in Hpay. injection Hpay as E1 E2 E3. unfold to_empty.
  apply wp_bind. eapply wp_read_slab; [exact Hr|]. destruct (cache_read _ _ _ _ _ _ _ _ Hd Hc) as (cache & Hcache & <-).
  apply wp_bind. eapply wp_read_cache; [exact Hcache|]. rewrite E2. case_if.
  - eapply (move_slab_ok c Partial Empty a f n h place (<[a := Some Empty]> place));
      [done..|by eapply caches_length|done|apply fn_lookup_insert|intros y Hy; by rewrite fn_lookup_insert_ne|].
    intros h2 Hs Hl2. exists F, A, fl, D, (<[a := Some Empty]> place). split_and!; [by eapply data_ok_moved|done|].
    eapply (placed_finish h2 place _ a f n c Empty (sc_object_size cache)); [|by rewrite (proj2 (proj2 (proj2 Hs)))|apply fn_lookup_insert| |done|cbn; lia].
    + eapply placed_but_same, Hb. intros y _. apply Hs.
    + intros y Hy. by rewrite fn_lookup_insert_ne.
  - apply wp_ret. exists F, A, fl, D, place. split_and!; [done..|].
    by eapply (placed_finish h place _ a f n c Partial (sc_object_size cache)); [..|cbn; lia].
Qed.

Lemma to_partial_ok c a f n size h F A fl D L place :
  data_ok h F A fl D L → lists_ok h place → placed_but h place a → slab_at h a = Some (f, n, c) →
  cache_sizes !! c = Some size → 0 < n ≤ slab_capacity size →
  place a = Some (if n =? 1 then Full else Partial) →
  wp (to_partial c a) (λ _ h', heap_inv h' L) h.
Proof.
  intros Hd Hl Hb Ha Hc Hn Hp. destruct (slab_at_some _ _ _ _ _ Ha) as (r & Hr & Hpay).
  unfold payload in Hpay. injection Hpay as E1 E2 E3. unfold to_partial.
  apply wp_bind. eapply wp_read_slab; [exact Hr|]. rewrite E2. apply wp_bind. case_if.
  - eapply (move_slab_ok c Full Partial a f n h place (<[a := Some Partial]> place));
      [done..|by eapply caches_length|done|apply fn_lookup_insert|intros y Hy; by rewrite fn_lookup_insert_ne|].
    intros h1 Hs Hl1. eapply (to_empty_ok c a f n size h1 _ _ _ _ _ (<[a := Some Partial]> place));
      [by eapply data_ok_moved|done| |by rewrite (proj2 (proj2 (proj2 Hs)))|done|lia|apply fn_lookup_insert].
    intros y f0 n0 c0 Hy. rewrite (proj2 (proj2 (proj2 Hs))), fn_lookup_insert_ne by done. by apply Hb.
  - apply wp_ret. by eapply to_empty_ok.
Qed.

Lemma free_object_ok a p f n c size h F A fl D L place :
  data_ok h F A fl D L → lists_ok h place → placed_ok h place → slab_at h a = Some (f, n, c) →
  cache_sizes !! c = Some size → p ∈ objects a size → p ∉ fl a →
  wp (free_object a p) (λ _ h', heap_inv h' (delete p L)) h.
Proof.
  intros Hd Hl Hb Ha Hc Hpo Hnin. destruct (slab_at_some _ _ _ _ _ Ha) as (r & Hr & Hpay).
  pose proof (do_slabs _ _ _ _ _ _ Hd _ _ _ _ Ha) as Hok. destruct (free_bounds _ _ _ _ _ _ _ _ Hok Hc) as [Hcap Hnd].
  destruct Hok as (q & size' & Eq & HA & Hq & Hm & Hpr & Hc' & Hch & En & Hin).
  assert (size' = size) as -> by congruence. pose proof (cache_size_bounds _ _ Hc) as Hsz.
  assert (Hn1 : n + 1 ≤ slab_capacity size).
  { assert (Hnd' : NoDup (p :: fl a)) by by constructor.
    assert (Hin' : ∀ x, x ∈ p :: fl a → x ∈ objects a size) by (intros x [->|Hx]%elem_of_cons; auto).
    pose proof (submseteq_length _ _ (NoDup_submseteq _ _ Hnd' Hin')) as Hle. rewrite length_objects in Hle. cbn [length] in Hle. lia. }
  unfold free_object. apply wp_bind. eapply wp_read_slab; [exact Hr|].
  unfold payload in Hpay. injection Hpay as E1 E2 E3. rewrite E1, E2, E3.
  assert (Eu : u32 (n + 1) = n + 1) by (unfold u32, wrap; rewrite Z.mod_small; lia). rewrite Eu.
  apply wp_bind, wp_modify, wp_bind. eapply wp_write_slab; [exact Hr|].
  set (h1 := set_hp_slabs _ _).
  destruct (set_free_view h a r f n c (Some p) (n + 1) (<[p := f]> (hp_link h)) Hr) as (S1 & _ & S3); [unfold payload; congruence|].
  fold h1 in S1, S3.
  assert (Hlk : ∀ y, y ≠ p → hp_link h1 y = hp_link h y) by (intros y Hy; apply fn_lookup_insert_ne; congruence).
  eapply (to_partial_ok c a (Some p) (n + 1) size h1 F A (<[a := p :: fl a]> fl) D _ place); [|by apply S3| |by rewrite S1, decide_True|done|lia|].
  - eapply data_ok_update; [exact Hd|exact Ha|done|done|exact S1| | | |by eapply live_returned].
    + intros y x Hy [[[f' n'] c'] Hsy] Hx. apply Hlk. intros ->.
      destruct (do_slabs _ _ _ _ _ _ Hd _ _ _ _ Hsy) as (q' & size' & _ & _ & _ & _ & _ & Hc2 & _ & _ & Hin').
      apply Hy. eapply (object_slab h); [exact Hd|exact Hsy|exact Ha|exact Hc2|exact Hc|by apply Hin'|done].
    + intros y Hy. by rewrite fn_lookup_insert_ne.
    + exists q, size. rewrite !fn_lookup_insert. split_and!; [done..| | |].
      * split; [done|]. replace (hp_link h1 p) with f by (symmetry; apply fn_lookup_insert).
        eapply lseg_ext; [|exact Hch]. intros x Hx. apply Hlk. by intros ->.
      * cbn [length]. lia.
      * intros x [->|Hx]%elem_of_cons; auto.
  - intros y f0 n0 c0 Hy. rewrite S1, decide_False by done. by apply Hb.
  - destruct (Hb _ _ _ _ Ha) as (w & size' & -> & Hc2 & Hw). assert (size' = size) as -> by congruence. f_equal.
    destruct (Z.eqb_spec (n + 1) 1); destruct w; cbn in Hw; done || lia.
Qed.
End alloc.
