(* ===== verification/HeapPages.v ===== *)
(** * The heap and the page allocator

    New slabs, and requests too large for a slab. *)

From S2P Require Import Prelude LinkedList Pmm PmmBlocks PageAlloc Heap HeapLists HeapInv HeapOps HeapAlloc.
Open Scope Z_scope.

Section pages.
Context {PA : Type} `{!PageAllocator PA} `{!FrameStore PA}.
Implicit Types (h : heap PA) (place : Z → option which) (fl : Z → list Z).

Lemma wp_hp_op {A} (op : M PA A) h (R : A → heap PA → Prop) :
  wp op (λ a pa, R a (set_hp_pages pa h)) (hp_pages h) → wp (hp_op op) R h.
Proof. unfold wp, hp_op. by destruct (op (hp_pages h)) as [[a pa]| |]. Qed.

(** An allocation of pages, with what it keeps. *)
Lemma alloc_run s F A c : pa_inv s F A → 0 ≤ c ≤ 2 ^ 63 →
  wp (pa_alloc c) (λ r s', (alloc_post pa_inv s F A c r s' ∧ pa_hhdm s' = pa_hhdm s) ∧
    ∀ q, fs_private s' q = fs_private s q) s.
Proof.
  intros Hi Hc. destruct (proj1 (wp_ok _ _ _) (pa_alloc_spec s F A c Hi Hc)) as (r & s' & E & HP).
  apply (wp_eq _ _ _ _ _ E). split; [done|]. intros q. by eapply fs_alloc_keep.
Qed.

Lemma data_ok_pages h pa F A F' A' fl D L : data_ok h F A fl D L → pa_inv pa F' A' → F' ⊆ F →
  (∀ b, b ∈ A → b ∈ A') → pa_hhdm pa = hhdm h → (∀ q, fs_private pa q = private h q) →
  data_ok (set_hp_pages pa h) F' A' fl D L.
Proof.
  intros [H1 H2 H3 H4 H5 H6 H7] Hpa HF HA Eh Ep.
  assert (Em : ∀ q, mapped (set_hp_pages pa h) q ↔ mapped h q).
  { intros q. unfold mapped, page_addr, hhdm in *. cbn [hp_pages set_hp_pages]. by rewrite Eh. }
  assert (Ea : ∀ q, page_addr (set_hp_pages pa h) q = page_addr h q).
  { intros q. unfold page_addr, hhdm in *. cbn [hp_pages set_hp_pages]. by rewrite Eh. }
  split; [done|unfold hhdm in *; cbn [hp_pages set_hp_pages]; by rewrite Eh|done|..].
  - intros q Hq%HF. destruct (H4 q Hq). split; [by apply Em|]. unfold private. cbn [hp_pages set_hp_pages]. by rewrite Ep.
  - intros a f n c Hs. destruct (H5 a f n c Hs) as (q & size & X1 & X2 & X3 & X4 & X5 & X6).
    exists q, size. rewrite Ea, Em. split_and!; [done|by apply HA|done|done| |by destruct X6 as (?&?&?&?)..].
    unfold private. cbn [hp_pages set_hp_pages]. by rewrite Ep.
  - intros b Hb. destruct (H6 b Hb) as (? & ? & Hx). split; [by apply HA|]. split; [done|]. intros x Hx'.
    destruct (Hx x Hx'). split; [by apply Em|]. unfold private. cbn [hp_pages set_hp_pages]. by rewrite Ep.
  - intros p e. rewrite H7. unfold direct_live. setoid_rewrite Ea. done.
Qed.

(** ** New slabs *)

Lemma build_links_ok n base size k h : 0 < size →
  wp (build_links n (base + k * size) size) (λ _ h', ∃ lk, h' = set_hp_link lk h ∧
    chain lk (Some (base + k * size)) ((λ i, base + i * size) <$> seqZ k (Z.of_nat n + 1)) ∧
    ∀ y, y ∉ (λ i, base + i * size) <$> seqZ k (Z.of_nat n + 1) → lk y = hp_link h y) h.
Proof.
  intros Hs. revert k h. induction n as [|n IH]; intros k h.
  - apply wp_modify. eexists. split; [reflexivity|]. split.
    + cbn. split; [done|]. apply fn_lookup_insert.
    + intros y Hy. apply fn_lookup_insert_ne. cbn in Hy. set_solver.
  - cbn [build_links]. apply wp_bind, wp_modify. replace (base + k * size + size) with (base + (k + 1) * size) by lia.
    eapply wp_mono; [apply IH|]. intros [] h' (lk & -> & Hch & Hlk).
    rewrite (seqZ_cons k (Z.of_nat (S n) + 1)) by lia.
    replace (Z.succ k) with (k + 1) by lia. replace (Z.pred (Z.of_nat (S n) + 1)) with (Z.of_nat n + 1) by lia.
    exists lk. split; [done|]. rewrite fmap_cons. split.
    + split; [done|]. rewrite Hlk.
      * cbn [hp_link set_hp_link]. by rewrite fn_lookup_insert.
      * rewrite list_elem_of_fmap. intros (i & E & Hi%elem_of_seqZ). nia.
    + intros y [Hne Hy]%not_elem_of_cons. rewrite Hlk by done. cbn [hp_link set_hp_link]. by apply fn_lookup_insert_ne.
Qed.

(** The state a new slab [a] on page [q] leaves. *)
Record new_slab h h' (q a : Z) (c : nat) (size : Z) : Prop := {
  ns_hhdm : hhdm h' = hhdm h;
  ns_private : ∀ q', private h' q' = if decide (q' = q) then Some a else private h q';
  ns_caches : hp_caches h' = hp_caches h;
  ns_slabs : ∃ r, payload r = (Some (a + sizeof_Slab), slab_capacity size, c) ∧ hp_slabs h' = <[a := r]> (hp_slabs h);
  ns_chain : chain (hp_link h') (Some (a + sizeof_Slab)) (objects a size);
  ns_link : ∀ y, y ∉ objects a size → hp_link h' y = hp_link h y
}.

Lemma new_slab_at h h' q a c size : new_slab h h' q a c size →
  ∀ y, slab_at h' y = if decide (y = a) then Some (Some (a + sizeof_Slab), slab_capacity size, c) else slab_at h y.
Proof.
  intros [_ _ _ (r & Hr & Es) _ _] y. unfold slab_at. rewrite Es. case_decide as E.
  - subst. by rewrite lookup_insert_eq, <-Hr.
  - by rewrite lookup_insert_ne.
Qed.

Lemma data_ok_new h h' F A fl D L q a c size : data_ok h F A fl D L → new_slab h h' q a c size →
  pa_inv (hp_pages h') F A → slab_at h a = None → a = page_addr h q → cache_sizes !! c = Some size →
  (q, O) ∈ A → q ≠ 0 → mapped h q → (q ∉ F) → (∀ b, b ∈ D → q ∉ block_pages b) →
  data_ok h' F A (<[a := objects a size]> fl) D L.
Proof.
  intros Hd Hns Hpa Hnone Ea Hc HA Hq Hm HqF HqD. pose proof (new_slab_at _ _ _ _ _ _ Hns) as Es.
  destruct Hns as [N1 N2 N3 _ N5 N6]. pose proof Hd as Hd0. destruct Hd as [H1 H2 H3 H4 H5 H6 H7].
  assert (Em : ∀ x, mapped h' x ↔ mapped h x) by (intros x; unfold mapped, page_addr; by rewrite N1).
  assert (Epa : ∀ x, page_addr h' x = page_addr h x) by (intros x; unfold page_addr; by rewrite N1).
  assert (Hsz : slab_capacity size = Z.of_nat (length (objects a size))).
  { rewrite length_objects. pose proof (cache_size_bounds _ _ Hc). lia. }
  split; [done|by rewrite N1|by rewrite N3|..].
  - intros x Hx. rewrite Em, N2, decide_False by (by intros ->). by apply H4.
  - intros y f n c'. rewrite Es. case_decide as E.
    + intros [= <- <- <-]. subst y. exists q, size. rewrite Epa, Em, N2, decide_True, !fn_lookup_insert by done. by split_and!.
    + intros Hy. destruct (H5 _ _ _ _ Hy) as (q' & size' & X1 & X2 & X3 & X4 & X5 & X6 & X7 & X8 & X9).
      assert (q' ≠ q) by (intros ->; congruence).
      exists q', size'. rewrite Epa, Em, N2, decide_False, !fn_lookup_insert_ne by done. split_and!; [done..| |done|done].
      eapply lseg_ext; [|exact X7]. intros x Hx%X9. apply N6. intros Hx'.
      pose proof (object_range _ _ _ _ Hc Hx'). pose proof (object_range _ _ _ _ X6 Hx). pose proof (cache_size_bounds _ _ Hc).
      pose proof (cache_size_bounds _ _ X6). unfold page_addr, PAGE_SIZE in *. lia.
  - intros b Hb. destruct (H6 b Hb) as (? & ? & Hx). split; [done|]. split; [done|]. intros x Hx'.
    rewrite Em, N2, decide_False; [by apply Hx|]. intros ->. by eapply HqD.
  - intros p e. rewrite H7. unfold direct_live. setoid_rewrite Epa. apply or_iff_compat_r.
    split; intros (y & f & n & c' & Hy & Hc' & Hp & Hnf).
    + assert (y ≠ a) by congruence. exists y, f, n, c'. rewrite Es, decide_False, fn_lookup_insert_ne by done. done.
    + rewrite Es in Hy. destruct (decide (y = a)) as [->|Hne].
      * injection Hy as <- <- <-. rewrite fn_lookup_insert in Hnf. congruence.
      * rewrite fn_lookup_insert_ne in Hnf by done. by exists y, f, n, c'.
Qed.
Lemma new_slab_lists h h' q a c size place : new_slab h h' q a c size → slab_at h a = None → lists_ok h place →
  lists_ok h' (<[a := None]> place).
Proof.
  intros Hns Hnone Hl. pose proof (new_slab_at _ _ _ _ _ _ Hns) as Es. destruct Hns as [_ _ N3 (r & _ & N4) _ _].
  eapply lists_ok_ext; [exact Hl|..].
  - intros y [? Hy]. unfold snext, sprev. rewrite N4, lookup_insert_ne by congruence. done.
  - intros c' w. unfold chead. by rewrite N3.
  - intros c' w y. rewrite Es. destruct (decide (y = a)) as [->|Hne].
    + rewrite fn_lookup_insert, Hnone. naive_solver.
    + by rewrite fn_lookup_insert_ne.
Qed.

(** A slab of [n] free objects that is on no list, or no slab at all. *)
Definition detached (c : nat) (size : Z) (L : gmap Z Z) (r : option Z) h' : Prop :=
  match r with
  | None => heap_inv h' L
  | Some a => ∃ F A fl D place f, data_ok h' F A fl D L ∧ lists_ok h' place ∧ placed_but h' place a ∧
      slab_at h' a = Some (f, slab_capacity size, c) ∧ place a = None
  end.

Lemma block_head q o : q ∈ block_pages (q, o).
Proof. apply elem_of_block_pages. cbn [fst snd]. pose proof (block_size_pos o). lia. Qed.

Lemma fits_one o : fits 1 o → o = O.
Proof. intros [_ Hk]. destruct o; [done|]. specialize (Hk 0%nat ltac:(lia)). pose proof (block_size_pos 0). lia. Qed.

Lemma page_addr_add64 h q : 0 ≤ hhdm h → mapped h q → q * PAGE_SIZE +64 hhdm h = page_addr h q.
Proof. unfold mapped, page_addr, PAGE_SIZE, u64, wrap. intros Hh [Hq Hm]. rewrite Z.mod_small by lia. lia. Qed.

Lemma pfn_of_page q : 0 ≤ q → phys_to_pfn (q * PAGE_SIZE) = q.
Proof. intros Hq. unfold phys_to_pfn. rewrite Z.shiftr_div_pow2 by done. by apply Z_div_mult. Qed.

(** The slab's page before its header is written: just allocated. *)
Lemma slab_init_ok c size q h F A fl D L place cache : data_ok h F A fl D L → lists_ok h place → placed_ok h place →
  hp_caches h !! c = Some cache → sc_object_size cache = size → cache_sizes !! c = Some size →
  slab_at h (page_addr h q) = None → (q, O) ∈ A → q ≠ 0 → mapped h q → (q ∉ F) → (∀ b, b ∈ D → q ∉ block_pages b) →
  is_Some (private h q) →
  wp (modify (λ s, set_hp_slabs (<[page_addr h q := mkSlab (Some (page_addr h q + sizeof_Slab)) (slab_capacity size) None None c]> (hp_slabs s)) s);;
      build_links (Z.to_nat (u32 (slab_capacity size - 1))) (page_addr h q + sizeof_Slab) size;;
      (match private h q with None => undefined | Some _ => mret () end);;
      hp_op (fs_set_private q (page_addr h q));; mret (Some (page_addr h q)))
    (detached c size L) h.
Proof.
  intros Hd Hl Hb Hcache Esz Hc Hnone HA Hq Hm HqF HqD [v Hv]. set (a := page_addr h q). pose proof (cache_size_bounds _ _ Hc) as Hsz.
  apply wp_bind, wp_modify. apply wp_bind. set (h1 := set_hp_slabs _ h).
  replace (a + sizeof_Slab) with (a + sizeof_Slab + 0 * size) at 1 by lia.
  eapply wp_mono; [apply build_links_ok; lia|]. intros [] h2 (lk & -> & Hch & Hlk).
  assert (Eu : Z.of_nat (Z.to_nat (u32 (slab_capacity size - 1))) + 1 = slab_capacity size).
  { unfold u32, wrap. rewrite Z.mod_small by lia. lia. }
  rewrite Eu in Hch, Hlk. fold (objects a size) in Hch, Hlk. replace (a + sizeof_Slab + 0 * size) with (a + sizeof_Slab) in Hch by lia.
  rewrite Hv. apply wp_bind, wp_ret, wp_bind, wp_hp_op.
  eapply wp_mono; [eapply (fs_set_spec (hp_pages h) F A q a); [exact (do_pages _ _ _ _ _ _ Hd)|exact (pages_head (q, O) A HA)|by eexists]|].
  intros [] pa (Hpa & Eh & Ep). apply wp_ret. set (h' := set_hp_pages pa _).
  assert (Hns : new_slab h h' q a c size).
  { split; [exact Eh|exact Ep|done| |exact Hch|exact Hlk]. eexists. split; [|reflexivity]. done. }
  exists F, A, (<[a := objects a size]> fl), D, (<[a := None]> place), (Some (a + sizeof_Slab)).
  split_and!; [by eapply data_ok_new|by eapply new_slab_lists| | |apply fn_lookup_insert].
  - intros y f n c' Hy. rewrite (new_slab_at _ _ _ _ _ _ Hns), decide_False, fn_lookup_insert_ne by done. apply Hb.
  - by rewrite (new_slab_at _ _ _ _ _ _ Hns), decide_True.
Qed.

Lemma slab_create_ok c size h F A fl D L place : data_ok h F A fl D L → lists_ok h place → placed_ok h place →
  cache_sizes !! c = Some size → wp (slab_create c) (detached c size L) h.
Proof.
  intros Hd Hl Hb Hc. pose proof (do_pages _ _ _ _ _ _ Hd) as Hpi. pose proof (do_hhdm _ _ _ _ _ _ Hd) as Hh0.
  unfold slab_create. apply wp_bind, wp_hp_op. eapply wp_mono; [apply alloc_run; [exact Hpi|lia]|].
  intros r pa [[[[-> ->]|(q & o & -> & Hfit & Hsub & Hpi')] Eh] Ep].
  { apply wp_ret. destruct h. by exists F, A, fl, D, place. }
  apply fits_one in Hfit as ->. set (h1 := set_hp_pages pa h).
  assert (HqF : q ∈ F) by (apply Hsub, elem_of_page_set_1, block_head).
  assert (Hd1 : data_ok h1 (F ∖ page_set [(q, O)]) ((q, O) :: A) fl D L).
  { eapply data_ok_pages; [exact Hd|exact Hpi'|set_solver|set_solver|exact Eh|exact Ep]. }
  destruct (Z.eqb_spec (q * PAGE_SIZE) 0) as [E|E].
  { apply wp_ret. by exists (F ∖ page_set [(q, O)]), ((q, O) :: A), fl, D, place. }
  destruct (do_free _ _ _ _ _ _ Hd q HqF) as [Hm Hpr]. destruct (pa_wf _ _ _ Hpi) as (_ & Hdis & _).
  assert (HqA : q ∉ pages A) by (intros H%elem_of_page_set; by apply (Hdis q)).
  apply wp_bind, wp_get. destruct (cache_read _ _ _ _ _ _ _ _ Hd1 Hc) as (cache & Hcache & Esz).
  apply wp_bind. eapply wp_read_cache; [exact Hcache|].
  assert (Hm1 : mapped h1 q) by (unfold mapped, page_addr, hhdm in *; cbn [h1 hp_pages set_hp_pages]; by rewrite Eh).
  rewrite pfn_of_page by apply Hm. change (pa_hhdm (hp_pages h1)) with (hhdm h1).
  rewrite page_addr_add64 by (done || exact (do_hhdm _ _ _ _ _ _ Hd1)). rewrite Esz.
  replace (u32 (slab_capacity size)) with (slab_capacity size)
    by (pose proof (cache_size_bounds _ _ Hc); unfold u32, wrap; rewrite Z.mod_small; lia).
  eapply (slab_init_ok c size q h1 _ _ fl D L place cache); [exact Hd1|done|done|done|done|done| |by left|by intros ->|exact Hm1| | |].
  - apply eq_None_not_Some. intros [[[f n] c'] Hs]. destruct (do_slabs _ _ _ _ _ _ Hd _ _ _ _ Hs) as (q' & _ & E1 & Hin & _).
    assert (q' = q) as -> by (unfold page_addr, hhdm, PAGE_SIZE in *; cbn [h1 hp_pages set_hp_pages] in E1; rewrite Eh in E1; lia).
    apply HqA, elem_of_pages. exists (q, O). split; [done|]. apply elem_of_block_pages, block_head.
  - rewrite elem_of_difference, elem_of_page_set_1. intros [_ Hn]. apply Hn, block_head.
  - intros b Hb' Hqb. destruct (do_direct _ _ _ _ _ _ Hd b Hb') as [HbA _]. apply HqA, elem_of_pages. exists b.
    split; [done|by apply elem_of_block_pages].
  - unfold private. cbn [h1 hp_pages set_hp_pages]. rewrite Ep. by eexists.
Qed.
End pages.
