(* ===== verification/HeapSpec.v ===== *)
(** * The heap's contract

    [kmalloc] and [kfree] on every branch, and the live objects' ranges. *)

From S2P Require Import Prelude LinkedList Pmm PmmBlocks PageAlloc Heap HeapLists HeapInv HeapOps HeapAlloc HeapPages.
Open Scope Z_scope.

Section spec.
Context {PA : Type} `{!PageAllocator PA} `{!FrameStore PA}.
Implicit Types (h : heap PA) (place : Z → option which) (fl : Z → list Z).

(** ** The slab [kmalloc] takes from *)

Lemma listed_head h place c w a : lists_ok h place → chead h c w = Some a →
  place a = Some w ∧ ∃ f n, slab_at h a = Some (f, n, c).
Proof.
  intros Hl Hh. destruct (Hl c w) as (l & Hd & Hel). destruct (dchain_cons_inv _ _ _ _ _ Hd Hh) as (l' & -> & _).
  apply Hel, elem_of_cons. by left.
Qed.

Lemma placed_ok_but h place a : placed_ok h place → placed_but h place a.
Proof. intros Hb y f n c _. apply Hb. Qed.

Definition usable (c : nat) (L : gmap Z Z) (r : option Z) h' : Prop :=
  match r with
  | None => heap_inv h' L
  | Some a => ∃ F A fl D place f n, data_ok h' F A fl D L ∧ lists_ok h' place ∧ placed_but h' place a ∧
      slab_at h' a = Some (f, n, c) ∧ place a = Some Partial ∧ 0 < n
  end.

Lemma push_detached c size L a h : cache_sizes !! c = Some size → detached c size L (Some a) h →
  wp (push_slab c Partial a;; mret (Some a)) (usable c L) h.
Proof.
  intros Hc (F & A & fl & D & place & f & Hd & Hl & Hb & Ha & Hp). apply wp_bind.
  eapply push_slab_ok; [exact Hl|exact Ha|by eapply caches_length|exact Hp|]. intros h' Hs Hl'. apply wp_ret.
  exists F, A, fl, D, (<[a := Some Partial]> place), f, (slab_capacity size).
  pose proof (cache_size_bounds _ _ Hc). destruct Hs as (? & ? & ? & Es).
  split_and!; [by eapply data_ok_moved|done| |by rewrite Es|apply fn_lookup_insert|lia].
  intros y f0 n0 c0 Hy. rewrite Es, fn_lookup_insert_ne by done. by apply Hb.
Qed.

Lemma partial_slab_ok c size L h : heap_inv h L → cache_sizes !! c = Some size →
  wp (partial_slab c) (usable c L) h.
Proof.
  intros (F & A & fl & D & place & Hd & Hl & Hb) Hc. unfold partial_slab.
  destruct (cache_read _ _ _ _ _ _ _ _ Hd Hc) as (cache & Hcache & Esz).
  apply wp_bind. eapply wp_read_cache; [exact Hcache|].
  assert (Ehd : ∀ w, chead h c w = sc_head w cache) by (intros w; unfold chead; by rewrite Hcache).
  destruct (sc_partial cache) as [a|] eqn:Epart.
  { apply wp_ret. destruct (listed_head h place c Partial a Hl) as (Hp & f & n & Ha); [by rewrite Ehd|].
    destruct (Hb _ _ _ _ Ha) as (w & size' & Hw & _ & Hn). rewrite Hp in Hw. injection Hw as <-. cbn in Hn.
    exists F, A, fl, D, place, f, n. split_and!; [done|done|by apply placed_ok_but|done|done|lia]. }
  apply wp_bind. destruct (sc_empty cache) as [a|] eqn:Eemp.
  - destruct (listed_head h place c Empty a Hl) as (Hp & f & n & Ha); [by rewrite Ehd|].
    destruct (Hb _ _ _ _ Ha) as (w & size' & Hw & Hc' & Hn). rewrite Hp in Hw. injection Hw as <-. cbn in Hn.
    assert (size' = size) as -> by congruence. subst n.
    apply wp_bind. eapply pop_empty_ok; [exact Hl|exact Ha|by eapply caches_length|by rewrite Ehd|]. intros h1 Hs Hl1.
    apply wp_ret, (push_detached c size); [done|]. destruct Hs as (? & ? & ? & Es).
    exists F, A, fl, D, (<[a := None]> place), f. split_and!; [by eapply data_ok_moved|done| |by rewrite Es|apply fn_lookup_insert].
    intros y f0 n0 c0 Hy. rewrite Es, fn_lookup_insert_ne by done. apply Hb.
  - eapply wp_mono; [by eapply slab_create_ok|]. intros [a|] h' Hr; [by eapply push_detached|]. by apply wp_ret.
Qed.

(** ** kmalloc *)

Lemma find_cache_spec n cs i c : find_cache n cs i = Some c →
  ∃ k cache, c = (i + k)%nat ∧ cs !! k = Some cache ∧ n ≤ sc_object_size cache.
Proof.
  revert i. induction cs as [|x cs IH]; intros i; [done|]. cbn [find_cache]. case_if.
  - intros [= <-]. exists O, x. split_and!; [lia|done|done].
  - intros (k & cache & -> & Hk & Hn)%IH. exists (S k), cache. split_and!; [lia|done|done].
Qed.

Definition kmalloc_post (n : Z) (L : gmap Z Z) (p : Z) h' : Prop :=
  (p = 0 ∧ heap_inv h' L) ∨
  (0 < p ∧ L !! p = None ∧ ∃ e, (n ≤ 2 ^ 63 → n ≤ e) ∧ heap_inv h' (<[p := e]> L)).

Lemma page_live h F A fl D L q e : data_ok h F A fl D L → L !! page_addr h q = Some e → q ∈ pages A.
Proof.
  intros Hd [(a & f & n & c & Ha & Hc & Hp & _)|(q' & o & HD & E & _)]%(do_live _ _ _ _ _ _ Hd).
  - exfalso. by eapply object_not_page.
  - assert (q' = q) as -> by (unfold page_addr, PAGE_SIZE in E; lia).
    destruct (do_direct _ _ _ _ _ _ Hd _ HD) as [HA _]. by apply (pages_head (q, o)).
Qed.

Lemma direct_insert h F A fl D L q o : data_ok h F A fl D L → (q, o) ∈ A → direct_ok h (q, o) → L !! page_addr h q = None →
  data_ok h F A fl ((q, o) :: D) (<[page_addr h q := block_size o * PAGE_SIZE]> L).
Proof.
  intros [H1 H2 H3 H4 H5 H6 H7] HA Hok HL. split; [done..| |].
  - intros b [->|Hb]%elem_of_cons; [done|by apply H6].
  - intros p e. destruct (decide (p = page_addr h q)) as [->|Hne].
    + rewrite lookup_insert_eq. split.
      * intros [= <-]. right. exists q, o. split_and!; [by left|done|done].
      * intros Hlive. destruct (decide (e = block_size o * PAGE_SIZE)) as [->|He]; [done|]. exfalso.
        assert (Hs : L !! page_addr h q = Some e); [|congruence]. apply H7. destruct Hlive as [?|(q' & o' & HD & Eq & Ee)]; [by left|].
        right. exists q', o'. split_and!; [|done|done]. apply elem_of_cons in HD as [[= -> ->]|?]; [done|done].
    + rewrite lookup_insert_ne by done. rewrite H7. apply or_iff_compat_l. unfold direct_live.
      setoid_rewrite elem_of_cons. split; [naive_solver|]. intros (q' & o' & [[= -> ->]|HD] & -> & ->); [done|]. eauto.
Qed.

Lemma request_pages n : 0 < n → 0 ≤ (n +64 PAGE_MASK) / PAGE_SIZE ≤ 2 ^ 63 ∧
  (n ≤ 2 ^ 63 → n ≤ (n +64 PAGE_MASK) / PAGE_SIZE * PAGE_SIZE).
Proof.
  intros Hn. unfold PAGE_MASK, PAGE_SIZE, u64, wrap. pose proof (Z.mod_pos_bound (n + (4096 - 1)) (2 ^ 64) ltac:(lia)) as Hm.
  split; [|intros Hle; rewrite Z.mod_small by lia; pose proof (Z.div_mod (n + (4096 - 1)) 4096 ltac:(lia)); pose proof (Z.mod_pos_bound (n + (4096 - 1)) 4096 ltac:(lia)); lia].
  split; [apply Z.div_pos; lia|]. apply Z.div_le_upper_bound; lia.
Qed.

(** The direct path: whole pages. *)
Lemma kmalloc_direct_ok n h F A fl D L place : data_ok h F A fl D L → lists_ok h place → placed_ok h place → 0 < n →
  wp (phys ← hp_op (pa_alloc ((n +64 PAGE_MASK) / PAGE_SIZE));
      if phys =? 0 then mret 0 else s ← get; mret (phys +64 pa_hhdm (hp_pages s))) (kmalloc_post n L) h.
Proof.
  intros Hd Hl Hb Hn. pose proof (do_pages _ _ _ _ _ _ Hd) as Hpi.
  destruct (request_pages n Hn) as [Hcnt Hfull]. apply wp_bind, wp_hp_op. eapply wp_mono; [apply alloc_run; [exact Hpi|exact Hcnt]|].
  intros r pa [[[[-> ->]|(q & o & -> & [Hfit _] & Hsub & Hpi')] Eh] Ep].
  { apply wp_ret. left. split; [done|]. destruct h. by exists F, A, fl, D, place. }
  set (h1 := set_hp_pages pa h). assert (Hd1 : data_ok h1 (F ∖ page_set [(q, o)]) ((q, o) :: A) fl D L).
  { eapply data_ok_pages; [exact Hd|exact Hpi'|set_solver|set_solver|exact Eh|exact Ep]. }
  destruct (Z.eqb_spec (q * PAGE_SIZE) 0) as [E|E].
  { apply wp_ret. left. split; [done|]. by exists (F ∖ page_set [(q, o)]), ((q, o) :: A), fl, D, place. }
  assert (Hm : ∀ x, x ∈ F → mapped h1 x ∧ private h1 x = Some 0).
  { intros x Hx. destruct (do_free _ _ _ _ _ _ Hd x Hx) as [Hm Hpr]. unfold mapped, page_addr, private, hhdm in *.
    cbn [h1 hp_pages set_hp_pages]. by rewrite Eh, Ep. }
  assert (HqF : q ∈ F) by (apply Hsub, elem_of_page_set_1, block_head).
  destruct (pa_wf _ _ _ Hpi) as (_ & Hdis & _). pose proof (do_hhdm _ _ _ _ _ _ Hd1) as Hh.
  apply wp_bind, wp_get, wp_ret. change (pa_hhdm (hp_pages h1)) with (hhdm h1). rewrite page_addr_add64 by (done || by apply Hm).
  assert (HLp : L !! page_addr h1 q = None).
  { apply eq_None_not_Some. intros [e He]. assert (Ea : page_addr h1 q = page_addr h q) by (unfold page_addr, hhdm; cbn [h1 hp_pages set_hp_pages]; by rewrite Eh).
    rewrite Ea in He. apply (Hdis q); [|done]. apply elem_of_page_set. by eapply page_live. }
  right. split_and!; [|done|].
  - destruct (Hm q HqF) as [[Hq _] _]. unfold page_addr, PAGE_SIZE in *. nia.
  - exists (block_size o * PAGE_SIZE). split; [unfold PAGE_SIZE in *; intros ?%Hfull; nia|].
    exists (F ∖ page_set [(q, o)]), ((q, o) :: A), fl, ((q, o) :: D), place. split_and!; [|done|done].
    apply direct_insert; [done|by left| |done]. split; [intros E2; cbn in E2; lia|].
    intros x Hx. apply Hm, Hsub. by apply elem_of_page_set_1.
Qed.

Lemma kmalloc_ok n L h : heap_inv h L → 0 < n → wp (kmalloc n) (kmalloc_post n L) h.
Proof.
  intros Hi Hn. unfold kmalloc. rewrite (proj2 (Z.eqb_neq n 0)) by lia. apply wp_bind, wp_get.
  destruct Hi as (F & A & fl & D & place & Hd & Hl & Hb).
  destruct (find_cache n (hp_caches h) 0) as [c|] eqn:Efc; [|by eapply kmalloc_direct_ok].
  apply find_cache_spec in Efc as (k & cache & -> & Hcache & Hle). cbn [Nat.add].
  assert (Hc : cache_sizes !! k = Some (sc_object_size cache)) by by rewrite <-(do_sizes _ _ _ _ _ _ Hd), list_lookup_fmap, Hcache.
  apply wp_bind. eapply wp_mono; [eapply partial_slab_ok; [by exists F, A, fl, D, place|exact Hc]|].
  intros [a|] h1 Hu; [|apply wp_ret; by left]. destruct Hu as (F1 & A1 & fl1 & D1 & place1 & f1 & n1 & Hd1 & Hl1 & Hb1 & Ha1 & Hp1 & Hn1).
  eapply wp_mono; [by eapply take_object_ok|]. intros p h2 (Hp & HLp & Hinv). right. split_and!; [done|done|]. eexists. split; [|exact Hinv]. done.
Qed.

(** ** Success *)

(** When a page can be had, so can a slab. *)
Lemma partial_slab_some c h : wlp (pa_alloc 1) (λ r _, r ≠ 0) (hp_pages h) → wlp (partial_slab c) (λ o _, is_Some o) h.
Proof.
  intros Hp. unfold partial_slab. apply wlp_bind. unfold read_cache. apply wlp_bind, wlp_get, wlp_deref. intros cache _.
  destruct (sc_partial cache); [by apply wlp_ret|]. apply wlp_bind. apply (wlp_mono _ (λ o _, is_Some o)).
  - destruct (sc_empty cache); [apply wlp_bind, wlp_true; intros [] ?; by apply wlp_ret|].
    unfold slab_create. apply wlp_bind. unfold wlp, hp_op in *. destruct (pa_alloc 1 (hp_pages h)) as [[r pa]| |]; [|done..].
    rewrite (proj2 (Z.eqb_neq r 0)) by done. apply wlp_bind, wlp_get, wlp_bind, wlp_true. intros ? ?.
    do 4 (apply wlp_bind, wlp_true; intros ? ?). by apply wlp_ret.
  - intros o s [a ->]. apply wlp_bind, wlp_true. intros ? ?. by apply wlp_ret.
Qed.

(** An allocation that finds a slab gives an object. *)
Lemma kmalloc_some n c h L : heap_inv h L → 0 < n → find_cache n (hp_caches h) 0 = Some c → wlp (pa_alloc 1) (λ r _, r ≠ 0) (hp_pages h) →
  wp (kmalloc n) (λ p _, 0 < p) h.
Proof.
  intros Hi Hn Efc Hp. unfold kmalloc. rewrite (proj2 (Z.eqb_neq n 0)) by lia. apply wp_bind, wp_get. rewrite Efc.
  apply find_cache_spec in Efc as (k & cache & -> & Hcache & _). cbn [Nat.add].
  assert (Hc : cache_sizes !! k = Some (sc_object_size cache)).
  { destruct Hi as (F & A & fl & D & place & Hd & _). by rewrite <-(do_sizes _ _ _ _ _ _ Hd), list_lookup_fmap, Hcache. }
  apply wp_bind. eapply wp_mono; [apply wp_wlp; [by eapply partial_slab_ok|by apply partial_slab_some]|]. cbv beta.
  intros o h1 [Hu [a ->]]. destruct Hu as (F1 & A1 & fl1 & D1 & place1 & f1 & n1 & Hd1 & Hl1 & Hb1 & Ha1 & Hp1 & Hn1).
  eapply wp_mono; [by eapply take_object_ok|]. by intros p h2 (H0 & _).
Qed.

(** ** kfree *)

Lemma slab_not_null h A fl a f n c : 0 ≤ hhdm h → slab_ok h A fl a f n c → 0 < a.
Proof. intros Hh (q & size & -> & _ & Hq & [Hq0 _] & _). unfold page_addr, PAGE_SIZE. lia. Qed.

(** A direct block given back. *)
Lemma data_ok_release h pa F A A' fl D L q o : data_ok h F A fl D L → (q, o) ∈ D → A ≡ₚ (q, o) :: A' →
  pa_inv pa (F ∪ page_set [(q, o)]) A' → pa_hhdm pa = hhdm h → (∀ x, fs_private pa x = private h x) →
  data_ok (set_hp_pages pa h) (F ∪ page_set [(q, o)]) A' fl (filter (λ b, b ≠ (q, o)) D) (delete (page_addr h q) L).
Proof.
  intros Hd HD HA Hpa Eh Ep. pose proof Hd as [H1 H2 H3 H4 H5 H6 H7]. set (h' := set_hp_pages pa h).
  assert (Em : ∀ x, mapped h' x ↔ mapped h x) by (intros x; unfold mapped, page_addr, hhdm in *; cbn [h' hp_pages set_hp_pages]; by rewrite Eh).
  assert (Ea : ∀ x, page_addr h' x = page_addr h x) by (intros x; unfold page_addr, hhdm in *; cbn [h' hp_pages set_hp_pages]; by rewrite Eh).
  assert (Epr : ∀ x, private h' x = private h x) by exact Ep.
  destruct (H6 _ HD) as [HqA [Hq0 Hqp]]. destruct (pa_wf _ _ _ H1) as (HN & _ & _).
  assert (HA' : ∀ b, b ∈ A → b ≠ (q, o) → b ∈ A') by (intros b Hb Hne; rewrite HA in Hb; set_solver).
  split; [done|unfold hhdm in *; cbn [h' hp_pages set_hp_pages]; by rewrite Eh|done|..].
  - intros x [Hx|Hx%elem_of_page_set_1]%elem_of_union; rewrite Em, Epr; [by apply H4|by apply Hqp].
  - intros a f n c Hs. destruct (H5 a f n c Hs) as (q' & size & X1 & X2 & X3 & X4 & X5 & X6).
    exists q', size. rewrite Ea, Em, Epr. split_and!; [done| |done|done|done|by destruct X6 as (?&?&?&?)..].
    apply HA'; [done|]. intros [= -> <-]. destruct (Hqp q) as [_ E]; [apply block_head|].
    pose proof (slab_not_null _ _ _ _ _ _ _ H2 (H5 _ _ _ _ Hs)). assert (a = 0) by congruence. lia.
  - intros b [Hne Hb]%list_elem_of_filter. destruct (H6 b Hb) as (? & ? & Hx). split; [by apply HA'|]. split; [done|]. intros x Hx'.
    rewrite Em, Epr. by apply Hx.
  - intros p e. unfold direct_live. setoid_rewrite Ea. setoid_rewrite list_elem_of_filter. destruct (decide (p = page_addr h q)) as [->|Hne].
    + rewrite lookup_delete_eq. split; [done|]. intros [(a & f & n & c & Hs & Hc & Hp & _)|(q' & o' & [Hn HD'] & E & _)].
      * exfalso. by eapply (object_not_page h).
      * assert (q' = q) as -> by (unfold page_addr, PAGE_SIZE in E; lia). exfalso.
        destruct (H6 _ HD') as [HqA' _]. assert (Hin : (q, o') ∈ A') by by apply HA'.
        rewrite HA, pages_cons, NoDup_app in HN. destruct HN as (_ & Hdis & _). eapply (Hdis q); [apply block_head|].
        by apply (pages_head (q, o')).
    + rewrite lookup_delete_ne by done. rewrite H7. apply or_iff_compat_l. unfold direct_live.
      split; [|naive_solver]. intros (q' & o' & HD' & -> & ->). exists q', o'. split_and!; [|done|done|done]. by intros [= -> ->].
Qed.

Lemma kfree_ok p L h : heap_inv h L → is_Some (L !! p) → wp (kfree p) (λ _ h', heap_inv h' (delete p L)) h.
Proof.
  intros (F & A & fl & D & place & Hd & Hl & Hb) [e Hlive]. pose proof (do_hhdm _ _ _ _ _ _ Hd) as Hh.
  apply (do_live _ _ _ _ _ _ Hd) in Hlive as [(a & f & n & c & Ha & Hc & Hp & Hnf)|(q & o & HD & -> & ->)].
  - pose proof (do_slabs _ _ _ _ _ _ Hd _ _ _ _ Ha) as Hok. pose proof (slab_not_null _ _ _ _ _ _ _ Hh Hok) as Ha0.
    pose proof (object_range _ _ _ _ Hc Hp) as Hr. pose proof (cache_size_bounds _ _ Hc).
    destruct Hok as (q & _ & Eq & _ & _ & Hm & Hpr & _).
    unfold kfree. rewrite (proj2 (Z.eqb_neq p 0)) by lia. apply wp_bind, wp_get. change (pa_hhdm (hp_pages h)) with (hhdm h).
    rewrite (kfree_pfn h q p) by (done || lia). unfold private in Hpr. rewrite Hpr, (proj2 (Z.eqb_neq a 0)) by lia.
    by eapply free_object_ok.
  - destruct (do_direct _ _ _ _ _ _ Hd _ HD) as [HA [Hq0 Hx]]. cbn [fst] in Hq0. destruct (Hx q) as [Hm Hpr]; [apply block_head|].
    pose proof (do_pages _ _ _ _ _ _ Hd) as Hpi. destruct (fs_block _ _ _ _ _ Hpi HA) as [_ Ho].
    assert (Hpos : 0 < page_addr h q) by (destruct Hm; unfold page_addr, PAGE_SIZE in *; lia).
    unfold kfree. rewrite (proj2 (Z.eqb_neq (page_addr h q) 0)) by lia. apply wp_bind, wp_get. change (pa_hhdm (hp_pages h)) with (hhdm h).
    rewrite (kfree_pfn h q) by (done || unfold PAGE_SIZE; lia). unfold private in Hpr. rewrite Hpr, Ho. cbn [negb Z.eqb deref].
    apply wp_bind, wp_ret, wp_hp_op.
    assert (Esub : page_addr h q -64 hhdm h = q * PAGE_SIZE).
    { destruct Hm. unfold page_addr, PAGE_SIZE, u64, wrap in *. rewrite Z.mod_small; lia. }
    rewrite Esub. apply elem_of_Permutation in HA as [A' HA].
    pose proof (pa_free_spec _ F A' q o (block_size o) (pa_perm _ _ _ _ HA Hpi) Hq0) as Hw.
    destruct (proj1 (wp_ok _ _ _) Hw) as ([] & pa & E & Hpa & _). apply (wp_eq _ _ _ _ _ E).
    assert (Hk : ∀ x, fs_private pa x = private h x ∧ pa_hhdm pa = hhdm h) by (intros x; by eapply fs_free_keep).
    exists (F ∪ page_set [(q, o)]), A', fl, (filter (λ b, b ≠ (q, o)) D), place. split_and!; [|done|done].
    eapply data_ok_release; [done..|apply (Hk 0)|apply Hk].
Qed.
End spec.
