(* ===== verification/HeapPmm.v ===== *)
(** * The page frames the heap writes to

    The page allocator discharges [FrameStore]: it never reads or writes the
    [private_data] of a frame, so the heap's use of that field and the
    allocator's bookkeeping do not interfere. *)

From S2P Require Import Prelude LinkedList Pmm PmmBlocks PmmInv PmmAlloc PmmInit PageAlloc PmmTheorems Heap.
Open Scope Z_scope.

(** ** What the allocator leaves alone *)

Definition pmm_same (s s' : pmm) : Prop :=
  kTotalPages s' = kTotalPages s ∧ kHhdmOffset s' = kHhdmOffset s ∧
  ∀ q, pf_private_data <$> kFrames s' !! q = pf_private_data <$> kFrames s !! q.

#[export] Instance pmm_same_preorder : PreOrder pmm_same.
Proof.
  split; [done|]. intros s1 s2 s3 (E1 & E2 & E3) (F1 & F2 & F3). split_and!; [congruence..|]. intros q. by rewrite F3, E3.
Qed.

(** The routine changes nothing else of [pmm_same]. *)
Local Abbreviation pmm_keeps := (keeps pmm_same).

Lemma pmm_keeps_read_frame i : pmm_keeps (read_frame i).
Proof. unfold read_frame. keeps_tac. Qed.

Lemma pmm_keeps_write_frame i g : (∀ f, pf_private_data (g f) = pf_private_data f) → pmm_keeps (write_frame i g).
Proof.
  intros Hg s. apply wlp_bind, wlp_bind, wlp_get, wlp_deref. intros f Hf. apply wlp_modify.
  split_and!; [done..|]. intros q. cbn [kFrames set_kFrames]. destruct (decide (q = i)) as [->|Hq].
  - rewrite lookup_insert_eq, Hf. cbn. by rewrite Hg.
  - by rewrite lookup_insert_ne.
Qed.

Lemma pmm_keeps_free_pages f : pmm_keeps (modify (λ s, set_kFreePages (f s) s)).
Proof. by apply keeps_modify. Qed.

Lemma pmm_keeps_read_head o : pmm_keeps (read_head o).
Proof. unfold read_head. keeps_tac. Qed.

Lemma pmm_keeps_write_head o v : pmm_keeps (write_head o v).
Proof. apply keeps_bind; [apply pmm_keeps_read_head|]. intros ?. by apply keeps_modify. Qed.

#[export] Hint Resolve pmm_keeps_read_frame pmm_keeps_free_pages pmm_keeps_read_head pmm_keeps_write_head : vortex.

Ltac pmm_keeps_tac :=
  repeat (keeps_tac; match goal with |- keeps _ (write_frame _ _) => apply pmm_keeps_write_frame; intros; reflexivity end); keeps_tac.

Lemma pmm_keeps_list_add o i : pmm_keeps (list_add o i).
Proof. unfold list_add. pmm_keeps_tac. Qed.

Lemma pmm_keeps_list_remove o i : pmm_keeps (list_remove o i).
Proof. unfold list_remove. pmm_keeps_tac. Qed.

#[export] Hint Resolve pmm_keeps_list_add pmm_keeps_list_remove : vortex.

Lemma pmm_keeps_split n t i : pmm_keeps (split_block n t i).
Proof. induction n; cbn [split_block]; pmm_keeps_tac. Qed.
#[export] Hint Resolve pmm_keeps_split : vortex.

Lemma pmm_keeps_alloc_from fuel o t : pmm_keeps (alloc_from fuel o t).
Proof. revert o. induction fuel; intros o; cbn [alloc_from]; pmm_keeps_tac. Qed.
#[export] Hint Resolve pmm_keeps_alloc_from : vortex.

Lemma pmm_keeps_alloc c : pmm_keeps (pmm_alloc_pages c).
Proof. unfold pmm_alloc_pages. pmm_keeps_tac. Qed.

Lemma pmm_keeps_merge fuel p o : pmm_keeps (merge_loop fuel p o).
Proof. revert p o. induction fuel; intros p o; cbn [merge_loop]; pmm_keeps_tac. Qed.
#[export] Hint Resolve pmm_keeps_merge : vortex.

Lemma pmm_keeps_free a c : pmm_keeps (pmm_free_pages a c).
Proof. unfold pmm_free_pages. pmm_keeps_tac. Qed.

Lemma pmm_keeps_free_region fuel p e ms me : pmm_keeps (free_region fuel p e ms me).
Proof. revert p. induction fuel; intros p; cbn [free_region]; pmm_keeps_tac. Qed.
#[export] Hint Resolve pmm_keeps_free_region : vortex.

Lemma pmm_keeps_free_usable entries n : pmm_keeps (free_usable entries n).
Proof. induction entries; cbn [free_usable]; pmm_keeps_tac. Qed.

(** ** The instance *)

(** [pmm_get_frame] and the field. *)
Definition frame_private (s : pmm) (q : Z) : option Z :=
  if kTotalPages s <=? q then None else pf_private_data <$> kFrames s !! q.
Definition frame_order (s : pmm) (q : Z) : option nat := pf_order <$> kFrames s !! q.
Definition frame_set_private (q v : Z) : M pmm () := write_frame q (pf_set_private_data v).

Lemma pmm_same_private s s' : pmm_same s s' → ∀ q, frame_private s' q = frame_private s q.
Proof. intros (E & _ & Ep) q. unfold frame_private. by rewrite E, Ep. Qed.

Lemma pmm_inv_private s L A q v f : pmm_inv s L A → kFrames s !! q = Some f →
  pmm_inv (set_kFrames (<[q := pf_set_private_data v f]> (kFrames s)) s) L A.
Proof.
  intros [[H1 H2 H3 H4 H5 H6 H7] Hc Ha] Hf. set (s' := set_kFrames _ s).
  assert (Hv : ∀ x f', kFrames s' !! x = Some f' → ∃ f0, kFrames s !! x = Some f0 ∧ pf_flags f' = pf_flags f0 ∧ pf_order f' = pf_order f0).
  { intros x f'. cbn [s' kFrames set_kFrames]. destruct (decide (x = q)) as [->|Hx].
    - rewrite lookup_insert_eq. intros [= <-]. eauto.
    - rewrite lookup_insert_ne by done. eauto. }
  assert (Hs : ∀ x, is_Some (kFrames s' !! x) ↔ is_Some (kFrames s !! x)).
  { intros x. cbn [s' kFrames set_kFrames]. destruct (decide (x = q)) as [->|Hx]; [|by rewrite lookup_insert_ne].
    rewrite lookup_insert_eq, Hf. split; eauto. }
  assert (Hl : ∀ x, frame_next s' x = frame_next s x ∧ frame_prev s' x = frame_prev s x).
  { intros x. unfold frame_next, frame_prev. cbn [s' kFrames set_kFrames]. destruct (decide (x = q)) as [->|Hx].
    - by rewrite lookup_insert_eq, Hf.
    - by rewrite lookup_insert_ne. }
  split; [split; [done|done|by intros x; rewrite Hs|..|done]|done|].
  - intros o hd Ho. eapply dchain_ext; [..|by apply H4]; intros x _; apply Hl.
  - intros o x f' Ho Hx (f0 & E0 & E1 & E2)%Hv. unfold is_free. rewrite E1, E2. by eapply H5.
  - intros x f' (f0 & E0 & E1 & E2)%Hv. unfold is_free. rewrite E1. by eapply H6.
  - intros p o Hin. destruct (Ha p o Hin) as (f0 & E0 & E1 & E2).
    destruct (proj2 (Hs p)) as [f' Hf']; [by eexists|]. exists f'. split; [done|].
    destruct (Hv _ _ Hf') as (f1 & E3 & E4 & E5). rewrite E4, E5. by simplify_eq.
Qed.

Lemma frame_set_private_spec s F A q v : pmm_view s F A → q ∈ pages A → is_Some (frame_private s q) →
  wp (frame_set_private q v) (λ _ s', pmm_view s' F A ∧ kHhdmOffset s' = kHhdmOffset s ∧
    ∀ q', frame_private s' q' = if decide (q' = q) then Some v else frame_private s q') s.
Proof.
  intros (L & Hi & ->) _ Hp. unfold frame_private in Hp. destruct (kTotalPages s <=? q) eqn:Et; [by destruct Hp|].
  apply fmap_is_Some in Hp as [f Hf]. apply wp_bind, wp_bind, wp_get. eapply wp_deref; [exact Hf|]. apply wp_modify.
  split_and!; [|done|].
  - exists L. split; [|done]. by apply pmm_inv_private.
  - intros q'. unfold frame_private. cbn [kFrames set_kFrames kTotalPages]. case_decide as E.
    + subst. by rewrite Et, lookup_insert_eq.
    + by rewrite lookup_insert_ne.
Qed.

Lemma frame_alloc_keep s c r s' q : pmm_alloc_pages c s = Ok (r, s') → frame_private s' q = frame_private s q.
Proof. intros E. apply pmm_same_private. exact (wlp_result _ _ _ _ _ (pmm_keeps_alloc c s) E). Qed.

Lemma frame_free_keep s a c s' q : pmm_free_pages a c s = Ok ((), s') →
  frame_private s' q = frame_private s q ∧ kHhdmOffset s' = kHhdmOffset s.
Proof.
  intros E. pose proof (wlp_result _ _ _ _ _ (pmm_keeps_free a c s) E) as Hs.
  split; [by apply pmm_same_private|apply Hs].
Qed.

Lemma frame_block s F A p o : pmm_view s F A → (p, o) ∈ A → is_Some (frame_private s p) ∧ frame_order s p = Some o.
Proof.
  intros (L & Hi & _) Hin. destruct (pi_alloc _ _ _ Hi p o Hin) as (f & Hf & Ho & _).
  assert (Hp : 0 ≤ p < kTotalPages s) by (apply (pl_dom _ _ _ (pi_lists _ _ _ Hi)); by eexists).
  unfold frame_private, frame_order. rewrite (proj2 (Z.leb_gt _ _)) by lia. rewrite Hf. split; [by eexists|by rewrite <-Ho].
Qed.

#[export] Instance pmm_frames : FrameStore pmm := {|
  fs_private := frame_private;
  fs_order := frame_order;
  fs_set_private := frame_set_private;
  fs_set_spec := frame_set_private_spec;
  fs_alloc_keep := frame_alloc_keep;
  fs_free_keep := frame_free_keep;
  fs_block := frame_block
|}.

(** Initialisation leaves the field as the memory held it. *)
Lemma pmm_init_private raw entries hhdm s q :
  pmm_init raw entries hhdm pmm_boot = Ok ((), s) → 0 ≤ q < kTotalPages s → frame_private s q = Some (raw q).
Proof.
  intros E Hq. unfold pmm_init in E. cbv zeta in E. destruct (find_metadata _ _) as [e|]; [|done].
  pose proof (wlp_result _ _ _ _ _ (pmm_keeps_free_usable _ _ _) E) as Hs. destruct Hs as (E1 & _ & E3).
  unfold frame_private. rewrite (proj2 (Z.leb_gt _ _)) by lia. rewrite E3. cbn [kFrames]. cbn [kTotalPages] in E1.
  apply fmap_Some. exists (init_frame raw q). split; [|done]. unfold init_frames. apply elem_of_list_to_map_1.
  - rewrite <-list_fmap_compose. cbn. rewrite list_fmap_id. apply NoDup_seqZ.
  - apply list_elem_of_fmap. exists q. split; [done|]. apply elem_of_seqZ. lia.
Qed.
