(* ===== verification/HeapTheorems.v ===== *)
(** * The heap: its contract and its properties

    The slab heap over any page allocator meets [KernelHeap], the contract its
    clients are proved against; over the buddy allocator, every run from boot is
    safe. *)

From stdpp Require Import relations.
From S2P Require Import Prelude LinkedList Pmm PmmBlocks PmmInv PmmAlloc PmmInit PageAlloc PmmTheorems.
From S2P Require Import KernelHeap Heap HeapLists HeapInv HeapOps HeapAlloc HeapPages HeapSpec HeapPmm.
Open Scope Z_scope.

Section contract.
Context {PA : Type} `{!PageAllocator PA} `{!FrameStore PA}.
Implicit Types h : heap PA.

(** ** The instance of the contract *)

Definition heap_view h (L : gset Z) : Prop := ∃ m, heap_inv h m ∧ dom m = L.

Lemma heap_view_kmalloc h L n : heap_view h L → 0 < n →
  wp (Heap.kmalloc n) (λ p h', (p = 0 ∧ heap_view h' L) ∨ (0 < p ∧ (p ∉ L) ∧ heap_view h' ({[p]} ∪ L))) h.
Proof.
  intros (m & Hi & <-) Hn. eapply wp_mono; [by apply kmalloc_ok|].
  intros p h' [[-> Hi']|(Hp & Hm & e & _ & Hi')]; [left; by split; [|exists m]|].
  right. split_and!; [done|by apply not_elem_of_dom|]. exists (<[p := e]> m). split; [done|]. by rewrite dom_insert_L.
Qed.

Lemma heap_view_kfree h L p : heap_view h L → p ∈ L → wp (Heap.kfree p) (λ _ h', heap_view h' (L ∖ {[p]})) h.
Proof.
  intros (m & Hi & <-) Hp%elem_of_dom. eapply wp_mono; [by apply kfree_ok|].
  intros [] h' Hi'. exists (delete p m). split; [done|]. by rewrite dom_delete_L.
Qed.

#[export] Instance slab_heap : KernelHeap (heap PA) := {|
  KernelHeap.kmalloc := Heap.kmalloc;
  KernelHeap.kfree := Heap.kfree;
  kh_inv := heap_view;
  kmalloc_spec := heap_view_kmalloc;
  kfree_spec := heap_view_kfree
|}.

(** ** Ranges of live objects *)

(** Distinct allocated blocks cover disjoint pages. *)
Lemma blocks_apart (A : list block) b b' : NoDup (pages A) → b ∈ A → b' ∈ A → b ≠ b' →
  b.1 + block_size b.2 ≤ b'.1 ∨ b'.1 + block_size b'.2 ≤ b.1.
Proof.
  intros HN [A1 E1]%elem_of_Permutation Hb' Hne. rewrite E1 in HN, Hb'. apply elem_of_cons in Hb' as [->|Hb']; [done|].
  rewrite pages_cons, NoDup_app in HN. destruct HN as (_ & Hd & _). pose proof (block_size_pos b.2). pose proof (block_size_pos b'.2).
  assert (Hno : ∀ x, b.1 ≤ x < b.1 + block_size b.2 → ¬ b'.1 ≤ x < b'.1 + block_size b'.2).
  { intros x Hx Hx'. apply (Hd x); [by apply elem_of_block_pages|]. apply elem_of_pages. eauto. }
  pose proof (Hno b.1). pose proof (Hno b'.1). lia.
Qed.

(** The block of pages behind a live address. *)
Definition backing h (fl : Z → list Z) (D : list block) (p e : Z) (b : block) : Prop :=
  b.2 = O ∧ (∃ f n c, slab_at h (page_addr h b.1) = Some (f, n, c) ∧ cache_sizes !! c = Some e ∧ p ∈ objects (page_addr h b.1) e) ∨
  b ∈ D ∧ p = page_addr h b.1 ∧ e = block_size b.2 * PAGE_SIZE.

Lemma live_backing h F A fl D L p e : data_ok h F A fl D L → L !! p = Some e →
  ∃ b, b ∈ A ∧ backing h fl D p e b ∧ page_addr h b.1 ≤ p ∧ p + e ≤ page_addr h (b.1 + block_size b.2).
Proof.
  intros Hd [(a & f & n & c & Ha & Hc & Hp & _)|(q & o & HD & -> & ->)]%(do_live _ _ _ _ _ _ Hd).
  - destruct (do_slabs _ _ _ _ _ _ Hd _ _ _ _ Ha) as (q & _ & -> & HA & _). exists (q, O). pose proof (object_range _ _ _ _ Hc Hp).
    unfold page_addr in *. change (block_size (q, O).2) with 1. cbn [fst]. split_and!; [done| |lia|lia].
    left. split; [done|]. by exists f, n, c.
  - destruct (do_direct _ _ _ _ _ _ Hd _ HD) as [HA _]. exists (q, o). unfold page_addr. cbn [fst snd]. split_and!; [done| |lia|lia].
    by right.
Qed.

(** A page is a slab or handed out, not both. *)
Lemma slab_not_direct h F A fl D L b x : data_ok h F A fl D L → slab_at h (page_addr h b.1) = Some x → b ∈ D → False.
Proof.
  intros Hd Hs HD. destruct x as [[f n] c]. pose proof (do_slabs _ _ _ _ _ _ Hd _ _ _ _ Hs) as Hok.
  pose proof (slab_not_null _ _ _ _ _ _ _ (do_hhdm _ _ _ _ _ _ Hd) Hok) as H0. destruct Hok as (q & _ & Eq & _ & _ & _ & Hpr & _).
  assert (q = b.1) as -> by (unfold page_addr, PAGE_SIZE in Eq; lia).
  destruct (do_direct _ _ _ _ _ _ Hd _ HD) as (_ & _ & Hx). destruct b as [q o]. cbn [fst] in *.
  destruct (Hx q) as [_ E]; [apply block_head|]. assert (page_addr h q = 0) by congruence. lia.
Qed.

(** Live objects do not overlap. *)
Lemma live_disjoint h L p e p' e' : heap_inv h L → L !! p = Some e → L !! p' = Some e' → p ≠ p' →
  p + e ≤ p' ∨ p' + e' ≤ p.
Proof.
  intros (F & A & fl & D & place & Hd & _) Hp Hp' Hne. destruct (pa_wf _ _ _ (do_pages _ _ _ _ _ _ Hd)) as (HN & _ & _).
  destruct (live_backing _ _ _ _ _ _ _ _ Hd Hp) as (b & HA & Hb & H1 & H2).
  destruct (live_backing _ _ _ _ _ _ _ _ Hd Hp') as (b' & HA' & Hb' & H1' & H2').
  destruct (decide (b = b')) as [<-|Hbb].
  - destruct Hb as [(_ & f & n & c & Hs & Hc & Ho)|(HD & -> & ->)], Hb' as [(_ & f' & n' & c' & Hs' & Hc' & Ho')|(HD' & -> & ->)].
    + rewrite Hs in Hs'. injection Hs' as <- <- <-. assert (e' = e) as -> by congruence. pose proof (cache_size_bounds _ _ Hc) as [Hse _].
      apply elem_of_objects in Ho as (i & Hi & ->). apply elem_of_objects in Ho' as (j & Hj & ->).
      destruct (Z.lt_trichotomy i j) as [Hij|[->|Hij]]; [left; nia|done|right; nia].
    + exfalso. by eapply slab_not_direct.
    + exfalso. by eapply slab_not_direct.
    + done.
  - destruct (blocks_apart A b b' HN HA HA' Hbb); unfold page_addr, PAGE_SIZE in *; lia.
Qed.

(** ** Clients *)

(** A client holds objects with the sizes it asked for. *)
Inductive heap_config :=
  | HRunning (h : heap PA) (held : gmap Z Z)
  | HStuck.

Definition hold_object (p n : Z) (held : gmap Z Z) : gmap Z Z := if p =? 0 then held else <[p := n]> held.

Inductive heap_step : heap_config → heap_config → Prop :=
  | hstep_alloc h h' held n p : 0 < n ≤ 2 ^ 63 → Heap.kmalloc n h = Ok (p, h') →
      heap_step (HRunning h held) (HRunning h' (hold_object p n held))
  | hstep_alloc_stuck h held n : 0 < n ≤ 2 ^ 63 → (∀ p h', Heap.kmalloc n h ≠ Ok (p, h')) →
      heap_step (HRunning h held) HStuck
  | hstep_free h h' held p : is_Some (held !! p) → Heap.kfree p h = Ok ((), h') →
      heap_step (HRunning h held) (HRunning h' (delete p held))
  | hstep_free_stuck h held p : is_Some (held !! p) → (∀ h', Heap.kfree p h ≠ Ok ((), h')) →
      heap_step (HRunning h held) HStuck.

Definition heap_client_inv (c : heap_config) : Prop :=
  match c with
  | HStuck => False
  | HRunning h held => ∃ L, heap_inv h L ∧ ∀ p n, held !! p = Some n → ∃ e, L !! p = Some e ∧ n ≤ e
  end.

Lemma heap_client_step c c' : heap_client_inv c → heap_step c c' → heap_client_inv c'.
Proof.
  intros Hc Hs. destruct Hs as [h h' held n p Hn E|h held n Hn E|h h' held p Hp E|h held p Hp E]; destruct Hc as (L & Hi & Hh).
  - destruct (wp_result _ _ _ _ _ (kmalloc_ok n L h Hi ltac:(lia)) E) as [[-> Hi']|(Hp & HL & e & He & Hi')].
    + exists L. done.
    + unfold hold_object. rewrite (proj2 (Z.eqb_neq p 0)) by lia. exists (<[p := e]> L). split; [done|]. intros p' n'.
      destruct (decide (p' = p)) as [->|Hne].
      * rewrite !lookup_insert_eq. intros [= <-]. exists e. split; [done|apply He; lia].
      * rewrite !lookup_insert_ne by done. apply Hh.
  - destruct (proj1 (wp_ok _ _ _) (kmalloc_ok n L h Hi ltac:(lia))) as (p & h' & E' & _). by eapply E.
  - destruct Hp as [n Hp]. destruct (Hh _ _ Hp) as (e & He & _).
    pose proof (wp_result _ _ _ _ _ (kfree_ok p L h Hi (mk_is_Some _ _ He)) E) as Hi'. exists (delete p L). split; [done|].
    intros p' n' [Hne Hp']%lookup_delete_Some. rewrite lookup_delete_ne by done. by apply Hh.
  - destruct Hp as [n Hp]. destruct (Hh _ _ Hp) as (e & He & _).
    destruct (proj1 (wp_ok _ _ _) (kfree_ok p L h Hi (mk_is_Some _ _ He))) as ([] & h' & E' & _). by eapply E.
Qed.

Lemma heap_client_reachable c c' : heap_client_inv c → rtc heap_step c c' → heap_client_inv c'.
Proof. intros Hc. induction 1; eauto using heap_client_step. Qed.

(** The heap as it is loaded: no slab yet. *)
Definition heap_boot (s : PA) : heap PA := mkHeap s ∅ (λ _, None) kCaches.

Lemma heap_boot_data s F A : pa_inv s F A → 0 ≤ pa_hhdm s →
  (∀ q, q ∈ F → 0 ≤ q ∧ pa_hhdm s + q * PAGE_SIZE + PAGE_SIZE ≤ 2 ^ 64 ∧ fs_private s q = Some 0) →
  data_ok (heap_boot s) F A (λ _, []) [] ∅ ∧ lists_ok (heap_boot s) (λ _, None) ∧ placed_ok (heap_boot s) (λ _, None).
Proof.
  intros Hi Hh HF. split_and!.
  - split; [done|done|done| | | |].
    + intros q Hq. destruct (HF q Hq) as (? & ? & ?). by split.
    + intros a f n c Ha. unfold slab_at in Ha. cbn in Ha. by rewrite lookup_empty in Ha.
    + intros b []%not_elem_of_nil.
    + intros p e. rewrite lookup_empty. split; [done|]. intros [(a & f & n & c & Ha & _)|(q & o & []%not_elem_of_nil & _)].
      unfold slab_at in Ha. cbn in Ha. by rewrite lookup_empty in Ha.
  - intros c w. exists []. split; [|intros a; rewrite elem_of_nil; naive_solver]. exists None. cbn. split; [|done].
    unfold chead. cbn [heap_boot hp_caches]. unfold kCaches. rewrite list_lookup_fmap.
    destruct (_ !! c); [|done]. by destruct w.
  - intros a f n c Ha. unfold slab_at in Ha. cbn in Ha. by rewrite lookup_empty in Ha.
Qed.

Lemma heap_boot_inv s F A : pa_inv s F A → 0 ≤ pa_hhdm s →
  (∀ q, q ∈ F → 0 ≤ q ∧ pa_hhdm s + q * PAGE_SIZE + PAGE_SIZE ≤ 2 ^ 64 ∧ fs_private s q = Some 0) →
  heap_inv (heap_boot s) ∅.
Proof. intros Hi Hh HF. exists F, A, (λ _, []), [], (λ _, None). by apply heap_boot_data. Qed.
End contract.

(** ** Properties *)

(** After initialisation every free frame is reached by the direct map and its
    private word is zero. *)
Lemma boot_view raw entries hhdm e : memmap_ok entries → 0 ≤ hhdm < 2 ^ 64 → hhdm + highest_addr entries ≤ 2 ^ 64 →
  find_metadata entries (phys_to_pfn (highest_addr entries) * sizeof_PageFrame) = Some e → (∀ i, raw i = 0) →
  wp (pmm_init raw entries hhdm) (λ _ s, ∃ F, pa_inv s F [] ∧ pa_hhdm s = hhdm ∧ (∀ x, x ∈ F ↔ initially_free entries e x) ∧
    (∀ q, q ∈ F → q * PAGE_SIZE + PAGE_SIZE ≤ highest_addr entries) ∧ ∀ q, q ∈ F → 0 ≤ q ∧ pa_hhdm s + q * PAGE_SIZE + PAGE_SIZE ≤ 2 ^ 64 ∧ fs_private s q = Some 0) pmm_boot.
Proof.
  intros Hm Hh Htop He Hraw.
  assert (Hw : wp (pmm_init raw entries hhdm) (λ _ s, ∃ L, pmm_inv s L [] ∧ kHhdmOffset s = hhdm ∧
    kTotalPages s = phys_to_pfn (highest_addr entries) ∧ ∀ x, x ∈ pages (blocks L) ↔ initially_free entries e x) pmm_boot)
    by (eapply pmm_init_inv; [done..|]; eauto).
  destruct (proj1 (wp_ok _ _ _) Hw) as ([] & s & E & L & Hi & Eh & Et & HL). apply (wp_eq _ _ _ _ _ E).
  assert (Hq : ∀ q, q ∈ page_set (blocks L) → 0 ≤ q < kTotalPages s ∧ q * PAGE_SIZE + PAGE_SIZE ≤ highest_addr entries).
  { intros q (b & Hb & Hq)%elem_of_page_set%elem_of_pages. destruct (pl_blocks _ _ _ (pi_lists _ _ _ Hi)) as [HF _].
    rewrite Forall_forall in HF. destruct (HF b) as (_ & _ & ? & Hb2); [apply elem_of_app; by left|]. split; [lia|].
    rewrite Et in Hb2. unfold phys_to_pfn in Hb2. rewrite Z.shiftr_div_pow2 in Hb2 by done. change (2 ^ PAGE_SHIFT) with PAGE_SIZE in Hb2.
    unfold PAGE_SIZE in *. pose proof (Z.mul_div_le (highest_addr entries) 4096 ltac:(lia)). lia. }
  exists (page_set (blocks L)). split_and!; [by exists L|done|intros x; rewrite elem_of_page_set; apply HL|intros q Hin; by apply Hq|].
  intros q [Hq' Ht]%Hq. cbn [pa_hhdm pmm_allocator fs_private pmm_frames]. rewrite (pmm_init_private _ _ _ _ q E Hq'), Hraw, Eh.
  split_and!; [lia|lia|done].
Qed.

Lemma boot_frames raw entries hhdm e : memmap_ok entries → 0 ≤ hhdm < 2 ^ 64 → hhdm + highest_addr entries ≤ 2 ^ 64 →
  find_metadata entries (phys_to_pfn (highest_addr entries) * sizeof_PageFrame) = Some e → (∀ i, raw i = 0) →
  wp (pmm_init raw entries hhdm) (λ _ s, heap_inv (heap_boot s) ∅) pmm_boot.
Proof.
  intros Hm Hh Htop He Hraw. eapply wp_mono; [by eapply boot_view|]. intros [] s (F & Hi & Eh & _ & _ & Hc).
  apply (heap_boot_inv s F []); [done|rewrite Eh; lia|done].
Qed.

(** The heap from boot: when the memory that becomes the frame array was
    zero and the direct map reaches all of memory, any client that allocates
    objects of any size and frees what it holds, in any order, never makes
    [kmalloc] or [kfree] fault or panic, and at every point the byte ranges it
    holds, each of the size it asked for, are pairwise disjoint. *)
Theorem heap_client_safe raw entries hhdm e s c :
  memmap_ok entries → 0 ≤ hhdm < 2 ^ 64 → hhdm + highest_addr entries ≤ 2 ^ 64 →
  find_metadata entries (phys_to_pfn (highest_addr entries) * sizeof_PageFrame) = Some e → (∀ i, raw i = 0) →
  pmm_init raw entries hhdm pmm_boot = Ok ((), s) →
  rtc heap_step (HRunning (heap_boot s) ∅) c →
  ∃ h held, c = HRunning h held ∧
    ∀ p n p' n', held !! p = Some n → held !! p' = Some n' → p ≠ p' → p + n ≤ p' ∨ p' + n' ≤ p.
Proof.
  intros Hm Hh Htop He Hraw Hs Hsteps.
  pose proof (wp_result _ _ _ _ _ (boot_frames raw entries hhdm e Hm Hh Htop He Hraw) Hs) as Hi.
  assert (Hc : heap_client_inv (HRunning (heap_boot s) ∅)) by (exists ∅; split; [done|by intros p n H%lookup_empty_Some]).
  apply (heap_client_reachable _ _ Hc) in Hsteps. destruct c as [h held|]; [|done]. destruct Hsteps as (L & HL & Hheld).
  exists h, held. split; [done|]. intros p n p' n' Hp Hp' Hne.
  destruct (Hheld _ _ Hp) as (e1 & He1 & Hn). destruct (Hheld _ _ Hp') as (e2 & He2 & Hn').
  destruct (live_disjoint h L p e1 p' e2 HL He1 He2 Hne); lia.
Qed.

(** The heap after two objects were allocated on the small machine. *)
Definition small_heap_1 : heap pmm := final_state (Heap.kmalloc 100) (heap_boot small_pmm).
Definition small_heap_2 : heap pmm := final_state (Heap.kmalloc 8192) small_heap_1.

Lemma run_value {S A} (m : M S A) s a : (match m s with Ok (v, _) => Some v | _ => None end) = Some a →
  m s = Ok (a, final_state m s).
Proof. unfold final_state. destruct (m s) as [[v s']| |]; [|done..]. by intros [= ->]. Qed.

Lemma small_heap_1_run : Heap.kmalloc 100 (heap_boot small_pmm) = Ok (0xffff800000008028, small_heap_1).
Proof. refine (run_value (Heap.kmalloc 100) (heap_boot small_pmm) 0xffff800000008028 _). vm_compute. reflexivity. Qed.

Lemma small_heap_2_run : Heap.kmalloc 8192 small_heap_1 = Ok (0xffff800000002000, small_heap_2).
Proof. refine (run_value (Heap.kmalloc 8192) small_heap_1 0xffff800000002000 _). vm_compute. reflexivity. Qed.

Lemma heap_client_safe_witness :
  ∃ h held, HRunning small_heap_2 (<[0xffff800000002000 := 8192]> {[0xffff800000008028 := 100]}) = HRunning h held ∧
    ∀ p n p' n', held !! p = Some n → held !! p' = Some n' → p ≠ p' → p + n ≤ p' ∨ p' + n' ≤ p.
Proof.
  apply (heap_client_safe (λ _, 0) small_memmap 0xffff800000000000 (mkMemmapEntry 0x1000 0x8000 MEMMAP_USABLE) small_pmm);
    [apply small_memmap_ok|lia|vm_compute; discriminate|vm_compute; reflexivity|done|vm_compute; reflexivity|].
  eapply rtc_l; [exact (hstep_alloc (heap_boot small_pmm) small_heap_1 ∅ 100 0xffff800000008028 ltac:(lia) small_heap_1_run)|].
  apply rtc_once. exact (hstep_alloc small_heap_1 small_heap_2 _ 8192 0xffff800000002000 ltac:(lia) small_heap_2_run).
Defined.

(** Freeing a block of pages whose frame was never cleared: [kfree] takes what
    [private_data] happens to hold for a slab and follows it. *)
Definition dirty_pmm : pmm := final_state (pmm_init (λ _, 0x1234) small_memmap 0xffff800000000000) pmm_boot.

Lemma kfree_uninitialised :
  let h := heap_boot dirty_pmm in
  (if Heap.kmalloc 4096 h is Ok (p, h1) then
     (negb (p =? 0)) && (if Heap.kfree p h1 is UB then true else false)
   else false) = true.
Proof. vm_compute. reflexivity. Qed.
