(* ===== verification/HeapShared.v ===== *)
(** * One memory for pages and objects

    The heap and the other clients of the page allocator (thread stacks, page
    tables, files, driver queues) draw from the same free pages.  [framed U B] is
    the page allocator as the heap sees it while the blocks [B] are held by
    others, [U] being the pages there are and where they are mapped: everything proved of the heap over
    any allocator holds over it, so the heap leaves [B] alone and stays in [U].  [mem_inv] joins both views of one store; a
    client may interleave page and object calls at will. *)

From stdpp Require Import relations.
From S2P Require Import Prelude LinkedList Pmm PmmBlocks PmmInv PmmInit PageAlloc PmmTheorems.
From S2P Require Import KernelHeap Heap HeapLists HeapInv HeapOps HeapAlloc HeapPages HeapSpec HeapPmm HeapTheorems.
Open Scope Z_scope.

(** ** The allocator while others hold blocks *)

Lemma page_set_middle b A B : page_set (A ++ b :: B) = page_set [b] ∪ page_set (A ++ B).
Proof. by rewrite <-(page_set_perm _ _ (Permutation_middle A B b)), page_set_cons. Qed.

(** Pages move between the free and the held ones. *)
Lemma pages_taken (F X Y U : gset Z) : X ⊆ F → F ∪ Y ⊆ U → F ∖ X ∪ (X ∪ Y) ⊆ U.
Proof. set_solver. Qed.
Lemma pages_given (F X Y U : gset Z) : F ∪ (X ∪ Y) ⊆ U → F ∪ X ∪ Y ⊆ U.
Proof. set_solver. Qed.

(** The memory: its pages and the offset of the direct map. *)
Record arena := mkArena { ar_pages : gset Z; ar_hhdm : Z }.

Section framed.
Context {PA : Type} `{!PageAllocator PA} `{!FrameStore PA} (U : arena) (B : list block).
Implicit Types s : PA.

(** A frame that may become free again: reached by the direct map, and its
    private word as the heap expects it. *)
Definition clean s (x : Z) : Prop :=
  0 ≤ x ∧ pa_hhdm s + x * PAGE_SIZE + PAGE_SIZE ≤ 2 ^ 64 ∧ fs_private s x = Some 0.

Lemma clean_same s s' x : pa_hhdm s' = pa_hhdm s → fs_private s' x = fs_private s x → clean s x → clean s' x.
Proof. unfold clean. by intros -> ->. Qed.

Definition framed_inv s (F : gset Z) (A : list block) : Prop :=
  pa_inv s F (A ++ B) ∧ (∀ x, x ∈ pages B → clean s x) ∧ F ∪ page_set (A ++ B) ⊆ ar_pages U ∧ pa_hhdm s = ar_hhdm U.

Lemma framed_perm s F A A' : A ≡ₚ A' → framed_inv s F A → framed_inv s F A'.
Proof.
  intros E (Hi & Hc & HU & HH). split_and!; [eapply pa_perm; [|exact Hi]; by rewrite E|done| |done].
  assert (E2 : A ++ B ≡ₚ A' ++ B) by by rewrite E. by rewrite <-(page_set_perm _ _ E2).
Qed.

Lemma framed_wf s F A : framed_inv s F A →
  NoDup (pages A) ∧ page_set A ## F ∧ ∀ b, b ∈ A → 0 ≤ b.1 ∧ (block_size b.2 | b.1).
Proof.
  intros [Hi _]. destruct (pa_wf _ _ _ Hi) as (HN & HF & Hb). rewrite pages_app, NoDup_app in HN.
  split_and!; [apply HN| |intros b Hin; apply Hb; set_solver].
  intros x Hx. apply HF. revert Hx. rewrite !elem_of_page_set, pages_app. set_solver.
Qed.

Lemma framed_alloc s F A count : framed_inv s F A → 0 ≤ count ≤ 2 ^ 63 →
  wp (pa_alloc count) (λ r s', alloc_post framed_inv s F A count r s' ∧ pa_hhdm s' = pa_hhdm s) s.
Proof.
  intros (Hi & Hc & HU & HH) Hn. destruct (proj1 (wp_ok _ _ _) (pa_alloc_spec _ _ _ _ Hi Hn)) as (r & s' & E & Hp & Eh).
  apply (wp_eq _ _ _ _ _ E). split; [|done]. destruct Hp as [[-> ->]|(p & o & -> & Hf & HF & Hi')]; [by left|].
  right. exists p, o. split_and!; [done..|]. split_and!; [done| | |congruence].
  - intros x Hx. eapply clean_same; [exact Eh| |by apply Hc]. by eapply fs_alloc_keep.
  - cbn [app]. rewrite (page_set_cons (p, o) (A ++ B)). by apply pages_taken.
Qed.

Lemma framed_free s F A p o c : framed_inv s F ((p, o) :: A) → p ≠ 0 →
  wp (pa_free (p * PAGE_SIZE) c) (λ _ s', framed_inv s' (F ∪ page_set [(p, o)]) A ∧ pa_hhdm s' = pa_hhdm s) s.
Proof.
  intros (Hi & Hc & HU & HH) Hp. destruct (proj1 (wp_ok _ _ _) (pa_free_spec s F (A ++ B) p o c Hi Hp)) as ([] & s' & E & Hi' & Eh).
  apply (wp_eq _ _ _ _ _ E). split; [|done]. split_and!; [done| | |congruence].
  - intros x Hx. eapply clean_same; [exact Eh| |by apply Hc]. by destruct (fs_free_keep s _ c s' x E).
  - cbn [app] in HU. rewrite (page_set_cons (p, o) (A ++ B)) in HU. by apply pages_given.
Qed.

Definition framed : PageAllocator PA := {|
  pa_alloc := pa_alloc;
  pa_free := pa_free;
  pa_hhdm := pa_hhdm;
  pa_inv := framed_inv;
  pa_perm := framed_perm;
  pa_wf := framed_wf;
  pa_alloc_spec := framed_alloc;
  pa_free_spec := framed_free
|}.

Lemma framed_set s F A q v : framed_inv s F A → q ∈ pages A → is_Some (fs_private s q) →
  wp (fs_set_private q v) (λ _ s', framed_inv s' F A ∧ pa_hhdm s' = pa_hhdm s ∧
    ∀ q', fs_private s' q' = if decide (q' = q) then Some v else fs_private s q') s.
Proof.
  intros (Hi & Hc & HU & HH) Hq Hs. assert (Hq' : q ∈ pages (A ++ B)) by (rewrite pages_app; set_solver).
  eapply wp_mono; [exact (fs_set_spec s F (A ++ B) q v Hi Hq' Hs)|]. intros [] s' (Hi' & Eh & Ep).
  split_and!; [|done|done]. split_and!; [done| |done|congruence]. intros x Hx. eapply clean_same; [exact Eh| |by apply Hc].
  rewrite Ep, decide_False; [done|]. intros ->. destruct (pa_wf _ _ _ Hi) as (HN & _ & _).
  rewrite pages_app, NoDup_app in HN. destruct HN as (_ & Hd & _). by apply (Hd q).
Qed.

Lemma framed_block s F A p o : framed_inv s F A → (p, o) ∈ A → is_Some (fs_private s p) ∧ fs_order s p = Some o.
Proof. intros [Hi _] Hin. eapply fs_block; [exact Hi|set_solver]. Qed.

Definition framed_store : @FrameStore PA framed :=
  @Build_FrameStore PA framed fs_private fs_order fs_set_private framed_set (@fs_alloc_keep PA _ _) (@fs_free_keep PA _ _) framed_block.
End framed.

(** ** The joint invariant *)

Section shared.
Context {PA : Type} `{!PageAllocator PA} `{!FrameStore PA}.
Implicit Types (h : heap PA) (U : arena) (F : gset Z) (B : list block) (L : gmap Z Z).

(** [F] free pages, [B] blocks held by others, [L] live objects with their sizes. *)
Definition mem_inv U h F B L : Prop :=
  ∃ A fl D place, @data_ok PA (framed U B) (framed_store U B) h F A fl D L ∧ lists_ok h place ∧ placed_ok h place.

Lemma mem_inv_heap U h F B L : mem_inv U h F B L → @heap_inv PA (framed U B) (framed_store U B) h L.
Proof. intros (A & fl & D & place & H). by exists F, A, fl, D, place. Qed.

Lemma heap_inv_mem U h B L : @heap_inv PA (framed U B) (framed_store U B) h L → ∃ F, mem_inv U h F B L.
Proof. intros (F & A & fl & D & place & H). exists F. by exists A, fl, D, place. Qed.

(** Objects leave the blocks of others alone. *)
Lemma mem_kmalloc U h F B L n : mem_inv U h F B L → 0 < n →
  wp (Heap.kmalloc n) (λ p h', ∃ F', (p = 0 ∧ mem_inv U h' F' B L) ∨
    (0 < p ∧ L !! p = None ∧ ∃ e, (n ≤ 2 ^ 63 → n ≤ e) ∧ mem_inv U h' F' B (<[p := e]> L))) h.
Proof.
  intros Hm%mem_inv_heap Hn. eapply wp_mono; [exact (@kmalloc_ok PA (framed U B) (framed_store U B) n L h Hm Hn)|].
  intros p h' [[-> [F' Hi]%heap_inv_mem]|(Hp & HL & e & He & [F' Hi]%heap_inv_mem)]; exists F'; [by left|].
  right. split_and!; [done|done|]. by exists e.
Qed.

Lemma mem_kfree U h F B L p : mem_inv U h F B L → is_Some (L !! p) →
  wp (Heap.kfree p) (λ _ h', ∃ F', mem_inv U h' F' B (delete p L)) h.
Proof.
  intros Hm%mem_inv_heap Hp. eapply wp_mono; [exact (@kfree_ok PA (framed U B) (framed_store U B) p L h Hm Hp)|].
  intros [] h'. apply heap_inv_mem.
Qed.

(** Pages taken or given back by others leave the heap's data alone. *)
Lemma data_ok_framed U h pa B B' F F' A fl D L :
  @data_ok PA (framed U B) (framed_store U B) h F A fl D L → framed_inv U B' pa F' A → pa_hhdm pa = pa_hhdm (hp_pages h) →
  (∀ q, fs_private pa q = fs_private (hp_pages h) q) → (∀ q, q ∈ F' → clean pa q) →
  @data_ok PA (framed U B') (framed_store U B') (set_hp_pages pa h) F' A fl D L.
Proof.
  intros [H1 H2 H3 H4 H5 H6 H7] Hi Eh Ep HF.
  split; unfold object_live, direct_live, slab_ok, direct_ok, mapped, page_addr, private, hhdm in *; cbn [pa_hhdm framed fs_private framed_store] in *;
    cbn [hp_pages set_hp_pages]; rewrite ?Eh; [done|done|done| |..].
  - intros q Hq. destruct (HF q Hq) as (? & ? & ?). rewrite <-Eh. split; [split; [done|lia]|done].
  - intros a f n c Ha. setoid_rewrite Ep. by apply H5.
  - setoid_rewrite Ep. done.
  - done.
Qed.

Lemma mem_clean U h F B L x : mem_inv U h F B L → x ∈ F ∨ x ∈ pages B → clean (hp_pages h) x.
Proof.
  intros (A & fl & D & place & Hd & _) [Hx|Hx]; [|by apply (do_pages _ _ _ _ _ _ Hd)].
  destruct (do_free _ _ _ _ _ _ Hd x Hx) as [[? ?] ?]. by split_and!.
Qed.

Lemma mem_alloc U h F B L c : mem_inv U h F B L → 0 ≤ c ≤ 2 ^ 63 →
  wp (hp_op (pa_alloc c)) (λ r h', alloc_post (λ h F B, mem_inv U h F B L) h F B c r h' ∧ pa_hhdm (hp_pages h') = pa_hhdm (hp_pages h)) h.
Proof.
  intros Hm Hc. pose proof (mem_clean U h F B L) as Hcl. destruct Hm as (A & fl & D & place & Hd & Hl & Hb).
  destruct (do_pages _ _ _ _ _ _ Hd) as (Hi & HB & HU & HH). apply wp_hp_op.
  destruct (proj1 (wp_ok _ _ _) (pa_alloc_spec _ _ _ _ Hi Hc)) as (r & pa & E & Hp & Eh). apply (wp_eq _ _ _ _ _ E). split; [|done].
  assert (Ep : ∀ q, fs_private pa q = fs_private (hp_pages h) q) by (intros q; by eapply fs_alloc_keep).
  destruct Hp as [[-> ->]|(p & o & -> & Hf & HF & Hi')]; [left; split; [done|]; by destruct h|].
  right. exists p, o. split_and!; [done..|]. exists A, fl, D, place. split_and!; [|done|done].
  assert (Hcl' : ∀ x, x ∈ F ∨ x ∈ pages B → clean pa x).
  { intros x Hx. eapply clean_same; [exact Eh|apply Ep|]. apply Hcl; [by exists A, fl, D, place|done]. }
  eapply data_ok_framed; [exact Hd| |exact Eh|exact Ep|intros q Hq; apply Hcl'; set_solver].
  split_and!; [eapply pa_perm; [|exact Hi']; by rewrite Permutation_middle| |rewrite page_set_middle; by apply pages_taken|congruence].
  intros x. rewrite pages_cons, elem_of_app. intros [Hx|Hx]; apply Hcl'; [left|by right].
  apply HF. by apply elem_of_page_set_1.
Qed.

Lemma mem_free U h F B L p o c : mem_inv U h F ((p, o) :: B) L → p ≠ 0 →
  wp (hp_op (pa_free (p * PAGE_SIZE) c)) (λ _ h', mem_inv U h' (F ∪ page_set [(p, o)]) B L ∧ pa_hhdm (hp_pages h') = pa_hhdm (hp_pages h)) h.
Proof.
  intros Hm Hp. pose proof (mem_clean U h F ((p, o) :: B) L) as Hcl. destruct Hm as (A & fl & D & place & Hd & Hl & Hb).
  destruct (do_pages _ _ _ _ _ _ Hd) as (Hi & HB & HU & HH). apply wp_hp_op.
  assert (Hi2 : pa_inv (hp_pages h) F ((p, o) :: A ++ B)) by (eapply pa_perm; [|exact Hi]; by rewrite Permutation_middle).
  destruct (proj1 (wp_ok _ _ _) (pa_free_spec _ _ _ p o c Hi2 Hp)) as ([] & pa & E & Hi' & Eh). apply (wp_eq _ _ _ _ _ E). split; [|done].
  assert (Ep : ∀ q, fs_private pa q = fs_private (hp_pages h) q) by (intros q; by destruct (fs_free_keep _ _ _ _ q E)).
  exists A, fl, D, place. split_and!; [|done|done].
  assert (Hcl' : ∀ x, x ∈ F ∨ x ∈ pages ((p, o) :: B) → clean pa x).
  { intros x Hx. eapply clean_same; [exact Eh|apply Ep|]. apply Hcl; [by exists A, fl, D, place|done]. }
  eapply data_ok_framed; [exact Hd| |exact Eh|exact Ep|].
  - rewrite page_set_middle in HU. split_and!; [done| |by apply pages_given|congruence]. intros x Hx. apply Hcl'. rewrite pages_cons. set_solver.
  - intros q [Hq|Hq%elem_of_page_set_1]%elem_of_union; apply Hcl'; [by left|right]. rewrite pages_cons. set_solver.
Qed.

Lemma mem_inv_perm U h F B B' L : B ≡ₚ B' → mem_inv U h F B L → mem_inv U h F B' L.
Proof.
  intros E (A & fl & D & place & Hd & Hl & Hb). exists A, fl, D, place. split_and!; [|done|done].
  destruct (do_pages _ _ _ _ _ _ Hd) as (Hi & HB & HU & HH). assert (E2 : A ++ B ≡ₚ A ++ B') by by rewrite E.
  replace h with (set_hp_pages (hp_pages h) h) by by destruct h. eapply data_ok_framed; [exact Hd| |done|done|].
  - split_and!; [by eapply pa_perm|intros x; rewrite <-E; apply HB| |done]. by rewrite <-(page_set_perm _ _ E2).
  - intros q Hq. eapply mem_clean; [by exists A, fl, D, place|by left].
Qed.

(** ** Nothing overlaps *)

Lemma mem_pages U h F B L : mem_inv U h F B L → ∃ A, pa_inv (hp_pages h) F (A ++ B) ∧ F ∪ page_set (A ++ B) ⊆ ar_pages U ∧ pa_hhdm (hp_pages h) = ar_hhdm U.
Proof. intros (A & fl & D & place & Hd & _). exists A. destruct (do_pages _ _ _ _ _ _ Hd) as (? & _ & ? & ?). done. Qed.

(** An object lies outside the blocks of others. *)
Lemma mem_object_apart U h F B L p e b : mem_inv U h F B L → L !! p = Some e → b ∈ B →
  p + e ≤ pa_hhdm (hp_pages h) + b.1 * PAGE_SIZE ∨ pa_hhdm (hp_pages h) + (b.1 + block_size b.2) * PAGE_SIZE ≤ p.
Proof.
  intros (A & fl & D & place & Hd & _) Hp Hb.
  destruct (@live_backing PA (framed U B) (framed_store U B) _ _ _ _ _ _ _ _ Hd Hp) as (b' & HA & _ & H1 & H2).
  destruct (do_pages _ _ _ _ _ _ Hd) as [Hi _]. destruct (pa_wf _ _ _ Hi) as (HN & _ & _).
  assert (Hne : b' ≠ b).
  { intros ->. rewrite pages_app, NoDup_app in HN. destruct HN as (_ & Hdj & _). apply (Hdj b.1); by apply pages_head. }
  destruct (blocks_apart (A ++ B) b' b HN ltac:(set_solver) ltac:(set_solver) Hne); unfold page_addr, hhdm, PAGE_SIZE in *; cbn [pa_hhdm framed] in *; lia.
Qed.

(** ** The store as a page allocator and as a heap *)

Definition store_view h F B : Prop := ∃ U L, mem_inv U h F B L.

Lemma store_perm h F B B' : B ≡ₚ B' → store_view h F B → store_view h F B'.
Proof. intros E (U & L & Hm). exists U, L. by eapply mem_inv_perm. Qed.

Lemma store_wf h F B : store_view h F B → NoDup (pages B) ∧ page_set B ## F ∧ ∀ b, b ∈ B → 0 ≤ b.1 ∧ (block_size b.2 | b.1).
Proof.
  intros (U & L & (A & Hi & _)%mem_pages). destruct (pa_wf _ _ _ Hi) as (HN & HF & Hb). rewrite pages_app, NoDup_app in HN.
  split_and!; [apply HN| |intros b Hin; apply Hb; set_solver].
  intros x Hx. apply HF. revert Hx. rewrite !elem_of_page_set, pages_app. set_solver.
Qed.

Lemma store_alloc h F B c : store_view h F B → 0 ≤ c ≤ 2 ^ 63 →
  wp (hp_op (pa_alloc c)) (λ r h', alloc_post store_view h F B c r h' ∧ pa_hhdm (hp_pages h') = pa_hhdm (hp_pages h)) h.
Proof.
  intros (U & L & Hm) Hc. eapply wp_mono; [by apply (mem_alloc U)|]. intros r h' [[[-> ->]|(p & o & -> & ? & ? & ?)] Eh].
  - split; [by left|done].
  - split; [|done]. right. exists p, o. split_and!; [done..|]. by exists U, L.
Qed.

Lemma store_free h F B p o c : store_view h F ((p, o) :: B) → p ≠ 0 →
  wp (hp_op (pa_free (p * PAGE_SIZE) c)) (λ _ h', store_view h' (F ∪ page_set [(p, o)]) B ∧ pa_hhdm (hp_pages h') = pa_hhdm (hp_pages h)) h.
Proof.
  intros (U & L & Hm) Hp. eapply wp_mono; [by apply (mem_free U h F B L)|]. intros [] h' [Hm' Eh]. split; [by exists U, L|done].
Qed.

#[export] Instance store_allocator : PageAllocator (heap PA) := {|
  pa_alloc := λ c, hp_op (pa_alloc c);
  pa_free := λ a c, hp_op (pa_free a c);
  pa_hhdm := λ h, pa_hhdm (hp_pages h);
  pa_inv := store_view;
  pa_perm := store_perm;
  pa_wf := store_wf;
  pa_alloc_spec := store_alloc;
  pa_free_spec := store_free
|}.

(** ** Clients of both *)

Inductive mem_call :=
  | Kmalloc (n : Z)
  | Kfree (p : Z)
  | AllocPages (count : Z)
  | FreePages (addr count : Z).

(** What a client holds: objects with the sizes it asked for, and pages. *)
Record holding := mkHolding { objs : gmap Z Z; pgs : list (Z * Z) }.

Definition mem_do (c : mem_call) : M (heap PA) Z :=
  match c with
  | Kmalloc n => Heap.kmalloc n
  | Kfree p => Heap.kfree p;; mret 0
  | AllocPages count => hp_op (pa_alloc count)
  | FreePages addr count => hp_op (pa_free addr count);; mret 0
  end.

(** The calls a client may make, and what it holds when the call returned [r]. *)
Inductive allowed (r : Z) : mem_call → holding → holding → Prop :=
  | may_kmalloc n o l : 0 < n ≤ 2 ^ 63 → allowed r (Kmalloc n) (mkHolding o l) (mkHolding (hold_object r n o) l)
  | may_kfree p o l : is_Some (o !! p) → allowed r (Kfree p) (mkHolding o l) (mkHolding (delete p o) l)
  | may_alloc c o l : 0 ≤ c ≤ 2 ^ 63 → allowed r (AllocPages c) (mkHolding o l) (mkHolding o (hold r c l))
  | may_free a c o l l' : l ≡ₚ (a, c) :: l' → allowed r (FreePages a c) (mkHolding o l) (mkHolding o l').

Inductive mem_config := MRunning (h : heap PA) (held : holding) | MStuck.

Inductive mem_step : mem_config → mem_config → Prop :=
  | mstep_run h h' c r held held' : allowed r c held held' → mem_do c h = Ok (r, h') → mem_step (MRunning h held) (MRunning h' held')
  | mstep_stuck h c held : (∀ r, ∃ held', allowed r c held held') → (∀ r h', mem_do c h ≠ Ok (r, h')) →
      mem_step (MRunning h held) MStuck.

Definition holds U h (held : holding) : Prop := ∃ F B L bs leaked,
  mem_inv U h F B L ∧ (∀ p n, objs held !! p = Some n → ∃ e, L !! p = Some e ∧ n ≤ e) ∧
  Forall2 backs (pgs held) bs ∧ B ≡ₚ bs ++ leaked.

Lemma holds_kmalloc U h o l n : holds U h (mkHolding o l) → 0 < n ≤ 2 ^ 63 →
  wp (Heap.kmalloc n) (λ r h', holds U h' (mkHolding (hold_object r n o) l)) h.
Proof.
  intros (F & B & L & bs & lk & Hm & Ho & Hb & HB) Hn. eapply wp_mono; [apply (mem_kmalloc U _ _ _ _ n Hm); lia|].
  intros r h' (F' & [[-> Hm']|(Hr & HL & e & He & Hm')]); [by exists F', B, L, bs, lk|].
  unfold hold_object. rewrite (proj2 (Z.eqb_neq r 0)) by lia. exists F', B, (<[r := e]> L), bs, lk. split_and!; [done| |done|done].
  cbn [objs]. intros p k. destruct (decide (p = r)) as [->|Hne].
  - rewrite !lookup_insert_eq. intros [= <-]. exists e. split; [done|apply He; lia].
  - rewrite !lookup_insert_ne by done. apply Ho.
Qed.

Lemma holds_kfree U h o l p : holds U h (mkHolding o l) → is_Some (o !! p) →
  wp (Heap.kfree p) (λ _ h', holds U h' (mkHolding (delete p o) l)) h.
Proof.
  intros (F & B & L & bs & lk & Hm & Ho & Hb & HB) [n Hp]. destruct (Ho p n Hp) as (e & He & _).
  eapply wp_mono; [apply (mem_kfree U _ _ _ _ p Hm); by eexists|]. intros [] h' [F' Hm'].
  exists F', B, (delete p L), bs, lk. split_and!; [done| |done|done]. cbn [objs].
  intros q k [Hne Hq]%lookup_delete_Some. rewrite lookup_delete_ne by done. by apply Ho.
Qed.

Lemma holds_alloc U h o l c : holds U h (mkHolding o l) → 0 ≤ c ≤ 2 ^ 63 →
  wp (hp_op (pa_alloc c)) (λ r h', holds U h' (mkHolding o (hold r c l))) h.
Proof.
  intros (F & B & L & bs & lk & Hm & Ho & Hb & HB) Hc. eapply wp_mono; [by apply (mem_alloc U)|].
  intros r h' [[[-> ->]|(p & k & -> & Hf & HF & Hm')] _]; [by exists F, B, L, bs, lk|].
  unfold hold. destruct (Z.eqb_spec (p * PAGE_SIZE) 0) as [E|E].
  - exists (F ∖ page_set [(p, k)]), ((p, k) :: B), L, bs, ((p, k) :: lk). split_and!; [done..|]. by rewrite HB, Permutation_middle.
  - exists (F ∖ page_set [(p, k)]), ((p, k) :: B), L, ((p, k) :: bs), lk. split_and!; [done|done| |by rewrite HB].
    constructor; [|done]. split_and!; simpl; [done|intros ->; by apply E|done].
Qed.

Lemma holds_free U h o l l' a c : holds U h (mkHolding o l) → l ≡ₚ (a, c) :: l' →
  wp (hp_op (pa_free a c)) (λ _ h', holds U h' (mkHolding o l')) h.
Proof.
  intros (F & B & L & bs & lk & Hm & Ho & Hb & HB) Hperm. destruct (Permutation_Forall2 Hperm Hb) as (bs' & Hp & HF).
  apply Forall2_cons_inv_l in HF as ([p k] & bs2 & (E & Hp0 & Hfit) & HF & ->). simpl in *. subst a.
  assert (HB2 : B ≡ₚ (p, k) :: (bs2 ++ lk)) by by rewrite HB, Hp.
  eapply wp_mono; [apply (mem_free U h F (bs2 ++ lk) L p k); [by eapply mem_inv_perm|done]|].
  intros [] h' [Hm' _]. by exists (F ∪ page_set [(p, k)]), (bs2 ++ lk), L, bs2, lk.
Qed.

Lemma holds_call U h c held : holds U h held → (∀ r, ∃ held', allowed r c held held') →
  wp (mem_do c) (λ r h', ∀ held', allowed r c held held' → holds U h' held') h.
Proof.
  intros Hh Hc. destruct (Hc 0) as [held' Ha]. destruct Ha as [n o l Hn|p o l Hp|k o l Hk|a k o l l' Hl]; cbn [mem_do].
  - eapply wp_mono; [by apply (holds_kmalloc U)|]. intros r h' Hh' held' Ha. by inversion Ha; subst.
  - apply wp_bind. eapply wp_mono; [by apply (holds_kfree U _ o l p)|]. intros [] h' Hh'. apply wp_ret. intros held' Ha. by inversion Ha; subst.
  - eapply wp_mono; [by apply (holds_alloc U)|]. intros r h' Hh' held' Ha. by inversion Ha; subst.
  - destruct (proj1 (wp_ok _ _ _) (holds_free U h o l l' a k Hh Hl)) as ([] & h' & E & _).
    apply (wp_eq _ _ _ 0 h'); [by rewrite (bind_ok _ _ _ _ _ E)|].
    intros held' Ha. inversion Ha as [| | |? ? ? ? l2 Hl2]; subst. exact (wp_result _ _ _ _ _ (holds_free U h o l l2 a k Hh Hl2) E).
Qed.

Lemma allowed_any r c held held' : allowed r c held held' → ∀ r', ∃ held'', allowed r' c held held''.
Proof. intros [] r'; eexists; by constructor. Qed.

Definition client_ok (U : arena) (c : mem_config) : Prop := match c with MRunning h held => holds U h held | MStuck => False end.

Lemma client_ok_step U c c' : client_ok U c → mem_step c c' → client_ok U c'.
Proof.
  intros Hc Hs. destruct Hs as [h h' c r held held' Ha E|h c held Ha E].
  - exact (wp_result _ _ _ _ _ (holds_call U h c held Hc (allowed_any _ _ _ _ Ha)) E held' Ha).
  - destruct (proj1 (wp_ok _ _ _) (holds_call U h c held Hc Ha)) as (r & h' & E' & _). by eapply E.
Qed.

Lemma client_ok_reachable U c c' : client_ok U c → rtc mem_step c c' → client_ok U c'.
Proof. intros Hc. induction 1; eauto using client_ok_step. Qed.

(** What a client holds does not overlap: objects, pages, and one with the other. *)
Definition holding_apart (usable : Z → Prop) (hhdm : Z) (held : holding) : Prop :=
  (∀ p n p' n', objs held !! p = Some n → objs held !! p' = Some n' → p ≠ p' → p + n ≤ p' ∨ p' + n' ≤ p) ∧
  NoDup (pgs held ≫= held_pages) ∧ (∀ x, x ∈ pgs held ≫= held_pages → usable x) ∧
  (∀ p n x, objs held !! p = Some n → x ∈ pgs held ≫= held_pages →
     p + n ≤ hhdm + x * PAGE_SIZE ∨ hhdm + x * PAGE_SIZE + PAGE_SIZE ≤ p).

Lemma holds_apart U h held : holds U h held → holding_apart (.∈ ar_pages U) (pa_hhdm (hp_pages h)) held.
Proof.
  intros (F & B & L & bs & lk & Hm & Ho & Hb & HB). pose proof (mem_pages _ _ _ _ _ Hm) as (A & Hi & HU & _).
  destruct (pa_wf _ _ _ Hi) as (HN & _). rewrite pages_app, HB, pages_app in HN. apply NoDup_app in HN as (_ & _ & HN).
  apply NoDup_app in HN as (HN & _). destruct (backs_disjoint _ _ Hb HN) as [Hd Hin]. split_and!; [|done| |].
  - intros p n p' n' Hp Hp' Hne. destruct (Ho _ _ Hp) as (e & He & ?). destruct (Ho _ _ Hp') as (e' & He' & ?).
    destruct (@live_disjoint PA (framed U B) (framed_store U B) h L p e p' e' (mem_inv_heap _ _ _ _ _ Hm) He He' Hne); lia.
  - intros x Hx%Hin. apply HU, elem_of_union. right. apply elem_of_page_set. rewrite pages_app, HB, pages_app. set_solver.
  - intros p n x Hp (b & Hbb & Hxb)%Hin%elem_of_pages. destruct (Ho _ _ Hp) as (e & He & ?).
    destruct (mem_object_apart U h F B L p e b Hm He ltac:(rewrite HB; set_solver)); unfold PAGE_SIZE in *; lia.
Qed.
End shared.

(** ** Properties *)

Lemma boot_mem raw entries hhdm e : memmap_ok entries → 0 ≤ hhdm < 2 ^ 64 → hhdm + highest_addr entries ≤ 2 ^ 64 →
  find_metadata entries (phys_to_pfn (highest_addr entries) * sizeof_PageFrame) = Some e → (∀ i, raw i = 0) →
  wp (pmm_init raw entries hhdm) (λ _ s, ∃ U, mem_inv (mkArena U hhdm) (heap_boot s) U [] ∅ ∧
    (∀ x, x ∈ U ↔ initially_free entries e x) ∧ ∀ x, x ∈ U → x * PAGE_SIZE + PAGE_SIZE ≤ highest_addr entries) pmm_boot.
Proof.
  intros Hm Hh Htop He Hraw. eapply wp_mono; [by eapply boot_view|]. intros [] s (F & Hi & Eh & HF & Htop' & Hc). exists F.
  split_and!; [|done|done]. exists [], (λ _, []), [], (λ _, None).
  apply (@heap_boot_data pmm (framed (mkArena F hhdm) []) (framed_store (mkArena F hhdm) []) s F []); [|cbn; cbn in Eh; lia|exact Hc].
  split_and!; [done|by intros x Hx%elem_of_nil| |done]. set_solver.
Qed.


(** An object, a block of four pages, another object, on the small machine. *)
Definition mixed_1 : heap pmm := final_state (mem_do (Kmalloc 100)) (heap_boot small_pmm).
Definition mixed_2 : heap pmm := final_state (mem_do (AllocPages 4)) mixed_1.
Definition mixed_3 : heap pmm := final_state (mem_do (Kmalloc 2000)) mixed_2.

