(* ===== verification/Vfs.v ===== *)
(** * Virtual file system

    Model of src/kernel/vfs.cpp and include/vortex/kernel/vfs.hpp.  A node
    pointer is the address [kmalloc] returned; [v_nodes] and [v_mounts] are the
    objects at those addresses.  A C string is the [string] before its
    terminator, so a read at its end yields the terminator.  [VfsOps] tables
    are the constructors of [VfsOps].  A walk of a linked list carries the
    number of objects as fuel: a longer walk is cyclic and never ends.  File
    data lives in [v_mem], byte by byte; an access outside the page a file owns
    is undefined.  A buffer is the list of its bytes. *)

From Stdlib Require Import Ascii.
From S2P Require Import Prelude Pmm PmmBlocks PageAlloc KernelHeap.
Open Scope Z_scope.

(** ** Strings *)

Definition char_code (c : ascii) : Z := Z.of_N (Ascii.N_of_ascii c).

Fixpoint str_len (s : string) : nat :=
  match s with
  | EmptyString => 0
  | String _ s => S (str_len s)
  end.

Fixpoint str_cmp (a b : string) : Z :=
  match a, b with
  | EmptyString, EmptyString => 0
  | EmptyString, String d _ => - char_code d
  | String c _, EmptyString => char_code c
  | String c a, String d b => if Ascii.eqb c d then str_cmp a b else char_code c - char_code d
  end.

(** What [dst] holds: at most [n] characters, with [n = max_len - 1]. *)
Fixpoint str_cpy (n : nat) (src : string) : string :=
  match n, src with
  | S n, String c src => String c (str_cpy n src)
  | _, _ => EmptyString
  end.

(** ** Data *)

Inductive NodeType := FILE | DIRECTORY | CHAR_DEVICE | BLOCK_DEVICE | PIPE | SOCKET.

(** The operation tables. *)
Inductive VfsOps := kTmpDirOps | kTmpFileOps | kDevDirOps | kDevNullOps | kDevZeroOps | kDevConsoleOps | kDevRtcOps.

#[export] Instance NodeType_eq_dec : EqDecision NodeType.
Proof. solve_decision. Defined.
#[export] Instance VfsOps_eq_dec : EqDecision VfsOps.
Proof. solve_decision. Defined.

Record VfsNode := mkNode {
  n_name : string;
  n_type : NodeType;
  n_size : Z;
  n_uid : Z;
  n_gid : Z;
  n_permissions : Z;
  n_ops : option VfsOps;
  n_private_data : option Z;
  n_parent : option Z;
  n_children : option Z;
  n_next_sibling : option Z
}.

Definition NAME_SIZE : nat := 256.
Definition sizeof_VfsNode : Z := 328.
Definition sizeof_MountEntry : Z := 24.

Definition set_n_size (v : Z) (n : VfsNode) : VfsNode :=
  mkNode (n_name n) (n_type n) v (n_uid n) (n_gid n) (n_permissions n) (n_ops n) (n_private_data n) (n_parent n)
    (n_children n) (n_next_sibling n).
Definition set_n_permissions (v : Z) (n : VfsNode) : VfsNode :=
  mkNode (n_name n) (n_type n) (n_size n) (n_uid n) (n_gid n) v (n_ops n) (n_private_data n) (n_parent n)
    (n_children n) (n_next_sibling n).
Definition set_n_ops (v : option VfsOps) (n : VfsNode) : VfsNode :=
  mkNode (n_name n) (n_type n) (n_size n) (n_uid n) (n_gid n) (n_permissions n) v (n_private_data n) (n_parent n)
    (n_children n) (n_next_sibling n).
Definition set_n_private_data (v : option Z) (n : VfsNode) : VfsNode :=
  mkNode (n_name n) (n_type n) (n_size n) (n_uid n) (n_gid n) (n_permissions n) (n_ops n) v (n_parent n)
    (n_children n) (n_next_sibling n).
Definition set_n_parent (v : option Z) (n : VfsNode) : VfsNode :=
  mkNode (n_name n) (n_type n) (n_size n) (n_uid n) (n_gid n) (n_permissions n) (n_ops n) (n_private_data n) v
    (n_children n) (n_next_sibling n).
Definition set_n_children (v : option Z) (n : VfsNode) : VfsNode :=
  mkNode (n_name n) (n_type n) (n_size n) (n_uid n) (n_gid n) (n_permissions n) (n_ops n) (n_private_data n)
    (n_parent n) v (n_next_sibling n).
Definition set_n_next_sibling (v : option Z) (n : VfsNode) : VfsNode :=
  mkNode (n_name n) (n_type n) (n_size n) (n_uid n) (n_gid n) (n_permissions n) (n_ops n) (n_private_data n)
    (n_parent n) (n_children n) v.

Record MountEntry := mkMount { mount_point : Z; mounted_root : Z; mount_next : option Z }.

Record vfs (H PA : Type) := mkVfs {
  v_heap : H;
  v_pages : PA;
  v_nodes : gmap Z VfsNode;
  v_mounts : gmap Z MountEntry;
  kMountList : option Z;
  kRootNode : option Z;
  v_mem : Z → Z;
  v_serial : list Z
}.
Arguments mkVfs {H PA}.
Arguments v_heap {H PA} _.
Arguments v_pages {H PA} _.
Arguments v_nodes {H PA} _.
Arguments v_mounts {H PA} _.
Arguments kMountList {H PA} _.
Arguments kRootNode {H PA} _.
Arguments v_mem {H PA} _.
Arguments v_serial {H PA} _.

Definition set_v_heap {H PA} (x : H) (s : vfs H PA) : vfs H PA :=
  mkVfs x (v_pages s) (v_nodes s) (v_mounts s) (kMountList s) (kRootNode s) (v_mem s) (v_serial s).
Definition set_v_pages {H PA} (x : PA) (s : vfs H PA) : vfs H PA :=
  mkVfs (v_heap s) x (v_nodes s) (v_mounts s) (kMountList s) (kRootNode s) (v_mem s) (v_serial s).
Definition set_v_nodes {H PA} (x : gmap Z VfsNode) (s : vfs H PA) : vfs H PA :=
  mkVfs (v_heap s) (v_pages s) x (v_mounts s) (kMountList s) (kRootNode s) (v_mem s) (v_serial s).
Definition set_mount_list {H PA} (x : gmap Z MountEntry) (l : option Z) (s : vfs H PA) : vfs H PA :=
  mkVfs (v_heap s) (v_pages s) (v_nodes s) x l (kRootNode s) (v_mem s) (v_serial s).
Definition set_kRootNode {H PA} (x : option Z) (s : vfs H PA) : vfs H PA :=
  mkVfs (v_heap s) (v_pages s) (v_nodes s) (v_mounts s) (kMountList s) x (v_mem s) (v_serial s).
Definition set_v_mem {H PA} (x : Z → Z) (s : vfs H PA) : vfs H PA :=
  mkVfs (v_heap s) (v_pages s) (v_nodes s) (v_mounts s) (kMountList s) (kRootNode s) x (v_serial s).
Definition set_v_serial {H PA} (x : list Z) (s : vfs H PA) : vfs H PA :=
  mkVfs (v_heap s) (v_pages s) (v_nodes s) (v_mounts s) (kMountList s) (kRootNode s) (v_mem s) x.

Section vfs.
Context {H PA : Type} `{!KernelHeap H} `{!PageAllocator PA}.
Abbreviation V := (M (vfs H PA)).

(** ** Accessors *)

Definition read_node (n : Z) : V VfsNode := s ← get; deref (v_nodes s !! n).
Definition write_node (n : Z) (g : VfsNode → VfsNode) : V () :=
  x ← read_node n; modify (λ s, set_v_nodes (<[n := g x]> (v_nodes s)) s).
Definition read_mount (e : Z) : V MountEntry := s ← get; deref (v_mounts s !! e).

Definition heap_op {A} (op : M H A) : V A := λ s,
  match op (v_heap s) with
  | Ok (a, h) => Ok (a, set_v_heap h s)
  | Panic msg => Panic msg
  | UB => UB
  end.
Definition page_op {A} (op : M PA A) : V A := λ s,
  match op (v_pages s) with
  | Ok (a, pa) => Ok (a, set_v_pages pa s)
  | Panic msg => Panic msg
  | UB => UB
  end.

(** Byte [i] of the page at [base]. *)
Definition load_byte (base i : Z) : V Z :=
  if (0 <=? i) && (i <? PAGE_SIZE) then gets (λ s, v_mem s (base + i)) else undefined.
Definition store_byte (base i v : Z) : V () :=
  if (0 <=? i) && (i <? PAGE_SIZE) then modify (λ s, set_v_mem (<[base + i := v]> (v_mem s)) s) else undefined.

(** ** Nodes *)

Definition create_node (name : string) (type : NodeType) : V (option Z) :=
  p ← heap_op (kmalloc sizeof_VfsNode);
  if p =? 0 then mret None
  else
    modify (λ s, set_v_nodes (<[p := mkNode (str_cpy (NAME_SIZE - 1) name) type 0 0 0 0x1ed None None None None None]>
      (v_nodes s)) s);;
    mret (Some p).

Definition dir_add_child (parent child : Z) : V () :=
  write_node child (set_n_parent (Some parent));;
  p ← read_node parent;
  write_node child (set_n_next_sibling (n_children p));;
  write_node parent (set_n_children (Some child)).

(** ** tmpfs files *)

(** [for (i = 0; i < to_read; ++i) dst[i] = src[i]]: the bytes at [offset]. *)
Fixpoint load_bytes (base offset : Z) (n : nat) : V (list Z) :=
  match n with
  | O => mret []
  | S n => b ← load_byte base offset; bs ← load_bytes base (offset + 1) n; mret (b :: bs)
  end.

Fixpoint store_bytes (base offset : Z) (bs : list Z) : V () :=
  match bs with
  | [] => mret ()
  | b :: bs => store_byte base offset b;; store_bytes base (offset + 1) bs
  end.

(** A null node or buffer gives 0.  The destination [buffer] is [None] when null, else its capacity; the result
    is the count and the bytes stored from its start. *)
Definition tmpfs_file_read (node : option Z) (offset size : Z) (buffer : option nat) : V (Z * list Z) :=
  match node, buffer with
  | Some node, Some capacity =>
    n ← read_node node;
    if n_size n <=? offset then mret (0, [])
    else
      let available := n_size n - offset in
      let to_read := if size <? available then size else available in
      if Z.of_nat capacity <? to_read then undefined
      else
        base ← deref (n_private_data n);
        bs ← load_bytes base offset (Z.to_nat to_read);
        mret (to_read, bs)
  | _, _ => mret (0, [])
  end.

(** The page that holds the data, allocated on the first write. *)
Definition file_page (node : Z) : V (option Z) :=
  n ← read_node node;
  match n_private_data n with
  | Some base => mret (Some base)
  | None =>
    hhdm ← gets (λ s, pa_hhdm (v_pages s));
    page ← page_op (pa_alloc 1);
    if page =? 0 then mret None
    else
      write_node node (set_n_private_data (Some (page +64 hhdm)));;
      mret (Some (page +64 hhdm))
  end.

(** The rest of a write, once the page is known. *)
Definition file_put (node base offset size : Z) (bytes : list Z) : V Z :=
  let end0 := offset +64 size in
  let end_ := if PAGE_SIZE <? end0 then PAGE_SIZE else end0 in
  let size := if PAGE_SIZE <? end0 then (if offset <? PAGE_SIZE then PAGE_SIZE - offset else 0) else size in
  n ← read_node node;
  when (n_size n <? offset)
    (store_bytes base (n_size n) (replicate (Z.to_nat (offset - n_size n)) 0));;
  (if Z.of_nat (length bytes) <? size then undefined
   else store_bytes base offset (take (Z.to_nat size) bytes));;
  when (n_size n <? end_) (write_node node (set_n_size end_));;
  mret size.

Definition tmpfs_file_write (node : option Z) (offset size : Z) (buffer : option (list Z)) : V Z :=
  match node, buffer with
  | Some node, Some bytes =>
    base ← file_page node;
    match base with
    | None => mret 0
    | Some base => file_put node base offset size bytes
    end
  | _, _ => mret 0
  end.

(** ** Directories *)

Definition node_fuel (s : vfs H PA) : nat := size (v_nodes s).

(** [while (child) { if (str_cmp(child->name, name) == 0) ... }] *)
Fixpoint find_child (fuel : nat) (child : option Z) (name : string) : V (option Z) :=
  match child with
  | None => mret None
  | Some c =>
    match fuel with
    | O => undefined
    | S fuel =>
      n ← read_node c;
      if str_cmp (n_name n) name =? 0 then mret (Some c)
      else find_child fuel (n_next_sibling n) name
    end
  end.

(** [tmpfs_dir_open] and [devfs_dir_open] have the same text. *)
Definition dir_open (node : Z) (name : string) : V (option Z) :=
  n ← read_node node;
  if str_cmp name "." =? 0 then mret (Some node)
  else if str_cmp name ".." =? 0 then
    mret (Some (match n_parent n with Some p => p | None => node end))
  else
    fuel ← gets node_fuel;
    find_child fuel (n_children n) name.
Definition tmpfs_dir_open := dir_open.
Definition devfs_dir_open := dir_open.

(** ** Device files *)

Definition dev_null_read (size : Z) (buffer : option nat) : V (Z * list Z) := mret (0, []).
Definition dev_null_write (size : Z) (buffer : option (list Z)) : V Z := mret size.

Definition dev_zero_read (size : Z) (buffer : option nat) : V (Z * list Z) :=
  match buffer with
  | None => mret (0, [])
  | Some capacity =>
    if Z.of_nat capacity <? size then undefined
    else mret (size, replicate (Z.to_nat size) 0)
  end.
Definition dev_zero_write (size : Z) (buffer : option (list Z)) : V Z := mret size.

Definition dev_console_read (size : Z) (buffer : option nat) : V (Z * list Z) := mret (0, []).

(** [serial_write] sends bytes up to the terminator; without one it runs off
    the end of the buffer. *)
Fixpoint c_string (bytes : list Z) : option (list Z) :=
  match bytes with
  | [] => None
  | b :: bytes => if b =? 0 then Some [] else (b ::.) <$> c_string bytes
  end.

Definition dev_console_write (size : Z) (buffer : option (list Z)) : V Z :=
  match buffer with
  | None => mret 0
  | Some bytes =>
    if size =? 0 then mret 0
    else
      str ← deref (c_string bytes);
      modify (λ s, set_v_serial (v_serial s ++ str) s);;
      mret size
  end.

(** [RtcTime] in memory: year 2026 (little endian), month, day, hour, minute,
    second, padding. *)
Definition rtc_bytes : list Z := [234; 7; 6; 11; 12; 0; 0; 0].

Definition dev_rtc_read (offset size : Z) (buffer : option nat) : V (Z * list Z) :=
  match buffer with
  | None => mret (0, [])
  | Some capacity =>
    if 0 <? offset then mret (0, [])
    else
      let copy_size := if size <? 8 then size else 8 in
      if Z.of_nat capacity <? copy_size then undefined
      else mret (copy_size, take (Z.to_nat copy_size) rtc_bytes)
  end.
Definition dev_rtc_write (size : Z) (buffer : option (list Z)) : V Z := mret size.

(** ** The operation tables: [None] is a null member. *)

Definition ops_open (ops : VfsOps) : option (Z → string → V (option Z)) :=
  match ops with
  | kTmpDirOps => Some tmpfs_dir_open
  | kDevDirOps => Some devfs_dir_open
  | _ => None
  end.

Definition ops_read (ops : VfsOps) : option (option Z → Z → Z → option nat → V (Z * list Z)) :=
  match ops with
  | kTmpFileOps => Some tmpfs_file_read
  | kDevNullOps => Some (λ _ _ size buffer, dev_null_read size buffer)
  | kDevZeroOps => Some (λ _ _ size buffer, dev_zero_read size buffer)
  | kDevConsoleOps => Some (λ _ _ size buffer, dev_console_read size buffer)
  | kDevRtcOps => Some (λ _ offset size buffer, dev_rtc_read offset size buffer)
  | kTmpDirOps | kDevDirOps => None
  end.

Definition ops_write (ops : VfsOps) : option (option Z → Z → Z → option (list Z) → V Z) :=
  match ops with
  | kTmpFileOps => Some tmpfs_file_write
  | kDevNullOps => Some (λ _ _ size buffer, dev_null_write size buffer)
  | kDevZeroOps => Some (λ _ _ size buffer, dev_zero_write size buffer)
  | kDevConsoleOps => Some (λ _ _ size buffer, dev_console_write size buffer)
  | kDevRtcOps => Some (λ _ _ size buffer, dev_rtc_write size buffer)
  | kTmpDirOps | kDevDirOps => None
  end.

Definition tmpfs_node_close (node : Z) : V () := mret ().
Definition devfs_node_close (node : Z) : V () := mret ().

Definition ops_close (ops : VfsOps) : Z → V () :=
  match ops with
  | kTmpDirOps | kTmpFileOps => tmpfs_node_close
  | _ => devfs_node_close
  end.

(** ** Mounts *)

Definition mount_add (point root : Z) : V bool :=
  p ← heap_op (kmalloc sizeof_MountEntry);
  if p =? 0 then mret false
  else
    modify (λ s, set_mount_list (<[p := mkMount point root (kMountList s)]> (v_mounts s)) (Some p) s);;
    write_node root (set_n_parent (Some point));;
    mret true.

Fixpoint mount_search (fuel : nat) (entry : option Z) (node : Z) : V Z :=
  match entry with
  | None => mret node
  | Some e =>
    match fuel with
    | O => undefined
    | S fuel =>
      x ← read_mount e;
      if mount_point x =? node then mret (mounted_root x)
      else mount_search fuel (mount_next x) node
    end
  end.

Definition mount_resolve (node : Z) : V Z :=
  s ← get; mount_search (size (v_mounts s)) (kMountList s) node.

(** ** Path resolution *)

Definition slash : ascii := "/"%char.

Fixpoint skip_slashes (path : string) : string :=
  match path with
  | String c path' => if Ascii.eqb c slash then skip_slashes path' else path
  | EmptyString => EmptyString
  end.

(** The component at the start of [path], at most [n] characters, and the rest. *)
Fixpoint take_component (n : nat) (path : string) : string * string :=
  match n, path with
  | S n, String c path' =>
    if Ascii.eqb c slash then (EmptyString, path)
    else let '(component, rest) := take_component n path' in (String c component, rest)
  | _, _ => (EmptyString, path)
  end.

(** One component applied to [current]; [None] ends the resolution with null. *)
Definition step_component (current : Z) (component : string) : V (option Z) :=
  if str_cmp component "." =? 0 then mret (Some current)
  else if str_cmp component ".." =? 0 then
    n ← read_node current;
    mret (Some (match n_parent n with Some p => p | None => current end))
  else
    n ← read_node current;
    match n_ops n ≫= ops_open with
    | None => mret None
    | Some open =>
      next ← open current component;
      match next with
      | None => mret None
      | Some next => r ← mount_resolve next; mret (Some r)
      end
    end.

(** Every round consumes a character, so the length of the path is enough fuel. *)
Fixpoint resolve_loop (fuel : nat) (current : Z) (path : string) : V (option Z) :=
  match skip_slashes path with
  | EmptyString => mret (Some current)
  | path =>
    match fuel with
    | O => undefined
    | S fuel =>
      let '(component, rest) := take_component (NAME_SIZE - 1) path in
      next ← step_component current component;
      match next with
      | None => mret None
      | Some next => resolve_loop fuel next rest
      end
    end
  end.

Definition resolve_path (base : Z) (path : string) : V (option Z) :=
  resolve_loop (str_len path) base path.

(** ** Public interface *)

Definition vfs_root : V (option Z) := gets kRootNode.

Definition vfs_open (path : option string) : V (option Z) :=
  s ← get;
  match path, kRootNode s with
  | Some path, Some root =>
    match path with
    | String c path' => if Ascii.eqb c slash then resolve_path root path' else resolve_path root path
    | EmptyString => resolve_path root path
    end
  | _, _ => mret None
  end.

Fixpoint nth_child (fuel : nat) (child : option Z) (index : Z) : V (option Z) :=
  match child with
  | None => mret None
  | Some c =>
    match fuel with
    | O => undefined
    | S fuel =>
      if index =? 0 then mret (Some c)
      else n ← read_node c; nth_child fuel (n_next_sibling n) (index - 1)
    end
  end.

Definition vfs_readdir (dir : option Z) (index : Z) : V (option Z) :=
  match dir with
  | None => mret None
  | Some dir =>
    n ← read_node dir;
    if decide (n_type n = DIRECTORY) then
      fuel ← gets node_fuel;
      nth_child fuel (n_children n) index
    else mret None
  end.

(** The part of [vfs_mkdir] after the null checks. *)
Definition mkdir_in (parent : Z) (name : string) : V (option Z) :=
  n ← read_node parent;
  if decide (n_type n = DIRECTORY) then
    existing ← (match n_ops n ≫= ops_open with
                | Some open => open parent name
                | None => mret None
                end);
    match existing with
    | Some _ => mret None
    | None =>
      d ← create_node name DIRECTORY;
      match d with
      | None => mret None
      | Some dir =>
        n ← read_node parent;
        write_node dir (set_n_ops (n_ops n));;
        dir_add_child parent dir;;
        mret (Some dir)
      end
    end
  else mret None.

Definition vfs_mkdir (parent : option Z) (name : option string) : V (option Z) :=
  match parent, name with
  | Some parent, Some name => mkdir_in parent name
  | _, _ => mret None
  end.

(** ** Initialisation *)

Definition make_dev (name : string) (ops : VfsOps) (size perms : Z) : V (option Z) :=
  n ← create_node name CHAR_DEVICE;
  match n with
  | None => mret None
  | Some n =>
    write_node n (set_n_ops (Some ops));;
    write_node n (set_n_size size);;
    write_node n (set_n_permissions perms);;
    mret (Some n)
  end.

(** [if (dev) dir_add_child(dev_root, dev)] *)
Definition add_dev (root : Z) (dev : option Z) : V () :=
  match dev with Some d => dir_add_child root d | None => mret () end.

Definition vfs_init : V () :=
  r ← create_node "/" DIRECTORY;
  modify (set_kRootNode r);;
  match r with
  | None => mret ()
  | Some root =>
    write_node root (set_n_ops (Some kTmpDirOps));;
    write_node root (set_n_parent (Some root));;
    d ← create_node "dev" DIRECTORY;
    match d with
    | None => mret ()
    | Some dev_mount_point =>
      write_node dev_mount_point (set_n_ops (Some kTmpDirOps));;
      dir_add_child root dev_mount_point;;
      r2 ← create_node "dev" DIRECTORY;
      match r2 with
      | None => mret ()
      | Some dev_root =>
        write_node dev_root (set_n_ops (Some kDevDirOps));;
        null_dev ← make_dev "null" kDevNullOps 0 0x1b6;
        zero_dev ← make_dev "zero" kDevZeroOps 0 0x1b6;
        console_dev ← make_dev "console" kDevConsoleOps 0 0x1b6;
        rtc_dev ← make_dev "rtc" kDevRtcOps 8 0x1a4;
        add_dev dev_root null_dev;;
        add_dev dev_root zero_dev;;
        add_dev dev_root console_dev;;
        add_dev dev_root rtc_dev;;
        _ ← mount_add dev_mount_point dev_root;
        mret ()
      end
    end
  end.

End vfs.

(** The statics before [vfs_init]. *)
Definition vfs_boot {H PA} (h : H) (pa : PA) (mem : Z → Z) : vfs H PA :=
  mkVfs h pa ∅ ∅ None None mem [].
