(* ===== verification/VfsInv.v ===== *)
(** * The file tree: invariant and path resolution

    [vfs_inv s C ms]: the sibling lists of the directories are the lists [C],
    the mount table is the list [ms], and every pointer leads to a live node.
    Under it path resolution is a walk of the list of path components. *)

From Stdlib Require Import Ascii.
From S2P Require Import Prelude LinkedList Pmm PmmBlocks PageAlloc KernelHeap Vfs.
Open Scope Z_scope.

(** ** Strings *)

Lemma char_code_inj c d : char_code c = char_code d → c = d.
Proof.
  unfold char_code. intros E. apply N2Z.inj in E.
  by rewrite <-(Ascii.ascii_N_embedding c), <-(Ascii.ascii_N_embedding d), E.
Qed.

Lemma char_code_nonneg c : 0 ≤ char_code c.
Proof. unfold char_code. lia. Qed.

(** A C string has no zero byte before its end. *)
Fixpoint c_str (s : string) : Prop :=
  match s with
  | EmptyString => True
  | String c s => char_code c ≠ 0 ∧ c_str s
  end.

Lemma str_cmp_eq a b : c_str a → c_str b → str_cmp a b = 0 ↔ a = b.
Proof.
  revert b; induction a as [|c a IH]; intros [|d b]; simpl; intros Ha Hb.
  - done.
  - split; [|done]. destruct Hb. lia.
  - split; [|done]. destruct Ha. lia.
  - destruct Ha as [Hc Ha], Hb as [Hd Hb]. destruct (Ascii.eqb_spec c d) as [->|Hne].
    + rewrite IH by done. split; [by intros ->|by intros [= ->]].
    + split; [|by intros [= -> _]]. intros E. destruct Hne. apply char_code_inj. lia.
Qed.

Lemma str_cpy_short n s : (str_len s ≤ n)%nat → str_cpy n s = s.
Proof. revert n; induction s as [|c s IH]; intros [|n] Hn; simpl in *; try done; [lia|]. rewrite IH; [done|lia]. Qed.

Lemma c_str_cpy n s : c_str s → c_str (str_cpy n s).
Proof. revert n; induction s as [|c s IH]; intros [|n]; simpl; try done. intros [? ?]. auto. Qed.

(** ** The invariant *)

Section inv.
Context {H PA : Type} `{!KernelHeap H} `{!PageAllocator PA}.
Implicit Types (s : vfs H PA) (C : Z → list Z) (ms : list Z) (n : VfsNode).

Definition sibling s (c : Z) : option Z := v_nodes s !! c ≫= n_next_sibling.
Definition next_mount s (e : Z) : option Z := v_mounts s !! e ≫= mount_next.
Definition live s (p : Z) : Prop := is_Some (v_nodes s !! p).

Record vfs_inv s C ms : Prop := {
  vi_heap : ∃ L, kh_inv (v_heap s) L ∧ (∀ p, live s p → p ∈ L) ∧ (∀ e, is_Some (v_mounts s !! e) → e ∈ L);
  vi_children : ∀ p n, v_nodes s !! p = Some n → chain (sibling s) (n_children n) (C p);
  vi_member : ∀ p c, live s p → c ∈ C p → live s c;
  vi_unique : ∀ p p' c, live s p → live s p' → c ∈ C p → c ∈ C p' → p = p';
  vi_names : ∀ p n, v_nodes s !! p = Some n → c_str (n_name n);
  vi_parent : ∀ p n q, v_nodes s !! p = Some n → n_parent n = Some q → live s q;
  vi_mounts : chain (next_mount s) (kMountList s) ms;
  vi_mount : ∀ e, e ∈ ms → ∃ x, v_mounts s !! e = Some x ∧ live s (mount_point x) ∧ live s (mounted_root x);
  vi_root : ∀ r, kRootNode s = Some r → live s r
}.

Lemma bounded_by_map {A} (m : gmap Z A) (l : list Z) :
  NoDup l → (∀ x, x ∈ l → is_Some (m !! x)) → (length l ≤ size m)%nat.
Proof.
  intros Hn Hl. rewrite <-size_dom, <-(size_list_to_set (C := gset Z) l Hn). apply subseteq_size.
  intros x Hx%elem_of_list_to_set. apply elem_of_dom. auto.
Qed.

Lemma children_nodup s C ms p : vfs_inv s C ms → live s p → NoDup (C p).
Proof. intros Hi [n Hn]. pose proof (vi_children _ _ _ Hi _ _ Hn). by eapply chain_NoDup. Qed.

Lemma children_bound s C ms p : vfs_inv s C ms → live s p → (length (C p) ≤ node_fuel s)%nat.
Proof.
  intros Hi Hp. apply bounded_by_map; [by eapply children_nodup|]. intros c Hc. by eapply vi_member.
Qed.

Lemma mounts_bound s C ms : vfs_inv s C ms → (length ms ≤ size (v_mounts s))%nat.
Proof.
  intros Hi. apply bounded_by_map; [eapply chain_NoDup, Hi|].
  intros e He. destruct (vi_mount _ _ _ Hi e He) as (x & -> & _). eauto.
Qed.

(** ** Symbolic execution *)

Lemma wp_read_node p n (R : _ → vfs H PA → Prop) s : v_nodes s !! p = Some n → R n s → wp (read_node p) R s.
Proof. intros Hn HR. unfold read_node. wp_run. done. Qed.

Lemma wp_write_node p n g (R : _ → vfs H PA → Prop) s :
  v_nodes s !! p = Some n → R () (set_v_nodes (<[p := g n]> (v_nodes s)) s) → wp (write_node p g) R s.
Proof. intros Hn HR. unfold write_node. wp_run. eapply wp_read_node; [done|]. by wp_run. Qed.

Lemma wp_read_mount e x (R : _ → vfs H PA → Prop) s : v_mounts s !! e = Some x → R x s → wp (read_mount e) R s.
Proof. intros Hx HR. unfold read_mount. wp_run. done. Qed.

(** ** Directory lookup *)

(** The first child called [name]. *)
Definition lookup_child s (l : list Z) (name : string) : option Z :=
  snd <$> list_find (λ c, n_name <$> v_nodes s !! c = Some name) l.

Lemma find_child_wp s C ms p l h name fuel (R : option Z → vfs H PA → Prop) :
  vfs_inv s C ms → live s p → c_str name → chain (sibling s) h l → (∀ c, c ∈ l → c ∈ C p) →
  (length l ≤ fuel)%nat → R (lookup_child s l name) s → wp (find_child fuel h name) R s.
Proof.
  intros Hi Hp Hname. revert l h. induction fuel as [|fuel IH]; intros [|c l] h Hc Hl Hf HR;
    [|simpl in Hf; lia| |].
  1,2: apply (lseg_head (sibling s)) in Hc as <-; by apply wp_ret.
  destruct Hc as [-> Hc]. destruct (vi_member _ _ _ Hi p c Hp) as [n Hn]; [apply Hl; set_solver|].
  cbn [find_child]. wp_run. eapply wp_read_node; [done|].
  pose proof (str_cmp_eq _ _ (vi_names _ _ _ Hi _ _ Hn) Hname) as Hcmp.
  unfold lookup_child in HR. cbn [list_find] in HR. rewrite Hn in HR. simpl in HR.
  destruct (Z.eqb_spec (str_cmp (n_name n) name) 0) as [E|E].
  - rewrite decide_True in HR by (f_equal; by apply Hcmp). by apply wp_ret.
  - rewrite decide_False in HR by (intros [= ?]; by apply E, Hcmp).
    eapply (IH l); [by unfold sibling in Hc; rewrite Hn in Hc|set_solver|simpl in Hf; lia|].
    unfold lookup_child. destruct (list_find _ l) as [[i x]|]; done.
Qed.

(** What [open] of a directory returns. *)
Definition abs_open s C (node : Z) (name : string) : option Z :=
  if decide (name = ".") then Some node
  else if decide (name = "..") then Some (default node (v_nodes s !! node ≫= n_parent))
  else lookup_child s (C node) name.

Lemma dot_cmp name d : c_str name → c_str d → (str_cmp name d =? 0) = bool_decide (name = d).
Proof.
  intros Hn Hd. pose proof (str_cmp_eq name d Hn Hd). case_bool_decide as E.
  - apply Z.eqb_eq. tauto.
  - apply Z.eqb_neq. tauto.
Qed.

Lemma c_str_dots : c_str "." ∧ c_str "..".
Proof. by vm_compute. Qed.

Lemma dir_open_wp s C ms node name (R : option Z → vfs H PA → Prop) :
  vfs_inv s C ms → live s node → c_str name → R (abs_open s C node name) s → wp (dir_open node name) R s.
Proof.
  intros Hi [n Hn] Hname HR. unfold dir_open, abs_open in *. wp_run. eapply wp_read_node; [done|].
  rewrite !dot_cmp by (done || apply c_str_dots).
  destruct (decide (name = ".")) as [->|H1]; [by rewrite bool_decide_true by done; apply wp_ret|].
  rewrite bool_decide_false by done.
  destruct (decide (name = "..")) as [->|H2].
  - rewrite bool_decide_true by done. apply wp_ret. rewrite Hn in HR. simpl in HR. by destruct (n_parent n).
  - rewrite bool_decide_false by done. wp_run.
    eapply (find_child_wp s C ms node (C node)); [done|by exists n|done|by eapply vi_children|done| |done].
    eapply children_bound; [done|by exists n].
Qed.

Lemma lookup_child_live s C ms p name c :
  vfs_inv s C ms → live s p → lookup_child s (C p) name = Some c → c ∈ C p ∧ live s c.
Proof.
  intros Hi Hp. unfold lookup_child. intros ([i x] & Hf & ->)%fmap_Some.
  apply list_find_Some in Hf as (Hx%list_elem_of_lookup_2 & _ & _). split; [done|]. by eapply vi_member.
Qed.

(** ** Mounts *)

Definition mount_target s ms (node : Z) : Z :=
  match list_find (λ e, mount_point <$> v_mounts s !! e = Some node) ms with
  | Some (_, e) => default node (mounted_root <$> v_mounts s !! e)
  | None => node
  end.

Lemma mount_search_wp s l h node fuel (R : Z → vfs H PA → Prop) :
  chain (next_mount s) h l → (∀ e, e ∈ l → is_Some (v_mounts s !! e)) → (length l ≤ fuel)%nat →
  R (mount_target s l node) s → wp (mount_search fuel h node) R s.
Proof.
  revert l h. induction fuel as [|fuel IH]; intros [|e l] h Hc Hl Hf HR; [|simpl in Hf; lia| |].
  1,2: apply (lseg_head (next_mount s)) in Hc as <-; by apply wp_ret.
  destruct Hc as [-> Hc]. destruct (Hl e) as [x Hx]; [set_solver|].
  cbn [mount_search]. wp_run. eapply wp_read_mount; [done|].
  unfold mount_target in HR. cbn [list_find] in HR. rewrite Hx in HR. simpl in HR.
  destruct (Z.eqb_spec (mount_point x) node) as [E|E].
  - rewrite decide_True in HR by by rewrite E. apply wp_ret. by rewrite Hx in HR.
  - rewrite decide_False in HR by (intros [= ?]; done).
    eapply (IH l); [by unfold next_mount in Hc; rewrite Hx in Hc|set_solver|simpl in Hf; lia|].
    unfold mount_target. destruct (list_find _ l) as [[i y]|]; done.
Qed.

Lemma mount_resolve_wp s C ms node (R : Z → vfs H PA → Prop) :
  vfs_inv s C ms → R (mount_target s ms node) s → wp (mount_resolve node) R s.
Proof.
  intros Hi HR. unfold mount_resolve. wp_run. apply (mount_search_wp s ms); [apply Hi| |by eapply mounts_bound|done].
  intros e He. destruct (vi_mount _ _ _ Hi e He) as (x & -> & _). eauto.
Qed.

Lemma mount_target_live s C ms node : vfs_inv s C ms → live s node → live s (mount_target s ms node).
Proof.
  intros Hi Hn. unfold mount_target. destruct (list_find _ ms) as [[i e]|] eqn:Ef; [|done].
  apply list_find_Some in Ef as (He%list_elem_of_lookup_2 & _ & _).
  destruct (vi_mount _ _ _ Hi e He) as (x & -> & _ & Hr). done.
Qed.

(** ** Path resolution *)

Definition is_dir_ops (o : option VfsOps) : bool :=
  match o with Some kTmpDirOps | Some kDevDirOps => true | _ => false end.

(** One component of a path, from a live node. *)
Definition abs_step s C ms (cur : Z) (component : string) : option Z :=
  if decide (component = ".") then Some cur
  else if decide (component = "..") then Some (default cur (v_nodes s !! cur ≫= n_parent))
  else if is_dir_ops (v_nodes s !! cur ≫= n_ops) then mount_target s ms <$> lookup_child s (C cur) component
  else None.

Fixpoint abs_walk s C ms (cur : Z) (components : list string) : option Z :=
  match components with
  | [] => Some cur
  | c :: components => abs_step s C ms cur c ≫= λ next, abs_walk s C ms next components
  end.

Lemma abs_step_live s C ms cur component next :
  vfs_inv s C ms → live s cur → abs_step s C ms cur component = Some next → live s next.
Proof.
  intros Hi Hc. unfold abs_step. destruct (decide _); [by intros [= <-]|]. destruct (decide _).
  - intros [= <-]. destruct Hc as [nd Hn]. rewrite Hn. simpl.
    destruct (n_parent nd) as [q|] eqn:Eq; [by eapply vi_parent|by exists nd].
  - destruct (is_dir_ops _); [|done]. intros (c & Hl & ->)%fmap_Some.
    destruct (lookup_child_live _ _ _ _ _ _ Hi Hc Hl) as [_ ?]. by eapply mount_target_live.
Qed.

Lemma step_component_wp s C ms cur component (R : option Z → vfs H PA → Prop) :
  vfs_inv s C ms → live s cur → c_str component → R (abs_step s C ms cur component) s →
  wp (step_component cur component) R s.
Proof.
  intros Hi Hc Hcs HR. pose proof Hc as [n Hn]. unfold step_component, abs_step in *.
  rewrite !dot_cmp by (done || apply c_str_dots).
  destruct (decide (component = ".")) as [->|H1]; [by rewrite bool_decide_true by done; apply wp_ret|].
  rewrite bool_decide_false by done. rewrite Hn in HR. simpl in HR.
  destruct (decide (component = "..")) as [->|H2].
  - rewrite bool_decide_true by done. wp_run. eapply wp_read_node; [done|]. apply wp_ret. by destruct (n_parent n).
  - rewrite bool_decide_false by done. wp_run. eapply wp_read_node; [done|].
    assert (Hopen : n_ops n ≫= ops_open (H := H) (PA := PA) = if is_dir_ops (n_ops n) then Some dir_open else None)
      by (destruct (n_ops n) as [[]|]; done).
    rewrite Hopen. destruct (is_dir_ops (n_ops n)); [|by apply wp_ret]. wp_run.
    eapply dir_open_wp; [done|done|done|]. unfold abs_open. rewrite !decide_False by done.
    destruct (lookup_child s (C cur) component) as [c|]; [|by apply wp_ret].
    wp_run. eapply mount_resolve_wp; [done|]. by wp_run.
Qed.

(** *** Components of a path *)

Fixpoint split_slash (p : string) : list string :=
  match p with
  | EmptyString => [EmptyString]
  | String c p =>
    if Ascii.eqb c slash then EmptyString :: split_slash p
    else match split_slash p with
         | h :: t => String c h :: t
         | [] => [String c EmptyString]
         end
  end.

(** The non-empty pieces between slashes. *)
Definition path_components (p : string) : list string := filter (λ c, c ≠ EmptyString) (split_slash p).

(** Components fit the buffer of [resolve_path]. *)
Definition path_ok (p : string) : Prop :=
  c_str p ∧ Forall (λ c, (str_len c < NAME_SIZE)%nat) (path_components p).

Lemma split_slash_cons p : ∃ h t, split_slash p = h :: t.
Proof. induction p as [|c p (h & t & E)]; simpl; [eauto|]. rewrite E. destruct (Ascii.eqb c slash); eauto. Qed.

Lemma skip_components p : path_components (skip_slashes p) = path_components p.
Proof.
  unfold path_components. induction p as [|c p IH]; [done|]. simpl.
  destruct (Ascii.eqb c slash) eqn:E; [|simpl; by rewrite E]. rewrite IH. by rewrite filter_cons_False by auto.
Qed.

(** Taking a component leaves the other pieces. *)
Lemma take_component_spec (n : nat) p h t :
  split_slash p = h :: t → (str_len h ≤ n)%nat →
  ∃ rest, take_component n p = (h, rest) ∧ (str_len h + str_len rest = str_len p)%nat ∧
    (t = [] ∧ rest = EmptyString ∨ ∃ q, rest = String slash q ∧ split_slash q = t) ∧
    (c_str p → c_str h ∧ c_str rest).
Proof.
  revert n h t. induction p as [|c p IH]; intros n h t Hs Hn; simpl in Hs.
  - injection Hs as <- <-. exists EmptyString. by destruct n; split_and!; try done; left.
  - destruct (Ascii.eqb_spec c slash) as [->|Hc].
    + injection Hs as <- <-. exists (String slash p). destruct n; split_and!; try done; right; eauto.
    + destruct (split_slash_cons p) as (h' & t' & E). rewrite E in Hs. injection Hs as <- <-. simpl in Hn.
      destruct n as [|n]; [lia|]. destruct (IH n h' t' E) as (rest & Ht & Hlen & Hr & Hcs); [lia|].
      exists rest. simpl. destruct (Ascii.eqb_spec c slash); [done|]. rewrite Ht.
      split_and!; [done|lia|done|]. intros [? ?]. destruct Hcs; auto.
Qed.

Lemma skip_slashes_len p : (str_len (skip_slashes p) ≤ str_len p)%nat.
Proof. induction p as [|c p IH]; simpl; [lia|]. destruct (Ascii.eqb c slash); simpl; lia. Qed.

Lemma skip_slashes_c_str p : c_str p → c_str (skip_slashes p).
Proof. induction p as [|c p IH]; simpl; [done|]. intros [? ?]. destruct (Ascii.eqb c slash); simpl; auto. Qed.

Lemma skip_slashes_head p c q : skip_slashes p = String c q → c ≠ slash.
Proof.
  induction p as [|d p IH]; simpl; [done|]. destruct (Ascii.eqb_spec d slash) as [->|]; [done|]. by intros [= -> ->].
Qed.

(** The loop of [resolve_path] is the walk of the components. *)
Lemma resolve_loop_wp s C ms fuel : ∀ cur p (R : option Z → vfs H PA → Prop),
  vfs_inv s C ms → live s cur → path_ok p → (str_len p ≤ fuel)%nat →
  R (abs_walk s C ms cur (path_components p)) s → wp (resolve_loop fuel cur p) R s.
Proof.
  induction fuel as [|fuel IH]; intros cur p R Hi Hc [Hcs Hp] Hf HR.
  { destruct p; [|simpl in Hf; lia]. by apply wp_ret. }
  cbn [resolve_loop]. rewrite <-skip_components in HR, Hp. pose proof (skip_slashes_len p) as Hlen.
  pose proof (skip_slashes_c_str p Hcs) as Hcs'. destruct (skip_slashes p) as [|c q] eqn:Es; [by apply wp_ret|].
  pose proof (skip_slashes_head _ _ _ Es) as Hns. destruct (split_slash_cons (String c q)) as (h & t & Eh).
  assert (Hh : h ≠ EmptyString).
  { simpl in Eh. destruct (Ascii.eqb_spec c slash); [done|]. destruct (split_slash_cons q) as (h' & t' & E').
    rewrite E' in Eh. by injection Eh as <- _. }
  unfold path_components in HR, Hp. rewrite Eh, filter_cons_True in HR, Hp by done.
  apply Forall_cons in Hp as [Hh1 Hp]. unfold NAME_SIZE in Hh1.
  destruct (take_component_spec (NAME_SIZE - 1) _ _ _ Eh) as (rest & -> & Hrl & Hrest & Hcr); [unfold NAME_SIZE; lia|].
  destruct (Hcr Hcs') as [Hch Hcrest].
  assert (Hrp : path_components rest = filter (λ c, c ≠ EmptyString) t).
  { destruct Hrest as [[-> ->]|(q' & -> & <-)]; [done|]. unfold path_components. simpl.
    by rewrite filter_cons_False by auto. }
  assert (Hlt : (0 < str_len h)%nat) by (destruct h; [done|simpl; lia]).
  cbn [abs_walk] in HR. apply wp_bind. eapply step_component_wp; [done|done|done|].
  destruct (abs_step s C ms cur h) as [next|] eqn:En; simpl in HR; [|by apply wp_ret].
  eapply IH; [done|by eapply abs_step_live|split; [done|by rewrite Hrp]|simpl in *; lia|by rewrite Hrp].
Qed.

End inv.
