(* ===== verification/VfsTree.v ===== *)
(** * Operations on the file tree

    Node creation, linking, mounting, [vfs_mkdir] and [vfs_init] preserve the
    invariant; what each does to the lists of children. *)

From Stdlib Require Import Ascii.
From S2P Require Import Prelude LinkedList Pmm PmmBlocks PageAlloc KernelHeap Vfs VfsInv.
Open Scope Z_scope.

Section tree.
Context {H PA : Type} `{!KernelHeap H} `{!PageAllocator PA}.
Implicit Types (s : vfs H PA) (C : Z → list Z) (ms : list Z) (n : VfsNode).

(** Allocation, seen from the file system. *)
Lemma kmalloc_wp s C ms size (R : Z → vfs H PA → Prop) :
  vfs_inv s C ms → 0 < size →
  (∀ h, vfs_inv (set_v_heap h s) C ms → R 0 (set_v_heap h s)) →
  (∀ p h L, vfs_inv (set_v_heap h s) C ms → 0 < p → v_nodes s !! p = None → v_mounts s !! p = None →
     kh_inv h ({[p]} ∪ L) → (∀ q, live s q → q ∈ L) → (∀ e, is_Some (v_mounts s !! e) → e ∈ L) →
     R p (set_v_heap h s)) →
  wp (heap_op (kmalloc size)) R s.
Proof.
  intros Hi Hn H0 H1. destruct (vi_heap _ _ _ Hi) as (L & HL & Hnodes & Hmounts).
  pose proof (kmalloc_spec (v_heap s) L size HL Hn) as Hw. unfold wp, heap_op in *.
  assert (Hinv : ∀ h L', kh_inv h L' → (∀ q, q ∈ L → q ∈ L') → vfs_inv (set_v_heap h s) C ms).
  { intros h L' Hh Hsub. pose proof Hi as []. split; try done. exists L'. split_and!; [done|..]; auto. }
  destruct (kmalloc size (v_heap s)) as [[p h]| |]; [|done..].
  destruct Hw as [[-> Hh]|(Hp & Hfresh & Hh)].
  - apply H0. by eapply Hinv.
  - apply (H1 p h L); try done.
    + eapply Hinv; [exact Hh|]. set_solver.
    + apply eq_None_not_Some. intros Hl. apply Hfresh, Hnodes. done.
    + apply eq_None_not_Some. intros Hl. apply Hfresh, Hmounts. done.
Qed.

(** ** Node creation *)

Definition new_node (name : string) (type : NodeType) : VfsNode :=
  mkNode (str_cpy (NAME_SIZE - 1) name) type 0 0 0 0x1ed None None None None None.

Lemma create_node_wp s C ms name type (R : option Z → vfs H PA → Prop) :
  vfs_inv s C ms → c_str name →
  (∀ h, vfs_inv (set_v_heap h s) C ms → R None (set_v_heap h s)) →
  (∀ p h, v_nodes s !! p = None →
     vfs_inv (set_v_nodes (<[p := new_node name type]> (v_nodes s)) (set_v_heap h s)) (<[p := []]> C) ms →
     R (Some p) (set_v_nodes (<[p := new_node name type]> (v_nodes s)) (set_v_heap h s))) →
  wp (create_node name type) R s.
Proof.
  intros Hi Hname H0 H1. unfold create_node. apply wp_bind.
  eapply kmalloc_wp; [exact Hi|done|intros h Hh; by apply wp_ret, H0|].
  intros p h L Hi' Hp Hfresh Hfm Hh Hln Hlm. destruct (Z.eqb_spec p 0); [lia|].
  apply wp_bind, wp_modify, wp_ret, H1; [done|]. set (s' := set_v_nodes _ _).
  assert (Hlive : ∀ q, live s' q ↔ q = p ∨ live s q).
  { intros q. unfold live, s'. cbn [v_nodes set_v_nodes set_v_heap]. destruct (decide (q = p)) as [->|Hne].
    - rewrite lookup_insert_eq. split; [by left|eauto].
    - rewrite lookup_insert_ne by done. tauto. }
  assert (HC : ∀ q, live s q → (<[p := []]> C) q = C q).
  { intros q Hq. apply fn_lookup_insert_ne. intros <-. destruct Hq. congruence. }
  assert (Hsib : ∀ c, live s c → sibling s' c = sibling s c).
  { intros c [m Hm]. unfold sibling, s'. cbn [v_nodes set_v_nodes set_v_heap]. rewrite lookup_insert_ne; congruence. }
  destruct Hi as [_ Hch Hmem Huniq Hnm Hpar Hms Hmt Hrt]. split.
  - exists ({[p]} ∪ L). split_and!; [done| |].
    + intros q [->|Hq]%Hlive; set_solver.
    + intros e He. apply Hlm in He. set_solver.
  - intros q m. unfold s' at 1. cbn [v_nodes set_v_nodes set_v_heap]. destruct (decide (q = p)) as [->|Hne].
    + rewrite lookup_insert_eq, fn_lookup_insert. by intros [= <-].
    + rewrite lookup_insert_ne by done. intros Hq. rewrite HC by by exists m.
      eapply lseg_ext, Hch, Hq. intros c Hc. apply Hsib. eapply Hmem, Hc. by exists m.
  - intros q c [->|Hq]%Hlive Hc; [rewrite fn_lookup_insert in Hc; by apply not_elem_of_nil in Hc|].
    rewrite HC in Hc by done. apply Hlive. right. by eapply Hmem.
  - intros q q' c [->|Hq]%Hlive [->|Hq']%Hlive; rewrite ?fn_lookup_insert; try (by intros ?%not_elem_of_nil).
    + intros _ ?%not_elem_of_nil. done.
    + rewrite !HC by done. by apply Huniq.
  - intros q m. unfold s'. cbn [v_nodes set_v_nodes set_v_heap]. destruct (decide (q = p)) as [->|Hne].
    + rewrite lookup_insert_eq. intros [= <-]. by apply c_str_cpy.
    + rewrite lookup_insert_ne by done. apply Hnm.
  - intros q m r. unfold s' at 1. cbn [v_nodes set_v_nodes set_v_heap]. destruct (decide (q = p)) as [->|Hne].
    + rewrite lookup_insert_eq. by intros [= <-].
    + rewrite lookup_insert_ne by done. intros Hq Hr. apply Hlive. right. by eapply Hpar.
  - done.
  - intros e He. destruct (Hmt e He) as (x & ? & ? & ?). exists x. split_and!; [done|..]; apply Hlive; auto.
  - intros r Hr. apply Hlive. right. by apply Hrt.
Qed.

(** ** Writes that keep the links *)

Lemma vfs_inv_write s C ms p n g :
  vfs_inv s C ms → v_nodes s !! p = Some n →
  n_name (g n) = n_name n → n_children (g n) = n_children n → n_next_sibling (g n) = n_next_sibling n →
  (∀ q, n_parent (g n) = Some q → live s q) →
  vfs_inv (set_v_nodes (<[p := g n]> (v_nodes s)) s) C ms.
Proof.
  intros Hi Hn Enm Ech Esib Hpg. set (s' := set_v_nodes _ s).
  assert (Hlive : ∀ q, live s' q ↔ live s q).
  { intros q. unfold live, s'. cbn [v_nodes set_v_nodes]. destruct (decide (q = p)) as [->|Hne].
    - rewrite lookup_insert_eq, Hn. done.
    - by rewrite lookup_insert_ne. }
  assert (Hsib : ∀ c, sibling s' c = sibling s c).
  { intros c. unfold sibling, s'. cbn [v_nodes set_v_nodes]. destruct (decide (c = p)) as [->|Hne].
    - by rewrite lookup_insert_eq, Hn.
    - by rewrite lookup_insert_ne. }
  assert (Hview : ∀ q m, v_nodes s' !! q = Some m → ∃ m0, v_nodes s !! q = Some m0 ∧ n_name m = n_name m0 ∧
     n_children m = n_children m0 ∧ ∀ r, n_parent m = Some r → live s r).
  { intros q m. unfold s'. cbn [v_nodes set_v_nodes]. destruct (decide (q = p)) as [->|Hne].
    - rewrite lookup_insert_eq. intros [= <-]. eauto.
    - rewrite lookup_insert_ne by done. intros Hq. exists m. split_and!; try done. intros r. by eapply vi_parent. }
  destruct Hi as [(L & HL & Hln & Hlm) Hch Hmem Huniq Hnm Hpar Hms Hmt Hrt]. split.
  - exists L. split_and!; [done| |done]. intros q Hq%Hlive. auto.
  - intros q m (m0 & Hq & _ & -> & _)%Hview. eapply lseg_ext, Hch, Hq. intros c _. apply Hsib.
  - intros q c Hq%Hlive Hc. apply Hlive. by eapply Hmem.
  - intros q q' c Hq%Hlive Hq'%Hlive. by apply Huniq.
  - intros q m (m0 & Hq & -> & _)%Hview. by eapply Hnm.
  - intros q m r (m0 & _ & _ & _ & Hr)%Hview Hm. apply Hlive. auto.
  - done.
  - intros e He. destruct (Hmt e He) as (x & ? & ? & ?). exists x. split_and!; [done|..]; by apply Hlive.
  - intros r Hr. apply Hlive. by apply Hrt.
Qed.

(** ** Linking a child *)

(** Everything about the nodes but the links of one directory. *)
(** A fresh child in front of the children of [parent]. *)
Definition child_added s parent child np nc : vfs H PA :=
  set_v_nodes (<[parent := set_n_children (Some child) np]>
    (<[child := set_n_next_sibling (n_children np) (set_n_parent (Some parent) nc)]> (v_nodes s))) s.

Lemma child_added_lookup s parent child np nc q :
  v_nodes (child_added s parent child np nc) !! q =
    if decide (q = parent) then Some (set_n_children (Some child) np)
    else if decide (q = child) then Some (set_n_next_sibling (n_children np) (set_n_parent (Some parent) nc))
    else v_nodes s !! q.
Proof.
  unfold child_added. cbn [v_nodes set_v_nodes]. destruct (decide (q = parent)) as [->|]; [by rewrite lookup_insert_eq|].
  rewrite lookup_insert_ne by done. destruct (decide (q = child)) as [->|]; [by rewrite lookup_insert_eq|].
  by rewrite lookup_insert_ne.
Qed.

Lemma child_added_inv s C ms parent child np nc :
  vfs_inv s C ms → v_nodes s !! parent = Some np → v_nodes s !! child = Some nc → parent ≠ child →
  (∀ q, live s q → child ∉ C q) →
  vfs_inv (child_added s parent child np nc) (<[parent := child :: C parent]> C) ms.
Proof.
  intros Hi Hp Hc Hne Hfresh. set (s' := child_added _ _ _ _ _).
  pose proof (child_added_lookup s parent child np nc : ∀ q, v_nodes s' !! q = _) as Hlk.
  assert (Hlive : ∀ q, live s' q ↔ live s q).
  { intros q. unfold live. rewrite Hlk. repeat case_decide; subst; rewrite ?Hp, ?Hc; split; eauto. }
  assert (Hsib : ∀ c, c ≠ child → sibling s' c = sibling s c).
  { intros c Hcne. unfold sibling. rewrite Hlk. destruct (decide (c = parent)) as [->|]; [by rewrite Hp|].
    by rewrite decide_False. }
  assert (Hlp : live s parent) by by exists np.
  destruct Hi as [(L & HL & Hln & Hlm) Hch Hmem Huniq Hnm Hpar Hms Hmt Hrt]. split.
  - exists L. split_and!; [done| |done]. intros q Hq%Hlive. auto.
  - intros q m. rewrite Hlk. destruct (decide (q = parent)) as [->|Hqp].
    + intros [= <-]. rewrite fn_lookup_insert. split; [done|].
      assert (sibling s' child = n_children np) as ->
        by (unfold sibling; rewrite Hlk, decide_False, decide_True by done; done).
      eapply lseg_ext, Hch, Hp. intros c Hcin. apply Hsib. intros ->. by apply (Hfresh parent).
    + rewrite fn_lookup_insert_ne by done. assert (Hold : ∀ m0, v_nodes s !! q = Some m0 →
        chain (sibling s') (n_children m0) (C q)).
      { intros m0 Hm0. eapply lseg_ext, Hch, Hm0. intros c Hcin. apply Hsib. intros ->. apply (Hfresh q); [by exists m0|done]. }
      destruct (decide (q = child)) as [->|]; [intros [= <-]; by apply (Hold nc)|apply Hold].
  - intros q c Hq%Hlive Hcin. apply Hlive. destruct (decide (q = parent)) as [->|].
    + rewrite fn_lookup_insert in Hcin. apply elem_of_cons in Hcin as [->|]; [by exists nc|by eapply Hmem].
    + rewrite fn_lookup_insert_ne in Hcin by done. by eapply Hmem.
  - intros q q' c Hq%Hlive Hq'%Hlive. destruct (decide (q = parent)) as [->|Hqp], (decide (q' = parent)) as [->|Hqp']; [done|..];
      rewrite ?fn_lookup_insert, ?fn_lookup_insert_ne by done.
    + intros [->|H1]%elem_of_cons H2; [by destruct (Hfresh q' Hq')|by eapply Huniq].
    + intros H1 [->|H2]%elem_of_cons; [by destruct (Hfresh q Hq)|by eapply Huniq].
    + by apply Huniq.
  - intros q m. rewrite Hlk. repeat case_decide; [intros [= <-]; by apply (Hnm parent np)|intros [= <-]; by apply (Hnm child nc)|apply Hnm].
  - intros q m r. rewrite Hlk. repeat case_decide; intros Hq Hr; apply Hlive.
    + injection Hq as <-. by apply (Hpar parent np).
    + injection Hq as <-. injection Hr as <-. done.
    + by eapply Hpar.
  - done.
  - intros e He. destruct (Hmt e He) as (x & ? & ? & ?). exists x. split_and!; [done|..]; by apply Hlive.
  - intros r Hr. apply Hlive. by apply Hrt.
Qed.

Lemma dir_add_child_wp s C ms parent child np nc (R : () → vfs H PA → Prop) :
  vfs_inv s C ms → v_nodes s !! parent = Some np → v_nodes s !! child = Some nc → parent ≠ child →
  (∀ q, live s q → child ∉ C q) →
  (∀ s', s' = set_v_nodes (<[parent := set_n_children (Some child) np]>
                  (<[child := set_n_next_sibling (n_children np) (set_n_parent (Some parent) nc)]> (v_nodes s))) s →
     vfs_inv s' (<[parent := child :: C parent]> C) ms → R () s') →
  wp (dir_add_child parent child) R s.
Proof.
  intros Hi Hp Hc Hne Hfresh HR. unfold dir_add_child.
  apply wp_bind. eapply wp_write_node; [exact Hc|]. apply wp_bind.
  eapply wp_read_node; [cbn [v_nodes set_v_nodes]; rewrite lookup_insert_ne by done; exact Hp|].
  apply wp_bind. eapply wp_write_node; [apply lookup_insert_eq|].
  eapply wp_write_node; [cbn [v_nodes set_v_nodes]; rewrite !lookup_insert_ne by done; exact Hp|].
  cbn [v_nodes set_v_nodes]. rewrite insert_insert_eq. apply HR; [done|].
  by apply (child_added_inv s).
Qed.

(** ** Mounting *)

Lemma vfs_inv_mount s C ms h L p x :
  vfs_inv (set_v_heap h s) C ms → v_mounts s !! p = None → kh_inv h ({[p]} ∪ L) →
  (∀ q, live s q → q ∈ L) → (∀ e, is_Some (v_mounts s !! e) → e ∈ L) →
  live s (mount_point x) → live s (mounted_root x) → mount_next x = kMountList s →
  vfs_inv (set_mount_list (<[p := x]> (v_mounts s)) (Some p) (set_v_heap h s)) C (p :: ms).
Proof.
  intros [_ Hch Hmem Huniq Hnm Hpar Hms Hmt Hrt] Hp Hh Hln Hlm Hpt Hrt' Hnx. split; try done.
  - exists ({[p]} ∪ L). split_and!; [done|intros q Hq; apply Hln in Hq; set_solver|].
    intros e. cbn [v_mounts set_mount_list set_v_heap]. destruct (decide (e = p)) as [->|Hne]; [set_solver|].
    rewrite lookup_insert_ne by done. intros He%Hlm. set_solver.
  - split; [done|].
    assert (∀ e, next_mount (set_mount_list (<[p := x]> (v_mounts s)) (Some p) (set_v_heap h s)) e =
      if decide (e = p) then kMountList s else next_mount s e) as Hnm'.
    { intros e. unfold next_mount. cbn [v_mounts set_mount_list set_v_heap]. case_decide as Ee.
      - subst. by rewrite lookup_insert_eq.
      - by rewrite lookup_insert_ne. }
    rewrite Hnm', decide_True by done. eapply lseg_ext; [|exact Hms]. intros e He. rewrite Hnm', decide_False; [done|].
    intros ->. destruct (Hmt p He) as (y & Hy & _). cbn in Hy. congruence.
  - intros e. cbn [v_mounts set_mount_list set_v_heap]. intros [->|He]%elem_of_cons.
    + exists x. by rewrite lookup_insert_eq.
    + destruct (Hmt e He) as (y & Hy & ? & ?). exists y. cbn in Hy. rewrite lookup_insert_ne by congruence. done.
Qed.

Lemma mount_add_wp s C ms point root (R : bool → vfs H PA → Prop) :
  vfs_inv s C ms → live s point → live s root →
  (∀ s', vfs_inv s' C ms → R false s') →
  (∀ s' e, vfs_inv s' C (e :: ms) → v_mounts s' !! e = Some (mkMount point root (kMountList s)) →
     R true s') →
  wp (mount_add point root) R s.
Proof.
  intros Hi Hp [nr Hr] H0 H1. unfold mount_add. apply wp_bind.
  eapply kmalloc_wp; [exact Hi|done|intros h Hh; apply wp_ret; by apply H0|].
  intros e h L Hi' He Hfn Hfm Hh Hln Hlm. destruct (Z.eqb_spec e 0); [lia|]. apply wp_bind, wp_modify.
  cbn [v_mounts kMountList set_v_heap]. apply wp_bind. eapply wp_write_node; [exact Hr|]. apply wp_ret, (H1 _ e).
  - apply vfs_inv_write with (g := set_n_parent (Some point)); try done.
    + apply (vfs_inv_mount s C ms h L); try done. by exists nr.
    + cbn. intros q [= <-]. exact Hp.
  - cbn. by rewrite lookup_insert_eq.
Qed.

(** ** Making a directory *)

(** The directory [vfs_mkdir] creates in [parent], whose node is [np]. *)
Definition made_dir (parent : Z) (np : VfsNode) (name : string) : VfsNode :=
  mkNode (str_cpy (NAME_SIZE - 1) name) DIRECTORY 0 0 0 0x1ed (n_ops np) None (Some parent) None (n_children np).

Definition mkdir_nodes s (parent : Z) (np : VfsNode) (d : Z) (name : string) : gmap Z VfsNode :=
  <[parent := set_n_children (Some d) np]> (<[d := made_dir parent np name]> (v_nodes s)).

(** Is there already an entry [name] in the directory? *)
Definition taken s C (parent : Z) (np : VfsNode) (name : string) : bool :=
  is_dir_ops (n_ops np) && bool_decide (is_Some (abs_open s C parent name)).

Lemma mkdir_existing_wp s C ms parent np name (R : option Z → vfs H PA → Prop) :
  vfs_inv s C ms → v_nodes s !! parent = Some np → c_str name →
  R (if is_dir_ops (n_ops np) then abs_open s C parent name else None) s →
  wp (match n_ops np ≫= ops_open with Some open => open parent name | None => mret None end) R s.
Proof.
  intros Hi Hp Hname HR. assert (Hlp : live s parent) by by exists np.
  destruct (n_ops np) as [[]|]; simpl in *; try by apply wp_ret.
  all: by eapply dir_open_wp.
Qed.

Lemma mkdir_in_wp s C ms parent np name (R : option Z → vfs H PA → Prop) :
  vfs_inv s C ms → v_nodes s !! parent = Some np → c_str name →
  (n_type np ≠ DIRECTORY ∨ taken s C parent np name = true → R None s) →
  (n_type np = DIRECTORY → taken s C parent np name = false →
     (∀ h, vfs_inv (set_v_heap h s) C ms → R None (set_v_heap h s)) ∧
     (∀ d h, v_nodes s !! d = None →
        vfs_inv (set_v_nodes (mkdir_nodes s parent np d name) (set_v_heap h s))
          (<[parent := d :: C parent]> (<[d := []]> C)) ms →
        R (Some d) (set_v_nodes (mkdir_nodes s parent np d name) (set_v_heap h s)))) →
  wp (mkdir_in parent name) R s.
Proof.
  intros Hi Hp Hname H0 H1. unfold mkdir_in. apply wp_bind. eapply wp_read_node; [exact Hp|].
  destruct (decide (n_type np = DIRECTORY)) as [Ht|Ht]; [|apply wp_ret; auto].
  apply wp_bind. eapply mkdir_existing_wp; [done..|]. unfold taken in *.
  set (ex := if is_dir_ops (n_ops np) then _ else None).
  destruct ex as [x|] eqn:Ex; subst ex.
  { apply wp_ret, H0. right. destruct (is_dir_ops (n_ops np)); [|done]. simpl. apply bool_decide_true. rewrite Ex. eauto. }
  destruct H1 as [Hnull Hmade]; [done| |].
  { destruct (is_dir_ops (n_ops np)); [|done]. simpl. apply bool_decide_false. rewrite Ex. apply is_Some_None. }
  apply wp_bind. eapply create_node_wp; [exact Hi|done|intros h Hh; by apply wp_ret, Hnull|].
  intros d h Hd Hi'. assert (Hne : parent ≠ d) by congruence. set (s1 := set_v_nodes _ _) in *.
  assert (Hp1 : v_nodes s1 !! parent = Some np) by (cbn; by rewrite lookup_insert_ne).
  apply wp_bind. eapply wp_read_node; [exact Hp1|]. apply wp_bind.
  eapply wp_write_node; [apply lookup_insert_eq|].
  apply (vfs_inv_write _ _ _ d (new_node name DIRECTORY) (set_n_ops (n_ops np))) in Hi'; try done;
    [|apply lookup_insert_eq].
  apply wp_bind. eapply dir_add_child_wp; [exact Hi'|cbn; rewrite !lookup_insert_ne by done; exact Hp|
    apply lookup_insert_eq|done| |].
  { intros q [m Hm] Hin. destruct (decide (q = d)) as [->|Hq].
    - rewrite fn_lookup_insert in Hin. by apply not_elem_of_nil in Hin.
    - rewrite fn_lookup_insert_ne in Hin by done. cbn in Hm. rewrite !lookup_insert_ne in Hm by done.
      destruct (vi_member _ _ _ Hi q d) as [? ?]; [by exists m|done|]. congruence. }
  intros s' -> Hi2. apply wp_ret. cbn [v_nodes set_v_nodes s1 set_v_heap] in Hi2 |- *.
  rewrite !insert_insert_eq in Hi2 |- *. rewrite fn_lookup_insert_ne in Hi2 by done. exact (Hmade d h Hd Hi2).
Qed.

(** ** Initialisation *)

Definition orphan s C (p : Z) : Prop := live s p ∧ ∀ q, live s q → p ∉ C q.

(** A directory node of the tmpfs that is its own parent. *)
Definition root_node (r : Z) (n : VfsNode) : Prop :=
  n_type n = DIRECTORY ∧ n_ops n = Some kTmpDirOps ∧ n_parent n = Some r.

Lemma live_insert s' (m : gmap Z VfsNode) p x q :
  live (set_v_nodes (<[p := x]> m) s') q ↔ q = p ∨ is_Some (m !! q).
Proof.
  unfold live. cbn [v_nodes set_v_nodes]. destruct (decide (q = p)) as [->|].
  - rewrite lookup_insert_eq. split; [by left|eauto].
  - rewrite lookup_insert_ne by done. split; [by right|by intros [?|?]].
Qed.

(** Between two steps of [vfs_init]: the tree is well formed, the nodes [os]
    hang nowhere yet, the nodes [ls] exist. *)
Definition building (r : Z) (ls os : gset Z) s : Prop :=
  kRootNode s = Some r ∧ (∃ n, v_nodes s !! r = Some n ∧ root_node r n) ∧ (∀ p, p ∈ ls → live s p) ∧
  ∃ C ms, vfs_inv s C ms ∧ ∀ o, o ∈ os → orphan s C o.

Section building.
Variables (r : Z) (ls : gset Z).

Lemma building_create s os name type :
  building r ls os s → c_str name →
  wp (create_node name type) (λ p s', match p with
    | None => building r ls os s'
    | Some p => (p ∉ os) ∧ p ≠ r ∧ building r ls ({[p]} ∪ os) s'
    end) s.
Proof.
  intros (Hr & (n & Hn & Hrn) & Hls & C & ms & Hi & Hos) Hname. eapply create_node_wp; [exact Hi|done| |].
  - intros h Hh. split_and!; [done|by exists n|done|]. by exists C, ms.
  - intros p h Hp Hi'. assert (Hpr : p ≠ r) by congruence. split_and!; [|done|].
    { intros Hin. destruct (Hos p Hin) as [[m Hm] _]. congruence. }
    split_and!; [done|exists n; split; [cbn; by rewrite lookup_insert_ne|done]|
      intros q Hq; apply live_insert; right; by apply Hls|].
    eexists _, ms. split; [exact Hi'|]. intros o Ho. split.
    + apply live_insert. destruct (decide (o = p)); [by left|right]. apply Hos. set_solver.
    + intros q [->|Hq]%live_insert; [rewrite fn_lookup_insert; apply not_elem_of_nil|].
      rewrite fn_lookup_insert_ne by (intros <-; destruct Hq; congruence).
      intros Hin. destruct (decide (o = p)) as [->|Hne].
      * destruct (vi_member _ _ _ Hi q p Hq Hin) as [? ?]. congruence.
      * destruct (Hos o) as [_ Ho']; [set_solver|]. by apply (Ho' q).
Qed.

Lemma building_write s os p n g :
  building r ls os s → v_nodes s !! p = Some n → p ≠ r →
  n_name (g n) = n_name n → n_children (g n) = n_children n → n_next_sibling (g n) = n_next_sibling n →
  n_parent (g n) = n_parent n →
  building r ls os (set_v_nodes (<[p := g n]> (v_nodes s)) s).
Proof.
  intros (Hr & (m & Hm & Hrm) & Hls & C & ms & Hi & Hos) Hn Hpr E1 E2 E3 E4.
  assert (Hl : ∀ q, live (set_v_nodes (<[p := g n]> (v_nodes s)) s) q ↔ live s q).
  { intros q. rewrite live_insert. split; [intros [->|?]; [by exists n|done]|by right]. }
  split_and!; [done|exists m; split; [cbn; by rewrite lookup_insert_ne|done]|intros q Hq; by apply Hl, Hls|].
  exists C, ms. split.
  - apply vfs_inv_write; try done. rewrite E4. intros q. by eapply vi_parent.
  - intros o [Ho Hq]%Hos. split; [by apply Hl|]. intros q Hlq%Hl. auto.
Qed.

Lemma building_add s os p c :
  building r ls os s → c ∈ os → (p = r ∨ p ∈ os) → p ≠ c → c ≠ r →
  wp (dir_add_child p c) (λ _, building r ls (os ∖ {[c]})) s.
Proof.
  intros (Hr & (m & Hm & Hrm) & Hls & C & ms & Hi & Hos) Hc Hp Hne Hcr.
  destruct (Hos c Hc) as [[nc Hnc] Hfc].
  assert (∃ np, v_nodes s !! p = Some np) as [np Hnp].
  { destruct Hp as [->|Hp]; [eauto|]. destruct (Hos p Hp) as [[? ?] _]. eauto. }
  eapply dir_add_child_wp; [done..|]. intros s' Hs' Hi'.
  assert (Hl : ∀ q, live s' q ↔ live s q).
  { intros q. rewrite Hs', live_insert, lookup_insert_is_Some. unfold live.
    split; [intros [->|[->|[_ ?]]]; eauto|]. destruct (decide (q = c)); auto. }
  split_and!; [by rewrite Hs'| |intros q Hq; by apply Hl, Hls|].
  - rewrite Hs'. destruct (decide (p = r)) as [->|Hpr].
    + assert (np = m) as -> by congruence. exists (set_n_children (Some c) m).
      split; [cbn; by rewrite lookup_insert_eq|]. destruct Hrm as (? & ? & ?). by split_and!.
    + exists m. split; [cbn; by rewrite !lookup_insert_ne|done].
  - eexists _, ms. split; [exact Hi'|]. intros o [Ho Hoc%not_elem_of_singleton]%elem_of_difference.
    destruct (Hos o Ho) as [Hlo Hof]. split; [by apply Hl|].
    intros q Hq%Hl. destruct (decide (q = p)) as [->|Hqp].
    + rewrite fn_lookup_insert, elem_of_cons. intros [->|Hin]; [done|]. by apply (Hof p).
    + rewrite fn_lookup_insert_ne by done. auto.
Qed.

Lemma building_weaken os os' s : building r ls os s → os' ⊆ os → building r ls os' s.
Proof. intros (? & ? & ? & C & ms & ? & Ho) Hsub. split_and!; [done..|]. exists C, ms. split; [done|]. intros o Hin. auto. Qed.

Lemma building_live os s p : building r ls os s → p ∈ os → ∃ n, v_nodes s !! p = Some n.
Proof. intros (_ & _ & _ & C & ms & _ & Ho) Hp. destruct (Ho p Hp) as [[n Hn] _]. eauto. Qed.

Lemma building_note os s p : building r ls os s → p ∈ os → building r ({[p]} ∪ ls) os s.
Proof.
  intros (? & ? & Hls & C & ms & ? & Ho) Hp. split_and!; [done..| |by exists C, ms].
  intros q [->%elem_of_singleton|Hq]%elem_of_union; [|auto]. by apply Ho.
Qed.

Lemma building_make_dev s os name ops size perms :
  building r ls os s → c_str name →
  wp (make_dev name ops size perms) (λ p s', match p with
    | None => building r ls os s'
    | Some p => (p ∉ os) ∧ p ≠ r ∧ building r ls ({[p]} ∪ os) s'
    end) s.
Proof.
  intros Hb Hname. unfold make_dev. apply wp_bind. eapply wp_mono; [by apply building_create|].
  intros [p|] s1; [intros (Hp & Hpr & Hb1)|intros Hb1; by apply wp_ret].
  assert (Hw : ∀ g s2 (R : () → vfs H PA → Prop), building r ls ({[p]} ∪ os) s2 →
    (∀ n, n_name (g n) = n_name n ∧ n_children (g n) = n_children n ∧ n_next_sibling (g n) = n_next_sibling n ∧
      n_parent (g n) = n_parent n) →
    (∀ s3, building r ls ({[p]} ∪ os) s3 → R () s3) → wp (write_node p g) R s2).
  { intros g s2 R Hb2 Hg HR. destruct (building_live _ _ p Hb2) as [n Hn]; [set_solver|].
    eapply wp_write_node; [exact Hn|]. apply HR. destruct (Hg n) as (? & ? & ? & ?). by apply building_write. }
  apply wp_bind, Hw; [done..|]. intros s2 Hb2. apply wp_bind, Hw; [done..|]. intros s3 Hb3.
  apply wp_bind, Hw; [done..|]. intros s4 Hb4. by apply wp_ret.
Qed.

Definition dev_set (d : option Z) : gset Z := match d with Some d => {[d]} | None => ∅ end.
Definition dev_new (os : gset Z) (d : option Z) : Prop := match d with Some d => (d ∉ os) ∧ d ≠ r | None => True end.

Lemma building_add_dev s os p dev :
  building r ls (os ∪ dev_set dev) s → p ∈ os → dev_new os dev → wp (add_dev p dev) (λ _, building r ls os) s.
Proof.
  intros Hb Hp Hd. destruct dev as [d|]; simpl.
  - destruct Hd as [Hd Hdr]. assert (p ≠ d) by (intros ->; done).
    eapply wp_mono; [apply (building_add s (os ∪ {[d]}) p d); [done|set_solver|set_solver|done|done]|].
    intros [] s' Hb'. eapply building_weaken; [exact Hb'|]. set_solver.
  - apply wp_ret. eapply building_weaken; [exact Hb|]. set_solver.
Qed.

Lemma building_new_dev s os name ops size perms :
  building r ls os s → c_str name →
  wp (make_dev name ops size perms) (λ d s', building r ls (os ∪ dev_set d) s' ∧ dev_new os d) s.
Proof.
  intros Hb Hc. eapply wp_mono; [by apply building_make_dev|].
  intros [d|] s'; [intros (? & ? & ?)|intros ?]; split; try done;
    (eapply building_weaken; [done|]); unfold dev_set; set_solver.
Qed.

(** The four device files, and their links in [dev_root]. *)
Lemma building_devices s dev_root (Q : () → vfs H PA → Prop) (k : M (vfs H PA) ()) :
  building r ls {[dev_root]} s → dev_root ≠ r → (∀ s', building r ls {[dev_root]} s' → wp k Q s') →
  wp (null_dev ← make_dev "null" kDevNullOps 0 0x1b6;
      zero_dev ← make_dev "zero" kDevZeroOps 0 0x1b6;
      console_dev ← make_dev "console" kDevConsoleOps 0 0x1b6;
      rtc_dev ← make_dev "rtc" kDevRtcOps 8 0x1a4;
      add_dev dev_root null_dev;; add_dev dev_root zero_dev;;
      add_dev dev_root console_dev;; add_dev dev_root rtc_dev;; k) Q s.
Proof.
  intros Hb Hne Hk.
  apply wp_bind. eapply wp_mono; [apply building_new_dev; [exact Hb|by vm_compute]|]. intros d1 s1 [Hb1 H1].
  apply wp_bind. eapply wp_mono; [apply building_new_dev; [exact Hb1|by vm_compute]|]. intros d2 s2 [Hb2 H2].
  apply wp_bind. eapply wp_mono; [apply building_new_dev; [exact Hb2|by vm_compute]|]. intros d3 s3 [Hb3 H3].
  apply wp_bind. eapply wp_mono; [apply building_new_dev; [exact Hb3|by vm_compute]|]. intros d4 s4 [Hb4 H4].
  assert (Hadd : ∀ (os os' : gset Z) d s', building r ls os' s' → os ∪ dev_set d ⊆ os' → dev_root ∈ os →
    dev_new os d → wp (add_dev dev_root d) (λ _, building r ls os) s').
  { intros os os' d s' Hb' Hsub ? ?. apply building_add_dev; [|done..]. by eapply building_weaken. }
  unfold dev_new, dev_set in *.
  apply wp_bind. eapply wp_mono; [apply (Hadd (({[dev_root]} ∪ dev_set d2 ∪ dev_set d3) ∪ dev_set d4) _ d1 _ Hb4)|];
    unfold dev_set; [set_solver|set_solver|destruct d1, d2, d3, d4; set_solver|]. intros [] s5 Hb5.
  apply wp_bind. eapply wp_mono; [apply (Hadd (({[dev_root]} ∪ dev_set d3) ∪ dev_set d4) _ d2 _ Hb5)|];
    unfold dev_set; [set_solver|set_solver|destruct d1, d2, d3, d4; set_solver|]. intros [] s6 Hb6.
  apply wp_bind. eapply wp_mono; [apply (Hadd ({[dev_root]} ∪ dev_set d4) _ d3 _ Hb6)|];
    unfold dev_set; [set_solver|set_solver|destruct d1, d2, d3, d4; set_solver|]. intros [] s7 Hb7.
  apply wp_bind. eapply wp_mono; [apply (Hadd {[dev_root]} _ d4 _ Hb7)|];
    unfold dev_set; [set_solver|set_solver|destruct d1, d2, d3, d4; set_solver|]. intros [] s8 Hb8. by apply Hk.
Qed.
End building.

(** What [vfs_init] leaves, also when an allocation fails on the way. *)
Definition init_post s : Prop :=
  (∃ C ms, vfs_inv s C ms) ∧ ∀ r, kRootNode s = Some r → ∃ n, v_nodes s !! r = Some n ∧ root_node r n.

Lemma building_result r ls os s : building r ls os s → init_post s.
Proof. intros (Hr & Hn & _ & C & ms & Hi & _). split; [eauto|]. rewrite Hr. by intros r' [= <-]. Qed.

Lemma boot_inv (h : H) (pa : PA) mem L : kh_inv h L → vfs_inv (vfs_boot h pa mem) (λ _, []) [].
Proof.
  intros Hh. split; try done.
  - exists L. split_and!; [done|..]; intros ? [? ?]; done.
  - by intros ? ? ? _ _ ?%not_elem_of_nil.
  - by intros ? ?%not_elem_of_nil.
Qed.

Lemma init_mount s r ls os mp dr :
  building r ls os s → dr ∈ os → dr ≠ r → mp ∈ ls →
  wp (_ ← mount_add mp dr; mret ()) (λ _, init_post) s.
Proof.
  intros (Hr & (n & Hn & Hrn) & Hls & C & ms & Hi & Hos) Hdr Hne Hmp%Hls. destruct (Hos dr Hdr) as [[nr Hnr] _].
  assert (H1 : wp (mount_add mp dr) (λ _ s', kRootNode s' = Some r ∧ v_nodes s' !! r = Some n) s).
  { unfold mount_add. apply wp_bind. eapply kmalloc_wp; [exact Hi|done|intros h _; by apply wp_ret|].
    intros p h L _ Hp _ _ _ _ _. destruct (Z.eqb_spec p 0); [lia|]. apply wp_bind, wp_modify, wp_bind.
    eapply wp_write_node; [exact Hnr|]. apply wp_ret. cbn. by rewrite lookup_insert_ne. }
  assert (H2 : wp (mount_add mp dr) (λ _ s', ∃ C ms, vfs_inv s' C ms) s)
    by (eapply mount_add_wp; [exact Hi|done|by exists nr|..]; eauto).
  apply wp_bind. unfold wp in *. destruct (mount_add mp dr s) as [[b s']| |]; [|done..].
  destruct H1 as [Hk1 Hk2]. split; [exact H2|]. intros r' Hr'. assert (r' = r) as -> by congruence. eauto.
Qed.

Lemma init_root_wp s (root : Z) h : v_nodes s = ∅ →
  vfs_inv (set_v_nodes (<[root := new_node "/" DIRECTORY]> (v_nodes s)) (set_v_heap h s)) (<[root := []]> (λ _, [])) [] →
  wp (write_node root (set_n_ops (Some kTmpDirOps));; write_node root (set_n_parent (Some root)))
    (λ _, building root ∅ {[root]})
    (set_kRootNode (Some root) (set_v_nodes (<[root := new_node "/" DIRECTORY]> (v_nodes s)) (set_v_heap h s))).
Proof.
  intros Hn Hi. rewrite Hn in *. set (s0 := set_v_nodes _ _) in Hi.
  assert (Hi0 : vfs_inv (set_kRootNode (Some root) s0) (<[root := []]> (λ _, [])) []).
  { destruct Hi. split; try done. intros r [= <-]. eexists. apply lookup_insert_eq. }
  apply wp_bind. eapply wp_write_node; [apply lookup_insert_eq|]. eapply wp_write_node; [apply lookup_insert_eq|].
  apply (vfs_inv_write _ _ _ root (new_node "/" DIRECTORY) (set_n_ops (Some kTmpDirOps))) in Hi0;
    [|apply lookup_insert_eq|done..].
  apply (vfs_inv_write _ _ _ root (set_n_ops (Some kTmpDirOps) (new_node "/" DIRECTORY)) (set_n_parent (Some root))) in Hi0;
    [|apply lookup_insert_eq|done..|by intros q [= <-]; eexists; apply lookup_insert_eq].
  split_and!; [done|eexists; split; [apply lookup_insert_eq|done]|set_solver|]. eexists _, []. split; [exact Hi0|].
  intros o ->%elem_of_singleton. split; [eexists; apply lookup_insert_eq|]. intros q [m Hq].
  destruct (decide (q = root)) as [->|]; [rewrite fn_lookup_insert|rewrite fn_lookup_insert_ne by done];
    apply not_elem_of_nil.
Qed.

(** From the mount point on. *)
Lemma init_dev_wp s r mp :
  building r {[mp]} {[r]} s →
  wp (r2 ← create_node "dev" DIRECTORY;
      match r2 with
      | None => mret ()
      | Some dev_root =>
        write_node dev_root (set_n_ops (Some kDevDirOps));;
        null_dev ← make_dev "null" kDevNullOps 0 0x1b6;
        zero_dev ← make_dev "zero" kDevZeroOps 0 0x1b6;
        console_dev ← make_dev "console" kDevConsoleOps 0 0x1b6;
        rtc_dev ← make_dev "rtc" kDevRtcOps 8 0x1a4;
        add_dev dev_root null_dev;; add_dev dev_root zero_dev;;
        add_dev dev_root console_dev;; add_dev dev_root rtc_dev;;
        _ ← mount_add mp dev_root; mret ()
      end) (λ _, init_post) s.
Proof.
  intros Hb. apply wp_bind. eapply wp_mono; [apply building_create; [exact Hb|by vm_compute]|].
  intros [dr|] s1; [intros (Hdr & Hne & Hb1)|intros Hb1; apply wp_ret; by eapply building_result].
  destruct (building_live _ _ _ _ dr Hb1) as [n Hn]; [set_solver|].
  apply wp_bind. eapply wp_write_node; [exact Hn|].
  apply (building_write _ _ _ _ dr n (set_n_ops (Some kDevDirOps))) in Hb1; [|done..].
  apply (building_devices r {[mp]} _ dr _ (_ ← mount_add mp dr; mret ()));
    [eapply building_weaken; [exact Hb1|set_solver]|done|].
  intros s' Hb'. eapply init_mount; [exact Hb'|set_solver|done|set_solver].
Qed.

Lemma vfs_init_wp (h : H) (pa : PA) mem L :
  kh_inv h L → wp vfs_init (λ _, init_post) (vfs_boot h pa mem).
Proof.
  intros Hh. unfold vfs_init. apply wp_bind.
  eapply create_node_wp; [by eapply boot_inv|by vm_compute| |].
  { intros h' Hi. apply wp_bind, wp_modify, wp_ret. split; [|done]. exists (λ _, []), [].
    destruct Hi. by split. }
  intros root h1 Hf Hi. apply wp_bind, wp_modify.
  pose proof (init_root_wp (vfs_boot h pa mem) root h1 eq_refl Hi) as Hroot.
  cbn beta iota. apply wp_bind_assoc, wp_bind. eapply wp_mono; [exact Hroot|]. intros [] s1 Hb1.
  apply wp_bind. eapply wp_mono; [apply building_create; [exact Hb1|by vm_compute]|].
  intros [mp|] s2; [intros (Hmp & Hmpr & Hb2)|intros Hb2; apply wp_ret; by eapply building_result].
  destruct (building_live _ _ _ _ mp Hb2) as [nm Hnm]; [set_solver|].
  apply wp_bind. eapply wp_write_node; [exact Hnm|].
  apply (building_note _ _ _ _ mp) in Hb2; [|set_solver].
  apply (building_write _ _ _ _ mp nm (set_n_ops (Some kTmpDirOps))) in Hb2; [|done..].
  apply wp_bind. eapply wp_mono; [apply (building_add root _ _ _ root mp Hb2); [set_solver|by left|done|done]|].
  intros [] s3 Hb3. apply (init_dev_wp _ root).
  assert ({[mp]} ∪ ∅ = {[mp]} :> gset Z) as E by set_solver. rewrite E in Hb3.
  eapply building_weaken; [exact Hb3|]. set_solver.
Qed.
End tree.

(** ** The root

    Only [vfs_init] sets it, to the node it allocates first. *)

Section root.
Context {H PA : Type} `{!KernelHeap H} `{!PageAllocator PA}.
Implicit Types s : vfs H PA.

Definition same_root s s' : Prop := kRootNode s' = kRootNode s.
#[export] Instance same_root_preorder : PreOrder same_root.
Proof. split; [done|]. unfold same_root. intros s1 s2 s3. congruence. Qed.
Local Abbreviation rooted := (keeps same_root).

Lemma rooted_heap {A} (m : M H A) : rooted (heap_op m).
Proof. intros s. unfold wlp, heap_op. by destruct (m (v_heap s)) as [[a h]| |]. Qed.
Lemma rooted_read n : rooted (read_node n).
Proof. unfold read_node. keeps_tac. Qed.
Hint Resolve rooted_heap rooted_read : vortex.
Lemma rooted_write n g : rooted (write_node n g).
Proof. unfold write_node. keeps_tac. by apply keeps_modify. Qed.
Lemma rooted_create name type : rooted (create_node name type).
Proof. unfold create_node. keeps_tac. by apply keeps_modify. Qed.
Hint Resolve rooted_write rooted_create : vortex.
Lemma rooted_add parent child : rooted (dir_add_child parent child).
Proof. unfold dir_add_child. keeps_tac. Qed.
Lemma rooted_make name ops size perms : rooted (make_dev name ops size perms).
Proof. unfold make_dev. keeps_tac. Qed.
Lemma rooted_mount point root : rooted (mount_add point root).
Proof. unfold mount_add. keeps_tac. by apply keeps_modify. Qed.
Hint Resolve rooted_add rooted_make rooted_mount : vortex.
Lemma rooted_add_dev root d : rooted (add_dev root d).
Proof. destruct d; cbn [add_dev]; auto with vortex. Qed.
Hint Resolve rooted_add_dev : vortex.

(** When the first allocation succeeds there is a root. *)
Lemma vfs_init_root s : wlp (kmalloc sizeof_VfsNode) (λ p _, p ≠ 0) (v_heap s) → wlp vfs_init (λ _ s', is_Some (kRootNode s')) s.
Proof.
  intros Hk. unfold vfs_init. apply wlp_bind, (wlp_mono _ (λ o _, is_Some o)).
  - unfold create_node. apply wlp_bind. unfold wlp, heap_op in *. destruct (kmalloc sizeof_VfsNode (v_heap s)) as [[p h]| |]; [|done..].
    rewrite (proj2 (Z.eqb_neq p 0)) by done. cbn. by eexists.
  - intros o s1 [root ->]. apply wlp_bind, wlp_modify.
    eapply (wlp_mono _ (λ _ s', same_root (set_kRootNode (Some root) s1) s')); [|intros [] s' E; by exists root].
    set (s2 := set_kRootNode _ s1). generalize s2. clear. intros s2. match goal with |- wlp ?m _ _ => enough (Hm : rooted m) by exact (Hm s2) end. keeps_tac.
Qed.
End root.
