(* ===== verification/VfsFile.v ===== *)
(** * tmpfs files: contents

    A regular file holds a list of at most 4096 bytes, kept in one page that is
    allocated by the first write.  [tmpfs_file_read] and [tmpfs_file_write] are
    shown to be reads and overlays of that list. *)

From S2P Require Import Prelude Bytes LinkedList Pmm PmmBlocks PageAlloc KernelHeap Vfs VfsInv VfsTree.
Open Scope Z_scope.
#[local] Coercion Z.of_nat : nat >-> Z.

(** ** The contents as a list *)

(** Bytes [off, off + size) of the contents, cut at its end. *)
Definition abs_read (l : list Z) (off size : Z) : list Z := take (Z.to_nat size) (drop (Z.to_nat off) l).

(** The data laid over the contents; a gap before it reads as zeros. *)
Definition overlay (l : list Z) (off : nat) (data : list Z) : list Z :=
  take off (l ++ replicate (off - length l) 0) ++ data ++ drop (off + length data) l.

(** What fits in the page. *)
Definition clip (off size : Z) : Z := size `min` (PAGE_SIZE - off).
Definition abs_write (l : list Z) (off size : Z) (bytes : list Z) : list Z :=
  overlay l (Z.to_nat off) (take (Z.to_nat (clip off size)) bytes).

Lemma overlay_length l off data : length (overlay l off data) = Nat.max (length l) (off + length data).
Proof. unfold overlay. rewrite !length_app, length_take, length_app, length_replicate, length_drop. lia. Qed.

Lemma overlay_lookup l off data (i : nat) :
  (i < Nat.max (length l) (off + length data))%nat →
  overlay l off data !! i =
    if decide (off ≤ i < off + length data)%nat then data !! (i - off)%nat
    else if decide (i < length l)%nat then l !! i else Some 0.
Proof.
  intros Hi. unfold overlay. set (z := replicate _ 0).
  assert (Hz : length z = (off - length l)%nat) by apply length_replicate.
  assert (Hp : length (take off (l ++ z)) = off) by (rewrite length_take, length_app; lia).
  destruct (decide (i < off)%nat) as [Hlt|Hge].
  - rewrite lookup_app_l, lookup_take_lt by lia. rewrite decide_False by lia. case_decide as Hl.
    + by rewrite lookup_app_l.
    + rewrite lookup_app_r by lia. apply lookup_replicate. lia.
  - rewrite lookup_app_r, Hp by lia. case_decide as Hd.
    + apply lookup_app_l. lia.
    + rewrite lookup_app_r by lia. rewrite decide_True by lia. rewrite lookup_drop. f_equal. lia.
Qed.

Lemma overlay_read l off data : take (length data) (drop off (overlay l off data)) = data.
Proof.
  unfold overlay. rewrite drop_app_length', take_app_length; [done|].
  rewrite length_take, length_app, length_replicate. lia.
Qed.

Section file.
Context {H PA : Type} `{!KernelHeap H} `{!PageAllocator PA}.
Implicit Types (s : vfs H PA) (l bytes : list Z).

(** The node is a file whose page, if it has one, holds [l]. *)
Definition file_view s (node : Z) (l : list Z) : Prop :=
  ∃ n, v_nodes s !! node = Some n ∧ n_size n = length l ∧ length l ≤ PAGE_SIZE ∧
    match n_private_data n with
    | Some base => ∀ i : nat, (i < length l)%nat → v_mem s (base + i) = l !!! i
    | None => l = []
    end.

Definition page_at s (node : Z) : option Z := v_nodes s !! node ≫= n_private_data.

Lemma load_bytes_wp s base off n (R : list Z → vfs H PA → Prop) :
  0 ≤ off → off + Z.of_nat n ≤ PAGE_SIZE →
  R ((λ i : nat, v_mem s (base + off + i)) <$> seq 0 n) s → wp (load_bytes base off n) R s.
Proof.
  revert off R. induction n as [|n IH]; intros off R H0 H1 HR; [by apply wp_ret|].
  cbn [load_bytes]. apply wp_bind. unfold load_byte.
  destruct ((0 <=? off) && (off <? PAGE_SIZE)) eqn:E; [|apply andb_false_iff in E; lia].
  apply wp_gets, wp_bind, IH; [lia..|]. apply wp_ret. cbn [seq fmap list_fmap] in HR.
  rewrite Z.add_0_r in HR. rewrite <-fmap_S_seq, <-list_fmap_compose in HR.
  rewrite (list_fmap_ext _ ((λ i : nat, v_mem s (base + off + i)) ∘ S)); [done|].
  intros ? ? _. unfold compose. f_equal. lia.
Qed.

Lemma store_bytes_wp s base off bs (R : () → vfs H PA → Prop) :
  0 ≤ off → off + length bs ≤ PAGE_SIZE →
  R () (set_v_mem (mem_write (v_mem s) (base + off) bs) s) → wp (store_bytes base off bs) R s.
Proof.
  revert off s. induction bs as [|b bs IH]; intros off s H0 H1 HR.
  { apply wp_ret. by destruct s. }
  cbn [store_bytes]. cbn [length] in H1. apply wp_bind. unfold store_byte.
  destruct ((0 <=? off) && (off <? PAGE_SIZE)) eqn:E; [|apply andb_false_iff in E; lia].
  apply wp_modify, IH; [lia..|]. cbn [mem_write] in HR. by rewrite <-Z.add_assoc in HR.
Qed.

(** ** Reading *)

Lemma file_read_wp s node l off size capacity (R : Z * list Z → vfs H PA → Prop) :
  file_view s node l → 0 ≤ off → 0 ≤ size → size ≤ Z.of_nat capacity →
  R (Z.of_nat (length (abs_read l off size)), abs_read l off size) s →
  wp (tmpfs_file_read (Some node) off size (Some capacity)) R s.
Proof.
  intros (n & Hn & Hsz & Hmax & Hdata) Hoff Hsize Hcap HR. unfold tmpfs_file_read.
  apply wp_bind. eapply wp_read_node; [exact Hn|]. rewrite Hsz. unfold abs_read in *.
  rewrite length_take, length_drop in HR. destruct (Z.leb_spec (length l) off) as [Hle|Hlt].
  { apply wp_ret. rewrite drop_ge, take_nil in HR by lia.
    replace (Z.of_nat _) with 0 in HR by lia. done. }
  destruct (n_private_data n) as [base|]; [|subst; simpl in Hlt; lia].
  set (c := Nat.min _ _) in HR. replace (if size <? _ then size else _) with (Z.of_nat c)
    by (case_if; lia).
  destruct (Z.ltb_spec (Z.of_nat capacity) c); [lia|]. apply wp_bind. eapply wp_deref; [done|].
  apply wp_bind, load_bytes_wp; [lia..|]. apply wp_ret. rewrite Nat2Z.id.
  assert ((λ i : nat, v_mem s (base + off + i)) <$> seq 0 c = take (Z.to_nat size) (drop (Z.to_nat off) l)) as ->;
    [|exact HR].
  apply list_eq_same_length with c.
  - rewrite length_take, length_drop. lia.
  - by rewrite length_fmap, length_seq.
  - intros i x y Hi. rewrite list_lookup_fmap, lookup_seq_lt by done. cbn.
    rewrite lookup_take_lt, lookup_drop by lia. intros [= <-] Hy.
    replace (base + off + i) with (base + (Z.to_nat off + i)%nat) by lia. rewrite Hdata by lia.
    by apply list_lookup_total_correct.
Qed.

(** ** Writing *)

(** A state that differs from [s] in the page allocator, in the memory of
    file pages and in the node [node] only, whose links are kept. *)
Definition file_frame s (node : Z) s' : Prop :=
  v_heap s' = v_heap s ∧ v_mounts s' = v_mounts s ∧ kMountList s' = kMountList s ∧ kRootNode s' = kRootNode s ∧
  v_serial s' = v_serial s ∧
  (∀ q, q ≠ node → v_nodes s' !! q = v_nodes s !! q) ∧
  (∀ n', v_nodes s' !! node = Some n' → ∃ n, v_nodes s !! node = Some n ∧
     n' = set_n_size (n_size n') (set_n_private_data (n_private_data n') n)).

(** Memory outside the file's page is untouched. *)
Definition mem_frame s s' (base : Z) : Prop :=
  ∀ a, ¬ base ≤ a < base + PAGE_SIZE → v_mem s' a = v_mem s a.

Lemma abs_write_length l off size bytes :
  0 ≤ off ≤ PAGE_SIZE → 0 ≤ size ≤ length bytes → length l ≤ PAGE_SIZE →
  Z.of_nat (length (abs_write l off size bytes)) = Z.of_nat (length l) `max` ((off + size) `min` PAGE_SIZE).
Proof.
  intros Hoff Hsize Hl. unfold abs_write, clip. rewrite overlay_length, length_take. lia.
Qed.

(** The two stores of a write produce the overlay. *)
Lemma write_mem_view (mem : Z → Z) base l off data :
  (∀ i : nat, (i < length l)%nat → mem (base + i) = l !!! i) →
  ∀ i : nat, (i < length (overlay l off data))%nat →
    mem_write (if decide (length l < off)%nat then mem_write mem (base + length l) (replicate (off - length l) 0) else mem)
      (base + off) data (base + i) = overlay l off data !!! i.
Proof.
  intros Hm i Hi. rewrite overlay_length in Hi. symmetry. apply list_lookup_total_correct.
  rewrite overlay_lookup by done. rewrite mem_write_lookup. destruct (decide (off ≤ i < off + length data)%nat) as [Hd|Hd].
  - rewrite decide_True by lia. replace (Z.to_nat (base + i - (base + off))) with (i - off)%nat by lia.
    apply list_lookup_lookup_total_lt. lia.
  - rewrite (decide_False (P := base + off ≤ base + i < _)) by lia. destruct (decide (length l < off)%nat) as [Hg|Hg].
    + rewrite mem_write_lookup, length_replicate. destruct (decide (i < length l)%nat) as [Hl|Hl].
      * rewrite decide_False by lia. rewrite Hm by done. by apply list_lookup_lookup_total_lt.
      * rewrite decide_True by lia. rewrite lookup_total_replicate_2 by lia. done.
    + rewrite decide_True by lia. rewrite Hm by lia. apply list_lookup_lookup_total_lt. lia.
Qed.

(** The two store loops of a write. *)
Lemma write_stores_wp s base l off k bytes (R : () → vfs H PA → Prop) :
  (∀ i : nat, (i < length l)%nat → v_mem s (base + i) = l !!! i) → length l ≤ PAGE_SIZE →
  0 ≤ off ≤ PAGE_SIZE → 0 ≤ k ≤ length bytes → off + k ≤ PAGE_SIZE →
  (∀ mem, (∀ i : nat, (i < length (overlay l (Z.to_nat off) (take (Z.to_nat k) bytes)))%nat →
              mem (base + i) = overlay l (Z.to_nat off) (take (Z.to_nat k) bytes) !!! i) →
     (∀ a, ¬ base ≤ a < base + PAGE_SIZE → mem a = v_mem s a) → R () (set_v_mem mem s)) →
  wp (when (length l <? off) (store_bytes base (length l) (replicate (Z.to_nat (off - length l)) 0));;
      (if length bytes <? k then undefined else store_bytes base off (take (Z.to_nat k) bytes))) R s.
Proof.
  intros Hdata Hl Hoff Hk Hend HR. set (data := take (Z.to_nat k) bytes) in *.
  assert (Hdl : Z.of_nat (length data) = k) by (unfold data; rewrite length_take; lia).
  pose proof (write_mem_view (v_mem s) base l (Z.to_nat off) data Hdata) as Hview.
  replace (base + Z.to_nat off) with (base + off) in Hview by lia.
  replace (Z.to_nat (off - length l)) with (Z.to_nat off - length l)%nat by lia.
  apply wp_bind, wp_when. destruct (Z.ltb_spec (length bytes) k); [lia|].
  destruct (Z.ltb_spec (length l) off) as [Hg|Hg].
  - rewrite decide_True in Hview by lia. apply store_bytes_wp; [lia|rewrite length_replicate; lia|].
    apply store_bytes_wp; [lia..|]. apply HR; [exact Hview|].
    intros a Ha. cbn [v_mem set_v_mem]. rewrite mem_write_lookup, decide_False by lia.
    rewrite mem_write_lookup, length_replicate, decide_False by lia. done.
  - rewrite decide_False in Hview by lia. apply store_bytes_wp; [lia..|]. apply HR; [exact Hview|].
    intros a Ha. rewrite mem_write_lookup. by rewrite decide_False by lia.
Qed.

(** The part of a write after the page is known. *)
Lemma file_put_wp s node n base l off size bytes (R : Z → vfs H PA → Prop) :
  v_nodes s !! node = Some n → n_private_data n = Some base → file_view s node l →
  0 ≤ off ≤ PAGE_SIZE → 0 ≤ size ≤ length bytes → off + size < 2 ^ 64 →
  (∀ s', file_view s' node (abs_write l off size bytes) → file_frame s node s' → mem_frame s s' base →
     v_pages s' = v_pages s → page_at s' node = Some base → R (clip off size) s') →
  wp (file_put node base off size bytes) R s.
Proof.
  intros Hn Hbase (n0 & Hn0 & Hsz & Hmax & Hdata) Hoff Hsize Hov HR.
  assert (n0 = n) as -> by congruence. rewrite Hbase in Hdata. unfold file_put. apply wp_bind.
  eapply wp_read_node; [exact Hn|]. rewrite (wrap_small 64 (off + size)) by lia. rewrite Hsz.
  set (end_ := if PAGE_SIZE <? off + size then PAGE_SIZE else off + size).
  assert (He : end_ = (off + size) `min` PAGE_SIZE) by (unfold end_; case_if; lia).
  set (k := if PAGE_SIZE <? off + size then _ else size).
  assert (Hk : k = clip off size) by (unfold k, clip; repeat case_if; lia). clearbody end_ k. subst end_ k.
  assert (Hclip : 0 ≤ clip off size ≤ size ∧ off + clip off size ≤ PAGE_SIZE) by (unfold clip; lia).
  apply wp_bind_assoc, wp_bind, (write_stores_wp s base l); [done|lia|lia|lia|lia|].
  pose proof (abs_write_length l off size bytes Hoff Hsize Hmax) as Hlen. fold (abs_write l off size bytes).
  intros mem Hmem Hout. apply wp_bind, wp_when. destruct (Z.ltb_spec (length l) ((off + size) `min` PAGE_SIZE)) as [Hg|Hg].
  - eapply wp_write_node; [exact Hn|]. apply wp_ret, HR; try done.
    + eexists. split; [apply lookup_insert_eq|]. split_and!; [simpl; lia|lia|]. cbn. by rewrite Hbase.
    + repeat split; try done; cbn; [intros q Hq; by rewrite lookup_insert_ne|].
      rewrite lookup_insert_eq. intros n' [= <-]. exists n. split; [done|]. by destruct n.
    + unfold page_at. cbn. by rewrite lookup_insert_eq.
  - apply wp_ret, HR; try done.
    + exists n. split; [done|]. split_and!; [lia|lia|]. by rewrite Hbase.
    + repeat split; try done. cbn. intros n' Hn'. exists n'. split; [done|]. by destruct n'.
    + unfold page_at. cbn. by rewrite Hn.
Qed.

(** A page that is allocated but whose number is 0 also reads as failure. *)
Lemma file_page_wp s F A node l (R : option Z → vfs H PA → Prop) :
  file_view s node l → pa_inv (v_pages s) F A →
  (∀ pa, page_at s node = None → R None (set_v_pages pa s)) →
  (∀ s' base, file_view s' node l → file_frame s node s' → v_mem s' = v_mem s → page_at s' node = Some base →
     (page_at s node = Some base ∧ s' = s ∨ page_at s node = None ∧ l = [] ∧
      ∃ p o, base = p * PAGE_SIZE +64 pa_hhdm (v_pages s) ∧ fits 1 o ∧ page_set [(p, o)] ⊆ F ∧
        pa_inv (v_pages s') (F ∖ page_set [(p, o)]) ((p, o) :: A)) → R (Some base) s') →
  wp (file_page node) R s.
Proof.
  intros Hv Hpa H0 H1. pose proof Hv as (n & Hn & Hsz & Hmax & Hdata). unfold file_page.
  assert (Hat : page_at s node = n_private_data n) by (unfold page_at; by rewrite Hn).
  apply wp_bind. eapply wp_read_node; [exact Hn|]. destruct (n_private_data n) as [base|] eqn:Eb.
  - apply wp_ret, H1; [done| |done..|by left]. repeat split; try done. intros n' Hn'. exists n'. split; [done|]. by destruct n'.
  - subst l. apply wp_bind, wp_gets, wp_bind. unfold page_op.
    assert (Hone : 0 ≤ 1 ≤ 2 ^ 63) by lia.
    pose proof (pa_alloc_spec (v_pages s) F A 1 Hpa Hone) as Hw. unfold wp in *.
    destruct (pa_alloc 1 (v_pages s)) as [[r pa]| |]; [|destruct Hw; lia..].
    destruct Hw as [Hw _]. destruct (Z.eqb_spec r 0) as [->|Hr]; [by apply H0|].
    destruct Hw as [[? _]|(p & o & -> & Hfit & Hsub & Hinv)]; [done|].
    change (wp (write_node node (set_n_private_data (Some (p * PAGE_SIZE +64 pa_hhdm (v_pages s))));;
      mret (Some (p * PAGE_SIZE +64 pa_hhdm (v_pages s)))) R (set_v_pages pa s)).
    apply wp_bind. eapply wp_write_node; [exact Hn|]. apply wp_ret, H1; [| |done| |].
    + eexists. split; [apply lookup_insert_eq|]. split_and!; [exact Hsz|simpl; lia|]. cbn. intros i Hi. simpl in Hi. lia.
    + repeat split; try done; cbn; [intros q Hq; by rewrite lookup_insert_ne|].
      rewrite lookup_insert_eq. intros n' [= <-]. exists n. split; [done|]. by destruct n.
    + unfold page_at. cbn. by rewrite lookup_insert_eq.
    + right. split_and!; [done..|]. exists p, o. done.
Qed.

Lemma file_frame_trans s1 s2 s3 node : file_frame s1 node s2 → file_frame s2 node s3 → file_frame s1 node s3.
Proof.
  intros (A1 & B1 & C1 & D1 & E1 & F1 & G1) (A2 & B2 & C2 & D2 & E2 & F2 & G2).
  repeat split; try congruence.
  - intros q Hq. rewrite F2, F1; done.
  - intros n3 (n2 & Hn2 & E3)%G2. destruct (G1 _ Hn2) as (n1 & Hn1 & E12). exists n1. split; [done|].
    rewrite E3, E12. by destruct n1.
Qed.

(** A write: nothing happens when no page can be had; else the contents are
    overlaid, and only this node and its page change. *)
Lemma file_write_wp s F A node l off size bytes (R : Z → vfs H PA → Prop) :
  file_view s node l → pa_inv (v_pages s) F A →
  0 ≤ off ≤ PAGE_SIZE → 0 ≤ size ≤ length bytes → off + size < 2 ^ 64 →
  (∀ pa, page_at s node = None → R 0 (set_v_pages pa s)) →
  (∀ s' base, file_view s' node (abs_write l off size bytes) → file_frame s node s' → mem_frame s s' base →
     page_at s' node = Some base → (∀ b, page_at s node = Some b → b = base) → R (clip off size) s') →
  wp (tmpfs_file_write (Some node) off size (Some bytes)) R s.
Proof.
  intros Hv Hpa Hoff Hsize Hov H0 H1. unfold tmpfs_file_write. apply wp_bind.
  eapply file_page_wp; [exact Hv|exact Hpa|intros pa Hp; apply wp_ret; auto|].
  intros s1 base Hv1 Hf1 Hm1 Hp1 Hcase. unfold page_at in Hp1.
  apply bind_Some in Hp1 as (n & Hn & Hb).
  eapply file_put_wp; [exact Hn|exact Hb|exact Hv1|done..|]. intros s2 Hv2 Hf2 Hm2 _ Hp2. eapply H1; [done| | |done|].
  - by eapply file_frame_trans.
  - intros a Ha. rewrite Hm2 by done. by rewrite Hm1.
  - intros b Hb'. destruct Hcase as [[? _]|[? _]]; congruence.
Qed.

(** The links of the tree are not touched. *)
Lemma file_frame_inv s s' node C ms : vfs_inv s C ms → live s node → live s' node → file_frame s node s' →
  vfs_inv s' C ms.
Proof.
  intros Hi [n Hn] [n' Hn'] (Eh & Em & El & Er & _ & Fr & Fn).
  destruct (Fn _ Hn') as (n0 & Hn0 & En). assert (n0 = n) as -> by congruence.
  set (g := λ n : VfsNode, set_n_size (n_size n') (set_n_private_data (n_private_data n') n)).
  assert (vfs_inv (set_v_nodes (<[node := g n]> (v_nodes s)) s) C ms) as Hi'.
  { apply vfs_inv_write; try done. intros q Hq. by eapply vi_parent. }
  assert (E : v_nodes s' = <[node := g n]> (v_nodes s)).
  { apply map_eq. intros q. destruct (decide (q = node)) as [->|Hq].
    - by rewrite lookup_insert_eq, Hn', En.
    - by rewrite lookup_insert_ne, Fr. }
  destruct Hi' as [A1 A2 A3 A4 A5 A6 A7 A8 A9]. unfold live, sibling, next_mount in *. cbn in *. split;
    unfold live, sibling, next_mount; rewrite ?E, ?Eh, ?Em, ?El, ?Er; done.
Qed.
End file.
