(* ===== verification/VfsTheorems.v ===== *)
(** * The virtual file system: properties

    Lookup, directory creation, enumeration, initialisation and file contents,
    each against its abstract counterpart. *)

From Stdlib Require Import Ascii.
From S2P Require Import Prelude LinkedList Pmm PmmBlocks PmmInv PmmInit PageAlloc PmmTheorems.
From S2P Require Import KernelHeap Vfs VfsInv VfsTree VfsFile.
Open Scope Z_scope.

(** ** A machine to evaluate on *)

Definition demo_vfs : vfs bump pmm :=
  final_state vfs_init (vfs_boot (mkBump 0x1000 0x100000) small_pmm (λ _, 0)).

Definition demo_root : Z := 0x1000.

Lemma demo_heap_inv : bump_inv (mkBump 0x1000 0x100000) ∅.
Proof. split; [simpl; lia|]. set_solver. Qed.

Lemma demo_vfs_inv : ∃ C ms, vfs_inv demo_vfs C ms.
Proof.
  pose proof (vfs_init_wp (mkBump 0x1000 0x100000) small_pmm (λ _, 0) ∅ demo_heap_inv) as Hw.
  unfold wp in Hw. unfold demo_vfs, final_state. destruct (vfs_init _) as [[? s]| |]; [|done..]. apply Hw.
Qed.

Lemma demo_root_node : ∃ n, v_nodes demo_vfs !! demo_root = Some n ∧ root_node demo_root n ∧
  kRootNode demo_vfs = Some demo_root.
Proof. eexists. split; [vm_compute; reflexivity|]. split; [|vm_compute; reflexivity]. done. Qed.

(** ** Lookup *)

Section lookup.
Context {H PA : Type} `{!KernelHeap H} `{!PageAllocator PA}.
Implicit Types (s : vfs H PA) (C : Z → list Z) (ms : list Z).

Lemma path_components_slash p : path_components (String slash p) = path_components p.
Proof. unfold path_components. simpl. by rewrite filter_cons_False by auto. Qed.


(** Enumeration is the list of children: [vfs_readdir] of a directory
    returns its [index]-th child, null from the end of the list on, and null
    for every node that is not a directory. *)
Theorem vfs_readdir_correct s C ms dir n index :
  vfs_inv s C ms → v_nodes s !! dir = Some n → 0 ≤ index →
  vfs_readdir (Some dir) index s =
    Ok (if decide (n_type n = DIRECTORY) then C dir !! Z.to_nat index else None, s).
Proof.
  intros Hi Hn H0. unfold vfs_readdir, read_node.
  rewrite (bind_ok _ _ s n s) by (unfold mbind, M_bind, get; simpl; by rewrite Hn).
  destruct (decide _) as [Ht|Ht]; [|done].
  assert (Hw : ∀ fuel l h i, chain (sibling s) h l → (∀ c, c ∈ l → live s c) → (length l ≤ fuel)%nat → 0 ≤ i →
    nth_child fuel h i s = Ok (l !! Z.to_nat i, s)).
  { induction fuel as [|fuel IH]; intros [|c l] h i Hch Hl Hf Hi0; [|simpl in Hf; lia| |].
    1,2: by apply (lseg_head (sibling s)) in Hch as <-.
    destruct Hch as [-> Hch]. cbn [nth_child]. destruct (Z.eqb_spec i 0) as [->|Hne]; [done|].
    destruct (Hl c) as [nc Hnc]; [set_solver|].
    unfold read_node. rewrite (bind_ok _ _ s nc s) by (unfold mbind, M_bind, get; simpl; by rewrite Hnc).
    rewrite (IH l); [|by unfold sibling in Hch; rewrite Hnc in Hch|set_solver|simpl in Hf; lia|lia].
    by replace (Z.to_nat i) with (S (Z.to_nat (i - 1))) by lia. }
  rewrite (bind_ok (gets node_fuel) _ s (node_fuel s) s eq_refl).
  assert (Hlp : live s dir) by by exists n.
  apply Hw; [by eapply vi_children|intros c Hc; by eapply vi_member|by eapply children_bound|done].
Qed.
End lookup.


Lemma vfs_readdir_correct_witness :
  ∃ C ms, vfs_inv demo_vfs C ms ∧ vfs_readdir (Some demo_root) 1 demo_vfs = Ok (C demo_root !! 1%nat, demo_vfs).
Proof.
  destruct demo_vfs_inv as (C & ms & Hi). exists C, ms. destruct demo_root_node as (n & Hn & (Ht & _) & _).
  split; [exact Hi|]. pose proof (vfs_readdir_correct demo_vfs C ms demo_root n 1 Hi Hn ltac:(lia)) as E.
  rewrite Ht in E. exact E.
Defined.

(** ** Directory creation *)

Section mkdir.
Context {H PA : Type} `{!KernelHeap H} `{!PageAllocator PA}.
Implicit Types (s : vfs H PA) (C : Z → list Z) (ms : list Z).

(** What a call of [vfs_mkdir] did. *)
Definition mkdir_post s C ms (parent : Z) (np : VfsNode) (name : string) (r : option Z) s' : Prop :=
  if bool_decide (n_type np = DIRECTORY) && negb (taken s C parent np name) then
    r = None ∧ vfs_inv s' C ms ∧ v_nodes s' = v_nodes s ∨
    ∃ d, r = Some d ∧ v_nodes s !! d = None ∧ v_nodes s' = mkdir_nodes s parent np d name ∧
      vfs_inv s' (<[parent := d :: C parent]> (<[d := []]> C)) ms
  else r = None ∧ s' = s.

Lemma mkdir_post_wp s C ms parent np name :
  vfs_inv s C ms → v_nodes s !! parent = Some np → c_str name →
  wp (mkdir_in parent name) (mkdir_post s C ms parent np name) s.
Proof.
  intros Hi Hn Hname. unfold mkdir_post. eapply mkdir_in_wp; [exact Hi|exact Hn|done| |].
  - intros [Ht|Ht]; [by rewrite bool_decide_false|]. rewrite Ht, andb_false_r. done.
  - intros Ht Hk. rewrite bool_decide_true, Hk by done. split.
    + intros h Hh. by left.
    + intros d h Hd Hi'. right. by exists d.
Qed.

(** [vfs_mkdir] on every branch.  A parent that is not a directory, or that
    already has an entry of that name, gives null and no change; when the heap
    is exhausted the result is null and the tree is as before; otherwise a
    fresh node, with the parent's operations, becomes the first child, the
    other nodes are untouched and the tree stays well formed. *)
Theorem vfs_mkdir_correct s C ms parent np name :
  vfs_inv s C ms → v_nodes s !! parent = Some np → c_str name →
  ∃ r s', vfs_mkdir (Some parent) (Some name) s = Ok (r, s') ∧ mkdir_post s C ms parent np name r s'.
Proof. intros Hi Hn Hname. by apply wp_ok, mkdir_post_wp. Qed.

(** *** The new entry is found *)

Lemma made_name parent np name : (str_len name < NAME_SIZE)%nat → n_name (made_dir parent np name) = name.
Proof. intros Hl. apply (str_cpy_short (NAME_SIZE - 1)). unfold NAME_SIZE in *. lia. Qed.

Lemma mkdir_lookup s C ms parent np d name name' s' :
  vfs_inv s C ms → v_nodes s !! parent = Some np → v_nodes s !! d = None → (str_len name < NAME_SIZE)%nat →
  v_nodes s' = mkdir_nodes s parent np d name →
  lookup_child s' (d :: C parent) name' = if decide (name' = name) then Some d else lookup_child s (C parent) name'.
Proof.
  intros Hi Hn Hd Hl E. assert (Hne : parent ≠ d) by congruence. unfold lookup_child. cbn [list_find]. rewrite E.
  assert (mkdir_nodes s parent np d name !! d = Some (made_dir parent np name)) as ->
    by (unfold mkdir_nodes; rewrite lookup_insert_ne, lookup_insert_eq by done; done).
  cbn [fmap option_fmap option_map].
  rewrite made_name by done. destruct (decide (name' = name)) as [->|Hnn]; [by rewrite decide_True|].
  rewrite decide_False by congruence.
  assert (Hext : ∀ l, (∀ c, c ∈ l → live s c) →
    list_find (λ c, n_name <$> mkdir_nodes s parent np d name !! c = Some name') l =
    list_find (λ c, n_name <$> v_nodes s !! c = Some name') l).
  { induction l as [|c l IH]; intros Hlive; [done|]. cbn [list_find]. rewrite IH by set_solver.
    destruct (Hlive c) as [nc Hnc]; [set_solver|]. assert (c ≠ d) by congruence. unfold mkdir_nodes.
    destruct (decide (c = parent)) as [->|].
    - rewrite lookup_insert_eq, Hnc. assert (nc = np) as -> by congruence. done.
    - by rewrite !lookup_insert_ne. }
  rewrite Hext; [destruct (list_find _ _) as [[??]|]; done|].
  intros c Hc. eapply vi_member; [exact Hi|by exists np|done].
Qed.

(** What [vfs_mkdir] made is found again: looking the name up in the parent
    gives the new directory, every other name gives what it gave before, and
    making the same directory a second time is refused.  (The name must fit the
    node's buffer and be neither of the dot entries.) *)
Theorem vfs_mkdir_roundtrip s C ms parent np name d s' :
  vfs_inv s C ms → v_nodes s !! parent = Some np → is_dir_ops (n_ops np) = true → c_str name →
  (str_len name < NAME_SIZE)%nat → name ≠ "." → name ≠ ".." →
  vfs_mkdir (Some parent) (Some name) s = Ok (Some d, s') →
  dir_open parent name s' = Ok (Some d, s') ∧
  vfs_mkdir (Some parent) (Some name) s' = Ok (None, s') ∧
  ∀ name', c_str name' → name' ≠ name → ∃ r, dir_open parent name' s = Ok (r, s) ∧ dir_open parent name' s' = Ok (r, s').
Proof.
  intros Hi Hn Hops Hname Hl Hd1 Hd2 Hrun.
  pose proof (wp_result _ _ _ _ _ (mkdir_post_wp s C ms parent np name Hi Hn Hname) Hrun) as Hpost.
  unfold mkdir_post in Hpost. destruct (bool_decide _ && _) eqn:Eb; [|by destruct Hpost].
  destruct Hpost as [[? _]|(d' & [= <-] & Hd & En & Hi')]; [done|].
  set (C' := <[parent := d :: C parent]> (<[d := []]> C)) in Hi'.
  assert (Hn' : v_nodes s' !! parent = Some (set_n_children (Some d) np))
    by (rewrite En; apply lookup_insert_eq).
  assert (Hopen : ∀ name', c_str name' → dir_open parent name' s' = Ok (abs_open s' C' parent name', s')).
  { intros name' Hc. pose proof (dir_open_wp s' C' ms parent name' (λ r s2, r = abs_open s' C' parent name' ∧ s2 = s')
      Hi' ltac:(eexists; exact Hn') Hc (conj eq_refl eq_refl)) as (r & s2 & E & -> & ->)%wp_ok. done. }
  assert (Hold : ∀ name', c_str name' → dir_open parent name' s = Ok (abs_open s C parent name', s)).
  { intros name' Hc. pose proof (dir_open_wp s C ms parent name' (λ r s2, r = abs_open s C parent name' ∧ s2 = s)
      Hi ltac:(eexists; exact Hn) Hc (conj eq_refl eq_refl)) as (r & s2 & E & -> & ->)%wp_ok. done. }
  assert (Hab : ∀ name', abs_open s' C' parent name' =
    if decide (name' = name) then Some d else abs_open s C parent name').
  { intros name'. unfold abs_open. rewrite Hn', Hn. cbn. unfold C'. rewrite fn_lookup_insert.
    rewrite (mkdir_lookup s C ms parent np d name) by done.
    destruct (decide (name' = ".")) as [->|]; [by rewrite decide_False by congruence|].
    destruct (decide (name' = "..")) as [->|]; [by rewrite decide_False by congruence|]. done. }
  split_and!.
  - rewrite Hopen, Hab by done. by rewrite decide_True.
  - pose proof (mkdir_post_wp s' C' ms parent _ name Hi' Hn' Hname) as (r & s2 & E & Hp)%wp_ok.
    simpl. rewrite E. unfold mkdir_post, taken in Hp. cbn in Hp. rewrite Hops, Hab, decide_True in Hp by done.
    rewrite (bool_decide_true (is_Some (Some d))) in Hp by eauto. rewrite andb_false_r in Hp. by destruct Hp as [-> ->].
  - intros name' Hc Hne. eexists. split; [by apply Hold|]. rewrite Hopen, Hab by done. by rewrite decide_False.
Qed.
End mkdir.

Definition demo_mkdir : vfs bump pmm := final_state (vfs_mkdir (Some demo_root) (Some "tmp")) demo_vfs.

Lemma vfs_mkdir_correct_witness :
  ∃ C ms np r s', v_nodes demo_vfs !! demo_root = Some np ∧
    vfs_mkdir (Some demo_root) (Some "tmp") demo_vfs = Ok (r, s') ∧ mkdir_post demo_vfs C ms demo_root np "tmp" r s'.
Proof.
  destruct demo_vfs_inv as (C & ms & Hi), demo_root_node as (n & Hn & _).
  destruct (vfs_mkdir_correct demo_vfs C ms demo_root n "tmp" Hi Hn) as (r & s' & Hr & Hp).
  { vm_compute. repeat split; discriminate. }
  exists C, ms, n, r, s'. split; [exact Hn|]. split; [exact Hr|exact Hp].
Defined.

Lemma vfs_mkdir_roundtrip_witness :
  dir_open demo_root "tmp" demo_mkdir = Ok (Some 0x1910, demo_mkdir) ∧
  vfs_mkdir (Some demo_root) (Some "tmp") demo_mkdir = Ok (None, demo_mkdir).
Proof.
  destruct demo_vfs_inv as (C & ms & Hi), demo_root_node as (n & Hn & (_ & Ho & _) & _).
  destruct (vfs_mkdir_roundtrip demo_vfs C ms demo_root n "tmp" 0x1910 demo_mkdir Hi Hn) as (H1 & H2 & _).
  - rewrite Ho. reflexivity.
  - vm_compute. repeat split; discriminate.
  - unfold NAME_SIZE. simpl. lia.
  - discriminate.
  - discriminate.
  - vm_compute. reflexivity.
  - split; [exact H1|exact H2].
Defined.

(** ** Initialisation *)

(** [vfs_init] leaves a well-formed tree, also when the heap runs out half
    way: it returns, every link leads to a live node, and the root, when there
    is one, is a directory that is its own parent. *)
Theorem vfs_init_correct {H PA} `{!KernelHeap H} `{!PageAllocator PA} (h : H) (pa : PA) mem L :
  kh_inv h L → ∃ s, vfs_init (vfs_boot h pa mem) = Ok ((), s) ∧ init_post s.
Proof. intros Hh. pose proof (vfs_init_wp h pa mem L Hh) as ([] & s & Hs & Hp)%wp_ok. eauto. Qed.

Lemma vfs_init_correct_witness :
  ∃ s, vfs_init (vfs_boot (mkBump 0x1000 0x1300) small_pmm (λ _, 0)) = Ok ((), s) ∧ init_post s.
Proof. apply (vfs_init_correct _ _ _ ∅). split; [simpl; lia|]. set_solver. Defined.

(** ** File contents *)

Section contents.
Context {H PA : Type} `{!KernelHeap H} `{!PageAllocator PA}.
Implicit Types (s : vfs H PA) (l bytes : list Z).

(** A write that took place. *)
Definition written s (node : Z) l off size bytes s' : Prop :=
  file_view s' node (abs_write l off size bytes) ∧ file_frame s node s' ∧
  ∃ base, page_at s' node = Some base ∧ (∀ b, page_at s node = Some b → b = base) ∧ mem_frame s s' base.


(** What was written is read back.  After a write of [size] bytes that
    fits the page and had a page, a read at the same offset returns these
    bytes; reads before it return what they returned before. *)
Theorem tmpfs_write_read s F A node l off size bytes r s' :
  file_view s node l → pa_inv (v_pages s) F A → is_Some (page_at s node) →
  0 ≤ off → 0 ≤ size ≤ Z.of_nat (length bytes) → off + size ≤ PAGE_SIZE →
  tmpfs_file_write (Some node) off size (Some bytes) s = Ok (r, s') →
  r = size ∧
  tmpfs_file_read (Some node) off size (Some (Z.to_nat size)) s' = Ok ((size, take (Z.to_nat size) bytes), s') ∧
  ∀ o k, 0 ≤ o → 0 ≤ k → o + k ≤ off `min` Z.of_nat (length l) →
    ∃ x, tmpfs_file_read (Some node) o k (Some (Z.to_nat k)) s = Ok (x, s) ∧
         tmpfs_file_read (Some node) o k (Some (Z.to_nat k)) s' = Ok (x, s').
Proof.
  intros Hv Hpa [base Hb] Hoff Hsize Hend Hrun.
  pose proof (file_write_wp s F A node l off size bytes
    (λ r s', r = clip off size ∧ file_view s' node (abs_write l off size bytes)) Hv Hpa) as Hw.
  assert (Hpost : r = clip off size ∧ file_view s' node (abs_write l off size bytes)).
  { refine (wp_result _ _ _ _ _ (Hw _ _ _ _ _) Hrun); unfold PAGE_SIZE in *; try lia; [|by intros].
    intros pa Hn. congruence. }
  assert (Hk : clip off size = size) by (unfold clip; lia). unfold abs_write in Hpost. rewrite Hk in Hpost.
  destruct Hpost as [-> Hv']. set (data := take (Z.to_nat size) bytes) in *.
  assert (Hdl : length data = Z.to_nat size) by (unfold data; rewrite length_take; lia).
  assert (Hread : ∀ s l o k, file_view s node l → 0 ≤ o → 0 ≤ k →
    tmpfs_file_read (Some node) o k (Some (Z.to_nat k)) s = Ok ((Z.of_nat (length (abs_read l o k)), abs_read l o k), s)).
  { intros s0 l0 o k Hv0 Ho Hk0.
    pose proof (file_read_wp s0 node l0 o k (Z.to_nat k) (λ x s2, x = (Z.of_nat (length (abs_read l0 o k)), abs_read l0 o k) ∧ s2 = s0)
      Hv0 Ho Hk0 ltac:(lia) (conj eq_refl eq_refl)) as (x & s2 & E & -> & ->)%wp_ok. done. }
  split; [done|]. split.
  - rewrite (Hread s' _ off size Hv') by lia. unfold abs_read.
    rewrite <-Hdl, overlay_read, Hdl, Z2Nat.id by lia. done.
  - intros o k Ho Hk0 Hle. exists (Z.of_nat (length (abs_read l o k)), abs_read l o k).
    split; [by apply Hread|]. rewrite (Hread s' _ o k Hv') by lia.
    assert (abs_read (overlay l (Z.to_nat off) data) o k = abs_read l o k) as ->; [|done].
    unfold abs_read, overlay. rewrite !take_drop_commute. f_equal.
    rewrite take_app_le by (rewrite length_take, length_app, length_replicate; lia).
    rewrite take_take, Nat.min_l by lia. by rewrite take_app_le by lia.
Qed.

(** A write past the end of the page leaves the page: for an offset above
    4096 (and no wrap of the end) the gap is filled with zeros up to the
    offset, beyond the one page a file owns. *)
Theorem tmpfs_write_past_page_undefined s node n base l off size bytes :
  v_nodes s !! node = Some n → n_private_data n = Some base → file_view s node l →
  PAGE_SIZE < off → 0 ≤ size → off + size < 2 ^ 64 →
  tmpfs_file_write (Some node) off size (Some bytes) s = UB.
Proof.
  intros Hn Hb (n0 & Hn0 & Hsz & Hl & _) Hoff Hsize Hov. assert (n0 = n) as -> by congruence.
  assert (Hstore : ∀ k o s, 0 ≤ o ≤ PAGE_SIZE → PAGE_SIZE < o + Z.of_nat k → store_bytes base o (replicate k 0) s = UB).
  { induction k as [|k IH]; intros o s0 Ho Hk; [lia|]. cbn [replicate store_bytes]. unfold store_byte.
    destruct ((0 <=? o) && (o <? PAGE_SIZE)) eqn:E; [|done].
    apply andb_prop in E as [_ E%Z.ltb_lt]. unfold mbind at 1, M_bind, modify. apply IH; lia. }
  assert (Hr : read_node node s = Ok (n, s)) by (unfold read_node, mbind, M_bind, get; simpl; by rewrite Hn).
  unfold tmpfs_file_write, file_page. unfold mbind, M_bind. rewrite Hr, Hb. cbn. unfold file_put, mbind, M_bind.
  rewrite Hr. unfold when. rewrite Hsz. destruct (Z.ltb_spec (Z.of_nat (length l)) off); [|lia].
  rewrite Hstore by lia. done.
Qed.
End contents.

(** A file node, as the self-test of the source makes one. *)
Definition make_file {H PA} `{!KernelHeap H} (name : string) : M (vfs H PA) () :=
  p ← create_node name FILE;
  match p with
  | None => mret ()
  | Some p => write_node p (set_n_ops (Some kTmpFileOps))
  end.

Lemma make_file_inv {H PA} `{!KernelHeap H} `{!PageAllocator PA} (s : vfs H PA) C ms name :
  vfs_inv s C ms → c_str name → ∃ C ms, vfs_inv (final_state (make_file name) s) C ms.
Proof.
  intros Hi Hc. assert (Hw : wp (make_file name) (λ _ s', ∃ C ms, vfs_inv s' C ms) s).
  { unfold make_file. apply wp_bind. eapply create_node_wp; [exact Hi|done|intros h Hh; apply wp_ret; eauto|].
    intros p h Hp Hi'. eapply wp_write_node; [apply lookup_insert_eq|]. eexists _, _.
    apply (vfs_inv_write _ _ _ p _ (set_n_ops (Some kTmpFileOps)) Hi'); [apply lookup_insert_eq|done..]. }
  unfold final_state, wp in *. by destruct (make_file name s) as [[? ?]| |].
Qed.

Definition demo_node : Z := 0x1910.
Definition demo_file : vfs bump pmm := final_state (make_file "data") demo_vfs.
Definition demo_written : vfs bump pmm :=
  final_state (tmpfs_file_write (Some demo_node) 2 3 (Some [10; 20; 30; 40])) demo_file.

Lemma demo_file_inv : ∃ C ms, vfs_inv demo_file C ms.
Proof.
  destruct demo_vfs_inv as (C & ms & Hi). apply (make_file_inv demo_vfs C ms "data" Hi).
  vm_compute. repeat split; discriminate.
Qed.

Lemma demo_file_view : file_view demo_file demo_node [].
Proof. eexists. split; [vm_compute; reflexivity|]. done. Qed.

Lemma demo_pages_inv (s : vfs bump pmm) : v_pages s = small_pmm → ∃ F, pa_inv (v_pages s) F [].
Proof. intros ->. destruct small_pmm_inv as [L HL]. eexists. exists L. by split. Qed.


(** The contents after the first write: two zeros, then the data. *)
Lemma demo_written_view : file_view demo_written demo_node [0; 0; 10; 20; 30].
Proof.
  eexists. split; [vm_compute; reflexivity|]. split; [vm_compute; reflexivity|]. split; [vm_compute; discriminate|].
  cbn [n_private_data]. intros i Hi. cbn [length] in Hi. do 5 (destruct i as [|i]; [vm_compute; reflexivity|]). lia.
Qed.

Lemma demo_written_pages : ∃ F A, pa_inv (v_pages demo_written) F A.
Proof.
  destruct (demo_pages_inv demo_file) as [F HF]; [vm_compute; reflexivity|].
  pose proof (pa_alloc_spec (v_pages demo_file) F [] 1 HF ltac:(lia)) as Hw.
  assert (E : match pa_alloc 1 (v_pages demo_file) with Ok (r, p) => r ≠ 0 ∧ v_pages demo_written = p | _ => False end)
    by (vm_compute; split; [discriminate|reflexivity]).
  unfold wp in Hw. destruct (pa_alloc 1 (v_pages demo_file)) as [[r p]| |]; [|done..].
  destruct E as [Hr ->]. destruct Hw as [[[-> _]|(q & o & _ & _ & _ & Hi)] _]; [done|]. eauto.
Qed.

Lemma tmpfs_write_read_witness :
  ∃ s', tmpfs_file_write (Some demo_node) 3 2 (Some [7; 8]) demo_written = Ok (2, s') ∧
    tmpfs_file_read (Some demo_node) 3 2 (Some 2%nat) s' = Ok ((2, [7; 8]), s').
Proof.
  destruct demo_written_pages as (F & A & HF).
  set (s' := final_state (tmpfs_file_write (Some demo_node) 3 2 (Some [7; 8])) demo_written).
  assert (Hrun : tmpfs_file_write (Some demo_node) 3 2 (Some [7; 8]) demo_written = Ok (2, s')) by (vm_compute; reflexivity).
  exists s'. split; [exact Hrun|].
  destruct (tmpfs_write_read demo_written F A demo_node _ 3 2 [7; 8] 2 s' demo_written_view HF) as (_ & Hr & _);
    [vm_compute; eauto|lia|simpl; lia|unfold PAGE_SIZE; lia|exact Hrun|exact Hr].
Defined.

Lemma tmpfs_write_past_page_witness :
  tmpfs_file_write (Some demo_node) 5000 1 (Some [7]) demo_written = UB.
Proof.
  eapply (tmpfs_write_past_page_undefined demo_written demo_node _ _ _ 5000 1 [7]);
    [vm_compute; reflexivity|vm_compute; reflexivity|exact demo_written_view|unfold PAGE_SIZE; lia|lia|lia].
Defined.

(** ** Where the code departs from its documentation and tests *)

(** ".." out of a mounted directory leads to the covered mount point, not
    to the directory that contains it: opening "/dev/.." gives the hidden
    [dev] node, whose own ".." is the root, and through it the devices cannot
    be reached, although the root resolves them. *)
Theorem dotdot_at_mount :
  ∃ covered, vfs_open (Some "/dev/..") demo_vfs = Ok (Some covered, demo_vfs) ∧ covered ≠ demo_root ∧
    vfs_open (Some "/dev/../..") demo_vfs = Ok (Some demo_root, demo_vfs) ∧
    vfs_open (Some "/dev/../dev/null") demo_vfs = Ok (None, demo_vfs) ∧
    ∃ null, vfs_open (Some "/dev/null") demo_vfs = Ok (Some null, demo_vfs).
Proof. eexists. do 4 (split; [by vm_compute|]). eexists. by vm_compute. Qed.

(** A name longer than the node's buffer is stored truncated, so that it is
    never found again and the same directory can be made twice. *)
Definition long_name : string := String.concat EmptyString (replicate 300 "a").

Lemma long_name_twice :
  ∃ d d' s s', vfs_mkdir (Some demo_root) (Some long_name) demo_vfs = Ok (Some d, s) ∧
    vfs_mkdir (Some demo_root) (Some long_name) s = Ok (Some d', s') ∧ d ≠ d' ∧
    n_name <$> v_nodes s' !! d = n_name <$> v_nodes s' !! d'.
Proof.
  exists 0x1910, (0x1910 + 328). set (s := final_state (vfs_mkdir (Some demo_root) (Some long_name)) demo_vfs).
  exists s. exists (final_state (vfs_mkdir (Some demo_root) (Some long_name)) s).
  split; [by vm_compute|]. split; [by vm_compute|]. split; [done|]. by vm_compute.
Qed.

(** A write to the console sends the buffer up to its terminator, whatever
    [size] says, and reports [size]; a buffer without a terminator is read past
    its end, even when [size] is its length. *)
Lemma console_write_ignores_size {H PA} (s : vfs H PA) size bytes :
  size ≠ 0 →
  dev_console_write size (Some bytes) s =
    match c_string bytes with
    | Some str => Ok (size, set_v_serial (v_serial s ++ str) s)
    | None => UB
    end.
Proof. intros Hs. unfold dev_console_write. destruct (Z.eqb_spec size 0); [done|]. by destruct (c_string bytes). Qed.

Lemma console_write_ignores_size_witness :
  dev_console_write 2 (Some [72; 105]) demo_vfs = UB ∧
  dev_console_write 1 (Some [72; 105; 0]) demo_vfs = Ok (1, set_v_serial (v_serial demo_vfs ++ [72; 105]) demo_vfs).
Proof.
  split; [apply (console_write_ignores_size demo_vfs 2 [72; 105]); discriminate|].
  apply (console_write_ignores_size demo_vfs 1 [72; 105; 0]); discriminate.
Defined.
