(* ===== verification/Net.v ===== *)
(** * The network stack

    Model of src/kernel/net.cpp: Ethernet, ARP, IPv4, ICMP, UDP, the TCP stub,
    the DHCP client and the socket calls.  A pointer into a packet is the list
    of the bytes from there to the end of the buffer; a length is a separate
    64-bit number, as in the code, and an access past the end of the list is
    undefined.  An [ipv4_t] is the number a little-endian load of the four
    address bytes gives.  The Ethernet driver (eth.cpp) is the class
    [EthLayer]; log lines are left out. *)

From S2P Require Import Prelude Bytes.
Open Scope Z_scope.

(** ** The driver below *)

Class EthLayer (N : Type) := {
  eth_transmit : list Z → M N bool;
  eth_get_mac : N → list Z;
  eth_transmit_returns frame n : ∃ b n', eth_transmit frame n = Ok (b, n') ∧ eth_get_mac n' = eth_get_mac n;
  eth_mac_length n : length (eth_get_mac n) = 6%nat;
  eth_mac_bytes n : bytes_ok (eth_get_mac n)
}.

(** ** Constants *)

Definition ETHERTYPE_ARP : Z := 0x0806.
Definition ETHERTYPE_IPV4 : Z := 0x0800.
Definition ARP_HTYPE_ETH : Z := 0x0001.
Definition ARP_PTYPE_IP : Z := 0x0800.
Definition ARP_HLEN_ETH : Z := 6.
Definition ARP_PLEN_IP : Z := 4.
Definition ARP_OP_REQUEST : Z := 0x0001.
Definition ARP_OP_REPLY : Z := 0x0002.
Definition IPPROTO_ICMP : Z := 1.
Definition IPPROTO_TCP : Z := 6.
Definition IPPROTO_UDP : Z := 17.
Definition ICMP_ECHO_REPLY : Z := 0.
Definition ICMP_ECHO_REQUEST : Z := 8.
Definition MAX_UDP_SOCKETS : nat := 16.
Definition MAX_TCP_SOCKETS : nat := 16.
Definition ARP_CACHE_SIZE : nat := 16.
Definition RX_SIZE : nat := 2048.
Definition IP_BROADCAST : Z := 0xFFFFFFFF.
Definition DHCP_SERVER_PORT : Z := 67.
Definition DHCP_CLIENT_PORT : Z := 68.
Definition DHCP_MAGIC_COOKIE : Z := 0x63825363.
Definition DHCP_OPT_PAD : Z := 0.
Definition DHCP_OPT_MSG_TYPE : Z := 53.
Definition DHCP_OPT_SERVER_ID : Z := 54.
Definition DHCP_OPT_REQ_IP : Z := 50.
Definition DHCP_OPT_END : Z := 255.
Definition DHCP_DISCOVER : Z := 1.
Definition DHCP_OFFER : Z := 2.
Definition DHCP_REQUEST : Z := 3.
Definition DHCP_ACK : Z := 5.
Definition DHCP_NAK : Z := 6.

(** ** Headers

    The packed structs, their bytes, and what a cast of a byte pointer reads. *)

Record EthHeader := mkEth { eth_dst : list Z; eth_src : list Z; eth_type : Z }.
Definition eth_bytes (h : EthHeader) : list Z := eth_dst h ++ eth_src h ++ le_bytes 2 (eth_type h).
Definition sizeof_EthHeader : nat := 14.
Definition eth_read (d : list Z) : option EthHeader :=
  dst ← slice d 0 6; src ← slice d 6 6; type ← get16 d 12; Some (mkEth dst src type).

Record ArpPacket := mkArp {
  arp_htype : Z; arp_ptype : Z; arp_hlen : Z; arp_plen : Z; arp_oper : Z;
  arp_sha : list Z; arp_spa : list Z; arp_tha : list Z; arp_tpa : list Z
}.
Definition arp_bytes (a : ArpPacket) : list Z :=
  le_bytes 2 (arp_htype a) ++ le_bytes 2 (arp_ptype a) ++ [arp_hlen a; arp_plen a] ++ le_bytes 2 (arp_oper a) ++
  arp_sha a ++ arp_spa a ++ arp_tha a ++ arp_tpa a.
Definition sizeof_ArpPacket : nat := 28.
Definition arp_read (d : list Z) : option ArpPacket :=
  htype ← get16 d 0; ptype ← get16 d 2; hlen ← get8 d 4; plen ← get8 d 5; oper ← get16 d 6;
  sha ← slice d 8 6; spa ← slice d 14 4; tha ← slice d 18 6; tpa ← slice d 24 4;
  Some (mkArp htype ptype hlen plen oper sha spa tha tpa).

Record Ipv4Header := mkIp {
  ip_ver_ihl : Z; ip_dscp_ecn : Z; ip_total_length : Z; ip_identification : Z; ip_flags_frag_offset : Z;
  ip_ttl : Z; ip_protocol : Z; ip_header_checksum : Z; ip_src : list Z; ip_dst : list Z
}.
Definition ip_bytes (h : Ipv4Header) : list Z :=
  [ip_ver_ihl h; ip_dscp_ecn h] ++ le_bytes 2 (ip_total_length h) ++ le_bytes 2 (ip_identification h) ++
  le_bytes 2 (ip_flags_frag_offset h) ++ [ip_ttl h; ip_protocol h] ++ le_bytes 2 (ip_header_checksum h) ++
  ip_src h ++ ip_dst h.
Definition sizeof_Ipv4Header : nat := 20.
Definition ip_read (d : list Z) : option Ipv4Header :=
  ver_ihl ← get8 d 0; dscp_ecn ← get8 d 1; total_length ← get16 d 2; identification ← get16 d 4;
  flags ← get16 d 6; ttl ← get8 d 8; protocol ← get8 d 9; cksum ← get16 d 10; src ← slice d 12 4; dst ← slice d 16 4;
  Some (mkIp ver_ihl dscp_ecn total_length identification flags ttl protocol cksum src dst).
Definition set_ip_header_checksum (v : Z) (h : Ipv4Header) : Ipv4Header :=
  mkIp (ip_ver_ihl h) (ip_dscp_ecn h) (ip_total_length h) (ip_identification h) (ip_flags_frag_offset h) (ip_ttl h)
    (ip_protocol h) v (ip_src h) (ip_dst h).

Record IcmpHeader := mkIcmp {
  icmp_type : Z; icmp_code : Z; icmp_checksum : Z; icmp_identifier : Z; icmp_sequence : Z
}.
Definition icmp_bytes (h : IcmpHeader) : list Z :=
  [icmp_type h; icmp_code h] ++ le_bytes 2 (icmp_checksum h) ++ le_bytes 2 (icmp_identifier h) ++
  le_bytes 2 (icmp_sequence h).
Definition sizeof_IcmpHeader : nat := 8.
Definition icmp_read (d : list Z) : option IcmpHeader :=
  type ← get8 d 0; code ← get8 d 1; cksum ← get16 d 2; identifier ← get16 d 4; sequence ← get16 d 6;
  Some (mkIcmp type code cksum identifier sequence).

Record UdpHeader := mkUdp { udp_src_port : Z; udp_dst_port : Z; udp_length : Z; udp_cksum : Z }.
Definition udp_bytes (h : UdpHeader) : list Z :=
  le_bytes 2 (udp_src_port h) ++ le_bytes 2 (udp_dst_port h) ++ le_bytes 2 (udp_length h) ++ le_bytes 2 (udp_cksum h).
Definition sizeof_UdpHeader : nat := 8.
Definition udp_read (d : list Z) : option UdpHeader :=
  src ← get16 d 0; dst ← get16 d 2; length ← get16 d 4; cksum ← get16 d 6; Some (mkUdp src dst length cksum).

Record TcpHeader := mkTcp {
  tcp_src_port : Z; tcp_dst_port : Z; tcp_seq_number : Z; tcp_ack_number : Z; tcp_data_offset_flags : Z;
  tcp_window_size : Z; tcp_checksum : Z; tcp_urgent_pointer : Z
}.
Definition sizeof_TcpHeader : nat := 20.
Definition tcp_read (d : list Z) : option TcpHeader :=
  src ← get16 d 0; dst ← get16 d 2; seq ← get32 d 4; ack ← get32 d 8; flags ← get16 d 12; window ← get16 d 14;
  cksum ← get16 d 16; urgent ← get16 d 18; Some (mkTcp src dst seq ack flags window cksum urgent).

Record DhcpPacket := mkDhcp {
  dhcp_op : Z; dhcp_htype : Z; dhcp_hlen : Z; dhcp_hops : Z; dhcp_xid : Z; dhcp_secs : Z; dhcp_flags : Z;
  dhcp_ciaddr : list Z; dhcp_yiaddr : list Z; dhcp_siaddr : list Z; dhcp_giaddr : list Z; dhcp_chaddr : list Z;
  dhcp_sname : list Z; dhcp_boot_file : list Z; dhcp_magic : Z
}.
Definition dhcp_bytes (p : DhcpPacket) : list Z :=
  [dhcp_op p; dhcp_htype p; dhcp_hlen p; dhcp_hops p] ++ le_bytes 4 (dhcp_xid p) ++ le_bytes 2 (dhcp_secs p) ++
  le_bytes 2 (dhcp_flags p) ++ dhcp_ciaddr p ++ dhcp_yiaddr p ++ dhcp_siaddr p ++ dhcp_giaddr p ++ dhcp_chaddr p ++
  dhcp_sname p ++ dhcp_boot_file p ++ le_bytes 4 (dhcp_magic p).
Definition sizeof_DhcpPacket : nat := 240.
Definition dhcp_read (d : list Z) : option DhcpPacket :=
  op ← get8 d 0; htype ← get8 d 1; hlen ← get8 d 2; hops ← get8 d 3; xid ← get32 d 4; secs ← get16 d 8;
  flags ← get16 d 10; ciaddr ← slice d 12 4; yiaddr ← slice d 16 4; siaddr ← slice d 20 4; giaddr ← slice d 24 4;
  chaddr ← slice d 28 16; sname ← slice d 44 64; boot_file ← slice d 108 128; magic ← get32 d 236;
  Some (mkDhcp op htype hlen hops xid secs flags ciaddr yiaddr siaddr giaddr chaddr sname boot_file magic).

(** ** State *)

Record ArpEntry := mkArpEntry { ae_ip : Z; ae_mac : list Z; ae_valid : bool }.

Inductive UdpState := UDP_FREE | UDP_BOUND | UDP_CONNECTED.
#[export] Instance UdpState_eq_dec : EqDecision UdpState.
Proof. solve_decision. Defined.

Record UdpControlBlock := mkUcb {
  u_state : UdpState; u_local_port : Z; u_remote_ip : Z; u_remote_port : Z;
  u_rx_data : list Z; u_rx_len : Z; u_rx_pending : bool
}.

Inductive TcpState :=
  | CLOSED | LISTEN | SYN_SENT | SYN_RECEIVED | ESTABLISHED | FIN_WAIT_1 | FIN_WAIT_2 | CLOSE_WAIT | CLOSING
  | LAST_ACK | TIME_WAIT.
#[export] Instance TcpState_eq_dec : EqDecision TcpState.
Proof. solve_decision. Defined.

Record TcpControlBlock := mkTcpCb {
  tc_state : TcpState; tc_local_port : Z; tc_remote_port : Z; tc_remote_ip : Z; tc_snd_nxt : Z; tc_rcv_nxt : Z
}.

Inductive DhcpClientState := DHCP_IDLE | DISCOVERING | WAITING_OFFER | REQUESTING | DHCP_BOUND.
#[export] Instance DhcpClientState_eq_dec : EqDecision DhcpClientState.
Proof. solve_decision. Defined.

Record net (N : Type) := mkNet {
  nic : N;
  g_our_mac : list Z;
  g_our_ip : Z;
  g_subnet_mask : Z;
  g_gateway_ip : Z;
  g_net_ready : bool;
  g_ip_ident : Z;
  g_arp_cache : list ArpEntry;
  g_arp_cache_next : nat;
  g_udp_sockets : list UdpControlBlock;
  g_tcp_sockets : list TcpControlBlock;
  g_dhcp_state : DhcpClientState;
  g_dhcp_xid : Z;
  g_dhcp_server_ip : Z;
  g_dhcp_offered_ip : Z
}.
Arguments mkNet {N}.
Arguments nic {N} _.
Arguments g_our_mac {N} _.
Arguments g_our_ip {N} _.
Arguments g_subnet_mask {N} _.
Arguments g_gateway_ip {N} _.
Arguments g_net_ready {N} _.
Arguments g_ip_ident {N} _.
Arguments g_arp_cache {N} _.
Arguments g_arp_cache_next {N} _.
Arguments g_udp_sockets {N} _.
Arguments g_tcp_sockets {N} _.
Arguments g_dhcp_state {N} _.
Arguments g_dhcp_xid {N} _.
Arguments g_dhcp_server_ip {N} _.
Arguments g_dhcp_offered_ip {N} _.

Definition set_nic {N} (v : N) (r : net N) : net N :=
  mkNet v (g_our_mac r) (g_our_ip r) (g_subnet_mask r) (g_gateway_ip r) (g_net_ready r) (g_ip_ident r)
    (g_arp_cache r) (g_arp_cache_next r) (g_udp_sockets r) (g_tcp_sockets r) (g_dhcp_state r) (g_dhcp_xid r)
    (g_dhcp_server_ip r) (g_dhcp_offered_ip r).
Definition set_g_our_mac {N} (v : list Z) (r : net N) : net N :=
  mkNet (nic r) v (g_our_ip r) (g_subnet_mask r) (g_gateway_ip r) (g_net_ready r) (g_ip_ident r)
    (g_arp_cache r) (g_arp_cache_next r) (g_udp_sockets r) (g_tcp_sockets r) (g_dhcp_state r) (g_dhcp_xid r)
    (g_dhcp_server_ip r) (g_dhcp_offered_ip r).
Definition set_g_our_ip {N} (v : Z) (r : net N) : net N :=
  mkNet (nic r) (g_our_mac r) v (g_subnet_mask r) (g_gateway_ip r) (g_net_ready r) (g_ip_ident r)
    (g_arp_cache r) (g_arp_cache_next r) (g_udp_sockets r) (g_tcp_sockets r) (g_dhcp_state r) (g_dhcp_xid r)
    (g_dhcp_server_ip r) (g_dhcp_offered_ip r).
Definition set_g_subnet_mask {N} (v : Z) (r : net N) : net N :=
  mkNet (nic r) (g_our_mac r) (g_our_ip r) v (g_gateway_ip r) (g_net_ready r) (g_ip_ident r) (g_arp_cache r)
    (g_arp_cache_next r) (g_udp_sockets r) (g_tcp_sockets r) (g_dhcp_state r) (g_dhcp_xid r)
    (g_dhcp_server_ip r) (g_dhcp_offered_ip r).
Definition set_g_gateway_ip {N} (v : Z) (r : net N) : net N :=
  mkNet (nic r) (g_our_mac r) (g_our_ip r) (g_subnet_mask r) v (g_net_ready r) (g_ip_ident r) (g_arp_cache r)
    (g_arp_cache_next r) (g_udp_sockets r) (g_tcp_sockets r) (g_dhcp_state r) (g_dhcp_xid r)
    (g_dhcp_server_ip r) (g_dhcp_offered_ip r).
Definition set_g_net_ready {N} (v : bool) (r : net N) : net N :=
  mkNet (nic r) (g_our_mac r) (g_our_ip r) (g_subnet_mask r) (g_gateway_ip r) v (g_ip_ident r) (g_arp_cache r)
    (g_arp_cache_next r) (g_udp_sockets r) (g_tcp_sockets r) (g_dhcp_state r) (g_dhcp_xid r)
    (g_dhcp_server_ip r) (g_dhcp_offered_ip r).
Definition set_g_ip_ident {N} (v : Z) (r : net N) : net N :=
  mkNet (nic r) (g_our_mac r) (g_our_ip r) (g_subnet_mask r) (g_gateway_ip r) (g_net_ready r) v
    (g_arp_cache r) (g_arp_cache_next r) (g_udp_sockets r) (g_tcp_sockets r) (g_dhcp_state r) (g_dhcp_xid r)
    (g_dhcp_server_ip r) (g_dhcp_offered_ip r).
Definition set_g_arp_cache {N} (v : list ArpEntry) (r : net N) : net N :=
  mkNet (nic r) (g_our_mac r) (g_our_ip r) (g_subnet_mask r) (g_gateway_ip r) (g_net_ready r) (g_ip_ident r) v
    (g_arp_cache_next r) (g_udp_sockets r) (g_tcp_sockets r) (g_dhcp_state r) (g_dhcp_xid r)
    (g_dhcp_server_ip r) (g_dhcp_offered_ip r).
Definition set_g_arp_cache_next {N} (v : nat) (r : net N) : net N :=
  mkNet (nic r) (g_our_mac r) (g_our_ip r) (g_subnet_mask r) (g_gateway_ip r) (g_net_ready r) (g_ip_ident r)
    (g_arp_cache r) v (g_udp_sockets r) (g_tcp_sockets r) (g_dhcp_state r) (g_dhcp_xid r) (g_dhcp_server_ip r)
    (g_dhcp_offered_ip r).
Definition set_g_udp_sockets {N} (v : list UdpControlBlock) (r : net N) : net N :=
  mkNet (nic r) (g_our_mac r) (g_our_ip r) (g_subnet_mask r) (g_gateway_ip r) (g_net_ready r) (g_ip_ident r)
    (g_arp_cache r) (g_arp_cache_next r) v (g_tcp_sockets r) (g_dhcp_state r) (g_dhcp_xid r)
    (g_dhcp_server_ip r) (g_dhcp_offered_ip r).
Definition set_g_tcp_sockets {N} (v : list TcpControlBlock) (r : net N) : net N :=
  mkNet (nic r) (g_our_mac r) (g_our_ip r) (g_subnet_mask r) (g_gateway_ip r) (g_net_ready r) (g_ip_ident r)
    (g_arp_cache r) (g_arp_cache_next r) (g_udp_sockets r) v (g_dhcp_state r) (g_dhcp_xid r)
    (g_dhcp_server_ip r) (g_dhcp_offered_ip r).
Definition set_g_dhcp_state {N} (v : DhcpClientState) (r : net N) : net N :=
  mkNet (nic r) (g_our_mac r) (g_our_ip r) (g_subnet_mask r) (g_gateway_ip r) (g_net_ready r) (g_ip_ident r)
    (g_arp_cache r) (g_arp_cache_next r) (g_udp_sockets r) (g_tcp_sockets r) v (g_dhcp_xid r)
    (g_dhcp_server_ip r) (g_dhcp_offered_ip r).
Definition set_g_dhcp_xid {N} (v : Z) (r : net N) : net N :=
  mkNet (nic r) (g_our_mac r) (g_our_ip r) (g_subnet_mask r) (g_gateway_ip r) (g_net_ready r) (g_ip_ident r)
    (g_arp_cache r) (g_arp_cache_next r) (g_udp_sockets r) (g_tcp_sockets r) (g_dhcp_state r) v
    (g_dhcp_server_ip r) (g_dhcp_offered_ip r).
Definition set_g_dhcp_server_ip {N} (v : Z) (r : net N) : net N :=
  mkNet (nic r) (g_our_mac r) (g_our_ip r) (g_subnet_mask r) (g_gateway_ip r) (g_net_ready r) (g_ip_ident r)
    (g_arp_cache r) (g_arp_cache_next r) (g_udp_sockets r) (g_tcp_sockets r) (g_dhcp_state r) (g_dhcp_xid r) v
    (g_dhcp_offered_ip r).
Definition set_g_dhcp_offered_ip {N} (v : Z) (r : net N) : net N :=
  mkNet (nic r) (g_our_mac r) (g_our_ip r) (g_subnet_mask r) (g_gateway_ip r) (g_net_ready r) (g_ip_ident r)
    (g_arp_cache r) (g_arp_cache_next r) (g_udp_sockets r) (g_tcp_sockets r) (g_dhcp_state r) (g_dhcp_xid r)
    (g_dhcp_server_ip r) v.

(** The statics before [net_init]: all zero. *)
Definition net_boot {N} (n : N) : net N :=
  mkNet n (replicate 6 0) 0 0 0 false 0 (replicate ARP_CACHE_SIZE (mkArpEntry 0 (replicate 6 0) false)) 0
    (replicate MAX_UDP_SOCKETS (mkUcb UDP_FREE 0 0 0 (replicate RX_SIZE 0) 0 false))
    (replicate MAX_TCP_SOCKETS (mkTcpCb CLOSED 0 0 0 0 0)) DHCP_IDLE 0 0 0.

(** ** Helpers *)

Definition ip_from_bytes (a b c d : Z) : Z :=
  htonl (Z.lor (Z.lor (Z.lor (Z.shiftl a 24) (Z.shiftl b 16)) (Z.shiftl c 8)) d).

Definition ip_to_bytes (ip : Z) : list Z :=
  let n := ntohl ip in [u8 (Z.shiftr n 24); u8 (Z.shiftr n 16); u8 (Z.shiftr n 8); u8 n].

(** The character codes of the printed address, with its terminator. *)
Definition hex_digit (n : Z) : Z := if n <? 10 then 48 + n else 55 + n.
Definition mac_to_str (mac : list Z) : list Z :=
  concat (imap (λ i b, [hex_digit (Z.land (Z.shiftr b 4) 0xF); hex_digit (Z.land b 0xF); if (i <? 5)%nat then 58 else 0]) mac).

Definition mac_broadcast : list Z := replicate 6 0xFF.
Definition is_broadcast (mac : list Z) : bool := bool_decide (mac = mac_broadcast).
Definition mac_eqb (a b : list Z) : bool := bool_decide (a = b).

(** The 32-bit sum of the big-endian words; an odd last byte is a high byte. *)
Fixpoint cksum_words (sum : Z) (data : list Z) : Z :=
  match data with
  | a :: b :: data => cksum_words (u32 (sum + ntohs (le_value [a; b]))) data
  | [a] => u32 (sum + Z.shiftl a 8)
  | [] => sum
  end.

(** [while (sum >> 16) ...]: two rounds bring any 32-bit sum below 2^16. *)
Fixpoint fold_carry (rounds : nat) (sum : Z) : Z :=
  match rounds with
  | O => sum
  | S rounds => if Z.shiftr sum 16 =? 0 then sum else fold_carry rounds (Z.land sum 0xFFFF + Z.shiftr sum 16)
  end.
Definition CARRY_ROUNDS : nat := 2.

(** [ip_checksum] of the bytes [data]. *)
Definition ip_checksum (data : list Z) : Z :=
  htons (Z.land (Z.lnot (u16 (fold_carry CARRY_ROUNDS (cksum_words 0 data)))) 0xFFFF).

(** The checksum of UDP with its pseudo-header; 0 when it does not fit the buffer. *)
Definition udp_checksum (udp_hdr : list Z) (src_ip dst_ip : Z) : Z :=
  if (12 + 512 <? 12 + length udp_hdr)%nat then 0
  else
    let pseudo := le_bytes 4 src_ip ++ le_bytes 4 dst_ip ++ [0; IPPROTO_UDP] ++
                  le_bytes 2 (htons (u16 (Z.of_nat (length udp_hdr)))) in
    let cksum := ip_checksum (pseudo ++ take 6 udp_hdr ++ [0; 0] ++ drop 8 udp_hdr) in
    if cksum =? 0 then 0xFFFF else cksum.

Section net.
Context {N : Type} `{!EthLayer N}.
Abbreviation T := (M (net N)).

Definition nic_op {A} (op : M N A) : T A := λ s,
  match op (nic s) with
  | Ok (a, n) => Ok (a, set_nic n s)
  | Panic msg => Panic msg
  | UB => UB
  end.

(** A [memcpy] of [n] bytes out of [data] at [i]. *)
Definition copy (data : list Z) (i n : nat) : T (list Z) := deref (slice data i n).

(** ** ARP cache *)

Definition arp_slot (ip : Z) (cache : list ArpEntry) : option nat :=
  fst <$> list_find (λ e, ae_valid e = true ∧ ae_ip e = ip) cache.

Definition arp_cache_insert (ip : Z) (mac : list Z) : T () :=
  s ← get;
  match arp_slot ip (g_arp_cache s) with
  | Some i => modify (set_g_arp_cache (alter (λ e, mkArpEntry (ae_ip e) mac (ae_valid e)) i (g_arp_cache s)))
  | None =>
    let i := g_arp_cache_next s in
    _ ← deref (g_arp_cache s !! i);
    modify (set_g_arp_cache (<[i := mkArpEntry ip mac true]> (g_arp_cache s)));;
    modify (set_g_arp_cache_next ((i + 1) mod ARP_CACHE_SIZE)%nat)
  end.

Definition arp_cache_lookup (ip : Z) (cache : list ArpEntry) : option (list Z) :=
  i ← arp_slot ip cache; ae_mac <$> cache !! i.

(** ** Ethernet *)

Definition eth_send (dst : list Z) (type : Z) (payload : list Z) : T bool :=
  s ← get;
  if (64 + 1514 <? sizeof_EthHeader + length payload)%nat then mret false
  else nic_op (eth_transmit (eth_bytes (mkEth dst (g_our_mac s) (htons type)) ++ payload)).

(** ** ARP *)

Definition arp_packet (oper : Z) (sha spa tha tpa : list Z) : ArpPacket :=
  mkArp (htons ARP_HTYPE_ETH) (htons ARP_PTYPE_IP) ARP_HLEN_ETH ARP_PLEN_IP (htons oper) sha spa tha tpa.

Definition arp_send_request (target_ip : Z) : T () :=
  s ← get;
  _ ← eth_send mac_broadcast ETHERTYPE_ARP
        (arp_bytes (arp_packet ARP_OP_REQUEST (g_our_mac s) (ip_to_bytes (g_our_ip s)) (replicate 6 0)
                      (ip_to_bytes target_ip)));
  mret ().

Definition arp_handle_packet (data : list Z) (len : Z) : T () :=
  if len <? Z.of_nat sizeof_ArpPacket then mret ()
  else
    arp ← deref (arp_read data);
    if negb (ntohs (arp_htype arp) =? ARP_HTYPE_ETH) || negb (ntohs (arp_ptype arp) =? ARP_PTYPE_IP) then mret ()
    else
      let sender_ip := le_value (arp_spa arp) in
      arp_cache_insert sender_ip (arp_sha arp);;
      let target_ip := le_value (arp_tpa arp) in
      s ← get;
      if (ntohs (arp_oper arp) =? ARP_OP_REQUEST) && (target_ip =? g_our_ip s) then
        _ ← eth_send (arp_sha arp) ETHERTYPE_ARP
              (arp_bytes (arp_packet ARP_OP_REPLY (g_our_mac s) (ip_to_bytes (g_our_ip s)) (arp_sha arp) (arp_spa arp)));
        mret ()
      else mret ().

(** A miss sends a request and fails: the caller retries. *)
Definition arp_resolve (ip : Z) : T (option (list Z)) :=
  s ← get;
  match arp_cache_lookup ip (g_arp_cache s) with
  | Some mac => mret (Some mac)
  | None => arp_send_request ip;; mret None
  end.

(** ** IPv4, sending *)

Definition ip_header (s : net N) (dst_ip protocol : Z) (total_len : nat) : Ipv4Header :=
  mkIp 0x45 0 (htons (u16 (Z.of_nat total_len))) (htons (g_ip_ident s)) (htons 0x4000) 64 protocol 0
    (ip_to_bytes (g_our_ip s)) (ip_to_bytes dst_ip).

Definition next_hop (s : net N) (dst_ip : Z) : Z :=
  let masked_dst := Z.land (ntohl dst_ip) (ntohl (g_subnet_mask s)) in
  let masked_our := Z.land (ntohl (g_our_ip s)) (ntohl (g_subnet_mask s)) in
  if negb (masked_dst =? masked_our) && negb (g_gateway_ip s =? 0) then g_gateway_ip s else dst_ip.

Definition ipv4_send (dst_ip protocol : Z) (payload : list Z) : T bool :=
  let total_len := (sizeof_Ipv4Header + length payload)%nat in
  if (sizeof_Ipv4Header + 1500 <? total_len)%nat then mret false
  else
    s ← get;
    let h := ip_header s dst_ip protocol total_len in
    modify (set_g_ip_ident (u16 (g_ip_ident s + 1)));;
    let h := set_ip_header_checksum (ip_checksum (ip_bytes h)) h in
    let buf := ip_bytes h ++ payload in
    if dst_ip =? IP_BROADCAST then eth_send mac_broadcast ETHERTYPE_IPV4 buf
    else
      mac ← arp_resolve (next_hop s dst_ip);
      match mac with
      | None => mret false
      | Some mac => eth_send mac ETHERTYPE_IPV4 buf
      end.

(** ** ICMP *)

Definition icmp_handle_echo (data : list Z) (len src_ip : Z) : T () :=
  if len <? Z.of_nat sizeof_IcmpHeader then mret ()
  else
    icmp ← deref (icmp_read data);
    if negb (icmp_type icmp =? ICMP_ECHO_REQUEST) then mret ()
    else
      let reply_len := if len <? 512 then len else 512 in
      reply_buf ← copy data 0 (Z.to_nat reply_len);
      let reply c := icmp_bytes (mkIcmp ICMP_ECHO_REPLY (icmp_code icmp) c (icmp_identifier icmp) (icmp_sequence icmp)) ++
                     drop sizeof_IcmpHeader reply_buf in
      _ ← ipv4_send src_ip IPPROTO_ICMP (reply (ip_checksum (reply 0)));
      mret ().

(** ** UDP sockets *)

Definition udp_find_socket (port : Z) (socks : list UdpControlBlock) : option nat :=
  fst <$> list_find (λ u, u_state u ≠ UDP_FREE ∧ u_local_port u = port) socks.

Definition udp_alloc_socket : T (option nat) :=
  s ← get;
  match list_find (λ u, u_state u = UDP_FREE) (g_udp_sockets s) with
  | Some (i, u) =>
    modify (set_g_udp_sockets (<[i := mkUcb UDP_BOUND 0 (u_remote_ip u) (u_remote_port u) (u_rx_data u) 0 false]>
      (g_udp_sockets s)));;
    mret (Some i)
  | None => mret None
  end.

(** A packet stored in a socket: the copy overwrites the start of [rx_data]. *)
Definition udp_deliver (u : UdpControlBlock) (payload : list Z) (src_port : Z) : UdpControlBlock :=
  mkUcb (u_state u) (u_local_port u) (u_remote_ip u) src_port
    (payload ++ drop (length payload) (u_rx_data u)) (Z.of_nat (length payload)) true.

Definition udp_handle_packet (data : list Z) (len : Z) : T () :=
  if len <? Z.of_nat sizeof_UdpHeader then mret ()
  else
    udp ← deref (udp_read data);
    let dst_port := ntohs (udp_dst_port udp) in
    let src_port := ntohs (udp_src_port udp) in
    let udp_len := ntohs (udp_length udp) in
    s ← get;
    match udp_find_socket dst_port (g_udp_sockets s) with
    | None => mret ()
    | Some idx =>
      sock ← deref (g_udp_sockets s !! idx);
      let payload_len := udp_len -64 Z.of_nat sizeof_UdpHeader in
      let payload_len := if Z.of_nat RX_SIZE <? payload_len then Z.of_nat RX_SIZE else payload_len in
      payload ← copy data sizeof_UdpHeader (Z.to_nat payload_len);
      modify (set_g_udp_sockets (<[idx := udp_deliver sock payload src_port]> (g_udp_sockets s)))
    end.

(** ** TCP *)

Definition tcp_find_or_alloc_socket (port : Z) : T (option nat) :=
  s ← get;
  match list_find (λ t, tc_state t ≠ CLOSED ∧ tc_local_port t = port) (g_tcp_sockets s) with
  | Some (i, _) => mret (Some i)
  | None =>
    match list_find (λ t, tc_state t = CLOSED) (g_tcp_sockets s) with
    | Some (i, t) =>
      modify (set_g_tcp_sockets (<[i := mkTcpCb CLOSED port (tc_remote_port t) (tc_remote_ip t) (tc_snd_nxt t) (tc_rcv_nxt t)]>
        (g_tcp_sockets s)));;
      mret (Some i)
    | None => mret None
    end
  end.

(** The state a segment with these flags moves a connection to. *)
Definition tcp_next (st : TcpState) (flags : Z) : TcpState :=
  match st with
  | LISTEN => if has_flag flags 0x02 then SYN_RECEIVED else LISTEN
  | SYN_SENT => if has_flag flags 0x12 then ESTABLISHED else SYN_SENT
  | ESTABLISHED => if has_flag flags 0x01 then CLOSE_WAIT else ESTABLISHED
  | st => st
  end.

Definition set_tc_state (v : TcpState) (t : TcpControlBlock) : TcpControlBlock :=
  mkTcpCb v (tc_local_port t) (tc_remote_port t) (tc_remote_ip t) (tc_snd_nxt t) (tc_rcv_nxt t).

Definition tcp_handle_packet (data : list Z) (len : Z) : T () :=
  if len <? Z.of_nat sizeof_TcpHeader then mret ()
  else
    tcp ← deref (tcp_read data);
    let dst_port := ntohs (tcp_dst_port tcp) in
    let flags := Z.land (ntohs (tcp_data_offset_flags tcp)) 0x1F in
    idx ← tcp_find_or_alloc_socket dst_port;
    match idx with
    | None => mret ()
    | Some idx =>
      s ← get;
      t ← deref (g_tcp_sockets s !! idx);
      modify (set_g_tcp_sockets (<[idx := set_tc_state (tcp_next (tc_state t) flags) t]> (g_tcp_sockets s)))
    end.

(** ** IPv4, receiving *)

(** The checksum is computed on a copy of the 20 fixed bytes; a longer header
    length reads past that copy. *)
Definition ipv4_handle_packet (data : list Z) (len : Z) : T () :=
  if len <? Z.of_nat sizeof_Ipv4Header then mret ()
  else
    ip ← deref (ip_read data);
    let ihl := Z.land (ip_ver_ihl ip) 0x0F in
    hdr ← copy (ip_bytes (set_ip_header_checksum 0 ip)) 0 (Z.to_nat (ihl * 4));
    if negb (ip_checksum hdr =? ip_header_checksum ip) then mret ()
    else
      let header_len := ihl * 4 in
      if header_len <? Z.of_nat sizeof_Ipv4Header then mret ()
      else
        let total_len := ntohs (ip_total_length ip) in
        if len <? total_len then mret ()
        else
          let src_ip := le_value (ip_src ip) in
          let dst_ip := le_value (ip_dst ip) in
          s ← get;
          if negb (dst_ip =? g_our_ip s) && negb (dst_ip =? IP_BROADCAST) &&
             negb (dst_ip =? Z.lor (g_our_ip s) (u32 (Z.lnot (g_subnet_mask s)))) then mret ()
          else
            let payload := drop (Z.to_nat header_len) data in
            let payload_len := total_len -64 header_len in
            if ip_protocol ip =? IPPROTO_ICMP then icmp_handle_echo payload payload_len src_ip
            else if ip_protocol ip =? IPPROTO_UDP then udp_handle_packet payload payload_len
            else if ip_protocol ip =? IPPROTO_TCP then tcp_handle_packet payload payload_len
            else mret ().

(** ** DHCP *)

Definition dhcp_request_packet (s : net N) : DhcpPacket :=
  mkDhcp 1 1 6 0 (htonl (g_dhcp_xid s)) 0 (htons 0x8000) (replicate 4 0) (replicate 4 0) (replicate 4 0) (replicate 4 0)
    (g_our_mac s ++ replicate 10 0) (replicate 64 0) (replicate 128 0) (htonl DHCP_MAGIC_COOKIE).

(** A datagram with a zero checksum. *)
Definition udp_datagram (src_port dst_port : Z) (payload : list Z) : list Z :=
  udp_bytes (mkUdp (htons src_port) (htons dst_port) (htons (u16 (Z.of_nat (sizeof_UdpHeader + length payload)))) 0) ++ payload.

Definition dhcp_send_discover : T () :=
  s ← get;
  let packet := dhcp_bytes (dhcp_request_packet s) ++ [DHCP_OPT_MSG_TYPE; 1; DHCP_DISCOVER; DHCP_OPT_END] in
  modify (set_g_dhcp_state WAITING_OFFER);;
  _ ← ipv4_send IP_BROADCAST IPPROTO_UDP (udp_datagram DHCP_CLIENT_PORT DHCP_SERVER_PORT packet);
  mret ().

Definition dhcp_send_request (server_ip requested_ip : Z) : T () :=
  s ← get;
  let packet := dhcp_bytes (dhcp_request_packet s) ++
    [DHCP_OPT_MSG_TYPE; 1; DHCP_REQUEST; DHCP_OPT_SERVER_ID; 4] ++ le_bytes 4 server_ip ++
    [DHCP_OPT_REQ_IP; 4] ++ le_bytes 4 requested_ip ++ [DHCP_OPT_END] in
  _ ← ipv4_send IP_BROADCAST IPPROTO_UDP (udp_datagram DHCP_CLIENT_PORT DHCP_SERVER_PORT packet);
  mret ().

(** The option loop.  [opt] is what is left up to [end]; a tag that is the last
    byte makes the length byte a read at [end], which [beyond] says can be read
    and which ends the loop.  Every round consumes a byte. *)
Fixpoint parse_options (beyond : bool) (fuel : nat) (opt : list Z) (msg_type server_id : Z) : option (Z * Z) :=
  match opt with
  | [] => Some (msg_type, server_id)
  | tag :: opt =>
    match fuel with
    | O => None
    | S fuel =>
      if tag =? DHCP_OPT_END then Some (msg_type, server_id)
      else if tag =? DHCP_OPT_PAD then parse_options beyond fuel opt msg_type server_id
      else
        match opt with
        | [] => if beyond then Some (msg_type, server_id) else None
        | olen :: opt =>
          if Z.of_nat (length opt) <? olen then Some (msg_type, server_id)
          else
            let msg_type' := if (tag =? DHCP_OPT_MSG_TYPE) && (1 <=? olen) then default 0 (opt !! 0%nat) else msg_type in
            let server_id' :=
              if (tag =? DHCP_OPT_MSG_TYPE) && (1 <=? olen) then server_id
              else if (tag =? DHCP_OPT_SERVER_ID) && (4 <=? olen) then le_value (take 4 opt) else server_id in
            parse_options beyond fuel (drop (Z.to_nat olen) opt) msg_type' server_id'
        end
    end
  end.

(** [dhcp_parse_options]: the message type and the server; the code's result is
    whether the type is not 0. *)
Definition dhcp_parse_options (data : list Z) (len : Z) : T (Z * Z) :=
  opts ← copy data 0 (Z.to_nat len);
  deref (parse_options (Z.to_nat len <? length data)%nat (length opts) opts 0 0).

(** The common part of [dhcp_handle_offer] and [dhcp_handle_ack]: the packet and
    the server, if it is a reply of type [want]. *)
Definition dhcp_reply (data : list Z) (len want : Z) : T (option (DhcpPacket * Z)) :=
  if len <? Z.of_nat sizeof_DhcpPacket then mret None
  else
    dhcp ← deref (dhcp_read data);
    if negb (ntohl (dhcp_magic dhcp) =? DHCP_MAGIC_COOKIE) then mret None
    else if negb (dhcp_op dhcp =? 2) then mret None
    else
      '(msg_type, server_id) ← dhcp_parse_options (drop sizeof_DhcpPacket data) (len - Z.of_nat sizeof_DhcpPacket);
      if (msg_type =? 0) || negb (msg_type =? want) then mret None
      else mret (Some (dhcp, server_id)).

Definition dhcp_handle_offer (data : list Z) (len : Z) : T () :=
  r ← dhcp_reply data len DHCP_OFFER;
  match r with
  | None => mret ()
  | Some (dhcp, server_id) =>
    let offered_ip := le_value (dhcp_yiaddr dhcp) in
    modify (set_g_dhcp_server_ip server_id);;
    modify (set_g_dhcp_offered_ip offered_ip);;
    modify (set_g_dhcp_state REQUESTING);;
    dhcp_send_request server_id offered_ip
  end.

Definition dhcp_handle_ack (data : list Z) (len : Z) : T () :=
  r ← dhcp_reply data len DHCP_ACK;
  match r with
  | None => mret ()
  | Some (dhcp, _) =>
    modify (set_g_our_ip (le_value (dhcp_yiaddr dhcp)));;
    modify (set_g_subnet_mask (ip_from_bytes 255 255 255 0));;
    modify (set_g_gateway_ip (ip_from_bytes 192 168 1 1));;
    modify (set_g_dhcp_state DHCP_BOUND);;
    modify (set_g_net_ready true)
  end.

Definition dhcp_dispatch (payload : list Z) (len : Z) : T () :=
  if len <? Z.of_nat sizeof_DhcpPacket then mret ()
  else
    dhcp ← deref (dhcp_read payload);
    if negb (ntohl (dhcp_magic dhcp) =? DHCP_MAGIC_COOKIE) then mret ()
    else
      '(msg_type, _) ← dhcp_parse_options (drop sizeof_DhcpPacket payload) (len - Z.of_nat sizeof_DhcpPacket);
      s ← get;
      if msg_type =? DHCP_OFFER then
        when (bool_decide (g_dhcp_state s = WAITING_OFFER)) (dhcp_handle_offer payload len)
      else if msg_type =? DHCP_ACK then
        when (bool_decide (g_dhcp_state s = REQUESTING)) (dhcp_handle_ack payload len)
      else when (msg_type =? DHCP_NAK) (modify (set_g_dhcp_state DHCP_IDLE)).

(** ** Public interface *)

Definition invalidate (e : ArpEntry) : ArpEntry := mkArpEntry (ae_ip e) (ae_mac e) false.
Definition free_ucb (u : UdpControlBlock) : UdpControlBlock :=
  mkUcb UDP_FREE (u_local_port u) (u_remote_ip u) (u_remote_port u) (u_rx_data u) (u_rx_len u) (u_rx_pending u).

(** [g_dhcp_xid] from the last four bytes of the address. *)
Definition xid_of (mac : list Z) : Z :=
  u32 (Z.lor (Z.lor (Z.lor (Z.shiftl (mac !!! 2%nat) 24) (Z.shiftl (mac !!! 3%nat) 16)) (Z.shiftl (mac !!! 4%nat) 8))
         (mac !!! 5%nat)).

Definition net_init : T () :=
  s ← get;
  let mac := eth_get_mac (nic s) in
  modify (set_g_our_mac mac);;
  modify (λ s, set_g_arp_cache (invalidate <$> g_arp_cache s) s);;
  modify (λ s, set_g_udp_sockets (free_ucb <$> g_udp_sockets s) s);;
  modify (λ s, set_g_tcp_sockets (set_tc_state CLOSED <$> g_tcp_sockets s) s);;
  modify (set_g_dhcp_xid (xid_of mac));;
  modify (set_g_dhcp_state DHCP_IDLE);;
  modify (set_g_dhcp_state DISCOVERING);;
  dhcp_send_discover.

Record NetworkBuffer := mkBuf { nb_data : option (list Z); nb_length : Z; nb_flags : Z }.

Definition net_receive (buf : option NetworkBuffer) : T () :=
  match buf with
  | Some (mkBuf (Some data) length _) =>
    if length <? Z.of_nat sizeof_EthHeader then mret ()
    else
      eth ← deref (eth_read data);
      s ← get;
      let type := ntohs (eth_type eth) in
      if negb (is_broadcast (eth_dst eth)) && negb (mac_eqb (eth_dst eth) (g_our_mac s)) then mret ()
      else
        let payload := drop sizeof_EthHeader data in
        let payload_len := length - Z.of_nat sizeof_EthHeader in
        if type =? ETHERTYPE_ARP then arp_handle_packet payload payload_len
        else if type =? ETHERTYPE_IPV4 then ipv4_handle_packet payload payload_len
        else mret ()
  | _ => mret ()
  end.

(** [sock] and [data] are null or not; [data] is what can be read from it. *)
Definition net_send (sock : bool) (data : option (list Z)) (size : Z) : T () :=
  match sock, data with
  | true, Some data =>
    if size =? 0 then mret ()
    else if Z.of_nat (sizeof_UdpHeader + RX_SIZE) <? Z.of_nat sizeof_UdpHeader +64 size then mret ()
    else
      payload ← copy data 0 (Z.to_nat size);
      s ← get;
      _ ← ipv4_send (if g_gateway_ip s =? 0 then IP_BROADCAST else g_gateway_ip s) IPPROTO_UDP
            (udp_datagram 12345 69 payload);
      mret ()
  | _, _ => mret ()
  end.

(** ** Socket calls: [-1] is the error result. *)

Definition sys_socket_create : T Z :=
  i ← udp_alloc_socket;
  mret (match i with Some i => Z.of_nat i | None => -1 end).

Definition fd_ok (fd : Z) (limit : nat) : bool := (0 <=? fd) && (fd <? Z.of_nat limit).

Definition sys_socket_bind (fd port : Z) : T Z :=
  if negb (fd_ok fd MAX_UDP_SOCKETS) then mret (-1)
  else
    s ← get;
    u ← deref (g_udp_sockets s !! Z.to_nat fd);
    if decide (u_state u = UDP_FREE) then mret (-1)
    else
      modify (set_g_udp_sockets (<[Z.to_nat fd := mkUcb UDP_BOUND port (u_remote_ip u) (u_remote_port u) (u_rx_data u)
        (u_rx_len u) (u_rx_pending u)]> (g_udp_sockets s)));;
      mret 0.

Definition sys_socket_connect (fd remote_ip remote_port : Z) : T Z :=
  if negb (fd_ok fd MAX_UDP_SOCKETS) then mret (-1)
  else
    s ← get;
    u ← deref (g_udp_sockets s !! Z.to_nat fd);
    if decide (u_state u = UDP_FREE) then mret (-1)
    else
      modify (set_g_udp_sockets (<[Z.to_nat fd := mkUcb UDP_CONNECTED (u_local_port u) remote_ip remote_port (u_rx_data u)
        (u_rx_len u) (u_rx_pending u)]> (g_udp_sockets s)));;
      mret 0.

Definition sys_socket_send (fd : Z) (data : list Z) (size : Z) : T Z :=
  if negb (fd_ok fd MAX_UDP_SOCKETS) then mret (-1)
  else
    s ← get;
    u ← deref (g_udp_sockets s !! Z.to_nat fd);
    if decide (u_state u = UDP_CONNECTED) then
      if Z.of_nat (sizeof_UdpHeader + RX_SIZE) <? Z.of_nat sizeof_UdpHeader +64 size then mret (-1)
      else
        payload ← copy data 0 (Z.to_nat size);
        ok ← ipv4_send (u_remote_ip u) IPPROTO_UDP (udp_datagram (u_local_port u) (u_remote_port u) payload);
        mret (if (ok : bool) then size else -1)
    else mret (-1).

(** The result and the bytes stored in [buffer], which holds [capacity]. *)
Definition sys_socket_recv (fd : Z) (capacity : nat) (size : Z) : T (Z * list Z) :=
  if negb (fd_ok fd MAX_UDP_SOCKETS) then mret (-1, [])
  else
    s ← get;
    u ← deref (g_udp_sockets s !! Z.to_nat fd);
    if negb (u_rx_pending u) then mret (0, [])
    else
      let n := if size <? u_rx_len u then size else u_rx_len u in
      if Z.of_nat capacity <? n then undefined
      else
        bytes ← copy (u_rx_data u) 0 (Z.to_nat n);
        modify (set_g_udp_sockets (<[Z.to_nat fd := mkUcb (u_state u) (u_local_port u) (u_remote_ip u) (u_remote_port u)
          (u_rx_data u) 0 false]> (g_udp_sockets s)));;
        mret (n, bytes).

Definition sys_socket_close (fd : Z) : T Z :=
  if negb (fd_ok fd MAX_UDP_SOCKETS) then mret (-1)
  else
    s ← get;
    u ← deref (g_udp_sockets s !! Z.to_nat fd);
    modify (set_g_udp_sockets (<[Z.to_nat fd := free_ucb u]> (g_udp_sockets s)));;
    mret 0.

Definition sys_socket_listen (fd : Z) : T Z :=
  if negb (fd_ok fd MAX_TCP_SOCKETS) then mret (-1)
  else
    s ← get;
    t ← deref (g_tcp_sockets s !! Z.to_nat fd);
    if decide (tc_state t = CLOSED) then mret (-1)
    else
      modify (set_g_tcp_sockets (<[Z.to_nat fd := set_tc_state LISTEN t]> (g_tcp_sockets s)));;
      mret 0.
End net.
