(* ===== verification/NetCodec.v ===== *)
(** * Headers and checksums

    What a cast reads back of a header that was stored, and the Internet
    checksum against its arithmetic meaning. *)

From S2P Require Import Prelude Bytes Net.
Open Scope Z_scope.

(** ** Fixed-size fields *)

Lemma mac_cases (l : list Z) : length l = 6%nat → ∃ a b c d e f, l = [a; b; c; d; e; f].
Proof. destruct l as [|a [|b [|c [|d [|e [|f [|? ?]]]]]]]; try done. intros _. by eexists _, _, _, _, _, _. Qed.

Lemma ip4_cases (l : list Z) : length l = 4%nat → ∃ a b c d, l = [a; b; c; d].
Proof. destruct l as [|a [|b [|c [|d [|? ?]]]]]; try done. intros _. by eexists _, _, _, _. Qed.

Definition u16_ok (x : Z) : Prop := 0 ≤ x < 65536.

Lemma le2 x : u16_ok x → le_value [x mod 256; (x / 256) mod 256] = x.
Proof. intros Hx. apply (le_value_bytes 2). exact Hx. Qed.

Lemma u16_ok_bswap x : u16_ok (bswap 2 x).
Proof. apply (bswap_bound 2). Qed.

Definition eth_ok (h : EthHeader) : Prop := length (eth_dst h) = 6%nat ∧ length (eth_src h) = 6%nat ∧ u16_ok (eth_type h).

Lemma eth_read_bytes h rest : eth_ok h → eth_read (eth_bytes h ++ rest) = Some h.
Proof.
  destruct h as [dst src type]. intros (Hd & Hs & Ht); simpl in *.
  apply mac_cases in Hd as (? & ? & ? & ? & ? & ? & ->), Hs as (? & ? & ? & ? & ? & ? & ->).
  unfold eth_read, eth_bytes, get16, slice. cbn -[le_value]. by rewrite le2.
Qed.

Lemma eth_bytes_length h : eth_ok h → length (eth_bytes h) = sizeof_EthHeader.
Proof. intros (Hd & Hs & _). unfold eth_bytes. rewrite !length_app, le_bytes_length, Hd, Hs. done. Qed.

Definition arp_ok (a : ArpPacket) : Prop :=
  u16_ok (arp_htype a) ∧ u16_ok (arp_ptype a) ∧ u16_ok (arp_oper a) ∧
  length (arp_sha a) = 6%nat ∧ length (arp_spa a) = 4%nat ∧ length (arp_tha a) = 6%nat ∧ length (arp_tpa a) = 4%nat.

Lemma arp_read_bytes a rest : arp_ok a → arp_read (arp_bytes a ++ rest) = Some a.
Proof.
  destruct a as [ht pt hl pl op sha spa tha tpa]. intros (H1 & H2 & H3 & Hsha & Hspa & Htha & Htpa); simpl in *.
  apply mac_cases in Hsha as (? & ? & ? & ? & ? & ? & ->), Htha as (? & ? & ? & ? & ? & ? & ->).
  apply ip4_cases in Hspa as (? & ? & ? & ? & ->), Htpa as (? & ? & ? & ? & ->).
  unfold arp_read, arp_bytes, get16, get8, slice. cbn -[le_value]. by rewrite !le2.
Qed.

Definition ip_ok (h : Ipv4Header) : Prop :=
  u16_ok (ip_total_length h) ∧ u16_ok (ip_identification h) ∧ u16_ok (ip_flags_frag_offset h) ∧
  u16_ok (ip_header_checksum h) ∧ length (ip_src h) = 4%nat ∧ length (ip_dst h) = 4%nat.

Lemma ip_read_bytes h rest : ip_ok h → ip_read (ip_bytes h ++ rest) = Some h.
Proof.
  destruct h as [vi de tl id ff ttl pr ck src dst]. intros (H1 & H2 & H3 & H4 & Hs & Hd); simpl in *.
  apply ip4_cases in Hs as (? & ? & ? & ? & ->), Hd as (? & ? & ? & ? & ->).
  unfold ip_read, ip_bytes, get16, get8, slice. cbn -[le_value]. by rewrite !le2.
Qed.

Lemma ip_bytes_length h : length (ip_src h) = 4%nat → length (ip_dst h) = 4%nat → length (ip_bytes h) = sizeof_Ipv4Header.
Proof. intros Hs Hd. unfold ip_bytes. rewrite !length_app, !le_bytes_length, Hs, Hd. done. Qed.

Definition udp_ok (h : UdpHeader) : Prop :=
  u16_ok (udp_src_port h) ∧ u16_ok (udp_dst_port h) ∧ u16_ok (udp_length h) ∧ u16_ok (udp_cksum h).

Lemma udp_read_bytes h rest : udp_ok h → udp_read (udp_bytes h ++ rest) = Some h.
Proof.
  destruct h as [sp dp len ck]. intros (H1 & H2 & H3 & H4); simpl in *.
  unfold udp_read, udp_bytes, get16, slice. cbn -[le_value]. by rewrite !le2.
Qed.

(** A read needs only the bytes of the header. *)
Lemma is_Some_bind {A B} (o : option A) (k : A → option B) : is_Some o → (∀ a, is_Some (k a)) → is_Some (o ≫= k).
Proof. intros [a ->] Hk. apply Hk. Qed.

Lemma slice_is_some d i n : (i + n ≤ length d)%nat → is_Some (slice d i n).
Proof. intros H. rewrite slice_some by done. eauto. Qed.
Lemma get8_is_some d i : (i < length d)%nat → is_Some (get8 d i).
Proof. apply lookup_lt_is_Some_2. Qed.
Lemma get16_is_some d i : (i + 2 ≤ length d)%nat → is_Some (get16 d i).
Proof. intros H. by apply fmap_is_Some, slice_is_some. Qed.
Lemma get32_is_some d i : (i + 4 ≤ length d)%nat → is_Some (get32 d i).
Proof. intros H. by apply fmap_is_Some, slice_is_some. Qed.

Ltac read_total :=
  repeat (apply is_Some_bind;
    [first [apply slice_is_some|apply get8_is_some|apply get16_is_some|apply get32_is_some]; lia|intros ?]); eauto.

Lemma eth_read_some d : (14 ≤ length d)%nat → is_Some (eth_read d).
Proof. intros H. unfold eth_read. read_total. Qed.
Lemma arp_read_some d : (28 ≤ length d)%nat → is_Some (arp_read d).
Proof. intros H. unfold arp_read. read_total. Qed.
Lemma ip_read_some d : (20 ≤ length d)%nat → is_Some (ip_read d).
Proof. intros H. unfold ip_read. read_total. Qed.
Lemma icmp_read_some d : (8 ≤ length d)%nat → is_Some (icmp_read d).
Proof. intros H. unfold icmp_read. read_total. Qed.
Lemma udp_read_some d : (8 ≤ length d)%nat → is_Some (udp_read d).
Proof. intros H. unfold udp_read. read_total. Qed.
Lemma tcp_read_some d : (20 ≤ length d)%nat → is_Some (tcp_read d).
Proof. intros H. unfold tcp_read. read_total. Qed.
Lemma dhcp_read_some d : (240 ≤ length d)%nat → is_Some (dhcp_read d).
Proof. intros H. unfold dhcp_read. read_total. Qed.

(** ** The Internet checksum *)

(** The sum of the big-endian 16-bit words. *)
Fixpoint word_sum (l : list Z) : Z :=
  match l with
  | a :: b :: l => 256 * a + b + word_sum l
  | [a] => 256 * a
  | [] => 0
  end.

(** Its ones' complement reduction to 16 bits. *)
Definition ones_sum (s : Z) : Z := if s =? 0 then 0 else (s - 1) mod 65535 + 1.

Lemma two_step_ind (P : list Z → Prop) :
  P [] → (∀ a, P [a]) → (∀ a b l, P l → P (a :: b :: l)) → ∀ l, P l.
Proof.
  intros H0 H1 H2 l. enough (P l ∧ ∀ a, P (a :: l)) by tauto.
  induction l as [|x l [IH1 IH2]]; split; auto.
Qed.

Lemma word_sum_bound l : bytes_ok l → 0 ≤ word_sum l ≤ 65535 * Z.of_nat (length l).
Proof.
  induction l as [|a|a b l IH] using two_step_ind; intros H; unfold bytes_ok in H; rewrite ?Forall_cons in H;
    unfold byte_ok in H; cbn [word_sum length]; [lia|lia|].
  destruct H as (? & ? & Hl). specialize (IH Hl). lia.
Qed.

Lemma word_sum_app a b : Nat.Even (length a) → word_sum (a ++ b) = word_sum a + word_sum b.
Proof.
  induction a as [|x|x y l IH] using two_step_ind; intros He; cbn [word_sum app length] in *; [lia| |].
  - destruct He as [k Hk]. lia.
  - rewrite IH; [lia|]. destruct He as [k Hk]. exists (k - 1)%nat. lia.
Qed.

Lemma ntohs_pair a b : byte_ok a → byte_ok b → ntohs (le_value [a; b]) = 256 * a + b.
Proof.
  intros Ha Hb. transitivity (le_value (reverse [a; b])); [|simpl; lia].
  apply (bswap_value [a; b]). constructor; [done|]. constructor; [done|constructor].
Qed.

Lemma cksum_words_sum l : ∀ sum, bytes_ok l → 0 ≤ sum → sum + word_sum l < 2 ^ 32 → cksum_words sum l = sum + word_sum l.
Proof.
  induction l as [|a|a b l IH] using two_step_ind; intros sum H Hs Hb; cbn [cksum_words word_sum] in *.
  - lia.
  - rewrite Z.shiftl_mul_pow2 by lia. unfold bytes_ok in H. rewrite Forall_singleton in H. unfold byte_ok in H.
    rewrite wrap_small; lia.
  - unfold bytes_ok in H. rewrite !Forall_cons in H. destruct H as (Ha & Hb' & Hl).
    rewrite ntohs_pair by done. pose proof (word_sum_bound l Hl). unfold byte_ok in *.
    rewrite wrap_small by lia. rewrite IH; [lia|done|lia|lia].
Qed.

Lemma ones_small s : 0 ≤ s < 65536 → ones_sum s = s.
Proof.
  intros Hs. unfold ones_sum. destruct (Z.eqb_spec s 0); [done|].
  destruct (decide (s = 65536 - 1)) as [->|]; [done|]. rewrite Z.mod_small; lia.
Qed.

Lemma ones_carry s : 0 ≤ s → ones_sum (s mod 65536 + s / 65536) = ones_sum s.
Proof.
  intros Hs. pose proof (Z.div_mod s 65536 ltac:(lia)) as E. pose proof (Z.mod_pos_bound s 65536 ltac:(lia)).
  assert (0 ≤ s / 65536) by (apply Z.div_pos; lia). unfold ones_sum.
  destruct (Z.eqb_spec s 0) as [->|Hne]; [done|]. destruct (Z.eqb_spec (s mod 65536 + s / 65536) 0); [lia|].
  f_equal. replace (s - 1) with (s mod 65536 + s / 65536 - 1 + (s / 65536) * 65535) by lia.
  by rewrite Z.mod_add.
Qed.

Lemma ones_mod s : 0 ≤ s → ones_sum s mod 65535 = s mod 65535.
Proof.
  intros Hs. unfold ones_sum. destruct (Z.eqb_spec s 0) as [->|]; [done|].
  rewrite Zplus_mod_idemp_l. f_equal. lia.
Qed.

Lemma ones_range s : 0 ≤ ones_sum s < 65536.
Proof. unfold ones_sum. case_if; [lia|]. pose proof (Z.mod_pos_bound (s - 1) 65535 ltac:(lia)). lia. Qed.

(** Two rounds of the carry loop end it. *)
Lemma fold_carry_ones s : 0 ≤ s < 2 ^ 32 → fold_carry CARRY_ROUNDS s = ones_sum s.
Proof.
  intros Hs. assert (Hsh : ∀ x, Z.shiftr x 16 = x / 65536) by (intros x; rewrite Z.shiftr_div_pow2; [done|lia]).
  assert (Hla : ∀ x, Z.land x 0xFFFF = x mod 65536) by (intros x; apply (Z.land_ones x 16); lia).
  assert (Hdone : ∀ x, 0 ≤ x → x / 65536 = 0 → x < 65536).
  { intros x Hx E. pose proof (Z.div_mod x 65536). pose proof (Z.mod_pos_bound x 65536). lia. }
  unfold CARRY_ROUNDS. cbn [fold_carry]. rewrite !Hsh, !Hla.
  destruct (Z.eqb_spec (s / 65536) 0) as [E|E]; [symmetry; apply ones_small; specialize (Hdone s); lia|].
  rewrite <-(ones_carry s) by lia. set (s1 := s mod 65536 + s / 65536).
  assert (H1 : 0 ≤ s1 ≤ 131070).
  { unfold s1. pose proof (Z.mod_pos_bound s 65536). assert (0 ≤ s / 65536 < 65536).
    { split; [apply Z.div_pos; lia|]. apply Z.div_lt_upper_bound; lia. } lia. }
  destruct (Z.eqb_spec (s1 / 65536) 0) as [E1|E1]; [symmetry; apply ones_small; specialize (Hdone s1); lia|].
  rewrite <-(ones_carry s1) by lia. symmetry. apply ones_small.
  assert (0 ≤ s1 / 65536 < 2) by (split; [apply Z.div_pos; lia|apply Z.div_lt_upper_bound; lia]).
  pose proof (Z.div_mod s1 65536). pose proof (Z.mod_pos_bound s1 65536). lia.
Qed.

Lemma checksum_value data :
  bytes_ok data → Z.of_nat (length data) ≤ 65535 → ip_checksum data = htons (65535 - ones_sum (word_sum data)).
Proof.
  intros Hd Hl. pose proof (word_sum_bound data Hd) as Hb. unfold ip_checksum.
  rewrite cksum_words_sum, Z.add_0_l by (done || lia). rewrite fold_carry_ones by lia.
  pose proof (ones_range (word_sum data)) as Hr. rewrite wrap_small by lia.
  f_equal. rewrite (Z.land_ones _ 16) by lia. unfold Z.lnot.
  replace (Z.pred (- ones_sum (word_sum data))) with (65535 - ones_sum (word_sum data) + (-1) * 2 ^ 16) by lia.
  rewrite Z.mod_add, Z.mod_small by lia. done.
Qed.

(** The bytes of a number stored in network order. *)
Lemma htons_bytes x : u16_ok x → le_bytes 2 (htons x) = [x / 256; x mod 256].
Proof.
  intros Hx. unfold htons, u16_ok in *. rewrite bswap_bytes. cbn [le_bytes reverse rev_append].
  rewrite (Z.mod_small (x / 256)); [done|]. split; [apply Z.div_pos; lia|apply Z.div_lt_upper_bound; lia].
Qed.

(** With the checksum in place of its zero field the words sum to zero. *)
Lemma checksum_verifies a b :
  bytes_ok a → bytes_ok b → Nat.Even (length a) → Z.of_nat (length (a ++ [0; 0] ++ b)) ≤ 65535 →
  word_sum (a ++ le_bytes 2 (ip_checksum (a ++ [0; 0] ++ b)) ++ b) mod 65535 = 0.
Proof.
  intros Ha Hb He Hl. assert (Hd : bytes_ok (a ++ [0; 0] ++ b)).
  { apply Forall_app; split; [done|]. apply Forall_app; split; [|done]. repeat constructor; unfold byte_ok; lia. }
  rewrite checksum_value by done. pose proof (word_sum_bound _ Hd) as Hs. revert Hs.
  set (S := word_sum (a ++ [0; 0] ++ b)). intros Hs. pose proof (ones_range S) as Hr.
  rewrite htons_bytes by (unfold u16_ok; lia).
  assert (Hv : word_sum (a ++ [(65535 - ones_sum S) / 256; (65535 - ones_sum S) mod 256] ++ b) = S + (65535 - ones_sum S)).
  { assert (HS : S = word_sum a + word_sum b) by (unfold S; rewrite word_sum_app by done; done).
    generalize (65535 - ones_sum S). intros x. rewrite word_sum_app by done. cbn [word_sum app].
    pose proof (Z.div_mod x 256). lia. }
  rewrite Hv. replace (S + (65535 - ones_sum S)) with (S - ones_sum S + 1 * 65535) by lia.
  rewrite Z.mod_add, Zminus_mod, ones_mod, Z.sub_diag by lia. done.
Qed.
