(* ===== verification/NetInv.v ===== *)
(** * The network stack: invariant, sending and safety

    [net_inv] is the shape of the static tables.  The sending path always
    returns and touches only the driver, the identification counter and the
    ARP cache; the receiving path returns on every frame whose lengths are
    consistent. *)

From S2P Require Import Prelude Bytes Net NetCodec.
Open Scope Z_scope.

Definition u32_ok (x : Z) : Prop := 0 ≤ x < 2 ^ 32.

Definition entry_ok (e : ArpEntry) : Prop := length (ae_mac e) = 6%nat.
Definition ucb_ok (u : UdpControlBlock) : Prop :=
  length (u_rx_data u) = RX_SIZE ∧ 0 ≤ u_rx_len u ≤ Z.of_nat RX_SIZE ∧ u16_ok (u_local_port u) ∧ u16_ok (u_remote_port u).

Record net_inv {N} (s : net N) : Prop := {
  ni_mac : length (g_our_mac s) = 6%nat;
  ni_ident : u16_ok (g_ip_ident s);
  ni_cache : length (g_arp_cache s) = ARP_CACHE_SIZE;
  ni_next : (g_arp_cache_next s < ARP_CACHE_SIZE)%nat;
  ni_entries : Forall entry_ok (g_arp_cache s);
  ni_udp : length (g_udp_sockets s) = MAX_UDP_SOCKETS;
  ni_ucbs : Forall ucb_ok (g_udp_sockets s);
  ni_tcp : length (g_tcp_sockets s) = MAX_TCP_SOCKETS
}.

(** The UDP and TCP tables, the addresses and the DHCP client are as before. *)
Definition same_tables {N} (s s' : net N) : Prop :=
  g_our_mac s' = g_our_mac s ∧ g_our_ip s' = g_our_ip s ∧ g_subnet_mask s' = g_subnet_mask s ∧
  g_gateway_ip s' = g_gateway_ip s ∧ g_net_ready s' = g_net_ready s ∧ g_udp_sockets s' = g_udp_sockets s ∧
  g_tcp_sockets s' = g_tcp_sockets s ∧ g_dhcp_state s' = g_dhcp_state s.

Lemma same_tables_refl {N} (s : net N) : same_tables s s.
Proof. by repeat split. Qed.

Section net.
Context {N : Type} `{!EthLayer N}.
Implicit Types s : net N.

Lemma set_nic_same s : set_nic (nic s) s = s.
Proof. by destruct s. Qed.

Lemma net_inv_nic s n : net_inv s → net_inv (set_nic n s).
Proof. intros []. by split. Qed.

(** ** Sending *)

Lemma eth_send_wp dst type payload s (R : bool → net N → Prop) :
  (∀ b n, R b (set_nic n s)) → wp (eth_send dst type payload) R s.
Proof.
  intros HR. unfold eth_send. apply wp_bind, wp_get. case_match.
  - apply wp_ret. rewrite <-(set_nic_same s). apply HR.
  - unfold wp, nic_op. destruct (eth_transmit_returns (eth_bytes (mkEth dst (g_our_mac s) (htons type)) ++ payload) (nic s))
      as (b & n & -> & _). apply HR.
Qed.

Lemma arp_resolve_wp ip s (R : option (list Z) → net N → Prop) :
  (∀ mac, arp_cache_lookup ip (g_arp_cache s) = Some mac → R (Some mac) s) → (∀ n, R None (set_nic n s)) →
  wp (arp_resolve ip) R s.
Proof.
  intros H1 H2. unfold arp_resolve. apply wp_bind, wp_get. destruct (arp_cache_lookup _ _) as [mac|]; [apply wp_ret; auto|].
  apply wp_bind. unfold arp_send_request. apply wp_bind, wp_get, wp_bind, eth_send_wp. intros b n. apply wp_ret, wp_ret, H2.
Qed.

Lemma ipv4_send_wp dst protocol payload s (R : bool → net N → Prop) :
  net_inv s → (∀ b s', net_inv s' → same_tables s s' → g_arp_cache s' = g_arp_cache s → R b s') →
  wp (ipv4_send dst protocol payload) R s.
Proof.
  intros Hi HR. unfold ipv4_send. case_match; [apply wp_ret; by apply HR|].
  apply wp_bind, wp_get, wp_bind, wp_modify.
  assert (Hid : ∀ n, net_inv (set_nic n (set_g_ip_ident (u16 (g_ip_ident s + 1)) s))).
  { intros n. destruct Hi. split; try done. apply (wrap_range 16). lia. }
  assert (Hfin : ∀ b n, R b (set_nic n (set_g_ip_ident (u16 (g_ip_ident s + 1)) s))) by (intros b n; by apply HR).
  case_match; [by apply eth_send_wp|]. apply wp_bind, arp_resolve_wp.
  - intros mac _. by apply eth_send_wp.
  - intros n. apply wp_ret, Hfin.
Qed.

(** ** ARP *)

Lemma arp_slot_lookup ip cache i : arp_slot ip cache = Some i →
  ∃ e, cache !! i = Some e ∧ ae_valid e = true ∧ ae_ip e = ip.
Proof.
  unfold arp_slot. intros ([j e] & Hf & ->)%fmap_Some. apply list_find_Some in Hf as (He & [Hv Hip] & _). by exists e.
Qed.

Lemma arp_cache_insert_wp ip mac s (R : () → net N → Prop) :
  net_inv s → length mac = 6%nat →
  (∀ s', net_inv s' → same_tables s s' → nic s' = nic s → g_ip_ident s' = g_ip_ident s → R () s') →
  wp (arp_cache_insert ip mac) R s.
Proof.
  intros Hi Hm HR. unfold arp_cache_insert. apply wp_bind, wp_get. destruct (arp_slot ip (g_arp_cache s)) as [i|].
  - apply wp_modify, HR; try done. destruct Hi as [? ? ? ? He ? ? ?]. split; try done; cbn.
    + by rewrite length_alter.
    + apply Forall_alter; done.
  - destruct (lookup_lt_is_Some_2 (g_arp_cache s) (g_arp_cache_next s)) as [e He].
    { rewrite (ni_cache _ Hi). apply Hi. }
    apply wp_bind. rewrite He. apply wp_ret, wp_bind, wp_modify, wp_modify, HR; try done.
    destruct Hi as [? ? ? ? Hes ? ? ?]. split; try done.
    + cbn. by rewrite length_insert.
    + apply (Nat.mod_upper_bound _ ARP_CACHE_SIZE). done.
    + by apply Forall_insert.
Qed.

Lemma arp_handle_wp data len s (R : () → net N → Prop) :
  net_inv s → len ≤ Z.of_nat (length data) → (∀ s', net_inv s' → same_tables s s' → R () s') →
  wp (arp_handle_packet data len) R s.
Proof.
  intros Hi Hl HR. unfold arp_handle_packet, sizeof_ArpPacket.
  destruct (Z.ltb_spec len (Z.of_nat 28)); [apply wp_ret; by apply HR|].
  destruct (arp_read_some data) as [arp Harp]; [lia|]. apply wp_bind. rewrite Harp. apply wp_ret.
  case_match; [apply wp_ret; by apply HR|].
  assert (Hsha : length (arp_sha arp) = 6%nat).
  { unfold arp_read in Harp. repeat (apply bind_Some in Harp as (? & ? & Harp)). injection Harp as <-. by eapply slice_length. }
  apply wp_bind, arp_cache_insert_wp; [done|done|]. intros s1 Hi1 Hs1 _ _. apply wp_bind, wp_get.
  case_match; [|apply wp_ret; by apply HR]. apply wp_bind, eth_send_wp. intros b n. apply wp_ret, HR; [by apply net_inv_nic|].
  exact Hs1.
Qed.

(** ** Delivery *)

Lemma icmp_handle_wp data len src s (R : () → net N → Prop) :
  net_inv s → len ≤ Z.of_nat (length data) → (∀ s', net_inv s' → same_tables s s' → R () s') →
  wp (icmp_handle_echo data len src) R s.
Proof.
  intros Hi Hl HR. unfold icmp_handle_echo, sizeof_IcmpHeader.
  destruct (Z.ltb_spec len (Z.of_nat 8)); [apply wp_ret; by apply HR|].
  destruct (icmp_read_some data) as [h Hh]; [lia|]. apply wp_bind. rewrite Hh. apply wp_ret.
  case_match; [apply wp_ret; by apply HR|]. apply wp_bind. unfold copy.
  rewrite slice_some by (case_match; lia). apply wp_ret, wp_bind, ipv4_send_wp; [done|].
  intros b s' Hi' Hs' _. apply wp_ret. by apply HR.
Qed.

Lemma ni_sock s i u : net_inv s → g_udp_sockets s !! i = Some u → ucb_ok u.
Proof. intros Hi Hu. eapply Forall_lookup_1; [apply (ni_ucbs _ Hi)|done]. Qed.

Lemma net_inv_sock s i u : net_inv s → ucb_ok u → net_inv (set_g_udp_sockets (<[i := u]> (g_udp_sockets s)) s).
Proof. intros [] Hu. split; try done; cbn; [by rewrite length_insert|by apply Forall_insert]. Qed.

Lemma udp_find_lookup port socks i : udp_find_socket port socks = Some i →
  ∃ u, socks !! i = Some u ∧ u_state u ≠ UDP_FREE ∧ u_local_port u = port.
Proof.
  unfold udp_find_socket. intros ([j u] & Hf & ->)%fmap_Some. apply list_find_Some in Hf as (Hu & [? ?] & _). by exists u.
Qed.

Lemma udp_deliver_ok u payload port :
  ucb_ok u → (length payload ≤ RX_SIZE)%nat → u16_ok port → ucb_ok (udp_deliver u payload port).
Proof.
  intros (Hd & ? & ? & ?) Hl Hp. unfold ucb_ok. cbn [udp_deliver u_rx_data u_rx_len u_local_port u_remote_port].
  split_and!; [|lia|lia|done|done]. rewrite length_app, length_drop, Hd. lia.
Qed.

(** The datagram's own length is consistent with the packet's. *)
Definition udp_lengths_ok (data : list Z) (len : Z) : Prop :=
  ∀ udp, udp_read data = Some udp → 8 ≤ ntohs (udp_length udp) ≤ len.

Lemma udp_handle_wp data len s (R : () → net N → Prop) :
  net_inv s → len ≤ Z.of_nat (length data) → udp_lengths_ok data len →
  (∀ s', net_inv s' → g_our_mac s' = g_our_mac s → R () s') → wp (udp_handle_packet data len) R s.
Proof.
  intros Hi Hl Hok HR. unfold udp_handle_packet, sizeof_UdpHeader.
  destruct (Z.ltb_spec len (Z.of_nat 8)); [apply wp_ret; by apply HR|].
  destruct (udp_read_some data) as [h Hh]; [lia|]. destruct (Hok h Hh) as [Hlo Hhi].
  apply wp_bind. rewrite Hh. apply wp_ret, wp_bind, wp_get.
  destruct (udp_find_socket _ _) as [i|] eqn:Ef; [|apply wp_ret; by apply HR].
  destruct (udp_find_lookup _ _ _ Ef) as (u & Hu & _). apply wp_bind. rewrite Hu. apply wp_ret.
  assert (Hb : u16_ok (ntohs (udp_length h))) by apply u16_ok_bswap. unfold u16_ok in Hb.
  rewrite (wrap_small 64) by lia. set (k := if _ <? _ then _ else _).
  assert (Hk : 0 ≤ k ≤ Z.of_nat RX_SIZE ∧ 8 + k ≤ Z.of_nat (length data)) 
    by (unfold k; destruct (Z.ltb_spec (Z.of_nat RX_SIZE) (ntohs (udp_length h) - Z.of_nat 8)); lia).
  apply wp_bind. unfold copy. rewrite slice_some by lia. apply wp_ret, wp_modify, HR; [|done].
  apply net_inv_sock; [done|]. apply udp_deliver_ok; [by eapply ni_sock|rewrite length_take; lia|apply u16_ok_bswap].
Qed.

Lemma tcp_handle_wp data len s (R : () → net N → Prop) :
  net_inv s → len ≤ Z.of_nat (length data) →
  (∀ s', net_inv s' → g_our_mac s' = g_our_mac s → R () s') → wp (tcp_handle_packet data len) R s.
Proof.
  intros Hi Hl HR. unfold tcp_handle_packet, sizeof_TcpHeader.
  destruct (Z.ltb_spec len (Z.of_nat 20)); [apply wp_ret; by apply HR|].
  destruct (tcp_read_some data) as [h Hh]; [lia|]. apply wp_bind. rewrite Hh. apply wp_ret, wp_bind.
  unfold tcp_find_or_alloc_socket. apply wp_bind, wp_get.
  assert (Hset : ∀ s2 l, net_inv s2 → length l = length (g_tcp_sockets s2) → net_inv (set_g_tcp_sockets l s2)).
  { intros s2 l [] Hlen. split; try done. cbn. congruence. }
  assert (Hgo : ∀ i s2, net_inv s2 → g_our_mac s2 = g_our_mac s → is_Some (g_tcp_sockets s2 !! i) →
    wp (s ← get; t ← deref (g_tcp_sockets s !! i);
        modify (set_g_tcp_sockets (<[i := set_tc_state (tcp_next (tc_state t)
          (Z.land (ntohs (tcp_data_offset_flags h)) 0x1F)) t]> (g_tcp_sockets s)))) R s2).
  { intros i s2 Hi2 Hm [t Ht]. apply wp_bind, wp_get, wp_bind. rewrite Ht. apply wp_ret, wp_modify, HR; [|done].
    apply Hset; [done|]. by rewrite length_insert. }
  destruct (list_find _ (g_tcp_sockets s)) as [[i t]|] eqn:E1.
  - apply wp_ret, Hgo; try done. apply list_find_Some in E1 as (-> & _). eauto.
  - destruct (list_find (λ t, tc_state t = CLOSED) _) as [[i t]|] eqn:E2.
    + apply list_find_Some in E2 as (Ht & _). apply lookup_lt_Some in Ht.
      apply wp_bind, wp_modify, wp_ret, Hgo; [apply Hset; [done|by rewrite length_insert]|done|].
      cbn. rewrite list_lookup_insert_eq by done. eauto.
    + apply wp_ret, wp_ret. by apply HR.
Qed.

(** ** Reception *)

(** What the lengths of an IPv4 packet must satisfy. *)
Definition ipv4_lengths_ok (data : list Z) : Prop :=
  ∀ ip, ip_read data = Some ip →
    Z.land (ip_ver_ihl ip) 0x0F ≤ 5 ∧ 20 ≤ ntohs (ip_total_length ip) ∧
    (ip_protocol ip = IPPROTO_UDP → udp_lengths_ok (drop 20 data) (ntohs (ip_total_length ip) - 20)).

Lemma ipv4_handle_wp data len s (R : () → net N → Prop) :
  net_inv s → len ≤ Z.of_nat (length data) → ipv4_lengths_ok data →
  (∀ s', net_inv s' → g_our_mac s' = g_our_mac s → R () s') → wp (ipv4_handle_packet data len) R s.
Proof.
  intros Hi Hl Hok HR. unfold ipv4_handle_packet, sizeof_Ipv4Header.
  assert (Hdone : R () s) by by apply HR.
  destruct (Z.ltb_spec len (Z.of_nat 20)); [by apply wp_ret|].
  destruct (ip_read_some data) as [ip Hip]; [lia|]. destruct (Hok ip Hip) as (Hihl & Htl & Hudp).
  apply wp_bind. rewrite Hip. apply wp_ret. apply wp_bind. unfold copy.
  assert (Hlen : length (ip_bytes (set_ip_header_checksum 0 ip)) = 20%nat).
  { apply ip_bytes_length; unfold ip_read in Hip; repeat (apply bind_Some in Hip as (? & ? & Hip)); injection Hip as <-;
      by eapply slice_length. }
  assert (Hnn : 0 ≤ Z.land (ip_ver_ihl ip) 0x0F)
    by (change 0x0F with (Z.ones 4); rewrite Z.land_ones by lia; apply Z.mod_pos_bound; lia).
  rewrite slice_some by lia. apply wp_ret. case_match; [by apply wp_ret|].
  destruct (Z.ltb_spec (Z.land (ip_ver_ihl ip) 0x0F * 4) (Z.of_nat 20)); [by apply wp_ret|].
  assert (Hihl5 : Z.land (ip_ver_ihl ip) 0x0F * 4 = 20) by lia.
  destruct (Z.ltb_spec len (ntohs (ip_total_length ip))); [by apply wp_ret|].
  apply wp_bind, wp_get. case_match; [by apply wp_ret|]. rewrite Hihl5.
  assert (Hb : u16_ok (ntohs (ip_total_length ip))) by apply u16_ok_bswap. unfold u16_ok in Hb.
  rewrite (wrap_small 64) by lia. change (Z.to_nat 20) with 20%nat.
  assert (Hpl : ntohs (ip_total_length ip) - 20 ≤ Z.of_nat (length (drop 20 data))) by (rewrite length_drop; lia).
  destruct (Z.eqb_spec (ip_protocol ip) IPPROTO_ICMP).
  { apply icmp_handle_wp; [done|done|]. intros s' Hi' Hs'. apply HR; [done|apply Hs']. }
  destruct (Z.eqb_spec (ip_protocol ip) IPPROTO_UDP); [apply udp_handle_wp; auto|].
  destruct (Z.eqb_spec (ip_protocol ip) IPPROTO_TCP); [by apply tcp_handle_wp|]. by apply wp_ret.
Qed.

Lemma net_receive_wp data flags s (R : () → net N → Prop) :
  net_inv s → ipv4_lengths_ok (drop sizeof_EthHeader data) →
  (∀ s', net_inv s' → g_our_mac s' = g_our_mac s → R () s') →
  wp (net_receive (Some (mkBuf (Some data) (Z.of_nat (length data)) flags))) R s.
Proof.
  intros Hi Hok HR. assert (Hdone : R () s) by by apply HR. unfold net_receive, sizeof_EthHeader in *.
  destruct (Z.ltb_spec (Z.of_nat (length data)) (Z.of_nat 14)); [by apply wp_ret|].
  destruct (eth_read_some data) as [eth Heth]; [lia|]. apply wp_bind. rewrite Heth. apply wp_ret, wp_bind, wp_get.
  case_match; [by apply wp_ret|].
  assert (Hlen : Z.of_nat (length data) - Z.of_nat 14 ≤ Z.of_nat (length (drop 14 data))) by (rewrite length_drop; lia).
  case_match.
  { apply arp_handle_wp; [done|done|]. intros s' Hi' Hs'. apply HR; [done|apply Hs']. }
  case_match; [by apply ipv4_handle_wp|by apply wp_ret].
Qed.

(** ** Initialisation *)

Lemma net_boot_inv (n : N) : net_inv (net_boot n).
Proof.
  split; try done.
  - simpl. unfold ARP_CACHE_SIZE. lia.
  - apply Forall_replicate. done.
  - apply Forall_replicate. unfold ucb_ok, u16_ok. cbn [u_rx_data u_rx_len u_local_port u_remote_port].
    rewrite length_replicate. lia.
Qed.

Lemma dhcp_discover_wp s (R : () → net N → Prop) :
  net_inv s → (∀ s', net_inv s' → same_tables (set_g_dhcp_state WAITING_OFFER s) s' → R () s') →
  wp dhcp_send_discover R s.
Proof.
  intros Hi HR. unfold dhcp_send_discover. apply wp_bind, wp_get, wp_bind, wp_modify, wp_bind, ipv4_send_wp.
  - destruct Hi. by split.
  - intros b s' Hi' Hs' _. apply wp_ret. by apply HR.
Qed.

Lemma net_init_wp s (R : () → net N → Prop) :
  net_inv s →
  (∀ s', net_inv s' → g_our_mac s' = eth_get_mac (nic s) → g_our_ip s' = g_our_ip s → g_gateway_ip s' = g_gateway_ip s →
     g_net_ready s' = g_net_ready s → g_dhcp_state s' = WAITING_OFFER →
     Forall (λ t, tc_state t = CLOSED) (g_tcp_sockets s') → R () s') →
  wp net_init R s.
Proof.
  intros Hi HR. unfold net_init. apply wp_bind, wp_get. do 7 (apply wp_bind, wp_modify). apply dhcp_discover_wp.
  - destruct Hi as [? ? ? ? He ? Hu ?]. split; try done; cbn.
    + apply eth_mac_length.
    + by rewrite length_fmap.
    + apply Forall_fmap. by eapply Forall_impl.
    + by rewrite length_fmap.
    + apply Forall_fmap. by eapply Forall_impl.
    + by rewrite length_fmap.
  - intros s' Hi' (E1 & E2 & E3 & E4 & E5 & E6 & E7 & E8). cbn in *. apply HR; try done.
    rewrite E7. apply Forall_fmap, Forall_true. done.
Qed.
End net.
