(* ===== verification/NetArp.v ===== *)
(** * The ARP cache as a map

    With the valid entries of distinct addresses, the sixteen slots are a map
    from addresses to hardware addresses: an insertion updates one key, and at
    most forgets the entry of the slot it recycles. *)

From S2P Require Import Prelude Bytes Net NetCodec NetInv.
Open Scope Z_scope.

Definition holds (cache : list ArpEntry) (i : nat) (ip : Z) (mac : list Z) : Prop :=
  ∃ e, cache !! i = Some e ∧ ae_valid e = true ∧ ae_ip e = ip ∧ ae_mac e = mac.

Definition cache_uniq (cache : list ArpEntry) : Prop :=
  ∀ i j ip mac mac', holds cache i ip mac → holds cache j ip mac' → i = j.

Lemma arp_slot_none ip cache : arp_slot ip cache = None → ∀ i mac, ¬ holds cache i ip mac.
Proof.
  unfold arp_slot. intros Hn i mac (e & He & Hv & Hip & _). apply fmap_None, list_find_None in Hn.
  rewrite Forall_forall in Hn. apply (Hn e); [by eapply list_elem_of_lookup_2|done].
Qed.

Lemma arp_lookup_holds cache ip mac : cache_uniq cache →
  arp_cache_lookup ip cache = Some mac ↔ ∃ i, holds cache i ip mac.
Proof.
  intros Hu. unfold arp_cache_lookup. split.
  - intros (i & Hs & (e & He & ->)%fmap_Some)%bind_Some. destruct (arp_slot_lookup _ _ _ Hs) as (e' & He' & ? & ?).
    exists i, e. assert (e' = e) as -> by congruence. done.
  - intros (i & Hi). destruct (arp_slot ip cache) as [j|] eqn:Es; [|by destruct (arp_slot_none _ _ Es i mac)].
    destruct (arp_slot_lookup _ _ _ Es) as (e' & He' & Hv' & Hip'). simpl. rewrite He'. simpl.
    assert (j = i) as ->. { eapply Hu; [|exact Hi]. exists e'. done. }
    destruct Hi as (e & He & _ & _ & <-). congruence.
Qed.

(** The entry the next fresh insertion recycles. *)
Definition evicted {N} (s : net N) (ip ip' : Z) : bool :=
  bool_decide (arp_slot ip (g_arp_cache s) = None) &&
  match g_arp_cache s !! g_arp_cache_next s with
  | Some e => ae_valid e && (ae_ip e =? ip')
  | None => false
  end.

(** What a lookup gives after an insertion. *)
Definition lookup_after {N} (s : net N) (ip : Z) (mac : list Z) (ip' : Z) : option (list Z) :=
  if decide (ip' = ip) then Some mac
  else if evicted s ip ip' then None
  else arp_cache_lookup ip' (g_arp_cache s).

(** Overwriting one slot. *)
Lemma holds_insert cache k e i ip mac : (k < length cache)%nat →
  holds (<[k := e]> cache) i ip mac ↔
  (i = k ∧ ae_valid e = true ∧ ae_ip e = ip ∧ ae_mac e = mac) ∨ (i ≠ k ∧ holds cache i ip mac).
Proof.
  intros Hk. unfold holds. destruct (decide (i = k)) as [->|Hne].
  - rewrite list_lookup_insert_eq by done. split; [intros (? & [= <-] & ? & ? & ?); by left|].
    intros [(_ & ? & ? & ?)|[? _]]; [by exists e|done].
  - rewrite list_lookup_insert_ne by done. split; [by right|]. by intros [(? & _)|[_ ?]].
Qed.

Lemma cache_after cache cache' k e ip mac :
  cache' = <[k := e]> cache → cache_uniq cache → (k < length cache)%nat →
  ae_valid e = true → ae_ip e = ip → ae_mac e = mac → (∀ i mac', holds cache i ip mac' → i = k) →
  cache_uniq cache' ∧
  ∀ ip', arp_cache_lookup ip' cache' =
    if decide (ip' = ip) then Some mac
    else if match cache !! k with Some old => ae_valid old && (ae_ip old =? ip') | None => false end then None
    else arp_cache_lookup ip' cache.
Proof.
  intros -> Hu Hk Hv Hip Hmac Honly. assert (Hu' : cache_uniq (<[k := e]> cache)).
  { intros i j ip0 m m' [(-> & _ & E & _)|[Hi Hh]]%holds_insert [(-> & _ & E' & _)|[Hj Hh']]%holds_insert; try done.
    - assert (ip0 = ip) as -> by congruence. by destruct Hj; eapply Honly.
    - assert (ip0 = ip) as -> by congruence. by destruct Hi; eapply Honly.
    - by eapply Hu. }
  split; [done|]. intros ip'. destruct (decide (ip' = ip)) as [->|Hne].
  { apply arp_lookup_holds; [done|]. exists k. apply holds_insert; [done|]. by left. }
  destruct (lookup_lt_is_Some_2 _ _ Hk) as [old Hold]. rewrite Hold.
  assert (Hchar : ∀ m, arp_cache_lookup ip' (<[k:=e]> cache) = Some m ↔ ∃ i, i ≠ k ∧ holds cache i ip' m).
  { intros m. rewrite arp_lookup_holds by done. split.
    - intros (i & [(_ & _ & E & _)|[? ?]]%holds_insert); [congruence|eauto|done].
    - intros (i & ? & ?). exists i. apply holds_insert; [done|]. by right. }
  destruct (ae_valid old && (ae_ip old =? ip')) eqn:Ev.
  - apply andb_prop in Ev as [Evo Eip%Z.eqb_eq]. apply eq_None_not_Some. intros [m (i & Hi & Hh)%Hchar].
    apply Hi. eapply Hu; [exact Hh|]. by exists old.
  - apply option_eq. intros m. rewrite Hchar, (arp_lookup_holds cache) by done. split; [intros (i & _ & ?); eauto|].
    intros (i & Hh). exists i. split; [|done]. intros ->. destruct Hh as (o & Ho & Hvo & Hipo & _).
    assert (o = old) as -> by congruence. rewrite Hvo, Hipo, Z.eqb_refl in Ev. done.
Qed.

Lemma alter_insert_entry (cache : list ArpEntry) i e mac :
  cache !! i = Some e →
  alter (λ e, mkArpEntry (ae_ip e) mac (ae_valid e)) i cache = <[i := mkArpEntry (ae_ip e) mac (ae_valid e)]> cache.
Proof.
  intros He. apply list_eq. intros j. destruct (decide (j = i)) as [->|Hne].
  - rewrite list_lookup_alter_eq, He, list_lookup_insert_eq; [done|]. by eapply lookup_lt_Some.
  - by rewrite list_lookup_alter_ne, list_lookup_insert_ne.
Qed.

Lemma arp_insert_result {N} `{!EthLayer N} (s : net N) ip mac :
  net_inv s → cache_uniq (g_arp_cache s) → length mac = 6%nat →
  wp (arp_cache_insert ip mac) (λ _ s', net_inv s' ∧ same_tables s s' ∧ nic s' = nic s ∧ cache_uniq (g_arp_cache s') ∧
    ∀ ip', arp_cache_lookup ip' (g_arp_cache s') = lookup_after s ip mac ip') s.
Proof.
  intros Hi Hu Hm.
  assert (Hk : (g_arp_cache_next s < length (g_arp_cache s))%nat) by (rewrite (ni_cache _ Hi); apply Hi).
  assert (Hw : wp (arp_cache_insert ip mac) (λ _ s', cache_uniq (g_arp_cache s') ∧
    ∀ ip', arp_cache_lookup ip' (g_arp_cache s') = lookup_after s ip mac ip') s).
  { unfold arp_cache_insert, lookup_after, evicted. apply wp_bind, wp_get. destruct (arp_slot ip (g_arp_cache s)) as [i|] eqn:Es.
    - apply wp_modify. cbn [g_arp_cache set_g_arp_cache]. destruct (arp_slot_lookup _ _ _ Es) as (e & He & Hv & Hip).
      rewrite (alter_insert_entry _ _ e) by done. rewrite bool_decide_false by done.
      destruct (cache_after (g_arp_cache s) _ i (mkArpEntry (ae_ip e) mac (ae_valid e)) ip mac eq_refl Hu) as [Hu' Hl]; try done.
      + by eapply lookup_lt_Some.
      + intros j mac' Hj. eapply Hu; [exact Hj|]. by exists e.
      + split; [done|]. intros ip'. rewrite Hl, He, Hip. case_decide; [done|]. simpl.
        destruct (Z.eqb_spec ip ip'); [congruence|]. by rewrite andb_false_r.
    - destruct (lookup_lt_is_Some_2 _ _ Hk) as [old Hold]. apply wp_bind. rewrite Hold. apply wp_ret, wp_bind, wp_modify, wp_modify.
      cbn [g_arp_cache set_g_arp_cache set_g_arp_cache_next]. rewrite bool_decide_true by done.
      destruct (cache_after (g_arp_cache s) _ (g_arp_cache_next s) (mkArpEntry ip mac true) ip mac eq_refl Hu) as [Hu' Hl]; try done.
      + intros j mac' Hj. by destruct (arp_slot_none _ _ Es j mac').
      + split; [done|]. intros ip'. by rewrite Hl, Hold. }
  pose proof (arp_cache_insert_wp ip mac s (λ _ s', net_inv s' ∧ same_tables s s' ∧ nic s' = nic s) Hi Hm ltac:(done)) as Hw2.
  unfold wp in *. destruct (arp_cache_insert ip mac s) as [[[] s']| |]; [|done..]. tauto.
Qed.
