(* ===== verification/NetUdp.v ===== *)
(** * From one host to another

    The frame [sys_socket_send] hands to the driver, and what a receiving host
    makes of it: header fields, checksum and payload survive the trip. *)

From S2P Require Import Prelude Bytes Net NetCodec NetInv NetArp.
Open Scope Z_scope.

(** ** Addresses *)

Lemma ip_to_bytes_le ip : u32_ok ip → ip_to_bytes ip = le_bytes 4 ip.
Proof.
  intros Hip. pose proof (le_bytes_ok 4 ip) as Hok. pose proof (le_bytes_length 4 ip) as Hlen.
  assert (Hv : ip = le_value (le_bytes 4 ip)) by (symmetry; apply le_value_bytes; exact Hip).
  revert Hok Hlen Hv. generalize (le_bytes 4 ip). intros l Hok Hlen ->.
  apply ip4_cases in Hlen as (a & b & c & d & ->).
  assert (Hn : ntohl (le_value [a; b; c; d]) = le_value [d; c; b; a]) by exact (bswap_value [a; b; c; d] Hok).
  unfold bytes_ok in Hok. rewrite !Forall_cons in Hok. destruct Hok as (Ha & Hb & Hc & Hd & _). unfold byte_ok in *.
  unfold ip_to_bytes. rewrite Hn. cbn [le_value]. rewrite !Z.shiftr_div_pow2 by lia. unfold wrap.
  assert (∀ x k r y, x = y * 2 ^ k + r → 0 ≤ k → 0 ≤ r < 2 ^ k → x / 2 ^ k = y) as Hdiv.
  { intros x k r y -> Hk Hr. rewrite Z.div_add_l by lia. rewrite Z.div_small; lia. }
  rewrite (Hdiv _ 24 (d + 256 * (c + 256 * b)) a) by lia.
  rewrite (Hdiv _ 16 (d + 256 * c) (b + 256 * a)) by lia.
  rewrite (Hdiv _ 8 d (c + 256 * (b + 256 * a))) by lia.
  assert (Hmod : ∀ x y, 0 ≤ x < 256 → (x + 256 * y) mod 2 ^ 8 = x).
  { intros x y Hx. change (2 ^ 8) with 256. rewrite Z.add_comm, Z.mul_comm, Z_mod_plus_full || idtac.
    replace (x + 256 * y) with (x + y * 256) by lia. rewrite Z.mod_add, Z.mod_small; lia. }
  rewrite !Hmod by lia. rewrite (Z.mod_small a) by lia. done.
Qed.

Lemma ip_to_bytes_length ip : length (ip_to_bytes ip) = 4%nat.
Proof. done. Qed.

Lemma ip_to_bytes_value ip : u32_ok ip → le_value (ip_to_bytes ip) = ip.
Proof. intros Hip. rewrite ip_to_bytes_le by done. apply le_value_bytes. exact Hip. Qed.

(** ** IPv4 *)

Section ip.
Context {N : Type} `{!EthLayer N}.
Implicit Types s r : net N.

(** The header as it is sent. *)
Definition sent_header s (dst protocol : Z) (total_len : nat) : Ipv4Header :=
  let h := ip_header s dst protocol total_len in
  set_ip_header_checksum (ip_checksum (ip_bytes h)) h.

Lemma sent_header_ok s dst protocol n : ip_ok (sent_header s dst protocol n).
Proof. repeat split; try apply u16_ok_bswap. Qed.

(** A receiver of the packet accepts the header and hands the payload up. *)
Lemma ipv4_deliver s r dst protocol payload :
  u32_ok dst → u32_ok (g_our_ip s) → (length payload ≤ 1500)%nat → dst = g_our_ip r ∨ dst = IP_BROADCAST →
  let n := (sizeof_Ipv4Header + length payload)%nat in
  ipv4_handle_packet (ip_bytes (sent_header s dst protocol n) ++ payload) (Z.of_nat n) r =
    let len := Z.of_nat (length payload) in
    if protocol =? IPPROTO_ICMP then icmp_handle_echo payload len (g_our_ip s) r
    else if protocol =? IPPROTO_UDP then udp_handle_packet payload len r
    else if protocol =? IPPROTO_TCP then tcp_handle_packet payload len r
    else Ok ((), r).
Proof.
  intros Hdst Hsrc Hlen Hfor n. unfold ipv4_handle_packet, sizeof_Ipv4Header in *.
  set (h := sent_header s dst protocol n). unfold IPPROTO_ICMP, IPPROTO_UDP, IPPROTO_TCP in *.
  destruct (Z.ltb_spec (Z.of_nat n) (Z.of_nat 20)); [lia|].
  assert (Hread : ip_read (ip_bytes h ++ payload) = Some h) by apply ip_read_bytes, sent_header_ok.
  rewrite Hread. cbn [deref]. rewrite (bind_ok (mret h) _ r h r eq_refl).
  change (Z.land (ip_ver_ihl h) 0x0F) with 5. unfold copy.
  assert (Hcopy : slice (ip_bytes (set_ip_header_checksum 0 h)) 0 (Z.to_nat (5 * 4)) = Some (ip_bytes (ip_header s dst protocol n))).
  { apply (slice_all (ip_bytes (ip_header s dst protocol n))). }
  rewrite Hcopy. cbn [deref]. rewrite (bind_ok (mret (ip_bytes (ip_header s dst protocol n))) _ r _ r eq_refl).
  change (ip_header_checksum h) with (ip_checksum (ip_bytes (ip_header s dst protocol n))). rewrite Z.eqb_refl.
  cbn [negb]. change (5 * 4 <? Z.of_nat 20) with false. cbv iota.
  assert (Htl : ntohs (ip_total_length h) = Z.of_nat n).
  { change (ip_total_length h) with (htons (u16 (Z.of_nat n))). unfold ntohs, htons.
    rewrite wrap_small by lia. apply bswap_invol. change (256 ^ Z.of_nat 2) with 65536. lia. }
  rewrite Htl, Z.ltb_irrefl. rewrite (bind_ok get _ r r r eq_refl).
  change (ip_src h) with (ip_to_bytes (g_our_ip s)). change (ip_dst h) with (ip_to_bytes dst).
  rewrite !ip_to_bytes_value by done.
  assert (negb (dst =? g_our_ip r) && negb (dst =? IP_BROADCAST) &&
    negb (dst =? Z.lor (g_our_ip r) (u32 (Z.lnot (g_subnet_mask r)))) = false) as ->.
  { destruct Hfor as [->| ->]; rewrite Z.eqb_refl; cbn [negb andb]; [done|]. by rewrite andb_false_r. }
  change (ip_protocol h) with protocol. rewrite wrap_small by lia.
  replace (Z.of_nat n - 5 * 4) with (Z.of_nat (length payload)) by (unfold n; lia).
  assert (Hdrop : drop (Z.to_nat (5 * 4)) (ip_bytes h ++ payload) = payload) by (apply drop_app_length'; done).
  rewrite Hdrop. repeat case_match; done.
Qed.

(** ** UDP *)

Lemma udp_receive r sp dp payload i u :
  u16_ok sp → u16_ok dp → (length payload ≤ RX_SIZE)%nat →
  udp_find_socket dp (g_udp_sockets r) = Some i → g_udp_sockets r !! i = Some u →
  udp_handle_packet (udp_datagram sp dp payload) (Z.of_nat (sizeof_UdpHeader + length payload)) r =
    Ok ((), set_g_udp_sockets (<[i := udp_deliver u payload sp]> (g_udp_sockets r)) r).
Proof.
  intros Hsp Hdp Hlen Hf Hu. unfold RX_SIZE in Hlen. unfold udp_handle_packet, udp_datagram.
  set (h := mkUdp _ _ _ _). rewrite (proj2 (Z.ltb_ge _ _)) by lia.
  assert (Hread : udp_read (udp_bytes h ++ payload) = Some h)
    by (apply udp_read_bytes; split_and!; try apply u16_ok_bswap; unfold u16_ok; simpl; lia).
  rewrite Hread. cbn [deref]. rewrite (bind_ok (mret h) _ r h r eq_refl).
  assert (Hsw : ∀ x, u16_ok x → ntohs (htons x) = x) by (intros x Hx; apply bswap_invol; exact Hx).
  change (udp_dst_port h) with (htons dp). change (udp_src_port h) with (htons sp). rewrite !Hsw by done.
  rewrite (bind_ok get _ r r r eq_refl), Hf, Hu. cbn [deref]. rewrite (bind_ok (mret u) _ r u r eq_refl).
  change (udp_length h) with (htons (u16 (Z.of_nat (sizeof_UdpHeader + length payload)))). unfold sizeof_UdpHeader.
  rewrite (wrap_small 16) by lia. rewrite Hsw by (unfold u16_ok; lia). rewrite wrap_small by lia.
  replace (Z.of_nat (8 + length payload) - Z.of_nat 8) with (Z.of_nat (length payload)) by lia.
  destruct (Z.ltb_spec (Z.of_nat RX_SIZE) (Z.of_nat (length payload))); [unfold RX_SIZE in *; lia|].
  rewrite Nat2Z.id. unfold copy.
  assert (Hslice : slice (udp_bytes h ++ payload) 8 (length payload) = Some payload).
  { rewrite slice_app_r by done. apply (slice_all payload). }
  rewrite Hslice. cbn [deref]. by rewrite (bind_ok (mret payload) _ r payload r eq_refl).
Qed.

(** ** Sending *)

(** The frame that carries [payload] from the connected socket [u]. *)
Definition udp_frame s (u : UdpControlBlock) (mac payload : list Z) : list Z :=
  let d := udp_datagram (u_local_port u) (u_remote_port u) payload in
  eth_bytes (mkEth mac (g_our_mac s) (htons ETHERTYPE_IPV4)) ++
  ip_bytes (sent_header s (u_remote_ip u) IPPROTO_UDP (sizeof_Ipv4Header + length d)) ++ d.

Lemma udp_datagram_length sp dp payload : length (udp_datagram sp dp payload) = (sizeof_UdpHeader + length payload)%nat.
Proof. unfold udp_datagram. rewrite length_app. done. Qed.

(** The state after the identification counter moved on. *)
Definition bump_ident s : net N := set_g_ip_ident (u16 (g_ip_ident s + 1)) s.

Lemma socket_send_frame s fd u mac payload :
  fd_ok fd MAX_UDP_SOCKETS = true → g_udp_sockets s !! Z.to_nat fd = Some u → u_state u = UDP_CONNECTED →
  (length payload ≤ 1492)%nat → u_remote_ip u ≠ IP_BROADCAST →
  arp_cache_lookup (next_hop s (u_remote_ip u)) (g_arp_cache s) = Some mac →
  sys_socket_send fd payload (Z.of_nat (length payload)) s =
    (ok ← nic_op (eth_transmit (udp_frame s u mac payload)); mret (if (ok : bool) then Z.of_nat (length payload) else -1))
      (bump_ident s).
Proof.
  intros Hfd Hu Hst Hlen Hbr Harp. unfold sys_socket_send. rewrite Hfd. cbn [negb].
  rewrite (bind_ok get _ s s s eq_refl), Hu. cbn [deref]. rewrite (bind_ok (mret u) _ s u s eq_refl).
  rewrite decide_True by done. rewrite (wrap_small 64) by (unfold sizeof_UdpHeader; lia).
  destruct (Z.ltb_spec (Z.of_nat (sizeof_UdpHeader + RX_SIZE)) (Z.of_nat sizeof_UdpHeader + Z.of_nat (length payload)));
    [unfold sizeof_UdpHeader, RX_SIZE in *; lia|].
  unfold copy. rewrite Nat2Z.id, slice_all. cbn [deref]. rewrite (bind_ok (mret payload) _ s payload s eq_refl).
  set (d := udp_datagram (u_local_port u) (u_remote_port u) payload).
  assert (Hd : length d = (8 + length payload)%nat) by apply udp_datagram_length.
  assert (Hipv : ipv4_send (u_remote_ip u) IPPROTO_UDP d s = nic_op (eth_transmit (udp_frame s u mac payload)) (bump_ident s)).
  { unfold ipv4_send, sizeof_Ipv4Header. rewrite (proj2 (Nat.ltb_ge _ _)) by lia.
    rewrite (bind_ok get _ s s s eq_refl). rewrite (bind_ok (modify (set_g_ip_ident (u16 (g_ip_ident s + 1)))) _ s () (bump_ident s) eq_refl).
    rewrite (proj2 (Z.eqb_neq _ _) Hbr). unfold arp_resolve.
    assert (Hr : (s0 ← get; match arp_cache_lookup (next_hop s (u_remote_ip u)) (g_arp_cache s0) with
        | Some m => mret (Some m) | None => arp_send_request (next_hop s (u_remote_ip u));; mret None end) (bump_ident s)
      = Ok (Some mac, bump_ident s)).
    { rewrite (bind_ok get _ (bump_ident s) (bump_ident s) (bump_ident s) eq_refl).
      change (g_arp_cache (bump_ident s)) with (g_arp_cache s). by rewrite Harp. }
    rewrite (bind_ok _ _ _ _ _ Hr). unfold eth_send.
    rewrite (bind_ok get _ (bump_ident s) (bump_ident s) (bump_ident s) eq_refl).
    rewrite (proj2 (Nat.ltb_ge _ _)); [done|].
    rewrite length_app, ip_bytes_length by done. unfold sizeof_EthHeader, sizeof_Ipv4Header. lia. }
  unfold mbind, M_bind. rewrite Hipv. done.
Qed.

(** ** Receiving *)

Lemma udp_frame_received s r u mac payload i v :
  net_inv s → length mac = 6%nat → mac = g_our_mac r → u32_ok (u_remote_ip u) → u32_ok (g_our_ip s) →
  u_remote_ip u = g_our_ip r → u16_ok (u_local_port u) → u16_ok (u_remote_port u) → (length payload ≤ 1492)%nat →
  udp_find_socket (u_remote_port u) (g_udp_sockets r) = Some i → g_udp_sockets r !! i = Some v →
  let frame := udp_frame s u mac payload in
  net_receive (Some (mkBuf (Some frame) (Z.of_nat (length frame)) 0)) r =
    Ok ((), set_g_udp_sockets (<[i := udp_deliver v payload (u_local_port u)]> (g_udp_sockets r)) r).
Proof.
  intros Hi Hm Hmac Hrip Hour Hip Hlp Hrp Hlen Hf Hv. cbv zeta. unfold udp_frame.
  set (d := udp_datagram (u_local_port u) (u_remote_port u) payload).
  assert (Hd : length d = (8 + length payload)%nat) by apply udp_datagram_length.
  set (e := mkEth mac (g_our_mac s) (htons ETHERTYPE_IPV4)).
  assert (He : eth_ok e) by (split_and!; [done|apply Hi|apply u16_ok_bswap]).
  set (p := ip_bytes (sent_header s (u_remote_ip u) IPPROTO_UDP (sizeof_Ipv4Header + length d)) ++ d).
  assert (Hp : length p = (20 + length d)%nat) by (unfold p; rewrite length_app; done).
  unfold net_receive. rewrite length_app, eth_bytes_length by done. unfold sizeof_EthHeader.
  destruct (Z.ltb_spec (Z.of_nat (14 + length p)) (Z.of_nat 14)); [lia|].
  rewrite eth_read_bytes by done. cbn [deref]. rewrite (bind_ok (mret e) _ r e r eq_refl), (bind_ok get _ r r r eq_refl).
  change (eth_dst e) with mac.
  assert (negb (is_broadcast mac) && negb (mac_eqb mac (g_our_mac r)) = false) as ->.
  { unfold mac_eqb. rewrite (bool_decide_true (mac = g_our_mac r)) by done. apply andb_false_r. }
  change (ntohs (eth_type e)) with (ntohs (htons ETHERTYPE_IPV4)).
  assert (ntohs (htons ETHERTYPE_IPV4) = ETHERTYPE_IPV4) as -> by reflexivity.
  change (ETHERTYPE_IPV4 =? ETHERTYPE_ARP) with false. rewrite Z.eqb_refl. cbv iota.
  rewrite drop_app_length' by (by rewrite eth_bytes_length).
  replace (Z.of_nat (14 + length p) - Z.of_nat 14) with (Z.of_nat (sizeof_Ipv4Header + length d)) by (unfold sizeof_Ipv4Header; lia).
  unfold p. rewrite ipv4_deliver by (done || lia || by left).
  change (IPPROTO_UDP =? IPPROTO_ICMP) with false. rewrite Z.eqb_refl. cbv iota zeta.
  rewrite Hd. unfold d. apply udp_receive; try done. unfold RX_SIZE. lia.
Qed.
End ip.
