(* ===== verification/NetDhcp.v ===== *)
(** * DHCP, and what the stack can reach

    The option parser against the list of options it was given, the client as
    a state machine, and the invariant of every run of the public interface:
    nothing calls the client, so the interface is never configured. *)

From stdpp Require Import relations.
From S2P Require Import Prelude Bytes Net NetCodec NetInv.
Open Scope Z_scope.

(** ** Options *)

Inductive dhcp_opt := Pad | Opt (tag : Z) (value : list Z).

Definition opt_ok (o : dhcp_opt) : Prop :=
  match o with
  | Pad => True
  | Opt tag value => tag ≠ DHCP_OPT_PAD ∧ tag ≠ DHCP_OPT_END ∧ (length value < 256)%nat
  end.

Definition encode_opt (o : dhcp_opt) : list Z :=
  match o with
  | Pad => [DHCP_OPT_PAD]
  | Opt tag value => tag :: Z.of_nat (length value) :: value
  end.

(** What the parser keeps of an option. *)
Definition opt_effect (acc : Z * Z) (o : dhcp_opt) : Z * Z :=
  match o with
  | Pad => acc
  | Opt tag value =>
    if (tag =? DHCP_OPT_MSG_TYPE) && (0 <? length value)%nat then (default 0 (value !! 0%nat), acc.2)
    else if (tag =? DHCP_OPT_SERVER_ID) && (4 <=? length value)%nat then (acc.1, le_value (take 4 value))
    else acc
  end.

Lemma parse_opt_step beyond fuel tag value rest m srv :
  opt_ok (Opt tag value) →
  parse_options beyond (S fuel) (encode_opt (Opt tag value) ++ rest) m srv =
    parse_options beyond fuel rest (opt_effect (m, srv) (Opt tag value)).1 (opt_effect (m, srv) (Opt tag value)).2.
Proof.
  intros (H0 & H1 & H2). cbn [encode_opt app parse_options].
  rewrite (proj2 (Z.eqb_neq _ _) H1), (proj2 (Z.eqb_neq _ _) H0). rewrite length_app.
  rewrite (proj2 (Z.ltb_ge _ _)) by lia. rewrite Nat2Z.id, drop_app_length. unfold opt_effect. cbn [fst snd].
  assert ((1 <=? Z.of_nat (length value)) = (0 <? length value)%nat) as ->.
  { apply eq_bool_prop_intro. rewrite !Is_true_true, Z.leb_le, Nat.ltb_lt. lia. }
  assert ((4 <=? Z.of_nat (length value)) = (4 <=? length value)%nat) as ->.
  { apply eq_bool_prop_intro. rewrite !Is_true_true, Z.leb_le, Nat.leb_le. lia. }
  destruct ((tag =? DHCP_OPT_MSG_TYPE) && (0 <? length value)%nat) eqn:E1.
  - apply andb_prop in E1 as [_ Hl%Nat.ltb_lt]. cbn [fst snd]. by rewrite lookup_app_l.
  - destruct ((tag =? DHCP_OPT_SERVER_ID) && (4 <=? length value)%nat) eqn:E2; [|done].
    apply andb_prop in E2 as [_ Hl%Nat.leb_le]. cbn [fst snd]. by rewrite take_app_le.
Qed.

(** The parser folds the options up to the end marker, whatever follows it. *)
Lemma parse_options_fold beyond opts junk : ∀ fuel m srv,
  Forall opt_ok opts → (length opts < fuel)%nat →
  parse_options beyond fuel (concat (encode_opt <$> opts) ++ DHCP_OPT_END :: junk) m srv =
    Some (foldl opt_effect (m, srv) opts).
Proof.
  induction opts as [|o opts IH]; intros fuel m srv Hok Hf; cbn [fmap list_fmap concat app foldl].
  - destruct fuel; [simpl in Hf; lia|]. reflexivity.
  - apply Forall_cons in Hok as [Ho Hok]. destruct fuel as [|fuel]; [lia|]. simpl in Hf. rewrite <-app_assoc.
    destruct o as [|tag value].
    + cbn [encode_opt app parse_options]. change (DHCP_OPT_PAD =? DHCP_OPT_END) with false. rewrite Z.eqb_refl.
      apply IH; [done|lia].
    + rewrite parse_opt_step by done. rewrite IH by (done || lia). by rewrite <-surjective_pairing.
Qed.

(** With a byte to read past the end, every string of options is parsed. *)
Lemma parse_options_total fuel : ∀ opt m srv, (length opt ≤ fuel)%nat → Forall (λ b, 0 ≤ b) opt →
  is_Some (parse_options true fuel opt m srv).
Proof.
  induction fuel as [|fuel IH]; intros [|tag opt] m srv Hl Hb; cbn [parse_options length] in *; [eauto|lia|eauto|].
  apply Forall_cons in Hb as [_ Hb]. case_match; [eauto|]. case_match; [apply IH; [lia|done]|].
  destruct opt as [|olen opt]; [eauto|]. apply Forall_cons in Hb as [Hb0 Hb]. case_match; [eauto|].
  apply IH; [rewrite length_drop; simpl in Hl; lia|by apply Forall_drop].
Qed.

(** ** The client *)

Section dhcp.
Context {N : Type} `{!EthLayer N}.
Implicit Types s : net N.

(** A well-formed reply: its fields and the options it carries. *)
Definition reply_ok (data : list Z) (dhcp : DhcpPacket) (msg_type server : Z) : Prop :=
  dhcp_read data = Some dhcp ∧ ntohl (dhcp_magic dhcp) = DHCP_MAGIC_COOKIE ∧ dhcp_op dhcp = 2 ∧ msg_type ≠ 0 ∧
  (sizeof_DhcpPacket ≤ length data)%nat ∧
  parse_options false (length data - sizeof_DhcpPacket) (drop sizeof_DhcpPacket data) 0 0 = Some (msg_type, server).

Definition dhcp_next (st : DhcpClientState) (msg_type : Z) : DhcpClientState :=
  if msg_type =? DHCP_OFFER then (if decide (st = WAITING_OFFER) then REQUESTING else st)
  else if msg_type =? DHCP_ACK then (if decide (st = REQUESTING) then DHCP_BOUND else st)
  else if msg_type =? DHCP_NAK then DHCP_IDLE
  else st.

Lemma dhcp_parse_wp data dhcp t srv s (R : Z * Z → net N → Prop) :
  reply_ok data dhcp t srv → R (t, srv) s →
  wp (dhcp_parse_options (drop sizeof_DhcpPacket data) (Z.of_nat (length data) - Z.of_nat sizeof_DhcpPacket)) R s.
Proof.
  intros (_ & _ & _ & _ & Hl & Hp) HR. unfold dhcp_parse_options, copy.
  replace (Z.to_nat (Z.of_nat (length data) - Z.of_nat sizeof_DhcpPacket)) with (length (drop sizeof_DhcpPacket data))
    by (rewrite length_drop; lia).
  apply wp_bind. rewrite slice_all. apply wp_ret. rewrite Nat.ltb_irrefl, length_drop.
  rewrite Hp. by apply wp_ret.
Qed.

Lemma dhcp_reply_wp data dhcp t srv want s (R : option (DhcpPacket * Z) → net N → Prop) :
  reply_ok data dhcp t srv → R (if t =? want then Some (dhcp, srv) else None) s →
  wp (dhcp_reply data (Z.of_nat (length data)) want) R s.
Proof.
  intros Hr HR. pose proof Hr as (Hd & Hm & Hop & Ht & Hl & _). unfold dhcp_reply.
  rewrite (proj2 (Z.ltb_ge _ _)) by lia. apply wp_bind. rewrite Hd. apply wp_ret. rewrite Hm, Hop, Z.eqb_refl. cbn [negb].
  change (2 =? 2) with true. cbn [negb]. apply wp_bind. eapply dhcp_parse_wp; [exact Hr|].
  rewrite (proj2 (Z.eqb_neq _ _) Ht). cbn [orb]. destruct (t =? want); cbn [negb]; by apply wp_ret.
Qed.

(** A reply moves the client as [dhcp_next] says; an acknowledged request, and
    nothing else, configures the interface. *)
Lemma dhcp_dispatch_wp data dhcp t srv s :
  reply_ok data dhcp t srv → net_inv s →
  wp (dhcp_dispatch data (Z.of_nat (length data))) (λ _ s', net_inv s' ∧
    g_dhcp_state s' = dhcp_next (g_dhcp_state s) t ∧
    if decide (t = DHCP_ACK ∧ g_dhcp_state s = REQUESTING)
    then g_our_ip s' = le_value (dhcp_yiaddr dhcp) ∧ g_net_ready s' = true
    else g_our_ip s' = g_our_ip s ∧ g_net_ready s' = g_net_ready s) s.
Proof.
  intros Hr Hi. pose proof Hr as (Hd & Hm & _ & _ & Hl & _). unfold dhcp_dispatch.
  rewrite (proj2 (Z.ltb_ge _ _)) by lia. apply wp_bind. rewrite Hd. apply wp_ret. rewrite Hm, Z.eqb_refl. cbn [negb].
  apply wp_bind. eapply dhcp_parse_wp; [exact Hr|]. apply wp_bind, wp_get. unfold dhcp_next.
  destruct (Z.eqb_spec t DHCP_OFFER) as [->|Ho].
  { assert (Hno : ¬ (DHCP_OFFER = DHCP_ACK ∧ g_dhcp_state s = REQUESTING)) by (intros [? _]; done).
    apply wp_when. case_bool_decide as Hst; [|rewrite !decide_False by done; done].
    unfold dhcp_handle_offer. apply wp_bind. eapply dhcp_reply_wp; [exact Hr|].
    rewrite Z.eqb_refl. do 3 (apply wp_bind, wp_modify). unfold dhcp_send_request.
    apply wp_bind, wp_get, wp_bind, ipv4_send_wp; [destruct Hi; by split|].
    intros b s' Hi' (_ & Eip & _ & _ & Er & _ & _ & Es) _. apply wp_ret.
    rewrite (decide_False (P := DHCP_OFFER = DHCP_ACK ∧ _)) by done. rewrite decide_True by done.
    by rewrite Eip, Er, Es. }
  destruct (Z.eqb_spec t DHCP_ACK) as [->|Ha].
  { apply wp_when. case_bool_decide as Hst.
    - unfold dhcp_handle_ack. apply wp_bind. eapply dhcp_reply_wp; [exact Hr|].
      rewrite Z.eqb_refl. do 4 (apply wp_bind, wp_modify). apply wp_modify. rewrite !decide_True by done.
      split; [destruct Hi; by split|done].
    - rewrite !decide_False by tauto. done. }
  apply wp_when. destruct (Z.eqb_spec t DHCP_NAK); [apply wp_modify|]; rewrite decide_False by tauto; [|done].
  split; [destruct Hi; by split|done].
Qed.
End dhcp.

(** ** Every run of the public interface *)

Section runs.
Context {N : Type} `{!EthLayer N}.
Implicit Types s : net N.

Inductive net_call :=
  | CReceive (buf : option NetworkBuffer)
  | CSend (sock : bool) (data : option (list Z)) (size : Z)
  | CCreate
  | CBind (fd port : Z)
  | CConnect (fd remote_ip remote_port : Z)
  | CSocketSend (fd : Z) (data : list Z) (size : Z)
  | CRecv (fd : Z) (capacity : nat) (size : Z)
  | CClose (fd : Z)
  | CListen (fd : Z).

Definition run_call (c : net_call) : M (net N) () :=
  match c with
  | CReceive buf => net_receive buf
  | CSend sock data size => net_send sock data size
  | CCreate => _ ← sys_socket_create; mret ()
  | CBind fd port => _ ← sys_socket_bind fd port; mret ()
  | CConnect fd ip port => _ ← sys_socket_connect fd ip port; mret ()
  | CSocketSend fd data size => _ ← sys_socket_send fd data size; mret ()
  | CRecv fd capacity size => _ ← sys_socket_recv fd capacity size; mret ()
  | CClose fd => _ ← sys_socket_close fd; mret ()
  | CListen fd => _ ← sys_socket_listen fd; mret ()
  end.

Inductive net_step : net N → net N → Prop :=
  | net_step_call c s s' : run_call c s = Ok ((), s') → net_step s s'.

Definition all_closed s : Prop := Forall (λ t, tc_state t = CLOSED) (g_tcp_sockets s).

(** The configuration and the client are as before, and no TCP socket opens. *)
Definition kept s s' : Prop :=
  g_our_ip s' = g_our_ip s ∧ g_gateway_ip s' = g_gateway_ip s ∧ g_net_ready s' = g_net_ready s ∧
  g_dhcp_state s' = g_dhcp_state s ∧ (all_closed s → all_closed s').

Lemma kept_same s s' :
  g_our_ip s' = g_our_ip s → g_gateway_ip s' = g_gateway_ip s → g_net_ready s' = g_net_ready s →
  g_dhcp_state s' = g_dhcp_state s → g_tcp_sockets s' = g_tcp_sockets s → kept s s'.
Proof. intros ? ? ? ? E. split_and!; try done. unfold all_closed. by rewrite E. Qed.

#[local] Instance kept_preorder : PreOrder kept.
Proof. split; [intros s; by apply kept_same|]. intros s1 s2 s3 (?&?&?&?&?) (?&?&?&?&?). repeat split; try congruence; auto. Qed.

Local Abbreviation still := (keeps kept).

Lemma keeps_copy d i n : still (copy d i n).
Proof. apply keeps_deref. Qed.
Lemma keeps_transmit f : still (nic_op (eth_transmit f)).
Proof. intros s. unfold nic_op, wlp. destruct (eth_transmit f (nic s)) as [[b n]| |]; [|done..]. by apply kept_same. Qed.

(** Case analysis of a handler down to its primitive steps. *)
Ltac still_tac := keeps_tac;
  repeat match goal with
  | |- keeps _ (copy _ _ _) => apply keeps_copy
  | |- keeps _ (nic_op (eth_transmit _)) => apply keeps_transmit
  | |- keeps _ (modify _) => apply keeps_modify; intros ?; by apply kept_same
  | |- keeps _ _ => progress cbv beta zeta; keeps_tac
  end.

Lemma keeps_eth_send dst type payload : still (eth_send dst type payload).
Proof. unfold eth_send. still_tac. Qed.
Lemma keeps_arp_resolve ip : still (arp_resolve ip).
Proof. unfold arp_resolve, arp_send_request. still_tac. apply keeps_eth_send. Qed.
Lemma keeps_ipv4_send dst protocol payload : still (ipv4_send dst protocol payload).
Proof. unfold ipv4_send. still_tac; first [apply keeps_eth_send|apply keeps_arp_resolve]. Qed.
Lemma keeps_arp data len : still (arp_handle_packet data len).
Proof. unfold arp_handle_packet, arp_cache_insert. still_tac. apply keeps_eth_send. Qed.
Lemma keeps_icmp data len src : still (icmp_handle_echo data len src).
Proof. unfold icmp_handle_echo. still_tac. apply keeps_ipv4_send. Qed.
Lemma keeps_udp data len : still (udp_handle_packet data len).
Proof. unfold udp_handle_packet. still_tac. Qed.

(** Without a socket out of CLOSED a segment opens none. *)
Lemma keeps_tcp data len : still (tcp_handle_packet data len).
Proof.
  unfold tcp_handle_packet. case_match; [apply keeps_ret|]. apply keeps_bind; [apply keeps_deref|intros a s].
  cbv zeta. apply wlp_bind.
  assert (Hset : ∀ s2 l, (all_closed s2 → Forall (λ t, tc_state t = CLOSED) l) → kept s2 (set_g_tcp_sockets l s2))
    by (intros s2 l Hl; by split_and!).
  unfold tcp_find_or_alloc_socket. apply wlp_bind, wlp_get.
  assert (Hgo : ∀ i s2, kept s s2 → wlp (s ← get; t ← deref (g_tcp_sockets s !! i);
      modify (set_g_tcp_sockets (<[i := set_tc_state (tcp_next (tc_state t)
        (Z.land (ntohs (tcp_data_offset_flags a)) 0x1F)) t]> (g_tcp_sockets s)))) (λ _ s', kept s s') s2).
  { intros i s2 Hk. apply wlp_bind, wlp_get, wlp_bind, wlp_deref. intros t Ht.
    apply wlp_modify. etrans; [exact Hk|]. apply Hset. intros Hc.
    apply Forall_insert; [done|]. pose proof (Forall_lookup_1 _ _ _ _ Hc Ht) as E. simpl in *. by rewrite E. }
  case_match; case_match.
  - apply Hgo. reflexivity.
  - case_match. apply Hgo. apply Hset. intros Hc. by apply Forall_insert.
  - apply wlp_ret, wlp_ret. reflexivity.
Qed.

Lemma keeps_ipv4 data len : still (ipv4_handle_packet data len).
Proof. unfold ipv4_handle_packet. still_tac; first [apply keeps_icmp|apply keeps_udp|apply keeps_tcp]. Qed.
Lemma keeps_receive buf : still (net_receive buf).
Proof. unfold net_receive. still_tac; first [apply keeps_arp|apply keeps_ipv4]. Qed.

(** [listen] refuses a closed socket, so it opens none either. *)
Lemma keeps_listen fd : still (sys_socket_listen fd).
Proof.
  unfold sys_socket_listen. case_match; [apply keeps_ret|]. intros s. apply wlp_bind, wlp_get.
  apply wlp_bind, wlp_deref. intros t Ht. destruct (decide _) as [Hc|Hc]; [apply wlp_ret; reflexivity|].
  apply wlp_bind, wlp_modify, wlp_ret. split_and!; try done. intros Hall.
  by destruct (Forall_lookup_1 _ _ _ _ Hall Ht).
Qed.

Lemma keeps_call c : still (run_call c).
Proof.
  destruct c; cbn [run_call]; unfold net_send, sys_socket_create, udp_alloc_socket, sys_socket_bind, sys_socket_connect,
    sys_socket_send, sys_socket_recv, sys_socket_close; still_tac; first [apply keeps_receive|apply keeps_ipv4_send|apply keeps_listen].
Qed.

Lemma run_kept s s' : rtc net_step s s' → kept s s'.
Proof.
  induction 1 as [|s1 s2 s3 [c ? ? Hrun] _ IH]; [reflexivity|]. etrans; [|exact IH].
  exact (wlp_result _ _ _ _ _ (keeps_call c _) Hrun).
Qed.
End runs.
