(* ===== verification/NetCalls.v ===== *)
(** * The public calls return and keep the tables well formed *)

From S2P Require Import Prelude Bytes Net NetCodec NetInv NetArp NetUdp NetDhcp.
Open Scope Z_scope.

Section calls.
Context {N : Type} `{!EthLayer N}.
Implicit Types s : net N.

(** What a caller owes: ports of 16 bits, buffers of the size it states, and
    frames whose lengths are consistent. *)
Definition call_ok (c : net_call) : Prop :=
  match c with
  | CReceive (Some (mkBuf (Some data) length _)) =>
    length = Z.of_nat (List.length data) ∧ ipv4_lengths_ok (drop sizeof_EthHeader data)
  | CReceive _ => True
  | CSend _ (Some data) size => 0 ≤ size ≤ Z.of_nat (length data) ∧ size < 2 ^ 63
  | CSend _ None _ => True
  | CCreate => True
  | CBind _ port => u16_ok port
  | CConnect _ _ port => u16_ok port
  | CSocketSend _ data size => 0 ≤ size ≤ Z.of_nat (length data) ∧ size < 2 ^ 63
  | CRecv _ capacity size => 0 ≤ size ≤ Z.of_nat capacity
  | CClose _ => True
  | CListen _ => True
  end.

Lemma fd_ok_udp s fd : net_inv s → fd_ok fd MAX_UDP_SOCKETS = true →
  ∃ u, g_udp_sockets s !! Z.to_nat fd = Some u ∧ ucb_ok u.
Proof.
  intros Hi Hfd. unfold fd_ok in Hfd. apply andb_prop in Hfd as [H1%Z.leb_le H2%Z.ltb_lt].
  destruct (lookup_lt_is_Some_2 (g_udp_sockets s) (Z.to_nat fd)) as [u Hu]; [rewrite (ni_udp _ Hi); lia|].
  exists u. split; [done|]. by eapply ni_sock.
Qed.

(** A call that rewrites one socket. *)
Lemma with_socket_wp {A} fd (bad : A) (k : net N → UdpControlBlock → M (net N) A) s (R : A → net N → Prop) :
  net_inv s → R bad s → (∀ u, g_udp_sockets s !! Z.to_nat fd = Some u → ucb_ok u → wp (k s u) R s) →
  wp (if negb (fd_ok fd MAX_UDP_SOCKETS) then mret bad
      else s ← get; u ← deref (g_udp_sockets s !! Z.to_nat fd); k s u) R s.
Proof.
  intros Hi Hbad Hk. destruct (fd_ok fd MAX_UDP_SOCKETS) eqn:Efd; cbn [negb]; [|by apply wp_ret].
  destruct (fd_ok_udp s fd Hi Efd) as (u & Hu & Hok). apply wp_bind, wp_get, wp_bind. rewrite Hu. apply wp_ret. by apply Hk.
Qed.

Lemma create_inv s (R : Z → net N → Prop) :
  net_inv s → (∀ fd s', net_inv s' → R fd s') → wp sys_socket_create R s.
Proof.
  intros Hi HR. unfold sys_socket_create, udp_alloc_socket. apply wp_bind, wp_bind, wp_get.
  destruct (list_find _ _) as [[i u]|] eqn:E; [|by apply wp_ret, wp_ret, HR].
  apply list_find_Some in E as (Hu & _). apply wp_bind, wp_modify, wp_ret, wp_ret, HR, net_inv_sock; [done|].
  destruct (ni_sock _ _ _ Hi Hu) as (? & ? & ? & ?). unfold ucb_ok, u16_ok in *. cbn [u_rx_data u_rx_len u_local_port u_remote_port]. split_and!; (done || lia).
Qed.

Lemma bind_inv fd port s (R : Z → net N → Prop) :
  net_inv s → u16_ok port → (∀ r s', net_inv s' → R r s') → wp (sys_socket_bind fd port) R s.
Proof.
  intros Hi Hp HR. unfold sys_socket_bind. apply with_socket_wp; [done|by apply HR|]. intros u Hu (? & ? & ? & ?).
  case_match; [by apply wp_ret, HR|]. apply wp_bind, wp_modify, wp_ret, HR, net_inv_sock; done.
Qed.

Lemma connect_inv fd ip port s (R : Z → net N → Prop) :
  net_inv s → u16_ok port → (∀ r s', net_inv s' → R r s') → wp (sys_socket_connect fd ip port) R s.
Proof.
  intros Hi Hp HR. unfold sys_socket_connect. apply with_socket_wp; [done|by apply HR|]. intros u Hu (? & ? & ? & ?).
  case_match; [by apply wp_ret, HR|]. apply wp_bind, wp_modify, wp_ret, HR, net_inv_sock; done.
Qed.

Lemma socket_send_inv fd data size s (R : Z → net N → Prop) :
  net_inv s → 0 ≤ size ≤ Z.of_nat (length data) → size < 2 ^ 63 → (∀ r s', net_inv s' → R r s') →
  wp (sys_socket_send fd data size) R s.
Proof.
  intros Hi Hs Hb HR. unfold sys_socket_send. apply with_socket_wp; [done|by apply HR|]. intros u Hu _.
  case_match; [|by apply wp_ret, HR]. case_match; [by apply wp_ret, HR|].
  apply wp_bind. unfold copy. rewrite slice_some by lia. apply wp_ret, wp_bind, ipv4_send_wp; [done|].
  intros b s' Hi' _ _. by apply wp_ret, HR.
Qed.

Lemma recv_inv fd capacity size s (R : Z * list Z → net N → Prop) :
  net_inv s → 0 ≤ size ≤ Z.of_nat capacity → (∀ r s', net_inv s' → R r s') → wp (sys_socket_recv fd capacity size) R s.
Proof.
  intros Hi Hs HR. unfold sys_socket_recv. apply with_socket_wp; [done|by apply HR|]. intros u Hu (Hrx & Hl & ? & ?).
  case_match; [by apply wp_ret, HR|]. set (n := if size <? u_rx_len u then size else u_rx_len u).
  assert (Hn : 0 ≤ n ≤ size ∧ n ≤ u_rx_len u) by (unfold n; destruct (Z.ltb_spec size (u_rx_len u)); lia).
  rewrite (proj2 (Z.ltb_ge _ _)) by lia. apply wp_bind. unfold copy. rewrite slice_some by lia.
  apply wp_ret, wp_bind, wp_modify, wp_ret, HR, net_inv_sock; [done|]. unfold ucb_ok. cbn [u_rx_data u_rx_len u_local_port u_remote_port]. split_and!; (done || lia).
Qed.

Lemma close_inv fd s (R : Z → net N → Prop) :
  net_inv s → (∀ r s', net_inv s' → R r s') → wp (sys_socket_close fd) R s.
Proof.
  intros Hi HR. unfold sys_socket_close. apply with_socket_wp; [done|by apply HR|]. intros u Hu Hok.
  apply wp_bind, wp_modify, wp_ret, HR, net_inv_sock; done.
Qed.

Lemma listen_inv fd s (R : Z → net N → Prop) :
  net_inv s → (∀ r s', net_inv s' → R r s') → wp (sys_socket_listen fd) R s.
Proof.
  intros Hi HR. unfold sys_socket_listen. destruct (fd_ok fd MAX_TCP_SOCKETS) eqn:Efd; cbn [negb]; [|by apply wp_ret, HR].
  unfold fd_ok in Efd. apply andb_prop in Efd as [H1%Z.leb_le H2%Z.ltb_lt].
  destruct (lookup_lt_is_Some_2 (g_tcp_sockets s) (Z.to_nat fd)) as [t Ht]; [rewrite (ni_tcp _ Hi); lia|].
  apply wp_bind, wp_get, wp_bind. rewrite Ht. apply wp_ret. case_match; [by apply wp_ret, HR|].
  apply wp_bind, wp_modify, wp_ret, HR. destruct Hi. split; try done. cbn. by rewrite length_insert.
Qed.

Lemma net_send_inv sock data size s (R : () → net N → Prop) :
  net_inv s → call_ok (CSend sock data size) → (∀ s', net_inv s' → R () s') → wp (net_send sock data size) R s.
Proof.
  intros Hi Hok HR. unfold net_send. destruct sock; [|by apply wp_ret, HR]. destruct data as [data|]; [|by apply wp_ret, HR].
  destruct Hok as [Hs Hb]. case_match; [by apply wp_ret, HR|]. case_match; [by apply wp_ret, HR|].
  apply wp_bind. unfold copy. rewrite slice_some by lia. apply wp_ret, wp_bind, wp_get, wp_bind, ipv4_send_wp; [done|].
  intros b s' Hi' _ _. by apply wp_ret, HR.
Qed.

Lemma run_call_wp c s (R : () → net N → Prop) :
  net_inv s → call_ok c → (∀ s', net_inv s' → R () s') → wp (run_call c) R s.
Proof.
  intros Hi Hok HR. destruct c as [buf| | | | | | | |]; cbn [run_call].
  - destruct buf as [[[data|] len flags]|]; [|by apply wp_ret, HR..]. destruct Hok as [-> Hl].
    apply net_receive_wp; [done|done|]. intros s' Hi' _. by apply HR.
  - by apply net_send_inv.
  - apply wp_bind, create_inv; [done|]. intros; by apply wp_ret, HR.
  - apply wp_bind, bind_inv; [done|done|]. intros; by apply wp_ret, HR.
  - apply wp_bind, connect_inv; [done|done|]. intros; by apply wp_ret, HR.
  - destruct Hok. apply wp_bind, socket_send_inv; [done|done|done|]. intros; by apply wp_ret, HR.
  - apply wp_bind, recv_inv; [done|done|]. intros; by apply wp_ret, HR.
  - apply wp_bind, close_inv; [done|]. intros; by apply wp_ret, HR.
  - apply wp_bind, listen_inv; [done|]. intros; by apply wp_ret, HR.
Qed.

(** ** Where it is undefined *)

(** A header length above five words: the checksum runs past the copy. *)
Lemma ipv4_options_undefined data len ip s :
  Z.of_nat sizeof_Ipv4Header ≤ len → ip_read data = Some ip → 5 < Z.land (ip_ver_ihl ip) 0x0F →
  ipv4_handle_packet data len s = UB.
Proof.
  intros Hl Hip Hihl. unfold ipv4_handle_packet. rewrite (proj2 (Z.ltb_ge _ _)) by done. rewrite Hip. cbn [deref].
  rewrite (bind_ok (mret ip) _ s ip s eq_refl). unfold copy. rewrite slice_none; [done|].
  rewrite ip_bytes_length; unfold sizeof_Ipv4Header; [lia|..];
    unfold ip_read in Hip; repeat (apply bind_Some in Hip as (? & ? & Hip)); injection Hip as <-; by eapply slice_length.
Qed.

(** A datagram length below the header's: the payload length wraps, is cut to
    the size of the receive buffer, and that much is copied. *)
Lemma udp_short_length_undefined data len udp i s :
  Z.of_nat sizeof_UdpHeader ≤ len → udp_read data = Some udp → ntohs (udp_length udp) < 8 →
  udp_find_socket (ntohs (udp_dst_port udp)) (g_udp_sockets s) = Some i → (length data < RX_SIZE + sizeof_UdpHeader)%nat →
  udp_handle_packet data len s = UB.
Proof.
  intros Hl Hu Hlen Hf Hd. unfold udp_handle_packet. rewrite (proj2 (Z.ltb_ge _ _)) by done. rewrite Hu. cbn [deref].
  rewrite (bind_ok (mret udp) _ s udp s eq_refl), (bind_ok get _ s s s eq_refl), Hf.
  destruct (udp_find_lookup _ _ _ Hf) as (u & -> & _). cbn [deref]. rewrite (bind_ok (mret u) _ s u s eq_refl).
  assert (Hb : u16_ok (ntohs (udp_length udp))) by apply u16_ok_bswap. unfold u16_ok, sizeof_UdpHeader in *.
  assert (Hw : ntohs (udp_length udp) -64 Z.of_nat 8 = ntohs (udp_length udp) - 8 + 2 ^ 64).
  { unfold wrap. rewrite <-(Z.mod_add _ 1) by lia. rewrite Z.mod_small; lia. }
  rewrite Hw. assert (Hr : Z.of_nat RX_SIZE < 2 ^ 32) by (vm_compute; done).
  rewrite (proj2 (Z.ltb_lt _ _)) by lia. rewrite Nat2Z.id. unfold copy. rewrite slice_none by lia. done.
Qed.
End calls.
