(* ===== verification/NetTheorems.v ===== *)
(** * The network stack: properties *)

From stdpp Require Import relations.
From S2P Require Import Prelude Bytes Net NetCodec NetInv NetArp NetUdp NetDhcp NetCalls.
Open Scope Z_scope.

(** ** A driver to evaluate on: it records the frames. *)

Record wire := mkWire { w_host : Z; w_sent : list (list Z) }.
Definition wire_transmit (frame : list Z) : M wire bool :=
  modify (λ w, mkWire (w_host w) (w_sent w ++ [frame]));; mret true.
Definition wire_mac (w : wire) : list Z := [2; 0; 0; 0; 0; u8 (w_host w)].

#[export] Instance wire_eth : EthLayer wire.
Proof.
  refine {| eth_transmit := wire_transmit; eth_get_mac := wire_mac |}.
  - intros frame n. by eexists _, _.
  - done.
  - intros n. unfold wire_mac. pose proof (wrap_range 8 (w_host n)). repeat (constructor; [unfold byte_ok; lia|]). constructor.
Defined.

Definition host (id : Z) : net wire := final_state net_init (net_boot (mkWire id [])).

Lemma host_inv id : net_inv (host id).
Proof.
  destruct (wp_final_state net_init (λ _ s, net_inv s) (net_boot (mkWire id []))) as [_ H]; [|exact H].
  apply net_init_wp; [apply net_boot_inv|]. intros s' Hi _ _ _ _ _ _. exact Hi.
Qed.

(** ** The checksum *)

(** [ip_checksum] is the Internet checksum: the complement of the ones'
    complement sum of the big-endian words, in network order, for every buffer
    of up to 65535 bytes; the two rounds of carries always suffice, and putting
    it in place of a zero field at an even offset makes the words of the whole
    sum to zero in ones' complement. *)
Theorem ip_checksum_correct data :
  bytes_ok data → Z.of_nat (length data) ≤ 65535 →
  ip_checksum data = htons (65535 - ones_sum (word_sum data)) ∧
  (fold_carry CARRY_ROUNDS (cksum_words 0 data) < 65536) ∧
  ∀ a b, data = a ++ [0; 0] ++ b → Nat.Even (length a) →
    word_sum (a ++ le_bytes 2 (ip_checksum data) ++ b) mod 65535 = 0.
Proof.
  intros Hd Hl. split; [by apply checksum_value|]. split.
  - pose proof (word_sum_bound data Hd). rewrite cksum_words_sum, Z.add_0_l by (done || lia).
    rewrite fold_carry_ones by lia. apply ones_range.
  - intros a b -> He. unfold bytes_ok in Hd. rewrite !Forall_app in Hd. destruct Hd as (Ha & _ & Hb).
    by apply checksum_verifies.
Qed.

Lemma ip_checksum_correct_witness :
  ip_checksum [0x45; 0; 0; 0x54; 0; 0; 0x40; 0; 0x40; 1; 0; 0; 10; 0; 0; 1; 10; 0; 0; 2] = htons (65535 - ones_sum 0xD958).
Proof.
  destruct (ip_checksum_correct [0x45; 0; 0; 0x54; 0; 0; 0x40; 0; 0x40; 1; 0; 0; 10; 0; 0; 1; 10; 0; 0; 2]) as (E & _).
  - repeat (constructor; [unfold byte_ok; lia|]). constructor.
  - simpl. lia.
  - exact E.
Defined.

(** ** ARP *)

(** C36: The ARP cache is a map of bounded size.  An insertion returns, keeps
    the table well formed and its valid entries distinct; afterwards the
    address has the given hardware address, and every other address has what
    it had, except the one whose slot was recycled, which is forgotten. *)
Theorem arp_cache_correct {N} `{!EthLayer N} (s : net N) ip mac :
  net_inv s → cache_uniq (g_arp_cache s) → length mac = 6%nat →
  ∃ s', arp_cache_insert ip mac s = Ok ((), s') ∧ net_inv s' ∧ same_tables s s' ∧ cache_uniq (g_arp_cache s') ∧
    ∀ ip', arp_cache_lookup ip' (g_arp_cache s') = lookup_after s ip mac ip'.
Proof.
  intros Hi Hu Hm. pose proof (arp_insert_result s ip mac Hi Hu Hm) as ([] & s' & E & ? & ? & ? & ? & ?)%wp_ok. eauto 10.
Qed.

Lemma empty_cache_uniq {N} (s : net N) : Forall (λ e, ae_valid e = false) (g_arp_cache s) → cache_uniq (g_arp_cache s).
Proof.
  intros Hall i j ip mac mac' (e & He & Hv & _) _. pose proof (Forall_lookup_1 _ _ _ _ Hall He) as Hf. simpl in Hf. congruence.
Qed.

Lemma arp_cache_correct_witness :
  ∃ s', arp_cache_insert 7 [1; 2; 3; 4; 5; 6] (host 1) = Ok ((), s') ∧ arp_cache_lookup 7 (g_arp_cache s') = Some [1; 2; 3; 4; 5; 6].
Proof.
  destruct (arp_cache_correct (host 1) 7 [1; 2; 3; 4; 5; 6] (host_inv 1)) as (s' & E & _ & _ & _ & Hl).
  - apply empty_cache_uniq. vm_compute. repeat constructor.
  - reflexivity.
  - exists s'. split; [exact E|]. exact (Hl 7).
Defined.

(** ** End to end *)

(** C9: A datagram sent on one host arrives on another.  A connected socket
    whose next hop is in the ARP cache hands the driver one frame; a host with
    that hardware and network address and a socket on the destination port
    that receives this frame accepts both headers and the checksum, stores
    exactly the payload, and [sys_socket_recv] returns it. *)
Theorem udp_end_to_end {N} `{!EthLayer N} (s r : net N) fd u mac payload i v :
  net_inv s → net_inv r → u32_ok (u_remote_ip u) → u32_ok (g_our_ip s) →
  fd_ok fd MAX_UDP_SOCKETS = true → g_udp_sockets s !! Z.to_nat fd = Some u → u_state u = UDP_CONNECTED →
  (length payload ≤ 1492)%nat → u_remote_ip u ≠ IP_BROADCAST →
  arp_cache_lookup (next_hop s (u_remote_ip u)) (g_arp_cache s) = Some mac →
  mac = g_our_mac r → u_remote_ip u = g_our_ip r →
  udp_find_socket (u_remote_port u) (g_udp_sockets r) = Some i → g_udp_sockets r !! i = Some v →
  ∃ frame r' r'', sys_socket_send fd payload (Z.of_nat (length payload)) s =
      (ok ← nic_op (eth_transmit frame); mret (if (ok : bool) then Z.of_nat (length payload) else -1)) (bump_ident s) ∧
    net_receive (Some (mkBuf (Some frame) (Z.of_nat (length frame)) 0)) r = Ok ((), r') ∧
    sys_socket_recv (Z.of_nat i) (length payload) (Z.of_nat (length payload)) r' =
      Ok ((Z.of_nat (length payload), payload), r'').
Proof.
  intros Hi Hj Hrip Hour Hfd Hu Hst Hlen Hbr Harp Hmac Hip Hf Hv.
  pose proof (ni_sock _ _ _ Hi Hu) as (_ & _ & Hlp & Hrp). pose proof (ni_sock _ _ _ Hj Hv) as (Hrx & _).
  exists (udp_frame s u mac payload). do 2 eexists. split_and!.
  - by apply socket_send_frame.
  - eapply (udp_frame_received s r u mac payload i v); try done. rewrite Hmac. apply Hj.
  - assert (Hil : (i < MAX_UDP_SOCKETS)%nat) by (rewrite <-(ni_udp _ Hj); by eapply lookup_lt_Some).
    unfold sys_socket_recv. assert (fd_ok (Z.of_nat i) MAX_UDP_SOCKETS = true) as ->.
    { unfold fd_ok. rewrite (proj2 (Z.leb_le _ _)), (proj2 (Z.ltb_lt _ _)) by lia. done. }
    cbn [negb]. set (r' := set_g_udp_sockets _ r). rewrite (bind_ok get _ r' r' r' eq_refl).
    assert (g_udp_sockets r' !! Z.to_nat (Z.of_nat i) = Some (udp_deliver v payload (u_local_port u))) as ->.
    { rewrite Nat2Z.id. cbn. rewrite list_lookup_insert_eq; [done|]. by eapply lookup_lt_Some. }
    cbn [deref]. rewrite (bind_ok (mret _) _ r' _ r' eq_refl). cbn [udp_deliver u_rx_pending u_rx_len u_rx_data negb].
    rewrite Z.ltb_irrefl. cbv beta iota zeta. rewrite Z.ltb_irrefl. unfold copy. rewrite !Nat2Z.id, slice_app_l by done. cbn [deref].
    rewrite (bind_ok (mret payload) _ r' payload r' eq_refl). reflexivity.
Qed.

(** Two hosts on one subnet, the sender with the receiver in its cache. *)
Definition demo_ip (id : Z) : Z := ip_from_bytes 192 168 1 id.
Definition make_sender : M (net wire) () :=
  modify (set_g_our_ip (demo_ip 10));; modify (set_g_subnet_mask (ip_from_bytes 255 255 255 0));;
  arp_cache_insert (demo_ip 20) [2; 0; 0; 0; 0; 2];; _ ← sys_socket_create; _ ← sys_socket_bind 0 5000;
  _ ← sys_socket_connect 0 (demo_ip 20) 7777; mret ().
Definition make_receiver : M (net wire) () :=
  modify (set_g_our_ip (demo_ip 20));; _ ← sys_socket_create; _ ← sys_socket_bind 0 7777; mret ().
Definition demo_sender : net wire := final_state make_sender (host 1).
Definition demo_receiver : net wire := final_state make_receiver (host 2).

Lemma make_sender_inv s : net_inv s → net_inv (final_state make_sender s).
Proof.
  intros Hi. destruct (wp_final_state make_sender (λ _ s, net_inv s) s) as [_ H]; [|exact H].
  apply wp_bind, wp_modify, wp_bind, wp_modify, wp_bind, arp_cache_insert_wp;
    [destruct Hi; by split|done|]. intros s1 H1 _ _ _. apply wp_bind, create_inv; [done|]. intros fd s2 H2.
  apply wp_bind, bind_inv; [done|unfold u16_ok; lia|]. intros r s3 H3.
  apply wp_bind, connect_inv; [done|unfold u16_ok; lia|]. intros r' s4 H4. by apply wp_ret.
Qed.

Lemma make_receiver_inv s : net_inv s → net_inv (final_state make_receiver s).
Proof.
  intros Hi. destruct (wp_final_state make_receiver (λ _ s, net_inv s) s) as [_ H]; [|exact H].
  apply wp_bind, wp_modify, wp_bind, create_inv; [destruct Hi; by split|]. intros fd s1 H1.
  apply wp_bind, bind_inv; [done|unfold u16_ok; lia|]. intros r s2 H2. by apply wp_ret.
Qed.

Lemma demo_sender_inv : net_inv demo_sender.
Proof. exact (make_sender_inv _ (host_inv 1)). Qed.
Lemma demo_receiver_inv : net_inv demo_receiver.
Proof. exact (make_receiver_inv _ (host_inv 2)). Qed.

Lemma udp_end_to_end_witness :
  ∃ u v frame r' r'', g_udp_sockets demo_sender !! 0%nat = Some u ∧ g_udp_sockets demo_receiver !! 0%nat = Some v ∧
    sys_socket_send 0 [72; 105] 2 demo_sender =
      (ok ← nic_op (eth_transmit frame); mret (if (ok : bool) then 2 else -1)) (bump_ident demo_sender) ∧
    net_receive (Some (mkBuf (Some frame) (Z.of_nat (length frame)) 0)) demo_receiver = Ok ((), r') ∧
    sys_socket_recv 0 2 2 r' = Ok ((2, [72; 105]), r'').
Proof.
  destruct (lookup_lt_is_Some_2 (g_udp_sockets demo_sender) 0) as [u Hu]; [rewrite (ni_udp _ demo_sender_inv); unfold MAX_UDP_SOCKETS; lia|].
  destruct (lookup_lt_is_Some_2 (g_udp_sockets demo_receiver) 0) as [v Hv]; [rewrite (ni_udp _ demo_receiver_inv); unfold MAX_UDP_SOCKETS; lia|].
  assert (Hst : u_state <$> g_udp_sockets demo_sender !! 0%nat = Some UDP_CONNECTED) by (vm_compute; reflexivity).
  assert (Hip : u_remote_ip <$> g_udp_sockets demo_sender !! 0%nat = Some (demo_ip 20)) by (vm_compute; reflexivity).
  assert (Hport : u_remote_port <$> g_udp_sockets demo_sender !! 0%nat = Some 7777) by (vm_compute; reflexivity).
  rewrite Hu in Hst, Hip, Hport. injection Hst as Hst. injection Hip as Hip. injection Hport as Hport.
  destruct (udp_end_to_end demo_sender demo_receiver 0 u [2; 0; 0; 0; 0; 2] [72; 105] 0 v demo_sender_inv demo_receiver_inv)
    as (frame & r' & r'' & H1 & H2 & H3).
  - rewrite Hip. vm_compute. split; [discriminate|reflexivity].
  - vm_compute. split; [discriminate|reflexivity].
  - reflexivity.
  - exact Hu.
  - exact Hst.
  - simpl. lia.
  - rewrite Hip. discriminate.
  - rewrite Hip. vm_compute. reflexivity.
  - vm_compute. reflexivity.
  - rewrite Hip. vm_compute. reflexivity.
  - rewrite Hport. vm_compute. reflexivity.
  - exact Hv.
  - exists u, v, frame, r', r''. split; [exact Hu|]. split; [exact Hv|]. split; [exact H1|]. split; [exact H2|exact H3].
Defined.

(** ** Safety of the public interface *)



(** A frame can drive the receiver out of its buffers: every IPv4 frame for
    this host or for all hosts whose header has more than five words makes
    [net_receive] read past the copy it checks, before the checksum is
    compared. *)
Theorem ipv4_options_overread {N} `{!EthLayer N} (s : net N) data eth ip flags :
  eth_read data = Some eth → ntohs (eth_type eth) = ETHERTYPE_IPV4 → eth_dst eth = mac_broadcast ∨ eth_dst eth = g_our_mac s →
  ip_read (drop sizeof_EthHeader data) = Some ip → 5 < Z.land (ip_ver_ihl ip) 0x0F → (34 ≤ length data)%nat →
  net_receive (Some (mkBuf (Some data) (Z.of_nat (length data)) flags)) s = UB.
Proof.
  intros He Ht Hd Hip Hihl Hl. unfold net_receive. unfold sizeof_EthHeader in *. rewrite (proj2 (Z.ltb_ge _ _)) by lia.
  rewrite He. cbn [deref]. rewrite (bind_ok (mret eth) _ s eth s eq_refl), (bind_ok get _ s s s eq_refl), Ht.
  assert (negb (is_broadcast (eth_dst eth)) && negb (mac_eqb (eth_dst eth) (g_our_mac s)) = false) as ->.
  { unfold is_broadcast, mac_eqb. destruct Hd as [E|E]; [rewrite (bool_decide_true (eth_dst eth = mac_broadcast)) by done; done|].
    rewrite (bool_decide_true (eth_dst eth = g_our_mac s)) by done. apply andb_false_r. }
  change (ETHERTYPE_IPV4 =? ETHERTYPE_ARP) with false. rewrite Z.eqb_refl. cbv iota.
  eapply ipv4_options_undefined; [unfold sizeof_Ipv4Header; lia|exact Hip|done].
Qed.

(** A broadcast frame with a six-word header. *)
Definition options_frame : list Z := mac_broadcast ++ replicate 6 0 ++ [8; 0] ++ [0x46] ++ replicate 40 0.

Lemma ipv4_options_overread_witness :
  net_receive (Some (mkBuf (Some options_frame) (Z.of_nat (length options_frame)) 0)) (host 1) = UB.
Proof.
  eapply ipv4_options_overread;
    [vm_compute; reflexivity|vm_compute; reflexivity|left; reflexivity|vm_compute; reflexivity|vm_compute; reflexivity|vm_compute; lia].
Defined.

(** ** DHCP *)

(** The option parser reads back what an encoder wrote: for every sequence
    of well-formed options and padding, followed by the end marker and by
    anything, it returns the value of the last message-type option and of the
    last server option, in a number of rounds bounded by the bytes. *)
Theorem dhcp_parse_roundtrip beyond opts junk :
  Forall opt_ok opts →
  let data := concat (encode_opt <$> opts) ++ DHCP_OPT_END :: junk in
  parse_options beyond (length data) data 0 0 = Some (foldl opt_effect (0, 0) opts).
Proof.
  intros Hok data. apply parse_options_fold; [done|]. unfold data. rewrite length_app. simpl.
  enough (length opts ≤ length (concat (encode_opt <$> opts)))%nat by lia. clear.
  induction opts as [|o opts IH]; [simpl; lia|]. rewrite fmap_cons. cbn [concat length]. rewrite length_app.
  assert (0 < length (encode_opt o))%nat by (destruct o; simpl; lia). lia.
Qed.

Lemma dhcp_parse_roundtrip_witness :
  parse_options false 13 [53; 1; 2; 0; 54; 4; 10; 0; 0; 1; 255; 9; 9] 0 0 = Some (2, 0x100000A).
Proof.
  apply (dhcp_parse_roundtrip false [Opt 53 [2]; Pad; Opt 54 [10; 0; 0; 1]] [9; 9]).
  repeat constructor; simpl; try lia; discriminate.
Defined.

(** C37: The DHCP client is the machine DISCOVER, OFFER, REQUEST, ACK: on a
    well-formed reply [dhcp_dispatch] returns, keeps the tables well formed and
    moves the state as [dhcp_next] says; the address of the interface and its
    readiness change exactly on an acknowledgement while requesting, and then
    to the address the reply assigns. *)
Theorem dhcp_dispatch_correct {N} `{!EthLayer N} (s : net N) data dhcp t srv :
  net_inv s → reply_ok data dhcp t srv →
  ∃ s', dhcp_dispatch data (Z.of_nat (length data)) s = Ok ((), s') ∧ net_inv s' ∧
    g_dhcp_state s' = dhcp_next (g_dhcp_state s) t ∧
    if decide (t = DHCP_ACK ∧ g_dhcp_state s = REQUESTING)
    then g_our_ip s' = le_value (dhcp_yiaddr dhcp) ∧ g_net_ready s' = true
    else g_our_ip s' = g_our_ip s ∧ g_net_ready s' = g_net_ready s.
Proof. intros Hi Hr. pose proof (dhcp_dispatch_wp data dhcp t srv s Hr Hi) as ([] & s' & E & H)%wp_ok. eauto. Qed.

Definition demo_offer : list Z :=
  dhcp_bytes (mkDhcp 2 1 6 0 0 0 0 (replicate 4 0) [192; 168; 1; 10] (replicate 4 0) (replicate 4 0) (replicate 16 0)
    (replicate 64 0) (replicate 128 0) (htonl DHCP_MAGIC_COOKIE)) ++ [53; 1; 2; 54; 4; 192; 168; 1; 1; 255].

Lemma dhcp_dispatch_correct_witness :
  ∃ s', dhcp_dispatch demo_offer (Z.of_nat (length demo_offer)) (host 1) = Ok ((), s') ∧ g_dhcp_state s' = REQUESTING.
Proof.
  assert (Hr : ∃ d srv, reply_ok demo_offer d DHCP_OFFER srv).
  { eexists _, _. split; [vm_compute; reflexivity|]. split; [vm_compute; reflexivity|]. split; [reflexivity|].
    split; [discriminate|]. split; [apply Nat.leb_le; vm_compute; reflexivity|vm_compute; reflexivity]. }
  destruct Hr as (d & srv & Hr).
  destruct (dhcp_dispatch_correct (host 1) demo_offer d DHCP_OFFER srv (host_inv 1) Hr) as (s' & E & _ & Hst & _).
  exists s'. split; [exact E|]. rewrite Hst. vm_compute. reflexivity.
Defined.

(** Still waiting for an offer, with no address, no gateway, no TCP socket open. *)
Definition unconfigured {N} (s : net N) : Prop :=
  g_dhcp_state s = WAITING_OFFER ∧ g_our_ip s = 0 ∧ g_gateway_ip s = 0 ∧ g_net_ready s = false ∧ all_closed s.

(** The interface is never configured.  From [net_init] on, in every run of
    the public calls with any frames and any driver, the client stays in
    WAITING_OFFER, the address and the gateway stay 0, the network is never
    ready, and every TCP socket stays CLOSED: no call reaches [dhcp_dispatch],
    and [listen] refuses the only state a socket can be in. *)
Theorem net_never_configured {N} `{!EthLayer N} (n : N) s0 s :
  net_init (net_boot n) = Ok ((), s0) → rtc net_step s0 s → unconfigured s.
Proof.
  intros H0 Hrun.
  assert (Hini : unconfigured s0).
  { refine (wp_result net_init (λ _ s0, unconfigured s0) _ _ _ _ H0). apply net_init_wp; [apply net_boot_inv|].
    intros s' _ _ E1 E2 E3 E4 E5. exact (conj E4 (conj E1 (conj E2 (conj E3 E5)))). }
  destruct (run_kept s0 s Hrun) as (K1 & K2 & K3 & K4 & K5). destruct Hini as (I1 & I2 & I3 & I4 & I5).
  unfold unconfigured. split_and!; try congruence. auto.
Qed.

Lemma net_never_configured_witness :
  ∃ s, rtc net_step (host 1) s ∧ length (w_sent (nic s)) = 2%nat ∧ g_dhcp_state s = WAITING_OFFER.
Proof.
  set (s := final_state (run_call (CSend true (Some [1; 2; 3]) 3)) (host 1)).
  assert (Hrun : rtc net_step (host 1) s).
  { eapply rtc_l; [|apply rtc_refl]. apply (net_step_call (CSend true (Some [1; 2; 3]) 3)). vm_compute. reflexivity. }
  exists s. split; [exact Hrun|]. split; [vm_compute; reflexivity|].
  refine (proj1 (net_never_configured (mkWire 1 []) (host 1) s _ Hrun)). vm_compute. reflexivity.
Defined.
