(* ===== verification/Vmm.v ===== *)
(** * Virtual memory

    Model of src/kernel/vmm.cpp and of the page-fault handler of
    src/kernel/pf.cpp.  Memory is byte-addressed through the direct map; a page
    table is 512 64-bit words at the virtual address of its page.  The objects
    [kmalloc] returned are [vm_spaces].  The control register CR3 is part of
    the state; the TLB is not modelled. *)

From S2P Require Import Prelude Bytes Pmm PmmBlocks PageAlloc KernelHeap.
Open Scope Z_scope.

Definition PAGE_PRESENT : Z := Z.shiftl 1 0.
Definition PAGE_WRITE : Z := Z.shiftl 1 1.
Definition PAGE_USER : Z := Z.shiftl 1 2.
Definition PAGE_NX : Z := Z.shiftl 1 63.
Definition ADDR_MASK : Z := 0x000FFFFFFFFFF000.
Definition ENTRIES : nat := 512.

Record AddressSpace := mkAs { as_pml4 : Z; as_brk : Z }.
Definition sizeof_AddressSpace : Z := 16.

Record vmm (H PA : Type) := mkVmm {
  vm_heap : H;
  vm_pages : PA;
  vm_mem : Z → Z;
  vm_spaces : gmap Z AddressSpace;
  vm_cr3 : Z
}.
Arguments mkVmm {H PA}.
Arguments vm_heap {H PA} _.
Arguments vm_pages {H PA} _.
Arguments vm_mem {H PA} _.
Arguments vm_spaces {H PA} _.
Arguments vm_cr3 {H PA} _.

Definition set_vm_heap {H PA} (v : H) (r : vmm H PA) : vmm H PA := mkVmm v (vm_pages r) (vm_mem r) (vm_spaces r) (vm_cr3 r).
Definition set_vm_pages {H PA} (v : PA) (r : vmm H PA) : vmm H PA := mkVmm (vm_heap r) v (vm_mem r) (vm_spaces r) (vm_cr3 r).
Definition set_vm_mem {H PA} (v : Z → Z) (r : vmm H PA) : vmm H PA :=
  mkVmm (vm_heap r) (vm_pages r) v (vm_spaces r) (vm_cr3 r).
Definition set_vm_spaces {H PA} (v : gmap Z AddressSpace) (r : vmm H PA) : vmm H PA :=
  mkVmm (vm_heap r) (vm_pages r) (vm_mem r) v (vm_cr3 r).
Definition set_vm_cr3 {H PA} (v : Z) (r : vmm H PA) : vmm H PA :=
  mkVmm (vm_heap r) (vm_pages r) (vm_mem r) (vm_spaces r) v.

(** ** Indices and entries *)

Definition get_pml4_idx (virt : Z) : Z := Z.land (Z.shiftr virt 39) 0x1FF.
Definition get_pdpt_idx (virt : Z) : Z := Z.land (Z.shiftr virt 30) 0x1FF.
Definition get_pd_idx (virt : Z) : Z := Z.land (Z.shiftr virt 21) 0x1FF.
Definition get_pt_idx (virt : Z) : Z := Z.land (Z.shiftr virt 12) 0x1FF.

Definition present (e : Z) : bool := has_flag e PAGE_PRESENT.
Definition entry_addr (e : Z) : Z := Z.land e ADDR_MASK.

(** The address of [table[i]]. *)
Definition slot (table i : Z) : Z := table + 8 * i.

Section vmm.
Context {H PA : Type} `{!KernelHeap H} `{!PageAllocator PA}.
Abbreviation W := (M (vmm H PA)).

Definition vm_page_op {A} (op : M PA A) : W A := λ s,
  match op (vm_pages s) with
  | Ok (a, pa) => Ok (a, set_vm_pages pa s)
  | Panic msg => Panic msg
  | UB => UB
  end.
Definition vm_heap_op {A} (op : M H A) : W A := λ s,
  match op (vm_heap s) with
  | Ok (a, h) => Ok (a, set_vm_heap h s)
  | Panic msg => Panic msg
  | UB => UB
  end.

Definition hhdm : W Z := gets (λ s, pa_hhdm (vm_pages s)).
Definition read_entry (table i : Z) : W Z := gets (λ s, load64 (vm_mem s) (slot table i)).
Definition write_entry (table i v : Z) : W () := modify (λ s, set_vm_mem (store64 (vm_mem s) (slot table i) v) s).
Definition read_space (a : Z) : W AddressSpace := s ← get; deref (vm_spaces s !! a).

(** [for (i = 0; i < n; ++i) virt[i] = 0], the last index last. *)
Fixpoint zero_entries (table : Z) (n : nat) : W () :=
  match n with
  | O => mret ()
  | S n => zero_entries table n;; write_entry table (Z.of_nat n) 0
  end.

(** ** Walking *)

(** The part for an absent entry: [false] when there is no page. *)
Definition create_level (current_table idx h : Z) : W bool :=
  phys ← vm_page_op (pa_alloc 1);
  if phys =? 0 then mret false
  else
    write_entry current_table idx (Z.lor (Z.lor (Z.lor phys PAGE_PRESENT) PAGE_WRITE) PAGE_USER);;
    zero_entries (phys +64 h) ENTRIES;;
    mret true.

Definition get_or_create_next_level (current_table idx : Z) : W (option Z) :=
  h ← hhdm;
  e ← read_entry current_table idx;
  ok ← (if present e then mret true else create_level current_table idx h);
  if (ok : bool) then e ← read_entry current_table idx; mret (Some (entry_addr e +64 h)) else mret None.

(** The three upper levels; [None] when a table cannot be made. *)
Definition walk_to_pt (pml4 virt : Z) : W (option Z) :=
  pdpt ← get_or_create_next_level pml4 (get_pml4_idx virt);
  match pdpt with
  | None => mret None
  | Some pdpt =>
    pd ← get_or_create_next_level pdpt (get_pdpt_idx virt);
    match pd with
    | None => mret None
    | Some pd => get_or_create_next_level pd (get_pd_idx virt)
    end
  end.

Definition walk_page_table (pml4 virt : Z) : W Z :=
  pt ← walk_to_pt pml4 virt;
  match pt with
  | None => mret 0
  | Some pt => e ← read_entry pt (get_pt_idx virt); mret (entry_addr e)
  end.

(** [flags] is a [uint32_t]. *)
Definition map_page (pml4 virt phys flags : Z) : W bool :=
  pt ← walk_to_pt pml4 virt;
  match pt with
  | None => mret false
  | Some pt =>
    write_entry pt (get_pt_idx virt) (Z.lor (Z.lor (entry_addr phys) flags) PAGE_PRESENT);;
    mret true
  end.

Definition unmap_page (pml4 virt : Z) : W () :=
  h ← hhdm;
  e4 ← read_entry pml4 (get_pml4_idx virt);
  when (present e4) (
    let pdpt := entry_addr e4 +64 h in
    e3 ← read_entry pdpt (get_pdpt_idx virt);
    when (present e3) (
      let pd := entry_addr e3 +64 h in
      e2 ← read_entry pd (get_pd_idx virt);
      when (present e2) (
        let pt := entry_addr e2 +64 h in
        write_entry pt (get_pt_idx virt) 0))).

Definition vmm_walk_page_table (a virt : Z) : W Z := x ← read_space a; walk_page_table (as_pml4 x) virt.
Definition vmm_map_page (a virt phys flags : Z) : W bool := x ← read_space a; map_page (as_pml4 x) virt phys flags.
Definition vmm_unmap_page (a virt : Z) : W () := x ← read_space a; unmap_page (as_pml4 x) virt.

(** ** Address spaces *)

Definition get_current_pml4 : W Z := s ← get; mret (vm_cr3 s +64 pa_hhdm (vm_pages s)).

(** [dst[i] = src[i]] for [n] indices from [i]. *)
Fixpoint copy_entries (src dst i : Z) (n : nat) : W () :=
  match n with
  | O => mret ()
  | S n => e ← read_entry src i; write_entry dst i e;; copy_entries src dst (i + 1) n
  end.

Definition vmm_create_address_space : W (option Z) :=
  pml4_phys ← vm_page_op (pa_alloc 1);
  if pml4_phys =? 0 then mret None
  else
    h ← hhdm;
    let pml4_virt := pml4_phys +64 h in
    zero_entries pml4_virt ENTRIES;;
    cur ← get_current_pml4;
    copy_entries cur pml4_virt 256 256;;
    p ← vm_heap_op (kmalloc sizeof_AddressSpace);
    if p =? 0 then mret None
    else
      modify (λ s, set_vm_spaces (<[p := mkAs pml4_virt 0]> (vm_spaces s)) s);;
      mret (Some p).

(** The loop of [copy_page_table_level] over the indices [is_]; [deeper] copies
    the next level, and is absent at the page-table level. *)
Fixpoint copy_level_loop (deeper : option (Z → Z → W bool)) (src dst : Z) (is_kernel : bool) (is_ : list Z) : W bool :=
  match is_ with
  | [] => mret true
  | i :: is_ =>
    h ← hhdm;
    e ← read_entry src i;
    if negb (present e) then copy_level_loop deeper src dst is_kernel is_
    else if is_kernel || (256 <=? i) then
      write_entry dst i e;; copy_level_loop deeper src dst is_kernel is_
    else
      match deeper with
      | None =>
        write_entry dst i (clear_flag 64 e PAGE_WRITE);;
        e ← read_entry src i;
        write_entry src i (clear_flag 64 e PAGE_WRITE);;
        copy_level_loop deeper src dst is_kernel is_
      | Some copy =>
        new_phys ← vm_page_op (pa_alloc 1);
        if new_phys =? 0 then mret false
        else
          ok ← copy (entry_addr e +64 h) (new_phys +64 h);
          if negb ok then mret false
          else
            e ← read_entry src i;
            write_entry dst i (Z.lor new_phys (Z.land e 0xFFF));;
            copy_level_loop deeper src dst is_kernel is_
      end
  end.

(** [n] levels remain below this one: with none it is the page table. *)
Fixpoint copy_page_table_level (n : nat) (is_kernel : bool) (src dst : Z) : W bool :=
  copy_level_loop
    (match n with O => None | S n => Some (copy_page_table_level n false) end)
    src dst is_kernel (Z.of_nat <$> seq 0 ENTRIES).

Definition vmm_destroy_address_space (a : Z) : W () := mret ().

Definition vmm_clone_address_space (src_as : Z) : W (option Z) :=
  d ← vmm_create_address_space;
  match d with
  | None => mret None
  | Some dst_as =>
    x ← read_space src_as;
    y ← read_space dst_as;
    ok ← copy_page_table_level 3 false (as_pml4 x) (as_pml4 y);
    if negb ok then vmm_destroy_address_space dst_as;; mret None
    else mret (Some dst_as)
  end.

Definition vmm_switch_address_space (a : Z) : W () :=
  x ← read_space a;
  h ← hhdm;
  modify (set_vm_cr3 (as_pml4 x -64 h)).

(** ** Page faults *)

(** [for (i = 0; i < 512; ++i) dst[i] = src[i]] *)
Definition copy_page (src dst : Z) : W () := copy_entries src dst 0 ENTRIES.

Definition page_fault_handler (error_code cr2 : Z) : W () :=
  if has_flag error_code 0x1 && has_flag error_code 0x2 && has_flag error_code 0x4 then
    pml4 ← get_current_pml4;
    let page := clear_flag 64 cr2 0xFFF in
    old_phys ← walk_page_table pml4 page;
    if old_phys =? 0 then panic "COW: PTE not present"
    else
      new_phys ← vm_page_op (pa_alloc 1);
      h ← hhdm;
      copy_page (old_phys +64 h) (new_phys +64 h);;
      _ ← map_page pml4 page new_phys (Z.lor PAGE_WRITE PAGE_USER);
      mret ()
  else panic "Page Fault".
End vmm.
