(* ===== verification/VmmInv.v ===== *)
(** * Page tables: the tree and its invariant

    [table] follows the present entries from a root; [pte] is the leaf entry of
    a page.  In an address space whose tables are distinct pages outside the
    free memory, creating a table changes no translation. *)

From S2P Require Import Prelude Bytes Pmm PmmBlocks PageAlloc KernelHeap Vmm.
Open Scope Z_scope.

(** ** Bits of an entry *)

Lemma addr_mask_bits n : 0 ≤ n → Z.testbit ADDR_MASK n = (12 <=? n) && (n <? 52).
Proof.
  intros Hn. change ADDR_MASK with (Z.shiftl (Z.ones 40) 12). rewrite Z.shiftl_spec by done.
  destruct (Z.leb_spec 12 n); simpl; [|apply Z.testbit_neg_r; lia].
  destruct (Z.ltb_spec n 52); [apply Z.ones_spec_low; lia|apply Z.ones_spec_high; lia].
Qed.

Lemma entry_addr_lor a f : 0 ≤ f < 4096 → entry_addr (Z.lor a f) = entry_addr a.
Proof.
  intros Hf. unfold entry_addr. rewrite Z.land_lor_distr_l. enough (Z.land f ADDR_MASK = 0) as -> by apply Z.lor_0_r.
  apply Z.bits_inj'. intros n Hn. rewrite Z.land_spec, addr_mask_bits, Z.bits_0 by done.
  destruct (Z.leb_spec 12 n); [rewrite (testbit_high f 12) by lia|]; [done|apply andb_false_r].
Qed.

Lemma entry_addr_page q : 0 ≤ q < 2 ^ 40 → entry_addr (q * PAGE_SIZE) = q * PAGE_SIZE.
Proof.
  intros Hq. unfold entry_addr. change PAGE_SIZE with (2 ^ 12). rewrite <-Z.shiftl_mul_pow2 by lia.
  apply Z.bits_inj'. intros n Hn. rewrite Z.land_spec, addr_mask_bits, Z.shiftl_spec by done.
  destruct (Z.leb_spec 12 n); simpl; [|rewrite (Z.testbit_neg_r q) by lia; done].
  destruct (Z.ltb_spec n 52); [apply andb_true_r|]. rewrite (testbit_high q 40) by lia. done.
Qed.

Lemma present_bit e : present e = Z.testbit e 0.
Proof. unfold present, PAGE_PRESENT. by apply has_flag_bit. Qed.

Lemma present_lor e : present (Z.lor e PAGE_PRESENT) = true.
Proof. rewrite present_bit, Z.lor_spec. apply orb_true_r. Qed.

Lemma present_0 : present 0 = false.
Proof. done. Qed.

(** The entry [get_or_create_next_level] writes. *)
Definition level_entry (phys : Z) : Z := Z.lor (Z.lor (Z.lor phys PAGE_PRESENT) PAGE_WRITE) PAGE_USER.

Lemma level_entry_spec q : 0 ≤ q < 2 ^ 40 →
  present (level_entry (q * PAGE_SIZE)) = true ∧ entry_addr (level_entry (q * PAGE_SIZE)) = q * PAGE_SIZE ∧
  0 ≤ level_entry (q * PAGE_SIZE) < 2 ^ 64.
Proof.
  intros Hq. unfold level_entry. split; [|split].
  - rewrite present_bit, !Z.lor_spec. simpl. by rewrite orb_true_r.
  - rewrite 3!entry_addr_lor by done. by apply entry_addr_page.
  - apply lor_bound; [done| |done]. apply lor_bound; [done| |done]. apply lor_bound; [done| |done]. unfold PAGE_SIZE. lia.
Qed.

(** ** The tree *)

Fixpoint table (mem : Z → Z) (h base : Z) (p : list Z) : option Z :=
  match p with
  | [] => Some base
  | i :: p => let e := load64 mem (slot base i) in if present e then table mem h (entry_addr e +64 h) p else None
  end.

(** The leaf entry at index [i] of the table at the end of [p]. *)
Definition leaf (mem : Z → Z) (h root : Z) (p : list Z) (i : Z) : option Z :=
  t ← table mem h root p; let e := load64 mem (slot t i) in if present e then Some e else None.

Definition idx_ok (i : Z) : Prop := 0 ≤ i < 512.
Definition path_ok (p : list Z) : Prop := (length p ≤ 3)%nat ∧ Forall idx_ok p.

Lemma table_app mem h base p r : table mem h base (p ++ r) = table mem h base p ≫= λ c, table mem h c r.
Proof. revert base. induction p as [|i p IH]; intros base; simpl; [done|]. destruct (present _); [apply IH|done]. Qed.

Lemma table_same mem mem' h p : ∀ base,
  (∀ pre j post c, p = pre ++ j :: post → table mem h base pre = Some c → load64 mem' (slot c j) = load64 mem (slot c j)) →
  table mem' h base p = table mem h base p.
Proof.
  induction p as [|i p IH]; intros base Hs; simpl; [done|].
  pose proof (Hs [] i p base eq_refl eq_refl) as E. rewrite E. destruct (present (load64 mem (slot base i))) eqn:Ep; [|done].
  apply IH. intros pre j post c -> Hc. apply (Hs (i :: pre) j post c); [done|]. simpl. by rewrite Ep.
Qed.

(** Slots of distinct tables, or distinct slots of one, do not overlap. *)
Lemma slot_disjoint h q q' i j : idx_ok i → idx_ok j → q ≠ q' ∨ i ≠ j →
  slot (h + q * PAGE_SIZE) i + 8 ≤ slot (h + q' * PAGE_SIZE) j ∨ slot (h + q' * PAGE_SIZE) j + 8 ≤ slot (h + q * PAGE_SIZE) i.
Proof. unfold idx_ok, slot, PAGE_SIZE. intros Hi Hj Hne. destruct (Z.lt_total q q') as [?|[->|?]]; lia. Qed.

Section tree.
Context {H PA : Type} `{!KernelHeap H} `{!PageAllocator PA}.
Implicit Types s : vmm H PA.

Abbreviation offs s := (pa_hhdm (vm_pages s)).
Abbreviation tab s := (table (vm_mem s) (pa_hhdm (vm_pages s))).

(** A page of the direct map. *)
Definition frame_ok (h q : Z) : Prop := 0 ≤ q < 2 ^ 40 ∧ h + q * PAGE_SIZE + PAGE_SIZE ≤ 2 ^ 64.

Record as_inv s (F : gset Z) (A : list block) (root : Z) : Prop := {
  ai_pages : pa_inv (vm_pages s) F A;
  ai_hhdm : 0 ≤ offs s;
  ai_free : ∀ q, q ∈ F → frame_ok (offs s) q;
  ai_table : ∀ p b, path_ok p → tab s root p = Some b → ∃ q, b = offs s + q * PAGE_SIZE ∧ (q ∉ F) ∧ frame_ok (offs s) q;
  ai_inj : ∀ p p' b, path_ok p → path_ok p' → tab s root p = Some b → tab s root p' = Some b → p = p'
}.

(** All leaf entries are as before. *)
Definition same_leaves s s' (root : Z) : Prop :=
  ∀ p i, path_ok p → length p = 3%nat → idx_ok i →
    leaf (vm_mem s') (offs s') root p i = leaf (vm_mem s) (offs s) root p i.

Lemma path_ok_app p r : path_ok (p ++ r) → path_ok p.
Proof. intros [Hl Hf]. rewrite length_app in Hl. apply Forall_app in Hf as [? _]. split; [lia|done]. Qed.

(** ** Creating a table *)

Lemma zero_entries_wp base n s (R : () → vmm H PA → Prop) :
  (∀ mem, (∀ x, ¬ base ≤ x < base + 8 * Z.of_nat n → mem x = vm_mem s x) →
     (∀ k, 0 ≤ k < Z.of_nat n → load64 mem (slot base k) = 0) → R () (set_vm_mem mem s)) →
  wp (zero_entries base n) R s.
Proof.
  revert R. induction n as [|n IH]; intros R HR.
  - apply wp_ret. assert (set_vm_mem (vm_mem s) s = s) as E by by destruct s. rewrite <-E. apply HR; [done|lia].
  - cbn [zero_entries]. apply wp_bind, IH. intros mem Hout Hz. apply wp_modify. apply HR.
    + intros x Hx. cbn [vm_mem set_vm_mem]. unfold store64. rewrite mem_write_lookup, le_bytes_length, decide_False by (unfold slot; lia).
      apply Hout. lia.
    + intros k Hk. cbn [vm_mem set_vm_mem]. destruct (decide (k = Z.of_nat n)) as [->|Hne]; [by apply load_store64|].
      rewrite load_store64_ne by (unfold slot; lia). apply Hz. lia.
Qed.

(** The tree after the entry at the end of [p ++ [i]] got a new, zeroed table. *)
Section new_table.
Context (s : vmm H PA) (F : gset Z) (A : list block) (root : Z) (p : list Z) (b i q : Z) (mem : Z → Z).
Context (Hi : as_inv s F A root) (Hp : path_ok (p ++ [i])) (Hb : tab s root p = Some b).
Context (Habs : present (load64 (vm_mem s) (slot b i)) = false) (Hq : q ∈ F).
Context (Hout : ∀ x, ¬ offs s + q * PAGE_SIZE ≤ x < offs s + q * PAGE_SIZE + PAGE_SIZE →
                  mem x = store64 (vm_mem s) (slot b i) (level_entry (q * PAGE_SIZE)) x).
Context (Hz : ∀ k, idx_ok k → load64 mem (slot (offs s + q * PAGE_SIZE) k) = 0).

Lemma new_table_base : ∃ qb, b = offs s + qb * PAGE_SIZE ∧ qb ≠ q ∧ idx_ok i ∧ path_ok p ∧ (length p ≤ 2)%nat.
Proof.
  pose proof (path_ok_app _ _ Hp) as Hp0. destruct (ai_table _ _ _ _ Hi p b Hp0 Hb) as (qb & Hbq & Hqb & _).
  exists qb. split; [done|]. split; [congruence|]. destruct Hp as [Hl Hf]. apply Forall_app in Hf as [_ Hf].
  split; [exact (Forall_inv Hf)|]. split; [done|]. rewrite length_app in Hl. simpl in Hl. lia.
Qed.

(** A slot of the old tree other than the one written keeps its value. *)
Lemma new_table_keep pre c j : path_ok pre → idx_ok j → tab s root pre = Some c → (pre, j) ≠ (p, i) →
  load64 mem (slot c j) = load64 (vm_mem s) (slot c j).
Proof.
  intros Hpre Hj Hc Hne. destruct new_table_base as (qb & Hbq & Hqb & Hii & Hp0 & _).
  destruct (ai_table _ _ _ _ Hi pre c Hpre Hc) as (qc & Hcq & Hqc & _).
  rewrite (load64_ext mem (store64 (vm_mem s) (slot b i) (level_entry (q * PAGE_SIZE)))).
  - apply load_store64_ne. rewrite Hcq, Hbq. apply slot_disjoint; [done|done|].
    destruct (decide (qc = qb)) as [->|]; [right|by left]. intros ->. apply Hne. f_equal.
    eapply (ai_inj _ _ _ _ Hi); [done|done|exact Hc|]. rewrite Hb. congruence.
  - intros x Hx. apply Hout. assert (qc ≠ q) by congruence. unfold slot, idx_ok, PAGE_SIZE in *. lia.
Qed.

Lemma new_table_old p' : path_ok p' → ¬ (p ++ [i]) `prefix_of` p' → table mem (offs s) root p' = tab s root p'.
Proof.
  intros Hp' Hnot. apply table_same. intros pre j post c -> Hc. apply (new_table_keep pre); [by eapply path_ok_app| |done|].
  - destruct Hp' as [_ Hf]. apply Forall_app in Hf as [_ Hf]. by apply Forall_cons in Hf as [? _].
  - intros [= -> ->]. apply Hnot. exists post. by rewrite <-app_assoc.
Qed.

Lemma new_table_entry : load64 mem (slot b i) = level_entry (q * PAGE_SIZE).
Proof.
  destruct new_table_base as (qb & Hbq & Hqb & Hii & _). destruct (ai_free _ _ _ _ Hi q Hq) as [Hqr _].
  rewrite (load64_ext mem (store64 (vm_mem s) (slot b i) (level_entry (q * PAGE_SIZE)))).
  - apply load_store64. by apply level_entry_spec.
  - intros x Hx. apply Hout. unfold slot, idx_ok, PAGE_SIZE in *. lia.
Qed.

Lemma new_table_new : table mem (offs s) root (p ++ [i]) = Some (offs s + q * PAGE_SIZE).
Proof.
  destruct new_table_base as (qb & Hbq & Hqb & Hii & Hp0 & Hlen). destruct (ai_free _ _ _ _ Hi q Hq) as [Hqr Hqh].
  rewrite table_app, new_table_old; [|done|intros Hpre%prefix_length; rewrite length_app in Hpre; simpl in Hpre; lia].
  rewrite Hb. cbn [mbind option_bind table]. destruct (level_entry_spec q Hqr) as (E1 & E2 & E3).
  rewrite new_table_entry.
  rewrite E1, E2. f_equal. pose proof (ai_hhdm _ _ _ _ Hi). rewrite wrap_small; unfold PAGE_SIZE in *; lia.
Qed.

Lemma new_table_tree p' : path_ok p' →
  table mem (offs s) root p' = if decide (p' = p ++ [i]) then Some (offs s + q * PAGE_SIZE) else tab s root p'.
Proof.
  intros Hp'. case_decide as E; [rewrite E; apply new_table_new|].
  destruct (decide ((p ++ [i]) `prefix_of` p')) as [[r ->]|Hnot]; [|by apply new_table_old].
  destruct r as [|j r]; [by rewrite app_nil_r in E|].
  assert (Hj : idx_ok j) by (destruct Hp' as [_ Hf]; apply Forall_app in Hf as [_ Hf]; by apply Forall_cons in Hf as [? _]).
  rewrite table_app, new_table_new. cbn [mbind option_bind table]. rewrite Hz, present_0 by done.
  rewrite <-app_assoc, table_app, Hb. cbn [mbind option_bind table app]. by rewrite Habs.
Qed.

Lemma new_table_leaves p' j : path_ok p' → length p' = 3%nat → idx_ok j →
  leaf mem (offs s) root p' j = leaf (vm_mem s) (offs s) root p' j.
Proof.
  intros Hp' Hl3 Hj. unfold leaf. rewrite new_table_tree by done. case_decide as E.
  - cbn [mbind option_bind]. rewrite Hz, present_0 by done. rewrite E, table_app, Hb. cbn [mbind option_bind table]. by rewrite Habs.
  - destruct (tab s root p') as [t|] eqn:Et; [|done]. cbn [mbind option_bind]. rewrite (new_table_keep p'); try done.
    intros [= -> _]. destruct new_table_base as (_ & _ & _ & _ & _ & ?). lia.
Qed.
End new_table.

(** ** How the tree may change

    [frame] is the address of a page in the direct map; [kept] relates the states
    before and after operations on an address space: tables are only added, from
    the free memory, and memory that is neither a table nor free is untouched.
    With [ext] the translations are kept too. *)

Definition frame s (q : Z) : Z := offs s + q * PAGE_SIZE.
Definition in_frame s (q x : Z) : Prop := frame s q ≤ x < frame s q + PAGE_SIZE.
Definition is_table s (root q : Z) : Prop := ∃ p, path_ok p ∧ tab s root p = Some (frame s q).

Record kept (root : Z) s (F : gset Z) s' (F' : gset Z) : Prop := {
  kp_sub : F' ⊆ F;
  kp_hhdm : offs s' = offs s;
  kp_rest : vm_heap s' = vm_heap s ∧ vm_spaces s' = vm_spaces s ∧ vm_cr3 s' = vm_cr3 s;
  kp_tab : ∀ p c, path_ok p → tab s root p = Some c → tab s' root p = Some c;
  kp_new : ∀ q, is_table s' root q → is_table s root q ∨ q ∈ F;
  kp_mem : ∀ q x, q ∉ F → ¬ is_table s root q → in_frame s q x → vm_mem s' x = vm_mem s x
}.

Definition ext (root : Z) s (F : gset Z) s' (F' : gset Z) : Prop := kept root s F s' F' ∧ same_leaves s s' root.

Lemma kept_refl root s F F' : F' ⊆ F → kept root s F s F'.
Proof. intros HF. split; try done. by left. Qed.

Lemma kept_trans root s1 F1 s2 F2 s3 F3 : kept root s1 F1 s2 F2 → kept root s2 F2 s3 F3 → kept root s1 F1 s3 F3.
Proof.
  intros E1 E2. pose proof (kp_hhdm _ _ _ _ _ E1) as Hh1. split.
  - etrans; [apply (kp_sub _ _ _ _ _ E2)|apply (kp_sub _ _ _ _ _ E1)].
  - rewrite (kp_hhdm _ _ _ _ _ E2). apply E1.
  - destruct (kp_rest _ _ _ _ _ E1) as (A1 & A2 & A3), (kp_rest _ _ _ _ _ E2) as (B1 & B2 & B3).
    rewrite B1, B2, B3. done.
  - intros p c Hp Hc. by apply (kp_tab _ _ _ _ _ E2), (kp_tab _ _ _ _ _ E1).
  - intros q [Hq|Hq]%(kp_new _ _ _ _ _ E2); [by apply (kp_new _ _ _ _ _ E1)|right; by apply (kp_sub _ _ _ _ _ E1)].
  - intros q x Hq Ht Hx. rewrite (kp_mem _ _ _ _ _ E2 q x).
    + by apply (kp_mem _ _ _ _ _ E1 q).
    + intros ?. by apply Hq, (kp_sub _ _ _ _ _ E1).
    + by intros [?|?]%(kp_new _ _ _ _ _ E1).
    + unfold in_frame, frame in *. by rewrite Hh1.
Qed.

Lemma ext_refl root s F F' : F' ⊆ F → ext root s F s F'.
Proof. intros HF. split; [by apply kept_refl|done]. Qed.

Lemma ext_trans root s1 F1 s2 F2 s3 F3 : ext root s1 F1 s2 F2 → ext root s2 F2 s3 F3 → ext root s1 F1 s3 F3.
Proof.
  intros [K1 E1] [K2 E2]. split; [by eapply kept_trans|]. intros p i Hp Hl Hi. by rewrite E2, E1 by done.
Qed.

Lemma fits_1 o : fits 1 o → o = 0%nat.
Proof. intros [_ Ho]. destruct o; [done|]. specialize (Ho 0%nat ltac:(lia)). by change (block_size 0) with 1 in Ho. Qed.

Lemma page_set_1 q : page_set [(q, 0%nat)] = {[q]}.
Proof.
  apply set_eq. intros x. rewrite elem_of_page_set_1, elem_of_block_pages, elem_of_singleton. simpl.
  change (block_size 0) with 1. lia.
Qed.

(** A page taken from the free memory. *)
Lemma alloc_page_wp s F A (R : Z → vmm H PA → Prop) :
  pa_inv (vm_pages s) F A →
  (∀ pa F' A', pa_inv pa F' A' → F' ⊆ F → pa_hhdm pa = offs s → R 0 (set_vm_pages pa s)) →
  (∀ pa q, q ∈ F → q ≠ 0 → pa_inv pa (F ∖ {[q]}) ((q, 0%nat) :: A) → pa_hhdm pa = offs s →
     R (q * PAGE_SIZE) (set_vm_pages pa s)) →
  wp (vm_page_op (pa_alloc 1)) R s.
Proof.
  intros Hi H0 Hq. destruct (proj1 (wp_ok _ _ _) (pa_alloc_spec _ _ _ 1 Hi ltac:(lia))) as (r & pa & Er & Hpost & Hh).
  unfold wp, vm_page_op. rewrite Er. destruct Hpost as [[-> ->]|(q & o & -> & ->%fits_1 & Hsub & Hi')].
  - apply (H0 _ F A); done.
  - rewrite page_set_1 in *. destruct (decide (q = 0)) as [->|Hne]; [eapply H0; [exact Hi'|set_solver|done]|].
    apply Hq; [set_solver|done|done|done].
Qed.

Lemma as_inv_pages s F A root pa F' A' :
  as_inv s F A root → pa_inv pa F' A' → F' ⊆ F → pa_hhdm pa = offs s → as_inv (set_vm_pages pa s) F' A' root.
Proof.
  intros Hi Hpa HF Hh. split; cbn [vm_pages vm_mem set_vm_pages]; rewrite ?Hh; try done; try apply Hi.
  - intros q Hq. apply Hi. by apply HF.
  - intros p b Hp Hb. destruct (ai_table _ _ _ _ Hi p b Hp Hb) as (q & ? & ? & ?). exists q. split_and!; [done|set_solver|done].
Qed.

Lemma ext_pages s F root pa F' : F' ⊆ F → pa_hhdm pa = offs s → ext root s F (set_vm_pages pa s) F'.
Proof.
  intros HF Hh. split; [split|]; cbn [vm_pages vm_mem set_vm_pages]; rewrite ?Hh; try done.
  - intros q (p & Hp & Ht). left. exists p. split; [done|]. revert Ht. unfold frame. cbn [vm_pages vm_mem set_vm_pages]. by rewrite Hh.
  - intros p i _ _ _. cbn [vm_pages vm_mem set_vm_pages]. by rewrite Hh.
Qed.

Section added.
Context (s : vmm H PA) (F : gset Z) (A : list block) (root : Z) (p : list Z) (b i q : Z) (pa : PA) (mem : Z → Z).
Context (Hi : as_inv s F A root) (Hp : path_ok (p ++ [i])) (Hb : tab s root p = Some b).
Context (Habs : present (load64 (vm_mem s) (slot b i)) = false) (Hq : q ∈ F).
Context (Hpa : pa_inv pa (F ∖ {[q]}) ((q, 0%nat) :: A)) (Hh : pa_hhdm pa = offs s).
Context (Hout : ∀ x, ¬ offs s + q * PAGE_SIZE ≤ x < offs s + q * PAGE_SIZE + PAGE_SIZE →
                  mem x = store64 (vm_mem s) (slot b i) (level_entry (q * PAGE_SIZE)) x).
Context (Hz : ∀ k, idx_ok k → load64 mem (slot (offs s + q * PAGE_SIZE) k) = 0).

Definition added : vmm H PA := set_vm_mem mem (set_vm_pages pa s).

Lemma added_tab p' : path_ok p' → tab added root p' = if decide (p' = p ++ [i]) then Some (frame s q) else tab s root p'.
Proof. intros Hp'. unfold added, frame. cbn [vm_mem vm_pages set_vm_mem set_vm_pages]. rewrite Hh. by eapply new_table_tree. Qed.

Lemma added_inv : as_inv added (F ∖ {[q]}) ((q, 0%nat) :: A) root.
Proof.
  assert (Hnew : ∀ p', path_ok p' → tab s root p' ≠ Some (frame s q)).
  { intros p' Hp' E. destruct (ai_table _ _ _ _ Hi _ _ Hp' E) as (q' & Eq & Hnf & _).
    unfold frame in Eq. assert (q = q') as -> by (unfold PAGE_SIZE in Eq; lia). done. }
  split.
  - exact Hpa.
  - unfold added. cbn [vm_pages set_vm_mem set_vm_pages]. rewrite Hh. apply Hi.
  - unfold added. cbn [vm_pages set_vm_mem set_vm_pages]. rewrite Hh. intros q' Hq'. apply (ai_free _ _ _ _ Hi). set_solver.
  - intros p' c Hp'. rewrite added_tab by done. unfold added. cbn [vm_pages set_vm_mem set_vm_pages]. rewrite Hh. case_decide as E.
    + intros [= <-]. exists q. split_and!; [done|set_solver|by apply Hi].
    + intros Hc. destruct (ai_table _ _ _ _ Hi _ _ Hp' Hc) as (q' & ? & ? & ?). exists q'. split_and!; [done|set_solver|done].
  - intros p1 p2 c Hp1 Hp2. rewrite !added_tab by done. case_decide as E1; case_decide as E2; try congruence.
    + intros [= <-] Hc. by destruct (Hnew p2).
    + intros Hc [= <-]. by destruct (Hnew p1).
    + by apply Hi.
Qed.

Lemma added_ext : ext root s F added (F ∖ {[q]}).
Proof.
  pose proof (path_ok_app _ _ Hp) as Hp0. split; [split|]; unfold added; cbn [vm_heap vm_spaces vm_cr3 vm_pages set_vm_mem set_vm_pages]; try done.
  - set_solver.
  - intros p' c Hp' Hc. rewrite added_tab by done. case_decide as E; [|done]. exfalso. subst p'.
    rewrite table_app, Hb in Hc. cbn [mbind option_bind table] in Hc. by rewrite Habs in Hc.
  - intros q' (p' & Hp' & Ht). rewrite added_tab in Ht by done. unfold frame in *. cbn [vm_pages set_vm_mem set_vm_pages] in Ht.
    rewrite Hh in Ht. case_decide as E.
    + right. injection Ht as E'. assert (q = q') as <- by (unfold PAGE_SIZE in E'; lia). done.
    + left. by exists p'.
  - intros q' x Hq' Ht Hx. cbn [vm_mem set_vm_mem]. destruct (ai_table _ _ _ _ Hi p b Hp0 Hb) as (qb & Ebq & _ & _).
    assert (q' ≠ q) by congruence. assert (q' ≠ qb) by (intros ->; apply Ht; exists p; by rewrite Hb, Ebq).
    assert (idx_ok i) by (destruct Hp as [_ Hf]; apply Forall_app in Hf as [_ Hf]; exact (Forall_inv Hf)).
    unfold in_frame, frame in Hx. rewrite Hout by (unfold PAGE_SIZE in *; lia). unfold store64.
    rewrite mem_write_lookup, le_bytes_length, decide_False; [done|]. unfold slot, idx_ok, PAGE_SIZE in *. lia.
  - intros p' j Hp' Hl Hj. cbn [vm_mem vm_pages set_vm_mem set_vm_pages]. rewrite Hh. by eapply new_table_leaves.
Qed.
End added.

(** A free page is no table. *)
Lemma free_not_table s F A root q : as_inv s F A root → q ∈ F → ¬ is_table s root q.
Proof.
  intros Hi Hq (p & Hp & Ht). destruct (ai_table _ _ _ _ Hi p _ Hp Ht) as (q' & E & Hnf & _). unfold frame, PAGE_SIZE in E.
  assert (q = q') as -> by lia. done.
Qed.

(** ** The walk *)

Lemma get_or_create_wp s F A root p b i :
  as_inv s F A root → path_ok (p ++ [i]) → tab s root p = Some b →
  wp (get_or_create_next_level b i) (λ r s', ∃ F' A', as_inv s' F' A' root ∧ ext root s F s' F' ∧
    match r with Some c => tab s' root (p ++ [i]) = Some c | None => True end) s.
Proof.
  intros Hi Hp Hb. unfold get_or_create_next_level, hhdm, read_entry. wp_run.
  destruct (present (load64 (vm_mem s) (slot b i))) eqn:Ep; wp_run.
  { exists F, A. split_and!; [done|by apply ext_refl|]. rewrite table_app, Hb. cbn [mbind option_bind table]. by rewrite Ep. }
  unfold create_level. apply wp_bind, (alloc_page_wp _ F A); [apply Hi| |].
  - intros pa F' A' Hpa HF Hh. simpl (0 =? 0). wp_run. exists F', A'. split_and!; [by eapply as_inv_pages|by apply ext_pages|done].
  - intros pa q Hq Hq0 Hpa Hh. destruct (Z.eqb_spec (q * PAGE_SIZE) 0) as [E|_]; [unfold PAGE_SIZE in E; lia|].
    destruct (ai_free _ _ _ _ Hi q Hq) as [Hqr Hqh]. pose proof (ai_hhdm _ _ _ _ Hi) as H0.
    assert (Ea : q * PAGE_SIZE +64 offs s = offs s + q * PAGE_SIZE) by (rewrite wrap_small; unfold PAGE_SIZE in *; lia).
    unfold write_entry. wp_run. rewrite Ea. apply zero_entries_wp. cbn [vm_mem set_vm_mem set_vm_pages].
    change (8 * Z.of_nat ENTRIES) with PAGE_SIZE. intros mem Hout Hz. wp_run.
    change (set_vm_mem mem (set_vm_mem _ (set_vm_pages pa s))) with (added s pa mem).
    assert (Hz' : ∀ k, idx_ok k → load64 mem (slot (offs s + q * PAGE_SIZE) k) = 0) by exact Hz.
    exists (F ∖ {[q]}), ((q, 0%nat) :: A).
    split_and!; [by eapply added_inv|by eapply added_ext|]. rewrite (added_tab s F A root p b i q) by done. rewrite decide_True by done.
    cbn [vm_mem added set_vm_mem]. erewrite new_table_entry by done. destruct (level_entry_spec q Hqr) as (_ & -> & _). by rewrite Ea.
Qed.

(** The table [map_page] writes to. *)
Definition upper (virt : Z) : list Z := [get_pml4_idx virt; get_pdpt_idx virt; get_pd_idx virt].

Lemma land_511 x : idx_ok (Z.land x 0x1FF).
Proof. unfold idx_ok. change 0x1FF with (Z.ones 9). rewrite Z.land_ones by done. apply Z.mod_pos_bound. lia. Qed.

Lemma upper_ok virt : path_ok (upper virt).
Proof. split; [done|]. repeat constructor; apply land_511. Qed.

Lemma walk_to_pt_wp s F A root virt :
  as_inv s F A root →
  wp (walk_to_pt root virt) (λ r s', ∃ F' A', as_inv s' F' A' root ∧ ext root s F s' F' ∧
    match r with Some c => tab s' root (upper virt) = Some c | None => True end) s.
Proof.
  intros Hi. unfold walk_to_pt. pose proof (upper_ok virt) as Hu.
  apply wp_bind. eapply wp_mono; [apply (get_or_create_wp s F A root [] root); [done|exact (path_ok_app [_] _ Hu)|done]|].
  intros [t1|] s1 (F1 & A1 & Hi1 & E1 & Ht1); [|wp_run; by exists F1, A1].
  apply wp_bind. eapply wp_mono; [apply (get_or_create_wp s1 F1 A1 root [get_pml4_idx virt] t1); [done|exact (path_ok_app [_; _] _ Hu)|exact Ht1]|].
  intros [t2|] s2 (F2 & A2 & Hi2 & E2 & Ht2); [|wp_run; exists F2, A2; eauto using ext_trans].
  eapply wp_mono; [apply (get_or_create_wp s2 F2 A2 root [get_pml4_idx virt; get_pdpt_idx virt] t2); [done|done|exact Ht2]|].
  intros r s3 (F3 & A3 & Hi3 & E3 & Ht3). exists F3, A3. split_and!; [done|eauto using ext_trans|exact Ht3].
Qed.
End tree.
