(* ===== verification/VmmMap.v ===== *)
(** * Mapping, unmapping and translating a page

    [pte] is the leaf entry of a virtual address; [vpage] the 36 bits of it the
    four indices are made of.  Writing a leaf entry changes the translation of
    that page and of no other. *)

From S2P Require Import Prelude Bytes Pmm PmmBlocks PageAlloc KernelHeap Vmm VmmInv.
Open Scope Z_scope.

(** The virtual page number an address is translated by. *)
Definition vpage (virt : Z) : Z := Z.land (Z.shiftr virt 12) (Z.ones 36).

Lemma land_bit_field v k n : 0 ≤ k → 0 ≤ n → Z.testbit (Z.land (Z.shiftr v k) 0x1FF) n = (n <? 9) && Z.testbit v (n + k).
Proof.
  intros Hk Hn. rewrite Z.land_spec, Z.shiftr_spec by done. change 0x1FF with (Z.ones 9).
  destruct (Z.ltb_spec n 9); [rewrite Z.ones_spec_low by lia|rewrite Z.ones_spec_high by lia]; [apply andb_true_r|apply andb_false_r].
Qed.

Lemma field_eq v v' k : 0 ≤ k → Z.land (Z.shiftr v k) 0x1FF = Z.land (Z.shiftr v' k) 0x1FF ↔
  ∀ n, k ≤ n < k + 9 → Z.testbit v n = Z.testbit v' n.
Proof.
  intros Hk. split.
  - intros E n Hn. apply (f_equal (λ z, Z.testbit z (n - k))) in E. rewrite !land_bit_field in E by lia.
    destruct (Z.ltb_spec (n - k) 9); [|lia]. by replace (n - k + k) with n in E by lia.
  - intros Hb. apply Z.bits_inj'. intros n Hn. rewrite !land_bit_field by done.
    destruct (Z.ltb_spec n 9); [|done]. simpl. apply Hb. lia.
Qed.

Lemma vpage_eq v v' : vpage v = vpage v' ↔ ∀ n, 12 ≤ n < 48 → Z.testbit v n = Z.testbit v' n.
Proof.
  unfold vpage. split.
  - intros E n Hn. apply (f_equal (λ z, Z.testbit z (n - 12))) in E. rewrite !Z.land_spec, !Z.shiftr_spec, Z.ones_spec_low in E by lia.
    rewrite !andb_true_r in E. by replace (n - 12 + 12) with n in E by lia.
  - intros Hb. apply Z.bits_inj'. intros n Hn. rewrite !Z.land_spec, !Z.shiftr_spec by done.
    destruct (Z.lt_ge_cases n 36); [rewrite Hb by lia; done|]. by rewrite Z.ones_spec_high, !andb_false_r by lia.
Qed.

(** The four indices determine the page, and nothing more. *)
Lemma indices_eq v v' : (upper v, get_pt_idx v) = (upper v', get_pt_idx v') ↔ vpage v = vpage v'.
Proof.
  rewrite vpage_eq. unfold upper, get_pml4_idx, get_pdpt_idx, get_pd_idx, get_pt_idx. split.
  - intros [= E1 E2 E3 E4]. rewrite field_eq in E1, E2, E3, E4 by done. intros n Hn.
    destruct (Z.lt_ge_cases n 21); [apply E4; lia|]. destruct (Z.lt_ge_cases n 30); [apply E3; lia|].
    destruct (Z.lt_ge_cases n 39); [apply E2; lia|apply E1; lia].
  - intros Hb. assert (Hf : ∀ k, 12 ≤ k ≤ 39 → Z.land (Z.shiftr v k) 0x1FF = Z.land (Z.shiftr v' k) 0x1FF).
    { intros k Hk. apply field_eq; [lia|]. intros n Hn. apply Hb. lia. }
    by rewrite (Hf 39), (Hf 30), (Hf 21), (Hf 12) by done.
Qed.

Section map.
Context {H PA : Type} `{!KernelHeap H} `{!PageAllocator PA}.
Implicit Types s : vmm H PA.
Abbreviation offs s := (pa_hhdm (vm_pages s)).
Abbreviation tab s := (table (vm_mem s) (pa_hhdm (vm_pages s))).

(** The entry that translates [virt]. *)
Definition pte s (root virt : Z) : option Z := leaf (vm_mem s) (offs s) root (upper virt) (get_pt_idx virt).

Lemma ext_pte root s F s' F' virt : ext root s F s' F' → pte s' root virt = pte s root virt.
Proof. intros [_ E]. apply E; [apply upper_ok|done|apply land_511]. Qed.

(** ** Writing a leaf *)

Section leaf_write.
Context (s : vmm H PA) (F : gset Z) (A : list block) (root t virt v : Z).
Context (Hi : as_inv s F A root) (Ht : tab s root (upper virt) = Some t) (Hv : 0 ≤ v < 2 ^ 64).

Definition written : vmm H PA := set_vm_mem (store64 (vm_mem s) (slot t (get_pt_idx virt)) v) s.

Lemma written_slot p c j : path_ok p → idx_ok j → tab s root p = Some c → (p, j) ≠ (upper virt, get_pt_idx virt) →
  load64 (vm_mem written) (slot c j) = load64 (vm_mem s) (slot c j).
Proof.
  intros Hp Hj Hc Hne. unfold written. cbn [vm_mem set_vm_mem]. apply load_store64_ne.
  destruct (ai_table _ _ _ _ Hi _ _ Hp Hc) as (qc & Ec & _), (ai_table _ _ _ _ Hi _ _ (upper_ok virt) Ht) as (qt & Et & _).
  rewrite Ec, Et. apply slot_disjoint; [done|apply land_511|]. destruct (decide (qc = qt)) as [->|]; [right|by left].
  intros ->. apply Hne. f_equal. eapply (ai_inj _ _ _ _ Hi); [done|apply upper_ok|exact Hc|]. by rewrite Ht, Ec, Et.
Qed.

Lemma written_tab p : path_ok p → tab written root p = tab s root p.
Proof.
  intros Hp. apply (table_same (vm_mem s)). intros pre j post c -> Hc. apply (written_slot pre); try done.
  - by eapply path_ok_app.
  - destruct Hp as [_ Hf]. apply Forall_app in Hf as [_ Hf]. by apply Forall_cons in Hf as [? _].
  - intros [= -> ->]. destruct Hp as [Hl _]. rewrite length_app in Hl. simpl in Hl. lia.
Qed.

Lemma written_inv : as_inv written F A root.
Proof.
  destruct Hi as [H1 H2 H3 H4 H5]. split; [exact H1|exact H2|exact H3| |].
  - intros p c Hp. rewrite written_tab by done. by apply H4.
  - intros p p' c Hp Hp'. rewrite !written_tab by done. by apply H5.
Qed.

Lemma written_pte virt' : pte written root virt' =
  if decide (vpage virt' = vpage virt) then (if present v then Some v else None) else pte s root virt'.
Proof.
  unfold pte, leaf. rewrite (written_tab (upper virt')) by apply upper_ok. case_decide as E.
  - apply indices_eq in E as [= E1 E2 E3 E4]. assert (upper virt' = upper virt) as -> by (unfold upper; congruence).
    assert (get_pt_idx virt' = get_pt_idx virt) as -> by done. rewrite Ht. cbn [mbind option_bind].
    unfold written. cbn [vm_mem set_vm_mem]. by rewrite load_store64.
  - destruct (tab s root (upper virt')) as [c|] eqn:Ec; [|done]. cbn [mbind option_bind].
    rewrite (written_slot (upper virt')); [done|apply upper_ok|apply land_511|done|]. by rewrite indices_eq.
Qed.

Lemma written_mem q x : ¬ is_table s root q → in_frame s q x → vm_mem written x = vm_mem s x.
Proof.
  intros Hq Hx. destruct (ai_table _ _ _ _ Hi _ _ (upper_ok virt) Ht) as (qt & Et & _). pose proof (land_511 (Z.shiftr virt 12)) as Hx2.
  assert (q ≠ qt) by (intros ->; apply Hq; exists (upper virt); split; [apply upper_ok|by rewrite Ht, Et]).
  unfold written, store64. cbn [vm_mem set_vm_mem]. rewrite mem_write_lookup, le_bytes_length, decide_False; [done|].
  unfold get_pt_idx, in_frame, frame, slot, idx_ok, PAGE_SIZE in *. lia.
Qed.

Lemma written_kept F' : F' ⊆ F → kept root s F written F'.
Proof.
  intros HF. split; try done.
  - intros p c Hp Hc. by rewrite written_tab.
  - intros q (p & Hp & Hq). left. exists p. split; [done|]. by rewrite written_tab in Hq.
  - intros q x _ Hq Hx. by apply (written_mem q).
Qed.
End leaf_write.

(** ** The operations *)

Definition leaf_entry (phys flags : Z) : Z := Z.lor (Z.lor (entry_addr phys) flags) PAGE_PRESENT.

Lemma entry_addr_bound e : 0 ≤ entry_addr e < 2 ^ 52.
Proof.
  unfold entry_addr. assert (E : Z.land e ADDR_MASK = Z.land (Z.land e ADDR_MASK) (Z.ones 52)) by by rewrite <-Z.land_assoc.
  rewrite E, Z.land_ones by done. apply Z.mod_pos_bound. lia.
Qed.

Lemma leaf_entry_spec phys flags : 0 ≤ flags < 2 ^ 32 → 0 ≤ leaf_entry phys flags < 2 ^ 64 ∧ present (leaf_entry phys flags) = true.
Proof.
  intros Hf. pose proof (entry_addr_bound phys). split; [|apply present_lor].
  unfold leaf_entry. repeat apply lor_bound; try done; lia.
Qed.

Lemma map_page_wp s F A root virt phys flags :
  as_inv s F A root → 0 ≤ flags < 2 ^ 32 →
  wp (map_page root virt phys flags) (λ ok s', ∃ F' A', as_inv s' F' A' root ∧ kept root s F s' F' ∧
    ∀ v, pte s' root v = if decide (ok = true ∧ vpage v = vpage virt) then Some (leaf_entry phys flags) else pte s root v) s.
Proof.
  intros Hi Hf. unfold map_page. apply wp_bind. eapply wp_mono; [by eapply walk_to_pt_wp|].
  intros [t|] s1 (F1 & A1 & Hi1 & E1 & Ht).
  - unfold write_entry. wp_run. fold (leaf_entry phys flags). destruct (leaf_entry_spec phys flags Hf) as [Hv Hp].
    change (set_vm_mem _ s1) with (written s1 t virt (leaf_entry phys flags)). exists F1, A1. split_and!.
    + by eapply written_inv.
    + eapply kept_trans; [apply E1|]. by eapply written_kept.
    + intros v. erewrite written_pte by done. rewrite Hp, (ext_pte _ _ _ _ _ _ E1). repeat case_decide; naive_solver.
  - wp_run. exists F1, A1. split_and!; [done|apply E1|]. intros v. rewrite decide_False by naive_solver. by eapply ext_pte.
Qed.

(** A page whose tables exist is walked without a change of state. *)
Lemma walk_to_pt_present s root virt t : tab s root (upper virt) = Some t → walk_to_pt root virt s = Ok (Some t, s).
Proof.
  unfold upper. cbn [table]. intros Ht. unfold walk_to_pt, get_or_create_next_level, hhdm, read_entry, gets, mbind, M_bind.
  destruct (present (load64 (vm_mem s) (slot root _))) eqn:E1; [|done]. cbn [mret M_ret].
  destruct (present (load64 (vm_mem s) (slot _ (get_pdpt_idx virt)))) eqn:E2; [|done]. cbn [mret M_ret].
  destruct (present (load64 (vm_mem s) (slot _ (get_pd_idx virt)))) eqn:E3; [|done]. by injection Ht as <-.
Qed.

Lemma pte_table s root virt e : pte s root virt = Some e →
  ∃ t, tab s root (upper virt) = Some t ∧ e = load64 (vm_mem s) (slot t (get_pt_idx virt)) ∧ present e = true.
Proof.
  unfold pte, leaf. destruct (tab s root (upper virt)) as [t|] eqn:Et; [|done]. cbn [mbind option_bind].
  destruct (present _) eqn:Ep; [|done]. intros [= <-]. eauto.
Qed.

Lemma walk_page_table_mapped s root virt e : pte s root virt = Some e → walk_page_table root virt s = Ok (entry_addr e, s).
Proof.
  intros (t & Ht & -> & _)%pte_table. unfold walk_page_table. by rewrite (bind_ok _ _ _ _ _ (walk_to_pt_present _ _ _ _ Ht)).
Qed.

Lemma unmap_page_wp s F A root virt :
  as_inv s F A root →
  wp (unmap_page root virt) (λ _ s', as_inv s' F A root ∧ kept root s F s' F ∧
    ∀ v, pte s' root v = if decide (vpage v = vpage virt) then None else pte s root v) s.
Proof.
  intros Hi. unfold unmap_page, hhdm, read_entry, write_entry. wp_run.
  assert (Hno : tab s root (upper virt) = None → as_inv s F A root ∧ kept root s F s F ∧
    ∀ v, pte s root v = if decide (vpage v = vpage virt) then None else pte s root v).
  { intros Hn. split_and!; [done|by apply kept_refl|]. intros v. case_decide as E; [|done].
    apply indices_eq in E as [= E1 E2 E3 _]. unfold pte, leaf. assert (upper v = upper virt) as -> by (unfold upper; congruence).
    by rewrite Hn. }
  destruct (present (load64 _ (slot root _))) eqn:E1; [|apply Hno; unfold upper; cbn [table]; by rewrite E1]. wp_run.
  destruct (present (load64 _ (slot _ (get_pdpt_idx virt)))) eqn:E2; [|apply Hno; unfold upper; cbn [table]; by rewrite E1, E2]. wp_run.
  destruct (present (load64 _ (slot _ (get_pd_idx virt)))) eqn:E3; [|apply Hno; unfold upper; cbn [table]; by rewrite E1, E2, E3]. wp_run.
  match goal with |- as_inv (set_vm_mem (store64 _ (slot ?t _) _) _) _ _ _ ∧ _ => change (set_vm_mem _ s) with (written s t virt 0);
    assert (Ht : tab s root (upper virt) = Some t) by (unfold upper; cbn [table]; by rewrite E1, E2, E3) end.
  split_and!; [by eapply written_inv|by eapply written_kept|]. intros v. by erewrite written_pte.
Qed.
End map.
