(* ===== verification/VmmCopy.v ===== *)
(** * Copying pages and page tables

    The copy loops of [vmm_create_address_space], of the copy-on-write fault and
    of the page-table level of [copy_page_table_level], entry by entry. *)

From S2P Require Import Prelude Bytes Pmm PmmBlocks PageAlloc KernelHeap Vmm VmmInv VmmMap.
Open Scope Z_scope.

(** The 512 words of a page are 64-bit values. *)
Definition words_ok (mem : Z → Z) (base : Z) : Prop := ∀ k, idx_ok k → 0 ≤ load64 mem (slot base k) < 2 ^ 64.

(** Tables or pages that do not overlap. *)
Definition apart (a b : Z) : Prop := a + PAGE_SIZE ≤ b ∨ b + PAGE_SIZE ≤ a.

Lemma apart_slot a b i j : apart a b → idx_ok i → idx_ok j → slot a i + 8 ≤ slot b j ∨ slot b j + 8 ≤ slot a i.
Proof. unfold apart, idx_ok, slot, PAGE_SIZE. lia. Qed.

Lemma slot_ne a i j : i ≠ j → slot a i + 8 ≤ slot a j ∨ slot a j + 8 ≤ slot a i.
Proof. unfold slot. lia. Qed.

Section copy.
Context {H PA : Type} `{!KernelHeap H} `{!PageAllocator PA}.
Implicit Types s : vmm H PA.
Abbreviation offs s := (pa_hhdm (vm_pages s)).
Abbreviation tab s := (table (vm_mem s) (pa_hhdm (vm_pages s))).

Lemma set_vm_mem_id s : set_vm_mem (vm_mem s) s = s.
Proof. by destruct s. Qed.

Lemma copy_entries_wp src dst n : ∀ i s (R : () → vmm H PA → Prop),
  apart src dst → 0 ≤ i → i + Z.of_nat n ≤ 512 → words_ok (vm_mem s) src →
  (∀ mem, (∀ k, i ≤ k < i + Z.of_nat n → load64 mem (slot dst k) = load64 (vm_mem s) (slot src k)) →
     (∀ x, ¬ slot dst i ≤ x < slot dst (i + Z.of_nat n) → mem x = vm_mem s x) → R () (set_vm_mem mem s)) →
  wp (copy_entries src dst i n) R s.
Proof.
  induction n as [|n IH]; intros i s R Ha Hi Hn Hm HR.
  { apply wp_ret. rewrite <-(set_vm_mem_id s). apply HR; [lia|done]. }
  cbn [copy_entries]. unfold read_entry, write_entry. wp_run.
  assert (Hout : ∀ x, ¬ slot dst i ≤ x < slot dst i + 8 →
    store64 (vm_mem s) (slot dst i) (load64 (vm_mem s) (slot src i)) x = vm_mem s x).
  { intros x Hx. unfold store64. by rewrite mem_write_lookup, le_bytes_length, decide_False by lia. }
  apply IH; [done|lia|lia| |].
  { intros k Hk. cbn [vm_mem set_vm_mem]. rewrite load_store64_ne; [by apply Hm|]. apply apart_slot; [done|done|unfold idx_ok; lia]. }
  cbn [vm_mem set_vm_mem]. intros mem Hin Hmem. change (set_vm_mem mem (set_vm_mem ?m s)) with (set_vm_mem mem s).
  apply HR.
  - intros k Hk. destruct (decide (k = i)) as [->|Hne].
    + rewrite (load64_ext mem (store64 (vm_mem s) (slot dst i) (load64 (vm_mem s) (slot src i)))).
      * apply load_store64, Hm. unfold idx_ok. lia.
      * intros x Hx. apply Hmem. unfold slot in *. lia.
    + rewrite Hin by lia. apply load_store64_ne. destruct (apart_slot src dst k i Ha); unfold idx_ok; lia.
  - intros x Hx. rewrite Hmem, Hout by (unfold slot in *; lia). done.
Qed.

(** ** The page-table level of a clone *)

(** What entry [e] of the source leaves: in the source, and in the copy whose
    entry was [d]. *)
Definition pt_src (i e : Z) : Z := if present e && (i <? 256) then clear_flag 64 e PAGE_WRITE else e.
Definition pt_dst (i e d : Z) : Z := if present e then pt_src i e else d.

Lemma clear_flag_bound e f : 0 ≤ clear_flag 64 e f < 2 ^ 64.
Proof.
  unfold clear_flag, wrap. set (m := Z.lnot f mod 2 ^ 64). assert (Hm : 0 ≤ m < 2 ^ 64) by (apply Z.mod_pos_bound; lia).
  assert (E : Z.land e m = Z.land e m mod 2 ^ 64).
  { rewrite <-Z.land_ones, <-Z.land_assoc, (Z.land_ones m), (Z.mod_small m) by done. done. }
  rewrite E. apply Z.mod_pos_bound. lia.
Qed.

Definition level_copied (src dst : Z) (is_ : list Z) (m m' : Z → Z) : Prop :=
  (∀ j, idx_ok j → load64 m' (slot src j) = if decide (j ∈ is_) then pt_src j (load64 m (slot src j)) else load64 m (slot src j)) ∧
  (∀ j, idx_ok j → load64 m' (slot dst j) =
     if decide (j ∈ is_) then pt_dst j (load64 m (slot src j)) (load64 m (slot dst j)) else load64 m (slot dst j)) ∧
  (∀ x, ¬ src ≤ x < src + PAGE_SIZE → ¬ dst ≤ x < dst + PAGE_SIZE → m' x = m x).

Lemma store64_out mem a v x : ¬ a ≤ x < a + 8 → store64 mem a v x = mem x.
Proof. intros Hx. unfold store64. by rewrite mem_write_lookup, le_bytes_length, decide_False by lia. Qed.

Lemma level_copied_nil src dst m : level_copied src dst [] m m.
Proof. split_and!; [| |done]; intros j _; by rewrite decide_False by apply not_elem_of_nil. Qed.

Lemma level_copied_cons src dst i is_ m m1 m2 : i ∉ is_ →
  level_copied src dst [i] m m1 → level_copied src dst is_ m1 m2 → level_copied src dst (i :: is_) m m2.
Proof.
  intros Hi (A1 & A2 & A3) (B1 & B2 & B3). split_and!.
  - intros j Hj. rewrite B1, A1 by done. destruct (decide (j = i)) as [->|Hne].
    + by rewrite (decide_False (P := i ∈ is_)), !decide_True by set_solver.
    + rewrite (decide_False (P := j ∈ [i])) by set_solver. repeat case_decide; set_solver.
  - intros j Hj. rewrite B2, A2, A1 by done. destruct (decide (j = i)) as [->|Hne].
    + by rewrite (decide_False (P := i ∈ is_)), !decide_True by set_solver.
    + rewrite !(decide_False (P := j ∈ [i])) by set_solver. repeat case_decide; set_solver.
  - intros x Hs Hd. by rewrite B3, A3.
Qed.

(** Only the two entries of index [i] change. *)
Lemma level_copied_one src dst i m m1 : apart src dst → idx_ok i →
  load64 m1 (slot src i) = pt_src i (load64 m (slot src i)) →
  load64 m1 (slot dst i) = pt_dst i (load64 m (slot src i)) (load64 m (slot dst i)) →
  (∀ x, ¬ slot src i ≤ x < slot src i + 8 → ¬ slot dst i ≤ x < slot dst i + 8 → m1 x = m x) →
  level_copied src dst [i] m m1.
Proof.
  intros Ha Hi Hs Hd Hout. split_and!.
  - intros j Hj. case_decide as E; [by apply list_elem_of_singleton in E as ->|]. apply load64_ext. intros x Hx.
    assert (j ≠ i) by set_solver. unfold apart, idx_ok, slot, PAGE_SIZE in *. apply Hout; lia.
  - intros j Hj. case_decide as E; [by apply list_elem_of_singleton in E as ->|]. apply load64_ext. intros x Hx.
    assert (j ≠ i) by set_solver. unfold apart, idx_ok, slot, PAGE_SIZE in *. apply Hout; lia.
  - intros x Hxs Hxd. unfold idx_ok, slot, PAGE_SIZE in *. apply Hout; lia.
Qed.

Lemma copy_pt_wp src dst is_ : ∀ s, apart src dst → NoDup is_ → Forall idx_ok is_ →
  words_ok (vm_mem s) src →
  wp (copy_level_loop None src dst false is_) (λ ok s', ok = true ∧
    ∃ mem, s' = set_vm_mem mem s ∧ level_copied src dst is_ (vm_mem s) mem) s.
Proof.
  induction is_ as [|i is_ IH]; intros s Ha Hnd Hf Hb.
  { cbn [copy_level_loop]. wp_run. split; [done|]. exists (vm_mem s). split; [by rewrite set_vm_mem_id|apply level_copied_nil]. }
  apply NoDup_cons in Hnd as [Hni Hnd]. apply Forall_cons in Hf as [Hi Hf].
  assert (Hstep : ∀ m1, level_copied src dst [i] (vm_mem s) m1 →
    wp (copy_level_loop None src dst false is_) (λ ok s', ok = true ∧
      ∃ mem, s' = set_vm_mem mem s ∧ level_copied src dst (i :: is_) (vm_mem s) mem) (set_vm_mem m1 s)).
  { intros m1 H1. eapply wp_mono; [apply IH; try done|].
    - intros j Hj. cbn [vm_mem set_vm_mem]. destruct H1 as [-> _]; [|done]. case_decide; [|by apply Hb].
      unfold pt_src. destruct (_ && _); [apply clear_flag_bound|by apply Hb].
    - intros ok s' (-> & mem & -> & H2). split; [done|]. exists mem. split; [done|]. by eapply level_copied_cons. }
  pose proof (apart_slot src dst i i Ha Hi Hi) as Hsd. pose proof (Hb i Hi) as Hbi.
  cbn [copy_level_loop]. unfold hhdm, read_entry, write_entry. wp_run.
  destruct (present (load64 (vm_mem s) (slot src i))) eqn:Ep; cbn [negb orb].
  - destruct (Z.leb_spec 256 i) as [Hge|Hlt].
    + wp_run. apply Hstep, level_copied_one; unfold pt_dst, pt_src; rewrite ?Ep; try done.
      * rewrite (proj2 (Z.ltb_ge i 256)) by done. by apply load_store64_ne.
      * rewrite (proj2 (Z.ltb_ge i 256)) by done. by apply load_store64.
      * intros x _ Hx. by apply store64_out.
    + wp_run. cbn [vm_mem set_vm_mem]. rewrite (load_store64_ne _ (slot dst i)) by done. 
      change (set_vm_mem ?a (set_vm_mem ?b s)) with (set_vm_mem a s).
      apply Hstep, level_copied_one; unfold pt_dst, pt_src; rewrite ?Ep; try done;
        rewrite ?(proj2 (Z.ltb_lt i 256)) by done; cbn [andb].
      * apply load_store64, clear_flag_bound.
      * rewrite load_store64_ne by lia. apply load_store64, clear_flag_bound.
      * intros x Hx Hx'. by rewrite !store64_out.
  - specialize (Hstep (vm_mem s)). rewrite set_vm_mem_id in Hstep.
    apply Hstep, level_copied_one; unfold pt_dst, pt_src; by rewrite ?Ep.
Qed.

(** ** Writing a page that is no table *)

Section page_write.
Context (s : vmm H PA) (F : gset Z) (A : list block) (root q : Z) (mem : Z → Z).
Context (Hi : as_inv s F A root) (Hq : ¬ is_table s root q) (Hout : ∀ x, ¬ in_frame s q x → mem x = vm_mem s x).

Lemma page_write_slot p c j : path_ok p → idx_ok j → tab s root p = Some c → load64 mem (slot c j) = load64 (vm_mem s) (slot c j).
Proof.
  intros Hp Hj Hc. destruct (ai_table _ _ _ _ Hi p c Hp Hc) as (qc & Ec & _).
  assert (qc ≠ q) by (intros ->; apply Hq; exists p; by rewrite Hc, Ec).
  apply load64_ext. intros x Hx. apply Hout. unfold in_frame, frame, idx_ok, slot, PAGE_SIZE in *. lia.
Qed.

Lemma page_write_tab p : path_ok p → tab (set_vm_mem mem s) root p = tab s root p.
Proof.
  intros Hp. cbn [vm_mem vm_pages set_vm_mem]. apply table_same. intros pre j post c -> Hc.
  apply (page_write_slot pre); [by eapply path_ok_app| |done].
  destruct Hp as [_ Hf]. apply Forall_app in Hf as [_ Hf]. by apply Forall_cons in Hf as [? _].
Qed.

Lemma page_write_inv : as_inv (set_vm_mem mem s) F A root.
Proof.
  destruct Hi as [H1 H2 H3 H4 H5]. split; [exact H1|exact H2|exact H3| |].
  - intros p c Hp. rewrite page_write_tab by done. by apply H4.
  - intros p p' c Hp Hp'. rewrite !page_write_tab by done. by apply H5.
Qed.

Lemma page_write_pte virt : pte (set_vm_mem mem s) root virt = pte s root virt.
Proof.
  unfold pte, leaf. rewrite page_write_tab by apply upper_ok. destruct (tab s root (upper virt)) as [c|] eqn:Ec; [|done].
  cbn [mbind option_bind vm_mem set_vm_mem]. by rewrite (page_write_slot (upper virt) c) by (apply upper_ok || apply land_511 || done).
Qed.
End page_write.

(** ** The copy-on-write fault *)

Lemma vpage_page cr2 : 0 ≤ cr2 < 2 ^ 64 → vpage (clear_flag 64 cr2 0xFFF) = vpage cr2.
Proof.
  intros Hc. apply vpage_eq. intros n Hn. unfold clear_flag, wrap. rewrite Z.land_spec, Z.mod_pow2_bits_low, Z.lnot_spec by lia.
  change 0xFFF with (Z.ones 12). rewrite Z.ones_spec_high by lia. apply andb_true_r.
Qed.

Lemma pte_vpage s root v v' : vpage v = vpage v' → pte s root v = pte s root v'.
Proof.
  intros [= E1 E2 E3 E4]%indices_eq. unfold pte. assert (upper v = upper v') as -> by (unfold upper; congruence). by rewrite E4.
Qed.

(** After the fault [cr2] is mapped writable to the page frame [q], which holds
    what [qo] held; no other page changes. *)
Definition cow_post s root (F : gset Z) (A : list block) cr2 (qo q : Z) s' : Prop :=
  as_inv s' F A root ∧
  (∀ v, pte s' root v =
     if decide (vpage v = vpage cr2) then Some (leaf_entry (q * PAGE_SIZE) (Z.lor PAGE_WRITE PAGE_USER)) else pte s root v) ∧
  (∀ k, idx_ok k → load64 (vm_mem s') (slot (frame s q) k) = load64 (vm_mem s) (slot (frame s qo) k)) ∧
  (∀ q' x, q' ≠ q → ¬ is_table s root q' → in_frame s q' x → vm_mem s' x = vm_mem s x).

(** The copy and the new mapping, from the state with the page frame [q]. *)
Lemma cow_copy_wp s root F A e qo q (page cr2 : Z) :
  as_inv s F A root → words_ok (vm_mem s) (frame s qo) → vpage page = vpage cr2 → pte s root page = Some e →
  frame_ok (offs s) q → ¬ is_table s root q → q ≠ qo →
  wp (copy_page (frame s qo) (frame s q);;
      _ ← map_page root page (q * PAGE_SIZE) (Z.lor PAGE_WRITE PAGE_USER); mret ())
     (λ _ s', cow_post s root F A cr2 qo q s') s.
Proof.
  intros Hi Hm Hvp Hpte [Hq Hqh] Hnt Hne. unfold copy_page. apply wp_bind.
  apply copy_entries_wp; [unfold apart, frame, PAGE_SIZE; lia|done|done|done|]. intros mem Hin Hout.
  assert (Hout' : ∀ x, ¬ in_frame s q x → mem x = vm_mem s x)
    by (intros x Hx; apply Hout; unfold in_frame, frame, slot, PAGE_SIZE, ENTRIES in *; lia).
  pose proof (page_write_pte s F A root q mem Hi Hnt Hout' page) as Ep. rewrite Hpte in Ep.
  pose proof (page_write_inv s F A root q mem Hi Hnt Hout') as Hi2.
  destruct (pte_table _ _ _ _ Ep) as (t & Ht & _). set (s2 := set_vm_mem mem s) in *.
  assert (Hkt : ∀ q', is_table s2 root q' → is_table s root q').
  { intros q' (p & Hp & Hq'). exists p. split; [done|]. subst s2. by rewrite (page_write_tab s F A root q mem Hi Hnt Hout') in Hq'. }
  apply wp_bind. unfold map_page. apply wp_bind. eapply wp_eq; [by apply walk_to_pt_present|].
  unfold write_entry. wp_run. fold (leaf_entry (q * PAGE_SIZE) (Z.lor PAGE_WRITE PAGE_USER)).
  destruct (leaf_entry_spec (q * PAGE_SIZE) (Z.lor PAGE_WRITE PAGE_USER) ltac:(done)) as [Hv Hpv].
  set (v := leaf_entry _ _) in *. change (set_vm_mem _ s2) with (written s2 t page v).
  split_and!.
  - by eapply written_inv.
  - intros w. rewrite (written_pte s2 F A root t page v) by done. rewrite Hpv, Hvp.
    case_decide; [done|]. by apply (page_write_pte s F A root q).
  - intros k Hk. rewrite <-(Hin k Hk). apply load64_ext. intros x Hx.
    apply (written_mem s2 F A root t page v Hi2 Ht q); [auto|]. unfold in_frame, frame, slot, idx_ok, PAGE_SIZE in *. cbn [vm_pages set_vm_mem s2]. lia.
  - intros q' x Hq' Hnt' Hx. rewrite (written_mem s2 F A root t page v Hi2 Ht q'); [|auto|exact Hx].
    apply Hout'. unfold in_frame, frame, PAGE_SIZE in *. lia.
Qed.

(** The fault with the page frame [q] the allocator returned, 0 included. *)
Lemma cow_wp s root F A error_code cr2 e qo q pa :
  root = vm_cr3 s +64 offs s → 0 ≤ cr2 < 2 ^ 64 → words_ok (vm_mem s) (frame s qo) →
  has_flag error_code 0x1 && has_flag error_code 0x2 && has_flag error_code 0x4 = true →
  pte s root cr2 = Some e → entry_addr e = qo * PAGE_SIZE → qo ≠ 0 → frame_ok (offs s) qo →
  pa_alloc 1 (vm_pages s) = Ok (q * PAGE_SIZE, pa) → as_inv (set_vm_pages pa s) F A root → pa_hhdm pa = offs s →
  ¬ is_table s root q → frame_ok (offs s) q → q ≠ qo →
  wp (page_fault_handler error_code cr2) (λ _ s', cow_post s root F A cr2 qo q s') s.
Proof.
  intros Hroot Hc Hm Hec Hpte Ea Hqo Hfo Hal Hi Hh Hnt Hfq Hne. unfold page_fault_handler. rewrite Hec.
  unfold get_current_pml4. wp_run. rewrite <-Hroot. set (page := clear_flag 64 cr2 0xFFF).
  assert (Hvp : vpage page = vpage cr2) by by apply vpage_page.
  assert (Hpp : pte s root page = Some e) by by rewrite (pte_vpage _ _ _ _ Hvp).
  pose proof (ai_hhdm _ _ _ _ Hi) as H0. cbn [vm_pages set_vm_pages] in H0. rewrite Hh in H0.
  set (s1 := set_vm_pages pa s) in *. assert (Hh1 : offs s1 = offs s) by exact Hh.
  assert (Eaddr : ∀ k, frame_ok (offs s) k → k * PAGE_SIZE +64 offs s1 = frame s1 k)
    by (intros k [Hk Hk']; unfold frame; rewrite Hh1; rewrite wrap_small; unfold PAGE_SIZE in *; lia).
  eapply wp_eq; [by apply walk_page_table_mapped|]. rewrite Ea.
  destruct (Z.eqb_spec (qo * PAGE_SIZE) 0) as [E|_]; [unfold PAGE_SIZE in E; lia|].
  apply wp_bind. eapply wp_eq; [unfold vm_page_op; by rewrite Hal|]. fold s1. unfold hhdm. apply wp_bind, wp_gets. cbn beta. rewrite !Eaddr by done.
  assert (Es : ∀ v, pte s1 root v = pte s root v) by (intros v; unfold pte; by rewrite Hh1).
  assert (Et : ∀ k, is_table s1 root k ↔ is_table s root k) by (intros k; unfold is_table, frame; by rewrite Hh1).
  eapply wp_mono; [apply (cow_copy_wp s1 root F A e qo q page cr2); [done|unfold frame; by rewrite Hh1|done|by rewrite Es|by rewrite Hh1|by rewrite Et|done]|].
  intros [] s' (A1 & A2 & A3 & A4). unfold cow_post, in_frame, frame in *. rewrite Hh1 in *. split_and!; [done| |done|].
  - intros v. by rewrite A2, Es.
  - intros q' x ? ?. apply A4; [done|]. by rewrite Et.
Qed.
End copy.
