(* ===== verification/VmmTheorems.v ===== *)
(** * Properties of the page tables

    Mapping, unmapping and translating in an address space, the copy-on-write
    fault, and what a clone does to a page table; with a machine of nine page
    frames on which the properties are applied. *)

From S2P Require Import Prelude Bytes Pmm PmmBlocks PmmInv PmmInit PageAlloc PmmTheorems KernelHeap Vmm VmmInv VmmMap VmmCopy.
Open Scope Z_scope.

(** ** A machine

    The small machine of the page allocator, with a zeroed top-level table in
    page frame 100, outside the allocator's memory. *)

Definition small_root : Z := 0xffff800000000000 + 100 * PAGE_SIZE.
Definition small_as : Z := 0x5000.
Definition small_vmm : vmm bump pmm :=
  mkVmm (mkBump 0x6000 0x7000) small_pmm (λ _, 0) {[small_as := mkAs small_root 0]} (100 * PAGE_SIZE).

Lemma small_hhdm : kHhdmOffset small_pmm = 0xffff800000000000.
Proof. vm_compute. reflexivity. Qed.

Lemma small_total : kTotalPages small_pmm = 9.
Proof. vm_compute. reflexivity. Qed.

Lemma load64_zero a : load64 (λ _, 0) a = 0.
Proof. reflexivity. Qed.

Lemma zero_table h root p b : table (λ _, 0) h root p = Some b → p = [] ∧ b = root.
Proof. destruct p; simpl; [by intros [= <-]|done]. Qed.

(** An address space with an empty top-level table outside the free memory. *)
Lemma empty_as_inv {H} `{!KernelHeap H} (h : H) pm F A sp cr3 qr :
  pmm_view pm F A → 0 ≤ kHhdmOffset pm → kHhdmOffset pm + 2 ^ 20 * PAGE_SIZE ≤ 2 ^ 64 →
  kTotalPages pm ≤ qr < 2 ^ 20 →
  as_inv (mkVmm h pm (λ _, 0) sp cr3) F A (kHhdmOffset pm + qr * PAGE_SIZE).
Proof.
  intros Hv Hh0 Hh Hq. pose proof Hv as (L & Hi & EF). pose proof (pl_total _ _ _ (pi_lists _ _ _ Hi)) as Ht.
  assert (HF : ∀ q, q ∈ F → 0 ≤ q < kTotalPages pm).
  { intros q. rewrite EF, elem_of_page_set. unfold pages. rewrite list_elem_of_bind. intros (b & Hb1 & Hb).
    destruct (pl_blocks _ _ _ (pi_lists _ _ _ Hi)) as [HB _]. rewrite Forall_forall in HB.
    destruct (HB b) as (_ & _ & ? & ?); [apply elem_of_app; by left|]. destruct b as [p o]. apply elem_of_block_pages in Hb1. simpl in *. lia. }
  split; cbn [vm_pages vm_mem]; change (pa_hhdm pm) with (kHhdmOffset pm).
  - exact Hv.
  - done.
  - intros q Hq'%HF. unfold frame_ok, PAGE_SIZE in *. lia.
  - intros p b _ [_ ->]%zero_table. exists qr. split_and!; [done|intros ?%HF; lia|]. unfold frame_ok, PAGE_SIZE in *. lia.
  - intros p p' b _ _ [-> _]%zero_table [-> _]%zero_table. done.
Qed.

(** Pages 2 to 8 of the machine are free: page 1 holds the metadata. *)
Lemma small_free : ∃ L, pmm_inv small_pmm L [] ∧ ∀ x, x ∈ page_set (blocks L) → 1 < x < 9.
Proof.
  assert (Hw : wp (pmm_init (λ _, 0) small_memmap 0xffff800000000000)
    (λ _ s, ∃ L, pmm_inv s L [] ∧ ∀ x, x ∈ page_set (blocks L) → 1 < x < 9) pmm_boot).
  { eapply pmm_init_inv; [apply small_memmap_ok|lia|vm_compute; reflexivity|]. intros s L Hi _ _ Hp. exists L. split; [done|].
    intros x. rewrite elem_of_page_set, Hp. intros (e & He & _ & Hx & Hm).
    apply list_elem_of_singleton in He as ->. assert (¬ 1 ≤ x < 2) by exact Hm. assert (1 ≤ x < 9) by exact Hx. lia. }
  unfold wp in Hw. unfold small_pmm. by destruct (pmm_init _ _ _ _) as [[? ?]| |].
Qed.

Lemma small_vmm_inv : ∃ F, as_inv small_vmm F [] small_root ∧ ∀ x, x ∈ F → 1 < x < 9.
Proof.
  destruct small_free as (L & Hi & HF). exists (page_set (blocks L)). split; [|exact HF].
  assert (E : small_root = kHhdmOffset small_pmm + 100 * PAGE_SIZE) by (rewrite small_hhdm; reflexivity).
  rewrite E. apply (empty_as_inv (mkBump 0x6000 0x7000) small_pmm (page_set (blocks L)) [] _ _ 100).
  - exact (ex_intro _ L (conj Hi eq_refl)).
  - by rewrite small_hhdm.
  - by rewrite small_hhdm.
  - rewrite small_total. lia.
Qed.

Section vmm.
Context {H PA : Type} `{!KernelHeap H} `{!PageAllocator PA}.
Implicit Types s : vmm H PA.
Abbreviation offs s := (pa_hhdm (vm_pages s)).

(** ** Properties *)

(** C7: [vmm_map_page] in an address space whose tables are distinct pages
    outside the free memory returns normally.  On success the page of [virt]
    is translated by the frame of [phys] with the given flags and the present
    bit, and every other virtual page exactly as before; on failure (no page for
    a table) all translations are as before.  In both cases the address space
    stays well formed, new tables come from the free memory, and no page that is
    neither free nor a table of this space is written. *)
Theorem vmm_map_page_correct s F A a x virt phys flags :
  vm_spaces s !! a = Some x → as_inv s F A (as_pml4 x) → 0 ≤ flags < 2 ^ 32 →
  ∃ ok s' F' A', vmm_map_page a virt phys flags s = Ok (ok, s') ∧
    as_inv s' F' A' (as_pml4 x) ∧ kept (as_pml4 x) s F s' F' ∧
    ∀ v, pte s' (as_pml4 x) v =
      if decide (ok = true ∧ vpage v = vpage virt) then Some (Z.lor (Z.lor (Z.land phys ADDR_MASK) flags) PAGE_PRESENT)
      else pte s (as_pml4 x) v.
Proof.
  intros Ha Hi Hf. assert (Hw : wp (vmm_map_page a virt phys flags) (λ ok s', ∃ F' A', as_inv s' F' A' (as_pml4 x) ∧
    kept (as_pml4 x) s F s' F' ∧ ∀ v, pte s' (as_pml4 x) v =
      if decide (ok = true ∧ vpage v = vpage virt) then Some (leaf_entry phys flags) else pte s (as_pml4 x) v) s).
  { unfold vmm_map_page, read_space. wp_run. by apply (map_page_wp s F A). }
  apply wp_ok in Hw as (ok & s' & E & F' & A' & HQ). by exists ok, s', F', A'.
Qed.

(** C19: mapping then walking and unmapping.  After a successful [vmm_map_page]
    with flags in the low twelve bits, [vmm_walk_page_table] returns the frame
    address of [phys] and changes nothing; [vmm_unmap_page] then leaves the page
    without a translation and every other page with the one it had before the
    mapping. *)
Theorem vmm_map_unmap_roundtrip s F A a x virt phys flags s1 :
  vm_spaces s !! a = Some x → as_inv s F A (as_pml4 x) → 0 ≤ flags < 4096 →
  vmm_map_page a virt phys flags s = Ok (true, s1) →
  vmm_walk_page_table a virt s1 = Ok (Z.land phys ADDR_MASK, s1) ∧
  ∃ s2, vmm_unmap_page a virt s1 = Ok ((), s2) ∧
    ∀ v, pte s2 (as_pml4 x) v = if decide (vpage v = vpage virt) then None else pte s (as_pml4 x) v.
Proof.
  intros Ha Hi Hf E. assert (E' : map_page (as_pml4 x) virt phys flags s = Ok (true, s1)).
  { revert E. unfold vmm_map_page, read_space, get, mbind, M_bind. by rewrite Ha. }
  pose proof (wp_result _ _ _ _ _ (map_page_wp s F A (as_pml4 x) virt phys flags Hi ltac:(lia)) E') as (F1 & A1 & Hi1 & K1 & Hp).
  destruct (kp_rest _ _ _ _ _ K1) as (_ & Hsp & _).
  assert (Ha1 : vm_spaces s1 !! a = Some x) by by rewrite Hsp.
  assert (Hv : pte s1 (as_pml4 x) virt = Some (leaf_entry phys flags)) by by rewrite Hp, decide_True.
  split.
  - unfold vmm_walk_page_table, read_space, get, mbind, M_bind. rewrite Ha1. cbn [deref mret M_ret].
    rewrite (walk_page_table_mapped _ _ _ _ Hv). unfold leaf_entry. rewrite !entry_addr_lor by (done || lia).
    unfold entry_addr. by rewrite <-Z.land_assoc, Z.land_diag.
  - assert (Hw : wp (vmm_unmap_page a virt) (λ _ s2, ∀ v, pte s2 (as_pml4 x) v =
      if decide (vpage v = vpage virt) then None else pte s (as_pml4 x) v) s1).
    { unfold vmm_unmap_page, read_space. wp_run. eapply wp_mono; [by eapply unmap_page_wp|].
      intros [] s2 (_ & _ & Hp2) v. rewrite Hp2, Hp. repeat case_decide; naive_solver. }
    apply wp_ok in Hw as ([] & s2 & E2 & HQ). by exists s2.
Qed.

Lemma error_code_7 error_code : Z.land error_code 7 = 7 →
  has_flag error_code 0x1 && has_flag error_code 0x2 && has_flag error_code 0x4 = true.
Proof.
  intros E. assert (Hb : ∀ k, 0 ≤ k < 3 → Z.testbit error_code k = true).
  { intros k Hk. apply (f_equal (λ z, Z.testbit z k)) in E. rewrite Z.land_spec in E.
    assert (Z.testbit 7 k = true) as E7 by (change 7 with (Z.ones 3); apply Z.ones_spec_low; lia). rewrite E7, andb_true_r in E. done. }
  change 0x1 with (Z.shiftl 1 0). change 0x2 with (Z.shiftl 1 1). change 0x4 with (Z.shiftl 1 2).
  by rewrite !has_flag_bit, !Hb by lia.
Qed.

(** The fault when the allocator has a page. *)
Lemma cow_fault_resolved s F A root error_code cr2 e qo r pa :
  as_inv s F A root → root = vm_cr3 s +64 offs s → 0 ≤ cr2 < 2 ^ 64 → Z.land error_code 7 = 7 →
  pte s root cr2 = Some e → entry_addr e = qo * PAGE_SIZE → qo ≠ 0 → (qo ∉ F) → frame_ok (offs s) qo →
  words_ok (vm_mem s) (frame s qo) →
  pa_alloc 1 (vm_pages s) = Ok (r, pa) → r ≠ 0 →
  ∃ s' q, page_fault_handler error_code cr2 s = Ok ((), s') ∧ r = q * PAGE_SIZE ∧ q ∈ F ∧
    cow_post s root (F ∖ {[q]}) ((q, 0%nat) :: A) cr2 qo q s'.
Proof.
  intros Hi Hroot Hc Hec Hpte Ea Hqo HqF Hfo Hw Hal Hr.
  pose proof (wp_result _ _ _ _ _ (pa_alloc_spec _ _ _ 1 (ai_pages _ _ _ _ Hi) ltac:(lia)) Hal) as
    [[[-> _]|(q & o & -> & ->%fits_1 & Hsub & Hpa)] Hh]; [done|].
  rewrite page_set_1 in *. assert (Hq : q ∈ F) by set_solver.
  pose proof (free_not_table _ _ _ _ _ Hi Hq) as Hnt.
  assert (Hi' : as_inv (set_vm_pages pa s) (F ∖ {[q]}) ((q, 0%nat) :: A) root)
    by (apply (as_inv_pages s F A); [done|done|set_solver|done]).
  pose proof (cow_wp s root (F ∖ {[q]}) ((q, 0%nat) :: A) error_code cr2 e qo q pa Hroot Hc Hw (error_code_7 _ Hec) Hpte Ea Hqo Hfo Hal) as Hcow.
  destruct (proj1 (wp_ok _ _ _) (Hcow Hi' Hh Hnt (ai_free _ _ _ _ Hi q Hq) ltac:(congruence)))
    as ([] & s' & E & Hpost). by exists s', q.
Qed.

(** C20: a write by user code to a present page (error code bits 0, 1 and 2) whose
    frame is neither free nor frame 0 is resolved when the allocator has a
    page: the fault returns, the page is mapped writable to a frame that was
    free and now holds the same words, every other page keeps its translation,
    and no other frame that is not a page table changes (the old frame
    included). *)
Theorem cow_fault_correct s F A root error_code cr2 e qo r pa :
  as_inv s F A root → root = vm_cr3 s +64 offs s → 0 ≤ cr2 < 2 ^ 64 → Z.land error_code 7 = 7 →
  pte s root cr2 = Some e → entry_addr e = qo * PAGE_SIZE → qo ≠ 0 → (qo ∉ F) → frame_ok (offs s) qo →
  words_ok (vm_mem s) (frame s qo) →
  pa_alloc 1 (vm_pages s) = Ok (r, pa) → r ≠ 0 →
  ∃ s' q, page_fault_handler error_code cr2 s = Ok ((), s') ∧ r = q * PAGE_SIZE ∧ q ∈ F ∧
    cow_post s root (F ∖ {[q]}) ((q, 0%nat) :: A) cr2 qo q s'.
Proof. apply cow_fault_resolved. Qed.

(** The same fault when the allocator has no page.  [page_fault_handler]
    does not test the address it is given: the page is mapped writable to page
    frame 0, which is overwritten with the page's words, and the handler
    returns. *)
Theorem cow_fault_no_memory s F A root error_code cr2 e qo pa :
  as_inv s F A root → root = vm_cr3 s +64 offs s → 0 ≤ cr2 < 2 ^ 64 → Z.land error_code 7 = 7 →
  pte s root cr2 = Some e → entry_addr e = qo * PAGE_SIZE → qo ≠ 0 → frame_ok (offs s) qo →
  words_ok (vm_mem s) (frame s qo) → ¬ is_table s root 0 →
  pa_alloc 1 (vm_pages s) = Ok (0, pa) →
  ∃ s' F' A', page_fault_handler error_code cr2 s = Ok ((), s') ∧ cow_post s root F' A' cr2 qo 0 s'.
Proof.
  intros Hi Hroot Hc Hec Hpte Ea Hqo Hfo Hw Hnt Hal.
  pose proof (wp_result _ _ _ _ _ (pa_alloc_spec _ _ _ 1 (ai_pages _ _ _ _ Hi) ltac:(lia)) Hal) as [Hpost Hh].
  assert (∃ F' A', pa_inv pa F' A' ∧ F' ⊆ F) as (F' & A' & Hpa & Hsub).
  { destruct Hpost as [[_ ->]|(q & o & _ & _ & _ & Hpa)]; [by exists F, A; split; [apply Hi|]|]. eexists _, _. split; [exact Hpa|set_solver]. }
  assert (Hf0 : frame_ok (offs s) 0) by (destruct Hfo; unfold frame_ok, PAGE_SIZE in *; lia).
  pose proof (cow_wp s root F' A' error_code cr2 e qo 0 pa Hroot Hc Hw (error_code_7 _ Hec) Hpte Ea Hqo Hfo Hal) as Hcow.
  destruct (proj1 (wp_ok _ _ _) (Hcow ltac:(by eapply as_inv_pages) Hh Hnt Hf0 ltac:(done))) as ([] & s' & E & HQ). by exists s', F', A'.
Qed.

(** What a clone does to one page table of the source, [src], and the table
    made for it, [dst]: it always succeeds, touches no other page, and treats
    the entries by their index.  A present entry below 256 loses its write
    permission on both sides, so that the next write is a copy-on-write fault;
    a present entry from 256 on, which is a user page just as well (bits 12 to
    20 of the address), is shared as it is and stays writable on both sides; an
    absent entry leaves whatever the page of [dst] held. *)
Theorem clone_page_table s src dst :
  apart src dst → words_ok (vm_mem s) src →
  ∃ mem, copy_page_table_level 0 false src dst s = Ok (true, set_vm_mem mem s) ∧
    (∀ x, ¬ src ≤ x < src + PAGE_SIZE → ¬ dst ≤ x < dst + PAGE_SIZE → mem x = vm_mem s x) ∧
    ∀ i, idx_ok i → let e := load64 (vm_mem s) (slot src i) in
      if negb (present e) then
        load64 mem (slot src i) = e ∧ load64 mem (slot dst i) = load64 (vm_mem s) (slot dst i)
      else if i <? 256 then
        load64 mem (slot src i) = clear_flag 64 e PAGE_WRITE ∧ load64 mem (slot dst i) = clear_flag 64 e PAGE_WRITE
      else load64 mem (slot src i) = e ∧ load64 mem (slot dst i) = e.
Proof.
  intros Ha Hw. pose proof (copy_pt_wp src dst (Z.of_nat <$> seq 0 ENTRIES) s Ha) as Hc.
  assert (Hin : ∀ i, i ∈ Z.of_nat <$> seq 0 ENTRIES ↔ idx_ok i).
  { intros i. rewrite list_elem_of_fmap. unfold idx_ok. change 512 with (Z.of_nat ENTRIES). split.
    - intros (k & -> & [_ Hk]%elem_of_seq). lia.
    - intros Hi. exists (Z.to_nat i). split; [lia|]. apply elem_of_seq. lia. }
  destruct (proj1 (wp_ok _ _ _) (Hc ltac:(apply NoDup_fmap; [apply _|apply NoDup_seq]) ltac:(apply Forall_forall; intros i; apply Hin) Hw))
    as (ok & s' & E & -> & mem & -> & Hs & Hd & Ho).
  exists mem. split; [exact E|]. split; [exact Ho|]. intros i Hi. cbn zeta. rewrite Hs, Hd, !(decide_True (P := i ∈ _)) by (done || by apply Hin).
  unfold pt_dst, pt_src. destruct (present (load64 (vm_mem s) (slot src i))); cbn [negb andb]; [|done]. by destruct (i <? 256).
Qed.
End vmm.

(** ** Applications *)

Lemma small_space : vm_spaces small_vmm !! small_as = Some (mkAs small_root 0).
Proof. apply lookup_insert_eq. Qed.

Lemma vmm_map_page_correct_witness :
  ∃ F ok s' F' A', vmm_map_page small_as 0x400000 (50 * PAGE_SIZE) 7 small_vmm = Ok (ok, s') ∧
    as_inv s' F' A' small_root ∧ kept small_root small_vmm F s' F' ∧
    ∀ v, pte s' small_root v =
      if decide (ok = true ∧ vpage v = vpage 0x400000) then Some (Z.lor (Z.lor (Z.land (50 * PAGE_SIZE) ADDR_MASK) 7) PAGE_PRESENT)
      else pte small_vmm small_root v.
Proof.
  destruct small_vmm_inv as (F & Hi & _). exists F.
  exact (vmm_map_page_correct small_vmm F [] small_as (mkAs small_root 0) 0x400000 (50 * PAGE_SIZE) 7 small_space Hi ltac:(lia)).
Defined.

(** The mapping succeeds: the machine has the three pages for the tables. *)
Definition small_mapped : vmm bump pmm := final_state (vmm_map_page small_as 0x400000 (50 * PAGE_SIZE) 7) small_vmm.

Lemma small_mapped_ok : vmm_map_page small_as 0x400000 (50 * PAGE_SIZE) 7 small_vmm = Ok (true, small_mapped).
Proof.
  unfold small_mapped, final_state.
  assert (E : match vmm_map_page small_as 0x400000 (50 * PAGE_SIZE) 7 small_vmm with Ok (b, _) => b | _ => false end = true)
    by (vm_compute; reflexivity).
  revert E. generalize (vmm_map_page small_as 0x400000 (50 * PAGE_SIZE) 7 small_vmm). intros [[[] s]| |] E; done.
Qed.

Lemma vmm_map_unmap_roundtrip_witness :
  ∃ s1, vmm_map_page small_as 0x400000 (50 * PAGE_SIZE) 7 small_vmm = Ok (true, s1) ∧
    vmm_walk_page_table small_as 0x400000 s1 = Ok (Z.land (50 * PAGE_SIZE) ADDR_MASK, s1) ∧
    ∃ s2, vmm_unmap_page small_as 0x400000 s1 = Ok ((), s2) ∧
      ∀ v, pte s2 small_root v = if decide (vpage v = vpage 0x400000) then None else pte small_vmm small_root v.
Proof.
  destruct small_vmm_inv as (F & Hi & _). exists small_mapped. split; [exact small_mapped_ok|].
  exact (vmm_map_unmap_roundtrip small_vmm F [] small_as (mkAs small_root 0) 0x400000 (50 * PAGE_SIZE) 7 small_mapped
           small_space Hi ltac:(lia) small_mapped_ok).
Defined.

(** The state of a fault at a mapped page. *)
Lemma small_mapped_facts : ∃ F A,
  as_inv small_mapped F A small_root ∧ pa_hhdm (vm_pages small_mapped) = 0xffff800000000000 ∧
  small_root = vm_cr3 small_mapped +64 pa_hhdm (vm_pages small_mapped) ∧
  pte small_mapped small_root 0x400008 = Some (leaf_entry (50 * PAGE_SIZE) 7) ∧ (50 ∉ F) ∧
  words_ok (vm_mem small_mapped) (frame small_mapped 50) ∧ ¬ is_table small_mapped small_root 0.
Proof.
  destruct small_vmm_inv as (F & Hi & HF).
  assert (E : map_page small_root 0x400000 (50 * PAGE_SIZE) 7 small_vmm = Ok (true, small_mapped)).
  { pose proof small_mapped_ok as E. revert E. unfold vmm_map_page, read_space, get. unfold mbind at 1 2, M_bind at 1 2.
    rewrite small_space. intros E. exact E. }
  pose proof (wp_result _ _ _ _ _ (map_page_wp small_vmm F [] small_root 0x400000 (50 * PAGE_SIZE) 7 Hi ltac:(lia)) E)
    as (F1 & A1 & Hi1 & K1 & Hp). revert Hi1 K1 Hp. generalize small_mapped as s1. intros s1 Hi1 K1 Hp.
  assert (Hh : pa_hhdm (vm_pages s1) = 0xffff800000000000) by (rewrite (kp_hhdm _ _ _ _ _ K1); apply small_hhdm).
  assert (Hnt : ∀ q, is_table s1 small_root q → 1 < q).
  { intros q [(p & _ & Ht)|Hq]%(kp_new _ _ _ _ _ K1); [|specialize (HF q Hq); lia]. apply zero_table in Ht as [_ Ht].
    revert Ht. unfold frame, small_root, small_vmm. cbn [vm_pages]. change (pa_hhdm small_pmm) with (kHhdmOffset small_pmm).
    rewrite small_hhdm. unfold PAGE_SIZE. lia. }
  exists F1, A1. split_and!; [exact Hi1|exact Hh| | | | |].
  - destruct (kp_rest _ _ _ _ _ K1) as (_ & _ & Hcr). rewrite Hcr, Hh. reflexivity.
  - rewrite Hp. apply decide_True. split; [done|reflexivity].
  - intros H50. pose proof (HF 50 (kp_sub _ _ _ _ _ K1 50 H50)). lia.
  - assert (Hz : ∀ x, in_frame small_vmm 50 x → vm_mem s1 x = 0).
    { intros x Hx. rewrite (kp_mem _ _ _ _ _ K1 50 x); [reflexivity|intros H50; specialize (HF 50 H50); lia| |exact Hx].
      intros (p & _ & [_ Ht]%zero_table). revert Ht. unfold frame, small_root, small_vmm. cbn [vm_pages].
      change (pa_hhdm small_pmm) with (kHhdmOffset small_pmm). rewrite small_hhdm. unfold PAGE_SIZE. lia. }
    intros k Hk. rewrite (load64_ext _ (λ _, 0)); [rewrite load64_zero; lia|]. intros x Hx. apply Hz.
    revert Hx. unfold in_frame, frame, small_vmm. cbn [vm_pages]. change (pa_hhdm small_pmm) with (kHhdmOffset small_pmm).
    rewrite small_hhdm, Hh. unfold slot, idx_ok, PAGE_SIZE in *. lia.
  - intros Ht%Hnt. lia.
Qed.

Lemma leaf_entry_50 : entry_addr (leaf_entry (50 * PAGE_SIZE) 7) = 50 * PAGE_SIZE.
Proof. reflexivity. Qed.

Lemma frame_ok_50 : frame_ok 0xffff800000000000 50.
Proof. unfold frame_ok, PAGE_SIZE. lia. Qed.

(** The allocator of the example has a page. *)
Lemma small_mapped_page : ∃ r pa, pmm_alloc_pages 1 (vm_pages small_mapped) = Ok (r, pa) ∧ r ≠ 0.
Proof.
  assert (E : match pmm_alloc_pages 1 (vm_pages small_mapped) with Ok (r, _) => negb (r =? 0) | _ => false end = true)
    by (vm_compute; reflexivity).
  destruct (pmm_alloc_pages 1 (vm_pages small_mapped)) as [[r pa]| |]; [|discriminate E..].
  exists r, pa. split; [reflexivity|]. by apply negb_true_iff, Z.eqb_neq in E.
Qed.

Lemma small_fault_returns : ∃ s', page_fault_handler 7 0x400008 small_mapped = Ok ((), s').
Proof.
  destruct small_mapped_facts as (F & A & Hi & Hh & Hr & Hp & HF & Hw & _). destruct small_mapped_page as (r & pa & Ea & E).
  destruct (cow_fault_resolved small_mapped F A small_root 7 0x400008 _ 50 r pa Hi Hr ltac:(lia) eq_refl Hp leaf_entry_50
    ltac:(lia) HF ltac:(rewrite Hh; exact frame_ok_50) Hw Ea E) as (s' & q & Hrun & _). exists s'. exact Hrun.
Qed.

Lemma cow_fault_correct_witness : ∃ s' F A q,
  page_fault_handler 7 0x400008 small_mapped = Ok ((), s') ∧ q ∈ F ∧
  cow_post small_mapped small_root (F ∖ {[q]}) ((q, 0%nat) :: A) 0x400008 50 q s'.
Proof.
  destruct small_mapped_facts as (F & A & Hi & Hh & Hr & Hp & HF & Hw & _).
  destruct small_mapped_page as (r & pa & Ea & E).
  pose proof (cow_fault_correct small_mapped F A small_root 7 0x400008 _ 50 r pa Hi Hr ltac:(lia) eq_refl Hp leaf_entry_50
    ltac:(lia) HF ltac:(rewrite Hh; exact frame_ok_50) Hw Ea E) as (s' & q & Hrun & _ & Hq & Hpost).
  exists s', F, A, q. exact (conj Hrun (conj Hq Hpost)).
Defined.

(** The same machine with every page handed out. *)
Definition small_full : vmm bump pmm :=
  set_vm_pages (Nat.iter 8 (final_state (pmm_alloc_pages 1)) (vm_pages small_mapped)) small_mapped.

Lemma alloc_iter n pm F A : pmm_view pm F A →
  ∃ F' A', pmm_view (Nat.iter n (final_state (pmm_alloc_pages 1)) pm) F' A' ∧ F' ⊆ F ∧
    kHhdmOffset (Nat.iter n (final_state (pmm_alloc_pages 1)) pm) = kHhdmOffset pm.
Proof.
  intros Hv. induction n as [|n (F1 & A1 & H1 & HF & Hh)]; [by exists F, A|].
  change (Nat.iter (S n) ?f pm) with (f (Nat.iter n f pm)). revert H1 Hh. generalize (Nat.iter n (final_state (pmm_alloc_pages 1)) pm) as pm1.
  intros pm1 H1 Hh. destruct (wp_final_state _ _ _ (pmm_view_alloc _ _ _ 1 H1 ltac:(lia))) as (r & Hpost & Hh2). rewrite Hh in Hh2.
  destruct Hpost as [[_ E]|(p & o & _ & _ & _ & H2)].
  - exists F1, A1. rewrite E in *. done.
  - eexists _, _. split; [exact H2|]. split; [set_solver|done].
Qed.

(** What a fault depends on is the same with another allocator state. *)
Lemma fault_state_pages (s : vmm bump pmm) pa root cr2 : pa_hhdm pa = pa_hhdm (vm_pages s) →
  vm_cr3 (set_vm_pages pa s) +64 pa_hhdm (vm_pages (set_vm_pages pa s)) = vm_cr3 s +64 pa_hhdm (vm_pages s) ∧
  pte (set_vm_pages pa s) root cr2 = pte s root cr2 ∧
  (∀ q, frame (set_vm_pages pa s) q = frame s q ∧ (is_table (set_vm_pages pa s) root q ↔ is_table s root q)).
Proof.
  intros Hh. cbn [vm_pages vm_cr3 set_vm_pages]. unfold pte, is_table, frame. cbn [vm_pages vm_mem set_vm_pages]. by rewrite Hh.
Qed.

Lemma small_full_ok : ∃ pa, pmm_alloc_pages 1 (vm_pages small_full) = Ok (0, pa).
Proof.
  assert (E : match pmm_alloc_pages 1 (vm_pages small_full) with Ok (r, _) => r =? 0 | _ => false end = true)
    by (vm_compute; reflexivity).
  revert E. generalize (pmm_alloc_pages 1 (vm_pages small_full)). intros [[r pa]| |] E; [|discriminate E..].
  apply Z.eqb_eq in E as ->. by exists pa.
Qed.

Lemma cow_fault_no_memory_witness : ∃ s' F A,
  page_fault_handler 7 0x400008 small_full = Ok ((), s') ∧ cow_post small_full small_root F A 0x400008 50 0 s'.
Proof.
  destruct small_mapped_facts as (F & A & Hi & Hh & Hr & Hp & HF & Hw & H0).
  destruct (alloc_iter 8 _ _ _ (ai_pages _ _ _ _ Hi)) as (F1 & A1 & Hv & Hs & Hh1). destruct small_full_ok as [pa Ea].
  revert Ea. unfold small_full. revert Hv Hh1. generalize (Nat.iter 8 (final_state (pmm_alloc_pages 1)) (vm_pages small_mapped)) as p1.
  revert Hi Hh Hr Hp Hw H0. generalize small_mapped as s. intros s Hi Hh Hr Hp Hw H0 p1 Hv Hh1 Ea.
  destruct (fault_state_pages s p1 small_root 0x400008 Hh1) as (E1 & E2 & E3).
  apply (cow_fault_no_memory (set_vm_pages p1 s) F1 A1 small_root 7 0x400008 (leaf_entry (50 * PAGE_SIZE) 7) 50 pa).
  - exact (as_inv_pages _ _ _ _ _ _ _ Hi Hv Hs Hh1).
  - rewrite E1. exact Hr.
  - lia.
  - reflexivity.
  - rewrite E2. exact Hp.
  - exact leaf_entry_50.
  - lia.
  - cbn [vm_pages set_vm_pages]. change (pa_hhdm p1) with (kHhdmOffset p1). rewrite Hh1. change (kHhdmOffset ?p) with (pa_hhdm p).
    rewrite Hh. exact frame_ok_50.
  - rewrite (proj1 (E3 50)). exact Hw.
  - rewrite (proj2 (E3 0)). exact H0.
  - exact Ea.
Defined.

(** A source table with one present, writable entry, at index 300. *)
Definition small_table : vmm bump pmm := set_vm_mem (store64 (λ _, 0) (slot 0x10000 300) 0x7007) small_vmm.

Lemma clone_page_table_witness :
  ∃ mem, copy_page_table_level 0 false 0x10000 0x20000 small_table = Ok (true, set_vm_mem mem small_table) ∧
    load64 mem (slot 0x10000 300) = 0x7007 ∧ load64 mem (slot 0x20000 300) = 0x7007.
Proof.
  destruct (clone_page_table small_table 0x10000 0x20000) as (mem & E & _ & Hi).
  - left. unfold PAGE_SIZE. lia.
  - intros k Hk. unfold small_table. cbn [vm_mem set_vm_mem]. destruct (decide (k = 300)) as [->|Hne].
    + rewrite load_store64 by lia. lia.
    + rewrite load_store64_ne by (apply slot_ne; lia). rewrite load64_zero. lia.
  - exists mem. split; [exact E|]. exact (Hi 300 ltac:(unfold idx_ok; lia)).
Defined.
