(* ===== verification/Elf.v ===== *)
(** * Program images

    Model of [elf_load] of src/kernel/elf.cpp on the bytes of the image; a
    read past them is undefined.  The address space is that of the process,
    named by the address of its [AddressSpace]. *)

From S2P Require Import Prelude Bytes Pmm PmmBlocks PageAlloc KernelHeap Vmm.
Open Scope Z_scope.

Definition PT_LOAD : Z := 1.
Definition PF_X : Z := 1.
Definition PF_W : Z := 2.
Definition sizeof_Elf64_Phdr : Z := 56.

(** [n] bytes at offset [off]. *)
Definition image_bytes (data : list Z) (off n : Z) : option (list Z) :=
  if (0 <=? off) && (0 <=? n) && (off + n <=? Z.of_nat (length data))
  then Some (take (Z.to_nat n) (drop (Z.to_nat off) data)) else None.

Definition field (data : list Z) (off n : Z) : option Z := le_value <$> image_bytes data off n.

(** Fields of the file header, by offset. *)
Definition e_ident (data : list Z) (i : Z) : option Z := field data i 1.
Definition e_machine (data : list Z) : option Z := field data 18 2.
Definition e_entry (data : list Z) : option Z := field data 24 8.
Definition e_phoff (data : list Z) : option Z := field data 32 8.
Definition e_phnum (data : list Z) : option Z := field data 56 2.

(** The fields of a program header the loader reads. *)
Record Elf64_Phdr := mkPhdr {
  p_type : Z; p_flags : Z; p_offset : Z; p_vaddr : Z; p_filesz : Z; p_memsz : Z
}.

Definition phdr_type (data : list Z) (ph : Z) : option Z := field data ph 4.
Definition phdr_read (data : list Z) (ph : Z) : option Elf64_Phdr :=
  t ← field data ph 4; f ← field data (ph + 4) 4; o ← field data (ph + 8) 8;
  v ← field data (ph + 16) 8; fs ← field data (ph + 32) 8; ms ← field data (ph + 40) 8;
  Some (mkPhdr t f o v fs ms).

(** [uint32_t flags]: the assignment of [PAGE_NX], bit 63, is cut off. *)
Definition seg_flags (ph : Elf64_Phdr) : Z :=
  let flags := u32 PAGE_USER in
  let flags := if has_flag (p_flags ph) PF_W then u32 (Z.lor flags PAGE_WRITE) else flags in
  if negb (has_flag (p_flags ph) PF_X) then u32 (Z.lor flags PAGE_NX) else flags.

Section elf.
Context {H PA : Type} `{!KernelHeap H} `{!PageAllocator PA}.
Abbreviation W := (M (vmm H PA)).

(** The copy into the page at [v], whose frame is mapped at [page_virt]. *)
Definition copy_segment_page (data : list Z) (ph : Elf64_Phdr) (v page_virt : Z) : W () :=
  let page_start := v in
  let seg_start := p_vaddr ph in
  let seg_end := p_vaddr ph +64 p_filesz ph in
  if (page_start +64 PAGE_SIZE <=? seg_start) || (seg_end <=? page_start) then mret ()
  else
    let copy_start := if page_start <? seg_start then seg_start else page_start in
    let copy_end := if seg_end <? page_start +64 PAGE_SIZE then seg_end else page_start +64 PAGE_SIZE in
    let offset_in_data := copy_start -64 seg_start in
    let offset_in_page := copy_start -64 page_start in
    let copy_size := copy_end -64 copy_start in
    bs ← deref (image_bytes data (p_offset ph + offset_in_data) copy_size);
    modify (λ s, set_vm_mem (mem_write (vm_mem s) (page_virt +64 offset_in_page) bs) s).

(** One page of a segment; [false] when there is no memory.  The result of
    [vmm_map_page] is not looked at. *)
Definition load_page (a : Z) (data : list Z) (ph : Elf64_Phdr) (v : Z) : W bool :=
  p ← vm_page_op (pa_alloc 1);
  if p =? 0 then mret false
  else
    _ ← vmm_map_page a v p (seg_flags ph);
    h ← hhdm;
    copy_segment_page data ph v (p +64 h);;
    mret true.

(** [for (v = start; v < end; v += PAGE_SIZE)] *)
Fixpoint load_pages (fuel : nat) (a : Z) (data : list Z) (ph : Elf64_Phdr) (v end_ : Z) : W bool :=
  match fuel with
  | O => undefined
  | S fuel =>
    if v <? end_ then
      ok ← load_page a data ph v;
      if (ok : bool) then load_pages fuel a data ph (v +64 PAGE_SIZE) end_ else mret false
    else mret true
  end.

Definition load_segment (a : Z) (data : list Z) (ph : Elf64_Phdr) : W bool :=
  let start := page_align_down (p_vaddr ph) in
  let end_ := page_align_up (p_vaddr ph +64 p_memsz ph) in
  load_pages (S (Z.to_nat ((end_ - start) / PAGE_SIZE))) a data ph start end_.

(** The loop over the program headers, [n] of them from offset [ph]. *)
Fixpoint load_segments (n : nat) (a : Z) (data : list Z) (ph : Z) : W bool :=
  match n with
  | O => mret true
  | S n =>
    t ← deref (phdr_type data ph);
    if negb (t =? PT_LOAD) then load_segments n a data (ph + sizeof_Elf64_Phdr)
    else
      p ← deref (phdr_read data ph);
      ok ← load_segment a data p;
      if (ok : bool) then load_segments n a data (ph + sizeof_Elf64_Phdr) else mret false
  end.

(** The four bytes of the magic number, compared in order. *)
Definition bad_magic (data : list Z) : W bool :=
  b0 ← deref (e_ident data 0);
  if negb (b0 =? 0x7F) then mret true else
  b1 ← deref (e_ident data 1);
  if negb (b1 =? 0x45) then mret true else
  b2 ← deref (e_ident data 2);
  if negb (b2 =? 0x4C) then mret true else
  b3 ← deref (e_ident data 3);
  mret (negb (b3 =? 0x46)).

Definition elf_load (a : Z) (data : list Z) : W Z :=
  bad ← bad_magic data;
  if (bad : bool) then mret 0
  else
    m ← deref (e_machine data);
    if negb (m =? 0x3E) then mret 0
    else
      phoff ← deref (e_phoff data);
      phnum ← deref (e_phnum data);
      ok ← load_segments (Z.to_nat phnum) a data phoff;
      if (ok : bool) then deref (e_entry data) else mret 0.
End elf.
