(* ===== verification/ElfLoad.v ===== *)
(** * What the loader leaves in memory

    A page of a segment is loaded when its virtual page is translated to a frame
    that holds the file's bytes; loading further pages keeps it so. *)

From S2P Require Import Prelude Bytes Pmm PmmBlocks PmmInit PageAlloc PmmTheorems KernelHeap Vmm VmmInv VmmMap VmmCopy VmmTheorems Elf.
Open Scope Z_scope.

(** A segment inside the image and the user half of the address space. *)
Record seg_ok (data : list Z) (ph : Elf64_Phdr) : Prop := {
  so_vaddr : 0 ≤ p_vaddr ph;
  so_size : 0 ≤ p_filesz ph ≤ p_memsz ph;
  so_end : p_vaddr ph + p_memsz ph ≤ 2 ^ 47;
  so_offset : 0 ≤ p_offset ph;
  so_file : p_offset ph + p_filesz ph ≤ Z.of_nat (length data)
}.

(** The protection of a segment loses its no-execute bit. *)
Lemma seg_flags_spec ph :
  seg_flags ph = if has_flag (p_flags ph) PF_W then Z.lor PAGE_USER PAGE_WRITE else PAGE_USER.
Proof. unfold seg_flags. by destruct (has_flag (p_flags ph) PF_W), (has_flag (p_flags ph) PF_X). Qed.

Lemma seg_flags_bound ph : 0 ≤ seg_flags ph < 2 ^ 32.
Proof. rewrite seg_flags_spec. by destruct (has_flag _ _). Qed.

Lemma image_bytes_ok data off n : 0 ≤ off → 0 ≤ n → off + n ≤ Z.of_nat (length data) →
  image_bytes data off n = Some (take (Z.to_nat n) (drop (Z.to_nat off) data)).
Proof.
  intros H1 H2 H3. unfold image_bytes. by rewrite (proj2 (Z.leb_le 0 off)), (proj2 (Z.leb_le 0 n)), (proj2 (Z.leb_le _ _) H3) by done.
Qed.

Section load.
Context {H PA : Type} `{!KernelHeap H} `{!PageAllocator PA}.
Implicit Types s : vmm H PA.
Abbreviation offs s := (pa_hhdm (vm_pages s)).
Abbreviation tab s := (table (vm_mem s) (pa_hhdm (vm_pages s))).

(** The file bytes of the page at [v] are in the frame at [base]. *)
Definition page_bytes (data : list Z) (ph : Elf64_Phdr) (mem : Z → Z) (v base : Z) : Prop :=
  ∀ x, v ≤ x < v + PAGE_SIZE → p_vaddr ph ≤ x < p_vaddr ph + p_filesz ph →
    data !! Z.to_nat (p_offset ph + (x - p_vaddr ph)) = Some (mem (base + (x - v))).

(** The page at [v] is mapped to a frame of its own that holds its bytes. *)
Definition page_loaded (root : Z) (data : list Z) (ph : Elf64_Phdr) s (F : gset Z) (v : Z) : Prop :=
  ∃ q, (q ∉ F) ∧ ¬ is_table s root q ∧ pte s root v = Some (leaf_entry (q * PAGE_SIZE) (seg_flags ph)) ∧
    page_bytes data ph (vm_mem s) v (frame s q).

Lemma page_loaded_kept root data ph s F s' F' v :
  page_loaded root data ph s F v → kept root s F s' F' → pte s' root v = pte s root v → page_loaded root data ph s' F' v.
Proof.
  intros (q & Hq & Ht & Hp & Hb) K E. exists q. split_and!.
  - intros Hq'. by apply Hq, (kp_sub _ _ _ _ _ K).
  - by intros [?|?]%(kp_new _ _ _ _ _ K).
  - by rewrite E.
  - intros x Hx Hf. rewrite (Hb x Hx Hf). f_equal. unfold frame. rewrite (kp_hhdm _ _ _ _ _ K).
    symmetry. apply (kp_mem _ _ _ _ _ K q); [done|done|]. unfold in_frame, frame. lia.
Qed.

(** Writing a frame that was free before. *)
Lemma kept_page_write root s F s1 F1 A1 q mem :
  kept root s F s1 F1 → as_inv s1 F1 A1 root → q ∈ F → ¬ is_table s1 root q →
  (∀ x, ¬ in_frame s1 q x → mem x = vm_mem s1 x) → kept root s F (set_vm_mem mem s1) F1.
Proof.
  intros K Hi Hq Hnt Hout. destruct K as [K1 K2 K3 K4 K5 K6]. split; [exact K1|exact K2|exact K3| | |].
  - intros p c Hp Hc. rewrite (page_write_tab s1 F1 A1 root q mem) by done. by apply K4.
  - intros q' (p & Hp & Hc). rewrite (page_write_tab s1 F1 A1 root q mem) in Hc by done. apply K5. by exists p.
  - intros q' x Hq' Hnt' Hx. cbn [vm_mem set_vm_mem]. rewrite Hout; [by apply (K6 q')|].
    unfold in_frame, frame in *. rewrite K2. assert (q ≠ q') by congruence. unfold PAGE_SIZE in *. lia.
Qed.

Lemma is_table_pages s pa root q : pa_hhdm pa = offs s → is_table (set_vm_pages pa s) root q → is_table s root q.
Proof.
  intros Hh (p & Hp & Ht). exists p. split; [done|]. unfold frame in *. cbn [vm_mem vm_pages set_vm_pages] in Ht. by rewrite Hh in Ht.
Qed.

(** The copy: the bytes arrive, and only the frame is written. *)
Lemma copy_segment_page_wp data ph v base s (R : () → vmm H PA → Prop) :
  seg_ok data ph → 0 ≤ v → v + PAGE_SIZE ≤ 2 ^ 48 → 0 ≤ base → base + PAGE_SIZE ≤ 2 ^ 64 →
  (∀ mem, page_bytes data ph mem v base → (∀ x, ¬ base ≤ x < base + PAGE_SIZE → mem x = vm_mem s x) → R () (set_vm_mem mem s)) →
  wp (copy_segment_page data ph v base) R s.
Proof.
  intros [Hv0 [Hf0 Hfm] Hend Ho0 Hfile] Hv Hve Hb0 Hbe HR. unfold copy_segment_page. unfold PAGE_SIZE in *.
  rewrite (wrap_small 64 (p_vaddr ph + p_filesz ph)), (wrap_small 64 (v + 4096)) by lia.
  destruct (_ || _) eqn:Eout.
  { apply wp_ret. rewrite <-(set_vm_mem_id s). apply HR; [|done]. apply orb_prop in Eout.
    intros x Hx Hf. unfold PAGE_SIZE in *. destruct Eout as [?%Z.leb_le|?%Z.leb_le]; lia. }
  bool_props. set (cs := if v <? p_vaddr ph then p_vaddr ph else v).
  set (ce := if p_vaddr ph + p_filesz ph <? v + 4096 then p_vaddr ph + p_filesz ph else v + 4096).
  assert (Hcs : cs = Z.max v (p_vaddr ph)) by (subst cs; destruct (Z.ltb_spec v (p_vaddr ph)); lia).
  assert (Hce : ce = Z.min (v + 4096) (p_vaddr ph + p_filesz ph)) by (subst ce; destruct (Z.ltb_spec (p_vaddr ph + p_filesz ph) (v + 4096)); lia).
  rewrite (wrap_small 64 (cs - p_vaddr ph)), (wrap_small 64 (cs - v)), (wrap_small 64 (ce - cs)), (wrap_small 64 (base + (cs - v))) by lia.
  apply wp_bind. eapply wp_deref; [apply image_bytes_ok; lia|]. apply wp_modify.
  assert (Hlen : Z.of_nat (length (take (Z.to_nat (ce - cs)) (drop (Z.to_nat (p_offset ph + (cs - p_vaddr ph))) data))) = ce - cs)
    by (rewrite length_take, length_drop; lia).
  apply HR.
  - intros x Hx Hf. unfold PAGE_SIZE in Hx. rewrite mem_write_lookup, Hlen, decide_True by lia.
    replace (Z.to_nat (base + (x - v) - (base + (cs - v)))) with (Z.to_nat (x - cs)) by lia.
    rewrite list_lookup_total_alt, lookup_take_lt, lookup_drop by lia.
    replace (Z.to_nat (p_offset ph + (cs - p_vaddr ph)) + Z.to_nat (x - cs))%nat with (Z.to_nat (p_offset ph + (x - p_vaddr ph))) by lia.
    destruct (lookup_lt_is_Some_2 data (Z.to_nat (p_offset ph + (x - p_vaddr ph)))) as [b Hb]; [lia|]. by rewrite Hb.
  - intros x Hx. unfold PAGE_SIZE in Hx. rewrite mem_write_lookup, Hlen, decide_False by lia. done.
Qed.

Lemma vpage_page_number k : 0 ≤ k < 2 ^ 36 → vpage (k * PAGE_SIZE) = k.
Proof.
  intros Hk. unfold vpage. change PAGE_SIZE with (2 ^ 12). rewrite Z.shiftr_div_pow2, Z.div_mul, Z.land_ones by done.
  by apply Z.mod_small.
Qed.

(** The page is loaded, or its mapping failed and was left as it was. *)
Definition page_outcome (root : Z) (data : list Z) (ph : Elf64_Phdr) s s' (F' : gset Z) (k : Z) : Prop :=
  page_loaded root data ph s' F' (k * PAGE_SIZE) ∨ pte s' root (k * PAGE_SIZE) = pte s root (k * PAGE_SIZE).

Section one.
Context (a root : Z) (data : list Z) (ph : Elf64_Phdr) (Hseg : seg_ok data ph).

Lemma load_page_wp x k s F A :
  vm_spaces s !! a = Some x → as_pml4 x = root → as_inv s F A root → 0 ≤ k < 2 ^ 36 →
  wp (load_page a data ph (k * PAGE_SIZE)) (λ ok s', ∃ F' A', as_inv s' F' A' root ∧ kept root s F s' F' ∧
    (∀ w, vpage w ≠ k → pte s' root w = pte s root w) ∧ (ok = true → page_outcome root data ph s s' F' k)) s.
Proof.
  intros Ha Hx Hi Hk. unfold load_page. apply wp_bind, (alloc_page_wp _ F A); [apply Hi| |].
  { intros pa F' A' Hpa HF Hh. simpl (0 =? 0). wp_run. exists F', A'. split_and!; [by eapply as_inv_pages|by apply ext_pages| |done].
    intros w _. by eapply ext_pte, ext_pages. }
  intros pa q Hq Hq0 Hpa Hh. destruct (Z.eqb_spec (q * PAGE_SIZE) 0) as [E|_]; [unfold PAGE_SIZE in E; lia|].
  set (s1 := set_vm_pages pa s). set (F1 := F ∖ {[q]}).
  assert (Hi1 : as_inv s1 F1 ((q, 0%nat) :: A) root) by (apply (as_inv_pages s F A); [done|done|set_solver|done]).
  assert (K1 : ext root s F s1 F1) by (apply ext_pages; [set_solver|done]).
  assert (Hnt1 : ¬ is_table s1 root q) by (intros Ht; by eapply free_not_table; [exact Hi|exact Hq|eapply is_table_pages]).
  destruct (ai_free _ _ _ _ Hi q Hq) as [Hqr Hqh]. pose proof (ai_hhdm _ _ _ _ Hi) as H0.
  apply wp_bind. unfold vmm_map_page, read_space. apply wp_bind, wp_bind, wp_get. eapply wp_deref; [exact Ha|]. rewrite Hx.
  eapply wp_mono; [apply (map_page_wp s1 F1 ((q, 0%nat) :: A) root); [done|apply seg_flags_bound]|].
  intros ok s2 (F2 & A2 & Hi2 & K2 & Hp2).
  assert (Hh2 : offs s2 = offs s) by (rewrite (kp_hhdm _ _ _ _ _ K2); exact Hh).
  assert (HqF1 : q ∉ F1) by set_solver.
  assert (Hnt2 : ¬ is_table s2 root q) by (by intros [?|?]%(kp_new _ _ _ _ _ K2)).
  unfold hhdm. apply wp_bind, wp_gets. cbn beta. rewrite Hh2.
  assert (Eb : q * PAGE_SIZE +64 offs s = frame s2 q) by (unfold frame; rewrite Hh2, wrap_small; unfold PAGE_SIZE in *; lia).
  rewrite Eb. apply wp_bind, copy_segment_page_wp; [done|unfold PAGE_SIZE; lia|unfold PAGE_SIZE; lia| | |];
    [unfold frame, PAGE_SIZE in *; rewrite Hh2; lia..|].
  intros mem Hbytes Hout. apply wp_ret. exists F2, A2.
  assert (Hpt : ∀ w, pte (set_vm_mem mem s2) root w = pte s2 root w) by (intros w; by apply (page_write_pte s2 F2 A2 root q)).
  split_and!.
  - by apply (page_write_inv s2 F2 A2 root q).
  - apply (kept_page_write root s F s2 F2 A2 q); [eapply kept_trans; [apply K1|done]|done|done|done|exact Hout].
  - intros w Hw. rewrite Hpt, Hp2, decide_False; [by eapply ext_pte|]. intros [_ E]. by rewrite vpage_page_number in E.
  - intros _. unfold page_outcome. rewrite Hpt, Hp2. destruct ok.
    + left. exists q. split_and!.
      * intros ?. by apply HqF1, (kp_sub _ _ _ _ _ K2).
      * intros (p & Hp & Ht). apply Hnt2. exists p. split; [done|]. by rewrite (page_write_tab s2 F2 A2 root q mem) in Ht.
      * rewrite Hpt, Hp2. by apply decide_True.
      * exact Hbytes.
    + right. rewrite decide_False by naive_solver. by eapply ext_pte.
Qed.

(** An outcome stays one while other pages are loaded. *)
Lemma page_outcome_later s s1 F1 s2 F2 k :
  page_outcome root data ph s s1 F1 k → kept root s1 F1 s2 F2 → pte s2 root (k * PAGE_SIZE) = pte s1 root (k * PAGE_SIZE) →
  page_outcome root data ph s s2 F2 k.
Proof.
  intros [Hl|He] K E; [left; by eapply page_loaded_kept|right; by rewrite E].
Qed.

Lemma page_outcome_earlier s0 s s' F' k :
  pte s root (k * PAGE_SIZE) = pte s0 root (k * PAGE_SIZE) → page_outcome root data ph s s' F' k → page_outcome root data ph s0 s' F' k.
Proof. intros E [Hl|He]; [by left|right; by rewrite He]. Qed.

(** The state after the pages [from <= k < stop] of the segment. *)
Definition pages_post (from stop : Z) s F ok s' : Prop := ∃ F' A', as_inv s' F' A' root ∧ kept root s F s' F' ∧
  (∀ w, ¬ from ≤ vpage w < stop → pte s' root w = pte s root w) ∧
  (ok = true → ∀ k, from ≤ k < stop → page_outcome root data ph s s' F' k).

Lemma load_pages_wp x stop fuel : ∀ k s F A,
  vm_spaces s !! a = Some x → as_pml4 x = root → as_inv s F A root →
  0 ≤ k → stop ≤ 2 ^ 36 → (Z.to_nat (stop - k) < fuel)%nat →
  wp (load_pages fuel a data ph (k * PAGE_SIZE) (stop * PAGE_SIZE)) (pages_post k stop s F) s.
Proof.
  induction fuel as [|fuel IH]; intros k s F A Ha Hx Hi Hk Hs Hf; [lia|]. cbn [load_pages].
  destruct (Z.ltb_spec (k * PAGE_SIZE) (stop * PAGE_SIZE)) as [Hlt|Hge].
  2: { wp_run. exists F, A. split_and!; [done|by apply kept_refl|done|]. intros _ j Hj. unfold PAGE_SIZE in *. lia. }
  assert (Hks : k < stop) by (unfold PAGE_SIZE in *; lia).
  apply wp_bind. eapply wp_mono; [apply (load_page_wp x k s F A); [done|done|done|lia]|].
  intros [] s1 (F1 & A1 & Hi1 & K1 & Hp1 & Ho1).
  2: { wp_run. exists F1, A1. split_and!; [done|done| |done]. intros w Hw. apply Hp1. lia. }
  replace (k * PAGE_SIZE +64 PAGE_SIZE) with ((k + 1) * PAGE_SIZE) by (rewrite wrap_small; unfold PAGE_SIZE in *; lia).
  destruct (kp_rest _ _ _ _ _ K1) as (_ & Hsp & _).
  eapply wp_mono; [apply (IH (k + 1) s1 F1 A1); [by rewrite Hsp|done|done|lia|done|lia]|].
  intros ok s2 (F2 & A2 & Hi2 & K2 & Hp2 & Ho2). exists F2, A2. split_and!.
  - done.
  - by eapply kept_trans.
  - intros w Hw. rewrite Hp2, Hp1 by lia. done.
  - intros Hok j Hj. destruct (decide (j = k)) as [->|Hne].
    + eapply page_outcome_later; [by apply Ho1|done|]. apply Hp2. rewrite vpage_page_number by lia. lia.
    + eapply page_outcome_earlier; [|apply Ho2; [done|lia]]. apply Hp1. rewrite vpage_page_number by lia. done.
Qed.

(** The page numbers of a segment. *)
Definition seg_first : Z := p_vaddr ph / PAGE_SIZE.
Definition seg_stop : Z := (p_vaddr ph + p_memsz ph + PAGE_MASK) / PAGE_SIZE.

Lemma page_align_down_mul v : 0 ≤ v < 2 ^ 64 → page_align_down v = v / PAGE_SIZE * PAGE_SIZE.
Proof. intros Hv. rewrite page_align_down_spec by done. rewrite (Z.div_mod v PAGE_SIZE) at 1 by done. lia. Qed.

Lemma load_segment_wp x s F A :
  vm_spaces s !! a = Some x → as_pml4 x = root → as_inv s F A root →
  wp (load_segment a data ph) (pages_post seg_first seg_stop s F) s.
Proof.
  intros Ha Hx Hi. destruct Hseg as [H1 H2 H3 _ _]. unfold load_segment.
  assert (HM : PAGE_MASK = 4095) by done. rewrite (wrap_small 64 (p_vaddr ph + p_memsz ph)) by lia.
  rewrite page_align_up_spec, !page_align_down_mul by lia. fold seg_first seg_stop.
  assert (0 ≤ seg_first) by (apply Z.div_pos; [lia|done]).
  assert (seg_stop ≤ 2 ^ 36) by (unfold seg_stop, PAGE_SIZE; apply Z.div_le_upper_bound; lia).
  apply (load_pages_wp x) with (A := A); [done|done|done|done|done|].
  rewrite <-Z.mul_sub_distr_r, Z.div_mul by done. lia.
Qed.
End one.

(** ** All segments *)

(** The segments to load among [n] program headers from offset [ph]. *)
Fixpoint load_phdrs (n : nat) (data : list Z) (ph : Z) : option (list Elf64_Phdr) :=
  match n with
  | O => Some []
  | S n =>
    t ← phdr_type data ph;
    if negb (t =? PT_LOAD) then load_phdrs n data (ph + sizeof_Elf64_Phdr)
    else p ← phdr_read data ph; ps ← load_phdrs n data (ph + sizeof_Elf64_Phdr); Some (p :: ps)
  end.

Definition in_segment (ph : Elf64_Phdr) (k : Z) : Prop := seg_first ph ≤ k < seg_stop ph.

(** No page belongs to two segments. *)
Fixpoint segments_apart (segs : list Elf64_Phdr) : Prop :=
  match segs with
  | [] => True
  | p :: ps => Forall (λ p', ∀ k, in_segment p k → ¬ in_segment p' k) ps ∧ segments_apart ps
  end.

Definition segments_post (root : Z) (data : list Z) (segs : list Elf64_Phdr) s (F : gset Z) (ok : bool) s' : Prop :=
  ∃ F' A', as_inv s' F' A' root ∧ kept root s F s' F' ∧
    (∀ w, Forall (λ p, ¬ in_segment p (vpage w)) segs → pte s' root w = pte s root w) ∧
    (ok = true → ∀ p k, p ∈ segs → in_segment p k → page_outcome root data p s s' F' k).

Lemma seg_bounds data p k : seg_ok data p → in_segment p k → 0 ≤ k < 2 ^ 36.
Proof.
  intros [H1 H2 H3 _ _] [Hk1 Hk2]. assert (HM : PAGE_MASK = 4095) by done.
  assert (0 ≤ seg_first p) by (apply Z.div_pos; [lia|done]).
  assert (seg_stop p ≤ 2 ^ 36) by (unfold seg_stop, PAGE_SIZE; apply Z.div_le_upper_bound; lia). lia.
Qed.

Lemma load_segments_wp a x root data n : ∀ ph segs s F A,
  load_phdrs n data ph = Some segs → Forall (seg_ok data) segs → segments_apart segs →
  vm_spaces s !! a = Some x → as_pml4 x = root → as_inv s F A root →
  wp (load_segments n a data ph) (segments_post root data segs s F) s.
Proof.
  induction n as [|n IH]; intros ph segs s F A Hl Hok Hap Ha Hx Hi; cbn [load_phdrs load_segments] in *.
  { injection Hl as <-. wp_run. exists F, A. split_and!; [done|by apply kept_refl|done|]. intros _ p k []%not_elem_of_nil. }
  destruct (phdr_type data ph) as [t|]; [|done]. cbn [mbind option_bind] in Hl. apply wp_bind. eapply wp_deref; [done|].
  destruct (t =? PT_LOAD) eqn:Et; cbn [negb] in *; [|by apply (IH _ _ _ _ A)].
  destruct (phdr_read data ph) as [p|]; [|done]. destruct (load_phdrs n data _) as [ps|] eqn:El; [|done].
  cbn [mbind option_bind] in Hl. injection Hl as <-. apply Forall_cons in Hok as [Hp Hok]. destruct Hap as [Hap1 Hap].
  apply wp_bind. eapply wp_deref; [done|]. apply wp_bind.
  eapply wp_mono; [by apply (load_segment_wp a root data p Hp x s F A)|].
  intros [] s1 (F1 & A1 & Hi1 & K1 & Hp1 & Ho1).
  2: { wp_run. exists F1, A1. split_and!; [done|done| |done]. intros w [Hw _]%Forall_cons. apply Hp1. exact Hw. }
  destruct (kp_rest _ _ _ _ _ K1) as (_ & Hsp & _).
  eapply wp_mono; [apply (IH _ ps s1 F1 A1); [done|done|done|by rewrite Hsp|done|done]|].
  intros ok s2 (F2 & A2 & Hi2 & K2 & Hp2 & Ho2). exists F2, A2. split_and!.
  - done.
  - by eapply kept_trans.
  - intros w [Hw Hws]%Forall_cons. rewrite Hp2 by done. by apply Hp1.
  - intros Hr p' k [->|Hin]%elem_of_cons Hk.
    + pose proof (seg_bounds _ _ _ Hp Hk). eapply page_outcome_later; [by apply Ho1|done|]. apply Hp2.
      rewrite vpage_page_number by done. apply (Forall_impl _ _ _ Hap1). intros p' Hd. by apply Hd.
    + rewrite Forall_forall in Hok, Hap1. pose proof (seg_bounds _ _ _ (Hok p' Hin) Hk).
      eapply page_outcome_earlier; [|by apply Ho2]. apply Hp1. rewrite vpage_page_number by done. intros Hk'. by eapply Hap1.
Qed.
End load.

(** * Properties of the program loader *)

(** An image for this machine, with entry address [entry] and loadable segments
    [segs] that lie in the image and in user space and share no page. *)
Record image_ok (data : list Z) (entry : Z) (segs : list Elf64_Phdr) : Prop := {
  io_magic : e_ident data 0 = Some 0x7F ∧ e_ident data 1 = Some 0x45 ∧ e_ident data 2 = Some 0x4C ∧ e_ident data 3 = Some 0x46;
  io_machine : e_machine data = Some 0x3E;
  io_phdrs : ∃ off n, e_phoff data = Some off ∧ e_phnum data = Some n ∧ load_phdrs (Z.to_nat n) data off = Some segs;
  io_entry : e_entry data = Some entry;
  io_segs : Forall (seg_ok data) segs;
  io_apart : segments_apart segs
}.

Section elf.
Context {H PA : Type} `{!KernelHeap H} `{!PageAllocator PA}.
Implicit Types s : vmm H PA.

Lemma bad_magic_ok data s : e_ident data 0 = Some 0x7F → e_ident data 1 = Some 0x45 → e_ident data 2 = Some 0x4C →
  e_ident data 3 = Some 0x46 → bad_magic data s = Ok (false, s).
Proof. intros E0 E1 E2 E3. unfold bad_magic. rewrite E0. cbn. rewrite E1. cbn. rewrite E2. cbn. by rewrite E3. Qed.


(** The protection of a loaded page never has the no-execute bit, whatever the
    segment's flags: [PAGE_NX] is bit 63 and [flags] has 32. *)
Lemma seg_flags_no_nx ph : has_flag (seg_flags ph) PAGE_NX = false.
Proof. rewrite seg_flags_spec. by destruct (has_flag (p_flags ph) PF_W). Qed.
End elf.

(** ** An image *)

(** One segment of four bytes, executable, at 0x400000, in 16 bytes of memory. *)
Definition small_image : list Z :=
  [0x7F; 0x45; 0x4C; 0x46] ++ replicate 12 0 ++ le_bytes 2 2 ++ le_bytes 2 0x3E ++ le_bytes 4 1 ++ le_bytes 8 0x400000 ++
  le_bytes 8 64 ++ replicate 16 0 ++ le_bytes 2 1 ++ replicate 6 0 ++
  le_bytes 4 1 ++ le_bytes 4 5 ++ le_bytes 8 120 ++ le_bytes 8 0x400000 ++ replicate 8 0 ++ le_bytes 8 4 ++ le_bytes 8 16 ++ replicate 8 0 ++
  [0x90; 0x90; 0xF4; 0xC3].
Definition small_segment : Elf64_Phdr := mkPhdr 1 5 120 0x400000 4 16.

Lemma small_image_ok : image_ok small_image 0x400000 [small_segment].
Proof.
  split.
  - repeat split.
  - reflexivity.
  - by exists 64, 1.
  - reflexivity.
  - constructor; [|constructor]. by split.
  - repeat constructor.
Qed.

