(* ===== verification/Process.v ===== *)
(** * Processes

    Model of src/kernel/process.cpp.  The process objects [kmalloc] returned are
    [ps_objs]; [raw] stands for what fresh heap memory holds, since neither
    constructor initialises every field. *)

From S2P Require Import Prelude Bytes Pmm PmmBlocks PageAlloc KernelHeap Thread Vmm.
Open Scope Z_scope.

Inductive ProcessState := ALIVE | ZOMBIE | TERMINATED.

Record Process := mkProcess {
  p_pid : Z;
  p_ppid : Z;
  p_state : ProcessState;
  p_addr_space : option Z;
  p_main_thread : option nat;
  p_uid : Z; p_gid : Z;
  p_euid : Z; p_egid : Z;
  p_cpu_time_ns : Z;
  p_fork_frame : list Z;
  p_next : option Z
}.

(** Four words, two pointers, four identities, the time, the 22 words of the
    interrupt frame and the link. *)
Definition sizeof_Process : Z := 240.

Definition set_p_next (v : option Z) (r : Process) : Process :=
  mkProcess (p_pid r) (p_ppid r) (p_state r) (p_addr_space r) (p_main_thread r) (p_uid r) (p_gid r) (p_euid r) (p_egid r)
    (p_cpu_time_ns r) (p_fork_frame r) v.
Definition set_ids (u g eu eg : Z) (r : Process) : Process :=
  mkProcess (p_pid r) (p_ppid r) (p_state r) (p_addr_space r) (p_main_thread r) u g eu eg (p_cpu_time_ns r) (p_fork_frame r) (p_next r).

(** The fields both constructors assign. *)
Definition init_process (pid ppid : Z) (addr_space : option Z) (r : Process) : Process :=
  mkProcess pid ppid ALIVE addr_space None (p_uid r) (p_gid r) (p_euid r) (p_egid r) (p_cpu_time_ns r) (p_fork_frame r) (p_next r).

Record procs (H PA : Type) := mkProcs {
  ps_vm : vmm H PA;
  ps_objs : gmap Z Process;
  kNextPid : Z;
  kProcessList : option Z;
  kProcessCount : Z
}.
Arguments mkProcs {H PA}.
Arguments ps_vm {H PA} _.
Arguments ps_objs {H PA} _.
Arguments kNextPid {H PA} _.
Arguments kProcessList {H PA} _.
Arguments kProcessCount {H PA} _.

Definition set_ps_vm {H PA} (v : vmm H PA) (r : procs H PA) : procs H PA :=
  mkProcs v (ps_objs r) (kNextPid r) (kProcessList r) (kProcessCount r).
Definition set_ps_objs {H PA} (v : gmap Z Process) (r : procs H PA) : procs H PA :=
  mkProcs (ps_vm r) v (kNextPid r) (kProcessList r) (kProcessCount r).
Definition set_kNextPid {H PA} (v : Z) (r : procs H PA) : procs H PA :=
  mkProcs (ps_vm r) (ps_objs r) v (kProcessList r) (kProcessCount r).
Definition set_kProcessList {H PA} (v : option Z) (r : procs H PA) : procs H PA :=
  mkProcs (ps_vm r) (ps_objs r) (kNextPid r) v (kProcessCount r).
Definition set_kProcessCount {H PA} (v : Z) (r : procs H PA) : procs H PA :=
  mkProcs (ps_vm r) (ps_objs r) (kNextPid r) (kProcessList r) v.

Section process.
Context {H PA : Type} `{!KernelHeap H} `{!PageAllocator PA}.
Abbreviation W := (M (procs H PA)).

Definition ps_op {A} (op : M (vmm H PA) A) : W A := λ s,
  match op (ps_vm s) with
  | Ok (a, v) => Ok (a, set_ps_vm v s)
  | Panic msg => Panic msg
  | UB => UB
  end.

Definition read_proc (p : Z) : W Process := s ← get; deref (ps_objs s !! p).
Definition write_proc (p : Z) (f : Process → Process) : W () :=
  r ← read_proc p; modify (λ s, set_ps_objs (<[p := f r]> (ps_objs s)) s).

(** The process of the running thread; [current] is [sched::thread_current()]. *)
Definition proc_current (current : option ThreadControlBlock) : option Z :=
  match current with None => None | Some cur => t_process cur end.

Fixpoint find_loop (fuel : nat) (p : option Z) (pid : Z) : W (option Z) :=
  match p with
  | None => mret None
  | Some a =>
    match fuel with
    | O => undefined
    | S fuel =>
      r ← read_proc a;
      if p_pid r =? pid then mret (Some a) else find_loop fuel (p_next r) pid
    end
  end.

(** The loop visits each object once at most. *)
Definition proc_find (pid : Z) : W (option Z) :=
  s ← get; find_loop (size (ps_objs s)) (kProcessList s) pid.

Definition proc_add (p : Z) : W () :=
  s ← get;
  write_proc p (set_p_next (kProcessList s));;
  modify (set_kProcessList (Some p));;
  modify (λ s, set_kProcessCount (u32 (kProcessCount s + 1)) s).

(** [*pp = v], where [pp] points to the list head or to a [next] field. *)
Definition set_link (pp : option Z) (v : option Z) : W () :=
  match pp with
  | None => modify (set_kProcessList v)
  | Some q => write_proc q (set_p_next v)
  end.
Definition get_link (pp : option Z) : W (option Z) :=
  match pp with
  | None => gets kProcessList
  | Some q => r ← read_proc q; mret (p_next r)
  end.

Fixpoint remove_loop (fuel : nat) (pp : option Z) (p : Z) : W () :=
  c ← get_link pp;
  match c with
  | None => mret ()
  | Some a =>
    if a =? p then
      r ← read_proc p;
      set_link pp (p_next r);;
      modify (λ s, set_kProcessCount (u32 (kProcessCount s - 1)) s)
    else
      match fuel with
      | O => undefined
      | S fuel => remove_loop fuel (Some a) p
      end
  end.
Definition proc_remove (p : Z) : W () := s ← get; remove_loop (size (ps_objs s)) None p.

(** [kmalloc(sizeof(Process))]: the object holds [raw]. *)
Definition new_process (raw : Process) : W (option Z) :=
  p ← ps_op (vm_heap_op (kmalloc sizeof_Process));
  if p =? 0 then mret None
  else modify (λ s, set_ps_objs (<[p := raw]> (ps_objs s)) s);; mret (Some p).

Definition free_process (p : Z) : W () :=
  ps_op (vm_heap_op (kfree p));;
  modify (λ s, set_ps_objs (delete p (ps_objs s)) s).

Definition next_pid : W Z :=
  s ← get; modify (set_kNextPid (u32 (kNextPid s + 1)));; mret (kNextPid s).

Definition proc_create (raw : Process) : W (option Z) :=
  p ← new_process raw;
  match p with
  | None => mret None
  | Some p =>
    pid ← next_pid;
    a ← ps_op vmm_create_address_space;
    write_proc p (init_process pid 0 a);;
    match a with
    | None => free_process p;; mret None
    | Some _ => proc_add p;; mret (Some p)
    end
  end.

Definition proc_create_from_parent (raw : Process) (parent : Z) : W (option Z) :=
  c ← new_process raw;
  match c with
  | None => mret None
  | Some c =>
    pid ← next_pid;
    pr ← read_proc parent;
    a ← match p_addr_space pr with Some src => ps_op (vmm_clone_address_space src) | None => undefined end;
    write_proc c (init_process pid (p_pid pr) a);;
    match a with
    | None => free_process c;; mret None
    | Some _ =>
      write_proc c (set_ids (p_uid pr) (p_gid pr) (p_euid pr) (p_egid pr));;
      proc_add c;; mret (Some c)
    end
  end.

Definition proc_destroy (p : Z) : W () :=
  proc_remove p;;
  r ← read_proc p;
  match p_addr_space r with
  | Some a => ps_op (vmm_destroy_address_space a)
  | None => mret ()
  end;;
  free_process p.
End process.
