(* ===== verification/ProcInv.v ===== *)
(** * The process list and its invariant *)

From S2P Require Import Prelude LinkedList Bytes Pmm PmmBlocks PageAlloc KernelHeap Vmm VmmInv Process.
Open Scope Z_scope.

Definition pnext (m : gmap Z Process) (a : Z) : option Z := m !! a ≫= p_next.
Definition pid_of (m : gmap Z Process) (a : Z) : option Z := p_pid <$> m !! a.

Section vm.
Context {H PA : Type} `{!KernelHeap H} `{!PageAllocator PA}.
Implicit Types v : vmm H PA.

(** ** What making an address space leaves *)

(** Address spaces are only added, in objects that were not live. *)
Record as_made v (L : gset Z) (r : option Z) v' (L' : gset Z) : Prop := {
  am_heap : kh_inv (vm_heap v') L';
  am_pages : ∃ F' A', pa_inv (vm_pages v') F' A';
  am_live : L ⊆ L';
  am_spaces : ∀ a, is_Some (vm_spaces v !! a) → is_Some (vm_spaces v' !! a);
  am_new : ∀ a, is_Some (vm_spaces v' !! a) → is_Some (vm_spaces v !! a) ∨ (a ∈ L' ∧ (a ∉ L));
  am_res : ∀ p, r = Some p → is_Some (vm_spaces v' !! p)
}.

(** Steps that change only memory and the page allocator. *)
Definition mem_step v v' : Prop :=
  vm_heap v' = vm_heap v ∧ vm_spaces v' = vm_spaces v ∧
  ((∃ F A, pa_inv (vm_pages v) F A) → ∃ F A, pa_inv (vm_pages v') F A).

Lemma mem_step_refl v : mem_step v v.
Proof. done. Qed.
Lemma mem_step_trans v1 v2 v3 : mem_step v1 v2 → mem_step v2 v3 → mem_step v1 v3.
Proof. intros (A1 & A2 & A3) (B1 & B2 & B3). split_and!; [congruence|congruence|auto]. Qed.
Lemma mem_step_write mem v : mem_step v (set_vm_mem mem v).
Proof. done. Qed.

Lemma alloc_step v (R : Z → vmm H PA → Prop) : (∃ F A, pa_inv (vm_pages v) F A) →
  (∀ r v', mem_step v v' → (∃ F A, pa_inv (vm_pages v') F A) → R r v') → wp (vm_page_op (pa_alloc 1)) R v.
Proof.
  intros (F & A & Hi) HR. apply (alloc_page_wp v F A _ Hi).
  - intros pa F' A' Hpa _ _. apply HR; [split_and!; try done; by exists F', A'|by exists F', A'].
  - intros pa q _ _ Hpa _. apply HR; [split_and!; try done|]; by eexists _, _.
Qed.

Lemma copy_entries_step src dst n : ∀ i v, wp (copy_entries src dst i n) (λ _ v', mem_step v v') v.
Proof.
  induction n as [|n IH]; intros i v; cbn [copy_entries]; [by apply wp_ret|]. unfold read_entry, write_entry. wp_run.
  eapply wp_mono; [apply IH|]. intros [] v' Hs. eapply mem_step_trans; [apply mem_step_write|exact Hs].
Qed.

Lemma zero_entries_step base n v : wp (zero_entries base n) (λ _ v', mem_step v v') v.
Proof. apply zero_entries_wp. intros mem _ _. apply mem_step_write. Qed.

Lemma vmm_create_wp v L : kh_inv (vm_heap v) L → (∃ F A, pa_inv (vm_pages v) F A) →
  wp vmm_create_address_space (λ r v', ∃ L', as_made v L r v' L') v.
Proof.
  intros Hh Hp. unfold vmm_create_address_space. apply wp_bind, alloc_step; [done|]. intros ph v1 S1 P1.
  assert (Hdone : ∀ v', mem_step v v' → ∃ L', as_made v L None v' L').
  { intros v' (E1 & E2 & E3). exists L. split; [by rewrite E1|auto|done|by rewrite E2|rewrite E2; auto|done]. }
  destruct (ph =? 0); [apply wp_ret; by apply Hdone|]. unfold hhdm, get_current_pml4. apply wp_bind, wp_gets. cbn beta.
  apply wp_bind. eapply wp_mono; [apply zero_entries_step|]. intros [] v2 S2.
  apply wp_bind, wp_bind, wp_get, wp_ret, wp_bind. eapply wp_mono; [apply copy_entries_step|]. intros [] v3 S3.
  assert (S : mem_step v v3) by eauto using mem_step_trans. destruct S as (E1 & E2 & E3).
  assert (Hh3 : kh_inv (vm_heap v3) L) by by rewrite E1.
  apply wp_bind. destruct (proj1 (wp_ok _ _ _) (kmalloc_spec _ _ sizeof_AddressSpace Hh3 ltac:(done))) as (p & h & Ek & Hk).
  eapply wp_eq; [unfold vm_heap_op; by rewrite Ek|]. destruct Hk as [[-> Hk]|(Hp0 & HpL & Hk)].
  - simpl (0 =? 0). apply wp_ret. exists L. split; [done|auto|done|cbn [vm_spaces set_vm_heap]; by rewrite E2| |done].
    cbn [vm_spaces set_vm_heap]. rewrite E2. auto.
  - destruct (Z.eqb_spec p 0) as [->|_]; [lia|]. wp_run. exists ({[p]} ∪ L). split; cbn [vm_heap vm_spaces vm_pages set_vm_heap set_vm_spaces].
    + done.
    + auto.
    + set_solver.
    + intros a Ha. rewrite E2. destruct (decide (a = p)) as [->|]; [by rewrite lookup_insert_eq|by rewrite lookup_insert_ne].
    + intros a. rewrite E2. destruct (decide (a = p)) as [->|]; [right; set_solver|rewrite lookup_insert_ne by done; by left].
    + intros p' [= <-]. by rewrite lookup_insert_eq.
Qed.

(** Copying the tables always returns. *)
Lemma copy_loop_step deeper src dst k is_ : ∀ v,
  (∀ f, deeper = Some f → ∀ a b v, (∃ F A, pa_inv (vm_pages v) F A) → wp (f a b) (λ _ v', mem_step v v') v) →
  (∃ F A, pa_inv (vm_pages v) F A) →
  wp (copy_level_loop deeper src dst k is_) (λ _ v', mem_step v v') v.
Proof.
  induction is_ as [|i is_ IH]; intros v Hd Hp; cbn [copy_level_loop]; [by apply wp_ret|].
  unfold hhdm, read_entry, write_entry. apply wp_bind, wp_gets, wp_bind, wp_gets. cbn beta.
  destruct (negb _); [by apply IH|]. destruct (_ || _).
  { wp_run. eapply wp_mono; [by apply IH|]. intros ok v' Hs. eapply mem_step_trans; [apply mem_step_write|exact Hs]. }
  destruct deeper as [copy|].
  - apply wp_bind, alloc_step; [done|]. intros ph v1 S1 P1. destruct (ph =? 0); [by apply wp_ret|].
    apply wp_bind. eapply wp_mono; [by eapply Hd|]. intros ok v2 S2. pose proof (proj2 (proj2 S2) P1) as P2.
    assert (S12 : mem_step v v2) by eauto using mem_step_trans. destruct (negb ok); [by apply wp_ret|].
    wp_run. eapply wp_mono; [apply IH; [done|exact P2]|]. intros ok' v' Hs.
    eapply mem_step_trans; [exact S12|]. eapply mem_step_trans; [apply mem_step_write|exact Hs].
  - wp_run. eapply wp_mono; [by apply IH|]. intros ok v' Hs. eapply mem_step_trans; [apply mem_step_write|exact Hs].
Qed.

Lemma copy_levels_step n : ∀ k src dst v, (∃ F A, pa_inv (vm_pages v) F A) →
  wp (copy_page_table_level n k src dst) (λ _ v', mem_step v v') v.
Proof.
  induction n as [|n IH]; intros k src dst v Hp; cbn [copy_page_table_level]; apply copy_loop_step; try done.
  intros f [= <-] a b v1 Hp1. by apply IH.
Qed.

Lemma vmm_clone_wp v L src : kh_inv (vm_heap v) L → (∃ F A, pa_inv (vm_pages v) F A) → is_Some (vm_spaces v !! src) →
  wp (vmm_clone_address_space src) (λ r v', ∃ L', as_made v L r v' L') v.
Proof.
  intros Hh Hp Hsrc. unfold vmm_clone_address_space. apply wp_bind. eapply wp_mono; [by eapply vmm_create_wp|].
  intros [d|] v1 (L1 & [A1 A2 A3 A4 A5 A6]); [|by apply wp_ret; exists L1].
  destruct (A4 _ Hsrc) as [x Hx], (A6 _ eq_refl) as [y Hy]. unfold read_space.
  apply wp_bind, wp_bind, wp_get. eapply wp_deref; [exact Hx|]. apply wp_bind, wp_bind, wp_get. eapply wp_deref; [exact Hy|].
  apply wp_bind. eapply wp_mono; [by apply copy_levels_step|]. intros ok v2 (E1 & E2 & E3).
  assert (Hm : ∀ r, (∀ p, r = Some p → p = d) → as_made v L r v2 L1).
  { intros r Hr. split; [by rewrite E1|auto|done|by rewrite E2|by rewrite E2|]. intros p ->%Hr. rewrite E2. by eexists. }
  destruct (negb ok); unfold vmm_destroy_address_space; wp_run; exists L1; apply Hm; naive_solver.
Qed.
End vm.

Section inv.
Context {H PA : Type} `{!KernelHeap H} `{!PageAllocator PA}.
Implicit Types s : procs H PA.
Abbreviation heap s := (vm_heap (ps_vm s)).
Abbreviation spaces s := (vm_spaces (ps_vm s)).

(** The process objects are exactly those on the list [l]; they and the address
    spaces are live, distinct heap objects; identifiers are distinct and below
    the next one. *)
Record procs_inv s (L : gset Z) (l : list Z) : Prop := {
  pv_heap : kh_inv (heap s) L;
  pv_pages : ∃ F A, pa_inv (vm_pages (ps_vm s)) F A;
  pv_chain : chain (pnext (ps_objs s)) (kProcessList s) l;
  pv_dom : ∀ a, is_Some (ps_objs s !! a) ↔ a ∈ l;
  pv_live : ∀ a, a ∈ l → a ∈ L ∧ spaces s !! a = None;
  pv_spaces : ∀ a, is_Some (spaces s !! a) → a ∈ L;
  pv_as : ∀ a r, ps_objs s !! a = Some r → ∃ x, p_addr_space r = Some x ∧ is_Some (spaces s !! x);
  pv_pids : ∀ a r, ps_objs s !! a = Some r → 0 < p_pid r < kNextPid s;
  pv_unique : ∀ a b r r', ps_objs s !! a = Some r → ps_objs s !! b = Some r' → p_pid r = p_pid r' → a = b;
  pv_next : 1 ≤ kNextPid s;
  pv_count : kProcessCount s = u32 (Z.of_nat (length l))
}.

(** The fuel of the list loops is enough. *)
Lemma procs_size s L l : procs_inv s L l → size (ps_objs s) = length l.
Proof.
  intros Hi. pose proof (chain_NoDup _ _ _ (pv_chain _ _ _ Hi)) as Hn.
  assert (E : dom (ps_objs s) = list_to_set l).
  { apply set_eq. intros a. rewrite elem_of_dom, elem_of_list_to_set. apply Hi. }
  rewrite <-size_dom, E. by apply size_list_to_set.
Qed.

(** ** Search *)

Lemma find_loop_wp s pid l : ∀ fuel h,
  (∀ a, a ∈ l → is_Some (ps_objs s !! a)) → chain (pnext (ps_objs s)) h l → (length l ≤ fuel)%nat →
  find_loop fuel h pid s = Ok (snd <$> list_find (λ a, pid_of (ps_objs s) a = Some pid) l, s).
Proof.
  induction l as [|a l IH]; intros fuel h Hin Hc Hf; simpl in Hc.
  { unfold chain in Hc. simpl in Hc. subst h. by destruct fuel. }
  destruct Hc as [-> Hc]. destruct fuel as [|fuel]; [simpl in Hf; lia|]. cbn [find_loop].
  destruct (Hin a) as [r Hr]; [by left|]. unfold read_proc, get, mbind, M_bind. rewrite Hr. cbn [deref mret M_ret].
  unfold pnext in Hc. rewrite Hr in Hc. cbn [mbind option_bind] in Hc.
  assert (Epid : pid_of (ps_objs s) a = Some (p_pid r)) by (unfold pid_of; by rewrite Hr). simpl (list_find _ _).
  destruct (Z.eqb_spec (p_pid r) pid) as [E|Hne].
  - by rewrite decide_True by (by rewrite Epid, E).
  - rewrite decide_False by (rewrite Epid; congruence). rewrite (IH fuel); [|intros b Hb; apply Hin; by right|done|simpl in Hf; lia].
    do 2 f_equal. by destruct (list_find _ l) as [[? ?]|].
Qed.

Lemma proc_find_eq s L l pid : procs_inv s L l →
  proc_find pid s = Ok (snd <$> list_find (λ a, pid_of (ps_objs s) a = Some pid) l, s).
Proof.
  intros Hi. unfold proc_find, get. unfold mbind at 1, M_bind. apply find_loop_wp.
  - intros a. apply Hi.
  - apply Hi.
  - by rewrite (procs_size _ _ _ Hi).
Qed.

(** ** Insertion *)

(** The state before [proc_add p]: [p] is a new object outside the list. *)
Record fresh_proc s0 (l : list Z) s (L : gset Z) (p : Z) (r : Process) : Prop := {
  fp_heap : kh_inv (heap s) L;
  fp_pages : ∃ F A, pa_inv (vm_pages (ps_vm s)) F A;
  fp_objs : ps_objs s = <[p := r]> (ps_objs s0);
  fp_list : kProcessList s = kProcessList s0 ∧ kProcessCount s = kProcessCount s0;
  fp_next : kNextPid s = kNextPid s0 + 1;
  fp_p : p ∈ L ∧ (p ∉ l) ∧ spaces s !! p = None;
  fp_live : ∀ a, a ∈ l → a ∈ L ∧ spaces s !! a = None;
  fp_spaces : ∀ a, is_Some (spaces s !! a) → a ∈ L;
  fp_keep : ∀ a, is_Some (spaces s0 !! a) → is_Some (spaces s !! a)
}.

Lemma proc_add_wp s0 L0 l s L p r :
  procs_inv s0 L0 l → fresh_proc s0 l s L p r → p_pid r = kNextPid s0 →
  (∃ x, p_addr_space r = Some x ∧ is_Some (spaces s !! x)) →
  wp (proc_add p) (λ _ s', procs_inv s' L (p :: l) ∧ ps_objs s' = <[p := set_p_next (kProcessList s0) r]> (ps_objs s0)) s.
Proof.
  intros Hi [F1 F2 F3 [F4 F4'] F5 (F6 & F7 & F8) F9 F10 F11] Hpid Has. unfold proc_add, write_proc, read_proc.
  apply wp_bind, wp_get, wp_bind, wp_bind, wp_bind, wp_get. eapply wp_deref; [rewrite F3; apply lookup_insert_eq|].
  wp_run. cbn [ps_objs ps_vm kNextPid kProcessList kProcessCount set_ps_objs set_kProcessList set_kProcessCount].
  assert (Eo : <[p := set_p_next (kProcessList s) r]> (ps_objs s) = <[p := set_p_next (kProcessList s0) r]> (ps_objs s0))
    by (by rewrite F3, F4, insert_insert_eq).
  rewrite Eo. split; [|done]. set (m := <[p := set_p_next (kProcessList s0) r]> (ps_objs s0)).
  assert (Hm : ∀ a, a ≠ p → m !! a = ps_objs s0 !! a) by (intros a Ha; by apply lookup_insert_ne).
  assert (Hmp : m !! p = Some (set_p_next (kProcessList s0) r)) by apply lookup_insert_eq.
  assert (Hpn : ps_objs s0 !! p = None) by (apply eq_None_not_Some; by rewrite (pv_dom _ _ _ Hi)).
  split; cbn [ps_objs ps_vm kNextPid kProcessList kProcessCount set_ps_objs set_kProcessList set_kProcessCount].
  - done.
  - done.
  - split; [done|]. change (pnext m p) with (m !! p ≫= p_next). rewrite Hmp. cbn [mbind option_bind p_next set_p_next].
    eapply lseg_ext; [|exact (pv_chain _ _ _ Hi)]. intros a Ha. unfold pnext. rewrite Hm; [done|congruence].
  - intros a. destruct (decide (a = p)) as [->|Hne]; [rewrite Hmp; split; [by left|by eexists]|].
    rewrite Hm, (pv_dom _ _ _ Hi), elem_of_cons by done. naive_solver.
  - intros a [->|Ha]%elem_of_cons; auto.
  - done.
  - intros a r'. destruct (decide (a = p)) as [->|Hne]; [rewrite Hmp; intros [= <-]; exact Has|].
    rewrite Hm by done. intros Hr. destruct (pv_as _ _ _ Hi _ _ Hr) as (x & Hx & Hs). eauto.
  - intros a r'. rewrite F5. destruct (decide (a = p)) as [->|Hne].
    + rewrite Hmp. intros [= <-]. cbn [p_pid set_p_next]. rewrite Hpid. pose proof (pv_next _ _ _ Hi). lia.
    + rewrite Hm by done. intros Hr. pose proof (pv_pids _ _ _ Hi _ _ Hr). lia.
  - intros a b ra rb. destruct (decide (a = p)) as [->|Ha], (decide (b = p)) as [->|Hb]; [done| | |].
    + rewrite Hmp, Hm by done. intros [= <-] Hr. cbn [p_pid set_p_next]. pose proof (pv_pids _ _ _ Hi _ _ Hr). lia.
    + rewrite Hmp, Hm by done. intros Hr [= <-]. cbn [p_pid set_p_next]. pose proof (pv_pids _ _ _ Hi _ _ Hr). lia.
    + rewrite !Hm by done. apply Hi.
  - rewrite F5. pose proof (pv_next _ _ _ Hi). lia.
  - rewrite F4', (pv_count _ _ _ Hi). unfold wrap. rewrite Zplus_mod_idemp_l. f_equal. simpl. lia.
Qed.

(** ** Construction *)

(** The state of [new_process] and [next_pid], with the vmm [v] and the object [r]. *)
Definition started s (p : Z) (r : Process) (v : vmm H PA) : procs H PA :=
  mkProcs v (<[p := r]> (ps_objs s)) (u32 (kNextPid s + 1)) (kProcessList s) (kProcessCount s).

Lemma started_fresh s L l p r h a v2 L2 :
  procs_inv s L l → (p ∉ L) → kNextPid s + 1 < 2 ^ 32 →
  as_made (set_vm_heap h (ps_vm s)) ({[p]} ∪ L) a v2 L2 → fresh_proc s l (started s p r v2) L2 p r.
Proof.
  intros Hi Hp Hn [M1 M2 M3 M4 M5 M6]. cbn [vm_spaces set_vm_heap] in *. pose proof (pv_next _ _ _ Hi) as Hn1.
  assert (HlL : ∀ a, a ∈ l → a ∈ L) by (intros b Hb; by apply (pv_live _ _ _ Hi)).
  split; unfold started; cbn [ps_vm ps_objs kNextPid kProcessList kProcessCount].
  - done.
  - done.
  - done.
  - done.
  - apply wrap_small. lia.
  - split_and!; [set_solver|auto|]. apply eq_None_not_Some. intros [Hs|[_ Hnp]]%M5; [by apply (pv_spaces _ _ _ Hi) in Hs|set_solver].
  - intros b Hb. split; [set_solver|]. apply eq_None_not_Some. intros [[? Hs]|[_ Hnp]]%M5; [|set_solver].
    by rewrite (proj2 (pv_live _ _ _ Hi b Hb)) in Hs.
  - intros b [Hs|[? _]]%M5; [|done]. apply (pv_spaces _ _ _ Hi) in Hs. set_solver.
  - exact M4.
Qed.

(** Giving the object up restores the list. *)
Lemma free_process_wp s0 L0 l s L p r :
  procs_inv s0 L0 l → fresh_proc s0 l s L p r →
  wp (free_process p) (λ _ s', procs_inv s' (L ∖ {[p]}) l ∧ ps_objs s' = ps_objs s0) s.
Proof.
  intros Hi [F1 F2 F3 [F4 F4'] F5 (F6 & F7 & F8) F9 F10 F11]. unfold free_process. apply wp_bind.
  destruct (proj1 (wp_ok _ _ _) (kfree_spec _ _ _ F1 F6)) as ([] & h & Ek & Hk).
  eapply wp_eq; [unfold ps_op, vm_heap_op; by rewrite Ek|]. apply wp_modify.
  assert (Hpn : ps_objs s0 !! p = None) by (apply eq_None_not_Some; by rewrite (pv_dom _ _ _ Hi)).
  assert (Eo : delete p (ps_objs s) = ps_objs s0) by (by rewrite F3, delete_insert_id).
  split; [|exact Eo].
  split; cbn [ps_objs ps_vm kNextPid kProcessList kProcessCount set_ps_objs set_ps_vm vm_heap vm_spaces vm_pages set_vm_heap]; rewrite ?Eo, ?F4, ?F4', ?F5.
  - done.
  - done.
  - apply Hi.
  - apply Hi.
  - intros a Ha. destruct (F9 a Ha) as [? ?]. split; [|done]. apply elem_of_difference. split; [done|]. rewrite elem_of_singleton. congruence.
  - intros a Ha. pose proof (F10 a Ha). apply elem_of_difference. split; [done|]. rewrite elem_of_singleton. intros ->. rewrite F8 in Ha. by destruct Ha.
  - intros a r' Hr. destruct (pv_as _ _ _ Hi _ _ Hr) as (x & Hx & Hs). eauto.
  - intros a r' Hr. pose proof (pv_pids _ _ _ Hi _ _ Hr). lia.
  - apply Hi.
  - pose proof (pv_next _ _ _ Hi). lia.
  - apply Hi.
Qed.

(** The object [kmalloc] returns. *)
Lemma new_process_wp raw s L l (R : option Z → procs H PA → Prop) :
  procs_inv s L l →
  (∀ h, kh_inv h L → R None (set_ps_vm (set_vm_heap h (ps_vm s)) s)) →
  (∀ p h, (p ∉ L) → kh_inv h ({[p]} ∪ L) →
     R (Some p) (set_ps_objs (<[p := raw]> (ps_objs s)) (set_ps_vm (set_vm_heap h (ps_vm s)) s))) →
  wp (new_process raw) R s.
Proof.
  intros Hi H0 H1. unfold new_process. apply wp_bind.
  destruct (proj1 (wp_ok _ _ _) (kmalloc_spec _ _ sizeof_Process (pv_heap _ _ _ Hi) ltac:(done))) as (p & h & Ek & Hk).
  eapply wp_eq; [unfold ps_op, vm_heap_op; by rewrite Ek|]. destruct Hk as [[-> Hk]|(Hp0 & HpL & Hk)].
  - simpl (0 =? 0). apply wp_ret. by apply H0.
  - destruct (Z.eqb_spec p 0) as [->|_]; [lia|]. wp_run. by apply H1.
Qed.

Lemma procs_inv_heap s L l h : procs_inv s L l → kh_inv h L → procs_inv (set_ps_vm (set_vm_heap h (ps_vm s)) s) L l.
Proof. intros [] Hh. by split. Qed.

(** What both constructors promise: the outcome for identifier [pid], parent
    [ppid] and the credentials of [src]. *)
Definition created s (l : list Z) (pid ppid : Z) (src : Process) (res : option Z) s' : Prop :=
  match res with
  | None => ps_objs s' = ps_objs s ∧ ∃ L', procs_inv s' L' l
  | Some p => (p ∉ l) ∧ (∃ L', procs_inv s' L' (p :: l)) ∧ ∃ r, ps_objs s' = <[p := r]> (ps_objs s) ∧
      p_pid r = pid ∧ p_ppid r = ppid ∧ p_state r = ALIVE ∧ p_main_thread r = None ∧
      p_uid r = p_uid src ∧ p_gid r = p_gid src ∧ p_euid r = p_euid src ∧ p_egid r = p_egid src
  end.

Lemma write_proc_started s p r f v (R : () → procs H PA → Prop) :
  R () (started s p (f r) v) → wp (write_proc p f) R (started s p r v).
Proof.
  intros HR. unfold write_proc, read_proc. apply wp_bind, wp_bind, wp_get. eapply wp_deref; [apply lookup_insert_eq|]. apply wp_modify.
  unfold started, set_ps_objs in *. cbn [ps_vm ps_objs kNextPid kProcessList kProcessCount] in *. by rewrite insert_insert_eq.
Qed.

Lemma proc_create_wp raw s L l : procs_inv s L l → kNextPid s + 1 < 2 ^ 32 →
  wp (proc_create raw) (created s l (kNextPid s) 0 raw) s.
Proof.
  intros Hi Hn. unfold proc_create. apply wp_bind, (new_process_wp raw s L l); [done| |].
  { intros h Hh. apply wp_ret. split; [done|]. exists L. by apply procs_inv_heap. }
  intros p h HpL Hh. unfold next_pid. apply wp_bind, wp_bind, wp_get, wp_bind, wp_modify, wp_ret.
  cbn [kNextPid set_ps_objs set_ps_vm].
  change (set_kNextPid _ _) with (started s p raw (set_vm_heap h (ps_vm s))).
  apply wp_bind.
  destruct (proj1 (wp_ok _ _ _) (vmm_create_wp (set_vm_heap h (ps_vm s)) ({[p]} ∪ L) Hh (pv_pages _ _ _ Hi))) as (a & v2 & Ev & L2 & Hm).
  eapply wp_eq; [unfold ps_op; cbn [ps_vm started]; by rewrite Ev|].
  change (set_ps_vm v2 _) with (started s p raw v2). apply wp_bind, write_proc_started.
  pose proof (started_fresh s L l p (init_process (kNextPid s) 0 a raw) h a v2 L2 Hi HpL Hn Hm) as Hf. destruct a as [a|].
  - apply wp_bind. eapply wp_mono; [eapply proc_add_wp; [exact Hi|exact Hf|done|]|].
    { exists a. split; [done|]. by apply (am_res _ _ _ _ _ Hm). }
    intros [] s' [Hi' Eo]. apply wp_ret. split; [apply (fp_p _ _ _ _ _ _ Hf)|]. split; [by exists L2|].
    eexists. split; [exact Eo|]. done.
  - apply wp_bind. eapply wp_mono; [by eapply free_process_wp|]. intros [] s' [Hi' Eo]. apply wp_ret. split; [done|by eexists].
Qed.

Lemma proc_create_from_parent_wp raw s L l parent pr : procs_inv s L l → kNextPid s + 1 < 2 ^ 32 →
  ps_objs s !! parent = Some pr →
  wp (proc_create_from_parent raw parent) (created s l (kNextPid s) (p_pid pr) pr) s.
Proof.
  intros Hi Hn Hpr. unfold proc_create_from_parent. apply wp_bind, (new_process_wp raw s L l); [done| |].
  { intros h Hh. apply wp_ret. split; [done|]. exists L. by apply procs_inv_heap. }
  intros c h HcL Hh. unfold next_pid. apply wp_bind, wp_bind, wp_get, wp_bind, wp_modify, wp_ret.
  cbn [kNextPid set_ps_objs set_ps_vm]. change (set_kNextPid _ _) with (started s c raw (set_vm_heap h (ps_vm s))).
  assert (Hpl : parent ∈ l) by (apply (pv_dom _ _ _ Hi); by eexists).
  assert (parent ≠ c) by (intros ->; by apply HcL, (pv_live _ _ _ Hi)).
  unfold read_proc at 1. apply wp_bind, wp_bind, wp_get. eapply wp_deref; [cbn [ps_objs started]; by rewrite lookup_insert_ne|].
  destruct (pv_as _ _ _ Hi _ _ Hpr) as (src & Hsrc & Hss). rewrite Hsrc. apply wp_bind.
  destruct (proj1 (wp_ok _ _ _) (vmm_clone_wp (set_vm_heap h (ps_vm s)) ({[c]} ∪ L) src Hh (pv_pages _ _ _ Hi) Hss)) as (a & v2 & Ev & L2 & Hm).
  eapply wp_eq; [unfold ps_op; cbn [ps_vm started]; by rewrite Ev|].
  change (set_ps_vm v2 _) with (started s c raw v2). apply wp_bind, write_proc_started. destruct a as [a|].
  - apply wp_bind, write_proc_started. apply wp_bind.
    set (r := set_ids _ _ _ _ _). pose proof (started_fresh s L l c r h (Some a) v2 L2 Hi HcL Hn Hm) as Hf.
    eapply wp_mono; [eapply proc_add_wp; [exact Hi|exact Hf|done|]|].
    { exists a. split; [done|]. by apply (am_res _ _ _ _ _ Hm). }
    intros [] s' [Hi' Eo]. apply wp_ret. split; [apply (fp_p _ _ _ _ _ _ Hf)|]. split; [by exists L2|].
    eexists. split; [exact Eo|]. done.
  - pose proof (started_fresh s L l c (init_process (kNextPid s) (p_pid pr) None raw) h None v2 L2 Hi HcL Hn Hm) as Hf.
    apply wp_bind. eapply wp_mono; [by eapply free_process_wp|]. intros [] s' [Hi' Eo]. apply wp_ret. split; [done|by eexists].
Qed.

(** ** Removal *)

(** The state after [p], found behind [pre], was unlinked. *)
Definition unlinked s (pre : list Z) (next : option Z) : procs H PA :=
  set_kProcessCount (u32 (kProcessCount s - 1))
    match last pre with
    | None => set_kProcessList next s
    | Some q => match ps_objs s !! q with Some r => set_ps_objs (<[q := set_p_next next r]> (ps_objs s)) s | None => s end
    end.

Lemma get_link_eq s L pre post : procs_inv s L (pre ++ post) → get_link (last pre) s = Ok (list.head post, s).
Proof.
  intros Hi. pose proof (pv_chain _ _ _ Hi) as Hc. destruct pre as [|q pre _] using rev_ind.
  - unfold get_link, gets. simpl. by rewrite <-(lseg_head _ _ _ Hc).
  - rewrite last_snoc. unfold get_link, read_proc, get, mbind, M_bind. rewrite <-app_assoc in Hc, Hi.
    destruct (proj2 (pv_dom _ _ _ Hi q)) as [r Hr]; [set_solver|]. rewrite Hr. cbn [deref mret M_ret].
    pose proof (chain_next _ _ _ _ _ Hc) as E. unfold pnext in E. rewrite Hr in E. cbn [mbind option_bind] in E. by rewrite E.
Qed.

Lemma remove_loop_eq s L p r l2 : ps_objs s !! p = Some r → ∀ l1 pre fuel,
  procs_inv s L (pre ++ l1 ++ p :: l2) → (p ∉ l1) → (length l1 ≤ fuel)%nat →
  remove_loop fuel (last pre) p s = Ok ((), unlinked s (pre ++ l1) (p_next r)).
Proof.
  intros Hr. induction l1 as [|a l1 IH]; intros pre fuel Hi Hp Hf.
  - assert (E : remove_loop fuel (last pre) p s =
      (r ← read_proc p; set_link (last pre) (p_next r);; modify (λ s, set_kProcessCount (u32 (kProcessCount s - 1)) s)) s).
    { destruct fuel; cbn [remove_loop]; rewrite (bind_ok _ _ _ _ _ (get_link_eq _ _ _ _ Hi)); cbn [list.head app];
        by rewrite Z.eqb_refl. }
    rewrite E, app_nil_r. unfold read_proc at 1, get. unfold mbind at 1 3, M_bind at 1 3. rewrite Hr. cbn [deref mret M_ret].
    unfold unlinked. destruct (last pre) as [q|] eqn:Eq.
    + destruct (proj2 (pv_dom _ _ _ Hi q)) as [rq Hq]; [apply last_Some_elem_of in Eq; set_solver|].
      unfold set_link, write_proc, read_proc, get, mbind, M_bind. rewrite Hq. done.
    + done.
  - destruct fuel as [|fuel]; [simpl in Hf; lia|]. cbn [remove_loop].
    rewrite (bind_ok _ _ _ _ _ (get_link_eq _ _ _ _ Hi)). cbn [list.head app].
    destruct (Z.eqb_spec a p) as [->|_]; [set_solver|]. specialize (IH (pre ++ [a]) fuel). rewrite last_snoc, <-!app_assoc in IH.
    apply IH; [done|set_solver|simpl in Hf; lia].
Qed.

(** Removing [p] changes one link of the other objects and nothing else. *)
Lemma unlinked_objs s L l1 p l2 r : procs_inv s L (l1 ++ p :: l2) → ps_objs s !! p = Some r →
  (∀ a, a ≠ p → (set_p_next None <$> ps_objs (unlinked s l1 (p_next r)) !! a) = (set_p_next None <$> ps_objs s !! a)) ∧
  (∀ a, a ∈ l1 ++ l2 → pnext (ps_objs (unlinked s l1 (p_next r))) a = if decide (last l1 = Some a) then p_next r else pnext (ps_objs s) a) ∧
  ps_objs (unlinked s l1 (p_next r)) !! p = Some r ∧
  kProcessList (unlinked s l1 (p_next r)) = match last l1 with Some _ => kProcessList s | None => p_next r end ∧
  ps_vm (unlinked s l1 (p_next r)) = ps_vm s ∧ kNextPid (unlinked s l1 (p_next r)) = kNextPid s ∧
  kProcessCount (unlinked s l1 (p_next r)) = u32 (kProcessCount s - 1).
Proof.
  intros Hi Hr. pose proof (chain_NoDup _ _ _ (pv_chain _ _ _ Hi)) as Hn. unfold unlinked. destruct (last l1) as [q|] eqn:Eq.
  - apply last_Some_elem_of in Eq as Hq. destruct (proj2 (pv_dom _ _ _ Hi q)) as [rq Hrq]; [set_solver|].
    assert (q ≠ p) by (intros ->; apply NoDup_app in Hn as (_ & Hd & _); eapply Hd; [exact Hq|by left]).
    rewrite Hrq. cbn [ps_objs ps_vm kNextPid kProcessList kProcessCount set_ps_objs set_kProcessCount]. split_and!; try done.
    + intros a _. destruct (decide (a = q)) as [->|]; [rewrite lookup_insert_eq, Hrq; by destruct rq|by rewrite lookup_insert_ne].
    + intros a _. unfold pnext. destruct (decide (a = q)) as [->|Hne].
      * by rewrite lookup_insert_eq, decide_True.
      * rewrite lookup_insert_ne, decide_False by congruence. done.
    + by rewrite lookup_insert_ne.
  - cbn [ps_objs ps_vm kNextPid kProcessList kProcessCount set_kProcessList set_kProcessCount]. split_and!; try done.
Qed.

(** The state after the object was freed too. *)
Definition destroyed s1 (p : Z) (h : H) : procs H PA :=
  set_ps_objs (delete p (ps_objs s1)) (set_ps_vm (set_vm_heap h (ps_vm s1)) s1).

Lemma same_but_next (m m' : gmap Z Process) a r :
  (set_p_next None <$> m !! a) = (set_p_next None <$> m' !! a) → m !! a = Some r →
  ∃ r', m' !! a = Some r' ∧ p_pid r = p_pid r' ∧ p_addr_space r = p_addr_space r'.
Proof. intros E Hr. rewrite Hr in E. destruct (m' !! a) as [r'|]; [|done]. injection E as ?. by exists r'. Qed.

Lemma destroyed_inv s L l1 p l2 r h : procs_inv s L (l1 ++ p :: l2) → ps_objs s !! p = Some r → kh_inv h (L ∖ {[p]}) →
  procs_inv (destroyed (unlinked s l1 (p_next r)) p h) (L ∖ {[p]}) (l1 ++ l2).
Proof.
  intros Hi Hr Hk. destruct (unlinked_objs s L l1 p l2 r Hi Hr) as (U1 & U2 & U3 & U4 & U5 & U6 & U7).
  pose proof (chain_NoDup _ _ _ (pv_chain _ _ _ Hi)) as Hn. rewrite <-Permutation_middle in Hn. apply NoDup_cons in Hn as [Hp _].
  revert U1 U2 U3 U4 U5 U6 U7. generalize (unlinked s l1 (p_next r)) as s1. intros s1 U1 U2 U3 U4 U5 U6 U7.
  assert (Hold : ∀ a r', delete p (ps_objs s1) !! a = Some r' → ∃ r0, ps_objs s !! a = Some r0 ∧ p_pid r' = p_pid r0 ∧ p_addr_space r' = p_addr_space r0).
  { intros a r' [Ha Hr']%lookup_delete_Some. eapply same_but_next; [|exact Hr']. by apply U1. }
  split; unfold destroyed; cbn [ps_objs ps_vm kNextPid kProcessList kProcessCount set_ps_objs set_ps_vm vm_heap vm_spaces vm_pages set_vm_heap];
    rewrite ?U5, ?U6.
  - done.
  - apply Hi.
  - rewrite U4. pose proof (chain_next _ _ _ _ _ (pv_chain _ _ _ Hi)) as En.
    assert (Ep : pnext (ps_objs s) p = p_next r) by (unfold pnext; by rewrite Hr).
    pose proof (chain_remove _ (pnext (delete p (ps_objs s1))) _ _ _ _ (pv_chain _ _ _ Hi)) as Hc. rewrite Ep in Hc. apply Hc.
    intros a Ha. rewrite <-(U2 a Ha). unfold pnext. rewrite lookup_delete_ne; [done|]. congruence.
  - intros a. destruct (decide (a = p)) as [->|Hne].
    + rewrite lookup_delete_eq. split; [by intros []|by intros ?%Hp].
    + rewrite lookup_delete_ne by done. assert (is_Some (ps_objs s1 !! a) ↔ is_Some (ps_objs s !! a)) as ->.
      { specialize (U1 a Hne). destruct (ps_objs s1 !! a), (ps_objs s !! a); try done; split; by intros []. }
      rewrite (pv_dom _ _ _ Hi). set_solver.
  - intros a Ha. destruct (pv_live _ _ _ Hi a) as [? ?]; [set_solver|]. split; [|done]. apply elem_of_difference.
    split; [done|]. rewrite elem_of_singleton. congruence.
  - intros a Ha. apply elem_of_difference. split; [by apply (pv_spaces _ _ _ Hi)|]. rewrite elem_of_singleton. intros ->.
    destruct (pv_live _ _ _ Hi p) as [_ E]; [set_solver|]. rewrite E in Ha. by destruct Ha.
  - intros a r' (r0 & Hr0 & _ & Ea)%Hold. rewrite Ea. by eapply pv_as.
  - intros a r' (r0 & Hr0 & -> & _)%Hold. by eapply pv_pids.
  - intros a b ra rb (ra0 & Ha & -> & _)%Hold (rb0 & Hb & -> & _)%Hold. by eapply pv_unique.
  - apply Hi.
  - rewrite U7, (pv_count _ _ _ Hi). unfold wrap. rewrite Zminus_mod_idemp_l. f_equal. rewrite !length_app. simpl. lia.
Qed.

Lemma proc_destroy_wp s L l p : procs_inv s L l → p ∈ l →
  wp (proc_destroy p) (λ _ s', ∃ L' l1 l2, l = l1 ++ p :: l2 ∧ procs_inv s' L' (l1 ++ l2) ∧ ps_vm s' = set_vm_heap (heap s') (ps_vm s) ∧
    ∀ a, pid_of (ps_objs s') a = if decide (a = p) then None else pid_of (ps_objs s) a) s.
Proof.
  intros Hi Hp. destruct (list_elem_of_split_l _ _ Hp) as (l1 & l2 & -> & Hp1).
  destruct (proj2 (pv_dom _ _ _ Hi p)) as [r Hr]; [set_solver|].
  destruct (pv_live _ _ _ Hi p ltac:(set_solver)) as [HpL Hps].
  destruct (proj1 (wp_ok _ _ _) (kfree_spec _ _ _ (pv_heap _ _ _ Hi) HpL)) as ([] & h & Ek & Hk).
  destruct (unlinked_objs s L l1 p l2 r Hi Hr) as (U1 & _ & U3 & _ & U5 & _).
  pose proof (destroyed_inv s L l1 p l2 r h Hi Hr Hk) as Hd.
  unfold proc_destroy, proc_remove. apply wp_bind, wp_bind, wp_get. eapply wp_eq.
  { apply (remove_loop_eq s L p r l2 Hr l1 []); [done|done|]. rewrite (procs_size _ _ _ Hi), length_app. simpl. lia. }
  cbn [app]. revert U1 U3 U5 Hd. generalize (unlinked s l1 (p_next r)) as s1. intros s1 U1 U3 U5 Hd.
  unfold read_proc. apply wp_bind, wp_bind, wp_get. eapply wp_deref; [exact U3|].
  destruct (pv_as _ _ _ Hi _ _ Hr) as (x & Hx & Hxs). rewrite Hx. apply wp_bind.
  eapply (wp_eq _ _ s1); [reflexivity|]. assert (set_ps_vm (ps_vm s1) s1 = s1) as -> by by destruct s1.
  unfold free_process. apply wp_bind. eapply wp_eq; [unfold ps_op, vm_heap_op; by rewrite U5, Ek|]. apply wp_modify.
  fold (destroyed s1 p h). exists (L ∖ {[p]}), l1, l2. split_and!; [done| | |].
  - unfold destroyed in Hd. by rewrite U5 in Hd.
  - done.
  - intros a. unfold pid_of. cbn [ps_objs set_ps_objs set_ps_vm]. case_decide as E; [by rewrite E, lookup_delete_eq|].
    rewrite lookup_delete_ne by done. specialize (U1 a E). destruct (ps_objs s1 !! a), (ps_objs s !! a); try done.
    injection U1 as E1 _ _ _ _ _ _ _ _ _ _. cbn [fmap option_fmap option_map]. by rewrite E1.
Qed.
End inv.
