(* ===== verification/ProcTheorems.v ===== *)
(** * Properties of the process table *)

From S2P Require Import Prelude LinkedList Bytes Pmm PmmBlocks PageAlloc PmmTheorems KernelHeap Vmm VmmInv VmmTheorems Process ProcInv.
Open Scope Z_scope.

Lemma list_find_ext_in {A} (P Q : A → Prop) `{∀ x, Decision (P x), ∀ x, Decision (Q x)} l :
  (∀ x, x ∈ l → P x ↔ Q x) → list_find P l = list_find Q l.
Proof.
  induction l as [|x l IH]; intros E; simpl; [done|]. rewrite IH by (intros; apply E; by right).
  rewrite (decide_ext (P x) (Q x)) by (apply E; by left). done.
Qed.

Lemma find_app {A} (P : A → Prop) `{∀ x, Decision (P x)} l1 l2 :
  snd <$> list_find P (l1 ++ l2) = match snd <$> list_find P l1 with Some x => Some x | None => snd <$> list_find P l2 end.
Proof.
  induction l1 as [|x l1 IH]; simpl; [done|]. case_decide; [done|].
  destruct (list_find P (l1 ++ l2)) as [[? ?]|], (list_find P l1) as [[? ?]|]; cbn in *; done.
Qed.

Section proc.
Context {H PA : Type} `{!KernelHeap H} `{!PageAllocator PA}.
Implicit Types s : procs H PA.

(** The process with identifier [pid], by the contents of the table. *)
Lemma list_find_pid s L l pid p : procs_inv s L l → p ∈ l → pid_of (ps_objs s) p = Some pid →
  snd <$> list_find (λ a, pid_of (ps_objs s) a = Some pid) l = Some p.
Proof.
  intros Hi Hp Hpid. destruct (list_find_elem_of (λ a, pid_of (ps_objs s) a = Some pid) l p Hp Hpid) as [[i b] Hf].
  rewrite Hf. apply list_find_Some in Hf as (_ & Hb & _). cbn [fmap option_fmap option_map snd]. f_equal.
  unfold pid_of in *. destruct (ps_objs s !! p) as [r|] eqn:Er; [|done]. destruct (ps_objs s !! b) as [r'|] eqn:Er'; [|done].
  injection Hpid as E. injection Hb as E'. eapply (pv_unique _ _ _ Hi); [exact Er'|exact Er|congruence].
Qed.

Lemma list_find_no_pid s l pid : (∀ a, a ∈ l → pid_of (ps_objs s) a ≠ Some pid) →
  snd <$> list_find (λ a, pid_of (ps_objs s) a = Some pid) l = None.
Proof.
  intros Hno. destruct (list_find _ l) as [[i b]|] eqn:Hf; [|done]. apply list_find_Some in Hf as (Hi & Hb & _).
  apply list_elem_of_lookup_2 in Hi. by apply Hno in Hi.
Qed.

(** [proc_find] always comes back, leaves the state alone, and gives the one
    process of the list with that identifier, or null exactly when there is
    none.  The loop makes at most as many steps as there are process objects. *)
Theorem proc_find_terminates s L l pid :
  procs_inv s L l →
  ∃ res, proc_find pid s = Ok (res, s) ∧
    match res with
    | Some p => p ∈ l ∧ pid_of (ps_objs s) p = Some pid ∧ ∀ a, a ∈ l → pid_of (ps_objs s) a = Some pid → a = p
    | None => ∀ a, a ∈ l → pid_of (ps_objs s) a ≠ Some pid
    end.
Proof.
  intros Hi. eexists. split; [by eapply proc_find_eq|].
  destruct (list_find _ l) as [[i p]|] eqn:Hf; cbn [fmap option_fmap option_map snd].
  - apply list_find_Some in Hf as (Hp & Hpid & _). apply list_elem_of_lookup_2 in Hp. split_and!; [done|done|].
    intros a Ha Hapid. pose proof (list_find_pid _ _ _ _ _ Hi Ha Hapid) as E1.
    pose proof (list_find_pid _ _ _ _ _ Hi Hp Hpid) as E2. congruence.
  - intros a Ha Hpid. by apply list_find_None in Hf; eapply Forall_forall in Hf; [|exact Ha].
Qed.

(** What a constructor that returned [p] leaves for [proc_find]: the new
    identifier gives [p], every other one what it gave before. *)
Lemma created_find s L l pid ppid src p s' :
  procs_inv s L l → pid = kNextPid s → created s l pid ppid src (Some p) s' →
  proc_find pid s' = Ok (Some p, s') ∧
  ∀ q res, q ≠ pid → proc_find q s = Ok (res, s) → proc_find q s' = Ok (res, s').
Proof.
  intros Hi -> (Hp & (L' & Hi') & r & Eo & Epid & _). split.
  - rewrite (proc_find_eq _ _ _ _ Hi'). do 2 f_equal. apply (list_find_pid s' L'); [done|by left|].
    unfold pid_of. rewrite Eo, lookup_insert_eq. cbn [fmap option_fmap option_map]. by rewrite Epid.
  - intros q res Hq. rewrite (proc_find_eq _ _ _ _ Hi), (proc_find_eq _ _ _ _ Hi'). intros [= <-]. do 2 f_equal.
    assert (Epp : pid_of (ps_objs s') p = Some (p_pid r)) by (unfold pid_of; by rewrite Eo, lookup_insert_eq).
    simpl (list_find _ (p :: l)). rewrite decide_False by (rewrite Epp; congruence).
    rewrite (list_find_ext_in (λ a, pid_of (ps_objs s') a = Some q) (λ a, pid_of (ps_objs s) a = Some q)).
    + by destruct (list_find _ l) as [[? ?]|].
    + intros a Ha. unfold pid_of. rewrite Eo, lookup_insert_ne by congruence. done.
Qed.

(** [proc_create_from_parent], the kernel half of [fork], on a listed parent
    while identifiers do not wrap, with arbitrary contents of fresh memory.  It
    returns; on failure the table of processes is as before.  On success a new
    process heads the list with the next identifier, the parent's identifier as
    its parent and the parent's four credentials; [proc_find] then gives it for
    its identifier and answers as before for all others.  The process list and
    the heap objects stay consistent in both cases. *)
Theorem proc_fork_correct raw s L l parent pr :
  procs_inv s L l → kNextPid s + 1 < 2 ^ 32 → ps_objs s !! parent = Some pr →
  ∃ res s', proc_create_from_parent raw parent s = Ok (res, s') ∧
    created s l (kNextPid s) (p_pid pr) pr res s' ∧
    ∀ p, res = Some p → proc_find (kNextPid s) s' = Ok (Some p, s') ∧
      ∀ q res, q ≠ kNextPid s → proc_find q s = Ok (res, s) → proc_find q s' = Ok (res, s').
Proof.
  intros Hi Hn Hpr. destruct (proj1 (wp_ok _ _ _) (proc_create_from_parent_wp raw s L l parent pr Hi Hn Hpr)) as (res & s' & E & Hc).
  exists res, s'. split_and!; [done|done|]. intros p ->. by eapply created_find.
Qed.

(** [proc_create] returns; on success the new process heads the list with
    the next identifier and parent 0, and is what [proc_find] gives for it.  Its
    user and group identifiers are whatever the fresh memory held: nothing in
    [proc_create] sets them. *)
Theorem proc_create_correct raw s L l :
  procs_inv s L l → kNextPid s + 1 < 2 ^ 32 →
  ∃ res s', proc_create raw s = Ok (res, s') ∧ created s l (kNextPid s) 0 raw res s' ∧
    ∀ p, res = Some p → proc_find (kNextPid s) s' = Ok (Some p, s').
Proof.
  intros Hi Hn. destruct (proj1 (wp_ok _ _ _) (proc_create_wp raw s L l Hi Hn)) as (res & s' & E & Hc).
  exists res, s'. split_and!; [done|done|]. intros p ->.
  exact (proj1 (created_find _ _ _ _ _ _ _ _ Hi eq_refl Hc)).
Qed.

(** C24: [proc_destroy] on a listed process returns, takes exactly that process
    off the list and frees its object: [proc_find] no longer gives it and
    answers as before for every other process.  Page tables, address spaces
    and the page allocator are untouched, so the address space of the
    process is never given back. *)
Theorem proc_destroy_correct s L l p pid :
  procs_inv s L l → p ∈ l → pid_of (ps_objs s) p = Some pid →
  ∃ s' L' l1 l2, proc_destroy p s = Ok ((), s') ∧ l = l1 ++ p :: l2 ∧ procs_inv s' L' (l1 ++ l2) ∧
    ps_vm s' = set_vm_heap (vm_heap (ps_vm s')) (ps_vm s) ∧
    proc_find pid s' = Ok (None, s') ∧
    ∀ q res, q ≠ pid → proc_find q s = Ok (res, s) → proc_find q s' = Ok (res, s').
Proof.
  intros Hi Hp Hpid. destruct (proj1 (wp_ok _ _ _) (proc_destroy_wp s L l p Hi Hp)) as ([] & s' & E & L' & l1 & l2 & -> & Hi' & Hvm & Ho).
  pose proof (chain_NoDup _ _ _ (pv_chain _ _ _ Hi)) as Hn. rewrite <-Permutation_middle in Hn. apply NoDup_cons in Hn as [Hpn _].
  exists s', L', l1, l2. split_and!; [done|done|done|done| |].
  - rewrite (proc_find_eq _ _ _ _ Hi'). do 2 f_equal. apply list_find_no_pid. intros a Ha Ha2.
    rewrite Ho in Ha2. case_decide as Ep; [done|]. apply Ep.
    pose proof (list_find_pid s L _ pid p Hi Hp Hpid) as E1. pose proof (list_find_pid s L _ pid a Hi ltac:(set_solver) Ha2). congruence.
  - intros q res Hq. rewrite (proc_find_eq _ _ _ _ Hi), (proc_find_eq _ _ _ _ Hi'). intros [= <-]. do 2 f_equal.
    rewrite (list_find_ext_in (λ a, pid_of (ps_objs s') a = Some q) (λ a, pid_of (ps_objs s) a = Some q)).
    + rewrite !find_app. destruct (list_find _ l1) as [[? ?]|]; [done|]. cbn [fmap option_fmap option_map].
      simpl (list_find _ (p :: l2)). rewrite decide_False by (rewrite Hpid; congruence). by destruct (list_find _ l2) as [[? ?]|].
    + intros a Ha. rewrite Ho, decide_False by congruence. done.
Qed.
End proc.

(** ** A table *)

Definition small_raw : Process := mkProcess 7 7 TERMINATED None None 1000 1000 1000 1000 0 [] None.
Definition no_procs : procs bump pmm := mkProcs small_vmm ∅ 1 None 0.

Lemma no_procs_inv : procs_inv no_procs {[small_as]} [].
Proof.
  destruct small_vmm_inv as (F & Hi & _). split; cbn [no_procs ps_vm ps_objs kNextPid kProcessList kProcessCount small_vmm vm_heap vm_pages vm_spaces].
  - split; [done|]. intros p ->%elem_of_singleton. done.
  - exists F, []. exact (ai_pages _ _ _ _ Hi).
  - done.
  - intros a. rewrite lookup_empty, elem_of_nil. split; [by intros []|done].
  - intros a []%not_elem_of_nil.
  - intros a [x Hx]. apply lookup_singleton_Some in Hx as [<- _]. by apply elem_of_singleton.
  - intros a r. by rewrite lookup_empty.
  - intros a r. by rewrite lookup_empty.
  - intros a b r r'. by rewrite lookup_empty.
  - done.
  - done.
Qed.

Lemma proc_create_correct_witness :
  ∃ res s', proc_create small_raw no_procs = Ok (res, s') ∧ created no_procs [] 1 0 small_raw res s' ∧
    ∀ p, res = Some p → proc_find 1 s' = Ok (Some p, s').
Proof. exact (proc_create_correct small_raw no_procs {[small_as]} [] no_procs_inv ltac:(cbn [kNextPid no_procs]; lia)). Defined.

(** One process, at the first address of the heap. *)
Definition init_addr : Z := 0x6000.

Lemma one_proc_ok : ∃ s' L r, proc_create small_raw no_procs = Ok (Some init_addr, s') ∧ procs_inv s' L [init_addr] ∧
  kNextPid s' = 2 ∧ ps_objs s' !! init_addr = Some r ∧ p_pid r = 1.
Proof.
  destruct (proj1 (wp_ok _ _ _) (proc_create_wp small_raw no_procs {[small_as]} [] no_procs_inv ltac:(cbn [kNextPid no_procs]; lia)))
    as (res & s' & E & Hc).
  assert (Er : match proc_create small_raw no_procs with Ok (Some p, s) => (p =? init_addr) && (kNextPid s =? 2) | _ => false end = true)
    by (vm_compute; reflexivity).
  rewrite E in Er. destruct res as [p|]; [|discriminate Er]. apply andb_prop in Er as [Ep En]. apply Z.eqb_eq in Ep as ->. apply Z.eqb_eq in En.
  destruct Hc as (_ & (L' & Hi) & r & Eo & Epid & _). exists s', L', r. split_and!; [exact E|exact Hi|exact En| |exact Epid].
  rewrite Eo. apply lookup_insert_eq.
Qed.

Lemma proc_find_terminates_witness :
  ∃ res, proc_find 1 no_procs = Ok (res, no_procs) ∧
    match res with
    | Some p => p ∈ [] ∧ pid_of (ps_objs no_procs) p = Some 1 ∧ ∀ a, a ∈ [] → pid_of (ps_objs no_procs) a = Some 1 → a = p
    | None => ∀ a, a ∈ [] → pid_of (ps_objs no_procs) a ≠ Some 1
    end.
Proof. exact (proc_find_terminates no_procs {[small_as]} [] 1 no_procs_inv). Defined.

Lemma proc_fork_correct_witness :
  ∃ s r res s', ps_objs s !! init_addr = Some r ∧ p_pid r = 1 ∧
    proc_create_from_parent small_raw init_addr s = Ok (res, s') ∧ created s [init_addr] (kNextPid s) (p_pid r) r res s'.
Proof.
  destruct one_proc_ok as (s & L & r & _ & Hi & En & Hr & Hp).
  destruct (proc_fork_correct small_raw s L [init_addr] init_addr r Hi ltac:(rewrite En; lia) Hr) as (res & s' & E & Hc & _).
  exists s, r, res, s'. exact (conj Hr (conj Hp (conj E Hc))).
Defined.

Lemma proc_destroy_correct_witness :
  ∃ s s', proc_create small_raw no_procs = Ok (Some init_addr, s) ∧ proc_destroy init_addr s = Ok ((), s') ∧
    proc_find 1 s' = Ok (None, s').
Proof.
  destruct one_proc_ok as (s & L & r & Ec & Hi & _ & Hr & Hp).
  destruct (proc_destroy_correct s L [init_addr] init_addr 1 Hi) as (s' & L' & l1 & l2 & E & _ & _ & _ & Hf & _).
  - apply list_elem_of_singleton. reflexivity.
  - unfold pid_of. rewrite Hr. cbn [fmap option_fmap option_map]. by rewrite Hp.
  - exists s, s'. exact (conj Ec (conj E Hf)).
Defined.
