(* ===== verification/Device.v ===== *)
(** * The device registry

    Model of src/kernel/device.cpp and include/vortex/kernel/device.hpp.  Drivers
    own the [Device] objects; [dv_objs] are those objects by address.  The list
    of registered devices is threaded through their [private_data].  A [name] is
    the C string before its terminator. *)

From S2P Require Import Prelude LinkedList.
Open Scope Z_scope.

Inductive DeviceType := CHAR | BLOCK | NET.

Record Device := mkDevice {
  d_name : string;
  d_type : DeviceType;
  d_major : Z;
  d_minor : Z;
  d_ops : option Z;
  d_private_data : option Z
}.

Definition set_d_ops (v : option Z) (d : Device) : Device :=
  mkDevice (d_name d) (d_type d) (d_major d) (d_minor d) v (d_private_data d).
Definition set_d_private_data (v : option Z) (d : Device) : Device :=
  mkDevice (d_name d) (d_type d) (d_major d) (d_minor d) (d_ops d) v.

Definition MAX_DEVICES : Z := 128.

Record devices := mkDevices {
  dv_objs : gmap Z Device;
  kDeviceList : option Z;
  kDeviceCount : Z
}.

Definition set_dv_objs (v : gmap Z Device) (s : devices) : devices := mkDevices v (kDeviceList s) (kDeviceCount s).
Definition set_kDeviceList (v : option Z) (s : devices) : devices := mkDevices (dv_objs s) v (kDeviceCount s).
Definition set_kDeviceCount (v : Z) (s : devices) : devices := mkDevices (dv_objs s) (kDeviceList s) v.

Definition read_device (a : Z) : M devices Device := s ← get; deref (dv_objs s !! a).
Definition write_device (a : Z) (f : Device → Device) : M devices () :=
  d ← read_device a; modify (λ s, set_dv_objs (<[a := f d]> (dv_objs s)) s).

Definition device_manager_init : M devices () :=
  modify (set_kDeviceList None);; modify (set_kDeviceCount 0).

(** [while ( *a && *b && *a == *b) { a++; b++; }], then both at the terminator *)
Fixpoint name_match (a b : string) : bool :=
  match a, b with
  | String x a, String y b => if Ascii.eqb x y then name_match a b else false
  | EmptyString, EmptyString => true
  | _, _ => false
  end.

Fixpoint device_find_loop (fuel : nat) (curr : option Z) (name : string) : M devices (option Z) :=
  match curr with
  | None => mret None
  | Some a =>
    match fuel with
    | O => undefined
    | S fuel =>
      d ← read_device a;
      if name_match (d_name d) name then mret (Some a) else device_find_loop fuel (d_private_data d) name
    end
  end.

(** The walk visits each object once at most. *)
Definition device_find (name : option string) : M devices (option Z) :=
  match name with
  | None => mret None
  | Some name => s ← get; device_find_loop (size (dv_objs s)) (kDeviceList s) name
  end.

Definition device_register (dev : option Z) : M devices bool :=
  match dev with
  | None => mret false
  | Some a =>
    s ← get;
    if MAX_DEVICES <=? kDeviceCount s then mret false
    else
      d ← read_device a;
      r ← device_find (Some (d_name d));
      match r with
      | Some _ => mret false
      | None =>
        write_device a (set_d_private_data None);;
        write_device a (set_d_ops None);;
        next ← gets kDeviceList;
        modify (set_kDeviceList (Some a));;
        write_device a (set_d_private_data next);;
        modify (λ s, set_kDeviceCount (u32 (kDeviceCount s + 1)) s);;
        mret true
      end
  end.

(** [*prev = v], where [prev] points to the list head or to a [private_data]. *)
Definition set_device_link (prev : option Z) (v : option Z) : M devices () :=
  match prev with
  | None => modify (set_kDeviceList v)
  | Some q => write_device q (set_d_private_data v)
  end.

Fixpoint unregister_loop (fuel : nat) (prev curr : option Z) (dev : Z) : M devices bool :=
  match curr with
  | None => mret false
  | Some a =>
    match fuel with
    | O => undefined
    | S fuel =>
      d ← read_device a;
      if a =? dev then
        set_device_link prev (d_private_data d);;
        modify (λ s, set_kDeviceCount (u32 (kDeviceCount s - 1)) s);;
        mret true
      else unregister_loop fuel (Some a) (d_private_data d) dev
    end
  end.

Definition device_unregister (dev : option Z) : M devices bool :=
  match dev with
  | None => mret false
  | Some a =>
    s ← get;
    match kDeviceList s with
    | None => mret false
    | Some _ => unregister_loop (size (dv_objs s)) None (kDeviceList s) a
    end
  end.

(** * The device registry refines a bounded list of distinct names

    [registry s l]: the registered devices, newest first, are [l]. *)

Lemma name_match_eq a b : name_match a b = bool_decide (a = b).
Proof.
  revert b. induction a as [|x a IH]; intros [|y b]; [done..|]. cbn [name_match].
  destruct (Ascii.eqb_spec x y) as [->|Hne].
  - rewrite IH. apply bool_decide_ext. split; [by intros ->|by intros [= ->]].
  - symmetry. apply bool_decide_eq_false. by intros [= -> _].
Qed.

Definition dlink (objs : gmap Z Device) (a : Z) : option Z := objs !! a ≫= d_private_data.
Definition dname (objs : gmap Z Device) (a : Z) : option string := d_name <$> objs !! a.

Record registry (s : devices) (l : list Z) : Prop := {
  rg_chain : chain (dlink (dv_objs s)) (kDeviceList s) l;
  rg_objs : ∀ a, a ∈ l → is_Some (dv_objs s !! a);
  rg_count : kDeviceCount s = Z.of_nat (length l);
  rg_bound : Z.of_nat (length l) ≤ MAX_DEVICES;
  rg_names : ∀ a b, a ∈ l → b ∈ l → dname (dv_objs s) a = dname (dv_objs s) b → a = b
}.

(** The registered device of that name. *)
Definition lookup_name (s : devices) (l : list Z) (name : string) : option Z :=
  snd <$> list_find (λ a, dname (dv_objs s) a = Some name) l.

(** Everything but the links and operations of the devices in [l]. *)
Definition others_kept (l : list Z) (s s' : devices) : Prop :=
  ∀ a, dname (dv_objs s') a = dname (dv_objs s) a ∧ (a ∉ l → dv_objs s' !! a = dv_objs s !! a).

Lemma registry_size s l : registry s l → (length l ≤ size (dv_objs s))%nat.
Proof.
  intros [Hc Ho _ _ _]. pose proof (chain_NoDup _ _ _ Hc) as Hnd. rewrite <-size_dom.
  rewrite <-(size_list_to_set (C := gset Z) l) by done. apply subseteq_size. intros a Ha%elem_of_list_to_set.
  by apply elem_of_dom, Ho.
Qed.

Lemma read_device_ok s a d : dv_objs s !! a = Some d → read_device a s = Ok (d, s).
Proof. intros Hd. unfold read_device, get, mbind, M_bind. by rewrite Hd. Qed.

Lemma device_find_loop_run s name l : ∀ fuel h, (∀ a, a ∈ l → is_Some (dv_objs s !! a)) →
  chain (dlink (dv_objs s)) h l → (length l ≤ fuel)%nat →
  device_find_loop fuel h name s = Ok (lookup_name s l name, s).
Proof.
  unfold lookup_name. induction l as [|a l IH]; intros fuel h Hin Hc Hf.
  { unfold chain in Hc. cbn in Hc. subst h. by destruct fuel. }
  destruct Hc as [-> Hc]. destruct fuel as [|fuel]; [cbn in Hf; lia|]. cbn [device_find_loop].
  destruct (Hin a) as [d Hd]; [by left|]. rewrite (bind_ok _ _ _ _ _ (read_device_ok _ _ _ Hd)).
  assert (En : dname (dv_objs s) a = Some (d_name d)) by (unfold dname; by rewrite Hd).
  assert (El : dlink (dv_objs s) a = d_private_data d) by (unfold dlink; by rewrite Hd). rewrite El in Hc.
  rewrite name_match_eq. cbn [list_find]. rewrite En. destruct (decide (d_name d = name)) as [->|Hne].
  - rewrite bool_decide_eq_true_2 by done. by rewrite decide_True.
  - rewrite bool_decide_eq_false_2, decide_False by congruence.
    rewrite (IH fuel); [|intros b Hb; apply Hin; by right|done|cbn in Hf; lia].
    do 2 f_equal. by destruct (list_find _ l) as [[? ?]|].
Qed.

Lemma device_find_run s l name : registry s l → device_find (Some name) s = Ok (lookup_name s l name, s).
Proof.
  intros Hi. unfold device_find, get. unfold mbind at 1, M_bind. apply device_find_loop_run; [apply Hi|apply Hi|by apply registry_size].
Qed.

Lemma lookup_name_spec s l name a : registry s l →
  lookup_name s l name = Some a ↔ a ∈ l ∧ dname (dv_objs s) a = Some name.
Proof.
  intros Hi. unfold lookup_name. rewrite fmap_Some. split.
  - intros ([i b] & (Hl & Hn & _)%list_find_Some & ->). split; [by eapply list_elem_of_lookup_2|done].
  - intros [Ha Hn]. destruct (list_find_elem_of (λ a, dname (dv_objs s) a = Some name) l a Ha Hn) as [[i b] E].
    exists (i, b). split; [done|]. apply list_find_Some in E as (Hl & Hb & _).
    apply (rg_names _ _ Hi); [done|by eapply list_elem_of_lookup_2|]. cbn [snd]. by rewrite Hn, Hb.
Qed.

Lemma lookup_name_none s l name : lookup_name s l name = None ↔ ∀ a, a ∈ l → dname (dv_objs s) a ≠ Some name.
Proof. unfold lookup_name. rewrite fmap_None, list_find_None, Forall_forall. done. Qed.

(** ** Registration *)

Lemma device_register_run s l a d (R : bool → devices → Prop) : registry s l → dv_objs s !! a = Some d →
  (Z.of_nat (length l) = MAX_DEVICES ∨ is_Some (lookup_name s l (d_name d)) → R false s) →
  (∀ s', Z.of_nat (length l) < MAX_DEVICES → lookup_name s l (d_name d) = None →
     registry s' (a :: l) → others_kept [a] s s' → d_ops <$> dv_objs s' !! a = Some None → R true s') →
  wp (device_register (Some a)) R s.
Proof.
  intros Hi Hd Hno Hyes. unfold device_register. apply wp_bind, wp_get. rewrite (rg_count _ _ Hi).
  pose proof (rg_bound _ _ Hi) as Hb. case_if; [apply wp_ret, Hno; left; lia|].
  unfold read_device. apply wp_bind, wp_bind, wp_get. eapply wp_deref; [exact Hd|].
  apply wp_bind. eapply wp_eq; [by apply device_find_run|].
  destruct (lookup_name s l (d_name d)) as [b|] eqn:El; [apply wp_ret, Hno; right; by eexists|].
  pose proof (proj1 (lookup_name_none _ _ _) El) as Hfresh.
  assert (Hal : a ∉ l) by (intros Hal; apply (Hfresh a Hal); unfold dname; by rewrite Hd).
  unfold write_device, read_device. wp_run. cbn [dv_objs set_dv_objs]. wp_run.
  eapply wp_deref; [apply lookup_insert_eq|]. wp_run. cbn [dv_objs set_dv_objs set_kDeviceList kDeviceList].
  eapply wp_deref; [apply lookup_insert_eq|]. wp_run. unfold set_kDeviceCount, set_dv_objs, set_kDeviceList. cbn [dv_objs kDeviceList kDeviceCount].
  rewrite !insert_insert_eq. set (d' := set_d_private_data _ _). set (objs' := <[a := d']> (dv_objs s)).
  assert (Hne : ∀ b, b ∈ l → objs' !! b = dv_objs s !! b) by (intros b Hbl; apply lookup_insert_ne; by intros ->).
  assert (Hnm : ∀ b, dname objs' b = dname (dv_objs s) b).
  { intros b. unfold dname, objs'. destruct (decide (b = a)) as [->|Hba]; [by rewrite lookup_insert_eq, Hd|by rewrite lookup_insert_ne]. }
  apply Hyes; [lia|done| | |cbn [dv_objs]; unfold objs'; by rewrite lookup_insert_eq].
  - split; cbn [dv_objs kDeviceList kDeviceCount].
    + split; [done|]. replace (dlink objs' a) with (kDeviceList s) by (unfold dlink, objs'; by rewrite lookup_insert_eq).
      eapply lseg_ext, Hi. intros b Hbl. unfold dlink. by rewrite Hne.
    + intros b [->|Hbl]%elem_of_cons; [unfold objs'; rewrite lookup_insert_eq; by eexists|rewrite Hne by done; by apply Hi].
    + rewrite (rg_count _ _ Hi). unfold u32, wrap, MAX_DEVICES in *. cbn [length]. rewrite Z.mod_small by lia. lia.
    + cbn [length]. unfold MAX_DEVICES in *. lia.
    + intros b c. rewrite !Hnm. intros [->|Hbl]%elem_of_cons [->|Hcl]%elem_of_cons; [done|..|by apply Hi].
      * unfold dname at 1. rewrite Hd. intros E. exfalso. by apply (Hfresh c Hcl).
      * unfold dname at 2. rewrite Hd. intros E. exfalso. by apply (Hfresh b Hbl).
  - intros b. split; [apply Hnm|]. intros Hb'. apply lookup_insert_ne. set_solver.
Qed.

(** ** Removal *)

Lemma unregister_absent s dev l : ∀ fuel prev h, (∀ a, a ∈ l → is_Some (dv_objs s !! a)) →
  chain (dlink (dv_objs s)) h l → (length l ≤ fuel)%nat → dev ∉ l →
  unregister_loop fuel prev h dev s = Ok (false, s).
Proof.
  induction l as [|a l IH]; intros fuel prev h Hin Hc Hf Hn.
  { unfold chain in Hc. cbn in Hc. subst h. by destruct fuel. }
  destruct Hc as [-> Hc]. destruct fuel as [|fuel]; [cbn in Hf; lia|]. cbn [unregister_loop].
  destruct (Hin a) as [d Hd]; [by left|]. rewrite (bind_ok _ _ _ _ _ (read_device_ok _ _ _ Hd)).
  apply not_elem_of_cons in Hn as [Hne Hn]. rewrite (proj2 (Z.eqb_neq a dev)) by done.
  assert (El : dlink (dv_objs s) a = d_private_data d) by (unfold dlink; by rewrite Hd). rewrite El in Hc.
  apply IH; [intros b Hb; apply Hin; by right|done|cbn in Hf; lia|done].
Qed.

(** The walk reaches the device with [prev] at its predecessor. *)
Lemma unregister_present s dev d l1 l2 : ∀ fuel prev h, (∀ a, a ∈ l1 → is_Some (dv_objs s !! a)) →
  lseg (dlink (dv_objs s)) h l1 (Some dev) → (length (l1 ++ dev :: l2) ≤ fuel)%nat → dev ∉ l1 → dv_objs s !! dev = Some d →
  unregister_loop fuel prev h dev s =
  (set_device_link (match last l1 with Some q => Some q | None => prev end) (d_private_data d);;
   modify (λ s, set_kDeviceCount (u32 (kDeviceCount s - 1)) s);; mret true) s.
Proof.
  induction l1 as [|a l1 IH]; intros fuel prev h Hin Hc Hf Hn Hd.
  - cbn in Hc. subst h. destruct fuel as [|fuel]; [cbn in Hf; lia|]. cbn [unregister_loop last].
    rewrite (bind_ok _ _ _ _ _ (read_device_ok _ _ _ Hd)). by rewrite Z.eqb_refl.
  - destruct Hc as [-> Hc]. destruct fuel as [|fuel]; [cbn in Hf; lia|]. cbn [unregister_loop].
    destruct (Hin a) as [da Hda]; [by left|]. apply not_elem_of_cons in Hn as [Hne Hn].
    rewrite (bind_ok _ _ _ _ _ (read_device_ok _ _ _ Hda)).
    rewrite (proj2 (Z.eqb_neq a dev)) by done.
    assert (El : dlink (dv_objs s) a = d_private_data da) by (unfold dlink; by rewrite Hda). rewrite El in Hc.
    rewrite (IH fuel (Some a)); [|intros b Hb; apply Hin; by right|done|cbn in Hf |- *; lia|done|done].
    rewrite last_cons. by destruct (last l1).
Qed.

Lemma unregister_registry s l1 dev l2 d : registry s (l1 ++ dev :: l2) → dv_objs s !! dev = Some d →
  wp (set_device_link (last l1) (d_private_data d);;
      modify (λ s, set_kDeviceCount (u32 (kDeviceCount s - 1)) s);; mret true)
    (λ r s', r = true ∧ registry s' (l1 ++ l2) ∧ others_kept (l1 ++ dev :: l2) s s') s.
Proof.
  intros Hi Hd. assert (El : dlink (dv_objs s) dev = d_private_data d) by (unfold dlink; by rewrite Hd).
  pose proof (chain_NoDup _ _ _ (rg_chain _ _ Hi)) as Hnd.
  assert (Hsub : ∀ a, a ∈ l1 ++ l2 → a ∈ l1 ++ dev :: l2) by set_solver.
  assert (Hlen : u32 (kDeviceCount s - 1) = Z.of_nat (length (l1 ++ l2))).
  { pose proof (rg_count _ _ Hi). pose proof (rg_bound _ _ Hi). unfold MAX_DEVICES in *. rewrite length_app in *. cbn [length] in *.
    unfold u32, wrap. rewrite Z.mod_small; lia. }
  assert (Hfin : ∀ objs' hd, hd = match last l1 with Some _ => kDeviceList s | None => d_private_data d end →
    (∀ b, dname objs' b = dname (dv_objs s) b ∧ (b ∉ l1 ++ dev :: l2 → objs' !! b = dv_objs s !! b)) →
    (∀ b, b ∈ l1 ++ l2 → dlink objs' b = if decide (last l1 = Some b) then d_private_data d else dlink (dv_objs s) b) →
    registry (mkDevices objs' hd (u32 (kDeviceCount s - 1))) (l1 ++ l2)).
  { intros objs' hd -> Hnm Hlk. split; cbn [dv_objs kDeviceList kDeviceCount].
    - rewrite <-El. apply (chain_remove (dlink (dv_objs s))); [apply Hi|]. intros b Hb. rewrite El. by apply Hlk.
    - intros b Hb%Hsub. destruct (rg_objs _ _ Hi b Hb) as [db Hdb]. destruct (Hnm b) as [E _]. unfold dname in E. rewrite Hdb in E.
      by destruct (objs' !! b).
    - done.
    - pose proof (rg_bound _ _ Hi). rewrite length_app in *. cbn [length] in *. lia.
    - intros b c Hb Hc. rewrite !(proj1 (Hnm _)). apply (rg_names _ _ Hi); by apply Hsub. }
  apply wp_bind. destruct (last l1) as [q|] eqn:Elast; cbn [set_device_link].
  - assert (Hq : q ∈ l1) by by apply last_Some_elem_of. destruct (rg_objs _ _ Hi q) as [dq Hdq]; [set_solver|].
    unfold write_device, read_device. wp_run. unfold set_kDeviceCount, set_dv_objs. cbn [dv_objs kDeviceList kDeviceCount].
    assert (Hnm : ∀ b, dname (<[q := set_d_private_data (d_private_data d) dq]> (dv_objs s)) b = dname (dv_objs s) b).
    { intros b. unfold dname. destruct (decide (b = q)) as [->|Hb]; [by rewrite lookup_insert_eq, Hdq|by rewrite lookup_insert_ne]. }
    assert (Hout : ∀ b, b ∉ l1 ++ dev :: l2 → <[q := set_d_private_data (d_private_data d) dq]> (dv_objs s) !! b = dv_objs s !! b)
      by (intros b Hb; apply lookup_insert_ne; set_solver).
    split_and!; [done| |intros b; split; [apply Hnm|apply Hout]]. apply Hfin; [done|intros b; split; [apply Hnm|apply Hout]|].
    intros b Hb. unfold dlink. case_decide as E.
    + injection E as <-. by rewrite lookup_insert_eq.
    + by rewrite lookup_insert_ne by congruence.
  - wp_run. split_and!; [done| |done]. apply Hfin; [done|done|]. intros b _. by rewrite decide_False.
Qed.

Lemma device_unregister_run s l a : registry s l →
  wp (device_unregister (Some a)) (λ r s',
    (r = false ∧ (a ∉ l) ∧ s' = s) ∨
    (r = true ∧ ∃ l1 l2, l = l1 ++ a :: l2 ∧ registry s' (l1 ++ l2) ∧ others_kept l s s')) s.
Proof.
  intros Hi. unfold device_unregister. apply wp_bind, wp_get. pose proof (registry_size _ _ Hi) as Hsz.
  destruct (kDeviceList s) as [h|] eqn:Eh.
  2:{ apply wp_ret. left. pose proof (rg_chain _ _ Hi) as Hc. rewrite Eh in Hc. destruct l; [|by destruct Hc].
      split_and!; [done|apply not_elem_of_nil|done]. }
  rewrite <-Eh. destruct (decide (a ∈ l)) as [Ha|Ha].
  - apply list_elem_of_split in Ha as (l1 & l2 & ->). destruct (rg_objs _ _ Hi a) as [d Hd]; [set_solver|].
    pose proof (chain_NoDup _ _ _ (rg_chain _ _ Hi)) as (_ & Hdis & _)%NoDup_app.
    pose proof (rg_chain _ _ Hi) as (m & Hseg & [-> _])%lseg_app.
    unfold wp. rewrite (unregister_present s a d l1 l2); [|intros b Hb; apply Hi; set_solver|done|done|intros Hl; by apply (Hdis a Hl); left|done].
    replace (match last l1 with Some q => Some q | None => None end) with (last l1) by by destruct (last l1).
    eapply wp_mono; [by apply unregister_registry|]. intros r s' (-> & Hr & Hk). right. split; [done|]. by exists l1, l2.
  - eapply wp_eq; [by eapply unregister_absent; [apply Hi|apply Hi|..]|]. by left.
Qed.

(** ** The property *)

(** What each call of the registry does to the list of registered devices. *)
Definition registry_step (s : devices) (l : list Z) : Prop :=
  (∀ name, device_find (Some name) s = Ok (lookup_name s l name, s) ∧
     ∀ a, lookup_name s l name = Some a ↔ a ∈ l ∧ dname (dv_objs s) a = Some name) ∧
  (∀ a d, dv_objs s !! a = Some d →
     wp (device_register (Some a)) (λ r s',
       (r = false ∧ s' = s ∧ (Z.of_nat (length l) = MAX_DEVICES ∨ is_Some (lookup_name s l (d_name d)))) ∨
       (r = true ∧ Z.of_nat (length l) < MAX_DEVICES ∧ lookup_name s l (d_name d) = None ∧
        registry s' (a :: l) ∧ others_kept [a] s s' ∧ d_ops <$> dv_objs s' !! a = Some None)) s) ∧
  (∀ a, wp (device_unregister (Some a)) (λ r s',
     (r = false ∧ (a ∉ l) ∧ s' = s) ∨
     (r = true ∧ ∃ l1 l2, l = l1 ++ a :: l2 ∧ registry s' (l1 ++ l2) ∧ others_kept l s s')) s).


(** Two devices registered from the empty registry. *)
Definition sample_device (name : string) : Device := mkDevice name CHAR 4 64 (Some 0x1000) None.
Definition sample_devices : devices := mkDevices {[1 := sample_device "tty0"; 2 := sample_device "null"]} None 0.

Lemma sample_registry : registry sample_devices [].
Proof.
  split; [done|by intros a []%not_elem_of_nil|done|done|by intros a b []%not_elem_of_nil].
Qed.

