(* ===== verification/Syscall.v ===== *)
(** * System calls

    Model of src/kernel/syscall.cpp with its assembly entry
    src/arch/x86_64/syscall_entry.asm.  The kernel state puts processes, threads
    and the file system together; they share one page allocator, heap and memory,
    which live in [ps_vm].  The interrupt frame is its 22 words in the order of
    idt.hpp.  An access of the kernel to a user address goes through the
    processor's translation [xlate] (whether it writes, the state, the address); a
    fault of the kernel is not a copy-on-write fault, so it panics.  Reading
    user strings takes [fuel]. *)

From S2P Require Import Prelude Bytes Pmm PmmBlocks PageAlloc KernelHeap Thread Sched Vfs Vmm Elf Process.
Open Scope Z_scope.

(** ** Data *)

Definition SYS_READ : Z := 0.
Definition SYS_WRITE : Z := 1.
Definition SYS_OPEN : Z := 2.
Definition SYS_CLOSE : Z := 3.
Definition SYS_MMAP : Z := 9.
Definition SYS_MPROTECT : Z := 10.
Definition SYS_MUNMAP : Z := 11.
Definition SYS_SCHED_YIELD : Z := 24.
Definition SYS_GETPID : Z := 39.
Definition SYS_FORK : Z := 57.
Definition SYS_EXECVE : Z := 59.
Definition SYS_EXIT : Z := 60.
Definition SYS_GETPPID : Z := 110.

(** Positions of the frame's fields. *)
Definition R10 : nat := 5.
Definition R9 : nat := 6.
Definition R8 : nat := 7.
Definition RDI : nat := 9.
Definition RSI : nat := 10.
Definition RDX : nat := 11.
Definition RCX : nat := 12.
Definition RAX : nat := 14.
Definition RIP : nat := 17.
Definition CS : nat := 18.
Definition RFLAGS : nat := 19.
Definition RSP : nat := 20.
Definition SS : nat := 21.

Abbreviation frame := (list Z).

(** How a system call ends: a value for the caller, a jump to user mode with a
    frame, a halt, or a switch of threads before the value. *)
Inductive sys_result :=
  | Return (v : Z)
  | EnterUser (f : frame)
  | Halted
  | Yielded (r : sched_result) (v : Z).

Definition MINUS_ONE : Z := u64 (-1).

Record kernel (H PA : Type) := mkKernel {
  k_procs : procs H PA;
  k_threads : machine PA;
  k_vfs : vfs H PA;
  k_out : list Z
}.
Arguments mkKernel {H PA}.
Arguments k_procs {H PA} _.
Arguments k_threads {H PA} _.
Arguments k_vfs {H PA} _.
Arguments k_out {H PA} _.

Definition set_p_fork_frame (f : frame) (r : Process) : Process :=
  mkProcess (p_pid r) (p_ppid r) (p_state r) (p_addr_space r) (p_main_thread r) (p_uid r) (p_gid r) (p_euid r) (p_egid r)
    (p_cpu_time_ns r) f (p_next r).
Definition set_p_main_thread (t : option nat) (r : Process) : Process :=
  mkProcess (p_pid r) (p_ppid r) (p_state r) (p_addr_space r) t (p_uid r) (p_gid r) (p_euid r) (p_egid r)
    (p_cpu_time_ns r) (p_fork_frame r) (p_next r).
Definition set_p_addr_space (a : option Z) (r : Process) : Process :=
  mkProcess (p_pid r) (p_ppid r) (p_state r) a (p_main_thread r) (p_uid r) (p_gid r) (p_euid r) (p_egid r)
    (p_cpu_time_ns r) (p_fork_frame r) (p_next r).

Section syscall.
Context {H PA : Type} `{!KernelHeap H} `{!PageAllocator PA}.
Context (lay : code_layout) (xlate : bool → vmm H PA → Z → option Z) (fuel : nat).
Abbreviation K := (M (kernel H PA)).

(** ** Calls into the components *)

Definition k_vm (k : kernel H PA) : vmm H PA := ps_vm (k_procs k).
Definition set_k_vm (v : vmm H PA) (k : kernel H PA) : kernel H PA :=
  mkKernel (set_ps_vm v (k_procs k)) (k_threads k) (k_vfs k) (k_out k).

Definition proc_op {A} (op : M (procs H PA) A) : K A := λ k,
  match op (k_procs k) with
  | Ok (a, p) => Ok (a, mkKernel p (k_threads k) (k_vfs k) (k_out k))
  | Panic msg => Panic msg
  | UB => UB
  end.
Definition vm_op {A} (op : M (vmm H PA) A) : K A := proc_op (ps_op op).

(** The threads with the shared allocator. *)
Definition threads_of (k : kernel H PA) : machine PA := set_m_pages (vm_pages (k_vm k)) (k_threads k).
Definition thread_op {A} (op : M (machine PA) A) : K A := λ k,
  match op (threads_of k) with
  | Ok (a, m) => Ok (a, mkKernel (set_ps_vm (set_vm_pages (m_pages m) (k_vm k)) (k_procs k)) m (k_vfs k) (k_out k))
  | Panic msg => Panic msg
  | UB => UB
  end.

(** The file system with the shared heap, allocator and memory. *)
Definition vfs_of (k : kernel H PA) : vfs H PA :=
  set_v_mem (vm_mem (k_vm k)) (set_v_pages (vm_pages (k_vm k)) (set_v_heap (vm_heap (k_vm k)) (k_vfs k))).
Definition vfs_op {A} (op : M (vfs H PA) A) : K A := λ k,
  match op (vfs_of k) with
  | Ok (a, v) =>
    Ok (a, mkKernel (set_ps_vm (set_vm_mem (v_mem v) (set_vm_pages (v_pages v) (set_vm_heap (v_heap v) (k_vm k)))) (k_procs k))
          (k_threads k) v (k_out k))
  | Panic msg => Panic msg
  | UB => UB
  end.

(** [proc::proc_current()]: the process of the running thread. *)
Definition current_process : K (option Z) :=
  k ← get;
  mret (proc_current (kCurrentThread (k_threads k) ≫= λ t, kTcbPool (k_threads k) !! t)).

(** ** User memory *)

Definition user_load (a : Z) : K Z :=
  k ← get;
  match xlate false (k_vm k) a with
  | None => panic "Page Fault"
  | Some p => mret (vm_mem (k_vm k) p)
  end.
Definition user_store (a v : Z) : K () :=
  k ← get;
  match xlate true (k_vm k) a with
  | None => panic "Page Fault"
  | Some p => modify (λ k, set_k_vm (set_vm_mem (<[p := v]> (vm_mem (k_vm k))) (k_vm k)) k)
  end.

Fixpoint user_load_bytes (n : nat) (a : Z) : K (list Z) :=
  match n with
  | O => mret []
  | S n => b ← user_load a; bs ← user_load_bytes n (a + 1); mret (b :: bs)
  end.
Fixpoint user_store_bytes (a : Z) (bs : list Z) : K () :=
  match bs with
  | [] => mret ()
  | b :: bs => user_store a b;; user_store_bytes (a + 1) bs
  end.
Definition user_load64 (a : Z) : K Z := bs ← user_load_bytes 8 a; mret (le_value bs).
Definition user_store64 (a v : Z) : K () := user_store_bytes a (le_bytes 8 v).

(** ** Calls that only report *)

Definition sys_read : K Z := mret 0.
Definition sys_open : K Z := mret 0.
Definition sys_close : K Z := mret 0.
Definition sys_mmap : K Z := mret 0.
Definition sys_munmap : K Z := mret 0.
Definition sys_mprotect : K Z := mret 0.

Definition sys_getpid : K Z :=
  p ← current_process;
  match p with None => mret 0 | Some p => r ← proc_op (read_proc p); mret (p_pid r) end.
Definition sys_getppid : K Z :=
  p ← current_process;
  match p with None => mret 0 | Some p => r ← proc_op (read_proc p); mret (p_ppid r) end.

(** One byte to port 0x3F8 at a time. *)
Fixpoint write_loop (n : nat) (buf : Z) : K () :=
  match n with
  | O => mret ()
  | S n =>
    c ← user_load buf;
    modify (λ k, mkKernel (k_procs k) (k_threads k) (k_vfs k) (k_out k ++ [c]));;
    write_loop n (buf + 1)
  end.
Definition sys_write (fd buf count : Z) : K Z :=
  if (fd =? 1) || (fd =? 2) then write_loop (Z.to_nat count) buf;; mret count else mret count.

(** ** fork *)

Definition fork_child_entry : K sys_result :=
  p ← current_process;
  match p with
  | None => mret Halted
  | Some p =>
    r ← proc_op (read_proc p);
    a ← deref (p_addr_space r);
    vm_op (vmm_switch_address_space a);;
    mret (EnterUser (p_fork_frame r))
  end.

(** [fork_child_addr] is the address of [fork_child_entry]; [raw] what the fresh
    process object holds. *)
Definition sys_fork (fork_child_addr : Z) (raw : Process) (f : frame) : K Z :=
  p ← current_process;
  match p with
  | None => mret MINUS_ONE
  | Some parent =>
    c ← proc_op (proc_create_from_parent raw parent);
    match c with
    | None => mret MINUS_ONE
    | Some child =>
      proc_op (write_proc child (set_p_fork_frame f));;
      proc_op (write_proc child (λ r, set_p_fork_frame (<[RAX := 0]> (p_fork_frame r)) r));;
      t ← thread_op (kthread_create lay fork_child_addr "child" 0);
      match t with
      | None => proc_op (proc_destroy child);; mret MINUS_ONE
      | Some tcb =>
        thread_op (write_tcb tcb (set_t_process (Some child)));;
        proc_op (write_proc child (set_p_main_thread (Some (Z.to_nat tcb))));;
        thread_op (enqueue_thread tcb);;
        r ← proc_op (read_proc child);
        mret (p_pid r)
      end
    end
  end.

(** ** execve *)

(** [while (arr[n]) ++n] *)
Fixpoint count_pointers (fuel : nat) (arr n : Z) : K Z :=
  match fuel with
  | O => undefined
  | S fuel => w ← user_load64 (arr + 8 * n); if w =? 0 then mret n else count_pointers fuel arr (n + 1)
  end.

(** [do { c = str[len]; ++len; } while (c != 0)] *)
Fixpoint string_length (fuel : nat) (str len : Z) : K Z :=
  match fuel with
  | O => undefined
  | S fuel => c ← user_load (str + len); if c =? 0 then mret (len + 1) else string_length fuel str (len + 1)
  end.

Fixpoint copy_user (n : nat) (src dst : Z) : K () :=
  match n with
  | O => mret ()
  | S n => c ← user_load src; user_store dst c;; copy_user n (src + 1) (dst + 1)
  end.

(** The strings of [arr] from index [i], [n] of them, below [sp]; their addresses
    go to [ptrs]. *)
Fixpoint push_strings (n : nat) (arr ptrs i sp : Z) : K Z :=
  match n with
  | O => mret sp
  | S n =>
    str ← user_load64 (arr + 8 * i);
    len ← string_length fuel str 0;
    let sp := Z.land (sp -64 (len + 1)) (u64 (Z.lnot 15)) in
    copy_user (S (Z.to_nat len)) str sp;;
    user_store64 (ptrs + 8 * i) sp;;
    push_strings n arr ptrs (i + 1) sp
  end.

(** [for (i = n; i > 0; --i) { sp -= 8; *sp = ptrs[i - 1]; }] *)
Fixpoint push_pointers (n : nat) (ptrs sp : Z) : K Z :=
  match n with
  | O => mret sp
  | S n =>
    let sp := sp -64 8 in
    w ← user_load64 (ptrs + 8 * Z.of_nat n);
    user_store64 sp w;;
    push_pointers n ptrs sp
  end.

Definition setup_user_stack (stack_top argv envp : Z) : K Z :=
  argc ← (if argv =? 0 then mret 0 else count_pointers fuel argv 0);
  envc ← (if envp =? 0 then mret 0 else count_pointers fuel envp 0);
  let argv_ptrs := stack_top in
  sp ← (if (0 <? argc) && negb (argv =? 0) then push_strings (Z.to_nat argc) argv argv_ptrs 0 stack_top else mret stack_top);
  let envp_ptrs := sp in
  sp ← (if (0 <? envc) && negb (envp =? 0) then push_strings (Z.to_nat envc) envp envp_ptrs 0 sp else mret sp);
  let sp := sp -64 8 in
  user_store64 sp 0;;
  sp ← push_pointers (Z.to_nat envc) envp_ptrs sp;
  let sp := sp -64 8 in
  user_store64 sp 0;;
  sp ← push_pointers (Z.to_nat argc) argv_ptrs sp;
  let sp := sp -64 8 in
  user_store64 sp (sp +64 8);;
  let sp := sp -64 8 in
  user_store64 sp argc;;
  mret sp.

(** The path, at most 255 bytes with its terminator. *)
Fixpoint copy_path (n : nat) (path : Z) : K string :=
  match n with
  | O => mret EmptyString
  | S n =>
    c ← user_load path;
    if c =? 0 then mret EmptyString
    else rest ← copy_path n (path + 1); mret (String (Ascii.ascii_of_N (Z.to_N c)) rest)
  end.

Definition STACK_BASE : Z := 0x00007FFFFFF00000.

(** The stack pages [i], [i + 1], ...; [false] when there is no memory. *)
Fixpoint map_stack (n : nat) (a i : Z) : K bool :=
  match n with
  | O => mret true
  | S n =>
    phys ← vm_op (vm_page_op (pa_alloc 1));
    if phys =? 0 then mret false
    else
      _ ← vm_op (vmm_map_page a (STACK_BASE - (i + 1) * PAGE_SIZE) phys (Z.lor PAGE_USER PAGE_WRITE));
      map_stack n a (i + 1)
  end.

(** The frame execve returns to user mode with. *)
Definition exec_frame (entry user_sp : Z) (f : frame) : frame :=
  <[RFLAGS := 0x202]> (<[SS := 0x1B]> (<[CS := 0x1B]> (<[RAX := 0]> (<[RSP := user_sp]> (<[RIP := entry]> f))))).

(** From the loaded file on. *)
Definition exec_image (proc : Z) (f : frame) (argv envp elf_data : Z) (image : list Z) : K sys_result :=
  new_as ← vm_op vmm_create_address_space;
  match new_as with
  | None => vm_op (vm_heap_op (kfree elf_data));; mret (Return 0)
  | Some new_as =>
    vm_op (vmm_switch_address_space new_as);;
    r ← proc_op (read_proc proc);
    old_as ← deref (p_addr_space r);
    entry ← vm_op (elf_load old_as image);
    vm_op (vm_heap_op (kfree elf_data));;
    if entry =? 0 then vm_op (vmm_destroy_address_space new_as);; mret (Return 0)
    else
      vm_op (vmm_destroy_address_space old_as);;
      proc_op (write_proc proc (set_p_addr_space (Some new_as)));;
      ok ← map_stack 4 new_as 0;
      if negb ok then mret (Return 0)
      else
        user_sp ← setup_user_stack STACK_BASE argv envp;
        mret (EnterUser (exec_frame entry user_sp f))
  end.

Definition sys_execve_impl (f : frame) : K sys_result :=
  path ← deref (f !! RDI); argv ← deref (f !! RSI); envp ← deref (f !! RDX);
  p ← current_process;
  match p with
  | None => mret Halted
  | Some proc =>
    if path =? 0 then mret (Return 0)
    else
      kernel_path ← copy_path 255 path;
      node ← vfs_op (vfs_open (Some kernel_path));
      match node with
      | None => mret (Return 0)
      | Some node =>
        n ← vfs_op (read_node node);
        if negb (bool_decide (n_type n = FILE)) then mret (Return 0)
        else
          let file_size := n_size n in
          if (file_size =? 0) || (1024 * 1024 <? file_size) then mret (Return 0)
          else
            elf_data ← vm_op (vm_heap_op (kmalloc file_size));
            if elf_data =? 0 then mret (Return 0)
            else
              ops ← deref (n_ops n);
              read ← deref (ops_read ops);
              '(bytes_read, image) ← vfs_op (read (Some node) 0 file_size (Some (Z.to_nat file_size)));
              if negb (bytes_read =? file_size) then vm_op (vm_heap_op (kfree elf_data));; mret (Return 0)
              else exec_image proc f argv envp elf_data image
      end
  end.

(** ** exit and yield *)

Definition sys_exit : K sys_result := thread_op thread_exit;; mret Halted.
Definition sys_sched_yield : K sys_result := r ← thread_op (yield lay); mret (Yielded r 0).

(** ** Dispatch *)

Definition returns (m : K Z) : K sys_result := v ← m; mret (Return v).

Definition syscall_handler (fork_child_addr : Z) (raw : Process) (f : frame) : K sys_result :=
  num ← deref (f !! RAX); arg1 ← deref (f !! RDI); arg2 ← deref (f !! RSI); arg3 ← deref (f !! RDX);
  if num =? SYS_READ then returns sys_read
  else if num =? SYS_WRITE then returns (sys_write arg1 arg2 arg3)
  else if num =? SYS_OPEN then returns sys_open
  else if num =? SYS_CLOSE then returns sys_close
  else if num =? SYS_GETPID then returns sys_getpid
  else if num =? SYS_GETPPID then returns sys_getppid
  else if num =? SYS_FORK then returns (sys_fork fork_child_addr raw f)
  else if num =? SYS_EXECVE then sys_execve_impl f
  else if num =? SYS_EXIT then sys_exit
  else if num =? SYS_MMAP then returns sys_mmap
  else if num =? SYS_MUNMAP then returns sys_munmap
  else if num =? SYS_MPROTECT then returns sys_mprotect
  else if num =? SYS_SCHED_YIELD then sys_sched_yield
  else mret (Return MINUS_ONE).
End syscall.

(** ** The assembly entry *)

(** The user's registers at the [syscall] instruction. *)
Record user_regs := mkUser {
  u_r15 : Z; u_r14 : Z; u_r13 : Z; u_r12 : Z; u_r11 : Z; u_r10 : Z; u_r9 : Z; u_r8 : Z;
  u_rbp : Z; u_rdi : Z; u_rsi : Z; u_rdx : Z; u_rcx : Z; u_rbx : Z; u_rax : Z; u_rsp : Z; u_rip : Z
}.

(** What [syscall_entry] builds: the instruction has put the return address in
    rcx and the flags in r11; rax is used to move the user stack pointer before it
    is pushed, and the words for cs and rip are in the opposite order of the
    structure. *)
Definition syscall_entry_frame (flags : Z) (u : user_regs) : frame :=
  [u_r15 u; u_r14 u; u_r13 u; u_r12 u; flags; u_r10 u; u_r9 u; u_r8 u; u_rbp u; u_rdi u; u_rsi u; u_rdx u;
   u_rip u; u_rbx u; u_rsp u; 0x80; 0; 0x1B; u_rip u; flags; u_rsp u; 0x1B].

(** [syscall_child_return]: the registers are popped and [sysret] takes rip from
    rcx; the stack pointer stays where the frame ended. *)
Definition child_return_rip (f : frame) : option Z := f !! RCX.

(** [syscall_entry] after the handler: rax is popped from the frame. *)
Definition syscall_return_rax (f : frame) : option Z := f !! RAX.
