(* ===== verification/SyscallInv.v ===== *)
(** * What the components keep for each other

    A system call runs in several components; these lemmas say that what one
    changes does not break the invariant of another: the process code keeps the
    free frames inside the direct map, which the stacks of new threads rely on,
    and fields the lists do not use may be written. *)

From S2P Require Import Prelude LinkedList Bytes Pmm PmmBlocks PageAlloc KernelHeap Thread Sched SchedInv SchedPick Switch SchedRefine SchedRun.
From S2P Require Import Vfs Vmm VmmInv Elf Process ProcInv Syscall.
Open Scope Z_scope.

Section keep.
Context {H PA : Type} `{!KernelHeap H} `{!PageAllocator PA}.

(** The free frames are inside the direct map. *)
Definition pages_good (pa : PA) : Prop := ∃ F A,
  pa_inv pa F A ∧ 0 ≤ pa_hhdm pa ∧ ∀ x, x ∈ F → (x + 1) * PAGE_SIZE + pa_hhdm pa < 2 ^ 64.

Definition good_vm {A} (m : M (vmm H PA) A) : Prop :=
  ∀ v, pages_good (vm_pages v) → wlp m (λ _ v', pages_good (vm_pages v')) v.

Lemma good_bind {A B} (m : M (vmm H PA) A) (k : A → M (vmm H PA) B) : good_vm m → (∀ a, good_vm (k a)) → good_vm (m ≫= k).
Proof. intros Hm Hk v Hv. apply wlp_bind. eapply wlp_mono; [by apply Hm|]. intros a v' Hv'. by apply Hk. Qed.
Lemma good_ret {A} (a : A) : good_vm (mret a).
Proof. intros v Hv. by apply wlp_ret. Qed.
Lemma good_get : good_vm get.
Proof. intros v Hv. by apply wlp_get. Qed.
Lemma good_gets {A} (f : vmm H PA → A) : good_vm (gets f).
Proof. by intros v Hv. Qed.
Lemma good_deref {A} (o : option A) : good_vm (deref o).
Proof. intros v Hv. by apply wlp_deref. Qed.
Lemma good_undefined {A} : good_vm (@undefined (vmm H PA) A).
Proof. done. Qed.
Lemma good_write_entry t i x : good_vm (write_entry t i x).
Proof. by intros v Hv. Qed.
Lemma good_spaces f : good_vm (modify (λ s, set_vm_spaces (f s) s)).
Proof. by intros v Hv. Qed.
Lemma good_heap {A} (op : M H A) : good_vm (vm_heap_op op).
Proof. intros v Hv. unfold wlp, vm_heap_op. by destruct (op (vm_heap v)) as [[a h]| |]. Qed.

Lemma pages_good_alloc pa c r pa' : pages_good pa → 0 ≤ c ≤ 2 ^ 63 → pa_alloc c pa = Ok (r, pa') → pages_good pa'.
Proof.
  intros (F & A & Hi & Hh & HF) Hc E. destruct (wp_result _ _ _ _ _ (pa_alloc_spec pa F A c Hi Hc) E) as [Hp Eh].
  destruct Hp as [[-> ->]|(p & o & _ & _ & _ & Hi')]; [by exists F, A|].
  exists (F ∖ page_set [(p, o)]), ((p, o) :: A). rewrite Eh. split_and!; [done|done|]. intros x [Hx _]%elem_of_difference. by apply HF.
Qed.

Lemma good_alloc : good_vm (vm_page_op (pa_alloc 1)).
Proof.
  intros v Hv. unfold wlp, vm_page_op. destruct (pa_alloc 1 (vm_pages v)) as [[r pa]| |] eqn:E; [|done..].
  eapply pages_good_alloc; [exact Hv| |exact E]. lia.
Qed.
End keep.


Ltac good_tac :=
  repeat match goal with
  | |- good_vm (_ ≫= _) => apply good_bind; intros
  | |- good_vm (mret _) => apply good_ret
  | |- good_vm (gets _) => apply good_gets
  | |- good_vm (deref _) => apply good_deref
  | |- good_vm (write_entry _ _ _) => apply good_write_entry
  | |- good_vm (vm_heap_op _) => apply good_heap
  | |- good_vm (modify _) => apply good_spaces
  | |- good_vm get => apply good_get
  | |- good_vm undefined => apply good_undefined
  | |- good_vm (vm_page_op _) => apply good_alloc
  | |- good_vm (match ?x with _ => _ end) => destruct x
  end; try assumption.

Section procs.
Context {H PA : Type} `{!KernelHeap H} `{!PageAllocator PA}.

Lemma good_zero table n : good_vm (H := H) (PA := PA) (zero_entries table n).
Proof. induction n; cbn [zero_entries]; good_tac. Qed.

Lemma good_copy src dst n : ∀ i, good_vm (H := H) (PA := PA) (copy_entries src dst i n).
Proof. induction n; intros i; cbn [copy_entries]; unfold read_entry; good_tac; apply IHn. Qed.

Lemma good_create : good_vm (H := H) (PA := PA) vmm_create_address_space.
Proof.
  unfold vmm_create_address_space, get_current_pml4, hhdm. good_tac;
    match goal with |- good_vm (zero_entries _ _) => apply good_zero | |- good_vm (copy_entries _ _ _ _) => apply good_copy end.
Qed.

Lemma good_level deeper src dst k is_ : (∀ f, deeper = Some f → ∀ a b, good_vm (f a b)) →
  good_vm (H := H) (PA := PA) (copy_level_loop deeper src dst k is_).
Proof.
  intros Hd. induction is_ as [|i is_ IH]; cbn [copy_level_loop]; [apply good_ret|].
  unfold hhdm, read_entry. destruct deeper as [copy|]; good_tac; apply Hd || apply IH; done.
Qed.

Lemma good_levels n : ∀ k src dst, good_vm (H := H) (PA := PA) (copy_page_table_level n k src dst).
Proof.
  induction n as [|n IH]; intros k src dst; cbn [copy_page_table_level]; apply good_level; [done|].
  intros f [= <-] a b. apply IH.
Qed.

Lemma good_clone src : good_vm (H := H) (PA := PA) (vmm_clone_address_space src).
Proof.
  unfold vmm_clone_address_space, read_space, vmm_destroy_address_space. good_tac;
    match goal with |- good_vm vmm_create_address_space => apply good_create | |- _ => apply good_levels end.
Qed.

(** The same for process code. *)
Definition good_ps {A} (m : M (procs H PA) A) : Prop :=
  ∀ s, pages_good (vm_pages (ps_vm s)) → wlp m (λ _ s', pages_good (vm_pages (ps_vm s'))) s.

Lemma good_ps_bind {A B} (m : M (procs H PA) A) (k : A → M (procs H PA) B) : good_ps m → (∀ a, good_ps (k a)) → good_ps (m ≫= k).
Proof. intros Hm Hk v Hv. apply wlp_bind. eapply wlp_mono; [by apply Hm|]. intros a v' Hv'. by apply Hk. Qed.
Lemma good_ps_op {A} (op : M (vmm H PA) A) : good_vm op → good_ps (ps_op op).
Proof.
  intros Ho s Hs. specialize (Ho _ Hs). unfold wlp, ps_op in *. by destruct (op (ps_vm s)) as [[a v]| |].
Qed.
Lemma good_read_proc p : good_ps (read_proc p).
Proof. intros s Hs. apply wlp_bind, wlp_get, wlp_deref. done. Qed.
Lemma good_write_proc p f : good_ps (write_proc p f).
Proof. apply good_ps_bind; [apply good_read_proc|]. by intros a s Hs. Qed.

Lemma good_ps_ret {A} (a : A) : good_ps (mret a).
Proof. by intros s Hs. Qed.
Lemma good_next_pid : good_ps next_pid.
Proof. by intros s Hs. Qed.
Lemma good_free_process p : good_ps (free_process p).
Proof. apply good_ps_bind; [apply good_ps_op, good_heap|]. by intros [] s Hs. Qed.
Lemma good_new_process raw : good_ps (new_process raw).
Proof.
  unfold new_process. apply good_ps_bind; [apply good_ps_op, good_heap|]. intros p. case_if; [apply good_ps_ret|].
  apply good_ps_bind; [by intros s Hs|]. intros []. apply good_ps_ret.
Qed.
Lemma good_proc_add p : good_ps (proc_add p).
Proof.
  unfold proc_add. apply good_ps_bind; [by intros s Hs|]. intros s0. apply good_ps_bind; [apply good_write_proc|]. by intros [] s Hs.
Qed.

Lemma good_proc_create raw : good_ps (proc_create raw).
Proof.
  unfold proc_create. apply good_ps_bind; [apply good_new_process|]. intros [p|]; [|apply good_ps_ret].
  apply good_ps_bind; [apply good_next_pid|]. intros pid. apply good_ps_bind; [apply good_ps_op, good_create|]. intros a.
  apply good_ps_bind; [apply good_write_proc|]. intros []. destruct a.
  - apply good_ps_bind; [apply good_proc_add|]. intros []. apply good_ps_ret.
  - apply good_ps_bind; [apply good_free_process|]. intros []. apply good_ps_ret.
Qed.

Lemma good_proc_create_from_parent raw parent : good_ps (proc_create_from_parent raw parent).
Proof.
  unfold proc_create_from_parent. apply good_ps_bind; [apply good_new_process|]. intros [c|]; [|apply good_ps_ret].
  apply good_ps_bind; [apply good_next_pid|]. intros pid. apply good_ps_bind; [apply good_read_proc|]. intros pr.
  apply good_ps_bind; [destruct (p_addr_space pr); [apply good_ps_op, good_clone|done]|]. intros a.
  apply good_ps_bind; [apply good_write_proc|]. intros []. destruct a.
  - apply good_ps_bind; [apply good_write_proc|]. intros []. apply good_ps_bind; [apply good_proc_add|]. intros []. apply good_ps_ret.
  - apply good_ps_bind; [apply good_free_process|]. intros []. apply good_ps_ret.
Qed.

(** Fields the process list does not use. *)
Lemma procs_inv_write (s : procs H PA) L l p r f : procs_inv s L l → ps_objs s !! p = Some r →
  p_next (f r) = p_next r → p_addr_space (f r) = p_addr_space r → p_pid (f r) = p_pid r →
  procs_inv (set_ps_objs (<[p := f r]> (ps_objs s)) s) L l.
Proof.
  intros [] Hr E1 E2 E3. set (m' := <[p := f r]> (ps_objs s)).
  assert (Hv : ∀ a r', m' !! a = Some r' → ∃ r0, ps_objs s !! a = Some r0 ∧ p_addr_space r' = p_addr_space r0 ∧ p_pid r' = p_pid r0).
  { intros a r'. unfold m'. destruct (decide (a = p)) as [->|]; [rewrite lookup_insert_eq; intros [= <-]; eauto|].
    rewrite lookup_insert_ne by done. eauto. }
  split; cbn [ps_vm ps_objs kNextPid kProcessList kProcessCount set_ps_objs]; try done.
  - eapply lseg_ext, pv_chain. intros a _. unfold pnext, m'. destruct (decide (a = p)) as [->|]; [|by rewrite lookup_insert_ne].
    rewrite lookup_insert_eq, Hr. done.
  - intros a. rewrite <-pv_dom. unfold m'. destruct (decide (a = p)) as [->|]; [|by rewrite lookup_insert_ne].
    rewrite lookup_insert_eq, Hr. split; by eexists.
  - intros a r' (r0 & H0 & E & _)%Hv. rewrite E. by eapply pv_as.
  - intros a r' (r0 & H0 & _ & ->)%Hv. by eapply pv_pids.
  - intros a b ra rb (ra0 & Ha & _ & ->)%Hv (rb0 & Hb & _ & ->)%Hv. by eapply pv_unique.
Qed.
End procs.

Section threads.
Context {PA : Type} `{!PageAllocator PA}.
Implicit Types m : machine PA.

(** A thread outside the queues gets its process. *)
Lemma kernel_inv_write_process m Q cur idle t b p : kernel_inv m Q cur idle → kTcbPool m !! t = Some b → t ∉ all_ready Q →
  kernel_inv (set_kTcbPool (<[t := set_t_process p b]> (kTcbPool m)) m) Q cur idle.
Proof.
  intros [Hs Hok Hix Hcr Hpg] Hb Ht. set (m' := set_kTcbPool _ m).
  assert (Hv : ∀ u bu, kTcbPool m' !! u = Some bu → ∃ b0, kTcbPool m !! u = Some b0 ∧ t_priority bu = t_priority b0 ∧ t_context bu = t_context b0).
  { intros u bu. cbn [m' kTcbPool set_kTcbPool]. destruct (decide (u = t)) as [->|]; [rewrite lookup_insert_eq; intros [= <-]; eauto|].
    rewrite lookup_insert_ne by done. eauto. }
  assert (Hsome : ∀ u, is_Some (kTcbPool m !! u) → is_Some (kTcbPool m' !! u)).
  { intros u Hu. cbn [m' kTcbPool set_kTcbPool]. destruct (decide (u = t)) as [->|]; [rewrite lookup_insert_eq; by eexists|by rewrite lookup_insert_ne]. }
  split; [split| |done|done|done].
  - apply (queues_inv_write m Q t b (set_t_process p)); [apply Hs|done|done].
  - apply Hs.
  - apply Hs.
  - exact (Hsome _ (si_cur_tcb _ _ _ _ Hs)).
  - exact (Hsome _ (si_idle_tcb _ _ _ _ Hs)).
  - apply Hs.
  - intros u bu (b0 & Hb0 & -> & _)%Hv. by eapply (si_prio _ _ _ _ Hs).
  - destruct Hok as [H1 H2]. split; [done|]. intros u bu (b0 & Hb0 & _ & ->)%Hv. by eapply H2.
Qed.
End threads.
