(* ===== verification/SyscallTheorems.v ===== *)
(** * System calls: properties *)

From S2P Require Import Prelude LinkedList Bytes Pmm PmmBlocks PageAlloc KernelHeap Thread Sched SchedInv SchedPick Switch SchedRefine SchedRun.
From S2P Require Import Vfs Vmm VmmInv VmmTheorems Elf Process ProcInv ProcTheorems PmmTheorems SchedTheorems Syscall SyscallInv.
Open Scope Z_scope.

(** ** Runs that may stop with a known panic *)

Definition wp_or_panic {S A} (msg : string) (m : M S A) (Q : A → S → Prop) (s : S) : Prop :=
  match m s with Ok (a, s') => Q a s' | Panic e => e = msg | UB => False end.

Lemma wpp_wp {S A} msg (m : M S A) (Q : A → S → Prop) s : wp m Q s → wp_or_panic msg m Q s.
Proof. unfold wp, wp_or_panic. by destruct (m s) as [[? ?]| |]. Qed.

Lemma wpp_bind {S A B} msg (m : M S A) (k : A → M S B) (Q : B → S → Prop) s :
  wp_or_panic msg m (λ a, wp_or_panic msg (k a) Q) s → wp_or_panic msg (m ≫= k) Q s.
Proof. unfold wp_or_panic, mbind, M_bind. by destruct (m s) as [[? ?]| |]. Qed.

Section syscalls.
Context {H PA : Type} `{!KernelHeap H} `{!PageAllocator PA}.
Context (lay : code_layout) (xlate : bool → vmm H PA → Z → option Z) (fuel : nat).
Implicit Types k : kernel H PA.

Lemma wp_proc_op {A} (op : M (procs H PA) A) k (R : A → kernel H PA → Prop) :
  wp op (λ a p, R a (mkKernel p (k_threads k) (k_vfs k) (k_out k))) (k_procs k) → wp (proc_op op) R k.
Proof. unfold wp, proc_op. by destruct (op (k_procs k)) as [[a p]| |]. Qed.

(** The state after a thread operation. *)
Definition with_threads k (m : machine PA) : kernel H PA :=
  mkKernel (set_ps_vm (set_vm_pages (m_pages m) (k_vm k)) (k_procs k)) m (k_vfs k) (k_out k).

Lemma wp_thread_op {A} (op : M (machine PA) A) k (R : A → kernel H PA → Prop) :
  wp op (λ a m, R a (with_threads k m)) (threads_of k) → wp (thread_op op) R k.
Proof. unfold wp, thread_op. by destruct (op (threads_of k)) as [[a m]| |]. Qed.

Lemma threads_of_with k m : threads_of (with_threads k m) = m.
Proof. by destruct m. Qed.

(** Both components' invariants, over the shared allocator. *)
Record sys_inv k (L : gset Z) (l : list Z) (Q : nat → list Z) (cur idle : Z) : Prop := {
  sy_procs : procs_inv (k_procs k) L l;
  sy_threads : kernel_inv (threads_of k) Q cur idle
}.

Lemma sys_good k L l Q cur idle : sys_inv k L l Q cur idle → pages_good (vm_pages (k_vm k)).
Proof. intros [_ Ht]. exact (ki_pages _ _ _ _ Ht). Qed.

(** A process step that keeps the frames keeps the threads. *)
Lemma threads_kept k Q cur idle (p : procs H PA) : kernel_inv (threads_of k) Q cur idle → pages_good (vm_pages (ps_vm p)) →
  kernel_inv (threads_of (mkKernel p (k_threads k) (k_vfs k) (k_out k))) Q cur idle.
Proof. intros Hk Hp. apply (kernel_inv_pages (threads_of k) Q cur idle _ Hk Hp). Qed.

Lemma procs_pages (s : procs H PA) L l pa : procs_inv s L l → pages_good pa →
  procs_inv (set_ps_vm (set_vm_pages pa (ps_vm s)) s) L l.
Proof. intros [] (F & A & Hi & _). by split; [..|]; try done; exists F, A. Qed.

Lemma current_process_ok k cur b (R : option Z → kernel H PA → Prop) :
  kCurrentThread (k_threads k) = Some cur → kTcbPool (k_threads k) !! cur = Some b →
  R (t_process b) k → wp current_process R k.
Proof. intros E1 E2 HR. unfold current_process. apply wp_bind, wp_get, wp_ret. rewrite E1. cbn [mbind option_bind]. by rewrite E2. Qed.

(** ** fork *)

(** What a successful [sys_fork] leaves: the child [c] and its thread [t]. *)
Definition forked k (l : list Z) (Q : nat → list Z) (cur idle : Z) (pr : Process) (f : frame) (v : Z) k' : Prop :=
  v = kNextPid (k_procs k) ∧ ∃ L' c t r b, sys_inv k' L' (c :: l) (<[O := Q O ++ [t]]> Q) cur idle ∧
    ps_objs (k_procs k') !! c = Some r ∧ p_pid r = v ∧ p_ppid r = p_pid pr ∧ p_uid r = p_uid pr ∧
    p_fork_frame r = <[RAX := 0]> f ∧ p_main_thread r = Some (Z.to_nat t) ∧
    kTcbPool (k_threads k') !! t = Some b ∧ t_process b = Some c ∧ t_priority b = 0.

Definition fork_failed k (l : list Z) (Q : nat → list Z) (cur idle : Z) (v : Z) k' : Prop :=
  v = MINUS_ONE ∧ (∃ L', sys_inv k' L' l Q cur idle) ∧
  ∀ a, pid_of (ps_objs (k_procs k')) a = pid_of (ps_objs (k_procs k)) a.

(** The process part of a creation, with the frame saved. *)
Lemma write_proc_ok (s : procs H PA) L l p r f (R : () → procs H PA → Prop) : procs_inv s L l → ps_objs s !! p = Some r →
  p_next (f r) = p_next r → p_addr_space (f r) = p_addr_space r → p_pid (f r) = p_pid r →
  (procs_inv (set_ps_objs (<[p := f r]> (ps_objs s)) s) L l → R () (set_ps_objs (<[p := f r]> (ps_objs s)) s)) →
  wp (write_proc p f) R s.
Proof.
  intros Hi Hr E1 E2 E3 HR. unfold write_proc, read_proc. apply wp_bind, wp_bind, wp_get. eapply wp_deref; [exact Hr|].
  apply wp_modify, HR. by apply procs_inv_write.
Qed.

(** The thread part: what is left of [sys_fork] once the child exists. *)
Definition fork_finish (child tcb : Z) : M (kernel H PA) Z :=
  thread_op (write_tcb tcb (set_t_process (Some child)));;
  proc_op (write_proc child (set_p_main_thread (Some (Z.to_nat tcb))));;
  thread_op (enqueue_thread tcb);;
  r ← proc_op (read_proc child);
  mret (p_pid r).

Lemma fork_finish_ok k L l Q cur idle child r t b : sys_inv k L (child :: l) Q cur idle →
  ps_objs (k_procs k) !! child = Some r → kTcbPool (k_threads k) !! t = Some b → t_priority b = 0 →
  0 ≤ t < kNextTcbIndex (k_threads k) → t ∉ all_ready Q → t ≠ cur →
  wp (fork_finish child t) (λ v k', v = p_pid r ∧ ∃ b', sys_inv k' L (child :: l) (<[O := Q O ++ [t]]> Q) cur idle ∧
    ps_objs (k_procs k') !! child = Some (set_p_main_thread (Some (Z.to_nat t)) r) ∧
    kTcbPool (k_threads k') !! t = Some b' ∧ t_process b' = Some child ∧ t_priority b' = 0) k.
Proof.
  intros [Hp Ht] Hr Hb Hprio Hix Hfr Hne. unfold fork_finish. apply wp_bind, wp_thread_op.
  eapply wp_write_tcb; [exact Hb|]. set (m1 := set_kTcbPool _ (threads_of k)).
  assert (Hk1 : kernel_inv m1 Q cur idle) by by apply kernel_inv_write_process.
  set (k1 := with_threads k m1). assert (Ek1 : threads_of k1 = m1) by apply threads_of_with.
  assert (Hp1 : procs_inv (k_procs k1) L (child :: l)) by (apply procs_pages; [done|exact (ki_pages _ _ _ _ Ht)]).
  apply wp_bind, wp_proc_op. eapply (write_proc_ok (k_procs k1)); [exact Hp1|exact Hr|done..|]. intros Hp2.
  set (k2 := mkKernel _ (k_threads k1) (k_vfs k1) (k_out k1)).
  assert (Ek2 : threads_of k2 = m1) by (unfold threads_of, k2; by cbn [k_procs k_vm k_threads ps_vm set_ps_objs]; rewrite <-Ek1).
  apply wp_bind, wp_thread_op. rewrite Ek2.
  eapply wp_mono; [apply (enqueue_thread_wp m1 Q cur idle t Hk1); [done|done|done]|].
  intros [] m3 (Hk3 & _ & Hst). set (k3 := with_threads k2 m3).
  assert (Epr : prio_of m1 t = O).
  { unfold prio_of, m1. cbn [kTcbPool set_kTcbPool]. rewrite lookup_insert_eq. cbn. by rewrite Hprio. }
  rewrite Epr in Hk3. apply wp_bind, wp_proc_op. unfold read_proc. apply wp_bind, wp_get.
  assert (Hr3 : ps_objs (k_procs k3) !! child = Some (set_p_main_thread (Some (Z.to_nat t)) r)) by apply lookup_insert_eq.
  eapply wp_deref; [exact Hr3|]. apply wp_ret. split; [done|].
  specialize (Hst t). cbn [m1 kTcbPool set_kTcbPool] in Hst. rewrite lookup_insert_eq in Hst.
  destruct (kTcbPool m3 !! t) as [b3|] eqn:Hb3; [|done].
  assert (Es : tcb_static b3 = tcb_static (set_t_process (Some child) b)) by by apply (inj Some).
  exists b3. split_and!.
  - split; [apply (procs_pages (k_procs k2)); [exact Hp2|exact (ki_pages _ _ _ _ Hk3)]|].
    change (kernel_inv (threads_of (with_threads k2 m3)) (<[O := Q O ++ [t]]> Q) cur idle). by rewrite threads_of_with.
  - exact Hr3.
  - exact Hb3.
  - exact (f_equal t_process Es).
  - rewrite <-Hprio. exact (f_equal t_priority Es).
Qed.
Definition NO_STACK : string := "kthread_create: out of memory for stack".

(** The thread for an existing child, or its destruction when the pool is full. *)
Lemma fork_thread_ok addr k k0 L l Q cur idle child r pr f : sys_inv k L (child :: l) Q cur idle →
  ps_objs (k_procs k) !! child = Some r → p_pid r = kNextPid (k_procs k0) → p_ppid r = p_pid pr → p_uid r = p_uid pr →
  p_fork_frame r = <[RAX := 0]> f →
  (∀ a, a ≠ child → pid_of (ps_objs (k_procs k)) a = pid_of (ps_objs (k_procs k0)) a) →
  pid_of (ps_objs (k_procs k0)) child = None →
  wp_or_panic NO_STACK
    (t ← thread_op (kthread_create lay addr "child" 0);
     match t with
     | None => proc_op (proc_destroy child);; mret MINUS_ONE
     | Some tcb => fork_finish child tcb
     end) (λ v k', fork_failed k0 l Q cur idle v k' ∨ forked k0 l Q cur idle pr f v k') k.
Proof.
  intros Hs Hr Epid Eppid Euid Eff Hold Hnew. pose proof (sy_threads _ _ _ _ _ _ Hs) as Hk.
  pose proof (kthread_create_cases lay (threads_of k) Q cur idle addr "child" 0 Hk) as Hout.
  apply wpp_bind. unfold wp_or_panic at 1, thread_op.
  destruct (kthread_create lay addr "child" 0 (threads_of k)) as [[[t|] m]|msg|] eqn:E.
  - destruct (created_inv lay (threads_of k) Q cur idle addr "child" 0 _ t m Hk ltac:(done) Hout eq_refl) as (Hk' & Et & Eix & b & Hb & Hprio & _).
    fold (with_threads k m). apply wpp_wp.
    pose proof (ki_created _ _ _ _ Hk) as (Hc & _ & Hall). pose proof (ki_index _ _ _ _ Hk) as Hix0.
    assert (Hs' : sys_inv (with_threads k m) L (child :: l) Q cur idle).
    { split; [apply procs_pages; [apply Hs|exact (ki_pages _ _ _ _ Hk')]|by rewrite threads_of_with]. }
    eapply wp_mono; [apply (fork_finish_ok (with_threads k m) L l Q cur idle child r t b Hs' Hr Hb Hprio)|].
    + change (k_threads (with_threads k m)) with m. lia.
    + intros Hin. specialize (Hall _ Hin). lia.
    + intros ->. lia.
    + intros v k' (-> & b' & Hi & Hr' & Hb' & Hbp & Hbq). right. split; [done|].
      exists L, child, t, (set_p_main_thread (Some (Z.to_nat t)) r), b'. by split_and!.
  - inversion Hout as [Hfull Em| |]. subst m. apply wpp_wp, wp_bind, wp_proc_op.
    assert (Hp' : procs_inv (k_procs (with_threads k (threads_of k))) L (child :: l)).
    { apply procs_pages; [apply Hs|exact (ki_pages _ _ _ _ Hk)]. }
    eapply wp_mono; [apply (proc_destroy_wp _ L (child :: l) child Hp'); by left|].
    intros [] p' (L' & l1 & l2 & El & Hi' & Evm & Hpid). apply wp_ret. left. split; [done|].
    assert (l1 = [] ∧ l2 = l) as [-> ->].
    { pose proof (chain_NoDup _ _ _ (pv_chain _ _ _ Hp')) as [Hn _]%NoDup_cons. destruct l1 as [|x l1]; [by injection El|].
      injection El as <- ->. exfalso. apply Hn. set_solver. }
    split.
    + exists L'. split; [exact Hi'|]. apply (threads_kept (with_threads k (threads_of k))).
      * by rewrite threads_of_with.
      * rewrite Evm. exact (ki_pages _ _ _ _ Hk).
    + intros a. cbn [k_procs]. rewrite Hpid. case_decide as Ea; [by subst|by apply Hold].
  - by inversion Hout.
  - by inversion Hout.
Qed.

Lemma sys_fork_ok addr raw f k L l Q cur idle bc parent pr : sys_inv k L l Q cur idle →
  kTcbPool (k_threads k) !! cur = Some bc → t_process bc = Some parent → ps_objs (k_procs k) !! parent = Some pr →
  kNextPid (k_procs k) + 1 < 2 ^ 32 →
  wp_or_panic NO_STACK (sys_fork lay addr raw f)
    (λ v k', fork_failed k l Q cur idle v k' ∨ forked k l Q cur idle pr f v k') k.
Proof.
  intros Hs Hbc Hproc Hpr Hpid. pose proof (sy_threads _ _ _ _ _ _ Hs) as Hk.
  unfold sys_fork. apply wpp_bind, wpp_wp. eapply current_process_ok; [exact (si_current _ _ _ _ (ki_sched _ _ _ _ Hk))|exact Hbc|].
  rewrite Hproc. apply wpp_bind, wpp_wp, wp_proc_op.
  destruct (proj1 (wp_ok _ _ _) (proc_create_from_parent_wp raw _ L l parent pr (sy_procs _ _ _ _ _ _ Hs) Hpid Hpr)) as (res & p1 & E & Hc).
  pose proof (wlp_result _ _ _ _ _ (good_proc_create_from_parent raw parent _ (sys_good _ _ _ _ _ _ Hs)) E) as Hg.
  apply (wp_eq _ _ _ _ _ E). pose proof (threads_kept k Q cur idle p1 Hk Hg) as Hk1.
  set (k1 := mkKernel p1 _ _ _) in *. destruct res as [c|].
  2:{ destruct Hc as (Eo & L' & Hi'). apply wpp_wp, wp_ret. left. split; [done|]. split; [by exists L'|]. intros a. cbn [k1 k_procs]. by rewrite Eo. }
  destruct Hc as (Hcl & (L1 & Hi1) & r & Eo & Er & Epp & _ & _ & Euid & _).
  assert (Hcnew : pid_of (ps_objs (k_procs k)) c = None).
  { unfold pid_of. destruct (ps_objs (k_procs k) !! c) eqn:Ec; [|done]. exfalso. apply Hcl, (pv_dom _ _ _ (sy_procs _ _ _ _ _ _ Hs)). by eexists. }
  apply wpp_bind, wpp_wp, wp_proc_op. eapply (write_proc_ok p1 L1 (c :: l) c r); [exact Hi1|by rewrite Eo, lookup_insert_eq|done..|].
  intros Hi2. apply wpp_bind, wpp_wp, wp_proc_op.
  eapply (write_proc_ok (set_ps_objs (<[c := set_p_fork_frame f r]> (ps_objs p1)) p1) L1 (c :: l) c (set_p_fork_frame f r));
    [exact Hi2|apply lookup_insert_eq|done..|].
  intros Hi3. set (r3 := set_p_fork_frame _ (set_p_fork_frame f r)) in *. set (p3 := set_ps_objs _ _) in *.
  apply (fork_thread_ok addr _ k L1 l Q cur idle c r3 pr f); [split; [exact Hi3|exact Hk1]|apply lookup_insert_eq|done|done|done|done| |done].
  intros a Ha. unfold pid_of. cbn [k_procs p3 ps_objs set_ps_objs]. by rewrite !lookup_insert_ne, Eo, lookup_insert_ne by done.
Qed.
(** ** The arguments of execve

    [P] is any property of the virtual memory that says where the stack ends:
    kept by every write to user memory, and without a translation of the first
    address above the stack. *)

Section arguments.
Context (P : vmm H PA → Prop).
Context (P_store : ∀ v a p x, P v → xlate true v a = Some p → P (set_vm_mem (<[p := x]> (vm_mem v)) v)).
Context (P_top : ∀ v, P v → xlate true v STACK_BASE = None).

Definition keeps_user {A} (m : M (kernel H PA) A) : Prop := ∀ k, P (k_vm k) → wlp m (λ _ k', P (k_vm k')) k.

Lemma keeps_user_bind {A B} (m : M (kernel H PA) A) (g : A → M (kernel H PA) B) :
  keeps_user m → (∀ a, keeps_user (g a)) → keeps_user (m ≫= g).
Proof. intros Hm Hg k Hk. apply wlp_bind. eapply wlp_mono; [by apply Hm|]. intros a k' Hk'. by apply Hg. Qed.

Lemma keeps_user_ret {A} (a : A) : keeps_user (mret a).
Proof. intros k Hk. by apply wlp_ret. Qed.

Lemma keeps_user_load a : keeps_user (user_load xlate a).
Proof. intros k Hk. apply wlp_bind, wlp_get. destruct (xlate false (k_vm k) a); [by apply wlp_ret|done]. Qed.

Lemma keeps_user_store a x : keeps_user (user_store xlate a x).
Proof.
  intros k Hk. apply wlp_bind, wlp_get. destruct (xlate true (k_vm k) a) as [p|] eqn:E; [|done].
  apply wlp_modify. by apply (P_store (k_vm k) a).
Qed.

Lemma keeps_user_load64 a : keeps_user (user_load64 xlate a).
Proof.
  apply keeps_user_bind; [|intros; apply keeps_user_ret]. generalize 8%nat as n. intros n. revert a.
  induction n as [|n IH]; intros a; [apply keeps_user_ret|]. cbn [user_load_bytes].
  apply keeps_user_bind; [apply keeps_user_load|]. intros b. apply keeps_user_bind; [apply IH|]. intros. apply keeps_user_ret.
Qed.

Lemma keeps_user_count arr : ∀ n i, keeps_user (count_pointers xlate n arr i).
Proof.
  induction n as [|n IH]; intros i; cbn [count_pointers]; [done|]. apply keeps_user_bind; [apply keeps_user_load64|].
  intros w. case_if; [apply keeps_user_ret|apply IH].
Qed.

Lemma keeps_user_length str : ∀ n len, keeps_user (string_length xlate n str len).
Proof.
  induction n as [|n IH]; intros len; cbn [string_length]; [done|]. apply keeps_user_bind; [apply keeps_user_load|].
  intros c. case_if; [apply keeps_user_ret|apply IH].
Qed.

Lemma keeps_user_copy n : ∀ src dst, keeps_user (copy_user xlate n src dst).
Proof.
  induction n as [|n IH]; intros src dst; cbn [copy_user]; [apply keeps_user_ret|].
  apply keeps_user_bind; [apply keeps_user_load|]. intros c. apply keeps_user_bind; [apply keeps_user_store|]. intros _. apply IH.
Qed.

(** The first string's address is stored at the first address above the stack. *)
Lemma push_strings_faults n arr sp k : P (k_vm k) → wlp (push_strings xlate fuel (S n) arr STACK_BASE 0 sp) (λ _ _, False) k.
Proof.
  intros Hk. cbn [push_strings]. apply wlp_bind. eapply wlp_mono; [by apply keeps_user_load64|]. intros str k1 Hk1.
  apply wlp_bind. eapply wlp_mono; [by apply keeps_user_length|]. intros len k2 Hk2.
  apply wlp_bind. eapply wlp_mono; [by apply keeps_user_copy|]. intros [] k3 Hk3.
  apply wlp_bind. replace (STACK_BASE + 8 * 0) with STACK_BASE by lia. unfold user_store64. cbn [le_bytes user_store_bytes].
  apply wlp_bind, wlp_bind, wlp_get. by rewrite P_top.
Qed.

(** [setup_user_stack] does not return when there is an argument: the address of
    the first string goes above the stack, where nothing is mapped. *)
Lemma setup_user_stack_args argv envp n k : P (k_vm k) → argv ≠ 0 → count_pointers xlate fuel argv 0 k = Ok (n, k) → 0 < n →
  ∀ sp k', setup_user_stack xlate fuel STACK_BASE argv envp k ≠ Ok (sp, k').
Proof.
  intros Hk Ha Hn Hpos sp k' E.
  assert (Hw : wlp (setup_user_stack xlate fuel STACK_BASE argv envp) (λ _ _, False) k); [|by apply (wlp_result _ _ _ _ _ Hw E)].
  unfold setup_user_stack. rewrite (proj2 (Z.eqb_neq argv 0)) by done. apply wlp_bind. unfold wlp at 1. rewrite Hn.
  apply wlp_bind. eapply wlp_mono; [|intros envc k1 Hk1].
  { instantiate (1 := λ _ k1, P (k_vm k1)). destruct (envp =? 0); [by apply wlp_ret|by apply keeps_user_count]. }
  rewrite (proj2 (Z.ltb_lt 0 n)) by done. cbn [andb negb]. destruct (Z.to_nat n) as [|m] eqn:En; [lia|].
  apply wlp_bind. eapply wlp_mono; [by apply push_strings_faults|]. done.
Qed.
End arguments.

(** ** Properties *)

(** The numbers the handler knows. *)
Definition syscall_numbers : list Z :=
  [SYS_READ; SYS_WRITE; SYS_OPEN; SYS_CLOSE; SYS_GETPID; SYS_GETPPID; SYS_FORK; SYS_EXECVE; SYS_EXIT; SYS_MMAP;
   SYS_MUNMAP; SYS_MPROTECT; SYS_SCHED_YIELD].

Lemma handler_unknown addr raw f k num : f !! RAX = Some num → is_Some (f !! RDI) → is_Some (f !! RSI) → is_Some (f !! RDX) →
  num ∉ syscall_numbers → syscall_handler lay xlate fuel addr raw f k = Ok (Return MINUS_ONE, k).
Proof.
  intros E [a1 E1] [a2 E2] [a3 E3] Hn. unfold syscall_handler. rewrite E, E1, E2, E3. unfold deref, mbind, M_bind, mret, M_ret. cbn beta iota.
  unfold syscall_numbers in Hn. rewrite !not_elem_of_cons in Hn.
  destruct Hn as (N1 & N2 & N3 & N4 & N5 & N6 & N7 & N8 & N9 & N10 & N11 & N12 & N13 & _).
  repeat rewrite (proj2 (Z.eqb_neq num _)) by done. done.
Qed.


(** C18: [sys_fork] from a thread of a listed process, while identifiers do not
    wrap: it returns, or panics for want of stack memory.  It returns -1 with the
    same processes, identifiers and ready queues when the heap, the page tables or
    the thread pool have no room, the child already made being taken off the list
    again; otherwise it returns the identifier of a new process at the head of the
    list, with the parent's credentials and a copy of the caller's registers with
    rax 0, and with a new thread of that process at the end of ready queue 0.
    The invariants of processes and threads hold, over the one page allocator. *)
Theorem sys_fork_correct addr raw f k L l Q cur idle bc parent pr :
  sys_inv k L l Q cur idle → kTcbPool (k_threads k) !! cur = Some bc → t_process bc = Some parent →
  ps_objs (k_procs k) !! parent = Some pr → kNextPid (k_procs k) + 1 < 2 ^ 32 →
  match sys_fork lay addr raw f k with
  | Ok (v, k') => fork_failed k l Q cur idle v k' ∨ forked k l Q cur idle pr f v k'
  | Panic msg => msg = NO_STACK
  | UB => False
  end.
Proof. intros Hs Hbc Hproc Hpr Hpid. by apply (sys_fork_ok addr raw f k L l Q cur idle bc parent pr). Qed.
End syscalls.

(** The frame execve prepares has the entry address in rip, but the return to user
    mode takes it from rcx, which execve does not set. *)
Lemma exec_ignores_entry entry sp f : child_return_rip (exec_frame entry sp f) = child_return_rip f.
Proof. unfold child_return_rip, exec_frame. by rewrite !list_lookup_insert_ne. Qed.

(** ** A kernel with one process *)

Definition demo_user : user_regs := mkUser 0 0 0 0 0 0 0 0 0 1 0x500000 5 0 0 SYS_WRITE 0x7FFFFFEFFFF0 0x400010.
Definition no_xlate : bool → vmm bump pmm → Z → option Z := λ _ _ _, None.

Definition demo_kernel (s : procs bump pmm) (b : ThreadControlBlock) : kernel bump pmm :=
  mkKernel s (set_kTcbPool (<[0 := set_t_process (Some init_addr) b]> (kTcbPool demo_idle)) demo_idle)
    (vfs_boot (mkBump 0x6000 0x7000) small_pmm (λ _, 0)) [].

Lemma demo_kernel_inv : ∃ s L r b, sys_inv (demo_kernel s b) L [init_addr] (λ _, []) 0 0 ∧
  ps_objs s !! init_addr = Some r ∧ kNextPid s + 1 < 2 ^ 32.
Proof.
  destruct one_proc_ok as (s & L & r & Ec & Hi & En & Hr & _). destruct demo_idle_inv as (_ & Hk & _).
  destruct (si_cur_tcb _ _ _ _ (ki_sched _ _ _ _ Hk)) as [b Hb].
  assert (Hg : pages_good (vm_pages (ps_vm s))).
  { refine (wlp_result _ _ _ _ _ (good_proc_create small_raw no_procs _) Ec). destruct small_free as (L0 & Hi0 & HF0).
    exists (page_set (blocks L0)), []. split_and!; [exact (ex_intro _ L0 (conj Hi0 eq_refl))| |].
    - change (0 ≤ kHhdmOffset small_pmm). rewrite small_hhdm. lia.
    - intros x Hx%HF0. change (pa_hhdm (vm_pages (ps_vm no_procs))) with (kHhdmOffset small_pmm). rewrite small_hhdm.
      unfold PAGE_SIZE. lia. }
  exists s, L, r, b. split_and!; [|exact Hr|rewrite En; lia]. split; [exact Hi|].
  apply (kernel_inv_pages _ _ _ _ _ (kernel_inv_write_process demo_idle (λ _, []) 0 0 0 b (Some init_addr) Hk Hb ltac:(intros (? & _ & []%not_elem_of_nil)%elem_of_all_ready)) Hg).
Qed.

Lemma sys_fork_correct_witness : ∃ s r b, ps_objs s !! init_addr = Some r ∧
  match sys_fork demo_layout 0x300000 small_raw (replicate 22 7) (demo_kernel s b) with
  | Ok (v, k') => fork_failed (demo_kernel s b) [init_addr] (λ _, []) 0 0 v k' ∨
      forked (demo_kernel s b) [init_addr] (λ _, []) 0 0 r (replicate 22 7) v k'
  | Panic msg => msg = NO_STACK
  | UB => False
  end.
Proof.
  destruct demo_kernel_inv as (s & L & r & b & Hi & Hr & Hn). exists s, r, b. split; [exact Hr|].
  exact (sys_fork_correct demo_layout 0x300000 small_raw (replicate 22 7) (demo_kernel s b) L [init_addr] (λ _, []) 0 0
           (set_t_process (Some init_addr) b) init_addr r Hi (lookup_insert_eq _ _ _) eq_refl Hr Hn).
Defined.

