(* ===== verification/PortIo.v ===== *)
(** * Port input and output

    Model of the wrappers of include/vortex/arch/x86_64/io.hpp.  The machine's
    devices are a parameter [hw]: what a read of a port returns, given the
    accesses made so far.  Every access is recorded, oldest first, so that what
    a driver does to its device can be stated as a sequence of events.

    [config_space] is the documented behaviour of PCI configuration mechanism 1:
    a read of the data port gives the double word selected by the last write
    of the address port.

    Below the ports, in the same way: memory-mapped registers, answered by an
    [mmio_device], and the machine-specific registers. *)

From S2P Require Import Prelude Bytes.
Open Scope Z_scope.

Inductive io_event :=
  | Out (width port value : Z)
  | In (width port value : Z).

Definition hardware : Type := list io_event → Z → Z → Z.

(** A state that carries the trace of port accesses. *)
Class HasPorts (S : Type) := {
  ports : S → list io_event;
  set_ports : list io_event → S → S;
  ports_set tr s : ports (set_ports tr s) = tr;
  set_ports_set tr tr' s : set_ports tr (set_ports tr' s) = set_ports tr s;
  set_ports_id s : set_ports (ports s) s = s
}.

#[export] Instance trace_ports : HasPorts (list io_event) :=
  {| ports := id; set_ports := λ tr _, tr;
     ports_set := λ _ _, eq_refl; set_ports_set := λ _ _ _, eq_refl; set_ports_id := λ _, eq_refl |}.

Section io.
Context {S : Type} `{!HasPorts S} (hw : hardware).

(** [port] is a [uint16_t] parameter; [w] is 8, 16 or 32. *)
Definition out_ (w port value : Z) : M S () :=
  modify (λ s, set_ports (ports s ++ [Out w (u16 port) (wrap w value)]) s).
Definition in_ (w port : Z) : M S Z :=
  s ← get;
  let v := wrap w (hw (ports s) w (u16 port)) in
  modify (λ s, set_ports (ports s ++ [In w (u16 port) v]) s);;
  mret v.

Definition outb : Z → Z → M S () := out_ 8.
Definition outw : Z → Z → M S () := out_ 16.
Definition outl : Z → Z → M S () := out_ 32.
Definition inb : Z → M S Z := in_ 8.
Definition inw : Z → M S Z := in_ 16.
Definition inl_ : Z → M S Z := in_ 32.
(** A write to the diagnostic port. *)
Definition io_wait : M S () := outb 0x80 0.

Lemma out_eq w port value s :
  out_ w port value s = Ok ((), set_ports (ports s ++ [Out w (u16 port) (wrap w value)]) s).
Proof. done. Qed.

Lemma in_eq w port s :
  in_ w port s = Ok (wrap w (hw (ports s) w (u16 port)),
                     set_ports (ports s ++ [In w (u16 port) (wrap w (hw (ports s) w (u16 port)))]) s).
Proof. done. Qed.
End io.

(** ** Polling *)

(** Whether one of [fuel] reads of a byte port shows the bit, when nothing else
    is accessed in between. *)
Fixpoint polls (hw : hardware) (port bit : Z) (fuel : nat) (tr : list io_event) : bool :=
  match fuel with
  | O => false
  | S fuel =>
    let v := u8 (hw tr 8 port) in
    has_flag v bit || polls hw port bit fuel (tr ++ [In 8 port v])
  end.

(** ** PCI configuration space *)

Definition PCI_CONFIG_ADDR : Z := 0xCF8.
Definition PCI_CONFIG_DATA : Z := 0xCFC.

(** The address word of a register, from its bus, device, function and offset. *)
Definition cfg_address (bus dev func offset : Z) : Z :=
  Z.lor (Z.lor (Z.lor (Z.lor 0x80000000 (Z.shiftl bus 16)) (Z.shiftl dev 11)) (Z.shiftl func 8)) (Z.land offset 0xFC).

(** [cfg] gives the double word of every configuration address. *)
Definition config_space (hw : hardware) (cfg : Z → Z) : Prop :=
  (∀ tr a, hw (tr ++ [Out 32 PCI_CONFIG_ADDR a]) 32 PCI_CONFIG_DATA = cfg a) ∧ ∀ a, 0 ≤ cfg a < 2 ^ 32.

(** The mechanism can be had: a machine whose only device is a configuration
    space, every other port reading as ones. *)
Definition cfg_machine (cfg : Z → Z) : hardware := λ tr w port,
  match last tr with
  | Some (Out 32 p a) => if (p =? PCI_CONFIG_ADDR) && (port =? PCI_CONFIG_DATA) then cfg a else -1
  | _ => -1
  end.

Lemma cfg_machine_space cfg : (∀ a, 0 ≤ cfg a < 2 ^ 32) → config_space (cfg_machine cfg) cfg.
Proof. intros Hc. split; [|done]. intros tr a. unfold cfg_machine. by rewrite last_snoc. Qed.

(** * Memory-mapped registers

    What the drivers of src/kernel/nvme.cpp, src/kernel/hpet.cpp and
    src/arch/x86_64/apic.cpp do to their devices: volatile loads and stores at
    virtual addresses, and the [pause] instruction of their waiting loops, all
    recorded oldest first.  A device is a parameter [dev]: what a load returns,
    given the accesses made so far.  A load is thus answered anew each time, as
    the volatile accesses of the code are. *)

Inductive mmio_event :=
  | MStore (width addr value : Z)
  | MLoad (width addr value : Z)
  | Pause.

Definition mmio_device : Type := list mmio_event → Z → Z → Z.

(** A state that carries the trace of these accesses. *)
Class HasMmio (St : Type) := {
  mmio : St → list mmio_event;
  set_mmio : list mmio_event → St → St;
  mmio_set tr s : mmio (set_mmio tr s) = tr;
  set_mmio_set tr tr' s : set_mmio tr (set_mmio tr' s) = set_mmio tr s;
  set_mmio_id s : set_mmio (mmio s) s = s
}.

Section mmio.
Context {St : Type} `{!HasMmio St} (dev : mmio_device).

Definition mmio_add (e : mmio_event) (s : St) : St := set_mmio (mmio s ++ [e]) s.

Definition mmio_store (w addr value : Z) : M St () := modify (mmio_add (MStore w addr (wrap w value))).
Definition mmio_load (w addr : Z) : M St Z :=
  s ← get;
  let v := wrap w (dev (mmio s) w addr) in
  modify (mmio_add (MLoad w addr v));;
  mret v.
(** [asm volatile("pause")] *)
Definition pause : M St () := modify (mmio_add Pause).

Lemma mmio_store_eq w addr value s : mmio_store w addr value s = Ok ((), mmio_add (MStore w addr (wrap w value)) s).
Proof. done. Qed.

Lemma mmio_load_eq w addr s :
  mmio_load w addr s = Ok (wrap w (dev (mmio s) w addr), mmio_add (MLoad w addr (wrap w (dev (mmio s) w addr))) s).
Proof. done. Qed.

Lemma mmio_mmio_add e s : mmio (mmio_add e s) = mmio s ++ [e].
Proof. apply mmio_set. Qed.

(** The wait loop [while (busy(load) && timeout > 0) { pause; --timeout; }];
    the result is what is left of the timeout. *)
Fixpoint mmio_wait (w addr : Z) (busy : Z → bool) (timeout : nat) : M St nat :=
  v ← mmio_load w addr;
  match timeout with
  | O => mret O
  | S t => if busy v then pause;; mmio_wait w addr busy t else mret timeout
  end.

(** The accesses of a wait: [n] loads that found the device busy, and the load
    that ended the loop. *)
Definition busy_reads (w addr : Z) (vs : list Z) : list mmio_event := vs ≫= λ v, [MLoad w addr v; Pause].

Lemma mmio_wait_wp w addr busy timeout s (Q : nat → St → Prop) :
  (∀ vs v r, Forall (λ v, busy v = true) vs → (r = 0%nat ∨ busy v = false) → (length vs + r = timeout)%nat →
     Q r (set_mmio (mmio s ++ busy_reads w addr vs ++ [MLoad w addr v]) s)) →
  wp (mmio_wait w addr busy timeout) Q s.
Proof.
  revert s. induction timeout as [|t IH]; intros s HQ; cbn [mmio_wait]; apply wp_bind;
    (eapply wp_eq; [apply mmio_load_eq|]); set (v := wrap w _).
  - apply wp_ret. apply (HQ []); [constructor|by left|done].
  - destruct (busy v) eqn:Hb; [|apply wp_ret, (HQ []); [constructor|by right|done]].
    apply wp_bind, wp_modify, IH. intros vs v' r Hvs Hr Hlen.
    specialize (HQ (v :: vs) v' r). unfold mmio_add in *. rewrite !set_mmio_set, !mmio_set, <-!app_assoc in *.
    apply HQ; [by constructor|done|simpl; lia].
Qed.
End mmio.

(** * Machine-specific registers

    [rdmsr] and [wrmsr] of include/vortex/arch/x86_64/io.hpp: a 64-bit register
    moves through two 32-bit halves. *)

(** A state that carries the registers, by number. *)
Class HasMsrs (St : Type) := {
  msrs : St → Z → Z;
  set_msrs : (Z → Z) → St → St;
  msrs_set r s : msrs (set_msrs r s) = r
}.

Section msr.
Context {St : Type} `{!HasMsrs St}.

Definition rdmsr (msr : Z) : M St Z :=
  s ← get;
  let lo := u32 (msrs s msr) in
  let hi := u32 (Z.shiftr (msrs s msr) 32) in
  mret (Z.lor (Z.shiftl hi 32) lo).
Definition wrmsr (msr value : Z) : M St () :=
  let lo := u32 value in
  let hi := u32 (Z.shiftr value 32) in
  modify (λ s, set_msrs (<[msr := Z.lor (Z.shiftl hi 32) lo]> (msrs s)) s).
End msr.

Lemma word_halves x : 0 ≤ x < 2 ^ 64 → Z.lor (Z.shiftl (u32 (Z.shiftr x 32)) 32) (u32 x) = x.
Proof.
  intros Hx. apply Z.bits_inj'. intros n Hn. unfold wrap. rewrite Z.lor_spec, Z.shiftl_spec by done.
  destruct (Z.ltb_spec n 32) as [Hl|Hl].
  - rewrite (Z.testbit_neg_r _ (n - 32)), Z.mod_pow2_bits_low by lia. done.
  - rewrite (Z.mod_pow2_bits_high x) by lia. rewrite orb_false_r. destruct (Z.ltb_spec n 64).
    + rewrite Z.mod_pow2_bits_low, Z.shiftr_spec by lia. f_equal. lia.
    + rewrite Z.mod_pow2_bits_high by lia. symmetry. apply (testbit_high x 64); lia.
Qed.

Section msr_lemmas.
Context {St : Type} `{!HasMsrs St}.

Lemma rdmsr_wp msr (s : St) (Q : Z → St → Prop) : 0 ≤ msrs s msr < 2 ^ 64 → Q (msrs s msr) s → wp (rdmsr msr) Q s.
Proof. intros Hr HQ. unfold rdmsr. wp_run. by rewrite word_halves. Qed.

Lemma wrmsr_wp msr value (s : St) (Q : () → St → Prop) : 0 ≤ value < 2 ^ 64 →
  Q () (set_msrs (<[msr := value]> (msrs s)) s) → wp (wrmsr msr value) Q s.
Proof. intros Hv HQ. unfold wrmsr. wp_run. by rewrite word_halves. Qed.

(** [rdmsr] gives back what [wrmsr] stored. *)
Theorem msr_roundtrip msr value (s : St) : 0 ≤ value < 2 ^ 64 →
  wp (wrmsr msr value) (λ _ s', rdmsr msr s' = Ok (value, s')) s.
Proof.
  intros Hv. apply wrmsr_wp; [done|]. set (s' := set_msrs _ _). assert (E : msrs s' msr = value) by (unfold s'; rewrite msrs_set; apply fn_lookup_insert).
  destruct (proj1 (wp_ok _ _ _) (rdmsr_wp msr s' (λ v s2, v = value ∧ s2 = s') ltac:(lia) ltac:(done))) as (v & s2 & E2 & -> & ->). done.
Qed.
End msr_lemmas.
