(* ===== verification/Pci.v ===== *)
(** * PCI enumeration

    Model of src/kernel/pci.cpp.  The log lines of the scan are left out; what
    remains of it are its accesses to the configuration ports and its recursion
    into the buses behind bridges. *)

From S2P Require Import Prelude PortIo.
Open Scope Z_scope.

Definition PCI_VENDOR_ID : Z := 0x00.
Definition PCI_DEVICE_ID : Z := 0x02.
Definition PCI_COMMAND : Z := 0x04.
Definition PCI_REVISION : Z := 0x08.
Definition PCI_CLASS_SUBCLASS : Z := 0x0A.
Definition PCI_CLASS_CODE : Z := 0x0B.
Definition PCI_HEADER_TYPE : Z := 0x0E.
Definition PCI_BAR0 : Z := 0x10.
Definition PCI_CAPABILITIES : Z := 0x34.
Definition PCI_CAP_ID_MSIX : Z := 0x11.
Definition PCI_CMD_BUS_MASTER : Z := Z.shiftl 1 2.
Definition PCI_CMD_MEM_SPACE : Z := Z.shiftl 1 1.

Record MsixCapability := mkMsix {
  cap_offset : Z; table_size : Z; table_bir : Z; table_offset : Z; pba_bir : Z; pba_offset : Z
}.

Section pci.
Context {St : Type} `{!HasPorts St} (hw : hardware).

(** The arguments are [uint8_t]. *)
Definition pci_config_read_dword (bus dev func offset : Z) : M St Z :=
  outl PCI_CONFIG_ADDR (cfg_address bus dev func offset);;
  inl_ hw PCI_CONFIG_DATA.

Definition pci_config_write_dword (bus dev func offset value : Z) : M St () :=
  outl PCI_CONFIG_ADDR (cfg_address bus dev func offset);;
  outl PCI_CONFIG_DATA value.

Definition pci_config_read_word (bus dev func offset : Z) : M St Z :=
  dword ← pci_config_read_dword bus dev func (u8 (Z.land offset (Z.lnot 3)));
  mret (u16 (if has_flag offset 2 then Z.shiftr dword 16 else dword)).

Definition pci_config_read_byte (bus dev func offset : Z) : M St Z :=
  dword ← pci_config_read_dword bus dev func (u8 (Z.land offset (Z.lnot 3)));
  mret (u8 (if has_flag offset 3 then Z.shiftr dword (Z.land offset 3 * 8) else dword)).

(** [scan_bus] is the recursive call for the bus behind a bridge. *)
Definition pci_scan_function (scan_bus : Z → M St ()) (bus dev func : Z) : M St () :=
  vendor_id ← pci_config_read_word bus dev func PCI_VENDOR_ID;
  if vendor_id =? 0xFFFF then mret ()
  else
    _ ← pci_config_read_word bus dev func PCI_DEVICE_ID;
    _ ← pci_config_read_byte bus dev func PCI_CLASS_CODE;
    _ ← pci_config_read_byte bus dev func PCI_CLASS_SUBCLASS;
    _ ← pci_config_read_byte bus dev func PCI_REVISION;
    header_type ← pci_config_read_byte bus dev func PCI_HEADER_TYPE;
    if header_type =? 0x01 then
      secondary_bus ← pci_config_read_byte bus dev func 0x19;
      if negb (secondary_bus =? bus) then scan_bus secondary_bus else mret ()
    else mret ().

Definition pci_scan_device (scan_bus : Z → M St ()) (bus dev : Z) : M St () :=
  vendor_id ← pci_config_read_word bus dev 0 PCI_VENDOR_ID;
  if vendor_id =? 0xFFFF then mret ()
  else
    pci_scan_function scan_bus bus dev 0;;
    header_type ← pci_config_read_byte bus dev 0 PCI_HEADER_TYPE;
    when (has_flag header_type 0x80) (for_each (seqZ 1 7) (pci_scan_function scan_bus bus dev)).

(** [fuel] bounds the depth of the recursion; without it the call never ends. *)
Fixpoint pci_scan_bus (fuel : nat) (bus : Z) : M St () :=
  match fuel with
  | O => undefined
  | S fuel => for_each (seqZ 0 32) (pci_scan_device (pci_scan_bus fuel) bus)
  end.

Definition pci_enable_bus_mastering (bus dev func : Z) : M St () :=
  cmd ← pci_config_read_word bus dev func PCI_COMMAND;
  pci_config_write_dword bus dev func PCI_COMMAND (u16 (Z.lor cmd (Z.lor PCI_CMD_BUS_MASTER PCI_CMD_MEM_SPACE))).

Definition pci_read_bar (bus dev func bar_index : Z) : M St Z :=
  if 5 <? bar_index then mret 0
  else pci_config_read_dword bus dev func (u8 (PCI_BAR0 + bar_index * 4)).

(** The capability at [cap_ptr], once its identifier has matched. *)
Definition msix_read (bus dev func cap_ptr : Z) : M St MsixCapability :=
  msg_ctrl ← pci_config_read_word bus dev func (u8 (cap_ptr + 2));
  table_reg ← pci_config_read_dword bus dev func (u8 (cap_ptr + 4));
  pba_reg ← pci_config_read_dword bus dev func (u8 (cap_ptr + 8));
  mret (mkMsix cap_ptr (u16 (u16 (Z.land (Z.shiftr msg_ctrl 11) 0x7FF) + 1))
    (u8 (Z.land table_reg 0x7)) (clear_flag 32 table_reg 0x7)
    (u8 (Z.land pba_reg 0x7)) (clear_flag 32 pba_reg 0x7)).

(** [while (cap_ptr != 0)] over the capability list. *)
Fixpoint msix_loop (fuel : nat) (bus dev func cap_ptr : Z) : M St (option MsixCapability) :=
  if cap_ptr =? 0 then mret None
  else
    match fuel with
    | O => undefined
    | S fuel =>
      cap_id ← pci_config_read_byte bus dev func cap_ptr;
      if cap_id =? PCI_CAP_ID_MSIX then c ← msix_read bus dev func cap_ptr; mret (Some c)
      else
        next ← pci_config_read_byte bus dev func (u8 (cap_ptr + 1));
        msix_loop fuel bus dev func next
    end.

(** The result with [out] non-null: the capability, or [None] for [false]. *)
Definition pci_parse_msix_capability (fuel : nat) (bus dev func : Z) : M St (option MsixCapability) :=
  cap_ptr ← pci_config_read_byte bus dev func PCI_CAPABILITIES;
  if cap_ptr =? 0 then mret None else msix_loop fuel bus dev func cap_ptr.
End pci.

(** * Properties of PCI enumeration *)

(** Byte [offset] of the configuration space of a function. *)
Definition cfg_byte (cfg : Z → Z) (bus dev func offset : Z) : Z :=
  cfg (cfg_address bus dev func offset) / 256 ^ (offset mod 4) mod 256.

Definition bdf_ok (bus dev func : Z) : Prop := 0 ≤ bus < 256 ∧ 0 ≤ dev < 32 ∧ 0 ≤ func < 8.

Lemma shiftl_bound x a b : 0 ≤ a → 0 ≤ b → 0 ≤ x < 2 ^ b → 0 ≤ Z.shiftl x a < 2 ^ (a + b).
Proof. intros Ha Hb Hx. rewrite Z.shiftl_mul_pow2, Z.pow_add_r by done. nia. Qed.

Lemma cfg_address_bound bus dev func offset : bdf_ok bus dev func → 0 ≤ cfg_address bus dev func offset < 2 ^ 32.
Proof.
  intros (Hb & Hd & Hf). unfold cfg_address.
  pose proof (shiftl_bound bus 16 8 ltac:(lia) ltac:(lia) Hb). pose proof (shiftl_bound dev 11 5 ltac:(lia) ltac:(lia) Hd).
  pose proof (shiftl_bound func 8 3 ltac:(lia) ltac:(lia) Hf).
  assert (0 ≤ Z.land offset 0xFC < 2 ^ 32).
  { assert (E : Z.land offset 0xFC = Z.land (Z.land offset 0xFC) (Z.ones 8)) by (rewrite <-Z.land_assoc; done).
    rewrite E, Z.land_ones by done. pose proof (Z.mod_pos_bound (Z.land offset 0xFC) (2 ^ 8)). lia. }
  repeat apply lor_bound; lia.
Qed.

(** Clearing the two low bits of the offset first changes nothing. *)
Lemma cfg_address_align bus dev func offset : cfg_address bus dev func (u8 (Z.land offset (Z.lnot 3))) = cfg_address bus dev func offset.
Proof.
  unfold cfg_address. f_equal. apply Z.bits_inj'. intros n Hn. rewrite !Z.land_spec. unfold wrap.
  destruct (Z.lt_ge_cases n 8) as [Hlt|Hge].
  - rewrite Z.mod_pow2_bits_low, Z.land_spec, Z.lnot_spec by lia.
    assert (n = 0 ∨ n = 1 ∨ 2 ≤ n) as [->|[->|H2]] by lia; [by rewrite !andb_false_r..|].
    rewrite (testbit_high 3 2 n) by lia. by rewrite andb_true_r.
  - rewrite (testbit_high 0xFC 8 n) by lia. by rewrite !andb_false_r.
Qed.

Lemma cfg_address_odd bus dev func offset : Z.even offset = true → cfg_address bus dev func (offset + 1) = cfg_address bus dev func offset.
Proof.
  intros [k ->]%Z.even_spec. unfold cfg_address. f_equal.
  assert (E : ∀ x, Z.land x 0xFC = Z.land (Z.shiftl (Z.shiftr x 2) 2) 0xFC).
  { intros x. apply Z.bits_inj'. intros n Hn. rewrite !Z.land_spec. assert (n = 0 ∨ n = 1 ∨ 2 ≤ n) as [->|[->|H2]] by lia; [by rewrite !andb_false_r..|].
    rewrite Z.shiftl_spec, Z.shiftr_spec by lia. by replace (n - 2 + 2) with n by lia. }
  rewrite (E (2 * k + 1)), (E (2 * k)). do 2 f_equal. rewrite !Z.shiftr_div_pow2 by lia.
  pose proof (Z.div_mod (2 * k) 4 ltac:(lia)). pose proof (Z.mod_pos_bound (2 * k) 4 ltac:(lia)). change (2 ^ 2) with 4.
  symmetry. apply (Z.div_unique _ _ _ (2 * k mod 4 + 1)); lia.
Qed.

Section reads.
Context {St : Type} `{!HasPorts St} (hw : hardware) (cfg : Z → Z) (Hcfg : config_space hw cfg).
Implicit Types s : St.

(** The two accesses of a configuration read. *)
Definition read_events (bus dev func offset : Z) : list io_event :=
  [Out 32 PCI_CONFIG_ADDR (cfg_address bus dev func offset); In 32 PCI_CONFIG_DATA (cfg (cfg_address bus dev func offset))].

Lemma read_dword_eq bus dev func offset s : bdf_ok bus dev func →
  pci_config_read_dword hw bus dev func offset s =
    Ok (cfg (cfg_address bus dev func offset), set_ports (ports s ++ read_events bus dev func offset) s).
Proof.
  intros Hb. destruct Hcfg as [Hr Hbound]. unfold pci_config_read_dword, outl, inl_.
  rewrite (bind_ok _ _ _ _ _ (out_eq _ _ _ _)), in_eq, ports_set, set_ports_set.
  change (u16 PCI_CONFIG_ADDR) with PCI_CONFIG_ADDR. change (u16 PCI_CONFIG_DATA) with PCI_CONFIG_DATA.
  rewrite Hr. rewrite (wrap_small 32 (cfg_address _ _ _ _)) by by apply cfg_address_bound.
  rewrite (wrap_small 32 (cfg _)) by apply Hbound. by rewrite <-app_assoc.
Qed.

Lemma read_byte_eq bus dev func offset s : bdf_ok bus dev func → 0 ≤ offset →
  pci_config_read_byte hw bus dev func offset s =
    Ok (cfg_byte cfg bus dev func offset, set_ports (ports s ++ read_events bus dev func offset) s).
Proof.
  intros Hb Ho. unfold pci_config_read_byte. rewrite (bind_ok _ _ _ _ _ (read_dword_eq _ _ _ _ _ Hb)).
  unfold read_events. rewrite !cfg_address_align. unfold mret, M_ret. do 2 f_equal. unfold cfg_byte.
  assert (E3 : Z.land offset 3 = offset mod 4) by (change 3 with (Z.ones 2); by rewrite Z.land_ones).
  unfold has_flag. rewrite E3. pose proof (Z.mod_pos_bound offset 4 ltac:(lia)).
  assert (Hs : ∀ k, 0 ≤ k → Z.shiftr (cfg (cfg_address bus dev func offset)) (k * 8) = cfg (cfg_address bus dev func offset) / 256 ^ k).
  { intros k Hk. rewrite Z.shiftr_div_pow2 by lia. f_equal. change 256 with (2 ^ 8). rewrite <-Z.pow_mul_r by lia. f_equal. lia. }
  destruct (Z.eqb_spec (offset mod 4) 0) as [E|E]; cbn [negb]; unfold wrap; [rewrite E; by rewrite Z.div_1_r|].
  by rewrite Hs by lia.
Qed.

Lemma read_word_eq bus dev func offset s : bdf_ok bus dev func → 0 ≤ offset → Z.even offset = true →
  pci_config_read_word hw bus dev func offset s =
    Ok (cfg_byte cfg bus dev func offset + 256 * cfg_byte cfg bus dev func (offset + 1),
        set_ports (ports s ++ read_events bus dev func offset) s).
Proof.
  intros Hb Ho He. unfold pci_config_read_word. rewrite (bind_ok _ _ _ _ _ (read_dword_eq _ _ _ _ _ Hb)).
  unfold read_events. rewrite !cfg_address_align. unfold mret, M_ret. do 2 f_equal. unfold cfg_byte. rewrite cfg_address_odd by done.
  set (D := cfg (cfg_address bus dev func offset)). apply Z.even_spec in He as [k ->].
  assert (Hk : (2 * k) mod 4 = 0 ∨ (2 * k) mod 4 = 2)
    by (pose proof (Z.mod_pos_bound (2 * k) 4 ltac:(lia)); pose proof (Z.div_mod (2 * k) 4 ltac:(lia)); lia).
  assert (E1 : (2 * k + 1) mod 4 = (2 * k) mod 4 + 1) by (rewrite <-Z.add_mod_idemp_l by lia; rewrite Z.mod_small; lia).
  assert (Ef : has_flag (2 * k) 2 = negb ((2 * k) mod 4 =? 0)).
  { unfold has_flag. do 2 f_equal. assert ((2 * k) mod 4 = Z.land (2 * k) (Z.ones 2)) as -> by by rewrite Z.land_ones. apply Z.bits_inj'. intros n Hn. rewrite !Z.land_spec.
    assert (n = 0 ∨ n = 1 ∨ 2 ≤ n) as [->|[->|H2]] by lia; [by rewrite Z.testbit_even_0|done|].
    rewrite (testbit_high 2 2 n), (testbit_high (Z.ones 2) 2 n) by (done || lia). done. }
  assert (Hw : ∀ X, X mod 2 ^ 16 = X mod 256 + 256 * ((X / 256) mod 256)) 
    by (intros X; symmetry; apply (Z.mod_unique _ _ (X / 256 / 256)); pose proof (Z.div_mod X 256); pose proof (Z.div_mod (X / 256) 256);
        pose proof (Z.mod_pos_bound X 256); pose proof (Z.mod_pos_bound (X / 256) 256); lia).
  rewrite Ef, E1. unfold wrap. destruct Hk as [-> | ->]; cbn [Z.eqb negb].
  - rewrite Hw. by rewrite Z.div_1_r.
  - rewrite Z.shiftr_div_pow2, Hw, Z.div_div by lia. done.
Qed.
End reads.

(** ** The scan *)

(** The buses behind bridges have higher numbers, as firmware assigns them. *)
Definition bridges_up (cfg : Z → Z) : Prop :=
  ∀ bus dev func, bdf_ok bus dev func → cfg_byte cfg bus dev func PCI_HEADER_TYPE = 1 →
    cfg_byte cfg bus dev func 0x19 = bus ∨ bus < cfg_byte cfg bus dev func 0x19.

Lemma cfg_byte_range cfg bus dev func offset : 0 ≤ cfg_byte cfg bus dev func offset < 256.
Proof. apply Z.mod_pos_bound. lia. Qed.

Section scan.
Context {St : Type} `{!HasPorts St} (hw : hardware) (cfg : Z → Z) (Hcfg : config_space hw cfg).
Implicit Types s : St.

Definition returns (m : M St ()) : Prop := ∀ s, wp m (λ _ _, True) s.

Lemma returns_bind_byte bus dev func offset (k : Z → M St ()) : bdf_ok bus dev func → 0 ≤ offset →
  returns (k (cfg_byte cfg bus dev func offset)) → returns (v ← pci_config_read_byte hw bus dev func offset; k v).
Proof. intros Hb Ho Hk s. apply wp_bind. eapply wp_eq; [by apply read_byte_eq|]. apply Hk. Qed.

Lemma returns_bind_word bus dev func offset (k : Z → M St ()) : bdf_ok bus dev func → 0 ≤ offset → Z.even offset = true →
  (∀ v, returns (k v)) → returns (v ← pci_config_read_word hw bus dev func offset; k v).
Proof. intros Hb Ho He Hk s. apply wp_bind. eapply wp_eq; [by apply read_word_eq|]. apply Hk. Qed.

Lemma returns_ret : returns (mret ()).
Proof. by intros s. Qed.

Lemma for_each_returns xs f : (∀ x, x ∈ xs → returns (f x)) → returns (for_each xs f).
Proof.
  induction xs as [|x xs IH]; intros Hf s; [done|]. cbn [for_each]. apply wp_bind. eapply wp_mono; [apply Hf; by left|].
  intros [] s' _. apply IH. intros y Hy. apply Hf. by right.
Qed.

Lemma scan_function_returns scan_bus bus dev func : bridges_up cfg → bdf_ok bus dev func →
  (∀ b, bus < b < 256 → returns (scan_bus b)) → returns (pci_scan_function hw scan_bus bus dev func).
Proof.
  intros Hup Hb Hrec. unfold pci_scan_function. apply returns_bind_word; [done|done|done|]. intros v. case_if; [apply returns_ret|].
  apply returns_bind_word; [done|done|done|]. intros _. do 4 (apply returns_bind_byte; [done|done|]). case_if; [|apply returns_ret].
  apply returns_bind_byte; [done|done|]. case_if; [|apply returns_ret]. apply Hrec.
  pose proof (cfg_byte_range cfg bus dev func 0x19). destruct (Hup bus dev func Hb); [done|congruence|lia].
Qed.

Lemma scan_device_returns scan_bus bus dev : bridges_up cfg → 0 ≤ bus < 256 → 0 ≤ dev < 32 →
  (∀ b, bus < b < 256 → returns (scan_bus b)) → returns (pci_scan_device hw scan_bus bus dev).
Proof.
  intros Hup Hbus Hdev Hrec. assert (Hb : ∀ f, 0 ≤ f < 8 → bdf_ok bus dev f) by done.
  unfold pci_scan_device. apply returns_bind_word; [by apply Hb|done|done|]. intros v. case_if; [apply returns_ret|].
  intros s. apply wp_bind. eapply wp_mono; [apply scan_function_returns; [done|by apply Hb|done]|]. intros [] s1 _.
  revert s1. apply returns_bind_byte; [by apply Hb|done|]. unfold when. case_if; [|apply returns_ret].
  apply for_each_returns. intros f Hf%elem_of_seqZ. apply scan_function_returns; [done|apply Hb; lia|done].
Qed.

Lemma scan_bus_returns n : ∀ bus, bridges_up cfg → 0 ≤ bus < 256 → (Z.to_nat (256 - bus) ≤ n)%nat → returns (pci_scan_bus hw n bus).
Proof.
  induction n as [|n IH]; intros bus Hup Hbus Hn; [lia|]. cbn [pci_scan_bus]. apply for_each_returns. intros dev Hd%elem_of_seqZ.
  apply scan_device_returns; [done|done|lia|]. intros b Hb. apply IH; [done|lia|lia].
Qed.

(** C25: on a machine whose bridges lead to buses of higher number, the scan of
    any bus comes back: a recursion depth of 256 minus the bus number is
    enough, whatever devices there are. *)
Theorem pci_scan_terminates bus s :
  bridges_up cfg → 0 ≤ bus < 256 →
  ∃ s', pci_scan_bus hw (Z.to_nat (256 - bus)) bus s = Ok ((), s').
Proof.
  intros Hup Hb. destruct (proj1 (wp_ok _ _ _) (scan_bus_returns (Z.to_nat (256 - bus)) bus Hup Hb ltac:(lia) s)) as ([] & s' & E & _).
  by exists s'.
Qed.

(** Device 0 of a bus is a bridge to another bus. *)
Definition bridge_at (bus other : Z) : Prop :=
  cfg_byte cfg bus 0 0 PCI_VENDOR_ID + 256 * cfg_byte cfg bus 0 0 (PCI_VENDOR_ID + 1) ≠ 0xFFFF ∧
  cfg_byte cfg bus 0 0 PCI_HEADER_TYPE = 1 ∧ cfg_byte cfg bus 0 0 0x19 = other.

Lemma scan_bridge n bus other s : 0 ≤ bus < 256 → other ≠ bus → bridge_at bus other →
  (∀ s, pci_scan_bus hw n other s = UB) → pci_scan_bus hw (S n) bus s = UB.
Proof.
  intros Hbus Hne (Hv & Hh & Hs) Hub. assert (Hb : bdf_ok bus 0 0) by (unfold bdf_ok; lia). cbn [pci_scan_bus].
  change (seqZ 0 32) with (0 :: seqZ 1 31). cbn [for_each].
  apply bind_ub.
  unfold pci_scan_device, pci_scan_function.
  rewrite (bind_ok _ _ _ _ _ (read_word_eq hw cfg Hcfg bus 0 0 PCI_VENDOR_ID _ Hb ltac:(done) eq_refl)), (proj2 (Z.eqb_neq _ _) Hv).
  apply bind_ub.
  rewrite (bind_ok _ _ _ _ _ (read_word_eq hw cfg Hcfg bus 0 0 PCI_VENDOR_ID _ Hb ltac:(done) eq_refl)), (proj2 (Z.eqb_neq _ _) Hv).
  rewrite (bind_ok _ _ _ _ _ (read_word_eq hw cfg Hcfg bus 0 0 PCI_DEVICE_ID _ Hb ltac:(done) eq_refl)).
  rewrite (bind_ok _ _ _ _ _ (read_byte_eq hw cfg Hcfg bus 0 0 PCI_CLASS_CODE _ Hb ltac:(done))).
  rewrite (bind_ok _ _ _ _ _ (read_byte_eq hw cfg Hcfg bus 0 0 PCI_CLASS_SUBCLASS _ Hb ltac:(done))).
  rewrite (bind_ok _ _ _ _ _ (read_byte_eq hw cfg Hcfg bus 0 0 PCI_REVISION _ Hb ltac:(done))).
  rewrite (bind_ok _ _ _ _ _ (read_byte_eq hw cfg Hcfg bus 0 0 PCI_HEADER_TYPE _ Hb ltac:(done))). rewrite Hh. cbn [Z.eqb Pos.eqb].
  rewrite (bind_ok _ _ _ _ _ (read_byte_eq hw cfg Hcfg bus 0 0 0x19 _ Hb ltac:(done))), Hs, (proj2 (Z.eqb_neq _ _) Hne). apply Hub.
Qed.

(** Two buses bridged to each other (device 0 of each) make the scan recurse
    for ever: no recursion depth is enough.  The only test before the recursive
    call is that the secondary bus differs from the current one. *)
Theorem pci_scan_cycle n s :
  bridge_at 0 1 → bridge_at 1 0 → pci_scan_bus hw n 0 s = UB ∧ pci_scan_bus hw n 1 s = UB.
Proof.
  intros H0 H1. revert s. induction n as [|n IH]; intros s; [done|].
  split; [apply (scan_bridge n 0 1)|apply (scan_bridge n 1 0)]; try done; try lia; intros s'; apply IH.
Qed.
End scan.

(** ** Machines *)

(** Every function is a bridge to bus 255. *)
Definition bridges_cfg : Z → Z := λ _, 0x0001FF34.

Lemma pci_scan_terminates_witness : ∃ s', pci_scan_bus (cfg_machine bridges_cfg) 256 0 [] = Ok ((), s').
Proof.
  refine (pci_scan_terminates (cfg_machine bridges_cfg) bridges_cfg _ 0 [] _ _).
  - apply cfg_machine_space. intros a. unfold bridges_cfg. lia.
  - intros bus dev func (Hb & _) _. change (cfg_byte bridges_cfg bus dev func 0x19) with 255. lia.
  - lia.
Defined.

(** Bus 0 bridged to bus 1 and bus 1 to bus 0. *)
Definition cycle_cfg : Z → Z := λ a, if Z.testbit a 16 then 0x00010034 else 0x00010134.

Lemma pci_scan_cycle_witness :
  pci_scan_bus (cfg_machine cycle_cfg) 10 0 [] = UB ∧ pci_scan_bus (cfg_machine cycle_cfg) 10 1 [] = UB.
Proof.
  apply (pci_scan_cycle (cfg_machine cycle_cfg) cycle_cfg).
  - apply cfg_machine_space. intros a. unfold cycle_cfg. destruct (Z.testbit a 16); lia.
  - split; [vm_compute; discriminate|split; reflexivity].
  - split; [vm_compute; discriminate|split; reflexivity].
Defined.
