(* ===== verification/Eth.v ===== *)
(** * The virtio-net driver

    Model of src/kernel/eth.cpp: finding the device, the initialisation
    handshake as a sequence of port accesses, and the four calls of the driver.
    Log lines are left out.  The driver is an instance of the class the network
    stack is proved against, so the properties of the stack hold on it. *)

From S2P Require Import Prelude Bytes PortIo Pci.
From S2P Require Net.
Open Scope Z_scope.

Definition VIRTIO_VENDOR_ID : Z := 0x1AF4.
Definition VIRTIO_NET_DEVICE_ID : Z := 0x1000.
Definition VIRTIO_NET_MODERN : Z := 0x1041.
Definition PCI_VENDOR_ID : Z := 0x00.
Definition PCI_COMMAND : Z := 0x04.
Definition PCI_BAR0 : Z := 0x10.
Definition PCI_BAR1 : Z := 0x14.
Definition PCI_CMD_IO_SPACE : Z := 0x0001.
Definition PCI_CMD_BUS_MASTER : Z := 0x0004.
Definition VIRTIO_DEVICE_FEATURES : Z := 0x00.
Definition VIRTIO_GUEST_FEATURES : Z := 0x04.
Definition VIRTIO_QUEUE_ADDR : Z := 0x08.
Definition VIRTIO_QUEUE_SIZE : Z := 0x0C.
Definition VIRTIO_QUEUE_SELECT : Z := 0x0E.
Definition VIRTIO_DEVICE_STATUS : Z := 0x12.
Definition VIRTIO_DEVICE_CONFIG : Z := 0x14.
Definition VIRTIO_STATUS_ACK : Z := 0x01.
Definition VIRTIO_STATUS_DRIVER : Z := 0x02.
Definition VIRTIO_STATUS_DRIVER_OK : Z := 0x04.
Definition VIRTIO_STATUS_FEATURES_OK : Z := 0x08.
Definition VIRTIO_NET_F_MAC : Z := Z.shiftl 1 5.
Definition VIRTIO_NET_F_STATUS : Z := Z.shiftl 1 16.
Definition VIRTIO_NET_CONFIG_MAC : Z := 0x00.
Definition QUEUE_NUM : Z := 256.

(** The statics the driver writes; the queue and buffer pointers stay null. *)
Record eth := mkEth {
  e_ports : list io_event;
  g_io_base : Z;
  g_device_found : bool;
  g_mac_addr : nat → Z
}.
Definition eth_boot : eth := mkEth [] 0 false (λ _, 0).

Definition set_e_ports (v : list io_event) (r : eth) : eth := mkEth v (g_io_base r) (g_device_found r) (g_mac_addr r).
Definition set_g_io_base (v : Z) (r : eth) : eth := mkEth (e_ports r) v (g_device_found r) (g_mac_addr r).
Definition set_g_device_found (v : bool) (r : eth) : eth := mkEth (e_ports r) (g_io_base r) v (g_mac_addr r).
Definition set_g_mac_addr (v : nat → Z) (r : eth) : eth := mkEth (e_ports r) (g_io_base r) (g_device_found r) v.

#[export] Instance eth_ports : HasPorts eth.
Proof. refine {| ports := e_ports; set_ports := set_e_ports |}; [done|done|by intros []]. Defined.

Section eth.
Context (hw : hardware).
Abbreviation W := (M eth).

(** ** Configuration space *)

Definition pci_config_read (bus dev func offset : Z) : W Z :=
  outl PCI_CONFIG_ADDR (cfg_address bus dev func offset);;
  inl_ hw PCI_CONFIG_DATA.

Definition pci_config_write (bus dev func offset value : Z) : W () :=
  outl PCI_CONFIG_ADDR (cfg_address bus dev func offset);;
  outl PCI_CONFIG_DATA value.

Definition is_virtio_net (id_vendor : Z) : bool :=
  let vendor := u16 (Z.land id_vendor 0xFFFF) in
  let device := u16 (Z.shiftr id_vendor 16) in
  negb (vendor =? 0xFFFF) && (vendor =? VIRTIO_VENDOR_ID) &&
  ((device =? VIRTIO_NET_DEVICE_ID) || (device =? VIRTIO_NET_MODERN)).

(** The loop over the devices [devs] of bus 0, the only bus scanned. *)
Fixpoint find_virtio_loop (devs : list Z) : W Z :=
  match devs with
  | [] => mret (-1)
  | dev :: devs =>
    id_vendor ← pci_config_read 0 dev 0 PCI_VENDOR_ID;
    if is_virtio_net id_vendor then mret (Z.lor (Z.shiftl 0 8) dev) else find_virtio_loop devs
  end.
Definition pci_find_virtio_net : W Z := find_virtio_loop (seqZ 0 32).

Definition get_io_bar_base (bus dev : Z) : W Z :=
  bar ← pci_config_read bus dev 0 PCI_BAR0;
  if has_flag bar 1 then mret (u16 (Z.land bar 0xFFFC))
  else
    bar ← pci_config_read bus dev 0 PCI_BAR1;
    if has_flag bar 1 then mret (u16 (Z.land bar 0xFFFC)) else mret 0.

(** ** Device registers *)

Definition virtio_read32 (offset : Z) : W Z := s ← get; inl_ hw (g_io_base s + offset).
Definition virtio_write32 (offset value : Z) : W () := s ← get; outl (g_io_base s + offset) value.
Definition virtio_read16 (offset : Z) : W Z := s ← get; inw hw (g_io_base s + offset).
Definition virtio_write16 (offset value : Z) : W () := s ← get; outw (g_io_base s + offset) value.
Definition virtio_read8 (offset : Z) : W Z := s ← get; inb hw (g_io_base s + offset).
Definition virtio_write8 (offset value : Z) : W () := s ← get; outb (g_io_base s + offset) value.

(** Both setup routines; neither is called. *)
Definition virtqueue_setup (queue_idx : Z) : W (option Z) :=
  virtio_write16 VIRTIO_QUEUE_SELECT queue_idx;;
  _ ← virtio_read8 VIRTIO_QUEUE_ADDR;
  size ← virtio_read16 VIRTIO_QUEUE_SIZE;
  if size =? 0 then mret None
  else if size <? QUEUE_NUM then mret None
  else mret None.

Definition virtqueue_setup_alloc (queue_idx vq_phys : Z) : W bool :=
  virtio_write32 VIRTIO_QUEUE_ADDR (u32 (Z.shiftr vq_phys 12));;
  _ ← virtio_read8 VIRTIO_QUEUE_ADDR;
  mret true.

(** Write the status register and read it back. *)
Definition set_status (v : Z) : W () :=
  virtio_write8 VIRTIO_DEVICE_STATUS v;; _ ← virtio_read8 VIRTIO_DEVICE_STATUS; mret ().

(** [for (i = 0; i < 6; ++i) g_mac_addr[i] = virtio_read8(VIRTIO_NET_CONFIG_MAC + i)] *)
Fixpoint read_mac (is_ : list nat) : W () :=
  match is_ with
  | [] => mret ()
  | i :: is_ =>
    b ← virtio_read8 (u16 (VIRTIO_NET_CONFIG_MAC + Z.of_nat i));
    modify (λ s, set_g_mac_addr (<[i := b]> (g_mac_addr s)) s);;
    read_mac is_
  end.

Definition virtio_net_init (bus dev : Z) : W bool :=
  io_base ← get_io_bar_base bus dev;
  if io_base =? 0 then mret false
  else
    modify (set_g_io_base io_base);;
    c ← pci_config_read bus dev 0 PCI_COMMAND;
    let cmd := u16 (Z.land c 0xFFFF) in
    let cmd := u16 (Z.lor cmd (Z.lor PCI_CMD_IO_SPACE PCI_CMD_BUS_MASTER)) in
    pci_config_write bus dev 0 PCI_COMMAND cmd;;
    set_status 0;;
    set_status VIRTIO_STATUS_ACK;;
    set_status (Z.lor VIRTIO_STATUS_ACK VIRTIO_STATUS_DRIVER);;
    _ ← virtio_read32 VIRTIO_DEVICE_FEATURES;
    virtio_write32 VIRTIO_GUEST_FEATURES (Z.lor VIRTIO_NET_F_MAC VIRTIO_NET_F_STATUS);;
    _ ← virtio_read32 VIRTIO_GUEST_FEATURES;
    set_status (Z.lor (Z.lor VIRTIO_STATUS_ACK VIRTIO_STATUS_DRIVER) VIRTIO_STATUS_FEATURES_OK);;
    read_mac (seq 0 6);;
    set_status (Z.lor (Z.lor (Z.lor VIRTIO_STATUS_ACK VIRTIO_STATUS_DRIVER) VIRTIO_STATUS_FEATURES_OK) VIRTIO_STATUS_DRIVER_OK);;
    modify (set_g_device_found true);;
    mret true.

(** ** The calls *)

(** The six bytes as they are stored. *)
Definition eth_get_mac (s : eth) : list Z := (λ i, u8 (g_mac_addr s i)) <$> seq 0 6.

(** Both branches only log, and both report success. *)
Definition eth_transmit (data : list Z) : W bool :=
  s ← get;
  if negb (g_device_found s) || (g_io_base s =? 0) then mret true else mret true.

Definition eth_poll_receive : W bool :=
  s ← get;
  if negb (g_device_found s) then mret false else mret false.

Fixpoint write_mac (mac : list Z) (i : nat) : W () :=
  match mac with
  | [] => mret ()
  | b :: mac =>
    virtio_write8 (u16 (VIRTIO_NET_CONFIG_MAC + Z.of_nat i)) b;;
    modify (λ s, set_g_mac_addr (<[i := b]> (g_mac_addr s)) s);;
    write_mac mac (S i)
  end.
Definition eth_set_mac (mac : list Z) : W bool :=
  s ← get;
  if negb (g_device_found s) then mret false
  else write_mac mac 0;; mret true.

Definition eth_probe : W bool :=
  location ← pci_find_virtio_net;
  if location <? 0 then mret false
  else virtio_net_init (u8 (Z.shiftr location 8)) (u8 (Z.land location 0xFF)).
End eth.

(** * Properties of the virtio-net driver *)

(** ** What the device sees

    The accesses to ports other than the two configuration ports, with the
    offset of the port from the device's base; and the bytes read at offsets 0
    to 5. *)

Inductive access :=
  | Write (width offset value : Z)
  | Read (width offset : Z).

Definition is_config_port (p : Z) : bool := (p =? PCI_CONFIG_ADDR) || (p =? PCI_CONFIG_DATA).

Definition accesses (b : Z) : list io_event → list access :=
  omap (λ e, match e with
    | Out w p v => if is_config_port p then None else Some (Write w (p - b) v)
    | In w p _ => if is_config_port p then None else Some (Read w (p - b))
    end).

Definition low_bytes (b : Z) : list io_event → list Z :=
  omap (λ e, match e with
    | In 8 p v => if negb (is_config_port p) && (0 <=? p - b) && (p - b <? 6) then Some v else None
    | _ => None
    end).

(** The 20 ports from [b] are ports, and not those of the configuration space. *)
Definition base_ok (b : Z) : Prop := 0 < b ∧ b + 20 ≤ 2 ^ 16 ∧ (b + 20 ≤ PCI_CONFIG_ADDR ∨ PCI_CONFIG_DATA < b).

(** From [s] to [s'] the device at [b] saw [acc]; the low bytes read are [mac]. *)
Definition does (b : Z) (acc : list access) (mac : list Z) (s s' : eth) : Prop :=
  ∃ tr, e_ports s' = e_ports s ++ tr ∧ accesses b tr = acc ∧ low_bytes b tr = mac ∧
    g_io_base s' = g_io_base s ∧ g_device_found s' = g_device_found s.

Lemma does_trans b a1 m1 a2 m2 s1 s2 s3 : does b a1 m1 s1 s2 → does b a2 m2 s2 s3 → does b (a1 ++ a2) (m1 ++ m2) s1 s3.
Proof.
  intros (t1 & E1 & <- & <- & B1 & F1) (t2 & E2 & <- & <- & B2 & F2). exists (t1 ++ t2).
  unfold accesses, low_bytes. rewrite !omap_app. split_and!; [by rewrite E2, E1, app_assoc|done|done|congruence|congruence].
Qed.

Section regs.
Context (hw : hardware) (b : Z) (Hb : base_ok b).
Implicit Types s : eth.

Lemma port_of_offset off : 0 ≤ off < 20 → u16 (b + off) = b + off ∧ is_config_port (b + off) = false.
Proof.
  intros Ho. destruct Hb as (H1 & H2 & H3). split; [apply wrap_small; lia|]. unfold is_config_port, PCI_CONFIG_ADDR, PCI_CONFIG_DATA in *.
  apply orb_false_iff. split; apply Z.eqb_neq; lia.
Qed.

Lemma out_does w off v s : 0 ≤ off < 20 → g_io_base s = b →
  wp (out_ w (b + off) v) (λ _ s', does b [Write w off (wrap w v)] [] s s' ∧ g_mac_addr s' = g_mac_addr s) s.
Proof.
  intros Ho Es. destruct (port_of_offset off Ho) as [E1 E2]. apply wp_modify. split; [|done].
  exists [Out w (b + off) (wrap w v)]. rewrite E1. split_and!; [done| |done|done|done].
  unfold accesses. cbn [omap list_omap]. rewrite E2. by replace (b + off - b) with off by lia.
Qed.

Lemma in_does w off s : w = 8 ∨ w = 32 → 0 ≤ off < 20 → g_io_base s = b →
  wp (in_ hw w (b + off)) (λ x s', does b [Read w off] (if (w =? 8) && (off <? 6) then [x] else []) s s' ∧
    g_mac_addr s' = g_mac_addr s ∧ x = wrap w x) s.
Proof.
  intros Hw Ho Es. destruct (port_of_offset off Ho) as [E1 E2]. unfold in_. wp_run. rewrite E1. split; [|split; [done|]].
  - exists [In w (b + off) (wrap w (hw (ports s) w (b + off)))]. split_and!; [done| | |done|done].
    + unfold accesses. cbn [omap list_omap]. rewrite E2. by replace (b + off - b) with off by lia.
    + unfold low_bytes. cbn [omap list_omap]. rewrite E2. replace (b + off - b) with off by lia. cbn [negb andb].
      rewrite (proj2 (Z.leb_le 0 off)) by lia. destruct Hw as [-> | ->]; cbn [Z.eqb Pos.eqb andb]; [by destruct (off <? 6)|done].
  - symmetry. apply wrap_idemp. lia.
Qed.

(** A write of the status register, read back. *)
Lemma set_status_does v s : g_io_base s = b →
  wp (set_status hw v) (λ _ s', does b [Write 8 0x12 (u8 v); Read 8 0x12] [] s s' ∧ g_mac_addr s' = g_mac_addr s) s.
Proof.
  intros Es. unfold set_status, virtio_write8, virtio_read8, outb, inb, VIRTIO_DEVICE_STATUS.
  apply wp_bind, wp_bind, wp_get. rewrite Es. eapply wp_mono; [by apply out_does|]. intros [] s1 [D1 M1].
  assert (Es1 : g_io_base s1 = b) by (destruct D1 as (? & _ & _ & _ & ? & _); congruence).
  apply wp_bind, wp_bind, wp_get. rewrite Es1. eapply wp_mono; [apply in_does; [by left|done|done]|]. intros x s2 (D2 & M2 & _).
  apply wp_ret. split; [|congruence]. exact (does_trans _ _ _ _ _ _ _ _ D1 D2).
Qed.

(** The loop that reads the address: bytes at offsets [i] to [i + n - 1]. *)
Lemma read_mac_does n : ∀ i s, (i + n ≤ 6)%nat → g_io_base s = b →
  wp (read_mac hw (seq i n)) (λ _ s', ∃ bs, does b (Read 8 <$> (Z.of_nat <$> seq i n)) bs s s' ∧ length bs = n ∧
    (∀ k x, bs !! k = Some x → g_mac_addr s' (i + k)%nat = x ∧ x = u8 x) ∧ ∀ j, (j < i)%nat → g_mac_addr s' j = g_mac_addr s j) s.
Proof.
  induction n as [|n IH]; intros i s Hi Es; cbn [seq read_mac].
  { wp_run. exists []. split_and!; [|done|done|done]. exists []. by rewrite app_nil_r. }
  unfold virtio_read8, inb, VIRTIO_NET_CONFIG_MAC. apply wp_bind, wp_bind, wp_get. rewrite Es, Z.add_0_l, (wrap_small 16) by lia.
  eapply wp_mono; [apply in_does; [by left|lia|done]|]. intros x s1 (D1 & M1 & Hx). cbn [Z.eqb Pos.eqb andb] in D1.
  rewrite (proj2 (Z.ltb_lt (Z.of_nat i) 6)) in D1 by lia.
  apply wp_bind, wp_modify. set (s2 := set_g_mac_addr _ s1).
  assert (D2 : does b [Read 8 (Z.of_nat i)] [x] s s2) by exact D1.
  assert (Es2 : g_io_base s2 = b) by (destruct D2 as (? & _ & _ & _ & ? & _); congruence).
  eapply wp_mono; [apply (IH (S i) s2); [lia|done]|]. intros [] s3 (bs & D3 & Hl & Hbs & Hlow). exists (x :: bs). split_and!.
  - exact (does_trans _ _ _ _ _ _ _ _ D2 D3).
  - simpl. lia.
  - intros [|k] y; simpl.
    + intros [= <-]. split; [|done]. rewrite Nat.add_0_r, Hlow by lia. subst s2. cbn [g_mac_addr set_g_mac_addr]. apply fn_lookup_insert.
    + intros Hy. replace (i + S k)%nat with (S i + k)%nat by lia. by apply Hbs.
  - intros j Hj. rewrite Hlow by lia. subst s2. cbn [g_mac_addr set_g_mac_addr]. rewrite fn_lookup_insert_ne by lia. by rewrite M1.
Qed.
End regs.

(** ** Finding the device *)

Section probe.
Context (hw : hardware) (cfg : Z → Z) (Hcfg : config_space hw cfg).
Implicit Types s : eth.

Definition virtio_at (dev : Z) : bool := is_virtio_net (cfg (cfg_address 0 dev 0 PCI_VENDOR_ID)).

Lemma config_read_wp b bus dev func off s (R : Z → eth → Prop) : bdf_ok bus dev func →
  (∀ s', does b [] [] s s' → g_mac_addr s' = g_mac_addr s → R (cfg (cfg_address bus dev func off)) s') →
  wp (pci_config_read hw bus dev func off) R s.
Proof.
  intros Hbdf HR. eapply wp_eq; [exact (read_dword_eq hw cfg Hcfg bus dev func off s Hbdf)|]. apply HR; [|done].
  exists (read_events cfg bus dev func off). split_and!; done.
Qed.

Lemma does_refl b s : does b [] [] s s.
Proof. exists []. by rewrite app_nil_r. Qed.

Lemma find_virtio_wp b devs : ∀ s, Forall (λ d, 0 ≤ d < 32) devs →
  wp (find_virtio_loop hw devs) (λ r s', does b [] [] s s' ∧ g_mac_addr s' = g_mac_addr s ∧
    r = default (-1) (list.head (filter (λ d, virtio_at d = true) devs))) s.
Proof.
  induction devs as [|d devs IH]; intros s Hf; cbn [find_virtio_loop]; [wp_run; split; [apply does_refl|done]|].
  apply Forall_cons in Hf as [Hd Hf]. apply wp_bind, (config_read_wp b); [unfold bdf_ok; lia|]. intros s1 D1 M1.
  fold (virtio_at d). rewrite filter_cons. destruct (virtio_at d) eqn:Ev.
  - rewrite decide_True by done. wp_run. split_and!; [done|done|]. simpl. by rewrite Z.shiftl_0_l, Z.lor_0_l.
  - rewrite decide_False by done. eapply wp_mono; [by apply IH|]. intros r s2 (D2 & M2 & ->). split_and!; [|congruence|done].
    exact (does_trans _ _ _ _ _ _ _ _ D1 D2).
Qed.

(** The base the driver computes from the first two base address registers. *)
Definition io_bar (dev : Z) : Z :=
  let bar0 := cfg (cfg_address 0 dev 0 PCI_BAR0) in
  let bar1 := cfg (cfg_address 0 dev 0 PCI_BAR1) in
  if has_flag bar0 1 then u16 (Z.land bar0 0xFFFC) else if has_flag bar1 1 then u16 (Z.land bar1 0xFFFC) else 0.

Lemma get_io_bar_wp b dev s : 0 ≤ dev < 32 →
  wp (get_io_bar_base hw 0 dev) (λ r s', does b [] [] s s' ∧ g_mac_addr s' = g_mac_addr s ∧ r = io_bar dev) s.
Proof.
  intros Hd. unfold get_io_bar_base, io_bar. apply wp_bind, (config_read_wp b); [unfold bdf_ok; lia|]. intros s1 D1 M1.
  destruct (has_flag _ 1); [by wp_run|]. apply wp_bind, (config_read_wp b); [unfold bdf_ok; lia|]. intros s2 D2 M2.
  pose proof (does_trans _ _ _ _ _ _ _ _ D1 D2) as D. destruct (has_flag _ 1); wp_run; split_and!; (done || congruence).
Qed.

(** The handshake of the specification: reset, acknowledge, driver, features
    read, written and read back, features-ok, the device's address, driver-ok;
    every status write is read back. *)
Definition handshake : list access :=
  [Write 8 0x12 0; Read 8 0x12; Write 8 0x12 1; Read 8 0x12; Write 8 0x12 3; Read 8 0x12;
   Read 32 0; Write 32 4 0x10020; Read 32 4; Write 8 0x12 11; Read 8 0x12;
   Read 8 0; Read 8 1; Read 8 2; Read 8 3; Read 8 4; Read 8 5; Write 8 0x12 15; Read 8 0x12].

Lemma config_write_wp b bus dev func off v s (R : () → eth → Prop) :
  (∀ s', does b [] [] s s' → g_mac_addr s' = g_mac_addr s → R () s') → wp (pci_config_write bus dev func off v) R s.
Proof.
  intros HR. unfold pci_config_write, outl, out_. wp_run. apply HR; [|done].
  exists [Out 32 PCI_CONFIG_ADDR (u32 (cfg_address bus dev func off)); Out 32 PCI_CONFIG_DATA (u32 v)].
  split_and!; [|done|done|done|done]. cbn [e_ports set_ports eth_ports set_e_ports ports]. by rewrite <-app_assoc.
Qed.

(** The accesses so far, since [s0], with the base set. *)
Definition seen b s0 acc mac s : Prop := does b acc mac s0 s ∧ g_io_base s = b.

Lemma seen_step b s0 acc mac s a m s' : seen b s0 acc mac s → does b a m s s' → seen b s0 (acc ++ a) (mac ++ m) s'.
Proof.
  intros [D E] D'. split; [by eapply does_trans|]. destruct D' as (? & _ & _ & _ & ? & _). congruence.
Qed.

Lemma status_step b s0 acc mac s v (k : () → M eth bool) R : base_ok b → seen b s0 acc mac s →
  (∀ s', seen b s0 (acc ++ [Write 8 0x12 (u8 v); Read 8 0x12]) mac s' → g_mac_addr s' = g_mac_addr s → wp (k ()) R s') →
  wp (set_status hw v ≫= k) R s.
Proof.
  intros Hb Hs Hk. apply wp_bind. eapply wp_mono; [apply (set_status_does hw b Hb v s), Hs|]. intros [] s' [D M]. apply Hk; [|done].
  rewrite <-(app_nil_r mac). by eapply seen_step.
Qed.

Lemma read32_step b s0 acc mac s off (k : Z → M eth bool) R : base_ok b → 0 ≤ off < 20 → seen b s0 acc mac s →
  (∀ x s', seen b s0 (acc ++ [Read 32 off]) mac s' → wp (k x) R s') → wp (virtio_read32 hw off ≫= k) R s.
Proof.
  intros Hb Ho Hs Hk. unfold virtio_read32, inl_. apply wp_bind, wp_bind, wp_get. rewrite (proj2 Hs).
  eapply wp_mono; [apply (in_does hw b Hb 32 off); [by right|done|apply Hs]|]. intros x s' (D & _ & _). apply Hk.
  rewrite <-(app_nil_r mac). eapply seen_step; [done|exact D].
Qed.

Lemma write32_step b s0 acc mac s off v (k : () → M eth bool) R : base_ok b → 0 ≤ off < 20 → seen b s0 acc mac s →
  (∀ s', seen b s0 (acc ++ [Write 32 off (u32 v)]) mac s' → wp (k ()) R s') → wp (virtio_write32 off v ≫= k) R s.
Proof.
  intros Hb Ho Hs Hk. unfold virtio_write32, outl. apply wp_bind, wp_bind, wp_get. rewrite (proj2 Hs).
  eapply wp_mono; [apply (out_does b Hb 32 off); [done|apply Hs]|]. intros [] s' [D _]. apply Hk.
  rewrite <-(app_nil_r mac). eapply seen_step; [done|exact D].
Qed.

Lemma init_device_wp b dev s : base_ok b → 0 ≤ dev < 32 → io_bar dev = b →
  wp (virtio_net_init hw 0 dev) (λ r s', r = true ∧ g_io_base s' = b ∧ g_device_found s' = true ∧
    ∃ tr, e_ports s' = e_ports s ++ tr ∧ accesses b tr = handshake ∧ eth_get_mac s' = low_bytes b tr) s.
Proof.
  intros Hb Hd Hbar. unfold virtio_net_init. apply wp_bind. eapply wp_mono; [by apply (get_io_bar_wp b)|].
  intros r s0 ((t0 & P0 & A0 & L0 & _) & _ & ->). rewrite Hbar. destruct (Z.eqb_spec b 0) as [->|_]; [destruct Hb; lia|].
  apply wp_bind, wp_modify. set (s1 := set_g_io_base b s0).
  assert (S1 : seen b s1 [] [] s1) by (split; [apply does_refl|done]).
  apply wp_bind, (config_read_wp b); [unfold bdf_ok; lia|]. intros s2 D2 _. pose proof (seen_step _ _ _ _ _ _ _ _ S1 D2) as S2.
  apply wp_bind, (config_write_wp b). intros s3 D3 _. pose proof (seen_step _ _ _ _ _ _ _ _ S2 D3) as S3. cbn [app] in S3.
  eapply status_step; [done|exact S3|]. intros s4 S4 _. eapply status_step; [done|exact S4|]. intros s5 S5 _.
  eapply status_step; [done|exact S5|]. intros s6 S6 _. eapply read32_step; [done|done|exact S6|]. intros _ s7 S7.
  eapply write32_step; [done|done|exact S7|]. intros s8 S8. eapply read32_step; [done|done|exact S8|]. intros _ s9 S9.
  eapply status_step; [done|exact S9|]. intros s10 S10 _.
  apply wp_bind. eapply wp_mono; [apply (read_mac_does hw b Hb 6 0); [lia|apply S10]|]. intros [] s11 (bs & D11 & Hl & Hbs & _).
  pose proof (seen_step _ _ _ _ _ _ _ _ S10 D11) as S11.
  eapply status_step; [done|exact S11|]. intros s12 S12 M12. apply wp_bind, wp_modify, wp_ret.
  destruct S12 as [(tr & P & A & L & _ & _) B]. split_and!; [done|exact B|done|]. exists (t0 ++ tr). split_and!.
  - cbn [e_ports set_g_device_found]. rewrite P. change (e_ports s1) with (e_ports s0). by rewrite P0, app_assoc.
  - unfold accesses in *. rewrite omap_app, A0, A. reflexivity.
  - unfold low_bytes in *. rewrite omap_app, L0, L. cbn [app]. unfold eth_get_mac. cbn [g_mac_addr set_g_device_found]. rewrite M12.
    assert (G : ∀ k x, bs !! k = Some x → u8 (g_mac_addr s11 k) = x) by (intros k x Hx; destruct (Hbs k x Hx) as [E E']; simpl in E; by rewrite E).
    do 7 (destruct bs as [|? bs]; try done). simpl.
    by rewrite (G 0%nat _ eq_refl), (G 1%nat _ eq_refl), (G 2%nat _ eq_refl), (G 3%nat _ eq_refl), (G 4%nat _ eq_refl), (G 5%nat _ eq_refl).
Qed.

(** The device [eth_probe] takes: the first on bus 0. *)
Definition first_virtio : option Z := list.head (filter (λ d, virtio_at d = true) (seqZ 0 32)).

Lemma first_virtio_range d : first_virtio = Some d → 0 ≤ d < 32.
Proof.
  intros E. apply head_Some_elem_of, list_elem_of_filter in E as [_ E%elem_of_seqZ]. lia.
Qed.

(** C23: [eth_probe] on a machine with a configuration space, from any state of
    the driver.  Without a virtio-net device on bus 0 it returns false and no
    port but the configuration ports is touched.  Otherwise, when the first
    such device has an I/O window, it returns true and the accesses to the
    device are exactly the initialisation handshake, in order, with the status
    going 0, 1, 3, 11, 15 and both feature bits requested; the driver is then
    ready at that base.  The station address it reports is the six bytes read
    at offsets 0 to 5 of the window, which are the feature registers: the
    device-specific area, where the address is, starts at offset 20. *)
Theorem eth_probe_handshake s :
  match first_virtio with
  | None => ∃ s', eth_probe hw s = Ok (false, s') ∧ ∃ tr, e_ports s' = e_ports s ++ tr ∧ accesses 0 tr = []
  | Some d => base_ok (io_bar d) → ∃ s' tr, eth_probe hw s = Ok (true, s') ∧
      g_io_base s' = io_bar d ∧ g_device_found s' = true ∧
      e_ports s' = e_ports s ++ tr ∧ accesses (io_bar d) tr = handshake ∧ eth_get_mac s' = low_bytes (io_bar d) tr
  end.
Proof.
  destruct first_virtio as [d|] eqn:Ef.
  - intros Hb. pose proof (first_virtio_range d Ef) as Hd.
    assert (Hw : wp (eth_probe hw) (λ r s', r = true ∧ g_io_base s' = io_bar d ∧ g_device_found s' = true ∧
      ∃ tr, e_ports s' = e_ports s ++ tr ∧ accesses (io_bar d) tr = handshake ∧ eth_get_mac s' = low_bytes (io_bar d) tr) s).
    { unfold eth_probe, pci_find_virtio_net. apply wp_bind.
      eapply wp_mono; [apply (find_virtio_wp (io_bar d)); apply Forall_forall; intros x Hx%elem_of_seqZ; lia|].
      intros r s1 ((t1 & P1 & A1 & L1 & _) & _ & ->). fold first_virtio. rewrite Ef. simpl default.
      rewrite (proj2 (Z.ltb_ge d 0)) by lia. replace (u8 (Z.shiftr d 8)) with 0.
      2: { rewrite Z.shiftr_div_pow2, Z.div_small by lia. done. }
      replace (u8 (Z.land d 0xFF)) with d.
      2: { change 0xFF with (Z.ones 8). rewrite Z.land_ones by done. rewrite Z.mod_small by lia. by rewrite wrap_small by lia. }
      eapply wp_mono; [by apply (init_device_wp (io_bar d))|]. intros r s2 (-> & B & Fd & t2 & P2 & A2 & L2). split_and!; [done|done|done|].
      exists (t1 ++ t2). unfold accesses, low_bytes in *. rewrite !omap_app, A1, L1. split_and!; [by rewrite P2, P1, app_assoc|done|done]. }
    apply wp_ok in Hw as (r & s' & E & -> & HB & HF & tr & HQ). by exists s', tr.
  - assert (Hw : wp (eth_probe hw) (λ r s', r = false ∧ ∃ tr, e_ports s' = e_ports s ++ tr ∧ accesses 0 tr = []) s).
    { unfold eth_probe, pci_find_virtio_net. apply wp_bind.
      eapply wp_mono; [apply (find_virtio_wp 0); apply Forall_forall; intros x Hx%elem_of_seqZ; lia|].
      intros r s1 ((t1 & P1 & A1 & _) & _ & ->). fold first_virtio. rewrite Ef. simpl default. simpl (-1 <? 0). wp_run. split; [done|]. by exists t1. }
    apply wp_ok in Hw as (r & s' & E & -> & HQ). by exists s'.
Qed.
End probe.

(** ** The interface of the network stack *)

(** Nothing is ever sent, and success is always reported. *)
Lemma eth_transmit_sends_nothing data s : eth_transmit data s = Ok (true, s).
Proof. unfold eth_transmit, get, mbind, M_bind. by destruct (_ || _). Qed.

Lemma eth_poll_receive_never s : eth_poll_receive s = Ok (false, s).
Proof. unfold eth_poll_receive, get, mbind, M_bind. by destruct (negb _). Qed.

Lemma eth_mac_6 s : length (eth_get_mac s) = 6%nat.
Proof. done. Qed.

Lemma eth_mac_ok s : bytes_ok (eth_get_mac s).
Proof. unfold eth_get_mac. repeat constructor; apply (wrap_range 8); lia. Qed.

(** The driver discharges what the network stack relies on. *)
#[export] Instance virtio_layer : Net.EthLayer eth.
Proof.
  refine {| Net.eth_transmit := eth_transmit; Net.eth_get_mac := eth_get_mac |}.
  - intros frame n. exists true, n. split; [apply eth_transmit_sends_nothing|done].
  - apply eth_mac_6.
  - apply eth_mac_ok.
Defined.

(** ** A machine *)

(** One virtio-net device, the third of bus 0, with its window at 0xC000. *)
Definition virtio_cfg : Z → Z := λ a,
  if Z.land (Z.shiftr a 11) 31 =? 3 then
    if Z.land a 0xFC =? 0 then 0x10001AF4 else if Z.land a 0xFC =? 0x10 then 0xC001 else 0
  else 0xFFFFFFFF.

Lemma virtio_cfg_space : config_space (cfg_machine virtio_cfg) virtio_cfg.
Proof.
  apply cfg_machine_space. intros a. unfold virtio_cfg. destruct (_ =? 3); [|lia]. destruct (_ =? 0); [lia|]. destruct (_ =? 0x10); lia.
Qed.

Lemma eth_probe_handshake_witness :
  ∃ s' tr, eth_probe (cfg_machine virtio_cfg) eth_boot = Ok (true, s') ∧ g_io_base s' = 0xC000 ∧ g_device_found s' = true ∧
    e_ports s' = [] ++ tr ∧ accesses 0xC000 tr = handshake ∧ eth_get_mac s' = low_bytes 0xC000 tr.
Proof.
  pose proof (eth_probe_handshake (cfg_machine virtio_cfg) virtio_cfg virtio_cfg_space eth_boot) as Hp.
  assert (E : first_virtio virtio_cfg = Some 3) by (vm_compute; reflexivity). rewrite E in Hp.
  assert (Eb : io_bar virtio_cfg 3 = 0xC000) by (vm_compute; reflexivity). rewrite Eb in Hp. apply Hp.
  unfold base_ok, PCI_CONFIG_ADDR, PCI_CONFIG_DATA. lia.
Defined.

(** ** The queue in memory

    The structures the driver declares for a queue shared with the device, and their
    layout: all are packed, so nothing is inserted between members. *)

Record VringDesc := mkVringDesc { vd_addr : Z; vd_len : Z; vd_flags : Z; vd_next : Z }.
Record VringAvail := mkVringAvail { va_flags : Z; va_idx : Z; va_ring : list Z }.
Record VringUsedElem := mkVringUsedElem { ue_id : Z; ue_len : Z }.
Record VringUsed := mkVringUsed { vu_flags : Z; vu_idx : Z; vu_ring : list VringUsedElem }.
Record VirtQueue := mkVirtQueue { descs : list VringDesc; avail : VringAvail; q_pad : list Z; used : VringUsed }.

Definition desc_bytes (d : VringDesc) : list Z := le_bytes 8 (vd_addr d) ++ le_bytes 4 (vd_len d) ++ le_bytes 2 (vd_flags d) ++ le_bytes 2 (vd_next d).
Definition avail_bytes (a : VringAvail) : list Z := le_bytes 2 (va_flags a) ++ le_bytes 2 (va_idx a) ++ (va_ring a ≫= le_bytes 2).
Definition used_elem_bytes (e : VringUsedElem) : list Z := le_bytes 4 (ue_id e) ++ le_bytes 4 (ue_len e).
Definition used_bytes (u : VringUsed) : list Z := le_bytes 2 (vu_flags u) ++ le_bytes 2 (vu_idx u) ++ (vu_ring u ≫= used_elem_bytes).
Definition queue_bytes (q : VirtQueue) : list Z := (descs q ≫= desc_bytes) ++ avail_bytes (avail q) ++ q_pad q ++ used_bytes (used q).

(** The arrays have their declared lengths. *)
Definition queue_ok (q : VirtQueue) : Prop :=
  length (descs q) = Z.to_nat QUEUE_NUM ∧ length (va_ring (avail q)) = Z.to_nat QUEUE_NUM ∧ length (q_pad q) = 2%nat ∧
  length (vu_ring (used q)) = Z.to_nat QUEUE_NUM.

Record VirtioNetHeader := mkNetHeader { h_flags : Z; gso_type : Z; hdr_len : Z; gso_size : Z; csum_start : Z; csum_offset : Z; num_buffers : Z }.
Definition net_header_bytes (h : VirtioNetHeader) : list Z :=
  le_bytes 1 (h_flags h) ++ le_bytes 1 (gso_type h) ++ le_bytes 2 (hdr_len h) ++ le_bytes 2 (gso_size h) ++ le_bytes 2 (csum_start h) ++
  le_bytes 2 (csum_offset h) ++ le_bytes 2 (num_buffers h).

Lemma length_bind_const {A} (f : A → list Z) (k : nat) l : (∀ x, length (f x) = k) → length (l ≫= f) = (k * length l)%nat.
Proof. intros Hf. induction l as [|x l IH]; [by rewrite Nat.mul_0_r|]. rewrite bind_cons, length_app, IH, Hf. cbn [length]. lia. Qed.

(** The whole queue is 6666 bytes, two pages, and the ring the device writes
    starts at byte 4614: two bytes of padding do not bring it to a page. *)
Theorem virtqueue_layout q : queue_ok q →
  Z.of_nat (length (queue_bytes q)) = 6666 ∧ drop 4614 (queue_bytes q) = used_bytes (used q) ∧ 4614 mod 4096 ≠ 0.
Proof.
  intros (H1 & H2 & H3 & H4). change (Z.to_nat QUEUE_NUM) with 256%nat in *.
  assert (Ld : length (descs q ≫= desc_bytes) = 4096%nat)
    by (rewrite (length_bind_const _ 16), H1; [done|]; intros x; unfold desc_bytes; by rewrite !length_app, !le_bytes_length).
  assert (La : length (avail_bytes (avail q)) = 516%nat)
    by (unfold avail_bytes; rewrite !length_app, !le_bytes_length, (length_bind_const _ 2), H2; [done|]; intros x; apply le_bytes_length).
  assert (Lu : length (used_bytes (used q)) = 2052%nat)
    by (unfold used_bytes; rewrite !length_app, !le_bytes_length, (length_bind_const _ 8), H4; [done|]; intros x; unfold used_elem_bytes; by rewrite !length_app, !le_bytes_length).
  unfold queue_bytes. split; [by rewrite !length_app, Ld, La, H3, Lu|]. split; [|done].
  rewrite !app_assoc. apply drop_app_length'. by rewrite !length_app, Ld, La, H3.
Qed.
