(* ===== verification/Nvme.v ===== *)
(** * The NVMe driver

    Model of src/kernel/nvme.cpp.  Log lines are left out.  The controller is a
    parameter in two parts: [dev] answers the loads of its registers, and [dma]
    gives the memory after what the controller has written to it, given the
    accesses so far.  The code looks at memory the controller writes in its
    polling loops only, so [dma] is applied before each of those loads; the
    loads are plain and there is no fence, and the model takes them to be made
    on every turn, in program order.

    [raw] stands for what fresh heap memory holds. *)

From S2P Require Import Prelude Bytes Pmm PmmBlocks PageAlloc KernelHeap PortIo Pci.
Open Scope Z_scope.

Definition NVME_REG_CAP : Z := 0x0000.
Definition NVME_REG_VS : Z := 0x0008.
Definition NVME_REG_CC : Z := 0x0014.
Definition NVME_REG_CSTS : Z := 0x001C.
Definition NVME_REG_AQA : Z := 0x0024.
Definition NVME_REG_ASQ : Z := 0x0028.
Definition NVME_REG_ACQ : Z := 0x0030.
Definition NVME_CC_ENABLE : Z := Z.shiftl 1 0.
Definition NVME_CC_IOSQES : Z := Z.shiftl 6 16.
Definition NVME_CC_IOCQES : Z := Z.shiftl 4 20.
Definition NVME_CC_AMS_RR : Z := Z.shiftl 0 11.
Definition NVME_CC_SHN_NONE : Z := Z.shiftl 0 14.
Definition NVME_CC_CSS_NVM : Z := Z.shiftl 0 4.
Definition NVME_CSTS_RDY : Z := Z.shiftl 1 0.

Definition NVME_DOORBELL_SQ (q : Z) : Z := u32 (0x1000 + q * 8).
Definition NVME_DOORBELL_CQ (q : Z) : Z := u32 (0x1000 + q * 8 + 4).

Definition NVME_ADMIN_QUEUE_SIZE : Z := 64.
Definition NVME_IO_QUEUE_SIZE : Z := 256.
Definition NVME_ADMIN_CREATE_SQ : Z := 0x01.
Definition NVME_ADMIN_CREATE_CQ : Z := 0x05.
Definition NVME_ADMIN_IDENTIFY : Z := 0x06.
Definition NVME_IO_WRITE : Z := 0x01.
Definition NVME_IO_READ : Z := 0x02.

(** The bound of every waiting loop. *)
Definition NVME_TIMEOUT : nat := Z.to_nat 1000000.

Record NvmeCmd := mkCmd {
  c_opcode : Z; c_flags : Z; c_command_id : Z; c_nsid : Z;
  c_cdw2 : Z; c_cdw3 : Z; c_mptr : Z; c_prp1 : Z; c_prp2 : Z;
  c_cdw10 : Z; c_cdw11 : Z; c_cdw12 : Z; c_cdw13 : Z; c_cdw14 : Z; c_cdw15 : Z
}.
Definition sizeof_NvmeCmd : Z := 64.
Definition sizeof_NvmeCqe : Z := 16.

(** The packed structure as the assignment [sq_virt[tail] = cmd] stores it. *)
Definition cmd_bytes (c : NvmeCmd) : list Z :=
  le_bytes 1 (c_opcode c) ++ le_bytes 1 (c_flags c) ++ le_bytes 2 (c_command_id c) ++ le_bytes 4 (c_nsid c) ++
  le_bytes 4 (c_cdw2 c) ++ le_bytes 4 (c_cdw3 c) ++ le_bytes 8 (c_mptr c) ++ le_bytes 8 (c_prp1 c) ++ le_bytes 8 (c_prp2 c) ++
  le_bytes 4 (c_cdw10 c) ++ le_bytes 4 (c_cdw11 c) ++ le_bytes 4 (c_cdw12 c) ++
  le_bytes 4 (c_cdw13 c) ++ le_bytes 4 (c_cdw14 c) ++ le_bytes 4 (c_cdw15 c).

(** [NvmeCmd cmd{}] followed by the assignments of the code. *)
Definition make_cmd (opcode nsid prp1 cdw10 cdw11 cdw12 : Z) : NvmeCmd :=
  mkCmd opcode 0 0 nsid 0 0 0 prp1 0 cdw10 cdw11 cdw12 0 0 0.

Record NvmeQueue := mkQueue {
  sq_virt : Z; cq_virt : Z; sq_phys : Z; cq_phys : Z;
  sq_tail : Z; cq_head : Z; qid : Z; qsize : Z; phase : Z
}.
(** Four words, four double words and the phase, padded. *)
Definition sizeof_NvmeQueue : Z := 56.

Definition set_sq (virt phys : Z) (r : NvmeQueue) : NvmeQueue :=
  mkQueue virt (cq_virt r) phys (cq_phys r) (sq_tail r) (cq_head r) (qid r) (qsize r) (phase r).
Definition set_cq (virt phys : Z) (r : NvmeQueue) : NvmeQueue :=
  mkQueue (sq_virt r) virt (sq_phys r) phys (sq_tail r) (cq_head r) (qid r) (qsize r) (phase r).
Definition set_sq_tail (v : Z) (r : NvmeQueue) : NvmeQueue :=
  mkQueue (sq_virt r) (cq_virt r) (sq_phys r) (cq_phys r) v (cq_head r) (qid r) (qsize r) (phase r).
Definition set_cq_head (v : Z) (r : NvmeQueue) : NvmeQueue :=
  mkQueue (sq_virt r) (cq_virt r) (sq_phys r) (cq_phys r) (sq_tail r) v (qid r) (qsize r) (phase r).
Definition set_phase (v : Z) (r : NvmeQueue) : NvmeQueue :=
  mkQueue (sq_virt r) (cq_virt r) (sq_phys r) (cq_phys r) (sq_tail r) (cq_head r) (qid r) (qsize r) v.
(** The five assignments that open [nvme_create_queue]. *)
Definition init_queue (id size : Z) (r : NvmeQueue) : NvmeQueue :=
  mkQueue (sq_virt r) (cq_virt r) (sq_phys r) (cq_phys r) 0 0 id size 1.

Record nvme (H PA : Type) := mkNvme {
  nv_heap : H;
  nv_pages : PA;
  nv_mem : Z → Z;
  nv_ports : list io_event;
  nv_mmio : list mmio_event;
  nv_queues : gmap Z NvmeQueue;
  kRegs : Z;
  kDoorbells : Z;
  kAdminQ : option Z;
  kIoQ : option Z
}.
Arguments mkNvme {H PA}.
Arguments nv_heap {H PA} _.
Arguments nv_pages {H PA} _.
Arguments nv_mem {H PA} _.
Arguments nv_ports {H PA} _.
Arguments nv_mmio {H PA} _.
Arguments nv_queues {H PA} _.
Arguments kRegs {H PA} _.
Arguments kDoorbells {H PA} _.
Arguments kAdminQ {H PA} _.
Arguments kIoQ {H PA} _.

Section setters.
Context {H PA : Type}.
Implicit Types r : nvme H PA.
Definition set_nv_heap v r : nvme H PA := mkNvme v (nv_pages r) (nv_mem r) (nv_ports r) (nv_mmio r) (nv_queues r) (kRegs r) (kDoorbells r) (kAdminQ r) (kIoQ r).
Definition set_nv_pages v r : nvme H PA := mkNvme (nv_heap r) v (nv_mem r) (nv_ports r) (nv_mmio r) (nv_queues r) (kRegs r) (kDoorbells r) (kAdminQ r) (kIoQ r).
Definition set_nv_mem v r : nvme H PA := mkNvme (nv_heap r) (nv_pages r) v (nv_ports r) (nv_mmio r) (nv_queues r) (kRegs r) (kDoorbells r) (kAdminQ r) (kIoQ r).
Definition set_nv_ports v r : nvme H PA := mkNvme (nv_heap r) (nv_pages r) (nv_mem r) v (nv_mmio r) (nv_queues r) (kRegs r) (kDoorbells r) (kAdminQ r) (kIoQ r).
Definition set_nv_mmio v r : nvme H PA := mkNvme (nv_heap r) (nv_pages r) (nv_mem r) (nv_ports r) v (nv_queues r) (kRegs r) (kDoorbells r) (kAdminQ r) (kIoQ r).
Definition set_nv_queues v r : nvme H PA := mkNvme (nv_heap r) (nv_pages r) (nv_mem r) (nv_ports r) (nv_mmio r) v (kRegs r) (kDoorbells r) (kAdminQ r) (kIoQ r).
Definition set_kRegs v d r : nvme H PA := mkNvme (nv_heap r) (nv_pages r) (nv_mem r) (nv_ports r) (nv_mmio r) (nv_queues r) v d (kAdminQ r) (kIoQ r).
Definition set_kAdminQ v r : nvme H PA := mkNvme (nv_heap r) (nv_pages r) (nv_mem r) (nv_ports r) (nv_mmio r) (nv_queues r) (kRegs r) (kDoorbells r) v (kIoQ r).
Definition set_kIoQ v r : nvme H PA := mkNvme (nv_heap r) (nv_pages r) (nv_mem r) (nv_ports r) (nv_mmio r) (nv_queues r) (kRegs r) (kDoorbells r) (kAdminQ r) v.
End setters.

#[export] Instance nvme_ports {H PA} : HasPorts (nvme H PA).
Proof. refine {| ports := nv_ports; set_ports := set_nv_ports |}; [done|done|by intros []]. Defined.
#[export] Instance nvme_mmio {H PA} : HasMmio (nvme H PA).
Proof. refine {| mmio := nv_mmio; set_mmio := set_nv_mmio |}; [done|done|by intros []]. Defined.

(** A little-endian load of [n] bytes. *)
Definition load_le (n : nat) (mem : Z → Z) (a : Z) : Z := le_value ((λ i : nat, mem (a + Z.of_nat i)) <$> seq 0 n).

Section nvme.
Context {H PA : Type} `{!KernelHeap H} `{!PageAllocator PA}.
Context (hw : hardware) (dev : mmio_device) (dma : list mmio_event → (Z → Z) → Z → Z) (raw : NvmeQueue).
Abbreviation W := (M (nvme H PA)).

Definition nv_page_op {A} (op : M PA A) : W A := λ s,
  match op (nv_pages s) with
  | Ok (a, pa) => Ok (a, set_nv_pages pa s)
  | Panic msg => Panic msg
  | UB => UB
  end.
Definition nv_heap_op {A} (op : M H A) : W A := λ s,
  match op (nv_heap s) with
  | Ok (a, h) => Ok (a, set_nv_heap h s)
  | Panic msg => Panic msg
  | UB => UB
  end.

Definition read_queue (q : Z) : W NvmeQueue := s ← get; deref (nv_queues s !! q).
Definition write_queue (q : Z) (f : NvmeQueue → NvmeQueue) : W () :=
  r ← read_queue q; modify (λ s, set_nv_queues (<[q := f r]> (nv_queues s)) s).
Definition write_mem (a : Z) (bs : list Z) : W () := modify (λ s, set_nv_mem (mem_write (nv_mem s) a bs) s).
Definition get_hhdm : W Z := gets (λ s, pa_hhdm (nv_pages s)).

(** ** Queues *)

Definition ring_bytes (entry size : Z) : Z := u32 (size * entry).
Definition ring_pages (bytes : Z) : Z := u32 ((bytes + PAGE_SIZE - 1) / PAGE_SIZE).

(** [kmalloc] and the object it returns. *)
Definition new_queue : W (option Z) :=
  q ← nv_heap_op (kmalloc sizeof_NvmeQueue);
  if q =? 0 then mret None
  else modify (λ s, set_nv_queues (<[q := raw]> (nv_queues s)) s);; mret (Some q).
Definition free_queue (q : Z) : W () :=
  nv_heap_op (kfree q);;
  modify (λ s, set_nv_queues (delete q (nv_queues s)) s).

(** The half for the completion queue, given the submission queue. *)
Definition create_cq (q size hhdm sq sq_pages : Z) : W (option Z) :=
  let cq_size_bytes := ring_bytes sizeof_NvmeCqe size in
  let cq_pages := ring_pages cq_size_bytes in
  cq ← nv_page_op (pa_alloc cq_pages);
  if cq =? 0 then
    nv_page_op (pa_free sq sq_pages);;
    free_queue q;;
    mret None
  else
    write_queue q (set_cq (cq +64 hhdm) cq);;
    write_mem (cq +64 hhdm) (replicate (Z.to_nat cq_size_bytes) 0);;
    mret (Some q).

Definition nvme_create_queue (id size : Z) : W (option Z) :=
  q ← new_queue;
  match q with
  | None => mret None
  | Some q =>
    write_queue q (init_queue id size);;
    hhdm ← get_hhdm;
    let sq_size_bytes := ring_bytes sizeof_NvmeCmd size in
    let sq_pages := ring_pages sq_size_bytes in
    sq ← nv_page_op (pa_alloc sq_pages);
    if sq =? 0 then free_queue q;; mret None
    else
      write_queue q (set_sq (sq +64 hhdm) sq);;
      write_mem (sq +64 hhdm) (replicate (Z.to_nat sq_size_bytes) 0);;
      create_cq q size hhdm sq sq_pages
  end.

Definition nvme_destroy_queue (q : option Z) : W () :=
  match q with
  | None => mret ()
  | Some q =>
    r ← read_queue q;
    nv_page_op (pa_free (sq_phys r) (ring_pages (ring_bytes sizeof_NvmeCmd (qsize r))));;
    nv_page_op (pa_free (cq_phys r) (ring_pages (ring_bytes sizeof_NvmeCqe (qsize r))));;
    free_queue q
  end.

(** ** Registers *)

Definition reg_read32 (offset : Z) : W Z := s ← get; mmio_load dev 32 (kRegs s +64 offset).
Definition reg_write32 (offset value : Z) : W () := s ← get; mmio_store 32 (kRegs s +64 offset) value.
Definition reg_write64 (offset value : Z) : W () := s ← get; mmio_store 64 (kRegs s +64 offset) value.
Definition reg_read64 (offset : Z) : W Z := s ← get; mmio_load dev 64 (kRegs s +64 offset).
Definition sq_doorbell_ring (id tail : Z) : W () := reg_write32 (NVME_DOORBELL_SQ id) tail.
Definition cq_doorbell_ring (id head : Z) : W () := reg_write32 (NVME_DOORBELL_CQ id) head.

(** ** Commands *)

(** [(i + 1) % size], undefined for an empty ring. *)
Definition ring_next (size i : Z) : W Z := if size =? 0 then undefined else mret (u32 (i + 1) mod size).

(** Place a command in a submission queue and ring its doorbell: the same lines
    in [nvme_admin_cmd] and in both block calls. *)
Definition submit (q id : Z) (cmd : NvmeCmd) : W () :=
  r ← read_queue q;
  write_mem (sq_virt r +64 sizeof_NvmeCmd * sq_tail r) (cmd_bytes cmd);;
  tail ← ring_next (qsize r) (sq_tail r);
  write_queue q (set_sq_tail tail);;
  sq_doorbell_ring id tail.

(** [cqe->status], after what the controller wrote. *)
Definition read_cqe_status (a : Z) : W Z :=
  modify (λ s, set_nv_mem (dma (nv_mmio s) (nv_mem s)) s);;
  gets (λ s, load_le 2 (nv_mem s) (a +64 14)).

(** The body of the polling loop once the phase tag has matched. *)
Definition consume (q id cq_head_ status : Z) (r : NvmeQueue) : W Z :=
  head ← ring_next (qsize r) cq_head_;
  write_queue q (set_cq_head head);;
  when (head =? 0) (write_queue q (λ r, set_phase (Z.lxor (phase r) 1) r));;
  cq_doorbell_ring id head;;
  mret (Z.land (Z.shiftr status 1) 0x7FFF).

(** The polling loop; [None] when the timeout has run out. *)
Fixpoint cq_poll (timeout : nat) (q id : Z) : W (option Z) :=
  match timeout with
  | O => mret None
  | S timeout =>
    r ← read_queue q;
    status ← read_cqe_status (cq_virt r +64 sizeof_NvmeCqe * cq_head r);
    if Z.land status 1 =? phase r then st ← consume q id (cq_head r) status r; mret (Some st)
    else pause;; cq_poll timeout q id
  end.

Definition nvme_admin_cmd (cmd : NvmeCmd) : W Z :=
  s ← get;
  match kAdminQ s with
  | None => mret (-1)
  | Some q =>
    submit q 0 cmd;;
    st ← cq_poll NVME_TIMEOUT q 0;
    mret (match st with Some status => status | None => -2 end)
  end.

(** Both block calls; [op] is the only difference. *)
Definition block_cmd (op nsid lba count buf_phys : Z) : NvmeCmd :=
  make_cmd op nsid buf_phys (u32 (Z.land lba 0xFFFFFFFF)) (u32 (Z.shiftr lba 32)) (u32 (count - 1)).

Definition block_io (op nsid lba count buffer : Z) : W bool :=
  s ← get;
  match kIoQ s with
  | None => mret false
  | Some q =>
    if buffer =? 0 then mret false
    else
      hhdm ← get_hhdm;
      submit q 1 (block_cmd op nsid lba count (buffer -64 hhdm));;
      st ← cq_poll NVME_TIMEOUT q 1;
      mret (match st with Some status => status =? 0 | None => false end)
  end.

Definition nvme_read_blocks : Z → Z → Z → Z → W bool := block_io NVME_IO_READ.
Definition nvme_write_blocks : Z → Z → Z → Z → W bool := block_io NVME_IO_WRITE.

(** ** Initialisation *)

Definition read_bar0 (bus d func : Z) : W Z :=
  bar0_lo ← pci_read_bar hw bus d func 0;
  bar0_hi ← pci_read_bar hw bus d func 1;
  mret (Z.lor (Z.shiftl bar0_hi 32) (clear_flag 32 bar0_lo 0xF)).

Definition wait_csts (busy : Z → bool) : W nat :=
  s ← get; mmio_wait dev 32 (kRegs s +64 NVME_REG_CSTS) busy NVME_TIMEOUT.

(** [false] when the controller does not leave the ready state. *)
Definition disable_controller : W bool :=
  cc ← reg_read32 NVME_REG_CC;
  if has_flag cc NVME_CC_ENABLE then
    reg_write32 NVME_REG_CC (clear_flag 32 cc NVME_CC_ENABLE);;
    left ← wait_csts (λ v, has_flag v NVME_CSTS_RDY);
    mret (negb (left =? 0)%nat)
  else mret true.

Definition admin_aqa : Z := Z.lor (NVME_ADMIN_QUEUE_SIZE - 1) (Z.shiftl (NVME_ADMIN_QUEUE_SIZE - 1) 16).
Definition cc_value : Z :=
  Z.lor (Z.lor (Z.lor (Z.lor (Z.lor NVME_CC_ENABLE NVME_CC_IOSQES) NVME_CC_IOCQES) NVME_CC_AMS_RR) NVME_CC_SHN_NONE) NVME_CC_CSS_NVM.

(** Program the admin queue and enable the controller; [false] when it does not
    become ready. *)
Definition enable_controller (q : Z) : W bool :=
  reg_write32 NVME_REG_AQA admin_aqa;;
  r ← read_queue q;
  reg_write64 NVME_REG_ASQ (sq_phys r);;
  reg_write64 NVME_REG_ACQ (cq_phys r);;
  reg_write32 NVME_REG_CC cc_value;;
  left ← wait_csts (λ v, negb (has_flag v NVME_CSTS_RDY));
  mret (negb (left =? 0)%nat).

Definition identify_cmd (buf : Z) : NvmeCmd := make_cmd NVME_ADMIN_IDENTIFY 0 buf 1 0 0.

(** The identify command; the strings it returns are only logged. *)
Definition identify : W bool :=
  buf ← nv_page_op (pa_alloc 1);
  if buf =? 0 then mret false
  else
    status ← nvme_admin_cmd (identify_cmd buf);
    if negb (status =? 0) then nv_page_op (pa_free buf 1);; mret false
    else
      _ ← reg_read32 (NVME_REG_CAP + 0x100);
      nv_page_op (pa_free buf 1);;
      mret true.

Definition create_cq_cmd (r : NvmeQueue) : NvmeCmd :=
  make_cmd NVME_ADMIN_CREATE_CQ 0 (cq_phys r) (Z.lor (Z.lor (u32 (qsize r - 1)) (Z.shiftl 1 16)) (Z.shiftl 1 17)) 1 0.
Definition create_sq_cmd (r : NvmeQueue) : NvmeCmd :=
  make_cmd NVME_ADMIN_CREATE_SQ 0 (sq_phys r) (Z.lor (u32 (qsize r - 1)) (Z.shiftl 1 16)) (Z.lor (Z.shiftl 1 16) 1) 0.

(** The I/O queues; a failure of either command is only logged. *)
Definition create_io_queues : W () :=
  io ← nvme_create_queue 1 NVME_IO_QUEUE_SIZE;
  modify (set_kIoQ io);;
  match io with
  | None => mret ()
  | Some q =>
    r ← read_queue q;
    _ ← nvme_admin_cmd (create_cq_cmd r);
    r ← read_queue q;
    _ ← nvme_admin_cmd (create_sq_cmd r);
    mret ()
  end.

Definition nvme_init (bus d func : Z) : W bool :=
  pci_enable_bus_mastering hw bus d func;;
  bar0 ← read_bar0 bus d func;
  if bar0 =? 0 then mret false
  else
    hhdm ← get_hhdm;
    modify (set_kRegs (bar0 +64 hhdm) (bar0 +64 hhdm +64 0x1000));;
    _ ← reg_read64 NVME_REG_CAP;
    _ ← reg_read32 NVME_REG_VS;
    disabled ← disable_controller;
    if negb disabled then mret false
    else
      q ← nvme_create_queue 0 NVME_ADMIN_QUEUE_SIZE;
      modify (set_kAdminQ q);;
      match q with
      | None => mret false
      | Some q =>
        ready ← enable_controller q;
        if negb ready then mret false
        else
          identified ← identify;
          if negb identified then mret false
          else create_io_queues;; mret true
      end.
End nvme.
