(* ===== verification/NvmeRing.v ===== *)
(** * NVMe rings

    The two rings of a queue pair against the stream of commands they carry.
    [t] commands have been submitted and [h] completions taken; the indices and
    the phase tag of the driver are these counters modulo the size of the ring.
    [controller] is what the NVM Express specification promises of the other
    end: it posts completions in order, no more than were asked for, each with
    the phase tag of its turn round the ring, and only reads the submission
    queue. *)

From S2P Require Import Prelude Bytes Pmm PmmBlocks PageAlloc KernelHeap PortIo Pci Nvme.
Open Scope Z_scope.

(** ** Indices and phases *)

Definition phase_of (n k : Z) : Z := 1 - (k / n) mod 2.

Lemma phase_of_range n k : phase_of n k = 0 ∨ phase_of n k = 1.
Proof. unfold phase_of. pose proof (Z.mod_pos_bound (k / n) 2). lia. Qed.

Lemma phase_of_turn n k : 0 < n → phase_of n (k - n) = 1 - phase_of n k.
Proof.
  intros Hn. unfold phase_of. replace (k - n) with (k + (-1) * n) by lia. rewrite Z.div_add by lia.
  pose proof (Z.div_mod (k / n) 2). pose proof (Z.div_mod (k / n + -1) 2).
  pose proof (Z.mod_pos_bound (k / n) 2). pose proof (Z.mod_pos_bound (k / n + -1) 2). lia.
Qed.

Lemma ring_succ n k : 0 < n ≤ 2 ^ 31 → u32 (k mod n + 1) mod n = (k + 1) mod n.
Proof.
  intros Hn. pose proof (Z.mod_pos_bound k n). rewrite wrap_small by lia. by rewrite Zplus_mod_idemp_l.
Qed.

(** The quotient moves on exactly when the index comes back to 0. *)
Lemma div_succ n k : 0 < n → (k + 1) / n = k / n + (if (k + 1) mod n =? 0 then 1 else 0).
Proof.
  intros Hn. pose proof (Z.div_mod k n ltac:(lia)) as E. pose proof (Z.mod_pos_bound k n Hn) as B.
  destruct (Z.eqb_spec ((k + 1) mod n) 0) as [E0|E0].
  - pose proof (Z.div_mod (k + 1) n ltac:(lia)) as E1. rewrite E0 in E1.
    assert (n * ((k + 1) / n - k / n) = k mod n + 1) by lia. nia.
  - rewrite Z.add_0_r. symmetry. apply (Z.div_unique _ _ _ (k mod n + 1)); [|lia].
    left. split; [lia|]. destruct (decide (k mod n + 1 = n)) as [En|]; [|lia]. exfalso. apply E0.
    replace (k + 1) with ((k / n + 1) * n) by lia. by rewrite Z_mod_mult.
Qed.

Lemma phase_of_succ n k : 0 < n →
  phase_of n (k + 1) = if (k + 1) mod n =? 0 then Z.lxor (phase_of n k) 1 else phase_of n k.
Proof.
  intros Hn. unfold phase_of. rewrite div_succ by done. pose proof (Z.mod_pos_bound (k / n) 2 ltac:(lia)) as B.
  destruct (_ =? 0); [|by rewrite Z.add_0_r].
  rewrite <-(Zplus_mod_idemp_l (k / n)). assert ((k / n) mod 2 = 0 ∨ (k / n) mod 2 = 1) as [-> | ->] by lia; done.
Qed.

(** A status word is a 15-bit status above its phase tag. *)
Lemma status_word reply ph : 0 ≤ reply < 2 ^ 15 → ph = 0 ∨ ph = 1 →
  Z.land (2 * reply + ph) 1 = ph ∧ Z.land (Z.shiftr (2 * reply + ph) 1) 0x7FFF = reply.
Proof.
  intros Hr Hp. change 1 with (Z.ones 1) at 1. change 0x7FFF with (Z.ones 15). rewrite !Z.land_ones, Z.shiftr_div_pow2 by done.
  change (2 ^ 1) with 2. split.
  - symmetry. apply (Z.mod_unique _ _ reply); lia.
  - replace ((2 * reply + ph) / 2) with reply by (apply (Z.div_unique _ _ _ ph); lia). apply Z.mod_small. lia.
Qed.

Lemma cmd_bytes_length c : length (cmd_bytes c) = 64%nat.
Proof. unfold cmd_bytes. by rewrite !length_app, !le_bytes_length. Qed.

Lemma load_le_ext n mem mem' a : (∀ x, a ≤ x < a + Z.of_nat n → mem x = mem' x) → load_le n mem a = load_le n mem' a.
Proof.
  intros E. unfold load_le. f_equal. apply list_fmap_ext. intros i j Hj. apply lookup_seq in Hj as [-> Hi]. apply E. lia.
Qed.

(** ** The controller *)

Record ring := mkRing { g_regs : Z; g_id : Z; g_sq : Z; g_cq : Z; g_size : Z }.

(** A ring whose two queues lie apart in the address space. *)
Definition ring_ok (g : ring) : Prop :=
  0 ≤ g_id g < 2 ^ 16 ∧ 0 < g_size g ≤ 2 ^ 16 ∧
  0 ≤ g_sq g ∧ g_sq g + 64 * g_size g ≤ 2 ^ 64 ∧ 0 ≤ g_cq g ∧ g_cq g + 16 * g_size g ≤ 2 ^ 64 ∧
  (g_sq g + 64 * g_size g ≤ g_cq g ∨ g_cq g + 16 * g_size g ≤ g_sq g).

Definition sq_doorbell (g : ring) : Z := g_regs g +64 NVME_DOORBELL_SQ (g_id g).
Definition cq_doorbell (g : ring) : Z := g_regs g +64 NVME_DOORBELL_CQ (g_id g).
Definition sq_slot (g : ring) (k : Z) : Z := g_sq g + 64 * (k mod g_size g).
Definition cq_slot (g : ring) (k : Z) : Z := g_cq g + 16 * (k mod g_size g).

(** How often the doorbell of the submission queue was rung. *)
Definition is_ring (g : ring) (e : mmio_event) : bool :=
  match e with MStore w a _ => (w =? 32) && (a =? sq_doorbell g) | _ => false end.
Definition rings (g : ring) (tr : list mmio_event) : Z := Z.of_nat (length (filter (λ e, is_ring g e = true) tr)).

(** Time, as the waiting loops can tell it. *)
Definition is_pause (e : mmio_event) : bool := match e with Pause => true | _ => false end.
Definition pauses (tr : list mmio_event) : nat := length (filter (λ e, is_pause e = true) tr).

(** [posted] counts the completions the controller has written, [reply] is the
    status of each, and [latency] the pauses after which all that were asked
    for are there. *)
Record controller (g : ring) (dma : list mmio_event → (Z → Z) → Z → Z)
    (posted : list mmio_event → Z) (reply : Z → Z) (latency : nat) : Prop := mkController {
  ct_posted tr : 0 ≤ posted tr ≤ rings g tr;
  ct_mono tr e : posted tr ≤ posted (tr ++ [e]);
  ct_latency tr tr' : (latency ≤ pauses tr')%nat → rings g tr ≤ posted (tr ++ tr');
  ct_reply k : 0 ≤ reply k < 2 ^ 15;
  ct_entry tr mem k : 0 ≤ k < posted tr → posted tr ≤ k + g_size g →
    load_le 2 (dma tr mem) (cq_slot g k + 14) = 2 * reply k + phase_of (g_size g) k;
  ct_quiet tr mem k : posted tr ≤ k < g_size g →
    load_le 2 (dma tr mem) (cq_slot g k + 14) = load_le 2 mem (cq_slot g k + 14);
  ct_sq tr mem x : g_sq g ≤ x < g_sq g + 64 * g_size g → dma tr mem x = mem x
}.

Lemma rings_app g tr tr' : rings g (tr ++ tr') = rings g tr + rings g tr'.
Proof. unfold rings. rewrite filter_app, length_app. lia. Qed.

Lemma rings_pause g m : rings g (replicate m Pause) = 0.
Proof. unfold rings. induction m; [done|]. cbn [replicate]. by rewrite filter_cons_False by done. Qed.

Lemma pauses_app tr tr' : pauses (tr ++ tr') = (pauses tr + pauses tr')%nat.
Proof. unfold pauses. by rewrite filter_app, length_app. Qed.

Lemma pauses_replicate m : pauses (replicate m Pause) = m.
Proof. unfold pauses. induction m; [done|]. cbn [replicate]. rewrite filter_cons_True by done. simpl. by rewrite IHm. Qed.

Lemma doorbells_differ g : ring_ok g → cq_doorbell g ≠ sq_doorbell g.
Proof.
  intros (Hi & _). unfold cq_doorbell, sq_doorbell, NVME_DOORBELL_CQ, NVME_DOORBELL_SQ, wrap.
  rewrite !(Z.mod_small _ (2 ^ 32)) by lia. intros E.
  assert (E2 : (g_regs g + (0x1000 + g_id g * 8 + 4) - (g_regs g + (0x1000 + g_id g * 8))) mod 2 ^ 64 = 0) by (rewrite Zminus_mod, E; by rewrite Z.sub_diag).
  replace (_ - _) with 4 in E2 by lia. discriminate.
Qed.

Lemma rings_sq g v : rings g [MStore 32 (sq_doorbell g) v] = 1.
Proof. unfold rings. rewrite filter_cons_True; [done|]. simpl. apply Z.eqb_refl. Qed.

Lemma rings_cq g v : ring_ok g → rings g [MStore 32 (cq_doorbell g) v] = 0.
Proof. intros Hg. unfold rings. rewrite filter_cons_False; [done|]. simpl. intros E%Z.eqb_eq. by apply (doorbells_differ g). Qed.

(** ** The driver's side *)

Section driver.
Context {H PA : Type} `{!KernelHeap H} `{!PageAllocator PA}.
Context (g : ring) (Hg : ring_ok g) (dma : list mmio_event → (Z → Z) → Z → Z).
Context (posted : list mmio_event → Z) (reply : Z → Z) (latency : nat).
Context (Hct : controller g dma posted reply latency).
Abbreviation n := (g_size g).
Abbreviation W := (M (nvme H PA)).
Implicit Types (s : nvme H PA) (log : list NvmeCmd) (r : NvmeQueue).

Definition queue_at (t h : Z) (r : NvmeQueue) : Prop :=
  sq_virt r = g_sq g ∧ cq_virt r = g_cq g ∧ qsize r = n ∧
  sq_tail r = t mod n ∧ cq_head r = h mod n ∧ phase r = phase_of n h.

(** A command stored whole at [a]. *)
Definition cmd_at (mem : Z → Z) (a : Z) (c : NvmeCmd) : Prop :=
  ∀ j b, cmd_bytes c !! j = Some b → mem (a + Z.of_nat j) = b.

(** Entries the controller has not written yet carry the tag of no turn. *)
Definition cq_fresh (tr : list mmio_event) (mem : Z → Z) : Prop :=
  ∀ k, posted tr ≤ k < n → Z.land (load_le 2 mem (cq_slot g k + 14)) 1 = 0.

(** The submission queue holds the last [n] commands of the log. *)
Definition sq_holds (log : list NvmeCmd) (mem : Z → Z) : Prop :=
  ∀ i c, log !! i = Some c → Z.of_nat (length log) ≤ Z.of_nat i + n → cmd_at mem (sq_slot g (Z.of_nat i)) c.

Record ring_inv (q h : Z) (log : list NvmeCmd) (s : nvme H PA) : Prop := mkRingInv {
  ri_regs : kRegs s = g_regs g;
  ri_queue : ∃ r, nv_queues s !! q = Some r ∧ queue_at (Z.of_nat (length log)) h r;
  ri_rings : rings g (nv_mmio s) = Z.of_nat (length log);
  ri_taken : 0 ≤ h ≤ posted (nv_mmio s);
  ri_fresh : cq_fresh (nv_mmio s) (nv_mem s);
  ri_log : sq_holds log (nv_mem s)
}.

(** What the ring operations leave alone. *)
Definition same_rest (s s' : nvme H PA) : Prop :=
  nv_heap s' = nv_heap s ∧ nv_pages s' = nv_pages s ∧ nv_ports s' = nv_ports s ∧
  kRegs s' = kRegs s ∧ kDoorbells s' = kDoorbells s ∧ kAdminQ s' = kAdminQ s ∧ kIoQ s' = kIoQ s.

Lemma same_rest_trans s1 s2 s3 : same_rest s1 s2 → same_rest s2 s3 → same_rest s1 s3.
Proof. intros (? & ? & ? & ? & ? & ? & ?) (? & ? & ? & ? & ? & ? & ?). unfold same_rest. split_and!; congruence. Qed.

Lemma n_pos : 0 < n.
Proof. by destruct Hg as (_ & [? _] & _). Qed.

Lemma sq_slot_range k : g_sq g ≤ sq_slot g k ∧ sq_slot g k + 64 ≤ g_sq g + 64 * n.
Proof. unfold sq_slot. pose proof n_pos. pose proof (Z.mod_pos_bound k n). nia. Qed.

Lemma cq_slot_range k : g_cq g ≤ cq_slot g k ∧ cq_slot g k + 16 ≤ g_cq g + 16 * n.
Proof. unfold cq_slot. pose proof n_pos. pose proof (Z.mod_pos_bound k n). nia. Qed.

(** Slots of different entries of the last [n] do not overlap. *)
Lemma sq_slot_apart i k : i < k → k < i + n → sq_slot g i + 64 ≤ sq_slot g k ∨ sq_slot g k + 64 ≤ sq_slot g i.
Proof.
  intros H1 H2. unfold sq_slot. pose proof n_pos as Hn. assert (i mod n ≠ k mod n); [|lia]. intros E.
  pose proof (Z.div_mod i n ltac:(lia)). pose proof (Z.div_mod k n ltac:(lia)).
  assert (Ec : k - i = n * (k / n - i / n)) by lia. revert Ec. generalize (k / n - i / n). intros c Ec.
  assert (0 < c) by nia. nia.
Qed.

Lemma posted_mono tr tr' : posted tr ≤ posted (tr ++ tr').
Proof.
  induction tr' as [|e tr' IH] using rev_ind; [by rewrite app_nil_r|]. rewrite app_assoc.
  etrans; [exact IH|]. apply (ct_mono _ _ _ _ _ Hct).
Qed.

Lemma cmd_at_write mem a c : cmd_at (mem_write mem a (cmd_bytes c)) a c.
Proof.
  intros j b Hj. pose proof (lookup_lt_Some _ _ _ Hj). rewrite mem_write_lookup, decide_True by lia.
  replace (Z.to_nat (a + Z.of_nat j - a)) with j by lia. by apply list_lookup_total_correct.
Qed.

Lemma cmd_at_ext mem mem' a c : (∀ x, a ≤ x < a + 64 → mem' x = mem x) → cmd_at mem a c → cmd_at mem' a c.
Proof.
  intros E Hc j b Hj. pose proof (lookup_lt_Some _ _ _ Hj) as Hl. rewrite cmd_bytes_length in Hl. rewrite E by lia. by apply Hc.
Qed.

Lemma sq_holds_submit log mem cmd : sq_holds log mem →
  sq_holds (log ++ [cmd]) (mem_write mem (sq_slot g (Z.of_nat (length log))) (cmd_bytes cmd)).
Proof.
  intros Hl i c Hi Hn. rewrite length_app in Hn. simpl in Hn. apply lookup_app_Some in Hi as [Hi|[Hi1 Hi2]].
  - pose proof (lookup_lt_Some _ _ _ Hi). apply (cmd_at_ext mem); [|apply Hl; [done|lia]].
    intros x Hx. rewrite mem_write_lookup, cmd_bytes_length, decide_False; [done|].
    destruct (sq_slot_apart (Z.of_nat i) (Z.of_nat (length log))); lia.
  - apply list_lookup_singleton_Some in Hi2 as [Ei <-]. replace i with (length log) by lia. apply cmd_at_write.
Qed.

Lemma sq_holds_dma log tr mem : sq_holds log mem → sq_holds log (dma tr mem).
Proof.
  intros Hl i c Hi Hn. apply (cmd_at_ext mem); [|by apply Hl]. intros x Hx. apply (ct_sq _ _ _ _ _ Hct).
  pose proof (sq_slot_range (Z.of_nat i)). lia.
Qed.

Lemma cq_fresh_mono tr e mem : cq_fresh tr mem → cq_fresh (tr ++ e) mem.
Proof. intros Hf k Hk. apply Hf. pose proof (posted_mono tr e). lia. Qed.

Lemma cq_fresh_dma tr mem : cq_fresh tr mem → cq_fresh tr (dma tr mem).
Proof. intros Hf k Hk. rewrite (ct_quiet _ _ _ _ _ Hct) by done. by apply Hf. Qed.

Lemma cq_fresh_submit tr mem k cmd : cq_fresh tr mem → cq_fresh tr (mem_write mem (sq_slot g k) (cmd_bytes cmd)).
Proof.
  intros Hf j Hj. rewrite (load_le_ext 2 _ mem); [by apply Hf|]. intros x Hx.
  pose proof (sq_slot_range k). pose proof (cq_slot_range j). destruct Hg as (_ & _ & _ & _ & _ & _ & Hd).
  rewrite mem_write_lookup, cmd_bytes_length, decide_False; [done|lia].
Qed.

(** ** Submission *)

Lemma submit_wp q h log cmd s : ring_inv q h log s →
  wp (submit q (g_id g) cmd) (λ _ s', ring_inv q h (log ++ [cmd]) s' ∧ same_rest s s' ∧
    nv_mmio s' = nv_mmio s ++ [MStore 32 (sq_doorbell g) ((Z.of_nat (length log) + 1) mod n)]) s.
Proof.
  intros [Hr (r & Hq & E1 & E2 & E3 & E4 & E5 & E6) Hrings Htaken Hfresh Hlog]. set (t := Z.of_nat (length log)) in *.
  pose proof n_pos as Hn. pose proof (sq_slot_range t) as Hslot. destruct Hg as (_ & Hn2 & Hsq & Hsq2 & _).
  unfold submit, read_queue, write_mem, sq_doorbell_ring, reg_write32, write_queue, read_queue, ring_next. wp_run.
  rewrite E1, E3, E4. change (sizeof_NvmeCmd) with 64. fold (sq_slot g t). rewrite (wrap_small 64) by lia.
  rewrite (proj2 (Z.eqb_neq n 0)) by lia. wp_run. rewrite ring_succ by lia.
  cbn [nv_queues nv_mem set_nv_mem]. wp_run. split; [|split].
  - constructor; cbn [nv_mem nv_mmio kRegs nv_queues set_nv_mem set_nv_queues set_nv_mmio mmio_add set_mmio mmio nvme_mmio].
    + done.
    + eexists. rewrite lookup_insert_eq. split; [done|]. unfold queue_at. rewrite length_app, Nat2Z.inj_add. by split_and!.
    + rewrite rings_app, Hrings, length_app, Hr. fold (sq_doorbell g). rewrite rings_sq. simpl. lia.
    + split; [lia|]. etrans; [exact (proj2 Htaken)|]. apply posted_mono.
    + apply cq_fresh_mono, cq_fresh_submit, Hfresh.
    + by apply sq_holds_submit.
  - done.
  - cbn -[Z.pow]. rewrite Hr. do 3 f_equal. apply wrap_small. pose proof (Z.mod_pos_bound (t + 1) n). lia.
Qed.

(** ** Completion *)

(** The word the driver polls, while its completion is missing and after. *)
Lemma cqe_pending tr mem h : 0 ≤ h → posted tr = h → cq_fresh tr mem →
  Z.land (load_le 2 (dma tr mem) (cq_slot g h + 14)) 1 ≠ phase_of n h.
Proof.
  intros Hh Hp Hf. pose proof n_pos as Hn. destruct (decide (h < n)) as [Hlt|Hge].
  - rewrite (ct_quiet _ _ _ _ _ Hct), Hf by lia. unfold phase_of. by rewrite Z.div_small by lia.
  - assert (Es : cq_slot g h = cq_slot g (h - n)).
    { unfold cq_slot. replace (h - n) with (h + (-1) * n) by lia. by rewrite Z_mod_plus_full. }
    rewrite Es, (ct_entry _ _ _ _ _ Hct) by lia.
    destruct (status_word (reply (h - n)) (phase_of n (h - n)) (ct_reply _ _ _ _ _ Hct _) (phase_of_range _ _)) as [-> _].
    rewrite phase_of_turn by done. destruct (phase_of_range n h); lia.
Qed.

Lemma cqe_posted tr mem h : 0 ≤ h < posted tr → posted tr ≤ h + n →
  let v := load_le 2 (dma tr mem) (cq_slot g h + 14) in
  Z.land v 1 = phase_of n h ∧ Z.land (Z.shiftr v 1) 0x7FFF = reply h.
Proof.
  intros Hh Hp. cbn zeta. rewrite (ct_entry _ _ _ _ _ Hct) by done.
  apply status_word; [apply (ct_reply _ _ _ _ _ Hct)|apply phase_of_range].
Qed.

Lemma ring_inv_dma q h log s : ring_inv q h log s → ring_inv q h log (set_nv_mem (dma (nv_mmio s) (nv_mem s)) s).
Proof. intros [Hr Hq Hc Ht Hf Hl]. constructor; [done|done|done|done|by apply cq_fresh_dma|by apply sq_holds_dma]. Qed.

Lemma ring_inv_pause q h log s : ring_inv q h log s → ring_inv q h log (mmio_add Pause s).
Proof.
  intros [Hr Hq Hc Ht Hf Hl]. unfold mmio_add. constructor; cbn [nv_mem nv_mmio kRegs nv_queues set_nv_mmio set_mmio mmio nvme_mmio].
  - done.
  - done.
  - rewrite rings_app. pose proof (rings_pause g 1) as E. cbn [replicate] in E. lia.
  - pose proof (posted_mono (nv_mmio s) [Pause]). lia.
  - by apply cq_fresh_mono.
  - done.
Qed.

Lemma consume_wp q h log s r status : ring_inv q h log s → nv_queues s !! q = Some r → h < posted (nv_mmio s) →
  wp (consume q (g_id g) (cq_head r) status r) (λ st s', st = Z.land (Z.shiftr status 1) 0x7FFF ∧ ring_inv q (h + 1) log s' ∧
    same_rest s s' ∧ nv_mmio s' = nv_mmio s ++ [MStore 32 (cq_doorbell g) ((h + 1) mod n)]) s.
Proof.
  intros [Hr (r' & Hq & E1 & E2 & E3 & E4 & E5 & E6) Hrings Htaken Hfresh Hlog] Hq' Hp. assert (r' = r) as -> by congruence. clear Hq'.
  pose proof n_pos as Hn. assert (Hn2 : n ≤ 2 ^ 16) by (destruct Hg; lia). pose proof (Z.mod_pos_bound (h + 1) n Hn) as Hm.
  unfold consume, ring_next, write_queue, read_queue. rewrite E3, E5, (proj2 (Z.eqb_neq n 0)) by lia. wp_run.
  rewrite ring_succ by lia. set (r1 := set_cq_head _ r). set (s1 := set_nv_queues (<[q:=r1]> (nv_queues s)) s).
  set (r2 := mkQueue (sq_virt r) (cq_virt r) (sq_phys r) (cq_phys r) (sq_tail r) ((h + 1) mod n) (qid r) (qsize r) (phase_of n (h + 1))).
  assert (Hd : wp (cq_doorbell_ring (g_id g) ((h + 1) mod n);; mret (Z.land (Z.shiftr status 1) 0x7FFF))
    (λ st s', st = Z.land (Z.shiftr status 1) 0x7FFF ∧ ring_inv q (h + 1) log s' ∧ same_rest s s' ∧
       nv_mmio s' = nv_mmio s ++ [MStore 32 (cq_doorbell g) ((h + 1) mod n)])
    (set_nv_queues (<[q:=r2]> (nv_queues s)) s)).
  { unfold cq_doorbell_ring, reg_write32, mmio_store. wp_run. cbn [kRegs set_nv_queues]. rewrite Hr. fold (cq_doorbell g).
    rewrite wrap_small by lia. split_and!; [done| |done|done]. unfold mmio_add.
    constructor; cbn [nv_mem nv_mmio kRegs nv_queues set_nv_queues set_nv_mmio set_mmio mmio nvme_mmio].
    - done.
    - exists r2. by rewrite lookup_insert_eq.
    - rewrite rings_app, Hrings, rings_cq by done. lia.
    - pose proof (posted_mono (nv_mmio s) [MStore 32 (cq_doorbell g) ((h + 1) mod n)]). lia.
    - by apply cq_fresh_mono.
    - done. }
  assert (Er2 : r2 = if (h + 1) mod n =? 0 then set_phase (Z.lxor (phase r1) 1) r1 else r1).
  { subst r1 r2. unfold set_phase, set_cq_head. cbn [phase sq_virt cq_virt sq_phys cq_phys sq_tail cq_head qid qsize].
    rewrite phase_of_succ, E6 by done. by destruct (_ =? 0). }
  destruct (_ =? 0); subst s1; rewrite Er2 in Hd; [|exact Hd]. wp_run.
  eapply wp_deref; [cbn [nv_queues set_nv_queues]; apply lookup_insert_eq|]. wp_run.
  assert (Es : set_nv_queues (<[q:=set_phase (Z.lxor (phase r1) 1) r1]> (nv_queues (set_nv_queues (<[q:=r1]> (nv_queues s)) s)))
      (set_nv_queues (<[q:=r1]> (nv_queues s)) s) = set_nv_queues (<[q:=set_phase (Z.lxor (phase r1) 1) r1]> (nv_queues s)) s).
  { unfold set_nv_queues. cbn [nv_queues]. by rewrite insert_insert_eq. }
  rewrite Es. exact Hd.
Qed.

(** The poll takes the oldest completion not taken yet, [m] pauses after the
    doorbell was rung for it. *)
Lemma cq_poll_wp q h log timeout : h < Z.of_nat (length log) ≤ h + n →
  ∀ s tr0 tr m, nv_mmio s = tr0 ++ tr → h < rings g tr0 → pauses tr = m → (0 < timeout ∧ latency < m + timeout)%nat → ring_inv q h log s →
  wp (cq_poll dma timeout q (g_id g)) (λ st s', st = Some (reply h) ∧ ring_inv q (h + 1) log s' ∧ same_rest s s' ∧
    ∃ k, (k = 0 ∨ m + k ≤ latency)%nat ∧
      nv_mmio s' = nv_mmio s ++ replicate k Pause ++ [MStore 32 (cq_doorbell g) ((h + 1) mod n)]) s.
Proof.
  intros Hlog. induction timeout as [|timeout IH]; intros s tr0 tr m Htr H0 Hpa Hlat Hi; [lia|]. cbn [cq_poll].
  pose proof Hi as [_ (r & Hq & E1 & E2 & E3 & E4 & E5 & E6) Hrings Htaken Hfresh _].
  pose proof (cq_slot_range h) as Hslot. destruct Hg as (_ & _ & _ & _ & Hcq & Hcq2 & _).
  unfold read_queue, read_cqe_status. wp_run. rewrite E2, E5. change sizeof_NvmeCqe with 16. fold (cq_slot g h).
  rewrite (wrap_small 64 (cq_slot g h)), (wrap_small 64) by lia. cbn [nv_mem nv_mmio set_nv_mem]. rewrite E6.
  apply ring_inv_dma in Hi. set (s1 := set_nv_mem _ s) in *. set (v := load_le 2 _ _).
  pose proof (ct_posted _ _ _ _ _ Hct (nv_mmio s)) as Hle.
  destruct (decide (h < posted (nv_mmio s))) as [Hp|Hp].
  - destruct (cqe_posted (nv_mmio s) (nv_mem s) h) as [V1 V2]; [lia|lia|]. fold v in V1, V2. rewrite V1, Z.eqb_refl. wp_run.
    rewrite <-E5. eapply wp_mono; [apply (consume_wp q h log s1 r v); done|]. intros st s2 (-> & Hi2 & Hs & Htr2). wp_run.
    split_and!; [by rewrite V2|done|done|]. exists 0%nat. split; [lia|exact Htr2].
  - rewrite (proj2 (Z.eqb_neq _ _)); [|apply cqe_pending; [lia|lia|done]].
    assert (Hm : (m < latency)%nat).
    { destruct (decide (m < latency)%nat) as [|Hge]; [done|]. pose proof (ct_latency _ _ _ _ _ Hct tr0 tr ltac:(lia)) as Hl.
      rewrite <-Htr in Hl. lia. }
    unfold pause. wp_run. eapply wp_mono; [apply (IH _ tr0 (tr ++ [Pause]) (S m)); [|done| |lia|by apply ring_inv_pause]|].
    + unfold mmio_add. cbn [nv_mmio set_nv_mmio set_mmio mmio nvme_mmio]. subst s1. cbn [nv_mmio set_nv_mem].
      by rewrite Htr, <-app_assoc.
    + rewrite pauses_app, Hpa. unfold pauses. simpl. lia.
    + intros st s2 (-> & Hi2 & Hs & k & Hk & Htr2). split_and!; [done|done|by apply (same_rest_trans _ (mmio_add Pause s1))|].
      exists (S k). split; [lia|]. rewrite Htr2. unfold mmio_add. cbn [nv_mmio set_nv_mmio set_mmio mmio nvme_mmio].
      subst s1. cbn [nv_mmio set_nv_mem]. by rewrite <-!app_assoc.
Qed.

(** A poll during which nothing is posted gives up and leaves the ring as it is. *)
Lemma cq_poll_timeout q h log timeout : ∀ s, posted (nv_mmio s ++ replicate timeout Pause) = h → ring_inv q h log s →
  wp (cq_poll dma timeout q (g_id g)) (λ st s', st = None ∧ ring_inv q h log s' ∧ same_rest s s' ∧
    nv_mmio s' = nv_mmio s ++ replicate timeout Pause) s.
Proof.
  induction timeout as [|timeout IH]; intros s Hp Hi; cbn [cq_poll]; [wp_run; by rewrite app_nil_r|].
  pose proof Hi as [_ (r & Hq & E1 & E2 & E3 & E4 & E5 & E6) _ Htaken Hfresh _].
  pose proof (cq_slot_range h) as Hslot. destruct Hg as (_ & _ & _ & _ & Hcq & Hcq2 & _).
  pose proof (posted_mono (nv_mmio s) (replicate (S timeout) Pause)) as Hmono.
  unfold read_queue, read_cqe_status. wp_run. rewrite E2, E5. change sizeof_NvmeCqe with 16. fold (cq_slot g h).
  rewrite (wrap_small 64 (cq_slot g h)), (wrap_small 64) by lia. cbn [nv_mem nv_mmio set_nv_mem]. rewrite E6.
  rewrite (proj2 (Z.eqb_neq _ _)); [|apply cqe_pending; [lia|lia|done]].
  apply ring_inv_dma in Hi. set (s1 := set_nv_mem _ s) in *. unfold pause. wp_run.
  assert (Et : nv_mmio (mmio_add Pause s1) ++ replicate timeout Pause = nv_mmio s ++ replicate (S timeout) Pause) by (cbn -[app]; by rewrite <-app_assoc).
  eapply wp_mono; [apply IH; [by rewrite Et|by apply ring_inv_pause]|]. intros st s2 (-> & Hi2 & Hs & Htr2).
  split_and!; [done|done|by apply (same_rest_trans _ (mmio_add Pause s1))|]. by rewrite Htr2.
Qed.

(** ** A command *)

Lemma command_wp q h log cmd s : ring_inv q h log s → h ≤ Z.of_nat (length log) < h + n → (latency < NVME_TIMEOUT)%nat →
  wp (submit q (g_id g) cmd;; cq_poll dma NVME_TIMEOUT q (g_id g))
    (λ st s', st = Some (reply h) ∧ ring_inv q (h + 1) (log ++ [cmd]) s' ∧ same_rest s s' ∧
       ∃ k, (k ≤ latency)%nat ∧ nv_mmio s' = nv_mmio s ++ [MStore 32 (sq_doorbell g) ((Z.of_nat (length log) + 1) mod n)] ++
         replicate k Pause ++ [MStore 32 (cq_doorbell g) ((h + 1) mod n)]) s.
Proof.
  intros Hi Hlog Hlat. apply wp_bind. eapply wp_mono; [by apply submit_wp|]. intros [] s1 (Hi1 & R1 & T1).
  assert (Hlen : Z.of_nat (length (log ++ [cmd])) = Z.of_nat (length log) + 1) by (rewrite length_app; simpl; lia).
  eapply wp_mono; [apply (cq_poll_wp q h (log ++ [cmd]) NVME_TIMEOUT ltac:(lia) s1 (nv_mmio s1) [] 0%nat); [by rewrite app_nil_r| |done|lia|done]|].
  - rewrite (ri_rings _ _ _ _ Hi1). lia.
  - intros st s2 (-> & Hi2 & R2 & k & Hk & T2). split_and!; [done|done|by eapply same_rest_trans|]. exists k. split; [lia|].
    by rewrite T2, T1, <-app_assoc.
Qed.
End driver.
