(* ===== verification/NvmeQueues.v ===== *)
(** * NVMe queues in memory

    What [nvme_create_queue] takes from the heap and the page allocator, on
    every path, and that [nvme_destroy_queue] gives it back. *)

From S2P Require Import Prelude Bytes Pmm PmmBlocks PageAlloc KernelHeap PortIo Pci Nvme NvmeRing.
Open Scope Z_scope.

(** Projections of updated states. *)
Ltac nv_cbn := cbn [nv_heap nv_pages nv_mem nv_ports nv_mmio nv_queues kRegs kDoorbells kAdminQ kIoQ
  set_nv_heap set_nv_pages set_nv_mem set_nv_ports set_nv_mmio set_nv_queues set_kRegs set_kAdminQ set_kIoQ].

Section queues.
Context {H PA : Type} `{!KernelHeap H} `{!PageAllocator PA} (raw : NvmeQueue).
Implicit Types (s : nvme H PA) (F : gset Z) (A : list block) (L : gset Z).

(** The memory the driver owns: free frames that the direct map reaches, frame
    0 not among them, and queue objects that are live heap objects. *)
Record nv_ok (F : gset Z) (A : list block) (L : gset Z) (s : nvme H PA) : Prop := mkNvOk {
  no_pages : pa_inv (nv_pages s) F A;
  no_heap : kh_inv (nv_heap s) L;
  no_zero : 0 ∉ F;
  no_hhdm : 0 ≤ pa_hhdm (nv_pages s);
  no_map x : x ∈ F → 0 ≤ x ∧ (x + 1) * PAGE_SIZE + pa_hhdm (nv_pages s) ≤ 2 ^ 64;
  no_queues q r : nv_queues s !! q = Some r → q ∈ L
}.

(** The parts the queue code does not touch. *)
Definition same_regs (s s' : nvme H PA) : Prop :=
  nv_ports s' = nv_ports s ∧ nv_mmio s' = nv_mmio s ∧ kRegs s' = kRegs s ∧ kDoorbells s' = kDoorbells s ∧
  kAdminQ s' = kAdminQ s ∧ kIoQ s' = kIoQ s ∧ pa_hhdm (nv_pages s') = pa_hhdm (nv_pages s).

(** ** The two allocators *)

Lemma wp_nv_page_op {B : Type} (op : M PA B) (Q : B → nvme H PA → Prop) s :
  wp op (λ a pa, Q a (set_nv_pages pa s)) (nv_pages s) → wp (nv_page_op op) Q s.
Proof. unfold wp, nv_page_op. by destruct (op (nv_pages s)) as [[a pa]| |]. Qed.

Lemma wp_nv_heap_op {B : Type} (op : M H B) (Q : B → nvme H PA → Prop) s :
  wp op (λ a h, Q a (set_nv_heap h s)) (nv_heap s) → wp (nv_heap_op op) Q s.
Proof. unfold wp, nv_heap_op. by destruct (op (nv_heap s)) as [[a h]| |]. Qed.

(** The frames of a block as bytes behind the direct map. *)
Definition block_addr (s : nvme H PA) (p : Z) : Z := p * PAGE_SIZE + pa_hhdm (nv_pages s).

Lemma block_in F A L s p o : nv_ok F A L s → page_set [(p, o)] ⊆ F →
  0 < p ∧ 0 ≤ block_addr s p ∧ block_addr s p + block_size o * PAGE_SIZE ≤ 2 ^ 64 ∧
  p * PAGE_SIZE +64 pa_hhdm (nv_pages s) = block_addr s p.
Proof.
  intros Hs Hsub. pose proof (block_size_pos o) as Hb. pose proof (no_hhdm _ _ _ _ Hs) as Hh.
  assert (Hin : ∀ x, p ≤ x < p + block_size o → x ∈ F).
  { intros x Hx. apply Hsub, elem_of_page_set_1, elem_of_block_pages. simpl. lia. }
  destruct (no_map _ _ _ _ Hs p) as [Hp _]; [apply Hin; lia|].
  destruct (no_map _ _ _ _ Hs (p + block_size o - 1)) as [_ Hm]; [apply Hin; lia|].
  assert (p ≠ 0). { intros ->. apply (no_zero _ _ _ _ Hs), Hin. lia. }
  unfold block_addr, PAGE_SIZE in *. split_and!; [lia|lia|lia|]. apply wrap_small. nia.
Qed.

Lemma block_nonnull p : 0 < p → (p * PAGE_SIZE =? 0) = false.
Proof. intros Hp. apply Z.eqb_neq. unfold PAGE_SIZE. lia. Qed.

(** An allocation: nothing, or a block of frames of its own. *)
Lemma nv_alloc_wp F A L s count (Q : Z → nvme H PA → Prop) : nv_ok F A L s → 0 ≤ count ≤ 2 ^ 63 →
  Q 0 s →
  (∀ pa p o, 0 < p → fits count o → page_set [(p, o)] ⊆ F → nv_ok (F ∖ page_set [(p, o)]) ((p, o) :: A) L (set_nv_pages pa s) →
     pa_hhdm pa = pa_hhdm (nv_pages s) → Q (p * PAGE_SIZE) (set_nv_pages pa s)) →
  wp (nv_page_op (pa_alloc count)) Q s.
Proof.
  intros Hs Hc HQ0 HQ. apply wp_nv_page_op. eapply wp_mono; [apply (pa_alloc_spec _ F A); [apply (no_pages _ _ _ _ Hs)|done]|].
  intros r pa [[[-> ->]|(p & o & -> & Hfit & Hsub & Hi)] Hh].
  - replace (set_nv_pages (nv_pages s) s) with s by (by destruct s). done.
  - destruct (block_in F A L s p o Hs Hsub) as (Hp & _). apply (HQ pa p o); [done..| |done].
    destruct Hs as [H1 H2 H3 H4 H5 H6]. constructor; nv_cbn; [done|done|set_solver|lia| |done].
    intros x [Hx _]%elem_of_difference. rewrite Hh. by apply H5.
Qed.

Lemma nv_free_wp F A L s p o c : nv_ok F ((p, o) :: A) L s → 0 < p → (∀ x, x ∈ page_set [(p, o)] → 0 < x ∧ (x + 1) * PAGE_SIZE + pa_hhdm (nv_pages s) ≤ 2 ^ 64) →
  wp (nv_page_op (pa_free (p * PAGE_SIZE) c)) (λ _ s', nv_ok (F ∪ page_set [(p, o)]) A L s' ∧
     ∃ pa, s' = set_nv_pages pa s ∧ pa_hhdm pa = pa_hhdm (nv_pages s)) s.
Proof.
  intros Hs Hp Hx. apply wp_nv_page_op. eapply wp_mono; [apply (pa_free_spec _ F A p o c); [apply (no_pages _ _ _ _ Hs)|lia]|].
  intros [] pa [Hi Hh]. split; [|by exists pa]. destruct Hs as [H1 H2 H3 H4 H5 H6].
  constructor; nv_cbn; [done|done| |lia| |done].
  - intros [?|H0]%elem_of_union; [done|]. specialize (Hx 0 H0). lia.
  - intros x [Hf|Hf]%elem_of_union; rewrite Hh; [by apply H5|]. specialize (Hx x Hf). lia.
Qed.

(** Ring sizes in bytes and frames. *)
Lemma ring_fits entry size o : 0 < entry ≤ 64 → 1 ≤ size ≤ 2 ^ 16 → fits (ring_pages (ring_bytes entry size)) o →
  ring_bytes entry size = entry * size ∧ entry * size ≤ block_size o * PAGE_SIZE ∧
  0 ≤ ring_pages (ring_bytes entry size) ≤ 2 ^ 63.
Proof.
  intros He Hs [Hf _]. assert (E : ring_bytes entry size = entry * size) by (unfold ring_bytes; rewrite wrap_small; nia).
  rewrite E in *. assert (0 < entry * size ≤ 2 ^ 22) by nia. revert Hf. unfold ring_pages, PAGE_SIZE.
  pose proof (Z.div_mod (entry * size + 4096 - 1) 4096 ltac:(lia)). pose proof (Z.mod_pos_bound (entry * size + 4096 - 1) 4096 ltac:(lia)).
  rewrite wrap_small by lia. intros Hf. split_and!; [done|lia|lia|lia].
Qed.

Lemma ring_pages_bound entry size : 0 ≤ ring_pages (ring_bytes entry size) ≤ 2 ^ 63.
Proof. pose proof (wrap_range 32 ((ring_bytes entry size + PAGE_SIZE - 1) / PAGE_SIZE)). unfold ring_pages. lia. Qed.

(** The queue object. *)
Lemma new_queue_wp F A L s (Q : option Z → nvme H PA → Prop) : nv_ok F A L s →
  (∀ h, nv_ok F A L (set_nv_heap h s) → Q None (set_nv_heap h s)) →
  (∀ h q, 0 < q → q ∉ L → nv_ok F A ({[q]} ∪ L) (set_nv_queues (<[q := raw]> (nv_queues s)) (set_nv_heap h s)) →
     Q (Some q) (set_nv_queues (<[q := raw]> (nv_queues s)) (set_nv_heap h s))) →
  wp (new_queue raw) Q s.
Proof.
  intros [H1 H2 H3 H4 H5 H6] HN HS. unfold new_queue. apply wp_bind, wp_nv_heap_op.
  eapply wp_mono; [by apply (kmalloc_spec _ L)|]. intros q h [[-> Hh]|(Hq & HqL & Hh)].
  - cbn [Z.eqb]. wp_run. apply HN. by constructor.
  - rewrite (proj2 (Z.eqb_neq q 0)) by lia. wp_run. apply HS; [done..|].
    constructor; nv_cbn; [done..|].
    intros q' r. rewrite lookup_insert_Some. intros [[<- _]|[_ Hr]]; [set_solver|]. apply elem_of_union. right. by eapply H6.
Qed.

Lemma free_queue_wp F A L s q (Q : () → nvme H PA → Prop) : nv_ok F A ({[q]} ∪ L) s → q ∉ L →
  (∀ h, nv_ok F A L (set_nv_queues (delete q (nv_queues s)) (set_nv_heap h s)) →
     Q () (set_nv_queues (delete q (nv_queues s)) (set_nv_heap h s))) →
  wp (free_queue q) Q s.
Proof.
  intros [H1 H2 H3 H4 H5 H6] Hq HQ. unfold free_queue. apply wp_bind, wp_nv_heap_op.
  eapply wp_mono; [apply (kfree_spec _ ({[q]} ∪ L)); [done|set_solver]|]. intros [] h Hh. wp_run. apply HQ.
  assert (E : ({[q]} ∪ L) ∖ {[q]} = L) by set_solver. rewrite E in Hh.
  constructor; nv_cbn; [done..|].
  intros q' r. rewrite lookup_delete_Some. intros [Hne Hr]. specialize (H6 q' r Hr). set_solver.
Qed.

Lemma nv_ok_queue F A L s q r f : nv_ok F A L s → nv_queues s !! q = Some r →
  nv_ok F A L (set_nv_queues (<[q := f r]> (nv_queues s)) s).
Proof.
  intros [H1 H2 H3 H4 H5 H6] Hr. constructor; [done..|]. nv_cbn. intros q' r'.
  rewrite lookup_insert_Some. intros [[<- _]|[_ ?]]; [by eapply H6|by eapply H6].
Qed.

Lemma nv_ok_mem F A L s mem : nv_ok F A L s → nv_ok F A L (set_nv_mem mem s).
Proof. intros []. by constructor. Qed.

(** ** Creation *)

(** Bytes that lie in no free frame. *)
Definition off_free (F : gset Z) (s : nvme H PA) (x : Z) : Prop :=
  ∀ p, p ∈ F → ¬ (block_addr s p ≤ x < block_addr s p + PAGE_SIZE).

Definition new_ring (s : nvme H PA) (p1 p2 id size : Z) : NvmeQueue :=
  mkQueue (block_addr s p1) (block_addr s p2) (p1 * PAGE_SIZE) (p2 * PAGE_SIZE) 0 0 id size 1.

Definition zeroed (s : nvme H PA) (p1 p2 size : Z) : Z → Z :=
  mem_write (mem_write (nv_mem s) (block_addr s p1) (replicate (Z.to_nat (64 * size)) 0))
    (block_addr s p2) (replicate (Z.to_nat (16 * size)) 0).

(** The outcomes of [nvme_create_queue]: nothing is kept, or the object and two
    blocks, with the object describing them and both rings zeroed. *)
Definition created (id size : Z) (F : gset Z) (A : list block) (L : gset Z) (s : nvme H PA) (o : option Z) (s' : nvme H PA) : Prop :=
  same_regs s s' ∧ (∀ x, off_free F s x → nv_mem s' x = nv_mem s x) ∧
  match o with
  | None => nv_ok F A L s' ∧ nv_queues s' = nv_queues s
  | Some q => 0 < q ∧ (q ∉ L) ∧ ∃ p1 o1 p2 o2,
      page_set [(p1, o1)] ⊆ F ∧ page_set [(p2, o2)] ⊆ F ∖ page_set [(p1, o1)] ∧
      64 * size ≤ block_size o1 * PAGE_SIZE ∧ 16 * size ≤ block_size o2 * PAGE_SIZE ∧
      nv_ok (F ∖ page_set [(p1, o1)] ∖ page_set [(p2, o2)]) ((p2, o2) :: (p1, o1) :: A) ({[q]} ∪ L) s' ∧
      nv_queues s' = <[q := new_ring s p1 p2 id size]> (nv_queues s) ∧ nv_mem s' = zeroed s p1 p2 size
  end.

(** Writes inside a free block leave the rest of memory alone. *)
Lemma write_off_free F s mem p o bs x : page_set [(p, o)] ⊆ F → Z.of_nat (length bs) ≤ block_size o * PAGE_SIZE →
  off_free F s x → mem_write mem (block_addr s p) bs x = mem x.
Proof.
  intros Hsub Hl Hx. rewrite mem_write_lookup, decide_False; [done|]. intros Hr.
  pose proof (Z.div_mod (x - block_addr s p) PAGE_SIZE ltac:(done)) as E.
  pose proof (Z.mod_pos_bound (x - block_addr s p) PAGE_SIZE ltac:(done)) as B. set (d := (x - block_addr s p) / PAGE_SIZE) in *.
  apply (Hx (p + d)).
  - apply Hsub, elem_of_page_set_1, elem_of_block_pages. simpl. unfold PAGE_SIZE in *. lia.
  - unfold block_addr, PAGE_SIZE in *. lia.
Qed.

Lemma block_pages_ok F A L s p o : nv_ok F A L s → page_set [(p, o)] ⊆ F →
  ∀ x, x ∈ page_set [(p, o)] → 0 < x ∧ (x + 1) * PAGE_SIZE + pa_hhdm (nv_pages s) ≤ 2 ^ 64.
Proof.
  intros Hs Hsub x Hx%Hsub. destruct (no_map _ _ _ _ Hs x Hx) as [H0 H1]. split; [|done].
  assert (x ≠ 0) by (intros ->; by apply (no_zero _ _ _ _ Hs)). lia.
Qed.

Lemma new_object_ok F A L s q : nv_ok F A L s → q ∉ L → nv_queues s !! q = None.
Proof. intros Hs Hq. destruct (nv_queues s !! q) as [r|] eqn:E; [|done]. destruct Hq. by eapply no_queues. Qed.

(** The second half, from a state [s1] in which the submission queue is there. *)
Lemma create_cq_wp id size F A L s s1 q p1 o1 : nv_ok F A L s → 1 ≤ size ≤ 2 ^ 16 →
  0 < q → q ∉ L → page_set [(p1, o1)] ⊆ F → fits (ring_pages (ring_bytes 64 size)) o1 →
  same_regs s s1 → nv_ok (F ∖ page_set [(p1, o1)]) ((p1, o1) :: A) ({[q]} ∪ L) s1 →
  nv_queues s1 = <[q := set_sq (block_addr s p1) (p1 * PAGE_SIZE) (init_queue id size raw)]> (nv_queues s) →
  nv_mem s1 = mem_write (nv_mem s) (block_addr s p1) (replicate (Z.to_nat (64 * size)) 0) →
  wp (create_cq q size (pa_hhdm (nv_pages s)) (p1 * PAGE_SIZE) (ring_pages (ring_bytes 64 size))) (created id size F A L s) s1.
Proof.
  intros Hs Hsize Hq HqL Hsub1 Hfit1 Hreg Hs1 Eq1 Em1. pose proof (block_in _ _ _ _ _ _ Hs Hsub1) as (Hp1 & _).
  destruct (ring_fits 64 size o1 ltac:(lia) Hsize Hfit1) as (Eb1 & Hb1 & _).
  assert (Hh : pa_hhdm (nv_pages s1) = pa_hhdm (nv_pages s)) by (by destruct Hreg as (_ & _ & _ & _ & _ & _ & ?)).
  assert (Hoff1 : ∀ x, off_free F s x → nv_mem s1 x = nv_mem s x).
  { intros x Hx. rewrite Em1. apply (write_off_free F s _ p1 o1); [done| |done]. rewrite length_replicate. lia. }
  unfold create_cq. apply wp_bind. apply (nv_alloc_wp (F ∖ page_set [(p1, o1)]) ((p1, o1) :: A) ({[q]} ∪ L)); [done|apply ring_pages_bound| |].
  - cbn [Z.eqb]. apply wp_bind. eapply wp_mono; [apply nv_free_wp; [done|done|]|].
    { intros x Hx. rewrite Hh. by eapply block_pages_ok. }
    intros [] s2 (Hs2 & pa & -> & Hpa). rewrite difference_union_L, (union_comm_L F), (subseteq_union_1_L _ _ Hsub1) in Hs2.
    apply wp_bind, (free_queue_wp F A L); [done..|]. intros h Hs3. wp_run. split; [|split; [exact Hoff1|split; [exact Hs3|]]].
    + destruct Hreg as (? & ? & ? & ? & ? & ? & ?). unfold same_regs. nv_cbn. by rewrite Hpa, Hh.
    + nv_cbn. rewrite Eq1, delete_insert_eq. eapply delete_id, new_object_ok; eauto.
  - intros pa p2 o2 Hp2 Hfit2 Hsub2 Hs2 Hpa. destruct (ring_fits 16 size o2 ltac:(lia) Hsize Hfit2) as (Eb2 & Hb2 & _).
    assert (Hsub2F : page_set [(p2, o2)] ⊆ F) by (intros x Hx%Hsub2%elem_of_difference; by destruct Hx).
    destruct (block_in _ _ _ _ p2 o2 Hs Hsub2F) as (_ & _ & _ & Ea2).
    rewrite (block_nonnull p2 Hp2). unfold write_queue, read_queue, write_mem. wp_run.
    nv_cbn. eapply wp_deref; [rewrite Eq1; apply lookup_insert_eq|]. wp_run. change sizeof_NvmeCqe with 16.
    rewrite Ea2, Eb2. split; [|split].
    + destruct Hreg as (? & ? & ? & ? & ? & ? & ?). unfold same_regs. nv_cbn. by rewrite Hpa, Hh.
    + intros x Hx. nv_cbn. rewrite (write_off_free F s _ p2 o2); [by apply Hoff1|done| |done].
      rewrite length_replicate. lia.
    + split; [done|]. split; [done|]. exists p1, o1, p2, o2. split_and!; [done|done|done|done| | |].
      * apply nv_ok_mem. apply (nv_ok_queue _ _ _ (set_nv_pages pa s1) q (set_sq (block_addr s p1) (p1 * PAGE_SIZE) (init_queue id size raw)) (set_cq (block_addr s p2) (p2 * PAGE_SIZE))); [done|].
        nv_cbn. rewrite Eq1. apply lookup_insert_eq.
      * nv_cbn. by rewrite Eq1, insert_insert_eq.
      * nv_cbn. by rewrite Em1.
Qed.

Lemma create_queue_wp id size F A L s : nv_ok F A L s → 1 ≤ size ≤ 2 ^ 16 →
  wp (nvme_create_queue raw id size) (created id size F A L s) s.
Proof.
  intros Hs Hsize. unfold nvme_create_queue. apply wp_bind. apply (new_queue_wp F A L); [done| |].
  { intros h Hs1. wp_run. split; [done|]. split; [done|]. by split. }
  intros h q Hq HqL Hs1. pose proof (new_object_ok F A L s q Hs HqL) as Hnone.
  unfold write_queue, read_queue, get_hhdm, write_mem. wp_run.
  eapply wp_deref; [nv_cbn; apply lookup_insert_eq|]. wp_run.
  set (s1 := set_nv_queues _ (set_nv_queues _ _)).
  assert (Hs2 : nv_ok F A ({[q]} ∪ L) s1) by (apply nv_ok_queue; [done|apply lookup_insert_eq]).
  assert (Eq1 : nv_queues s1 = <[q := init_queue id size raw]> (nv_queues s)) by apply insert_insert_eq.
  apply (nv_alloc_wp F A ({[q]} ∪ L)); [done|apply ring_pages_bound| |].
  { cbn [Z.eqb]. wp_run. apply (free_queue_wp F A L); [done..|]. intros h' Hs3. wp_run. split; [done|]. split; [done|].
    split; [done|]. nv_cbn. rewrite Eq1, delete_insert_eq. by apply delete_id. }
  intros pa p1 o1 Hp1 Hfit1 Hsub1 Hs3 Hh1. destruct (ring_fits 64 size o1 ltac:(lia) Hsize Hfit1) as (Eb1 & _).
  destruct (block_in _ _ _ _ p1 o1 Hs Hsub1) as (_ & _ & _ & Ea1).
  rewrite (block_nonnull p1 Hp1). wp_run. nv_cbn.
  eapply wp_deref; [rewrite Eq1; apply lookup_insert_eq|]. wp_run. change sizeof_NvmeCmd with 64.
  change (pa_hhdm (nv_pages s1)) with (pa_hhdm (nv_pages s)). rewrite Ea1, Eb1, <-Eb1.
  apply (create_cq_wp id size F A L s _ q p1 o1); [done..|split_and!; [done..|exact Hh1]| | |].
  - apply nv_ok_mem. apply (nv_ok_queue _ _ _ (set_nv_pages pa s1) q (init_queue id size raw) (set_sq (block_addr s p1) (p1 * PAGE_SIZE))); [done|].
    nv_cbn. rewrite Eq1. apply lookup_insert_eq.
  - nv_cbn. by rewrite Eq1, insert_insert_eq.
  - nv_cbn. by rewrite Eb1.
Qed.

(** ** Destruction *)

Lemma destroy_queue_wp F A L s q r p1 o1 p2 o2 :
  nv_ok (F ∖ page_set [(p1, o1)] ∖ page_set [(p2, o2)]) ((p2, o2) :: (p1, o1) :: A) ({[q]} ∪ L) s → q ∉ L →
  page_set [(p1, o1)] ⊆ F → page_set [(p2, o2)] ⊆ F ∖ page_set [(p1, o1)] →
  (∀ x, x ∈ F → 0 < x ∧ (x + 1) * PAGE_SIZE + pa_hhdm (nv_pages s) ≤ 2 ^ 64) →
  nv_queues s !! q = Some r → sq_phys r = p1 * PAGE_SIZE → cq_phys r = p2 * PAGE_SIZE →
  wp (nvme_destroy_queue (Some q)) (λ _ s', nv_ok F A L s' ∧ nv_queues s' = delete q (nv_queues s)) s.
Proof.
  intros Hs HqL Hsub1 Hsub2 HF Hr E1 E2. pose proof (λ x Hx, HF x (Hsub1 x Hx)) as HF1.
  assert (Hp : ∀ p o, page_set [(p, o)] ⊆ F → 0 < p).
  { intros p o Hsub. apply HF, Hsub, elem_of_page_set_1, elem_of_block_pages. simpl. pose proof (block_size_pos o). lia. }
  assert (HF2 : page_set [(p2, o2)] ⊆ F) by (intros x Hx%Hsub2%elem_of_difference; by destruct Hx).
  unfold nvme_destroy_queue, read_queue. wp_run. rewrite E1, E2.
  set (X1 := page_set [(p1, o1)]) in *. set (X2 := page_set [(p2, o2)]) in *.
  assert (Hs' : nv_ok (F ∖ X1 ∖ X2) ((p1, o1) :: (p2, o2) :: A) ({[q]} ∪ L) s).
  { destruct Hs. constructor; [|done..]. eapply pa_perm; [|done]. apply perm_swap. }
  eapply wp_mono; [apply nv_free_wp; [exact Hs'|by apply (Hp p1 o1)|done]|]. intros [] s1 (Hs1 & pa & -> & Hpa). wp_run.
  eapply wp_mono; [apply nv_free_wp; [exact Hs1|by apply (Hp p2 o2)|]|].
  { intros x Hx. nv_cbn. rewrite Hpa. by apply HF, HF2. }
  intros [] s2 (Hs2 & pa2 & -> & Hpa2). fold X1 X2 in Hs2.
  assert (EF : F ∖ X1 ∖ X2 ∪ X1 ∪ X2 = F).
  { apply set_eq. intros x. rewrite !elem_of_union, !elem_of_difference. specialize (Hsub1 x). specialize (HF2 x).
    destruct (decide (x ∈ X1)), (decide (x ∈ X2)); tauto. }
  rewrite EF in Hs2. apply (free_queue_wp F A L); [done..|]. intros h Hs3. by split.
Qed.

(** ** The ring of a new queue *)

Lemma queue_blocks_apart p1 o1 p2 o2 F : page_set [(p2, o2)] ⊆ F ∖ page_set [(p1, o1)] →
  p1 + block_size o1 ≤ p2 ∨ p2 + block_size o2 ≤ p1.
Proof.
  intros Hsub. pose proof (block_size_pos o1). pose proof (block_size_pos o2).
  destruct (decide (p1 + block_size o1 ≤ p2)); [by left|]. destruct (decide (p2 + block_size o2 ≤ p1)); [by right|]. exfalso.
  assert (Hx : Z.max p1 p2 ∈ F ∖ page_set [(p1, o1)]).
  { apply Hsub, elem_of_page_set_1, elem_of_block_pages. simpl. lia. }
  apply elem_of_difference in Hx as [_ []]. apply elem_of_page_set_1, elem_of_block_pages. simpl. lia.
Qed.

Definition ring_of (s : nvme H PA) (p1 p2 id size : Z) : ring := mkRing (kRegs s) id (block_addr s p1) (block_addr s p2) size.

Lemma new_ring_ok F A L s p1 o1 p2 o2 id size : nv_ok F A L s → 0 ≤ id < 2 ^ 16 → 1 ≤ size ≤ 2 ^ 16 →
  page_set [(p1, o1)] ⊆ F → page_set [(p2, o2)] ⊆ F ∖ page_set [(p1, o1)] →
  64 * size ≤ block_size o1 * PAGE_SIZE → 16 * size ≤ block_size o2 * PAGE_SIZE → ring_ok (ring_of s p1 p2 id size).
Proof.
  intros Hs Hid Hsize Hsub1 Hsub2 H1 H2. pose proof (queue_blocks_apart _ _ _ _ _ Hsub2) as Hap.
  assert (HF2 : page_set [(p2, o2)] ⊆ F) by (intros x Hx%Hsub2%elem_of_difference; by destruct Hx).
  destruct (block_in _ _ _ _ _ _ Hs Hsub1) as (_ & ? & ? & _). destruct (block_in _ _ _ _ _ _ Hs HF2) as (_ & ? & ? & _).
  unfold ring_ok, ring_of, block_addr, PAGE_SIZE in *. cbn [g_id g_size g_sq g_cq]. lia.
Qed.

Lemma replicate_zero mem a m x : a ≤ x < a + Z.of_nat m → mem_write mem a (replicate m 0) x = 0.
Proof.
  intros Hx. rewrite mem_write_lookup, length_replicate, decide_True by done. apply lookup_total_replicate_2. lia.
Qed.

(** A new queue whose doorbell was never rung is an empty ring. *)
Lemma new_ring_inv dma posted reply latency s s' q p1 p2 id size : let g := ring_of s p1 p2 id size in
  ring_ok g → controller g dma posted reply latency → rings g (nv_mmio s') = 0 → kRegs s' = kRegs s →
  nv_queues s' !! q = Some (new_ring s p1 p2 id size) → nv_mem s' = zeroed s p1 p2 size →
  ring_inv g posted q 0 [] s'.
Proof.
  intros g Hg Hct Hrings Hr Hq Hm. pose proof (ct_posted _ _ _ _ _ Hct (nv_mmio s')) as Hp.
  assert (Hn : 0 < size) by (by destruct Hg as (_ & [? _] & _)).
  constructor; [done| |done|lia| |].
  - eexists. split; [exact Hq|]. unfold queue_at, new_ring. cbn [sq_virt cq_virt qsize sq_tail cq_head phase length g g_sq g_cq g_size ring_of].
    rewrite Z.mod_0_l by lia. unfold phase_of. by rewrite Z.div_0_l by lia.
  - intros k Hk. pose proof (cq_slot_range g Hg k) as Hslot. cbn [g g_cq g_size ring_of] in Hslot.
    rewrite (load_le_ext 2 _ (λ _, 0)); [done|]. intros x Hx. rewrite Hm. apply replicate_zero. lia.
  - intros i c Hi. by rewrite lookup_nil in Hi.
Qed.
End queues.
