(* ===== verification/NvmeInit.v ===== *)
(** * The NVMe driver against any controller

    Nothing is assumed of the controller here: whatever its registers read and
    whatever it writes to memory, the driver's calls return, keep the indices
    of its rings in range and the allocators consistent, and bring the
    controller up in the order its registers ask for. *)

From S2P Require Import Prelude Bytes Pmm PmmBlocks PageAlloc KernelHeap PortIo Pci Nvme NvmeRing NvmeQueues.
Open Scope Z_scope.

Definition queue_good (r : NvmeQueue) : Prop :=
  0 < qsize r ≤ 2 ^ 31 ∧ 0 ≤ sq_tail r < qsize r ∧ 0 ≤ cq_head r < qsize r ∧ (phase r = 0 ∨ phase r = 1).

(** The fields fixed when a queue is created. *)
Definition same_static (r r' : NvmeQueue) : Prop :=
  sq_virt r' = sq_virt r ∧ cq_virt r' = cq_virt r ∧ sq_phys r' = sq_phys r ∧ cq_phys r' = cq_phys r ∧
  qid r' = qid r ∧ qsize r' = qsize r.

Section any.
Context {H PA : Type} `{!KernelHeap H} `{!PageAllocator PA}.
Context (hw : hardware) (dev : mmio_device) (dma : list mmio_event → (Z → Z) → Z → Z) (raw : NvmeQueue).
Implicit Types (s : nvme H PA) (F : gset Z) (A : list block) (L : gset Z).

(** What commands do to the driver's state, under any controller. *)
Definition queues_evolve (m m' : gmap Z NvmeQueue) : Prop :=
  dom m' = dom m ∧ ∀ q r, m !! q = Some r → queue_good r → ∃ r', m' !! q = Some r' ∧ same_static r r' ∧ queue_good r'.

Definition evolves (s s' : nvme H PA) : Prop :=
  same_rest s s' ∧ (∃ tr, nv_mmio s' = nv_mmio s ++ tr) ∧ queues_evolve (nv_queues s) (nv_queues s').

Lemma queues_evolve_refl m : queues_evolve m m.
Proof. split; [done|]. intros q r Hq Hr. by exists r. Qed.

Lemma queues_evolve_trans m1 m2 m3 : queues_evolve m1 m2 → queues_evolve m2 m3 → queues_evolve m1 m3.
Proof.
  intros [D1 Q1] [D2 Q2]. split; [congruence|]. intros q r Hq Hr. destruct (Q1 q r Hq Hr) as (r' & Hq' & S1 & Hr').
  destruct (Q2 q r' Hq' Hr') as (r'' & Hq'' & S2 & Hr''). exists r''. split_and!; [done| |done].
  unfold same_static in *. intuition congruence.
Qed.

Lemma evolves_refl s : evolves s s.
Proof. split; [done|]. split; [exists []; by rewrite app_nil_r|apply queues_evolve_refl]. Qed.

Lemma evolves_trans s1 s2 s3 : evolves s1 s2 → evolves s2 s3 → evolves s1 s3.
Proof.
  intros (R1 & [t1 T1] & Q1) (R2 & [t2 T2] & Q2). split; [by eapply same_rest_trans|].
  split; [|by eapply queues_evolve_trans]. exists (t1 ++ t2). by rewrite T2, T1, app_assoc.
Qed.

Lemma evolves_mem s mem : evolves s (set_nv_mem mem s).
Proof. split; [done|]. split; [exists []; by rewrite app_nil_r|apply queues_evolve_refl]. Qed.

Lemma evolves_event s e : evolves s (mmio_add e s).
Proof. split; [done|]. split; [by exists [e]|apply queues_evolve_refl]. Qed.

Lemma evolves_queue s q r r' : nv_queues s !! q = Some r → same_static r r' → (queue_good r → queue_good r') →
  evolves s (set_nv_queues (<[q := r']> (nv_queues s)) s).
Proof.
  intros Hq Hs Hgood. split; [done|]. split; [exists []; by rewrite app_nil_r|]. split.
  - nv_cbn. apply dom_insert_lookup_L. by exists r.
  - intros q' x Hx Hgx. nv_cbn. destruct (decide (q' = q)) as [->|Hne].
    + rewrite lookup_insert_eq. assert (x = r) as -> by congruence. eauto.
    + rewrite lookup_insert_ne by done. exists x. done.
Qed.

Lemma nv_ok_evolves F A L s s' : nv_ok F A L s → evolves s s' → nv_ok F A L s'.
Proof.
  intros [H1 H2 H3 H4 H5 H6] ((E1 & E2 & _) & _ & [Hd _]). constructor; rewrite ?E1, ?E2; [done..|].
  intros q r' Hr'. assert (is_Some (nv_queues s !! q)) as [r Hr]; [|by eapply H6].
  apply elem_of_dom. rewrite <-Hd. apply elem_of_dom. by exists r'.
Qed.

(** ** Commands *)

Lemma ring_next_wp size i s (Q : Z → nvme H PA → Prop) : 0 < size → (∀ v, 0 ≤ v < size → Q v s) → wp (ring_next size i) Q s.
Proof.
  intros Hs HQ. unfold ring_next. rewrite (proj2 (Z.eqb_neq size 0)) by lia. apply wp_ret, HQ, Z.mod_pos_bound, Hs.
Qed.

Lemma write_queue_any s q r f : nv_queues s !! q = Some r → same_static r (f r) → (queue_good r → queue_good (f r)) →
  wp (write_queue q f) (λ _ s', evolves s s' ∧ nv_queues s' !! q = Some (f r) ∧ kRegs s' = kRegs s) s.
Proof.
  intros Hq Hs Hgood. unfold write_queue, read_queue. wp_run. split; [by apply (evolves_queue s q r)|].
  split; [apply lookup_insert_eq|done].
Qed.

Lemma reg_write_any w (off v : Z) s : wp (s ← get; mmio_store w (kRegs s +64 off) v) (λ _ s', evolves s s' ∧ nv_queues s' = nv_queues s) s.
Proof. unfold mmio_store. wp_run. split; [apply evolves_event|done]. Qed.

Lemma submit_any q id cmd s r : nv_queues s !! q = Some r → queue_good r →
  wp (submit q id cmd) (λ _ s', evolves s s') s.
Proof.
  intros Hq Hg. unfold submit, write_mem. apply wp_bind. unfold read_queue. wp_run.
  set (s1 := set_nv_mem _ s). apply ring_next_wp; [apply Hg|]. intros tail Ht. apply wp_bind.
  eapply wp_mono; [apply (write_queue_any s1 q r); [done|done|]|].
  { intros (? & ? & ? & ?). split_and!; cbn [set_sq_tail qsize sq_tail cq_head phase]; (done || lia). }
  intros [] s2 (E2 & _ & _). eapply wp_mono; [apply reg_write_any|]. intros [] s3 (E3 & _).
  eapply evolves_trans; [apply evolves_mem|]. by eapply evolves_trans.
Qed.

Lemma consume_any q id status s r : nv_queues s !! q = Some r → queue_good r →
  wp (consume q id (cq_head r) status r) (λ _ s', evolves s s') s.
Proof.
  intros Hq Hg. pose proof Hg as (Hsz & Ht & Hh & Hp). unfold consume. apply wp_bind, ring_next_wp; [apply Hg|]. intros head Hhd.
  apply wp_bind. eapply wp_mono; [apply (write_queue_any s q r (set_cq_head head)); [done|done|]|].
  { intros _. split_and!; cbn [set_cq_head qsize sq_tail cq_head phase]; (done || lia). }
  intros [] s1 (E1 & Hq1 & _). set (r1 := set_cq_head head r) in *. apply wp_bind.
  eapply (wp_mono _ (λ _ s2, evolves s1 s2)).
  { apply wp_when. case_if; [|apply evolves_refl].
    eapply wp_mono; [apply (write_queue_any s1 q r1); [done|done|]|by intros ? ? (? & _)].
    intros (? & ? & ? & Hph). split_and!; cbn [set_phase qsize sq_tail cq_head phase]; [lia..|].
    destruct Hph as [-> | ->]; [by right|by left]. }
  intros [] s2 E2. apply wp_bind. eapply wp_mono; [apply reg_write_any|]. intros [] s3 (E3 & _). apply wp_ret.
  eapply evolves_trans; [exact E1|]. by eapply evolves_trans.
Qed.

(** The polling loop ends, whatever the controller writes. *)
Lemma cq_poll_any timeout q id : ∀ s r, nv_queues s !! q = Some r → queue_good r →
  wp (cq_poll dma timeout q id) (λ _ s', evolves s s') s.
Proof.
  induction timeout as [|timeout IH]; intros s r Hq Hg; cbn [cq_poll]; [apply wp_ret, evolves_refl|].
  unfold read_queue, read_cqe_status. wp_run. set (s1 := set_nv_mem _ s).
  assert (E1 : evolves s s1) by apply evolves_mem. case_if.
  - apply wp_bind. eapply wp_mono; [by apply (consume_any q id _ s1 r)|]. intros st s2 E2. apply wp_ret. by eapply evolves_trans.
  - unfold pause. wp_run. eapply wp_mono; [by apply (IH _ r)|]. intros st s2 E2. eapply evolves_trans; [exact E1|].
    eapply evolves_trans; [apply evolves_event|exact E2].
Qed.

(** ** Registers *)

Definition R (s : nvme H PA) (off : Z) : Z := kRegs s +64 off.

Lemma wait_csts_wp busy s (Q : nat → nvme H PA → Prop) :
  (∀ vs v left, Forall (λ v, busy v = true) vs → (left = 0%nat ∨ busy v = false) →
     Q left (set_nv_mmio (nv_mmio s ++ busy_reads 32 (R s NVME_REG_CSTS) vs ++ [MLoad 32 (R s NVME_REG_CSTS) v]) s)) →
  wp (wait_csts dev busy) Q s.
Proof. intros HQ. unfold wait_csts. wp_run. apply mmio_wait_wp. intros vs v left Hv Hl _. by apply HQ. Qed.

(** A stretch of accesses that only changes the trace. *)
Definition traced (s s' : nvme H PA) (tr : list mmio_event) : Prop := s' = set_nv_mmio (nv_mmio s ++ tr) s.

Lemma traced_trans s1 s2 s3 t1 t2 : traced s1 s2 t1 → traced s2 s3 t2 → traced s1 s3 (t1 ++ t2).
Proof. unfold traced. intros -> ->. nv_cbn. by rewrite app_assoc. Qed.

Lemma traced_evolves s s' tr : traced s s' tr → evolves s s'.
Proof. intros ->. split; [done|]. split; [by exists tr|apply queues_evolve_refl]. Qed.

(** Stores that may come before the admin queue is programmed. *)
Definition quiesces (s : nvme H PA) (tr : list mmio_event) : Prop :=
  ∀ w a v, MStore w a v ∈ tr → w = 32 ∧ a = R s NVME_REG_CC ∧ has_flag v NVME_CC_ENABLE = false.

Lemma busy_reads_quiet w a vs x y z : MStore x y z ∉ busy_reads w a vs.
Proof. unfold busy_reads. rewrite list_elem_of_bind. intros (v & Hv & _). set_solver. Qed.

Lemma quiesces_app s t1 t2 : quiesces s t1 → quiesces s t2 → quiesces s (t1 ++ t2).
Proof. intros H1 H2 w a v [Hv|Hv]%elem_of_app; eauto. Qed.

Lemma quiesces_load s w a v : quiesces s [MLoad w a v].
Proof. intros w' a' v' Hv%list_elem_of_singleton. done. Qed.

Lemma quiesces_busy s w a vs : quiesces s (busy_reads w a vs).
Proof. intros w' a' v' Hv. by apply busy_reads_quiet in Hv. Qed.

Lemma clear_enable cc : 0 ≤ cc < 2 ^ 32 → has_flag (u32 (clear_flag 32 cc NVME_CC_ENABLE)) NVME_CC_ENABLE = false.
Proof.
  intros Hc. unfold NVME_CC_ENABLE. rewrite has_flag_bit by done. unfold wrap at 1. rewrite Z.mod_pow2_bits_low by lia.
  rewrite clear_flag_bit by lia. apply andb_false_r.
Qed.

Lemma disable_wp s : wp (disable_controller dev) (λ _ s', ∃ tr, traced s s' tr ∧ quiesces s tr) s.
Proof.
  unfold disable_controller, reg_read32, reg_write32. apply wp_bind, wp_bind, wp_get. eapply wp_eq; [apply mmio_load_eq|].
  set (cc := wrap 32 _). case_if; [|wp_run; eexists; split; [done|apply quiesces_load]].
  apply wp_bind, wp_bind, wp_get, wp_modify, wp_bind, wait_csts_wp. intros vs v left _ _. apply wp_ret.
  exists ([MLoad 32 (R s NVME_REG_CC) cc] ++ [MStore 32 (R s NVME_REG_CC) (u32 (clear_flag 32 cc NVME_CC_ENABLE))] ++
    busy_reads 32 (R s NVME_REG_CSTS) vs ++ [MLoad 32 (R s NVME_REG_CSTS) v]). split.
  - unfold traced, mmio_add, R. cbn [set_mmio mmio nvme_mmio]. nv_cbn. by rewrite <-!app_assoc.
  - apply quiesces_app; [apply quiesces_load|]. apply quiesces_app; [|apply quiesces_app; [apply quiesces_busy|apply quiesces_load]].
    intros w a x [= -> -> ->]%list_elem_of_singleton. split_and!; [done|done|apply clear_enable, wrap_range; lia].
Qed.

(** The stores that program the admin queue and enable the controller, and the
    loads that wait for it. *)
Definition bring_up (s : nvme H PA) (r : NvmeQueue) (ws : list Z) (v : Z) : list mmio_event :=
  [MStore 32 (R s NVME_REG_AQA) 0x3F003F; MStore 64 (R s NVME_REG_ASQ) (u64 (sq_phys r));
   MStore 64 (R s NVME_REG_ACQ) (u64 (cq_phys r)); MStore 32 (R s NVME_REG_CC) 0x460001] ++
  busy_reads 32 (R s NVME_REG_CSTS) ws ++ [MLoad 32 (R s NVME_REG_CSTS) v].

Lemma enable_wp q r s : nv_queues s !! q = Some r →
  wp (enable_controller dev q) (λ b s', ∃ ws v, traced s s' (bring_up s r ws v) ∧
    (b = true → Forall (λ w, has_flag w NVME_CSTS_RDY = false) ws ∧ has_flag v NVME_CSTS_RDY = true)) s.
Proof.
  intros Hq. unfold enable_controller, reg_write32, reg_write64, read_queue, mmio_store.
  apply wp_bind, wp_bind, wp_get, wp_modify, wp_bind, wp_bind, wp_get. eapply wp_deref; [exact Hq|].
  apply wp_bind, wp_bind, wp_get, wp_modify, wp_bind, wp_bind, wp_get, wp_modify, wp_bind, wp_bind, wp_get, wp_modify.
  apply wp_bind, wait_csts_wp. intros vs v left Hv Hl. apply wp_ret. exists vs, v. split.
  - unfold traced, mmio_add, R, bring_up. cbn [set_mmio mmio nvme_mmio]. nv_cbn. by rewrite <-!app_assoc.
  - intros Hb. destruct Hl as [-> |Hl]; [done|]. split; [|by apply negb_false_iff in Hl].
    eapply Forall_impl; [exact Hv|]. intros x Hx. by apply negb_true_iff in Hx.
Qed.

(** ** PCI *)

Definition ported (s s' : nvme H PA) : Prop := ∃ p, s' = set_nv_ports p s.

Lemma pci_steps bus d func s : wp (pci_enable_bus_mastering hw bus d func) (λ _ s', ported s s') s.
Proof.
  unfold pci_enable_bus_mastering, pci_config_read_word, pci_config_read_dword, pci_config_write_dword, outl, inl_, out_, in_.
  wp_run. by eexists.
Qed.

Lemma read_bar0_wp bus d func s : wp (read_bar0 hw bus d func) (λ _ s', ported s s') s.
Proof. unfold read_bar0, pci_read_bar, pci_config_read_dword, outl, inl_, out_, in_. cbn [Z.ltb Z.compare]. wp_run. by eexists. Qed.

(** ** The steps of initialisation *)

(** Across a step: the trace grows, the queues evolve, the pointers stay. *)
Definition kept (s s' : nvme H PA) : Prop :=
  kRegs s' = kRegs s ∧ kAdminQ s' = kAdminQ s ∧ kIoQ s' = kIoQ s ∧ pa_hhdm (nv_pages s') = pa_hhdm (nv_pages s) ∧
  (∃ tr, nv_mmio s' = nv_mmio s ++ tr) ∧ queues_evolve (nv_queues s) (nv_queues s').

Lemma nv_kept_trans s1 s2 s3 : kept s1 s2 → kept s2 s3 → kept s1 s3.
Proof.
  intros (? & ? & ? & ? & [t1 T1] & Q1) (? & ? & ? & ? & [t2 T2] & Q2). unfold kept. split_and!; [congruence..| |by eapply queues_evolve_trans].
  exists (t1 ++ t2). by rewrite T2, T1, app_assoc.
Qed.

Lemma evolves_kept s s' : evolves s s' → kept s s'.
Proof. intros ((_ & E & _ & ? & _ & ? & ?) & Ht & Hq). unfold kept. by rewrite E. Qed.

Lemma pages_kept s pa : pa_hhdm pa = pa_hhdm (nv_pages s) → kept s (set_nv_pages pa s).
Proof. intros E. unfold kept. nv_cbn. split_and!; [done..|exists []; by rewrite app_nil_r|apply queues_evolve_refl]. Qed.

Lemma admin_any cmd s q r : kAdminQ s = Some q → nv_queues s !! q = Some r → queue_good r →
  wp (nvme_admin_cmd dma cmd) (λ _ s', evolves s s') s.
Proof.
  intros Ha Hq Hg. unfold nvme_admin_cmd. apply wp_bind, wp_get. rewrite Ha. apply wp_bind.
  eapply wp_mono; [by eapply submit_any|]. intros [] s1 E1. pose proof E1 as (_ & _ & _ & Eq).
  destruct (Eq q r Hq Hg) as (r1 & Hq1 & _ & Hg1). apply wp_bind. eapply wp_mono; [by apply (cq_poll_any _ q 0 s1 r1)|].
  intros st s2 E2. apply wp_ret. by eapply evolves_trans.
Qed.

Lemma kept_queue s s' q r : kept s s' → nv_queues s !! q = Some r → queue_good r →
  ∃ r', nv_queues s' !! q = Some r' ∧ same_static r r' ∧ queue_good r'.
Proof. intros (_ & _ & _ & _ & _ & _ & Hq). apply Hq. Qed.

(** The identify page is given back on every path. *)
Lemma identify_wp F A L s q r : nv_ok F A L s → kAdminQ s = Some q → nv_queues s !! q = Some r → queue_good r →
  wp (identify dev dma) (λ _ s', nv_ok F A L s' ∧ kept s s') s.
Proof.
  intros Hs Ha Hq Hg. unfold identify. apply wp_bind. apply (nv_alloc_wp F A L); [done|lia| |].
  { apply wp_ret. split; [done|]. apply evolves_kept, evolves_refl. }
  intros pa p o Hp _ Hsub Hs1 Hh. rewrite (block_nonnull p Hp). pose proof (pages_kept s pa Hh) as K1.
  apply wp_bind. eapply wp_mono; [by apply (admin_any _ (set_nv_pages pa s) q r)|]. intros st s2 E2.
  pose proof (nv_ok_evolves _ _ _ _ _ Hs1 E2) as Hs2. pose proof (nv_kept_trans _ _ _ K1 (evolves_kept _ _ E2)) as K2.
  assert (Hfree : ∀ s3, nv_ok (F ∖ page_set [(p, o)]) ((p, o) :: A) L s3 → kept s s3 →
    wp (nv_page_op (pa_free (p * PAGE_SIZE) 1)) (λ _ s', nv_ok F A L s' ∧ kept s s') s3).
  { intros s3 Hs3 K3. eapply wp_mono; [apply nv_free_wp; [exact Hs3|done|]|].
    - intros x Hx. destruct K3 as (_ & _ & _ & -> & _). by eapply block_pages_ok.
    - intros [] s4 (Hs4 & pa' & -> & Hh'). split; [|eapply nv_kept_trans; [exact K3|by apply pages_kept]].
      by rewrite difference_union_L, (union_comm_L F), (subseteq_union_1_L _ _ Hsub) in Hs4. }
  case_if.
  - apply wp_bind. eapply wp_mono; [by apply Hfree|]. intros [] s3 H3. by apply wp_ret.
  - unfold reg_read32. apply wp_bind, wp_bind, wp_get. eapply wp_eq; [apply mmio_load_eq|]. apply wp_bind.
    set (s3 := mmio_add _ s2). assert (E3 : evolves s2 s3) by apply evolves_event.
    eapply wp_mono; [apply Hfree|intros [] s4 H4; by apply wp_ret].
    + by eapply nv_ok_evolves.
    + eapply nv_kept_trans; [exact K2|by apply evolves_kept].
Qed.

(** The queue at [q] lies in these two blocks. *)
Definition owns (s : nvme H PA) (q p1 p2 : Z) : Prop :=
  ∃ r, nv_queues s !! q = Some r ∧ sq_phys r = p1 * PAGE_SIZE ∧ cq_phys r = p2 * PAGE_SIZE ∧ queue_good r.

Lemma owns_evolve s s' q p1 p2 : queues_evolve (nv_queues s) (nv_queues s') → owns s q p1 p2 → owns s' q p1 p2.
Proof.
  intros [_ Hq] (r & Hr & E1 & E2 & Hg). destruct (Hq q r Hr Hg) as (r' & Hr' & (_ & _ & S1 & S2 & _) & Hg').
  exists r'. split_and!; [done|congruence..|done].
Qed.

Lemma new_ring_good s p1 p2 id size : 1 ≤ size ≤ 2 ^ 16 → queue_good (new_ring s p1 p2 id size).
Proof. intros Hs. unfold queue_good, new_ring. cbn [qsize sq_tail cq_head phase]. lia. Qed.

(** Blocks and objects held for the two queues, as they are created. *)
Inductive init_holds (F : gset Z) (A : list block) (L : gset Z) (s : nvme H PA) : Prop :=
  | holds_none : kAdminQ s = None → kIoQ s = None → nv_ok F A L s → init_holds F A L s
  | holds_admin q p1 o1 p2 o2 : kAdminQ s = Some q → kIoQ s = None → owns s q p1 p2 → q ∉ L →
      page_set [(p1, o1)] ⊆ F → page_set [(p2, o2)] ⊆ F ∖ page_set [(p1, o1)] →
      nv_ok (F ∖ page_set [(p1, o1)] ∖ page_set [(p2, o2)]) ((p2, o2) :: (p1, o1) :: A) ({[q]} ∪ L) s → init_holds F A L s
  | holds_both q p1 o1 p2 o2 q' p1' o1' p2' o2' : let F1 := F ∖ page_set [(p1, o1)] ∖ page_set [(p2, o2)] in
      kAdminQ s = Some q → kIoQ s = Some q' → owns s q p1 p2 → owns s q' p1' p2' → q ∉ L → q' ∉ {[q]} ∪ L →
      page_set [(p1, o1)] ⊆ F → page_set [(p2, o2)] ⊆ F ∖ page_set [(p1, o1)] →
      page_set [(p1', o1')] ⊆ F1 → page_set [(p2', o2')] ⊆ F1 ∖ page_set [(p1', o1')] →
      nv_ok (F1 ∖ page_set [(p1', o1')] ∖ page_set [(p2', o2')])
        ((p2', o2') :: (p1', o1') :: (p2, o2) :: (p1, o1) :: A) ({[q']} ∪ ({[q]} ∪ L)) s → init_holds F A L s.

(** Creating the I/O queues, on top of the admin queue. *)
Lemma create_io_wp F A L s q r p1 o1 p2 o2 : let F1 := F ∖ page_set [(p1, o1)] ∖ page_set [(p2, o2)] in
  kAdminQ s = Some q → kIoQ s = None → nv_queues s !! q = Some r → queue_good r → owns s q p1 p2 → q ∉ L →
  page_set [(p1, o1)] ⊆ F → page_set [(p2, o2)] ⊆ F ∖ page_set [(p1, o1)] →
  nv_ok F1 ((p2, o2) :: (p1, o1) :: A) ({[q]} ∪ L) s →
  wp (create_io_queues dma raw) (λ _ s', init_holds F A L s' ∧ (∃ tr, nv_mmio s' = nv_mmio s ++ tr) ∧
    kRegs s' = kRegs s ∧ kAdminQ s' = Some q ∧ ∃ r', nv_queues s' !! q = Some r' ∧ same_static r r') s.
Proof.
  intros F1 Ha Hio Hq Hg Hown HqL Hsub1 Hsub2 Hs. unfold create_io_queues. apply wp_bind.
  eapply wp_mono; [apply (create_queue_wp raw 1 NVME_IO_QUEUE_SIZE F1 _ _ s Hs); done|].
  intros [q'|] s1 (Hreg & _ & Hpost); destruct Hreg as (_ & Em1 & Er1 & _ & Ea1 & Ei1 & _).
  2: { destruct Hpost as [Hs1 Eq1]. apply wp_bind, wp_modify, wp_ret. split;
         [|nv_cbn; rewrite Eq1; split_and!; [exists []; by rewrite app_nil_r|done|congruence|by exists r]].
       apply (holds_admin _ _ _ _ q p1 o1 p2 o2); [by rewrite <-Ha, <-Ea1|done| |done..|by destruct Hs1].
       destruct Hown as (x & Hx & Hrest). exists x. split; [|done]. nv_cbn. by rewrite Eq1. }
  destruct Hpost as (Hq'0 & Hq'L & p1' & o1' & p2' & o2' & Hsub1' & Hsub2' & _ & _ & Hs1 & Eq1 & _).
  apply wp_bind, wp_modify. set (s2 := set_kIoQ (Some q') s1). unfold read_queue.
  assert (Hne : q ≠ q') by set_solver. set (r' := new_ring s p1' p2' 1 NVME_IO_QUEUE_SIZE) in *.
  assert (Hr' : nv_queues s2 !! q' = Some r') by (subst s2; nv_cbn; rewrite Eq1; apply lookup_insert_eq).
  assert (Hr : nv_queues s2 !! q = Some r) by (subst s2; nv_cbn; by rewrite Eq1, lookup_insert_ne).
  assert (Hg' : queue_good r') by by apply new_ring_good.
  apply wp_bind, wp_bind, wp_get. eapply wp_deref; [exact Hr'|]. apply wp_bind.
  eapply wp_mono; [apply (admin_any _ s2 q r); [by rewrite <-Ha, <-Ea1|done|done]|]. intros ? s3 E3.
  pose proof E3 as (R3 & _ & _ & Q3). destruct (Q3 q r Hr Hg) as (r3 & Hr3 & _ & Hg3). destruct (Q3 q' r' Hr' Hg') as (r3' & Hr3' & _ & _).
  apply wp_bind, wp_bind, wp_get. eapply wp_deref; [exact Hr3'|]. apply wp_bind.
  assert (Ea3 : kAdminQ s3 = Some q) by (destruct R3 as (_ & _ & _ & _ & _ & -> & _); by rewrite <-Ha, <-Ea1).
  eapply wp_mono; [by apply (admin_any _ s3 q r3)|]. intros ? s4 E4. apply wp_ret. pose proof (evolves_trans _ _ _ E3 E4) as E.
  pose proof E as ((_ & _ & _ & _ & _ & Ea4 & Ei4) & [tr Etr] & Hqe). split.
  - apply (holds_both _ _ _ _ q p1 o1 p2 o2 q' p1' o1' p2' o2'); [by rewrite Ea4, <-Ha, <-Ea1|by rewrite Ei4| | |done..|].
    + apply (owns_evolve s2); [done|]. destruct Hown as (x & Hx & Hrest). exists x. split; [|done]. subst s2. nv_cbn.
      rewrite Eq1, lookup_insert_ne by done. done.
    + apply (owns_evolve s2); [done|]. by exists r'.
    + apply (nv_ok_evolves _ _ _ s2); [|done]. destruct Hs1. by constructor.
  - destruct (proj2 Hqe q r Hr Hg) as (r4 & Hr4 & S4 & _). pose proof E as ((_ & _ & _ & Er4 & _) & _).
    split_and!; [exists tr; rewrite Etr; subst s2; nv_cbn; by rewrite Em1|by rewrite Er4|by rewrite Ea4, <-Ha, <-Ea1|by exists r4].
Qed.

(** ** Initialisation *)

(** The controller was left disabled, then given its admin queue, then enabled,
    and seen ready, before anything else. *)
Definition brought_up (s s' : nvme H PA) : Prop :=
  ∃ pre q r ws v post, kAdminQ s' = Some q ∧ nv_queues s' !! q = Some r ∧
    nv_mmio s' = nv_mmio s ++ pre ++ bring_up s' r ws v ++ post ∧ quiesces s' pre ∧
    Forall (λ w, has_flag w NVME_CSTS_RDY = false) ws ∧ has_flag v NVME_CSTS_RDY = true.

Lemma bring_up_regs s s' r r' ws v : kRegs s' = kRegs s → same_static r r' → bring_up s' r' ws v = bring_up s r ws v.
Proof. intros Er (_ & _ & E1 & E2 & _). unfold bring_up, R. by rewrite Er, E1, E2. Qed.

Lemma quiesces_regs s s' tr : kRegs s' = kRegs s → quiesces s tr → quiesces s' tr.
Proof. intros Er Hq. unfold quiesces, R in *. by rewrite Er. Qed.

Lemma nv_ok_regs F A L s s' : nv_pages s' = nv_pages s → nv_heap s' = nv_heap s → nv_queues s' = nv_queues s → nv_ok F A L s → nv_ok F A L s'.
Proof. intros E1 E2 E3 []. constructor; by rewrite ?E1, ?E2, ?E3. Qed.

(** From the state in which the admin queue exists. *)
Lemma init_queue_wp F A L s0 s q p1 o1 p2 o2 r pre : kAdminQ s = Some q → kIoQ s = None →
  nv_queues s !! q = Some r → queue_good r → sq_phys r = p1 * PAGE_SIZE → cq_phys r = p2 * PAGE_SIZE → q ∉ L →
  page_set [(p1, o1)] ⊆ F → page_set [(p2, o2)] ⊆ F ∖ page_set [(p1, o1)] →
  nv_ok (F ∖ page_set [(p1, o1)] ∖ page_set [(p2, o2)]) ((p2, o2) :: (p1, o1) :: A) ({[q]} ∪ L) s →
  nv_mmio s = nv_mmio s0 ++ pre → quiesces s pre →
  wp (ready ← enable_controller dev q;
      if negb ready then mret false
      else identified ← identify dev dma; if negb identified then mret false else create_io_queues dma raw;; mret true)
    (λ b s', init_holds F A L s' ∧ (b = true → brought_up s0 s')) s.
Proof.
  intros Ha Hio Hq Hg E1 E2 HqL Hsub1 Hsub2 Hs Hpre Hqu. apply wp_bind.
  eapply wp_mono; [by apply (enable_wp q r)|]. intros ready s1 (ws & v & T1 & Hready). pose proof (traced_evolves _ _ _ T1) as Ev1.
  assert (Hhold : ∀ s', kept s s' → nv_ok (F ∖ page_set [(p1, o1)] ∖ page_set [(p2, o2)]) ((p2, o2) :: (p1, o1) :: A) ({[q]} ∪ L) s' → init_holds F A L s').
  { intros s' (_ & Ka & Ki & _ & _ & Kq) Hs'. apply (holds_admin _ _ _ _ q p1 o1 p2 o2); [congruence|congruence| |done..].
    apply (owns_evolve s); [done|]. by exists r. }
  case_if; [apply wp_ret; split; [apply Hhold; [by apply evolves_kept|by eapply nv_ok_evolves]|done]|].
  destruct (Hready Heqb) as [Hws Hv]. unfold traced in T1. apply wp_bind. eapply wp_mono; [eapply (identify_wp _ _ _ s1 q r); [by eapply nv_ok_evolves|by subst s1..|done]|].
  intros identified s2 (Hs2 & K2). pose proof (nv_kept_trans _ _ _ (evolves_kept _ _ Ev1) K2) as K.
  case_if; [apply wp_ret; split; [by apply Hhold|done]|].
  destruct (kept_queue _ _ _ _ K Hq Hg) as (r2 & Hr2 & S2 & Hg2). pose proof K as (Kr & Ka & Ki & _ & _ & Kq).
  apply wp_bind. eapply wp_mono; [eapply (create_io_wp F A L s2 q r2 p1 o1 p2 o2); [congruence|congruence|done|done| |done..]|].
  { apply (owns_evolve s); [done|]. by exists r. }
  intros [] s3 (Hh & [tr3 Et3] & Er3 & Ea3 & r3 & Hr3 & S3). apply wp_ret. split; [exact Hh|]. intros _.
  pose proof K2 as (_ & _ & _ & _ & [tr2 Et2] & _).
  assert (Er : kRegs s3 = kRegs s) by congruence. exists pre, q, r3, ws, v, (tr2 ++ tr3).
  split_and!; [done|done| |by eapply quiesces_regs|done|done].
  rewrite (bring_up_regs s s3 r r3) by (done || (unfold same_static in *; intuition congruence)).
  rewrite Et3, Et2, T1. nv_cbn. by rewrite Hpre, <-!app_assoc.
Qed.

Lemma init_wp F A L s bus d func : nv_ok F A L s → kAdminQ s = None → kIoQ s = None →
  wp (nvme_init hw dev dma raw bus d func) (λ b s', init_holds F A L s' ∧ (b = true → brought_up s s')) s.
Proof.
  intros Hs Ha Hio. unfold nvme_init. apply wp_bind. eapply wp_mono; [apply pci_steps|]. intros [] s1 [t1 ->].
  apply wp_bind. eapply wp_mono; [apply read_bar0_wp|]. intros bar0 s2 [t2 ->].
  assert (Hnone : ∀ s', nv_pages s' = nv_pages s → nv_heap s' = nv_heap s → nv_queues s' = nv_queues s →
    kAdminQ s' = None → kIoQ s' = None → init_holds F A L s').
  { intros s' ? ? ? ? ?. apply holds_none; [done..|]. by apply (nv_ok_regs F A L s). }
  case_if; [apply wp_ret; split; [by apply Hnone|done]|]. unfold get_hhdm, reg_read64, reg_read32.
  apply wp_bind, wp_gets, wp_bind, wp_modify, wp_bind, wp_bind, wp_get. eapply wp_eq; [apply mmio_load_eq|].
  apply wp_bind, wp_bind, wp_get. eapply wp_eq; [apply mmio_load_eq|]. set (s3 := mmio_add (MLoad 32 _ _) _). apply wp_bind. eapply wp_mono; [apply disable_wp|]. intros disabled s4 (tr & -> & Hqu).
  case_if; [apply wp_ret; split; [by apply Hnone|done]|]. set (s4 := set_nv_mmio _ s3).
  assert (Hs4 : nv_ok F A L s4) by (by apply (nv_ok_regs F A L s)).
  apply wp_bind. eapply wp_mono; [by apply (create_queue_wp raw 0 NVME_ADMIN_QUEUE_SIZE F A L)|].
  intros [q|] s5 (Hreg & _ & Hpost); destruct Hreg as (_ & Em & Er & _ & _ & Ei & _).
  2: { destruct Hpost as [Hs5 Eq5]. apply wp_bind, wp_modify, wp_ret. split; [|done].
       apply holds_none; [done|by rewrite <-Hio|]. by apply (nv_ok_regs F A L s5). }
  destruct Hpost as (_ & HqL & p1 & o1 & p2 & o2 & Hsub1 & Hsub2 & _ & _ & Hs5 & Eq5 & _). apply wp_bind, wp_modify.
  eapply (init_queue_wp F A L s _ q p1 o1 p2 o2 (new_ring s4 p1 p2 0 NVME_ADMIN_QUEUE_SIZE));
    [done|by rewrite <-Hio|nv_cbn; rewrite Eq5; apply lookup_insert_eq|by apply new_ring_good|done|done|done|done|done|by apply (nv_ok_regs _ _ _ s5)| |].
  - nv_cbn. rewrite Em. subst s4 s3. unfold mmio_add. cbn [set_mmio mmio nvme_mmio]. nv_cbn. rewrite <-!app_assoc. reflexivity.
  - apply quiesces_app; [apply quiesces_load|]. apply quiesces_app; [apply quiesces_load|]. eapply (quiesces_regs s3); [|done].
    nv_cbn. by rewrite Er.
Qed.
End any.
