(* ===== verification/NvmeTheorems.v ===== *)
(** * Properties of the NVMe driver *)

From S2P Require Import Prelude Bytes Pmm PmmBlocks PmmInv PageAlloc PmmTheorems KernelHeap PortIo Pci Nvme NvmeRing NvmeQueues NvmeInit.
From S2P Require Import HeapTheorems VmmTheorems.
Open Scope Z_scope.

(** ** A controller that answers after a delay

    A completion appears [d] pauses after its doorbell was rung; the status
    words of the entries it has not reached are left as they are. *)

Fixpoint answered (g : ring) (d : nat) (tr : list mmio_event) : Z :=
  match tr with
  | [] => 0
  | e :: tr => (if is_ring g e && (d <=? pauses tr)%nat then 1 else 0) + answered g d tr
  end.

Definition last_posted (g : ring) (p j : Z) : Z := p - 1 - (p - 1 - j) mod g_size g.

Definition delayed_dma (g : ring) (d : nat) (reply : Z → Z) (tr : list mmio_event) (mem : Z → Z) (x : Z) : Z :=
  let o := x - g_cq g in
  let k := last_posted g (answered g d tr) (o / 16) in
  if (0 <=? o) && (o <? 16 * g_size g) && (14 <=? o mod 16) && (0 <=? k) then
    le_bytes 2 (2 * reply k + phase_of (g_size g) k) !!! Z.to_nat (o mod 16 - 14)
  else mem x.

Lemma rings_cons g e tr : rings g (e :: tr) = (if is_ring g e then 1 else 0) + rings g tr.
Proof.
  unfold rings. destruct (is_ring g e) eqn:E; [rewrite filter_cons_True by done; simpl; lia|]. rewrite filter_cons_False by (by rewrite E). done.
Qed.

Lemma answered_bound g d tr : 0 ≤ answered g d tr ≤ rings g tr.
Proof.
  induction tr as [|e tr IH]; [done|]. rewrite rings_cons. cbn [answered]. destruct (is_ring g e); cbn [andb]; [|lia].
  destruct (_ <=? _)%nat; lia.
Qed.

Lemma answered_app g d tr tr' : answered g d tr ≤ answered g d (tr ++ tr').
Proof.
  induction tr as [|e tr IH]; [apply answered_bound|]. cbn [answered app]. rewrite pauses_app.
  destruct (is_ring g e); cbn [andb]; [|lia]. destruct (Nat.leb_spec d (pauses tr)), (Nat.leb_spec d (pauses tr + pauses tr')); lia.
Qed.

Lemma answered_all g d tr tr' : (d ≤ pauses tr')%nat → rings g tr ≤ answered g d (tr ++ tr').
Proof.
  intros Hd. induction tr as [|e tr IH]; [apply answered_bound|]. cbn [answered app]. rewrite rings_cons, pauses_app.
  destruct (is_ring g e); cbn [andb]; [|lia]. rewrite (proj2 (Nat.leb_le d _)) by lia. lia.
Qed.

Lemma last_posted_entry g p k : 0 < g_size g → 0 ≤ k < p → p ≤ k + g_size g → last_posted g p (k mod g_size g) = k.
Proof.
  intros Hn Hk Hp. unfold last_posted. rewrite Zminus_mod_idemp_r. rewrite Z.mod_small; lia.
Qed.

Lemma last_posted_none g p k : 0 < g_size g → 0 ≤ p ≤ k → k < g_size g → last_posted g p k < 0.
Proof.
  intros Hn Hp Hk. unfold last_posted. replace ((p - 1 - k) mod g_size g) with (p - 1 - k + g_size g); [lia|].
  symmetry. rewrite <-(Z_mod_plus_full _ 1), Z.mod_small; lia.
Qed.

Lemma cq_offset g k i : ring_ok g → 0 ≤ i < 2 → let o := cq_slot g k + 14 + i - g_cq g in
  0 ≤ o < 16 * g_size g ∧ o / 16 = k mod g_size g ∧ o mod 16 = 14 + i.
Proof.
  intros (_ & Hn & _) Hi o. pose proof (Z.mod_pos_bound k (g_size g) ltac:(lia)) as B.
  assert (E : o = 16 * (k mod g_size g) + (14 + i)) by (unfold o, cq_slot; lia). split_and!; [lia|lia|..]; symmetry.
  - apply (Z.div_unique _ _ _ (14 + i)); lia.
  - apply (Z.mod_unique _ _ (k mod g_size g)); lia.
Qed.

Lemma delayed_word g d reply tr mem k : ring_ok g → load_le 2 (delayed_dma g d reply tr mem) (cq_slot g k + 14) =
  let p := last_posted g (answered g d tr) (k mod g_size g) in
  if 0 <=? p then le_value (le_bytes 2 (2 * reply p + phase_of (g_size g) p)) else load_le 2 mem (cq_slot g k + 14).
Proof.
  intros Hg. cbn zeta. set (p := last_posted _ _ _). unfold load_le. change (seq 0 2) with [0%nat; 1%nat]. cbn [fmap list_fmap].
  assert (E : ∀ i : nat, (i < 2)%nat → delayed_dma g d reply tr mem (cq_slot g k + 14 + Z.of_nat i) =
    if 0 <=? p then le_bytes 2 (2 * reply p + phase_of (g_size g) p) !!! i else mem (cq_slot g k + 14 + Z.of_nat i)).
  { intros i Hi. destruct (cq_offset g k (Z.of_nat i) Hg ltac:(lia)) as (Ho & Hd & Hm). unfold delayed_dma. rewrite Hd, Hm. fold p.
    rewrite (proj2 (Z.leb_le 0 _)), (proj2 (Z.ltb_lt _ _)), (proj2 (Z.leb_le 14 _)) by lia. cbn [andb].
    by replace (Z.to_nat (14 + Z.of_nat i - 14)) with i by lia. }
  rewrite !E by lia. by destruct (0 <=? p).
Qed.

Lemma delayed_controller g d reply : ring_ok g → (∀ k, 0 ≤ reply k < 2 ^ 15) →
  controller g (delayed_dma g d reply) (answered g d) reply d.
Proof.
  intros Hg Hr. assert (Hn : 0 < g_size g) by (by destruct Hg as (_ & [? _] & _)). constructor.
  - apply answered_bound.
  - intros tr e. apply answered_app.
  - apply answered_all.
  - done.
  - intros tr mem k Hk Hp. rewrite delayed_word by done. rewrite last_posted_entry by done. cbn zeta.
    rewrite (proj2 (Z.leb_le 0 k)) by lia. apply (le_value_bytes 2). destruct (phase_of_range (g_size g) k); specialize (Hr k); simpl; lia.
  - intros tr mem k Hk. pose proof (answered_bound g d tr) as Hb. rewrite delayed_word by done. cbn zeta. rewrite (Z.mod_small k) by lia.
    pose proof (last_posted_none g (answered g d tr) k Hn ltac:(lia) ltac:(lia)) as Hneg.
    by rewrite (proj2 (Z.leb_gt 0 _)) by lia.
  - intros tr mem x Hx. destruct Hg as (_ & _ & _ & _ & _ & _ & Hd). unfold delayed_dma.
    destruct (Z.leb_spec 0 (x - g_cq g)), (Z.ltb_spec (x - g_cq g) (16 * g_size g)); cbn [andb]; (done || lia).
Qed.

Lemma timeout_above d : (d ≤ 1000)%nat → (d < NVME_TIMEOUT)%nat.
Proof. intros Hd. unfold NVME_TIMEOUT. lia. Qed.

(** ** Machines to run the witnesses on *)

Definition blank_queue : NvmeQueue := mkQueue 0 0 0 0 0 0 0 0 0.

(** The driver at boot, on the machine of eight free frames. *)
Definition nvme_boot : nvme bump pmm := mkNvme (mkBump 0x6000 0x7000) small_pmm (λ _, 0) [] [] ∅ 0 0 None None.

Lemma nvme_boot_ok : ∃ F, nv_ok F [] ∅ nvme_boot.
Proof.
  destruct small_free as (L & Hi & HF). exists (page_set (blocks L)). constructor.
  - exists L. by split.
  - split; [simpl; lia|]. set_solver.
  - intros H0%HF. lia.
  - change (0 ≤ kHhdmOffset small_pmm). rewrite small_hhdm. lia.
  - intros x Hx%HF. change (pa_hhdm (nv_pages nvme_boot)) with (kHhdmOffset small_pmm). rewrite small_hhdm. unfold PAGE_SIZE. lia.
  - intros q r Hq. unfold nvme_boot in Hq. cbn [nv_queues] in Hq. by rewrite lookup_empty in Hq.
Qed.

(** An admin queue of four entries, and the same as queue 1. *)
Definition demo_ring (id : Z) : ring := mkRing 0x100000 id 0x10000 0x20000 4.
Definition demo_nvme (id : Z) : nvme bump pmm :=
  mkNvme (mkBump 0x6000 0x7000) small_pmm (λ _, 0) [] [] {[0x500 := mkQueue 0x10000 0x20000 0x10000 0x20000 0 0 id 4 1]}
    0x100000 0x101000 (Some 0x500) (Some 0x500).
Definition demo_reply (k : Z) : Z := k mod 128.

Lemma demo_ring_ok id : 0 ≤ id < 2 → ring_ok (demo_ring id).
Proof. intros Hid. unfold ring_ok, demo_ring. cbn [g_id g_size g_sq g_cq]. lia. Qed.

Lemma demo_reply_range k : 0 ≤ demo_reply k < 2 ^ 15.
Proof. unfold demo_reply. pose proof (Z.mod_pos_bound k 128). lia. Qed.

Lemma ring_demo_inv id d : 0 ≤ id < 2 → ring_inv (demo_ring id) (answered (demo_ring id) d) 0x500 0 [] (demo_nvme id).
Proof.
  intros Hid. constructor; [done| |done|done| |].
  - eexists. split; [apply lookup_singleton_eq|]. done.
  - intros k Hk. done.
  - intros i c Hi. by rewrite lookup_nil in Hi.
Qed.

(** ** Properties *)

Section stream.
Context {H PA : Type} `{!KernelHeap H} `{!PageAllocator PA} (dma : list mmio_event → (Z → Z) → Z → Z).
Implicit Types s : nvme H PA.

(** Admin commands one after the other, with their results. *)
Fixpoint admin_cmds (cmds : list NvmeCmd) : M (nvme H PA) (list Z) :=
  match cmds with
  | [] => mret []
  | c :: cmds => st ← nvme_admin_cmd dma c; sts ← admin_cmds cmds; mret (st :: sts)
  end.

Lemma admin_cmd_wp g posted reply latency q h log cmd s : ring_ok g → g_id g = 0 → controller g dma posted reply latency →
  (latency < NVME_TIMEOUT)%nat → kAdminQ s = Some q → ring_inv g posted q h log s → h ≤ Z.of_nat (length log) < h + g_size g →
  wp (nvme_admin_cmd dma cmd) (λ st s', st = reply h ∧ kAdminQ s' = Some q ∧ ring_inv g posted q (h + 1) (log ++ [cmd]) s') s.
Proof.
  intros Hg Hid Hct Hlat Ha Hi Hlog. unfold nvme_admin_cmd. apply wp_bind, wp_get. rewrite Ha. rewrite <-Hid.
  apply wp_bind_assoc, wp_bind. eapply wp_mono; [by eapply (command_wp g Hg dma posted reply latency Hct)|].
  intros st s' (-> & Hi' & (_ & _ & _ & _ & _ & Ka & _) & _). apply wp_ret. split_and!; [done|by rewrite Ka|done].
Qed.

Lemma admin_cmds_wp g posted reply latency q cmds : ring_ok g → g_id g = 0 → controller g dma posted reply latency →
  (latency < NVME_TIMEOUT)%nat → ∀ log s, kAdminQ s = Some q → ring_inv g posted q (Z.of_nat (length log)) log s →
  wp (admin_cmds cmds) (λ sts s', sts = reply <$> seqZ (Z.of_nat (length log)) (Z.of_nat (length cmds)) ∧
    ring_inv g posted q (Z.of_nat (length (log ++ cmds))) (log ++ cmds) s') s.
Proof.
  intros Hg Hid Hct Hlat. assert (Hn : 0 < g_size g) by (by destruct Hg as (_ & [? _] & _)).
  induction cmds as [|c cmds IH]; intros log s Ha Hi; cbn [admin_cmds]; [wp_run; by rewrite app_nil_r|].
  apply wp_bind. eapply wp_mono; [eapply admin_cmd_wp; [done..|lia]|]. intros st s1 (-> & Ha1 & Hi1).
  assert (El : Z.of_nat (length log) + 1 = Z.of_nat (length (log ++ [c]))) by (rewrite length_app; simpl; lia). rewrite El in Hi1.
  apply wp_bind. eapply wp_mono; [by apply (IH (log ++ [c]))|]. intros sts s2 [-> Hi2]. apply wp_ret. rewrite <-app_assoc in Hi2.
  split; [|done]. rewrite (seqZ_cons (Z.of_nat (length log))) by (simpl; lia). cbn [fmap list_fmap]. f_equal.
  rewrite <-El. do 2 f_equal; simpl; lia.
Qed.
End stream.





(** A command that times out, and the command after it. *)
Lemma timeout_then_late {H PA : Type} `{!KernelHeap H} `{!PageAllocator PA} g dma posted reply latency q c1 c2 log (s : nvme H PA) :
  ring_ok g → g_id g = 0 → controller g dma posted reply latency → (latency < 2 * NVME_TIMEOUT)%nat → 2 ≤ g_size g →
  kAdminQ s = Some q → ring_inv g posted q (Z.of_nat (length log)) log s →
  posted (nv_mmio s ++ [MStore 32 (sq_doorbell g) ((Z.of_nat (length log) + 1) mod g_size g)] ++ replicate NVME_TIMEOUT Pause) = Z.of_nat (length log) →
  wp (admin_cmds dma [c1; c2]) (λ sts s', sts = [-2; reply (Z.of_nat (length log))] ∧
    ring_inv g posted q (Z.of_nat (length log) + 1) (log ++ [c1; c2]) s') s.
Proof.
  intros Hg Hid Hct Hlat Hn Ha Hi Hp. set (t := Z.of_nat (length log)) in *. cbn [admin_cmds]. unfold nvme_admin_cmd at 1.
  apply wp_bind, wp_bind, wp_get. rewrite Ha, <-Hid. apply wp_bind.
  eapply wp_mono; [by apply (submit_wp g Hg dma posted reply latency Hct)|]. intros [] s1 (Hi1 & R1 & T1). apply wp_bind.
  eapply wp_mono; [apply (cq_poll_timeout g Hg dma posted reply latency Hct q t (log ++ [c1])); [|done]|].
  { rewrite T1. fold t. by rewrite <-app_assoc. }
  intros st s2 (-> & Hi2 & R2 & T2). apply wp_ret, wp_bind, wp_bind. unfold nvme_admin_cmd. apply wp_bind, wp_get.
  assert (Ha2 : kAdminQ s2 = Some q).
  { destruct R1 as (_ & _ & _ & _ & _ & E1 & _), R2 as (_ & _ & _ & _ & _ & E2 & _). congruence. }
  rewrite Ha2. apply wp_bind. rewrite <-?Hid.
  eapply wp_mono; [by apply (submit_wp g Hg dma posted reply latency Hct)|]. intros [] s3 (Hi3 & R3 & T3).
  rewrite T2, <-app_assoc in T3. rewrite <-app_assoc in Hi3. apply wp_bind.
  assert (Hl : Z.of_nat (length (log ++ [c1] ++ [c2])) = t + 2) by (rewrite length_app; simpl; lia).
  eapply wp_mono; [eapply (cq_poll_wp g Hg dma posted reply latency Hct q t (log ++ [c1] ++ [c2]) NVME_TIMEOUT); [lia|exact T3| | | |done]|].
  - rewrite (ri_rings _ _ _ _ _ _ Hi1), length_app. simpl. lia.
  - rewrite pauses_app, pauses_replicate. reflexivity.
  - change (pauses [MStore _ _ _]) with 0%nat. pose proof (timeout_above 0 ltac:(lia)). lia.
  - intros st s4 (-> & Hi4 & _). apply wp_ret, wp_ret, wp_ret. by split.
Qed.

(** A timeout leaves the ring one completion behind.  When the controller
    answers a command after the driver has given up on it, the next command is
    given that answer as its own: commands carry no identifier, and the ring
    never catches up. *)
Theorem nvme_timeout_desync {H PA : Type} `{!KernelHeap H} `{!PageAllocator PA} g dma posted reply latency q c1 c2 log (s : nvme H PA) :
  ring_ok g → g_id g = 0 → controller g dma posted reply latency → (latency < 2 * NVME_TIMEOUT)%nat → 2 ≤ g_size g →
  kAdminQ s = Some q → ring_inv g posted q (Z.of_nat (length log)) log s →
  posted (nv_mmio s ++ [MStore 32 (sq_doorbell g) ((Z.of_nat (length log) + 1) mod g_size g)] ++ replicate NVME_TIMEOUT Pause) = Z.of_nat (length log) →
  ∃ s', admin_cmds dma [c1; c2] s = Ok ([-2; reply (Z.of_nat (length log))], s') ∧
    ring_inv g posted q (Z.of_nat (length log) + 1) (log ++ [c1; c2]) s'.
Proof.
  intros. destruct (proj1 (wp_ok _ _ _) (timeout_then_late g dma posted reply latency q c1 c2 log s ltac:(done) ltac:(done) ltac:(done)
    ltac:(done) ltac:(done) ltac:(done) ltac:(done) ltac:(done))) as (sts & s' & E & -> & Hi). by exists s'.
Qed.

Lemma answered_late g d v m : (m < d)%nat → answered g d ([MStore 32 (sq_doorbell g) v] ++ replicate m Pause) = 0.
Proof.
  intros Hm. cbn [answered app]. rewrite pauses_replicate, (proj2 (Nat.leb_gt d m)), andb_false_r by done.
  clear Hm. induction m; [done|]. exact IHm.
Qed.

(** A controller one pause slower than the timeout. *)
Definition slow_dma : list mmio_event → (Z → Z) → Z → Z := delayed_dma (demo_ring 0) (S NVME_TIMEOUT) demo_reply.

Lemma slow_late m v : answered (demo_ring 0) (S m) (nv_mmio (demo_nvme 0) ++ [MStore 32 (sq_doorbell (demo_ring 0)) v] ++ replicate m Pause) =
  Z.of_nat (length (A:=NvmeCmd) []).
Proof. apply answered_late. lia. Qed.

Lemma demo_ring_two : 2 ≤ g_size (demo_ring 0).
Proof. done. Qed.

Lemma slow_enough : (S NVME_TIMEOUT < 2 * NVME_TIMEOUT)%nat.
Proof. pose proof (timeout_above 1 ltac:(lia)). lia. Qed.

Lemma nvme_timeout_desync_witness :
  ∃ s', admin_cmds slow_dma [identify_cmd 0; identify_cmd 0x1000] (demo_nvme 0) = Ok ([-2; demo_reply (Z.of_nat (length (A:=NvmeCmd) []))], s').
Proof.
  destruct (nvme_timeout_desync (demo_ring 0) slow_dma (answered (demo_ring 0) (S NVME_TIMEOUT))
    demo_reply (S NVME_TIMEOUT) 0x500 (identify_cmd 0) (identify_cmd 0x1000) [] (demo_nvme 0) (demo_ring_ok 0 ltac:(lia)) eq_refl
    (delayed_controller (demo_ring 0) (S NVME_TIMEOUT) demo_reply (demo_ring_ok 0 ltac:(lia)) demo_reply_range)
    slow_enough demo_ring_two eq_refl (ring_demo_inv 0 (S NVME_TIMEOUT) ltac:(lia)) (slow_late NVME_TIMEOUT _)) as (s' & E & _).
  exists s'. exact E.
Defined.

(** [nvme_create_queue] on every path: out of heap or of frames, it returns
    null with the allocators as they were; otherwise the object it returns
    describes two fresh blocks of frames that overlap neither each other nor
    anything in use, both rings are zeroed, and no other memory in use has
    changed. *)
Theorem nvme_create_queue_correct {H PA : Type} `{!KernelHeap H} `{!PageAllocator PA} raw F A L (s : nvme H PA) id size :
  nv_ok F A L s → 1 ≤ size ≤ 2 ^ 16 → ∃ o s', nvme_create_queue raw id size s = Ok (o, s') ∧ created id size F A L s o s'.
Proof. intros Hs Hsize. exact (proj1 (wp_ok _ _ _) (create_queue_wp raw id size F A L s Hs Hsize)). Qed.

Lemma nvme_create_queue_correct_witness :
  ∃ F o s', nvme_create_queue blank_queue 0 64 nvme_boot = Ok (o, s') ∧ created 0 64 F [] ∅ nvme_boot o s'.
Proof.
  destruct nvme_boot_ok as [F HF]. exists F. apply (nvme_create_queue_correct blank_queue F [] ∅ nvme_boot 0 64 HF). lia.
Defined.

(** Creating a queue and destroying it. *)
Definition create_destroy {H PA : Type} `{!KernelHeap H} `{!PageAllocator PA} (raw : NvmeQueue) (id size : Z) : M (nvme H PA) () :=
  q ← nvme_create_queue raw id size; nvme_destroy_queue q.

Lemma create_destroy_wp {H PA : Type} `{!KernelHeap H} `{!PageAllocator PA} raw F A L (s : nvme H PA) id size :
  nv_ok F A L s → 1 ≤ size ≤ 2 ^ 16 →
  wp (create_destroy raw id size) (λ _ s', nv_ok F A L s' ∧ nv_queues s' = nv_queues s) s.
Proof.
  intros Hs Hsize. unfold create_destroy. apply wp_bind. eapply wp_mono; [by apply (create_queue_wp raw id size F A L)|].
  intros [q|] s1 (Hreg & _ & Hpost); [|by apply wp_ret].
  destruct Hpost as (Hq & HqL & p1 & o1 & p2 & o2 & Hsub1 & Hsub2 & _ & _ & Hs1 & Eq & _).
  destruct Hreg as (_ & _ & _ & _ & _ & _ & Hh).
  eapply wp_mono; [eapply (destroy_queue_wp F A L s1 q (new_ring s p1 p2 id size) p1 o1 p2 o2); [done..| |by rewrite Eq, lookup_insert_eq|done|done]|].
  - intros x Hx. rewrite Hh. destruct (no_map _ _ _ _ Hs x Hx) as [H0 H1]. split; [|done].
    assert (x ≠ 0) by (intros ->; by apply (no_zero _ _ _ _ Hs)). lia.
  - intros [] s2 [Hs2 Eq2]. split; [done|]. rewrite Eq2, Eq, delete_insert_eq. apply delete_id. by eapply new_object_ok.
Qed.

(** Destroying a queue gives back what creating it took. *)
Theorem nvme_create_destroy_roundtrip {H PA : Type} `{!KernelHeap H} `{!PageAllocator PA} raw F A L (s : nvme H PA) id size :
  nv_ok F A L s → 1 ≤ size ≤ 2 ^ 16 →
  ∃ s', create_destroy raw id size s = Ok ((), s') ∧ nv_ok F A L s' ∧ nv_queues s' = nv_queues s.
Proof.
  intros Hs Hsize. destruct (proj1 (wp_ok _ _ _) (create_destroy_wp raw F A L s id size Hs Hsize)) as ([] & s' & E & Hp). by exists s'.
Qed.


(** A machine whose controller is ready at once and completes every command. *)
Definition ready_hw : hardware := cfg_machine (λ _, 0xFEB00000).
Definition ready_dev : mmio_device := λ _ _ a, if a mod 0x1000 =? NVME_REG_CSTS then 1 else 0.
Definition ready_dma : list mmio_event → (Z → Z) → Z → Z := λ _ _ x, if x mod 16 =? 14 then 1 else 0.

Lemma run_det {S A} (m : M S A) (s : S) a s1 a' s2 : m s = Ok (a, s1) → m s = Ok (a', s2) → a = a'.
Proof. congruence. Qed.

Lemma ready_run : nvme_init ready_hw ready_dev ready_dma blank_queue 0 3 0 nvme_boot =
  Ok (true, final_state (nvme_init ready_hw ready_dev ready_dma blank_queue 0 3 0) nvme_boot).
Proof. refine (run_value (nvme_init ready_hw ready_dev ready_dma blank_queue 0 3 0) nvme_boot true _). vm_compute. reflexivity. Qed.

