(* ===== verification/Serial.v ===== *)
(** * The serial port

    Model of src/arch/x86_64/serial.cpp over the port accesses of [PortIo].  A
    C string is the list of its bytes before the terminator.  The loop that
    waits for the transmitter has no bound in the code; [fuel] bounds its turns,
    and running out of it stands for a loop that never ends. *)

From S2P Require Import Prelude PortIo.
Open Scope Z_scope.

Definition COM1_PORT : Z := 0x3F8.
Module uart_regs.
Definition DATA : Z := 0.
Definition DIVISOR_LO : Z := 0.
Definition IER : Z := 1.
Definition DIVISOR_HI : Z := 1.
Definition FCR : Z := 2.
Definition LCR : Z := 3.
Definition MCR : Z := 4.
Definition LSR : Z := 5.
End uart_regs.
Module lcr_bits.
Definition DATA_BITS_8 : Z := 0x03.
Definition STOP_BITS_1 : Z := 0x00.
Definition PARITY_NONE : Z := 0x00.
Definition DLAB : Z := 0x80.
End lcr_bits.
Module lsr_bits.
Definition TX_EMPTY : Z := 0x20.
End lsr_bits.
Module fcr_bits.
Definition FIFO_ENABLE : Z := 0x01.
Definition CLEAR_RX : Z := 0x02.
Definition CLEAR_TX : Z := 0x04.
Definition TRIGGER_14 : Z := 0xC0.
End fcr_bits.
Definition BAUD_115200_DIVISOR : Z := 1.

Section serial.
Context {St : Type} `{!HasPorts St} (hw : hardware).

Fixpoint wait_tx_empty (fuel : nat) : M St () :=
  match fuel with
  | O => undefined
  | S fuel =>
    v ← inb hw (COM1_PORT + uart_regs.LSR);
    if Z.land v lsr_bits.TX_EMPTY =? 0 then wait_tx_empty fuel else mret ()
  end.

Definition serial_init : M St bool :=
  let base := COM1_PORT in
  outb (base + uart_regs.IER) 0x00;;
  outb (base + uart_regs.LCR) lcr_bits.DLAB;;
  outb (base + uart_regs.DIVISOR_LO) (u8 (Z.land BAUD_115200_DIVISOR 0xFF));;
  outb (base + uart_regs.DIVISOR_HI) (u8 (Z.land (Z.shiftr BAUD_115200_DIVISOR 8) 0xFF));;
  outb (base + uart_regs.LCR) (Z.lor (Z.lor lcr_bits.DATA_BITS_8 lcr_bits.STOP_BITS_1) lcr_bits.PARITY_NONE);;
  outb (base + uart_regs.FCR)
    (Z.lor (Z.lor (Z.lor fcr_bits.FIFO_ENABLE fcr_bits.CLEAR_RX) fcr_bits.CLEAR_TX) fcr_bits.TRIGGER_14);;
  outb (base + uart_regs.MCR) 0x0B;;
  outb (base + uart_regs.IER) 0x00;;
  outb (base + 7) 0xAE;;
  v ← inb hw (base + 7);
  if negb (v =? 0xAE) then mret false
  else outb (base + uart_regs.MCR) 0x0F;; mret true.

Context (fuel : nat).

Definition serial_putchar (ch : Z) : M St () :=
  wait_tx_empty fuel;;
  outb (COM1_PORT + uart_regs.DATA) (u8 ch).

(** [for (c : cs) serial_putchar(c)] *)
Fixpoint put_chars (cs : list Z) : M St () :=
  match cs with
  | [] => mret ()
  | c :: cs => serial_putchar c;; put_chars cs
  end.

Fixpoint write_loop (str : list Z) : M St () :=
  match str with
  | [] => mret ()
  | c :: str =>
    when (c =? 10) (serial_putchar 13);;
    serial_putchar c;;
    write_loop str
  end.
(** [None] is the null pointer. *)
Definition serial_write (str : option (list Z)) : M St () :=
  match str with None => mret () | Some str => write_loop str end.

(** "0123456789ABCDEF" *)
Definition HEX_CHARS : list Z := [48; 49; 50; 51; 52; 53; 54; 55; 56; 57; 65; 66; 67; 68; 69; 70].

(** [for (i = 60; i >= 0; i -= 4)]: [n] digits are left, the next at bit [4 (n - 1)]. *)
Fixpoint hex_loop (n : nat) (value : Z) : M St () :=
  match n with
  | O => mret ()
  | S n =>
    c ← deref (HEX_CHARS !! Z.to_nat (Z.land (Z.shiftr value (4 * Z.of_nat n)) 0xF));
    serial_putchar c;;
    hex_loop n value
  end.
Definition serial_write_hex (value : Z) : M St () :=
  serial_write (Some [48; 120]);;
  hex_loop 16 value.

(** [while (value > 0) { buf[pos++] = '0' + value % 10; value /= 10; }] with
    [room] bytes of the buffer left: a write past its end is undefined. *)
Fixpoint dec_loop (room : nat) (value : Z) (buf : list Z) : M St (list Z) :=
  if value =? 0 then mret buf
  else
    match room with
    | O => undefined
    | S room => dec_loop room (value / 10) (buf ++ [48 + value mod 10])
    end.

Definition serial_write_dec (value : Z) : M St () :=
  if value =? 0 then serial_putchar 48
  else
    buf ← dec_loop 20 value [];
    put_chars (reverse buf).
End serial.

(** * Properties of the serial port *)

(** ** The transmitter *)

Definition LSR_PORT : Z := 0x3FD.
Definition DATA_PORT : Z := 0x3F8.

(** A UART that always empties its transmitter after [fuel] reads at most. *)
Definition uart_drains (hw : hardware) (fuel : nat) : Prop := ∀ tr, polls hw LSR_PORT lsr_bits.TX_EMPTY fuel tr = true.

(** One byte on the wire: reads that found the transmitter busy, one that found
    it empty, then the byte. *)
Definition byte_events (busy : list Z) (ready c : Z) : list io_event :=
  (In 8 LSR_PORT <$> busy) ++ [In 8 LSR_PORT ready; Out 8 DATA_PORT c].

(** The accesses [tr] sent the bytes [cs], each when the transmitter was empty. *)
Inductive transmits : list Z → list io_event → Prop :=
  | transmits_nil : transmits [] []
  | transmits_cons c cs busy ready tr :
      Forall (λ v, has_flag v lsr_bits.TX_EMPTY = false) busy → has_flag ready lsr_bits.TX_EMPTY = true →
      transmits cs tr → transmits (c :: cs) (byte_events busy ready c ++ tr).

Lemma transmits_app cs1 cs2 tr1 tr2 : transmits cs1 tr1 → transmits cs2 tr2 → transmits (cs1 ++ cs2) (tr1 ++ tr2).
Proof. induction 1; intros H2; [done|]. rewrite <-app_comm_cons, <-app_assoc. constructor; auto. Qed.

Section wire.
Context {St : Type} `{!HasPorts St} (hw : hardware) (fuel : nat) (Hd : uart_drains hw fuel).
Implicit Types s : St.

(** The routine returns, having sent [cs]. *)
Definition sends (m : M St ()) (cs : list Z) : Prop :=
  ∀ s, wp m (λ _ s', ∃ tr, transmits cs tr ∧ s' = set_ports (ports s ++ tr) s) s.

Lemma wait_wp n : ∀ s, polls hw LSR_PORT lsr_bits.TX_EMPTY n (ports s) = true →
  wp (wait_tx_empty hw n) (λ _ s', ∃ busy ready, Forall (λ v, has_flag v lsr_bits.TX_EMPTY = false) busy ∧
    has_flag ready lsr_bits.TX_EMPTY = true ∧ s' = set_ports (ports s ++ (In 8 LSR_PORT <$> busy) ++ [In 8 LSR_PORT ready]) s) s.
Proof.
  induction n as [|n IH]; intros s Hn; [done|]. cbn [polls] in Hn. cbn [wait_tx_empty]. unfold inb. apply wp_bind.
  eapply wp_eq; [apply in_eq|]. change (u16 (COM1_PORT + uart_regs.LSR)) with LSR_PORT. set (v := wrap 8 _) in *.
  destruct (has_flag v lsr_bits.TX_EMPTY) eqn:Hv.
  - unfold has_flag in Hv. apply negb_true_iff in Hv. rewrite Hv. apply wp_ret. exists [], v.
    split_and!; [done|by unfold has_flag; rewrite Hv|done].
  - cbn [orb] in Hn. pose proof Hv as Hv'. unfold has_flag in Hv'. apply negb_false_iff in Hv'. rewrite Hv'.
    eapply wp_mono; [apply IH; by rewrite ports_set|]. intros [] s' (busy & ready & Hb & Hr & ->). exists (v :: busy), ready.
    split_and!; [by constructor|done|]. by rewrite set_ports_set, ports_set, <-app_assoc.
Qed.

Lemma putchar_sends c : sends (serial_putchar hw fuel c) [u8 c].
Proof.
  intros s. unfold serial_putchar, outb. apply wp_bind. eapply wp_mono; [apply wait_wp, Hd|].
  intros [] s1 (busy & ready & Hb & Hr & ->). eapply wp_eq; [apply out_eq|]. rewrite ports_set, set_ports_set, wrap_idemp by done.
  change (u16 (COM1_PORT + uart_regs.DATA)) with DATA_PORT. exists (byte_events busy ready (u8 c) ++ []). split; [by repeat constructor|].
  unfold byte_events. by rewrite app_nil_r, <-!app_assoc.
Qed.

Lemma sends_ret : sends (mret ()) [].
Proof. intros s. apply wp_ret. exists []. split; [constructor|]. by rewrite app_nil_r, set_ports_id. Qed.

Lemma sends_seq (m1 m2 : M St ()) cs1 cs2 : sends m1 cs1 → sends m2 cs2 → sends (m1;; m2) (cs1 ++ cs2).
Proof.
  intros H1 H2 s. apply wp_bind. eapply wp_mono; [apply H1|]. intros [] s1 (t1 & T1 & ->).
  eapply wp_mono; [apply H2|]. intros [] s2 (t2 & T2 & ->). exists (t1 ++ t2). split; [by apply transmits_app|].
  by rewrite set_ports_set, ports_set, app_assoc.
Qed.

Lemma put_chars_sends cs : sends (put_chars hw fuel cs) (u8 <$> cs).
Proof. induction cs as [|c cs IH]; cbn [put_chars]; [apply sends_ret|]. apply (sends_seq _ _ [u8 c]); [apply putchar_sends|done]. Qed.

(** ** Strings *)

(** Line ends as a terminal wants them. *)
Definition crlf (str : list Z) : list Z := str ≫= λ c, if c =? 10 then [13; 10] else [u8 c].

Lemma write_sends str : sends (write_loop hw fuel str) (crlf str).
Proof.
  induction str as [|c str IH]; cbn [write_loop]; [apply sends_ret|]. unfold crlf. rewrite bind_cons. fold (crlf str).
  destruct (Z.eqb_spec c 10) as [->|Hc]; cbn [when].
  - change ([13; 10] ++ crlf str) with ([u8 13] ++ ([u8 10] ++ crlf str)).
    apply sends_seq; [apply putchar_sends|]. apply sends_seq; [apply putchar_sends|done].
  - change ([u8 c] ++ crlf str) with ([] ++ ([u8 c] ++ crlf str)). apply sends_seq; [apply sends_ret|].
    apply sends_seq; [apply putchar_sends|done].
Qed.
End wire.

(** ** Numbers

    What a reader makes of the digits on the wire. *)

Definition numeral (base : Z) (digit : Z → Z) (cs : list Z) : Z := foldl (λ a c, base * a + digit c) 0 cs.
Definition dec_digit (c : Z) : Z := c - 48.
Definition hex_digit (c : Z) : Z := if c <=? 57 then c - 48 else c - 55.

Lemma foldl_numeral base digit cs a :
  foldl (λ a c, base * a + digit c) a cs = a * base ^ Z.of_nat (length cs) + numeral base digit cs.
Proof.
  unfold numeral. revert a. induction cs as [|c cs IH]; intros a; cbn [foldl length]; [lia|].
  rewrite IH, (IH (base * 0 + digit c)), Nat2Z.inj_succ, Z.pow_succ_r by lia. lia.
Qed.

Lemma numeral_cons base digit c cs : numeral base digit (c :: cs) = digit c * base ^ Z.of_nat (length cs) + numeral base digit cs.
Proof. unfold numeral at 1. cbn [foldl]. rewrite foldl_numeral. f_equal. lia. Qed.

Lemma numeral_snoc base digit cs c : numeral base digit (cs ++ [c]) = base * numeral base digit cs + digit c.
Proof. unfold numeral. by rewrite foldl_app. Qed.

(** The digits of the buffer, least significant first: no digit for 0, and no
    zero in the leading place. *)
Definition no_leading_zero (value : Z) (ds : list Z) : Prop := if value =? 0 then ds = [] else ∃ c, last ds = Some c ∧ c ≠ 48.

Lemma dec_loop_spec {St : Type} room : ∀ value buf, 0 ≤ value < 10 ^ Z.of_nat room →
  ∃ ds, (∀ s : St, dec_loop room value buf s = Ok (buf ++ ds, s)) ∧ numeral 10 dec_digit (reverse ds) = value ∧
    Forall (λ c, 48 ≤ c ≤ 57) ds ∧ (length ds ≤ room)%nat ∧ no_leading_zero value ds.
Proof.
  assert (Hzero : ∀ room buf, ∃ ds, (∀ s : St, dec_loop room 0 buf s = Ok (buf ++ ds, s)) ∧ numeral 10 dec_digit (reverse ds) = 0 ∧
    Forall (λ c, 48 ≤ c ≤ 57) ds ∧ (length ds ≤ room)%nat ∧ no_leading_zero 0 ds).
  { intros r buf. exists []. split_and!; [intros s; rewrite app_nil_r; by destruct r|done|done|simpl; lia|done]. }
  induction room as [|room IH]; intros value buf Hv; [assert (value = 0) as -> by (simpl in Hv; lia); apply Hzero|].
  destruct (decide (value = 0)) as [->|H0]; [apply Hzero|]. cbn [dec_loop]. rewrite (proj2 (Z.eqb_neq value 0)) by done.
  rewrite Nat2Z.inj_succ, Z.pow_succ_r in Hv by lia. pose proof (Z.div_mod value 10 ltac:(lia)) as E. pose proof (Z.mod_pos_bound value 10 ltac:(lia)) as B.
  destruct (IH (value / 10) (buf ++ [48 + value mod 10])) as (ds & Hr & Hn & Hf & Hl & Hlast).
  { split; [apply Z.div_pos; lia|apply Z.div_lt_upper_bound; lia]. }
  exists ((48 + value mod 10) :: ds). split_and!.
  - intros s. rewrite Hr. by rewrite <-app_assoc.
  - rewrite reverse_cons, numeral_snoc, Hn. unfold dec_digit. lia.
  - constructor; [lia|done].
  - simpl. lia.
  - unfold no_leading_zero in *. rewrite (proj2 (Z.eqb_neq value 0)) by done. destruct (Z.eqb_spec (value / 10) 0) as [Ez|Ez].
    + subst ds. exists (48 + value mod 10). split; [done|]. lia.
    + destruct Hlast as (c & Hc & Hne). exists c. by rewrite last_cons, Hc.
Qed.

Lemma digits_u8 cs : Forall (λ c, 48 ≤ c ≤ 57) cs → u8 <$> cs = cs.
Proof. induction 1 as [|c cs Hc _ IH]; [done|]. cbn [fmap list_fmap]. rewrite IH, wrap_small by lia. done. Qed.

(** A numeral: digits of the value, the first of them not a zero. *)
Definition is_decimal (cs : list Z) (value : Z) : Prop :=
  numeral 10 dec_digit cs = value ∧ Forall (λ c, 48 ≤ c ≤ 57) cs ∧ (1 ≤ length cs ≤ 20)%nat ∧ (head cs = Some 48 → cs = [48]).

Lemma write_dec_sends {St : Type} `{!HasPorts St} hw fuel value : uart_drains hw fuel → 0 ≤ value < 2 ^ 64 →
  ∃ cs, sends (St:=St) (serial_write_dec hw fuel value) cs ∧ is_decimal cs value.
Proof.
  intros Hd Hv. unfold serial_write_dec. destruct (Z.eqb_spec value 0) as [->|H0].
  { exists [48]. split; [by apply putchar_sends|]. split_and!; [done|by constructor|simpl; lia|simpl; lia|done]. }
  destruct (dec_loop_spec (St:=St) 20 value []) as (ds & Hr & Hn & Hf & Hl & Hlast); [change (10 ^ Z.of_nat 20) with 100000000000000000000; lia|].
  assert (Hf' : Forall (λ c, 48 ≤ c ≤ 57) (reverse ds)) by (by rewrite reverse_Permutation).
  unfold no_leading_zero in Hlast. rewrite (proj2 (Z.eqb_neq value 0)) in Hlast by done. destruct Hlast as (c & Hc & Hne).
  exists (reverse ds). split.
  - intros s. apply wp_bind. eapply wp_eq; [apply Hr|]. cbn [app].
    pose proof (put_chars_sends hw fuel Hd (reverse ds) s) as Hp. by rewrite digits_u8 in Hp.
  - split_and!; [done|done| |by rewrite length_reverse|].
    + rewrite length_reverse. destruct ds; [done|simpl; lia].
    + rewrite <-last_reverse, reverse_involutive, Hc. intros [= ->]. done.
Qed.

(** The sixteen digits of [serial_write_hex]. *)
Lemma hex_loop_sends {St : Type} `{!HasPorts St} hw fuel n value : uart_drains hw fuel → 0 ≤ value →
  ∃ cs, sends (St:=St) (hex_loop hw fuel n value) cs ∧ length cs = n ∧ numeral 16 hex_digit cs = value mod 16 ^ Z.of_nat n.
Proof.
  intros Hd Hv. induction n as [|n IH]; cbn [hex_loop].
  { exists []. split_and!; [apply sends_ret|done|]. by rewrite Z.mod_1_r. }
  destruct IH as (cs & Hs & Hl & Hn). set (d := Z.land _ _).
  assert (Ed : d = value / 16 ^ Z.of_nat n mod 16).
  { unfold d. change 0xF with (Z.ones 4). rewrite Z.land_ones, Z.shiftr_div_pow2 by lia. by rewrite Z.pow_mul_r by lia. }
  pose proof (Z.mod_pos_bound (value / 16 ^ Z.of_nat n) 16 ltac:(lia)) as B. rewrite <-Ed in B.
  assert (Hdig : ∃ c, HEX_CHARS !! Z.to_nat d = Some c ∧ hex_digit c = d ∧ u8 c = c).
  { assert (Hm : Z.of_nat (Z.to_nat d) = d) by lia. remember (Z.to_nat d) as k eqn:Ek. clear Ek Ed. subst d.
    do 16 (destruct k as [|k]; [eexists; split; [reflexivity|]; split; done|]). lia. }
  destruct Hdig as (c & Hc & Hcd & Hcu). exists (c :: cs). split_and!.
  - intros s. rewrite Hc. apply wp_bind, wp_ret. rewrite <-Hcu. apply (sends_seq _ _ [u8 c] cs); [|done]. rewrite Hcu at 1. by apply putchar_sends.
  - simpl. by rewrite Hl.
  - rewrite numeral_cons, Hl, Hn, Hcd, Ed, Nat2Z.inj_succ, Z.pow_succ_r by lia.
    rewrite (Z.mul_comm 16), Z.rem_mul_r by (lia || (apply Z.pow_nonzero; lia)). lia.
Qed.

Lemma write_hex_sends {St : Type} `{!HasPorts St} hw fuel value : uart_drains hw fuel → 0 ≤ value < 2 ^ 64 →
  ∃ cs, sends (St:=St) (serial_write_hex hw fuel value) ([48; 120] ++ cs) ∧ length cs = 16%nat ∧ numeral 16 hex_digit cs = value.
Proof.
  intros Hd Hv. destruct (hex_loop_sends (St:=St) hw fuel 16 value Hd ltac:(lia)) as (cs & Hs & Hl & Hn). exists cs.
  split_and!; [|done|by rewrite Hn, Z.mod_small by (change (16 ^ Z.of_nat 16) with (2 ^ 64); lia)].
  unfold serial_write_hex. apply (sends_seq _ _ [48; 120] cs); [|done]. by apply (write_sends hw fuel Hd [48; 120]).
Qed.

(** ** The configured port

    The registers of a 16550 the code writes, with the divisor latch in front of
    the first two while DLAB is set (PC16550D data sheet). *)

Record uart := mkUart { u_ier : Z; u_divisor : Z; u_lcr : Z; u_fcr : Z; u_mcr : Z; u_tx : list Z }.

Definition uart_write (reg v : Z) (u : uart) : uart :=
  let dlab := has_flag (u_lcr u) lcr_bits.DLAB in
  match reg with
  | 0 => if dlab then mkUart (u_ier u) (Z.shiftl (Z.shiftr (u_divisor u) 8) 8 + v) (u_lcr u) (u_fcr u) (u_mcr u) (u_tx u)
         else mkUart (u_ier u) (u_divisor u) (u_lcr u) (u_fcr u) (u_mcr u) (u_tx u ++ [v])
  | 1 => if dlab then mkUart (u_ier u) (Z.shiftl v 8 + Z.land (u_divisor u) 0xFF) (u_lcr u) (u_fcr u) (u_mcr u) (u_tx u)
         else mkUart v (u_divisor u) (u_lcr u) (u_fcr u) (u_mcr u) (u_tx u)
  | 2 => mkUart (u_ier u) (u_divisor u) (u_lcr u) v (u_mcr u) (u_tx u)
  | 3 => mkUart (u_ier u) (u_divisor u) v (u_fcr u) (u_mcr u) (u_tx u)
  | 4 => mkUart (u_ier u) (u_divisor u) (u_lcr u) (u_fcr u) v (u_tx u)
  | _ => u
  end.

Definition uart_event (u : uart) (e : io_event) : uart :=
  match e with Out 8 p v => uart_write (p - COM1_PORT) v u | _ => u end.
Definition uart_after (u : uart) (tr : list io_event) : uart := foldl uart_event u tr.

(** The line is 8N1 at divisor 1 with the latch closed, interrupts off. *)
Definition polled_8n1 (u : uart) : Prop := u_ier u = 0 ∧ u_divisor u = 1 ∧ u_lcr u = 0x03 ∧ u_fcr u = 0xC7.

(** The low byte of the divisor is all that survives of what it held. *)
Lemma divisor_set u_div : Z.shiftl 0 8 + Z.land (Z.shiftl (Z.shiftr u_div 8) 8 + 1) 0xFF = 1.
Proof.
  change 0xFF with (Z.ones 8). rewrite Z.land_ones, !Z.shiftl_mul_pow2 by lia. by rewrite (Z.add_comm (_ * _) 1), Z_mod_plus_full.
Qed.

(** Bytes sent to a port whose latch is closed reach the transmitter. *)
Lemma transmits_uart cs tr u : transmits cs tr → has_flag (u_lcr u) lcr_bits.DLAB = false →
  uart_after u tr = mkUart (u_ier u) (u_divisor u) (u_lcr u) (u_fcr u) (u_mcr u) (u_tx u ++ cs).
Proof.
  intros Ht. revert u. induction Ht as [|c cs busy ready tr Hb Hr Ht IH]; intros u Hu.
  { rewrite app_nil_r. by destruct u. }
  unfold uart_after, byte_events in *. rewrite !foldl_app.
  assert (E : foldl uart_event u (In 8 LSR_PORT <$> busy) = u) by (clear -busy; induction busy; [done|exact IHbusy]).
  rewrite E. cbn [foldl uart_event uart_write]. change (DATA_PORT - COM1_PORT) with 0. cbn [uart_write]. rewrite Hu, IH by done.
  cbn [u_ier u_divisor u_lcr u_fcr u_mcr u_tx]. by rewrite <-app_assoc.
Qed.

(** The accesses of the initialisation up to the check of the scratch register. *)
Definition init_events (v : Z) : list io_event :=
  [Out 8 0x3F9 0; Out 8 0x3FB 0x80; Out 8 0x3F8 1; Out 8 0x3F9 0; Out 8 0x3FB 3; Out 8 0x3FA 0xC7; Out 8 0x3FC 0x0B; Out 8 0x3F9 0;
   Out 8 0x3FF 0xAE; In 8 0x3FF v].

Lemma serial_init_run {St : Type} `{!HasPorts St} hw (s : St) :
  wp (serial_init hw) (λ b s', ∃ v, b = (v =? 0xAE) ∧
    s' = set_ports (ports s ++ init_events v ++ (if v =? 0xAE then [Out 8 0x3FC 0x0F] else [])) s) s.
Proof.
  unfold serial_init, outb, inb, in_, out_. wp_run. rewrite !ports_set. set (v := wrap 8 _).
  destruct (v =? 0xAE) eqn:Ev; cbn [negb]; wp_run; exists v; rewrite Ev; (split; [done|]);
    rewrite ?set_ports_set, ?ports_set, <-?app_assoc; done.
Qed.

Lemma init_uart v u : uart_after u (init_events v) = mkUart 0 1 3 0xC7 0x0B (u_tx u).
Proof.
  destruct u as [i d l f m t].
  assert (E : ∀ i' d', uart_after (mkUart i' d' l f m t) (tail (init_events v)) =
    mkUart 0 (Z.shiftl 0 8 + Z.land (Z.shiftl (Z.shiftr d' 8) 8 + 1) 0xFF) 3 0xC7 0x0B t) by done.
  unfold uart_after in *. change (foldl uart_event (mkUart i d l f m t) (init_events v)) with
    (foldl uart_event (uart_write 1 0 (mkUart i d l f m t)) (tail (init_events v))).
  unfold uart_write. cbn [u_lcr]. by destruct (has_flag l lcr_bits.DLAB); cbn [u_ier u_divisor u_lcr u_fcr u_mcr u_tx]; rewrite E, divisor_set.
Qed.

(** ** Properties *)

(** [serial_init] configures the port, whatever state it was in: interrupts
    off, divisor 1, eight data bits without parity, the latch closed; and it
    reports whether the scratch register kept what was written to it. *)
Theorem serial_init_correct {St : Type} `{!HasPorts St} hw (s : St) u :
  ∃ v tr, serial_init hw s = Ok (v =? 0xAE, set_ports (ports s ++ tr) s) ∧ In 8 0x3FF v ∈ tr ∧
    polled_8n1 (uart_after u tr) ∧ u_mcr (uart_after u tr) = (if v =? 0xAE then 0x0F else 0x0B) ∧ u_tx (uart_after u tr) = u_tx u.
Proof.
  destruct (proj1 (wp_ok _ _ _) (serial_init_run hw s)) as (b & s' & E & v & -> & ->). exists v. eexists. split; [exact E|].
  split; [apply elem_of_app; left; unfold init_events; set_solver|].
  unfold uart_after. rewrite foldl_app. fold (uart_after u (init_events v)). rewrite init_uart. by destruct (v =? 0xAE).
Qed.

(** On a UART that empties its transmitter, [serial_write] sends the bytes of
    the string in order, with a carriage return before every line feed, each
    byte only after the transmitter was seen empty; nothing for null. *)
Theorem serial_write_correct {St : Type} `{!HasPorts St} hw fuel str (s : St) : uart_drains hw fuel →
  ∃ tr, serial_write hw fuel str s = Ok ((), set_ports (ports s ++ tr) s) ∧
    transmits (match str with None => [] | Some str => crlf str end) tr.
Proof.
  intros Hd. assert (Hs : sends (St:=St) (serial_write hw fuel str) (match str with None => [] | Some str => crlf str end)).
  { destruct str as [str|]; [by apply write_sends|apply sends_ret]. }
  destruct (proj1 (wp_ok _ _ _) (Hs s)) as ([] & s' & E & tr & Ht & ->). by exists tr.
Qed.

(** A port whose transmitter is empty on every other read. *)
Definition slow_uart : hardware := λ tr _ _, if Nat.even (length tr) then 0 else 0x60.

Lemma slow_uart_drains : uart_drains slow_uart 2.
Proof.
  intros tr. cbn [polls]. unfold slow_uart. rewrite length_app, Nat.add_1_r, Nat.even_succ, <-Nat.negb_even.
  by destruct (Nat.even (length tr)).
Qed.

Lemma serial_write_correct_witness :
  ∃ tr, serial_write (St:=list io_event) slow_uart 2 (Some [72; 105; 10]) [] = Ok ((), tr) ∧ transmits [72; 105; 13; 10] tr.
Proof. destruct (serial_write_correct (St:=list io_event) slow_uart 2 (Some [72; 105; 10]) [] slow_uart_drains) as (tr & E & Ht). by exists tr. Defined.

(** C33: [serial_write_dec] writes the decimal numeral of any 64-bit value: reading
    the digits back gives the value, there is no leading zero, and the buffer of
    20 bytes is never overrun. *)
Theorem serial_write_dec_roundtrip {St : Type} `{!HasPorts St} hw fuel value (s : St) : uart_drains hw fuel → 0 ≤ value < 2 ^ 64 →
  ∃ cs tr, serial_write_dec hw fuel value s = Ok ((), set_ports (ports s ++ tr) s) ∧ transmits cs tr ∧ is_decimal cs value.
Proof.
  intros Hd Hv. destruct (write_dec_sends (St:=St) hw fuel value Hd Hv) as (cs & Hs & Hn).
  destruct (proj1 (wp_ok _ _ _) (Hs s)) as ([] & s' & E & tr & Ht & ->). by exists cs, tr.
Qed.

Lemma serial_write_dec_roundtrip_witness : ∃ cs tr,
  serial_write_dec slow_uart 2 18446744073709551615 (@nil io_event) = Ok ((), set_ports (ports (@nil io_event) ++ tr) (@nil io_event)) ∧
  transmits cs tr ∧ is_decimal cs 18446744073709551615.
Proof. exact (serial_write_dec_roundtrip slow_uart 2 18446744073709551615 (@nil io_event) slow_uart_drains ltac:(lia)). Defined.

(** [serial_write_hex] writes "0x" and the sixteen hexadecimal digits of the value. *)
Theorem serial_write_hex_roundtrip {St : Type} `{!HasPorts St} hw fuel value (s : St) : uart_drains hw fuel → 0 ≤ value < 2 ^ 64 →
  ∃ cs tr, serial_write_hex hw fuel value s = Ok ((), set_ports (ports s ++ tr) s) ∧ transmits ([48; 120] ++ cs) tr ∧
    length cs = 16%nat ∧ numeral 16 hex_digit cs = value.
Proof.
  intros Hd Hv. destruct (write_hex_sends (St:=St) hw fuel value Hd Hv) as (cs & Hs & Hl & Hn).
  destruct (proj1 (wp_ok _ _ _) (Hs s)) as ([] & s' & E & tr & Ht & ->). by exists cs, tr.
Qed.
