(* ===== verification/Framebuffer.v ===== *)
(** * The framebuffer console

    Model of src/kernel/framebuffer.cpp.  [fb_mem] is byte-addressed memory; the
    framebuffer starts at [kFbBase].  The font table is the one of the source:
    glyphs for 0x20 to 0x7E from index 0 on, and zeros up to index 127. *)

From S2P Require Import Prelude Bytes.
Open Scope Z_scope.

Definition COLOR_BLACK : Z := 0x000000.
Definition COLOR_WHITE : Z := 0xFFFFFF.

Definition kGlyphs : list (list Z) :=
  [[0; 0; 0; 0; 0; 0; 0; 0; 0; 0; 0; 0; 0; 0; 0; 0];
   [0; 0; 24; 60; 60; 60; 24; 24; 24; 0; 24; 24; 0; 0; 0; 0];
   [0; 102; 102; 102; 102; 0; 0; 0; 0; 0; 0; 0; 0; 0; 0; 0];
   [0; 0; 54; 54; 127; 54; 54; 127; 54; 54; 0; 0; 0; 0; 0; 0];
   [0; 8; 30; 40; 40; 28; 10; 10; 60; 8; 0; 0; 0; 0; 0; 0];
   [0; 0; 97; 146; 100; 8; 19; 36; 67; 0; 0; 0; 0; 0; 0; 0];
   [0; 0; 28; 34; 34; 28; 41; 70; 70; 57; 0; 0; 0; 0; 0; 0];
   [0; 24; 24; 24; 24; 0; 0; 0; 0; 0; 0; 0; 0; 0; 0; 0];
   [0; 4; 8; 16; 16; 16; 16; 16; 8; 4; 0; 0; 0; 0; 0; 0];
   [0; 32; 16; 8; 8; 8; 8; 8; 16; 32; 0; 0; 0; 0; 0; 0];
   [0; 0; 8; 42; 28; 42; 8; 0; 0; 0; 0; 0; 0; 0; 0; 0];
   [0; 0; 8; 8; 8; 127; 8; 8; 8; 0; 0; 0; 0; 0; 0; 0];
   [0; 0; 0; 0; 0; 0; 0; 0; 0; 24; 24; 8; 16; 0; 0; 0];
   [0; 0; 0; 0; 0; 0; 127; 0; 0; 0; 0; 0; 0; 0; 0; 0];
   [0; 0; 0; 0; 0; 0; 0; 0; 0; 24; 24; 0; 0; 0; 0; 0];
   [0; 1; 2; 4; 8; 16; 32; 64; 128; 0; 0; 0; 0; 0; 0; 0];
   [0; 0; 60; 66; 70; 74; 82; 98; 66; 60; 0; 0; 0; 0; 0; 0];
   [0; 0; 8; 24; 40; 8; 8; 8; 8; 62; 0; 0; 0; 0; 0; 0];
   [0; 0; 60; 66; 2; 4; 8; 16; 32; 126; 0; 0; 0; 0; 0; 0];
   [0; 0; 60; 66; 2; 28; 2; 2; 66; 60; 0; 0; 0; 0; 0; 0];
   [0; 0; 4; 12; 20; 36; 68; 126; 4; 4; 0; 0; 0; 0; 0; 0];
   [0; 0; 126; 64; 64; 124; 2; 2; 66; 60; 0; 0; 0; 0; 0; 0];
   [0; 0; 28; 32; 64; 124; 66; 66; 66; 60; 0; 0; 0; 0; 0; 0];
   [0; 0; 126; 2; 4; 8; 16; 16; 16; 16; 0; 0; 0; 0; 0; 0];
   [0; 0; 60; 66; 66; 60; 66; 66; 66; 60; 0; 0; 0; 0; 0; 0];
   [0; 0; 60; 66; 66; 66; 62; 2; 4; 56; 0; 0; 0; 0; 0; 0];
   [0; 0; 0; 24; 24; 0; 0; 0; 24; 24; 0; 0; 0; 0; 0; 0];
   [0; 0; 0; 24; 24; 0; 0; 0; 24; 24; 8; 16; 0; 0; 0; 0];
   [0; 2; 4; 8; 16; 32; 16; 8; 4; 2; 0; 0; 0; 0; 0; 0];
   [0; 0; 0; 0; 126; 0; 0; 126; 0; 0; 0; 0; 0; 0; 0; 0];
   [0; 64; 32; 16; 8; 4; 8; 16; 32; 64; 0; 0; 0; 0; 0; 0];
   [0; 60; 66; 2; 4; 8; 8; 0; 8; 8; 0; 0; 0; 0; 0; 0];
   [0; 0; 60; 66; 66; 78; 82; 78; 64; 60; 0; 0; 0; 0; 0; 0];
   [0; 0; 24; 36; 66; 66; 126; 66; 66; 66; 0; 0; 0; 0; 0; 0];
   [0; 0; 124; 66; 66; 124; 66; 66; 66; 124; 0; 0; 0; 0; 0; 0];
   [0; 0; 60; 66; 64; 64; 64; 64; 66; 60; 0; 0; 0; 0; 0; 0];
   [0; 0; 120; 68; 66; 66; 66; 66; 68; 120; 0; 0; 0; 0; 0; 0];
   [0; 0; 126; 64; 64; 124; 64; 64; 64; 126; 0; 0; 0; 0; 0; 0];
   [0; 0; 126; 64; 64; 124; 64; 64; 64; 64; 0; 0; 0; 0; 0; 0];
   [0; 0; 60; 66; 64; 64; 78; 66; 66; 60; 0; 0; 0; 0; 0; 0];
   [0; 0; 66; 66; 66; 126; 66; 66; 66; 66; 0; 0; 0; 0; 0; 0];
   [0; 0; 62; 8; 8; 8; 8; 8; 8; 62; 0; 0; 0; 0; 0; 0];
   [0; 0; 31; 4; 4; 4; 4; 4; 68; 56; 0; 0; 0; 0; 0; 0];
   [0; 0; 66; 68; 72; 80; 96; 80; 72; 68; 0; 0; 0; 0; 0; 0];
   [0; 0; 64; 64; 64; 64; 64; 64; 64; 126; 0; 0; 0; 0; 0; 0];
   [0; 0; 66; 102; 90; 90; 66; 66; 66; 66; 0; 0; 0; 0; 0; 0];
   [0; 0; 66; 98; 82; 74; 70; 66; 66; 66; 0; 0; 0; 0; 0; 0];
   [0; 0; 60; 66; 66; 66; 66; 66; 66; 60; 0; 0; 0; 0; 0; 0];
   [0; 0; 124; 66; 66; 66; 124; 64; 64; 64; 0; 0; 0; 0; 0; 0];
   [0; 0; 60; 66; 66; 66; 66; 74; 68; 58; 0; 0; 0; 0; 0; 0];
   [0; 0; 124; 66; 66; 124; 72; 68; 66; 66; 0; 0; 0; 0; 0; 0];
   [0; 0; 60; 66; 64; 60; 2; 2; 66; 60; 0; 0; 0; 0; 0; 0];
   [0; 0; 127; 8; 8; 8; 8; 8; 8; 8; 0; 0; 0; 0; 0; 0];
   [0; 0; 66; 66; 66; 66; 66; 66; 66; 60; 0; 0; 0; 0; 0; 0];
   [0; 0; 66; 66; 66; 66; 66; 66; 36; 24; 0; 0; 0; 0; 0; 0];
   [0; 0; 66; 66; 66; 66; 90; 90; 102; 66; 0; 0; 0; 0; 0; 0];
   [0; 0; 66; 66; 36; 24; 24; 36; 66; 66; 0; 0; 0; 0; 0; 0];
   [0; 0; 65; 34; 20; 8; 8; 8; 8; 8; 0; 0; 0; 0; 0; 0];
   [0; 0; 126; 2; 4; 8; 16; 32; 64; 126; 0; 0; 0; 0; 0; 0];
   [0; 30; 16; 16; 16; 16; 16; 16; 16; 30; 0; 0; 0; 0; 0; 0];
   [0; 128; 64; 32; 16; 8; 4; 2; 1; 0; 0; 0; 0; 0; 0; 0];
   [0; 120; 8; 8; 8; 8; 8; 8; 8; 120; 0; 0; 0; 0; 0; 0];
   [0; 8; 20; 34; 0; 0; 0; 0; 0; 0; 0; 0; 0; 0; 0; 0];
   [0; 0; 0; 0; 0; 0; 0; 0; 0; 0; 255; 0; 0; 0; 0; 0];
   [0; 0; 0; 0; 0; 0; 0; 0; 0; 0; 0; 0; 0; 0; 0; 0];
   [0; 0; 60; 2; 2; 62; 66; 66; 70; 58; 0; 0; 0; 0; 0; 0];
   [0; 0; 64; 64; 64; 124; 66; 66; 66; 124; 0; 0; 0; 0; 0; 0];
   [0; 0; 60; 66; 64; 64; 64; 64; 66; 60; 0; 0; 0; 0; 0; 0];
   [0; 0; 2; 2; 2; 62; 66; 66; 66; 62; 0; 0; 0; 0; 0; 0];
   [0; 0; 60; 66; 66; 126; 64; 64; 66; 60; 0; 0; 0; 0; 0; 0];
   [0; 0; 14; 16; 16; 126; 16; 16; 16; 16; 0; 0; 0; 0; 0; 0];
   [0; 0; 62; 66; 66; 66; 62; 2; 2; 60; 0; 0; 0; 0; 0; 0];
   [0; 0; 64; 64; 64; 124; 66; 66; 66; 66; 0; 0; 0; 0; 0; 0];
   [0; 0; 8; 0; 0; 56; 8; 8; 8; 62; 0; 0; 0; 0; 0; 0];
   [0; 0; 4; 0; 0; 28; 4; 4; 4; 4; 68; 56; 0; 0; 0; 0];
   [0; 0; 64; 64; 66; 68; 72; 112; 72; 68; 0; 0; 0; 0; 0; 0];
   [0; 0; 56; 8; 8; 8; 8; 8; 8; 62; 0; 0; 0; 0; 0; 0];
   [0; 0; 66; 102; 90; 90; 66; 66; 66; 66; 0; 0; 0; 0; 0; 0];
   [0; 0; 66; 98; 82; 74; 70; 66; 66; 66; 0; 0; 0; 0; 0; 0];
   [0; 0; 60; 66; 66; 66; 66; 66; 66; 60; 0; 0; 0; 0; 0; 0];
   [0; 0; 124; 66; 66; 66; 124; 64; 64; 64; 0; 0; 0; 0; 0; 0];
   [0; 0; 62; 66; 66; 66; 62; 2; 2; 2; 0; 0; 0; 0; 0; 0];
   [0; 0; 92; 98; 66; 64; 64; 64; 64; 64; 0; 0; 0; 0; 0; 0];
   [0; 0; 60; 66; 64; 60; 2; 66; 66; 60; 0; 0; 0; 0; 0; 0];
   [0; 0; 16; 16; 126; 16; 16; 16; 16; 14; 0; 0; 0; 0; 0; 0];
   [0; 0; 66; 66; 66; 66; 66; 66; 70; 58; 0; 0; 0; 0; 0; 0];
   [0; 0; 66; 66; 66; 66; 66; 66; 36; 24; 0; 0; 0; 0; 0; 0];
   [0; 0; 66; 66; 66; 66; 90; 90; 102; 66; 0; 0; 0; 0; 0; 0];
   [0; 0; 66; 66; 36; 24; 24; 36; 66; 66; 0; 0; 0; 0; 0; 0];
   [0; 0; 66; 66; 66; 66; 66; 62; 2; 60; 0; 0; 0; 0; 0; 0];
   [0; 0; 126; 2; 4; 8; 16; 32; 64; 126; 0; 0; 0; 0; 0; 0];
   [0; 14; 16; 16; 16; 32; 16; 16; 16; 14; 0; 0; 0; 0; 0; 0];
   [0; 8; 8; 8; 8; 0; 8; 8; 8; 8; 0; 0; 0; 0; 0; 0];
   [0; 112; 8; 8; 8; 4; 8; 8; 8; 112; 0; 0; 0; 0; 0; 0];
   [0; 0; 0; 0; 0; 0; 0; 0; 0; 0; 0; 0; 0; 0; 0; 0]].
(** The initialiser has fewer rows than the array: the rest are zeros. *)
Definition kFont8x16 : list (list Z) := kGlyphs ++ replicate 33 (replicate 16 0).

Record fb := mkFb {
  fb_mem : Z → Z;
  kFbBase : Z;
  kFbWidth : Z;
  kFbHeight : Z;
  kFbPitch : Z;
  kFbBpp : Z;
  kFbCursorX : Z;
  kFbCursorY : Z
}.
Definition set_fb_mem (v : Z → Z) (r : fb) : fb :=
  mkFb v (kFbBase r) (kFbWidth r) (kFbHeight r) (kFbPitch r) (kFbBpp r) (kFbCursorX r) (kFbCursorY r).
Definition set_kFbCursorX (v : Z) (r : fb) : fb :=
  mkFb (fb_mem r) (kFbBase r) (kFbWidth r) (kFbHeight r) (kFbPitch r) (kFbBpp r) v (kFbCursorY r).
Definition set_kFbCursorY (v : Z) (r : fb) : fb :=
  mkFb (fb_mem r) (kFbBase r) (kFbWidth r) (kFbHeight r) (kFbPitch r) (kFbBpp r) (kFbCursorX r) v.

Abbreviation W := (M fb).

Definition write_bytes (a : Z) (bs : list Z) : W () := modify (λ s, set_fb_mem (mem_write (fb_mem s) a bs) s).

(** The arguments are [uint32_t]; so are the two products. *)
Definition put_pixel (x y color : Z) : W () :=
  s ← get;
  if (kFbWidth s <=? x) || (kFbHeight s <=? y) then mret ()
  else
    let bytes_per_pixel := kFbBpp s / 8 in
    let ptr := kFbBase s + u32 (y * kFbPitch s) + u32 (x * bytes_per_pixel) in
    write_bytes ptr [u8 color; u8 (Z.shiftr color 8); u8 (Z.shiftr color 16)].

Definition framebuffer_init (base width height pitch bpp : Z) : W () :=
  modify (λ s, mkFb (fb_mem s) base width height pitch bpp 0 0).

Definition fb_clear (color : Z) : W () :=
  s ← get;
  if kFbBase s =? 0 then mret ()
  else for_each (seqZ 0 (kFbHeight s)) (λ y, for_each (seqZ 0 (kFbWidth s)) (λ x, put_pixel x y color)).

Definition fb_fill_rect (x y w h color : Z) : W () :=
  s ← get;
  if kFbBase s =? 0 then mret ()
  else
    let x_end := Z.min (u32 (x + w)) (kFbWidth s) in
    let y_end := Z.min (u32 (y + h)) (kFbHeight s) in
    for_each (seqZ y (y_end - y)) (λ row, for_each (seqZ x (x_end - x)) (λ col, put_pixel col row color)).

(** One byte moved up by a scroll. *)
Definition move_byte (scroll_bytes i : Z) : W () :=
  s ← get; write_bytes (kFbBase s + i) [fb_mem s (kFbBase s + u32 (i + scroll_bytes))].
Definition zero_byte (remaining_bytes i : Z) : W () :=
  s ← get; write_bytes (kFbBase s + u32 (remaining_bytes + i)) [0].

Definition fb_scroll (lines : Z) : W () :=
  s ← get;
  if (kFbBase s =? 0) || (lines =? 0) then mret ()
  else
    let scroll_bytes := u32 (lines * kFbPitch s) in
    let remaining_bytes := u32 (u32 (kFbHeight s - lines) * kFbPitch s) in
    for_each (seqZ 0 remaining_bytes) (move_byte scroll_bytes);;
    for_each (seqZ 0 scroll_bytes) (zero_byte remaining_bytes).

(** The line feed of both paths of [fb_putchar]. *)
Definition new_line : W () :=
  modify (set_kFbCursorX 0);;
  modify (λ s, set_kFbCursorY (u32 (kFbCursorY s + 16)) s);;
  s ← get;
  when (kFbHeight s <? u32 (kFbCursorY s + 16)) (
    fb_scroll 16;;
    modify (λ s, set_kFbCursorY (u32 (kFbHeight s - 16)) s)).

Definition glyph_color (glyph_row col : Z) : Z := if has_flag glyph_row (Z.shiftr 0x80 col) then COLOR_WHITE else COLOR_BLACK.

Definition draw_glyph (ch : Z) : W () :=
  glyph ← deref (kFont8x16 !! Z.to_nat ch);
  for_each (seqZ 0 16) (λ row,
    glyph_row ← deref (glyph !! Z.to_nat row);
    for_each (seqZ 0 8) (λ col,
      s ← get; put_pixel (u32 (kFbCursorX s + col)) (u32 (kFbCursorY s + row)) (glyph_color glyph_row col))).

(** [ch] is the character as an unsigned byte. *)
Definition fb_putchar (ch : Z) : W () :=
  s ← get;
  if kFbBase s =? 0 then mret ()
  else if ch =? 10 then new_line
  else if ch =? 13 then modify (set_kFbCursorX 0)
  else if ch =? 9 then modify (λ s, set_kFbCursorX (Z.land (u32 (kFbCursorX s + 32)) (u32 (Z.lnot 7))) s)
  else
    let ch := if (ch <? 0x20) || (0x7E <? ch) then 32 else ch in
    draw_glyph ch;;
    modify (λ s, set_kFbCursorX (u32 (kFbCursorX s + 8)) s);;
    s ← get;
    when (kFbWidth s <? u32 (kFbCursorX s + 8)) new_line.

Fixpoint fb_write_loop (str : list Z) : W () :=
  match str with
  | [] => mret ()
  | c :: str => fb_putchar c;; fb_write_loop str
  end.
Definition fb_write (str : option (list Z)) : W () :=
  match str with None => mret () | Some str => fb_write_loop str end.

(** * The framebuffer as an image

    What is on the screen is a colour per pixel; the loops of the driver, which
    work on bytes, are related to operations on images. *)

Definition image : Type := Z → Z → Z.

(** The geometry a boot loader hands over: whole pixels of three bytes at least,
    rows no longer than the pitch, less than 4 GiB in all. *)
Record fb_ok (s : fb) : Prop := mkFbOk {
  fo_base : 0 < kFbBase s;
  fo_bpp : 3 ≤ kFbBpp s / 8;
  fo_width : 8 ≤ kFbWidth s;
  fo_height : 16 ≤ kFbHeight s;
  fo_pitch : kFbWidth s * (kFbBpp s / 8) ≤ kFbPitch s;
  fo_size : kFbPitch s * kFbHeight s < 2 ^ 32
}.

Definition pixel_addr (s : fb) (x y : Z) : Z := kFbBase s + y * kFbPitch s + x * (kFbBpp s / 8).
Definition pixel (s : fb) (x y : Z) : Z :=
  let a := pixel_addr s x y in le_value [fb_mem s a; fb_mem s (a + 1); fb_mem s (a + 2)].
Definition on_screen (s : fb) (x y : Z) : Prop := 0 ≤ x < kFbWidth s ∧ 0 ≤ y < kFbHeight s.

Definition shows (s : fb) (img : image) : Prop := ∀ x y, on_screen s x y → pixel s x y = img x y.

(** The bytes that are not the framebuffer's. *)
Definition elsewhere (s : fb) (a : Z) : Prop := a < kFbBase s ∨ kFbBase s + kFbPitch s * kFbHeight s ≤ a.

Definition same_geo (s s' : fb) : Prop :=
  kFbBase s' = kFbBase s ∧ kFbWidth s' = kFbWidth s ∧ kFbHeight s' = kFbHeight s ∧ kFbPitch s' = kFbPitch s ∧ kFbBpp s' = kFbBpp s.

(** From [s] to [s'] only the image changed, to [img]. *)
Record draws (s : fb) (img : image) (s' : fb) : Prop := mkDraws {
  dr_geo : same_geo s s';
  dr_x : kFbCursorX s' = kFbCursorX s;
  dr_y : kFbCursorY s' = kFbCursorY s;
  dr_else a : elsewhere s a → fb_mem s' a = fb_mem s a;
  dr_shows : shows s' img
}.

Lemma fb_bounds s : fb_ok s → kFbWidth s < 2 ^ 27 ∧ kFbHeight s < 2 ^ 28 ∧ 24 ≤ kFbPitch s < 2 ^ 28.
Proof. intros []. nia. Qed.

Lemma fb_ok_geo s s' : fb_ok s → same_geo s s' → fb_ok s'.
Proof. intros [] (E1 & E2 & E3 & E4 & E5). constructor; rewrite ?E1, ?E2, ?E3, ?E4, ?E5; done. Qed.

Lemma same_geo_trans s1 s2 s3 : same_geo s1 s2 → same_geo s2 s3 → same_geo s1 s3.
Proof. unfold same_geo. intuition congruence. Qed.

Lemma elsewhere_geo s s' a : same_geo s s' → elsewhere s' a ↔ elsewhere s a.
Proof. intros (E1 & E2 & E3 & E4 & E5). unfold elsewhere. by rewrite E1, E3, E4. Qed.

Lemma on_screen_geo s s' x y : same_geo s s' → on_screen s' x y ↔ on_screen s x y.
Proof. intros (E1 & E2 & E3 & E4 & E5). unfold on_screen. by rewrite E2, E3. Qed.

Lemma shows_ext s img img' : (∀ x y, on_screen s x y → img x y = img' x y) → shows s img → shows s img'.
Proof. intros E Hs x y Hxy. rewrite Hs by done. by apply E. Qed.

Lemma draws_refl s img : shows s img → draws s img s.
Proof. intros Hs. by constructor. Qed.

Lemma draws_trans s1 s2 s3 img img' : draws s1 img s2 → draws s2 img' s3 → draws s1 img' s3.
Proof.
  intros [G1 X1 Y1 E1 _] [G2 X2 Y2 E2 S2]. constructor; [by eapply same_geo_trans|congruence|congruence| |done].
  intros a Ha. rewrite E2 by (by apply (elsewhere_geo s1)). by apply E1.
Qed.

Lemma draws_ext s s' img img' : (∀ x y, on_screen s x y → img x y = img' x y) → draws s img s' → draws s img' s'.
Proof.
  intros E [G X Y El Sh]. constructor; [done..|]. eapply shows_ext; [|done]. intros x y Hxy. apply E. by apply (on_screen_geo s s').
Qed.

(** ** Addresses *)

Lemma pixel_in s x y : fb_ok s → on_screen s x y →
  kFbBase s ≤ pixel_addr s x y ∧ pixel_addr s x y + 3 ≤ kFbBase s + (y + 1) * kFbPitch s ∧
  (y + 1) * kFbPitch s ≤ kFbPitch s * kFbHeight s ∧ u32 (y * kFbPitch s) = y * kFbPitch s ∧
  u32 (x * (kFbBpp s / 8)) = x * (kFbBpp s / 8).
Proof.
  intros Hok [Hx Hy]. pose proof (fb_bounds s Hok) as (Hw & Hh & Hp). destruct Hok as [H1 H2 H3 H4 H5 H6]. unfold pixel_addr.
  set (B := kFbBpp s / 8) in *. assert (x * B + B ≤ kFbPitch s) by nia. assert ((y + 1) * kFbPitch s ≤ kFbPitch s * kFbHeight s) by nia.
  split_and!; [nia|nia|done|apply wrap_small; nia|apply wrap_small; nia].
Qed.

(** Two pixels do not share bytes. *)
Lemma pixels_apart s x y x' y' : fb_ok s → on_screen s x y → on_screen s x' y' → x ≠ x' ∨ y ≠ y' →
  pixel_addr s x y + 3 ≤ pixel_addr s x' y' ∨ pixel_addr s x' y' + 3 ≤ pixel_addr s x y.
Proof.
  intros Hok [Hx Hy] [Hx' Hy'] Hne. destruct Hok as [H1 H2 H3 H4 H5 H6]. unfold pixel_addr. set (B := kFbBpp s / 8) in *.
  assert (x * B + B ≤ kFbPitch s) by nia. assert (x' * B + B ≤ kFbPitch s) by nia.
  destruct (Z.lt_trichotomy y y') as [Hlt|[->|Hlt]]; [left; nia| |right; nia].
  destruct (Z.lt_trichotomy x x') as [Hlt|[->|Hlt]]; [left; nia|lia|right; nia].
Qed.

Definition rgb (color : Z) : Z := color mod 2 ^ 24.

Lemma color_bytes color : le_value [u8 color; u8 (Z.shiftr color 8); u8 (Z.shiftr color 16)] = rgb color.
Proof.
  unfold rgb. cbn [le_value]. unfold wrap. rewrite !Z.shiftr_div_pow2 by lia.
  replace (2 ^ 24) with (2 ^ 8 * (2 ^ 8 * 2 ^ 8)) by reflexivity. rewrite (Z.rem_mul_r color), (Z.rem_mul_r (color / 2 ^ 8)) by lia.
  rewrite Z.div_div by lia. change (2 ^ 8 * 2 ^ 8) with (2 ^ 16). change (2 ^ 8) with 256. lia.
Qed.

(** ** One pixel *)

Definition paint (img : image) (x y color : Z) : image :=
  λ x' y', if decide (x' = x ∧ y' = y) then rgb color else img x' y'.

Lemma write_pixel s x y color : fb_ok s → on_screen s x y → let m := mem_write (fb_mem s) (pixel_addr s x y) [u8 color; u8 (Z.shiftr color 8); u8 (Z.shiftr color 16)] in
  (∀ a, elsewhere s a → m a = fb_mem s a) ∧ ∀ img, shows s img → shows (set_fb_mem m s) (paint img x y color).
Proof.
  intros Hok Hxy m. destruct (pixel_in s x y Hok Hxy) as (Ha & Hb & Hc & _). split.
  - intros a Hel. unfold m. rewrite mem_write_lookup, decide_False; [done|]. unfold elsewhere in Hel. simpl. lia.
  - intros img Hs x' y' Hxy'. change (on_screen s x' y') in Hxy'. unfold paint. case_decide as Heq.
    + destruct Heq as [-> ->]. transitivity (le_value [u8 color; u8 (Z.shiftr color 8); u8 (Z.shiftr color 16)]); [|apply color_bytes].
      unfold pixel. change (pixel_addr (set_fb_mem m s) x y) with (pixel_addr s x y). cbn [fb_mem set_fb_mem]. f_equal.
      unfold m. rewrite !mem_write_lookup. cbn [length]. rewrite !decide_True by lia. rewrite Z.sub_diag.
      replace (pixel_addr s x y + 1 - pixel_addr s x y) with 1 by lia. by replace (pixel_addr s x y + 2 - pixel_addr s x y) with 2 by lia.
    + rewrite <-Hs by done. destruct (pixels_apart s x y x' y' Hok Hxy Hxy') as [Hap|Hap]; [lia|..];
        unfold pixel; change (pixel_addr (set_fb_mem m s) x' y') with (pixel_addr s x' y'); cbn [fb_mem set_fb_mem]; unfold m;
        rewrite !mem_write_lookup; cbn [length]; by rewrite !decide_False by lia.
Qed.

(** Outside the screen nothing is drawn. *)
Lemma put_pixel_draws s img x y color : fb_ok s → shows s img → 0 ≤ x → 0 ≤ y →
  wp (put_pixel x y color) (λ _ s', draws s (paint img x y color) s') s.
Proof.
  intros Hok Hs Hx Hy. unfold put_pixel, write_bytes. wp_run. destruct (Z.leb_spec (kFbWidth s) x); cbn [orb].
  { wp_run. apply (draws_ext _ _ img); [|by apply draws_refl]. intros x' y' [? ?]. unfold paint. by rewrite decide_False by lia. }
  destruct (Z.leb_spec (kFbHeight s) y).
  { wp_run. apply (draws_ext _ _ img); [|by apply draws_refl]. intros x' y' [? ?]. unfold paint. by rewrite decide_False by lia. }
  assert (Hxy : on_screen s x y) by (split; lia). destruct (pixel_in s x y Hok Hxy) as (_ & _ & _ & -> & ->). wp_run.
  destruct (write_pixel s x y color Hok Hxy) as [He Hd]. constructor; [done..|by apply Hd].
Qed.

(** ** Loops over pixels *)

(** Pixels drawn one after the other: [img i] is on the screen before turn [i]. *)
Lemma draw_loop s (img : Z → image) a n (f : Z → M fb ()) : 0 ≤ n → fb_ok s → shows s (img a) →
  (∀ i s', a ≤ i < a + n → fb_ok s' → same_geo s s' → kFbCursorX s' = kFbCursorX s → kFbCursorY s' = kFbCursorY s → shows s' (img i) →
     wp (f i) (λ _ s'', draws s' (img (i + 1)) s'') s') →
  wp (for_each (seqZ a n) f) (λ _ s', draws s (img (a + n)) s') s.
Proof.
  intros Hn Hok Hs Hf. apply (for_each_wp (λ i s', draws s (img i) s')); [done|by apply draws_refl|].
  intros i s' Hi Hd. pose proof Hd as [G X Y _ Sh]. eapply wp_mono; [apply Hf; [done|by eapply fb_ok_geo|done..]|].
  intros [] s'' Hd'. by eapply draws_trans.
Qed.

Definition fill (img : image) (x0 x1 y0 y1 color : Z) : image :=
  λ x y, if decide (x0 ≤ x < x1 ∧ y0 ≤ y < y1) then rgb color else img x y.

Lemma fill_row s img x n row color : fb_ok s → 0 ≤ x → 0 ≤ row → shows s img →
  wp (for_each (seqZ x n) (λ col, put_pixel col row color)) (λ _ s', draws s (fill img x (x + n) row (row + 1) color) s') s.
Proof.
  intros Hok Hx Hrow Hs. destruct (decide (0 ≤ n)) as [Hn|Hn].
  - apply (draw_loop s (λ i, fill img x i row (row + 1) color)); [done|done| |].
    + eapply shows_ext; [|exact Hs]. intros x' y' _. unfold fill. by rewrite decide_False by lia.
    + intros i s' Hi Hok' _ _ _ Hs'. eapply wp_mono; [by apply (put_pixel_draws s' _ i row color Hok' Hs'); lia|].
      intros [] s'' Hd. eapply draws_ext; [|exact Hd]. intros x' y' _. unfold paint, fill.
      destruct (decide (x' = i ∧ y' = row)), (decide (x ≤ x' < i ∧ row ≤ y' < row + 1)), (decide (x ≤ x' < i + 1 ∧ row ≤ y' < row + 1)); (done || lia).
  - replace (seqZ x n) with (@nil Z) by (unfold seqZ; by replace (Z.to_nat n) with 0%nat by lia). cbn [for_each]. apply wp_ret.
    apply (draws_ext _ _ img); [|by apply draws_refl]. intros x' y' _. unfold fill. by rewrite decide_False by lia.
Qed.

Lemma fill_rows s img x n y m color : fb_ok s → 0 ≤ x → 0 ≤ y → shows s img →
  wp (for_each (seqZ y m) (λ row, for_each (seqZ x n) (λ col, put_pixel col row color)))
    (λ _ s', draws s (fill img x (x + n) y (y + m) color) s') s.
Proof.
  intros Hok Hx Hy Hs. destruct (decide (0 ≤ m)) as [Hm|Hm].
  - apply (draw_loop s (λ i, fill img x (x + n) y i color)); [done|done| |].
    + eapply shows_ext; [|exact Hs]. intros x' y' _. unfold fill. by rewrite decide_False by lia.
    + intros i s' Hi Hok' _ _ _ Hs'. eapply wp_mono; [apply (fill_row s' (fill img x (x + n) y i color) x n i color Hok'); [lia|lia|done]|].
      intros [] s'' Hd. eapply draws_ext; [|exact Hd]. intros x' y' _. unfold fill.
      destruct (decide (x ≤ x' < x + n ∧ i ≤ y' < i + 1)), (decide (x ≤ x' < x + n ∧ y ≤ y' < i)), (decide (x ≤ x' < x + n ∧ y ≤ y' < i + 1)); (done || lia).
  - replace (seqZ y m) with (@nil Z) by (unfold seqZ; by replace (Z.to_nat m) with 0%nat by lia). cbn [for_each]. apply wp_ret.
    apply (draws_ext _ _ img); [|by apply draws_refl]. intros x' y' _. unfold fill. by rewrite decide_False by lia.
Qed.

(** ** Scrolling *)

Definition scroll_up (h lines : Z) (img : image) : image := λ x y, if decide (y + lines < h) then img x (y + lines) else 0.

(** The bytes after the rows have moved up and the rest was zeroed. *)
Definition scrolled (s : fb) (S R a : Z) : Z :=
  let j := a - kFbBase s in
  if decide (0 ≤ j < R) then fb_mem s (a + S) else if decide (R ≤ j < R + S) then 0 else fb_mem s a.

(** Memory after [i] turns of either loop. *)
Definition moved (s : fb) (S i : Z) (m : Z → Z) : Prop :=
  ∀ a, m a = if decide (0 ≤ a - kFbBase s < i) then fb_mem s (a + S) else fb_mem s a.
Definition zeroed (s : fb) (R i : Z) (m : Z → Z) : Prop :=
  ∀ a, m a = if decide (R ≤ a - kFbBase s < R + i) then 0 else fb_mem s a.

Lemma move_loop s S R : 0 ≤ S → 0 ≤ R → R + S < 2 ^ 32 →
  wp (for_each (seqZ 0 R) (move_byte S)) (λ _ s', ∃ m, s' = set_fb_mem m s ∧ moved s S R m) s.
Proof.
  intros HS HR Hsz. apply (for_each_wp (λ i s', ∃ m, s' = set_fb_mem m s ∧ moved s S i m)); [done| |].
  - exists (fb_mem s). split; [by destruct s|]. intros a. by rewrite decide_False by lia.
  - intros i s' Hi (m & -> & Hm). unfold move_byte, write_bytes. wp_run. cbn [kFbBase fb_mem set_fb_mem]. eexists. split; [reflexivity|].
    intros a. rewrite mem_write_lookup. cbn [length]. rewrite wrap_small by lia. destruct (decide (kFbBase s + i ≤ a < kFbBase s + i + Z.of_nat 1)).
    + assert (a = kFbBase s + i) as -> by lia. rewrite (decide_True _ _) by lia. replace (Z.to_nat _) with 0%nat by lia.
      cbn [lookup_total list_lookup_total]. rewrite Hm. destruct (decide (0 ≤ kFbBase s + (i + S) - kFbBase s < i)); [lia|]. f_equal. lia.
    + rewrite Hm. destruct (decide (0 ≤ a - kFbBase s < i)), (decide (0 ≤ a - kFbBase s < i + 1)); (done || lia).
Qed.

Lemma zero_loop s S R : 0 ≤ S → 0 ≤ R → R + S < 2 ^ 32 →
  wp (for_each (seqZ 0 S) (zero_byte R)) (λ _ s', ∃ m, s' = set_fb_mem m s ∧ zeroed s R S m) s.
Proof.
  intros HS HR Hsz. apply (for_each_wp (λ i s', ∃ m, s' = set_fb_mem m s ∧ zeroed s R i m)); [done| |].
  - exists (fb_mem s). split; [by destruct s|]. intros a. by rewrite decide_False by lia.
  - intros i s' Hi (m & -> & Hm). unfold zero_byte, write_bytes. wp_run. cbn [kFbBase fb_mem set_fb_mem]. eexists. split; [reflexivity|].
    intros a. rewrite mem_write_lookup. cbn [length]. rewrite wrap_small by lia.
    destruct (decide (kFbBase s + (R + i) ≤ a < kFbBase s + (R + i) + Z.of_nat 1)).
    + rewrite (decide_True _ _) by lia. by replace (Z.to_nat _) with 0%nat by lia.
    + rewrite Hm. destruct (decide (R ≤ a - kFbBase s < R + i)), (decide (R ≤ a - kFbBase s < R + (i + 1))); (done || lia).
Qed.

Lemma scrolled_shows s img lines m : fb_ok s → 0 ≤ lines ≤ kFbHeight s → shows s img →
  (∀ a, m a = scrolled s (lines * kFbPitch s) ((kFbHeight s - lines) * kFbPitch s) a) →
  shows (set_fb_mem m s) (scroll_up (kFbHeight s) lines img).
Proof.
  intros Hok Hl Hs Hm x y Hxy. change (on_screen s x y) in Hxy. pose proof Hxy as [Hx Hy].
  destruct (pixel_in s x y Hok Hxy) as (Ha & Hb & Hc & _). pose proof (fb_bounds s Hok) as (_ & _ & Hp).
  set (P := kFbPitch s) in *. set (h := kFbHeight s) in *.
  assert (Hlo : kFbBase s + y * P ≤ pixel_addr s x y). { unfold pixel_addr. destruct Hok. nia. }
  unfold pixel. change (pixel_addr (set_fb_mem m s) x y) with (pixel_addr s x y). cbn [fb_mem set_fb_mem]. rewrite !Hm. unfold scrolled, scroll_up.
  fold P. destruct (decide (y + lines < h)) as [Hin|Hout].
  - assert ((y + 1) * P ≤ (h - lines) * P) by nia. rewrite !decide_True by lia. rewrite <-Hs by (split; [done|unfold h in *; lia]).
    unfold pixel. assert (E : pixel_addr s x (y + lines) = pixel_addr s x y + lines * P) by (unfold pixel_addr; fold P; lia).
    rewrite E. do 3 f_equal; [f_equal; lia|]. f_equal. f_equal. lia.
  - assert ((h - lines) * P ≤ y * P) by nia. assert ((h - lines) * P + lines * P = P * h) by lia.
    rewrite !(decide_False (P := 0 ≤ _ < _)) by lia. by rewrite !decide_True by lia.
Qed.

Lemma scroll_draws s img lines : fb_ok s → 0 < lines ≤ kFbHeight s → shows s img →
  wp (fb_scroll lines) (λ _ s', draws s (scroll_up (kFbHeight s) lines img) s') s.
Proof.
  intros Hok Hl Hs. pose proof (fb_bounds s Hok) as (_ & Hh & Hp). pose proof (fo_size s Hok) as Hsz. pose proof (fo_base s Hok) as Hbase.
  set (S := lines * kFbPitch s). set (R := (kFbHeight s - lines) * kFbPitch s).
  assert (HSR : R + S = kFbPitch s * kFbHeight s) by (unfold R, S; lia). assert (0 ≤ S) by (unfold S; nia). assert (0 ≤ R) by (unfold R; nia).
  unfold fb_scroll. wp_run. rewrite (proj2 (Z.eqb_neq (kFbBase s) 0)), (proj2 (Z.eqb_neq lines 0)) by lia. cbn [orb].
  rewrite (wrap_small 32 (kFbHeight s - lines)) by lia. fold R S. rewrite !wrap_small by lia. apply wp_bind.
  eapply wp_mono; [by apply move_loop; lia|]. intros [] s1 (m1 & -> & H1).
  eapply wp_mono; [by apply zero_loop; lia|]. intros [] s2 (m2 & -> & H2). unfold moved, zeroed in H1, H2. cbn [kFbBase fb_mem set_fb_mem] in H2.
  assert (Hm : ∀ a, m2 a = scrolled s S R a).
  { intros a. rewrite H2, H1. unfold scrolled.
    destruct (decide (R ≤ a - kFbBase s < R + S)), (decide (0 ≤ a - kFbBase s < R)); (done || lia). }
  constructor; [done..| |apply (scrolled_shows s img lines m2); [done|lia|done|done]].
  intros a Ha. cbn [fb_mem set_fb_mem]. rewrite Hm. unfold scrolled, elsewhere in *. by rewrite !decide_False by lia.
Qed.

(** * Properties of the framebuffer console *)

(** ** Glyphs *)

Lemma font_rows : length kFont8x16 = 128%nat ∧ Forall (λ g, length g = 16%nat) kFont8x16.
Proof. split; [reflexivity|repeat constructor]. Qed.

Lemma font_lookup ch : 0 ≤ ch < 128 → ∃ g, kFont8x16 !! Z.to_nat ch = Some g ∧ length g = 16%nat.
Proof.
  intros Hc. destruct font_rows as [Hl Hf]. destruct (lookup_lt_is_Some_2 kFont8x16 (Z.to_nat ch)) as [g Hg]; [lia|].
  exists g. split; [done|]. rewrite Forall_lookup in Hf. by eapply Hf.
Qed.

(** The first [i] rows of a glyph in its cell. *)
Definition blit_rows (img : image) (cx cy : Z) (g : list Z) (i : Z) : image := λ x y,
  if decide (cx ≤ x < cx + 8 ∧ cy ≤ y < cy + i) then rgb (glyph_color (g !!! Z.to_nat (y - cy)) (x - cx)) else img x y.
Definition blit (img : image) (cx cy : Z) (g : list Z) : image := blit_rows img cx cy g 16.

(** [j] pixels of one row on top of an image. *)
Definition blit_row (img : image) (cx y0 glyph_row j : Z) : image := λ x y,
  if decide (cx ≤ x < cx + j ∧ y = y0) then rgb (glyph_color glyph_row (x - cx)) else img x y.

Lemma glyph_row_draws s img cx cy row glyph_row : fb_ok s → shows s img → kFbCursorX s = cx → kFbCursorY s = cy →
  0 ≤ cx < 2 ^ 31 → 0 ≤ cy < 2 ^ 31 → 0 ≤ row < 16 →
  wp (for_each (seqZ 0 8) (λ col, s ← get; put_pixel (u32 (kFbCursorX s + col)) (u32 (kFbCursorY s + row)) (glyph_color glyph_row col)))
    (λ _ s', draws s (blit_row img cx (cy + row) glyph_row 8) s') s.
Proof.
  intros Hok Hs Ex Ey Hcx Hcy Hrow. apply (draw_loop s (λ j, blit_row img cx (cy + row) glyph_row j) 0 8); [lia|done| |].
  - eapply shows_ext; [|exact Hs]. intros x y _. unfold blit_row. by rewrite decide_False by lia.
  - intros j s' Hj Hok' _ Ex' Ey' Hs'. apply wp_bind, wp_get. rewrite Ex', Ey', Ex, Ey, !wrap_small by lia.
    eapply wp_mono; [apply (put_pixel_draws s' _ _ _ _ Hok' Hs'); lia|]. intros [] s'' Hd. eapply draws_ext; [|exact Hd].
    intros x y _. unfold paint, blit_row. destruct (decide (x = cx + j ∧ y = cy + row)) as [[-> ->]|].
    + rewrite decide_True by lia. by replace (cx + j - cx) with j by lia.
    + destruct (decide (cx ≤ x < cx + j ∧ y = cy + row)), (decide (cx ≤ x < cx + (j + 1) ∧ y = cy + row)); (done || lia).
Qed.

Lemma draw_glyph_draws s img ch g cx cy : fb_ok s → shows s img → kFont8x16 !! Z.to_nat ch = Some g → length g = 16%nat →
  kFbCursorX s = cx → kFbCursorY s = cy → 0 ≤ cx < 2 ^ 31 → 0 ≤ cy < 2 ^ 31 →
  wp (draw_glyph ch) (λ _ s', draws s (blit img cx cy g) s') s.
Proof.
  intros Hok Hs Hg Hlen Ex Ey Hcx Hcy. unfold draw_glyph. rewrite Hg. apply wp_bind, wp_ret.
  apply (draw_loop s (blit_rows img cx cy g) 0 16); [lia|done| |].
  - eapply shows_ext; [|exact Hs]. intros x y _. unfold blit_rows. by rewrite decide_False by lia.
  - intros i s' Hi Hok' _ Ex' Ey' Hs'. destruct (lookup_lt_is_Some_2 g (Z.to_nat i)) as [r Hr]; [lia|]. rewrite Hr. apply wp_bind, wp_ret.
    eapply wp_mono; [apply (glyph_row_draws s' _ cx cy i r Hok' Hs'); (congruence || lia)|]. intros [] s'' Hd.
    eapply draws_ext; [|exact Hd]. intros x y _. unfold blit_row, blit_rows.
    destruct (decide (cx ≤ x < cx + 8 ∧ y = cy + i)) as [[? ->]|].
    + rewrite decide_True by lia. replace (cy + i - cy) with i by lia. by rewrite (list_lookup_total_correct _ _ _ Hr).
    + destruct (decide (cx ≤ x < cx + 8 ∧ cy ≤ y < cy + i)), (decide (cx ≤ x < cx + 8 ∧ cy ≤ y < cy + (i + 1))); (done || lia).
Qed.

(** ** The console

    The specification: an image and a cursor, advanced by each character. *)

Record console := mkCon { con_img : image; con_x : Z; con_y : Z }.

Definition spec_newline (h : Z) (c : console) : console :=
  if h <? con_y c + 32 then mkCon (scroll_up h 16 (con_img c)) 0 (h - 16) else mkCon (con_img c) 0 (con_y c + 16).

(** The glyph the table holds for a character. *)
Definition glyph_of (ch : Z) : list Z := kFont8x16 !!! Z.to_nat (if (ch <? 0x20) || (0x7E <? ch) then 32 else ch).

Definition spec_char (w h : Z) (c : console) (ch : Z) : console :=
  if ch =? 10 then spec_newline h c
  else if ch =? 13 then mkCon (con_img c) 0 (con_y c)
  else if ch =? 9 then mkCon (con_img c) ((con_x c + 32) / 8 * 8) (con_y c)
  else
    let c' := mkCon (blit (con_img c) (con_x c) (con_y c) (glyph_of ch)) (con_x c + 8) (con_y c) in
    if w <? con_x c + 16 then spec_newline h c' else c'.

(** The driver's state is that of the console. *)
Record at_console (s0 s : fb) (c : console) : Prop := mkAt {
  ac_geo : same_geo s0 s;
  ac_x : kFbCursorX s = con_x c;
  ac_y : kFbCursorY s = con_y c;
  ac_else a : elsewhere s0 a → fb_mem s a = fb_mem s0 a;
  ac_shows : shows s (con_img c)
}.

(** The cursor's line is on the screen. *)
Definition line_ok (h : Z) (c : console) : Prop := 0 ≤ con_y c ∧ con_y c + 16 ≤ h.

Lemma line_ok_newline h c : 16 ≤ h → line_ok h c → line_ok h (spec_newline h c).
Proof. intros Hh [H1 H2]. unfold spec_newline, line_ok. destruct (Z.ltb_spec h (con_y c + 32)); simpl; lia. Qed.

Lemma tab_stop x : 0 ≤ x < 2 ^ 32 → Z.land x (u32 (Z.lnot 7)) = x / 8 * 8.
Proof.
  intros Hx. change (u32 (Z.lnot 7)) with (Z.shiftl (Z.ones 29) 3). replace (x / 8 * 8) with (Z.shiftl (Z.shiftr x 3) 3)
    by (rewrite Z.shiftl_mul_pow2, Z.shiftr_div_pow2 by lia; done).
  apply Z.bits_inj'. intros n Hn. rewrite Z.land_spec, !Z.shiftl_spec by done.
  destruct (Z.ltb_spec n 3); [rewrite (Z.testbit_neg_r _ (n - 3)) by lia; rewrite (Z.testbit_neg_r (Z.shiftr x 3)) by lia; apply andb_false_r|].
  rewrite Z.shiftr_spec by lia. replace (n - 3 + 3) with n by lia. destruct (Z.ltb_spec n 32).
  - rewrite Z.ones_spec_low by lia. apply andb_true_r.
  - rewrite Z.ones_spec_high by lia. rewrite (testbit_high x 32) by lia. done.
Qed.

Section steps.
Context (s0 : fb) (Hok0 : fb_ok s0).
Abbreviation w := (kFbWidth s0).
Abbreviation h := (kFbHeight s0).
Implicit Types (s : fb) (c : console).

Lemma at_ok s c : at_console s0 s c → fb_ok s.
Proof. intros []. by eapply fb_ok_geo. Qed.

Lemma at_draws s c s' img : at_console s0 s c → draws s img s' → at_console s0 s' (mkCon img (con_x c) (con_y c)).
Proof.
  intros [G X Y E S] [G' X' Y' E' S']. constructor; [by eapply same_geo_trans|simpl; congruence|simpl; congruence| |done].
  intros a Ha. rewrite E' by (by apply (elsewhere_geo s0)). by apply E.
Qed.

(** Moving the cursor leaves the picture. *)
Lemma at_cursor s c x y : at_console s0 s c →
  at_console s0 (set_kFbCursorY y (set_kFbCursorX x s)) (mkCon (con_img c) x y).
Proof. intros [G X Y E S]. by constructor. Qed.

Lemma new_line_wp s c : at_console s0 s c → line_ok h c →
  wp new_line (λ _ s', at_console s0 s' (spec_newline h c)) s.
Proof.
  intros Ha [Hy1 Hy2]. pose proof (fb_bounds s0 Hok0) as (Hw & Hh & _). pose proof (fo_height s0 Hok0).
  unfold new_line. wp_run. cbn [kFbCursorY kFbCursorX kFbHeight set_kFbCursorX set_kFbCursorY].
  pose proof (ac_y _ _ _ Ha) as Ey. assert (Eh : kFbHeight s = h) by (by destruct (ac_geo _ _ _ Ha) as (_ & _ & ? & _)).
  rewrite Ey, Eh, !wrap_small by (rewrite ?wrap_small; lia). unfold spec_newline.
  replace (con_y c + 16 + 16) with (con_y c + 32) by lia.
  pose proof (at_cursor s c 0 (con_y c + 16) Ha) as Ha1.
  change (mkFb (fb_mem s) (kFbBase s) (kFbWidth s) (kFbHeight s) (kFbPitch s) (kFbBpp s) 0 (con_y c + 16)) with
    (set_kFbCursorY (con_y c + 16) (set_kFbCursorX 0 s)).
  destruct (h <? con_y c + 32); [|exact Ha1].
  apply wp_bind. eapply wp_mono; [apply (scroll_draws _ (con_img c) 16 (at_ok _ _ Ha1)); [cbn [kFbHeight set_kFbCursorX set_kFbCursorY]; lia|exact (ac_shows _ _ _ Ha1)]|].
  intros [] s2 Hd. apply wp_modify. pose proof (at_draws _ _ _ _ Ha1 Hd) as Ha2.
  assert (Eh2 : kFbHeight s2 = h) by (by destruct (ac_geo _ _ _ Ha2) as (_ & _ & ? & _)).
  cbn [con_x con_y kFbHeight set_kFbCursorX set_kFbCursorY] in Ha2. rewrite Eh in Ha2. rewrite Eh2, wrap_small by lia.
  destruct Ha2 as [G X Y E S]. by constructor.
Qed.

Lemma putchar_wp s c ch : at_console s0 s c → line_ok h c → 0 ≤ con_x c < 2 ^ 30 → 0 ≤ ch < 256 →
  wp (fb_putchar ch) (λ _ s', at_console s0 s' (spec_char w h c ch)) s.
Proof.
  intros Ha Hl Hx Hch. pose proof (fb_bounds s0 Hok0) as (Hw & Hh & _). pose proof Hl as [Hy1 Hy2].
  destruct (ac_geo _ _ _ Ha) as (Eb & Ew & Eh & _). pose proof (fo_base s0 Hok0). pose proof (ac_x _ _ _ Ha) as Ex. pose proof (ac_y _ _ _ Ha) as Ey.
  unfold fb_putchar, spec_char. apply wp_bind, wp_get. rewrite (proj2 (Z.eqb_neq (kFbBase s) 0)) by lia.
  destruct (ch =? 10); [by apply new_line_wp|].
  destruct (ch =? 13); [apply wp_modify; destruct Ha; by constructor|].
  destruct (ch =? 9).
  { apply wp_modify. rewrite Ex, (wrap_small 32 (con_x c + 32)), tab_stop by lia. destruct Ha; by constructor. }
  set (k := if _ || _ then 32 else ch). assert (Hk : 0 ≤ k < 128).
  { subst k. destruct (Z.ltb_spec ch 0x20), (Z.ltb_spec 0x7E ch); simpl; lia. }
  destruct (font_lookup k Hk) as (g & Hg & Hlen). assert (Eg : glyph_of ch = g) by (unfold glyph_of; fold k; by apply list_lookup_total_correct).
  rewrite Eg. apply wp_bind.
  eapply wp_mono; [apply (draw_glyph_draws s (con_img c) k g (con_x c) (con_y c) (at_ok _ _ Ha) (ac_shows _ _ _ Ha) Hg Hlen Ex Ey); lia|].
  intros [] s1 Hd. pose proof (at_draws _ _ _ _ Ha Hd) as Ha1. apply wp_bind, wp_modify.
  rewrite (ac_x _ _ _ Ha1). cbn [con_x]. rewrite (wrap_small 32 (con_x c + 8)) by lia.
  set (s2 := set_kFbCursorX (con_x c + 8) s1). assert (Ha2 : at_console s0 s2 (mkCon (blit (con_img c) (con_x c) (con_y c) g) (con_x c + 8) (con_y c))).
  { destruct Ha1. by constructor. }
  apply wp_bind, wp_get. assert (Ew2 : kFbWidth s2 = w) by (by destruct (ac_geo _ _ _ Ha2) as (_ & ? & _)).
  rewrite Ew2. cbn [kFbCursorX s2 set_kFbCursorX]. rewrite wrap_small by lia. replace (con_x c + 8 + 8) with (con_x c + 16) by lia.
  apply wp_when. destruct (w <? con_x c + 16); [|exact Ha2]. by apply new_line_wp.
Qed.

(** A character moves the cursor right by 32 at most, and its line stays. *)
Lemma spec_char_step c ch : line_ok h c → 0 ≤ con_x c →
  line_ok h (spec_char w h c ch) ∧ 0 ≤ con_x (spec_char w h c ch) ≤ con_x c + 32.
Proof.
  intros Hl Hx. pose proof (fo_height s0 Hok0). unfold spec_char. pose proof (Z.div_mod (con_x c + 32) 8 ltac:(lia)).
  pose proof (Z.mod_pos_bound (con_x c + 32) 8 ltac:(lia)).
  repeat case_match; (split; [first [by apply line_ok_newline | exact Hl]|]); unfold spec_newline; repeat case_match; simpl; lia.
Qed.

Lemma write_loop_wp str : ∀ s c, at_console s0 s c → line_ok h c → 0 ≤ con_x c → con_x c + 32 * Z.of_nat (length str) < 2 ^ 30 →
  Forall (λ ch, 0 ≤ ch < 256) str → wp (fb_write_loop str) (λ _ s', at_console s0 s' (foldl (spec_char w h) c str)) s.
Proof.
  induction str as [|ch str IH]; intros s c Ha Hl Hx Hlen Hf; [done|]. cbn [fb_write_loop foldl]. inversion Hf; subst.
  cbn [length] in Hlen. apply wp_bind. eapply wp_mono; [apply putchar_wp; [done|done|lia|done]|]. intros [] s1 Ha1.
  destruct (spec_char_step c ch Hl Hx). apply IH; [done|done|lia|lia|done].
Qed.
End steps.

(** ** Properties *)


(** A screen of 16 by 32 pixels, 24 bits each. *)
Definition demo_fb : fb := mkFb (λ _, 0) 0x1000 16 32 48 24 0 0.

Lemma demo_fb_ok : fb_ok demo_fb.
Proof. constructor; vm_compute; done. Qed.

Lemma demo_fb_black : shows demo_fb (λ _ _, 0).
Proof. intros x y _. done. Qed.


(** [fb_fill_rect] paints the rectangle, clipped to the screen; a rectangle whose
    far edge passes 2^32 is not clipped but lost. *)
Theorem fb_fill_rect_correct s img x y w h color : fb_ok s → shows s img → 0 ≤ x → 0 ≤ y →
  ∃ s', fb_fill_rect x y w h color s = Ok ((), s') ∧
    draws s (fill img x (Z.min (u32 (x + w)) (kFbWidth s)) y (Z.min (u32 (y + h)) (kFbHeight s)) color) s'.
Proof.
  intros Hok Hs Hx Hy. pose proof (fo_base s Hok). assert (Hw : wp (fb_fill_rect x y w h color) (λ _ s',
    draws s (fill img x (Z.min (u32 (x + w)) (kFbWidth s)) y (Z.min (u32 (y + h)) (kFbHeight s)) color) s') s).
  { unfold fb_fill_rect. apply wp_bind, wp_get. rewrite (proj2 (Z.eqb_neq (kFbBase s) 0)) by lia.
    set (x1 := Z.min _ (kFbWidth s)). set (y1 := Z.min _ (kFbHeight s)).
    pose proof (fill_rows s img x (x1 - x) y (y1 - y) color Hok Hx Hy Hs) as Hf.
    by replace (x + (x1 - x)) with x1 in Hf by lia; replace (y + (y1 - y)) with y1 in Hf by lia. }
  destruct (proj1 (wp_ok _ _ _) Hw) as ([] & s' & E & Hd). by exists s'.
Qed.

(** [fb_clear] leaves every pixel of the colour. *)
Theorem fb_clear_correct s img color : fb_ok s → shows s img →
  ∃ s', fb_clear color s = Ok ((), s') ∧ draws s (λ _ _, rgb color) s'.
Proof.
  intros Hok Hs. pose proof (fo_base s Hok). assert (Hw : wp (fb_clear color) (λ _ s', draws s (λ _ _, rgb color) s') s).
  { unfold fb_clear. apply wp_bind, wp_get. rewrite (proj2 (Z.eqb_neq (kFbBase s) 0)) by lia.
    eapply wp_mono; [apply (fill_rows s img 0 (kFbWidth s) 0 (kFbHeight s) color Hok); done|]. intros [] s' Hd.
    eapply draws_ext; [|exact Hd]. intros x y [? ?]. unfold fill. by rewrite decide_True by lia. }
  destruct (proj1 (wp_ok _ _ _) Hw) as ([] & s' & E & Hd). by exists s'.
Qed.

(** The table starts with the glyph of the space and is indexed by the
    character itself: a character up to 0x5E is drawn as the one 32 places after
    it, and the others, the lower-case letters among them, as blanks. *)
Theorem fb_wrong_glyph ch : 0x20 ≤ ch ≤ 0x7E →
  glyph_of ch = if ch <=? 0x5E then kGlyphs !!! Z.to_nat (ch + 32 - 0x20) else replicate 16 0.
Proof.
  intros Hc. unfold glyph_of. rewrite (proj2 (Z.ltb_ge ch 0x20)), (proj2 (Z.ltb_ge 0x7E ch)) by lia. cbn [orb].
  unfold kFont8x16. assert (El : length kGlyphs = 95%nat) by reflexivity. destruct (Z.leb_spec ch 0x5E).
  - rewrite lookup_total_app_l by lia. do 2 f_equal. lia.
  - rewrite lookup_total_app_r by lia. apply lookup_total_replicate_2. lia.
Qed.

(** 'A' is drawn with the glyph of 'a'; 'a' is drawn blank. *)
Lemma fb_wrong_glyph_witness : glyph_of 65 = kGlyphs !!! 65%nat ∧ glyph_of 97 = replicate 16 0 ∧ kGlyphs !!! 65%nat ≠ kGlyphs !!! 33%nat.
Proof. split; [exact (fb_wrong_glyph 65 ltac:(lia))|]. split; [exact (fb_wrong_glyph 97 ltac:(lia))|done]. Defined.
