(* ===== verification/Descriptors.v ===== *)
(** * Segment descriptors and the task state

    Model of src/arch/x86_64/gdt.cpp and of src/arch/x86_64/syscall.cpp.  The
    addresses of [kGdt] and of the system-call entry are parameters.  The
    instructions that load the segment registers set them in the state. *)

From S2P Require Import Prelude Bytes PortIo.
Open Scope Z_scope.

Definition KERNEL_CS : Z := 0x08.
Definition KERNEL_DS : Z := 0x10.
Definition USER_CS : Z := 0x18.
Definition USER_DS : Z := 0x20.
Definition TSS_SEL : Z := 0x28.

Record GdtEntry := mkGdtEntry { limit_lo : Z; base_lo : Z; base_mid : Z; access : Z; flags_limit : Z; base_hi : Z }.
Definition null_entry : GdtEntry := mkGdtEntry 0 0 0 0 0 0.

(** 104 bytes; only the fields the code writes have a projection. *)
Record TaskStateSegment := mkTss { rsp0 : Z; ist1 : Z; ist2 : Z; iopb_offset : Z }.
Definition sizeof_Tss : Z := 104.
Definition set_rsp0 (v : Z) (t : TaskStateSegment) : TaskStateSegment := mkTss v (ist1 t) (ist2 t) (iopb_offset t).

Definition ACCESS_KCODE : Z := 0x9A.
Definition ACCESS_KDATA : Z := 0x92.
Definition ACCESS_UCODE : Z := 0xFA.
Definition ACCESS_UDATA : Z := 0xF2.
Definition ACCESS_TSS : Z := 0x89.
Definition FLAGS_CODE64 : Z := 0xA0.
Definition FLAGS_DATA : Z := 0xC0.

Definition make_segment (access flags : Z) : GdtEntry := mkGdtEntry 0xFFFF 0 0 access (u8 (Z.lor flags 0x0F)) 0.

(** The initial contents of [kGdt]. *)
Definition kGdt_boot : list GdtEntry :=
  [null_entry; make_segment ACCESS_KCODE FLAGS_CODE64; make_segment ACCESS_KDATA FLAGS_DATA;
   make_segment ACCESS_UCODE FLAGS_CODE64; make_segment ACCESS_UDATA FLAGS_DATA; null_entry; null_entry].

Record GdtRegister := mkGdtr { gdtr_limit : Z; gdtr_base : Z }.

(** The segment registers, the task register and the descriptor-table register. *)
Record seg := mkSeg { sg_cs : Z; sg_ds : Z; sg_es : Z; sg_ss : Z; sg_fs : Z; sg_gs : Z; sg_tr : Z; sg_gdtr : GdtRegister }.

(** [tss_objs] are the task-state objects in memory, by address. *)
Record gdt := mkGdt {
  kGdt : list GdtEntry;
  kTss : Z;
  tss_objs : gmap Z TaskStateSegment;
  segs : seg;
  g_msrs : Z → Z
}.
Definition set_kGdt v (r : gdt) : gdt := mkGdt v (kTss r) (tss_objs r) (segs r) (g_msrs r).
Definition set_kTss v (r : gdt) : gdt := mkGdt (kGdt r) v (tss_objs r) (segs r) (g_msrs r).
Definition set_tss_objs v (r : gdt) : gdt := mkGdt (kGdt r) (kTss r) v (segs r) (g_msrs r).
Definition set_segs v (r : gdt) : gdt := mkGdt (kGdt r) (kTss r) (tss_objs r) v (g_msrs r).
Definition set_g_msrs v (r : gdt) : gdt := mkGdt (kGdt r) (kTss r) (tss_objs r) (segs r) v.

#[export] Instance gdt_msrs : HasMsrs gdt := {| msrs := g_msrs; set_msrs := set_g_msrs; msrs_set := λ _ _, eq_refl |}.

Abbreviation W := (M gdt).

(** [kGdt[i] = e], out of range undefined. *)
Definition write_gdt (i : nat) (e : GdtEntry) : W () :=
  s ← get; if (i <? length (kGdt s))%nat then modify (set_kGdt (<[i := e]> (kGdt s))) else undefined.

Definition tss_low (tss_addr tss_size : Z) : GdtEntry :=
  mkGdtEntry (u16 (Z.land tss_size 0xFFFF)) (u16 (Z.land tss_addr 0xFFFF)) (u8 (Z.land (Z.shiftr tss_addr 16) 0xFF))
    ACCESS_TSS (u8 (Z.land (Z.shiftr tss_size 16) 0x0F)) (u8 (Z.land (Z.shiftr tss_addr 24) 0xFF)).
Definition tss_high (tss_addr : Z) : GdtEntry :=
  mkGdtEntry (u16 (Z.land (Z.shiftr tss_addr 32) 0xFFFF)) (u16 (Z.land (Z.shiftr tss_addr 48) 0xFFFF)) 0 0 0 0.

Section gdt.
Context (gdt_addr syscall_entry_addr : Z).

Definition gdt_get_gdtr : GdtRegister := mkGdtr (u16 (7 * 8 - 1)) gdt_addr.

(** [lgdt], the loads of the data segments, the far return and [ltr]. *)
Definition load_segments : W () :=
  modify (λ s, set_segs (mkSeg KERNEL_CS KERNEL_DS KERNEL_DS KERNEL_DS KERNEL_DS KERNEL_DS TSS_SEL gdt_get_gdtr) s).

Definition gdt_init (tss : Z) : W () :=
  modify (set_kTss tss);;
  let tss_addr := tss in
  let tss_size := u32 (sizeof_Tss - 1) in
  write_gdt 5 (tss_low tss_addr tss_size);;
  write_gdt 6 (tss_high tss_addr);;
  load_segments.

Definition tss_set_rsp0 (v : Z) : W () :=
  s ← get;
  if kTss s =? 0 then mret ()
  else
    t ← deref (tss_objs s !! kTss s);
    modify (set_tss_objs (<[kTss s := set_rsp0 v t]> (tss_objs s))).

(** ** System calls *)

Definition MSR_EFER : Z := 0xC0000080.
Definition MSR_STAR : Z := 0xC0000081.
Definition MSR_LSTAR : Z := 0xC0000082.
Definition MSR_FMASK : Z := 0xC0000084.

Definition syscall_init : W () :=
  efer ← rdmsr MSR_EFER;
  wrmsr MSR_EFER (Z.lor efer 1);;
  wrmsr MSR_STAR (Z.lor (Z.shiftl 0x0008 32) (Z.shiftl 0x0020 48));;
  wrmsr MSR_LSTAR syscall_entry_addr;;
  wrmsr MSR_FMASK 0x200.
End gdt.

(** * Properties of the descriptors

    The fields are read back as the processor reads them (Intel SDM Vol. 3A,
    3.4.5 and 7.2.3). *)

(** ** Reading descriptors *)

Definition present (e : GdtEntry) : bool := has_flag (access e) 0x80.
Definition dpl (e : GdtEntry) : Z := Z.land (Z.shiftr (access e) 5) 3.
Definition is_system (e : GdtEntry) : bool := negb (has_flag (access e) 0x10).
Definition seg_type (e : GdtEntry) : Z := Z.land (access e) 0x0F.
Definition is_code (e : GdtEntry) : bool := negb (is_system e) && has_flag (access e) 0x08.
Definition long_mode (e : GdtEntry) : bool := has_flag (flags_limit e) 0x20.
Definition granular (e : GdtEntry) : bool := has_flag (flags_limit e) 0x80.
Definition seg_limit (e : GdtEntry) : Z := Z.lor (limit_lo e) (Z.shiftl (Z.land (flags_limit e) 0x0F) 16).
(** The 64-bit base of a system descriptor, from its two entries. *)
Definition system_base (lo hi : GdtEntry) : Z :=
  base_lo lo + Z.shiftl (base_mid lo) 16 + Z.shiftl (base_hi lo) 24 + Z.shiftl (limit_lo hi) 32 + Z.shiftl (base_lo hi) 48.

(** The entry a selector names. *)
Definition entry_of (t : list GdtEntry) (sel : Z) : option GdtEntry := t !! Z.to_nat (Z.shiftr sel 3).

Definition is_tss_at (lo hi : GdtEntry) (base limit : Z) : Prop :=
  present lo = true ∧ is_system lo = true ∧ seg_type lo = 9 ∧ dpl lo = 0 ∧ granular lo = false ∧ seg_limit lo = limit ∧ system_base lo hi = base.

(** A code or data segment of ring [d]. *)
Definition is_flat (e : GdtEntry) (code : bool) (d : Z) : Prop :=
  present e = true ∧ is_system e = false ∧ is_code e = code ∧ dpl e = d ∧ long_mode e = code ∧ granular e = true ∧ seg_limit e = 0xFFFFF.

(** The table the kernel runs with. *)
Definition gdt_wf (t : list GdtEntry) (tss_addr : Z) : Prop :=
  length t = 7%nat ∧ entry_of t 0 = Some null_entry ∧
  (∃ e, entry_of t KERNEL_CS = Some e ∧ is_flat e true 0) ∧ (∃ e, entry_of t KERNEL_DS = Some e ∧ is_flat e false 0) ∧
  (∃ e, entry_of t USER_CS = Some e ∧ is_flat e true 3) ∧ (∃ e, entry_of t USER_DS = Some e ∧ is_flat e false 3) ∧
  ∃ lo hi, entry_of t TSS_SEL = Some lo ∧ entry_of t (TSS_SEL + 8) = Some hi ∧ is_tss_at lo hi tss_addr (sizeof_Tss - 1).

(** ** Fields of an address *)

Lemma field_mod x w : 0 ≤ w → Z.land x (Z.ones w) = x mod 2 ^ w.
Proof. intros Hw. by apply Z.land_ones. Qed.

Lemma wrap_field x w : 0 ≤ w → wrap w (Z.land x (Z.ones w)) = x mod 2 ^ w.
Proof. intros Hw. rewrite field_mod by done. unfold wrap. by rewrite Zmod_mod. Qed.

(** An address is the sum of its fields. *)
Lemma split_mod x a b : 0 ≤ a → 0 ≤ b → x mod 2 ^ a + 2 ^ a * ((x / 2 ^ a) mod 2 ^ b) = x mod 2 ^ (a + b).
Proof. intros Ha Hb. rewrite Z.pow_add_r, Z.rem_mul_r by lia. lia. Qed.

Lemma tss_base_roundtrip a : 0 ≤ a < 2 ^ 64 → system_base (tss_low a (u32 (sizeof_Tss - 1))) (tss_high a) = a.
Proof.
  intros Ha. unfold system_base, tss_low, tss_high. cbn [base_lo base_mid base_hi limit_lo].
  change 0xFFFF with (Z.ones 16). change 0xFF with (Z.ones 8). rewrite !wrap_field by lia.
  rewrite !Z.shiftl_mul_pow2, !Z.shiftr_div_pow2 by lia.
  assert (E1 : a mod 2 ^ 16 + 2 ^ 16 * ((a / 2 ^ 16) mod 2 ^ 8) = a mod 2 ^ 24) by (by apply (split_mod a 16 8)).
  assert (E2 : a mod 2 ^ 24 + 2 ^ 24 * ((a / 2 ^ 24) mod 2 ^ 8) = a mod 2 ^ 32) by (by apply (split_mod a 24 8)).
  assert (E3 : a mod 2 ^ 32 + 2 ^ 32 * ((a / 2 ^ 32) mod 2 ^ 16) = a mod 2 ^ 48) by (by apply (split_mod a 32 16)).
  assert (E4 : a mod 2 ^ 48 + 2 ^ 48 * ((a / 2 ^ 48) mod 2 ^ 16) = a mod 2 ^ 64) by (by apply (split_mod a 48 16)).
  rewrite (Z.mod_small a (2 ^ 64)) in E4 by lia. lia.
Qed.

Lemma tss_descriptor a : 0 ≤ a < 2 ^ 64 → is_tss_at (tss_low a (u32 (sizeof_Tss - 1))) (tss_high a) a (sizeof_Tss - 1).
Proof. intros Ha. unfold is_tss_at. split_and!; [done..|by apply tss_base_roundtrip]. Qed.

(** ** Properties *)

(** The state [gdt_init] leaves. *)
Definition gdt_after (gdt_addr tss : Z) (s : gdt) : gdt :=
  mkGdt (<[6%nat := tss_high tss]> (<[5%nat := tss_low tss (u32 (sizeof_Tss - 1))]> kGdt_boot)) tss (tss_objs s)
    (mkSeg KERNEL_CS KERNEL_DS KERNEL_DS KERNEL_DS KERNEL_DS KERNEL_DS TSS_SEL (gdt_get_gdtr gdt_addr)) (g_msrs s).

Lemma gdt_init_eq gdt_addr tss s : kGdt s = kGdt_boot → gdt_init gdt_addr tss s = Ok ((), gdt_after gdt_addr tss s).
Proof.
  intros Hk. unfold gdt_init, write_gdt, load_segments, mbind, M_bind, modify, get. cbn [kGdt set_kTss]. rewrite Hk.
  cbn [length kGdt_boot Nat.ltb Nat.leb]. reflexivity.
Qed.

Lemma gdt_after_wf gdt_addr tss s : 0 ≤ tss < 2 ^ 64 → gdt_wf (kGdt (gdt_after gdt_addr tss s)) tss.
Proof.
  intros Ht. unfold gdt_wf. split_and!; [done|done|by eexists; split_and!..|].
  exists (tss_low tss (u32 (sizeof_Tss - 1))), (tss_high tss). split; [done|]. split; [done|]. by apply tss_descriptor.
Qed.


Definition gdt_boot (tss_addr : Z) : gdt :=
  mkGdt kGdt_boot 0 {[tss_addr := mkTss 0 0 0 104]} (mkSeg 0 0 0 0 0 0 0 (mkGdtr 0 0)) (λ _, 0).


(** ** System calls *)

(** What SYSRET loads (Intel SDM Vol. 2B): the code selector is the high field of
    STAR plus 16 and the stack selector that field plus 8, both with RPL 3. *)
Definition sysret_cs (star : Z) : Z := Z.lor (Z.shiftr star 48 + 16) 3.
Definition sysret_ss (star : Z) : Z := Z.lor (Z.shiftr star 48 + 8) 3.
Definition syscall_cs (star : Z) : Z := Z.land (Z.shiftr star 32) 0xFFFF.

(** With the registers [syscall_init] writes and the table [gdt_init] builds,
    a system call enters on the kernel's code segment, but returning from one
    loads the code selector of the upper half of the task-state descriptor and
    the stack selector of its lower half: the return can never reach the user's
    segments. *)
Theorem sysret_selectors_wrong gdt_addr entry_addr tss s : 0 ≤ tss < 2 ^ 64 → kGdt s = kGdt_boot → 0 ≤ msrs s MSR_EFER < 2 ^ 64 →
  ∃ s' star, (gdt_init gdt_addr tss;; syscall_init entry_addr) s = Ok ((), s') ∧ star = msrs s' MSR_STAR ∧
    syscall_cs star = KERNEL_CS ∧ Z.land (sysret_cs star) 0xFFF8 = TSS_SEL + 8 ∧ Z.land (sysret_ss star) 0xFFF8 = TSS_SEL ∧
    entry_of (kGdt s') (sysret_cs star) = Some (tss_high tss) ∧ is_code (tss_high tss) = false ∧ present (tss_high tss) = false.
Proof.
  intros Ht Hk He. unfold gdt_init, write_gdt, load_segments, syscall_init, rdmsr, wrmsr. eexists. eexists. split.
  { unfold mbind, M_bind, modify, get. cbn [kGdt set_kTss]. rewrite Hk. cbn [length kGdt_boot Nat.ltb Nat.leb]. reflexivity. }
  split; [reflexivity|]. cbn [msrs set_msrs gdt_msrs g_msrs set_g_msrs set_segs set_kGdt set_kTss kGdt]. rewrite !fn_lookup_insert_ne by done. rewrite fn_lookup_insert.
  split_and!; done.
Qed.

Lemma sysret_selectors_wrong_witness : ∃ s' star,
  (gdt_init 0xffffffff80200000 0xffffffff80201234;; syscall_init 0xffffffff80100000) (gdt_boot 0xffffffff80201234) = Ok ((), s') ∧
  star = msrs s' MSR_STAR ∧ Z.land (sysret_cs star) 0xFFF8 = TSS_SEL + 8.
Proof.
  destruct (sysret_selectors_wrong 0xffffffff80200000 0xffffffff80100000 0xffffffff80201234 (gdt_boot 0xffffffff80201234) ltac:(lia) eq_refl ltac:(done))
    as (s' & star & E & Es & _ & Hc & _). exists s', star. split; [exact E|]. split; [exact Es|exact Hc].
Defined.

(** The stack for entries from user mode is set in the task state the processor
    was given, and nothing happens before there is one. *)
Theorem tss_set_rsp0_correct v s : (kTss s ≠ 0 → is_Some (tss_objs s !! kTss s)) → ∃ s', tss_set_rsp0 v s = Ok ((), s') ∧
  (if kTss s =? 0 then s' = s else ∃ t, tss_objs s !! kTss s = Some t ∧ tss_objs s' = <[kTss s := set_rsp0 v t]> (tss_objs s) ∧ kGdt s' = kGdt s).
Proof.
  intros Ht. unfold tss_set_rsp0, mbind, M_bind, get. destruct (Z.eqb_spec (kTss s) 0) as [E|E]; [by exists s|].
  destruct (Ht E) as [t Et]. rewrite Et. eexists. split; [reflexivity|]. by exists t.
Qed.
