(* ===== verification/Interrupts.v ===== *)
(** * Interrupt descriptors, stubs and dispatch

    Model of src/arch/x86_64/idt.cpp and src/arch/x86_64/isr_stubs.cpp.  The
    assembly is written instruction by instruction over a register file and a
    stack of 64-bit words.  The addresses of the stubs and of [kIdt] are
    parameters, and so are the handlers of other files and what compiled C++
    code leaves in the registers and below the stack pointer.

    [deliver] is the processor's part (Intel SDM Vol. 3A, 6.12 and 6.14): the
    gate is read from the table, the stack is switched and aligned, and the
    interrupted state is pushed. *)

From S2P Require Import Prelude PortIo Serial Descriptors.
Open Scope Z_scope.

(** ** Constants and data *)

Definition IDT_ENTRIES : Z := 256.
Definition VEC_NMI : Z := 2.
Definition VEC_BREAKPOINT : Z := 3.
Definition VEC_DOUBLE_FAULT : Z := 8.
Definition VEC_GENERAL_PROTECT : Z := 13.
Definition VEC_PAGE_FAULT : Z := 14.
Definition VEC_APIC_TIMER : Z := 0xEF.
Definition GATE_INTERRUPT : Z := 0x8E.
Definition GATE_TRAP : Z := 0x8F.

Record IdtEntry := mkIdtEntry {
  offset_lo : Z; selector : Z; ist : Z; type_attr : Z; offset_mid : Z; offset_hi : Z; ie_reserved : Z
}.
Definition zero_gate : IdtEntry := mkIdtEntry 0 0 0 0 0 0 0.
Record IdtRegister := mkIdtr { idt_limit : Z; idt_base : Z }.
Definition sizeof_IdtEntry : Z := 16.

(** Function pointers of the handler table: the handlers of idt.cpp, the page
    fault handler of pf.cpp, and a function registered by another file. *)
Inductive ExceptionHandler := double_fault | gp_fault | page_fault | registered (f : Z).

Inductive gpr := RAX | RBX | RCX | RDX | RSI | RDI | RBP | R8 | R9 | R10 | R11 | R12 | R13 | R14 | R15.
#[export] Instance gpr_eq_dec : EqDecision gpr.
Proof. solve_decision. Defined.

(** [env] is the rest of the kernel's state, which only the handlers touch. *)
Record imach (X : Type) := mkImach {
  kIdt : list IdtEntry;
  kHandlers : list (option ExceptionHandler);
  kStubTable : list Z;
  idtr : IdtRegister;
  tss : TaskStateSegment;
  gprs : gpr → Z;
  rsp : Z; rip : Z; cs : Z; rflags : Z; ss : Z;
  cr2 : Z;
  stack : Z → Z;
  i_ports : list io_event;
  env : X
}.
Arguments mkImach {X}.
Arguments kIdt {X}. Arguments kHandlers {X}. Arguments kStubTable {X}. Arguments idtr {X}. Arguments tss {X}.
Arguments gprs {X}. Arguments rsp {X}. Arguments rip {X}. Arguments cs {X}. Arguments rflags {X}.
Arguments ss {X}. Arguments cr2 {X}. Arguments stack {X}. Arguments i_ports {X}. Arguments env {X}.

Section setters.
Context {X : Type} (r : imach X).
Definition set_kIdt v := mkImach v (kHandlers r) (kStubTable r) (idtr r) (tss r) (gprs r) (rsp r) (rip r) (cs r) (rflags r) (ss r) (cr2 r) (stack r) (i_ports r) (env r).
Definition set_kHandlers v := mkImach (kIdt r) v (kStubTable r) (idtr r) (tss r) (gprs r) (rsp r) (rip r) (cs r) (rflags r) (ss r) (cr2 r) (stack r) (i_ports r) (env r).
Definition set_kStubTable v := mkImach (kIdt r) (kHandlers r) v (idtr r) (tss r) (gprs r) (rsp r) (rip r) (cs r) (rflags r) (ss r) (cr2 r) (stack r) (i_ports r) (env r).
Definition set_idtr v := mkImach (kIdt r) (kHandlers r) (kStubTable r) v (tss r) (gprs r) (rsp r) (rip r) (cs r) (rflags r) (ss r) (cr2 r) (stack r) (i_ports r) (env r).
Definition set_gprs v := mkImach (kIdt r) (kHandlers r) (kStubTable r) (idtr r) (tss r) v (rsp r) (rip r) (cs r) (rflags r) (ss r) (cr2 r) (stack r) (i_ports r) (env r).
Definition set_rsp v := mkImach (kIdt r) (kHandlers r) (kStubTable r) (idtr r) (tss r) (gprs r) v (rip r) (cs r) (rflags r) (ss r) (cr2 r) (stack r) (i_ports r) (env r).
Definition set_flow rip' cs' rflags' ss' := mkImach (kIdt r) (kHandlers r) (kStubTable r) (idtr r) (tss r) (gprs r) (rsp r) rip' cs' rflags' ss' (cr2 r) (stack r) (i_ports r) (env r).
Definition set_stack v := mkImach (kIdt r) (kHandlers r) (kStubTable r) (idtr r) (tss r) (gprs r) (rsp r) (rip r) (cs r) (rflags r) (ss r) (cr2 r) v (i_ports r) (env r).
Definition set_i_ports v := mkImach (kIdt r) (kHandlers r) (kStubTable r) (idtr r) (tss r) (gprs r) (rsp r) (rip r) (cs r) (rflags r) (ss r) (cr2 r) (stack r) v (env r).
Definition set_env (v : X) := mkImach (kIdt r) (kHandlers r) (kStubTable r) (idtr r) (tss r) (gprs r) (rsp r) (rip r) (cs r) (rflags r) (ss r) (cr2 r) (stack r) (i_ports r) v.
End setters.

#[export] Program Instance imach_ports X : HasPorts (imach X) :=
  {| ports := i_ports; set_ports := λ tr s, set_i_ports s tr |}.
Next Obligation. done. Qed.
Next Obligation. done. Qed.
Next Obligation. by intros X []. Qed.

(** The words of an [InterruptFrame] at [frame], in the order of the struct. *)
Inductive field :=
  | F_gpr (r : gpr) | F_vector | F_error_code | F_rip | F_cs | F_rflags | F_rsp | F_ss.
Definition frame_index (f : field) : Z :=
  match f with
  | F_gpr R15 => 0 | F_gpr R14 => 1 | F_gpr R13 => 2 | F_gpr R12 => 3 | F_gpr R11 => 4 | F_gpr R10 => 5 | F_gpr R9 => 6 | F_gpr R8 => 7
  | F_gpr RBP => 8 | F_gpr RDI => 9 | F_gpr RSI => 10 | F_gpr RDX => 11 | F_gpr RCX => 12 | F_gpr RBX => 13 | F_gpr RAX => 14
  | F_vector => 15 | F_error_code => 16 | F_rip => 17 | F_cs => 18 | F_rflags => 19 | F_rsp => 20 | F_ss => 21
  end.
Definition frame_field (st : Z → Z) (frame : Z) (f : field) : Z := st (frame + 8 * frame_index f).

(** The bytes of a string literal. *)
Definition chars (s : string) : list Z := Z.of_N ∘ Ascii.N_of_ascii <$> String.list_ascii_of_string s.
Definition nl : list Z := [10].

Definition kExceptionNames : list string :=
  ["#DE Divide Error"; "#DB Debug"; "NMI"; "#BP Breakpoint"; "#OF Overflow"; "#BR Bound Range Exceeded";
   "#UD Invalid Opcode"; "#NM Device Not Available"; "#DF Double Fault"; "Coprocessor Segment Overrun"; "#TS Invalid TSS";
   "#NP Segment Not Present"; "#SS Stack Fault"; "#GP General Protection"; "#PF Page Fault"; "Reserved (15)";
   "#MF x87 FPU Error"; "#AC Alignment Check"; "#MC Machine Check"; "#XM SIMD FP Exception"; "#VE Virtualization Exception";
   "#CP Control Protection"; "Reserved (22)"; "Reserved (23)"; "Reserved (24)"; "Reserved (25)"; "Reserved (26)"; "Reserved (27)";
   "#HV Hypervisor Injection"; "#VC VMM Communication"; "#SX Security Exception"; "Reserved (31)"]%string.

Section interrupts.
Context {X : Type} (hw : hardware) (fuel : nat) (idt_addr : Z) (stub_addr : Z → Z) (common_ra : Z).
Context (page_fault_handler : Z → M (imach X) ()) (registered_handler : Z → Z → M (imach X) ()).
(** What the compiled dispatcher leaves in the registers and below the stack pointer. *)
Context (c_regs : (gpr → Z) → gpr → Z) (c_stack : Z → Z).
Local Abbreviation W := (M (imach X)).

(** ** Stub table and gates *)

Definition isr_stub_table_init : W () := modify (λ s, set_kStubTable s (stub_addr <$> seqZ 0 256)).
Definition isr_get_stub_table : W (list Z) := gets kStubTable.

Definition gate (handler_addr type ist_index : Z) : IdtEntry :=
  mkIdtEntry (u16 (Z.land handler_addr 0xFFFF)) KERNEL_CS (Z.land ist_index 0x07) type
    (u16 (Z.land (Z.shiftr handler_addr 16) 0xFFFF)) (u32 (Z.land (Z.shiftr handler_addr 32) 0xFFFFFFFF)) 0.

Definition idt_set_gate (vector handler_addr type ist_index : Z) : W () :=
  s ← get;
  if vector <? Z.of_nat (length (kIdt s)) then
    modify (λ s, set_kIdt s (<[Z.to_nat vector := gate handler_addr type ist_index]> (kIdt s)))
  else undefined.

Definition idt_set_handler (vector : Z) (handler : option ExceptionHandler) : W () :=
  s ← get;
  if vector <? Z.of_nat (length (kHandlers s)) then
    modify (λ s, set_kHandlers s (<[Z.to_nat vector := handler]> (kHandlers s)))
  else undefined.

Definition idt_init : W () :=
  isr_stub_table_init;;
  stubs ← isr_get_stub_table;
  for_each (seqZ 0 IDT_ENTRIES) (λ i,
    a ← deref (stubs !! Z.to_nat i);
    idt_set_gate (u8 i) a GATE_INTERRUPT 0);;
  df ← deref (stubs !! Z.to_nat VEC_DOUBLE_FAULT);
  idt_set_gate VEC_DOUBLE_FAULT df GATE_INTERRUPT 1;;
  idt_set_handler VEC_DOUBLE_FAULT (Some double_fault);;
  idt_set_handler VEC_GENERAL_PROTECT (Some gp_fault);;
  idt_set_handler VEC_PAGE_FAULT (Some page_fault);;
  bp ← deref (stubs !! Z.to_nat VEC_BREAKPOINT);
  idt_set_gate VEC_BREAKPOINT bp GATE_TRAP 0;;
  s ← get;
  modify (λ s', set_idtr s' (mkIdtr (u16 (sizeof_IdtEntry * Z.of_nat (length (kIdt s)) - 1)) idt_addr)).

(** ** Handlers *)

Definition write (bytes : list Z) : W () := serial_write hw fuel (Some bytes).
Definition read_field (frame : Z) (f : field) : W Z := gets (λ s, frame_field (stack s) frame f).

Definition default_exception_handler (frame : Z) : W () :=
  write (nl ++ chars "[EXCEPTION] Unhandled vector: ");;
  v ← read_field frame F_vector;
  serial_write_dec hw fuel v;;
  write nl;;
  when (v <? 32) (
    write (chars "[EXCEPTION] ");;
    name ← deref (kExceptionNames !! Z.to_nat v);
    write (chars name);;
    write nl);;
  write (chars "[EXCEPTION] RIP = ");;
  a ← read_field frame F_rip;
  serial_write_hex hw fuel a;;
  write (nl ++ chars "[EXCEPTION] Error code = ");;
  e ← read_field frame F_error_code;
  serial_write_hex hw fuel e;;
  write nl;;
  if negb (v =? VEC_BREAKPOINT) then panic "Unhandled CPU exception" else mret ().

Definition gp_fault_handler (frame : Z) : W () :=
  write (nl ++ chars "[#GP] General Protection Fault" ++ nl);;
  write (chars "[#GP] RIP  = ");;
  a ← read_field frame F_rip;
  serial_write_hex hw fuel a;;
  write (nl ++ chars "[#GP] Error = ");;
  e ← read_field frame F_error_code;
  serial_write_hex hw fuel e;;
  write nl;;
  when (negb (e =? 0)) (
    write (chars "[#GP] Selector index = ");;
    serial_write_hex hw fuel (Z.land (Z.shiftr e 3) 0x1FFF);;
    write nl);;
  panic "General protection fault".

Definition double_fault_handler (frame : Z) : W () :=
  write nl;;
  panic "Double fault (#DF) — unrecoverable".

Definition call_handler (h : ExceptionHandler) (frame : Z) : W () :=
  match h with
  | double_fault => double_fault_handler frame
  | gp_fault => gp_fault_handler frame
  | page_fault => page_fault_handler frame
  | registered f => registered_handler f frame
  end.

Definition isr_dispatch (frame : Z) : W () :=
  v ← read_field frame F_vector;
  let vec := u8 v in
  s ← get;
  h ← deref (kHandlers s !! Z.to_nat vec);
  match h with
  | Some handler => call_handler handler frame
  | None => default_exception_handler frame
  end.

(** The page fault handler on the rest of the kernel's state: the fault address
    and the error code are all it takes from the machine. *)
Definition on_env {A} (m : M X A) : W A := λ s,
  match m (env s) with Ok (a, x) => Ok (a, set_env s x) | Panic msg => Panic msg | UB => UB end.
Definition pf_entry (pf : Z → Z → M X ()) (frame : Z) : W () :=
  c ← gets cr2;
  e ← read_field frame F_error_code;
  on_env (pf e c).

(** ** Assembly *)

Definition push (v : Z) : W () :=
  modify (λ s, set_stack (set_rsp s (rsp s -64 8)) (<[rsp s -64 8 := v]> (stack s))).
Definition pop : W Z :=
  s ← get; modify (λ s, set_rsp s (rsp s +64 8));; mret (stack s (rsp s)).
Definition pushq (r : gpr) : W () := s ← get; push (gprs s r).
Definition popq (r : gpr) : W () := v ← pop; modify (λ s, set_gprs s (<[r := v]> (gprs s))).

(** [callq]: the return address is pushed, the callee runs and returns to it. *)
Definition callq (f : W ()) : W () := push common_ra;; f;; _ ← pop; mret ().

(** The effects of compiled code on what the calling convention leaves to it. *)
Definition compiled (f : W ()) : W () :=
  f;;
  modify (λ s, set_gprs (set_stack s (λ a, if a <? rsp s then c_stack a else stack s a)) (c_regs (gprs s))).

Definition iretq : W () :=
  rip' ← pop; cs' ← pop; rflags' ← pop; rsp' ← pop; ss' ← pop;
  modify (λ s, set_rsp (set_flow s rip' (u16 cs') rflags' (u16 ss')) rsp').

Definition save_gprs : W () :=
  pushq RAX;; pushq RBX;; pushq RCX;; pushq RDX;; pushq RSI;; pushq RDI;; pushq RBP;;
  pushq R8;; pushq R9;; pushq R10;; pushq R11;; pushq R12;; pushq R13;; pushq R14;; pushq R15.

Definition restore_gprs : W () :=
  popq R15;; popq R14;; popq R13;; popq R12;; popq R11;; popq R10;; popq R9;; popq R8;;
  popq RBP;; popq RDI;; popq RSI;; popq RDX;; popq RCX;; popq RBX;; popq RAX.

(** From [movq %rsp, %rdi] on. *)
Definition dispatch_and_return : W () :=
  modify (λ s, set_gprs s (<[RDI := rsp s]> (gprs s)));;
  s ← get;
  callq (compiled (isr_dispatch (gprs s RDI)));;
  restore_gprs;;
  modify (λ s, set_rsp s (rsp s +64 8));;
  iretq.

Definition isr_common_handler : W () := save_gprs;; dispatch_and_return.
Definition isr_stub (n : Z) : W () := push n;; isr_common_handler.

(** ** The processor *)

Definition gate_offset (e : IdtEntry) : Z := offset_lo e + Z.shiftl (offset_mid e) 16 + Z.shiftl (offset_hi e) 32.
Definition gate_present (e : IdtEntry) : bool := has_flag (type_attr e) 0x80.
Definition clears_if (e : IdtEntry) : bool := Z.land (type_attr e) 0x0F =? 0x0E.
Definition RFLAGS_IF : Z := 0x200.

Definition has_error_code (vec : Z) : bool := bool_decide (vec ∈ [8; 10; 11; 12; 13; 14; 17; 21; 29; 30]).

(** The stack a delivery starts from; the other task-state stacks are not set up. *)
Definition entry_stack (s : imach X) (e : IdtEntry) : option Z :=
  match ist e with
  | 0 => Some (if Z.land (cs s) 3 =? 0 then rsp s else rsp0 (tss s))
  | 1 => Some (ist1 (tss s))
  | 2 => Some (ist2 (tss s))
  | _ => None
  end.

Definition deliver (vec err : Z) : W () :=
  s ← get;
  e ← deref (kIdt s !! Z.to_nat vec);
  if negb (gate_present e) || (idt_limit (idtr s) <? sizeof_IdtEntry * vec + 15) then undefined
  else
    top ← deref (entry_stack s e);
    modify (λ s, set_rsp s (top - top mod 16));;
    push (ss s);; push (rsp s);; push (rflags s);; push (cs s);; push (rip s);;
    when (has_error_code vec) (push err);;
    modify (λ s', set_flow s' (gate_offset e) (selector e)
                    (if clears_if e then clear_flag 64 (rflags s) RFLAGS_IF else rflags s)
                    (if Z.land (cs s) 3 =? 0 then ss s else 0)).

(** The code at an address. *)
Definition exec_at (a : Z) : W () :=
  match list_find (λ n, stub_addr n = a) (seqZ 0 256) with
  | Some (_, n) => isr_stub n
  | None => undefined
  end.

(** An interrupt from its delivery to the return from it. *)
Definition interrupt (vec err : Z) : W () :=
  deliver vec err;;
  s ← get;
  exec_at (rip s).
End interrupts.

(** * Properties of interrupt delivery

    The gates [idt_init] writes, the frame a handler is given, and where the
    interrupted code goes on. *)

(** ** Gates *)

Definition boot_gate (stub_addr : Z → Z) (v : Z) : IdtEntry :=
  gate (stub_addr v) (if v =? VEC_BREAKPOINT then GATE_TRAP else GATE_INTERRUPT) (if v =? VEC_DOUBLE_FAULT then 1 else 0).

(** The stubs are distinct functions at 64-bit addresses. *)
Definition stubs_ok (stub_addr : Z → Z) : Prop :=
  (∀ v, 0 ≤ v < 256 → 0 ≤ stub_addr v < 2 ^ 64) ∧ ∀ v w, 0 ≤ v < 256 → 0 ≤ w < 256 → stub_addr v = stub_addr w → v = w.

Lemma gate_offset_gate a t i : 0 ≤ a < 2 ^ 64 → gate_offset (gate a t i) = a.
Proof.
  intros Ha. unfold gate_offset, gate. cbn [offset_lo offset_mid offset_hi].
  change 0xFFFF with (Z.ones 16). change 0xFFFFFFFF with (Z.ones 32). rewrite !wrap_field by lia.
  rewrite !Z.shiftl_mul_pow2, !Z.shiftr_div_pow2 by lia.
  assert (E1 : a mod 2 ^ 16 + 2 ^ 16 * ((a / 2 ^ 16) mod 2 ^ 16) = a mod 2 ^ 32) by (by apply (split_mod a 16 16)).
  assert (E2 : a mod 2 ^ 32 + 2 ^ 32 * ((a / 2 ^ 32) mod 2 ^ 32) = a mod 2 ^ 64) by (by apply (split_mod a 32 32)).
  rewrite (Z.mod_small a (2 ^ 64)) in E2 by lia. lia.
Qed.

(** The table as the processor needs it. *)
Definition idt_ready {X} (stub_addr : Z → Z) (s : imach X) : Prop :=
  (∀ v, 0 ≤ v < 256 → kIdt s !! Z.to_nat v = Some (boot_gate stub_addr v)) ∧ length (kIdt s) = 256%nat ∧
  idt_limit (idtr s) = 4095 ∧ length (kHandlers s) = 256%nat.

Section init.
Context {X : Type} (idt_addr : Z) (stub_addr : Z → Z).
Implicit Types s : imach X.

Lemma idt_set_gate_wp v a t i s (Q : () → imach X → Prop) : v < Z.of_nat (length (kIdt s)) →
  Q () (set_kIdt s (<[Z.to_nat v := gate a t i]> (kIdt s))) → wp (idt_set_gate v a t i) Q s.
Proof. intros Hv HQ. unfold idt_set_gate. wp_run. rewrite (proj2 (Z.ltb_lt _ _)) by done. by wp_run. Qed.

Lemma idt_set_handler_wp v h s (Q : () → imach X → Prop) : v < Z.of_nat (length (kHandlers s)) →
  Q () (set_kHandlers s (<[Z.to_nat v := h]> (kHandlers s))) → wp (idt_set_handler v h) Q s.
Proof. intros Hv HQ. unfold idt_set_handler. wp_run. rewrite (proj2 (Z.ltb_lt _ _)) by done. by wp_run. Qed.

(** The loop over all vectors. *)
Definition gates_below (s0 : imach X) (n : Z) s : Prop :=
  s = set_kIdt s0 (kIdt s) ∧ length (kIdt s) = 256%nat ∧
  ∀ v, 0 ≤ v < n → kIdt s !! Z.to_nat v = Some (gate (stub_addr v) GATE_INTERRUPT 0).

Lemma stub_lookup v : 0 ≤ v < 256 → (stub_addr <$> seqZ 0 256) !! Z.to_nat v = Some (stub_addr v).
Proof. intros Hv. rewrite list_lookup_fmap, lookup_seqZ_lt by lia. simpl. f_equal. f_equal. lia. Qed.

Lemma gates_loop_wp s : length (kIdt s) = 256%nat →
  wp (for_each (seqZ 0 256) (λ i, a ← deref ((stub_addr <$> seqZ 0 256) !! Z.to_nat i); idt_set_gate (u8 i) a GATE_INTERRUPT 0))
    (λ _, gates_below s 256) s.
Proof.
  intros Hl. apply (for_each_wp (gates_below s) 0 256); [done|split_and!; [by destruct s|done|lia]|].
  intros i s' Hi (Es & Hl' & Hb). rewrite stub_lookup by lia. wp_run. rewrite wrap_small by lia.
  apply idt_set_gate_wp; [lia|]. cbn [kIdt set_kIdt]. split_and!; [by rewrite Es|cbn [kIdt set_kIdt]; by rewrite length_insert|].
  intros v Hv. cbn [kIdt set_kIdt]. destruct (decide (v = i)) as [->|Hne]; [by rewrite list_lookup_insert_eq by lia|].
  rewrite list_lookup_insert_ne by lia. apply Hb. lia.
Qed.

Definition boot_handlers (hs : list (option ExceptionHandler)) : list (option ExceptionHandler) :=
  <[14%nat := Some page_fault]> (<[13%nat := Some gp_fault]> (<[8%nat := Some double_fault]> hs)).

Lemma idt_init_wp s : length (kIdt s) = 256%nat → length (kHandlers s) = 256%nat →
  wp (idt_init idt_addr stub_addr) (λ _ s', idt_ready stub_addr s' ∧ idt_base (idtr s') = idt_addr ∧
    kHandlers s' = boot_handlers (kHandlers s) ∧ env s' = env s ∧ stack s' = stack s ∧ rsp s' = rsp s ∧ tss s' = tss s) s.
Proof.
  intros Hl Hh. unfold idt_init, isr_stub_table_init, isr_get_stub_table. wp_run. cbn [kStubTable set_kStubTable].
  eapply wp_mono; [by apply gates_loop_wp|]. intros [] s1 (Es & Hl1 & Hb). cbn beta.
  assert (Hk1 : kHandlers s1 = kHandlers s) by (by rewrite Es). rewrite (stub_lookup VEC_DOUBLE_FAULT), (stub_lookup VEC_BREAKPOINT) by done.
  wp_run. apply idt_set_gate_wp; [rewrite Hl1; done|]. wp_run.
  do 3 (apply idt_set_handler_wp; [cbn [kHandlers set_kIdt set_kHandlers]; rewrite ?length_insert, Hk1, Hh; done|]; wp_run).
  cbn [kHandlers set_kIdt set_kHandlers kIdt].
  apply idt_set_gate_wp; [cbn [kIdt set_kHandlers set_kIdt]; rewrite length_insert, Hl1; done|]. wp_run.
  cbn [kIdt set_kHandlers set_kIdt set_idtr idtr idt_limit idt_base kHandlers env stack rsp tss].
  unfold idt_ready. cbn [kIdt set_kHandlers set_kIdt set_idtr idtr idt_limit idt_base kHandlers env stack rsp tss]. rewrite Hk1.
  split_and!; rewrite ?length_insert, ?Hl1, ?Hh; try done; try (rewrite Es; done).
  intros v Hv. unfold boot_gate. change (Z.to_nat VEC_BREAKPOINT) with 3%nat. change (Z.to_nat VEC_DOUBLE_FAULT) with 8%nat.
  destruct (Z.eqb_spec v VEC_BREAKPOINT) as [->|H3]; [change (Z.to_nat VEC_BREAKPOINT) with 3%nat; rewrite list_lookup_insert_eq by (rewrite length_insert; lia); done|].
  unfold VEC_BREAKPOINT in H3. rewrite list_lookup_insert_ne by lia.
  destruct (Z.eqb_spec v VEC_DOUBLE_FAULT) as [->|H8]; [change (Z.to_nat VEC_DOUBLE_FAULT) with 8%nat; by rewrite list_lookup_insert_eq by lia|].
  unfold VEC_DOUBLE_FAULT in H8. rewrite list_lookup_insert_ne by lia. by apply Hb.
Qed.
End init.

(** ** The stack *)

Fixpoint push_words (r : Z) (vs : list Z) (st : Z → Z) : Z → Z :=
  match vs with
  | [] => st
  | v :: vs => push_words (r - 8) vs (<[r - 8 := v]> st)
  end.

Lemma push_words_app r vs ws st : push_words r (vs ++ ws) st = push_words (r - 8 * Z.of_nat (length vs)) ws (push_words r vs st).
Proof.
  revert r st. induction vs as [|v vs IH]; intros r st; cbn [push_words app length]; [f_equal; lia|].
  rewrite IH. f_equal. lia.
Qed.

Lemma push_words_above r vs st a : r ≤ a → push_words r vs st a = st a.
Proof.
  revert r st. induction vs as [|v vs IH]; intros r st Ha; cbn [push_words]; [done|].
  rewrite IH, fn_lookup_insert_ne by lia. done.
Qed.

(** Read from the last word pushed upwards. *)
Lemma push_words_lookup r vs st k v : reverse vs !! k = Some v →
  push_words r vs st (r - 8 * Z.of_nat (length vs) + 8 * Z.of_nat k) = v.
Proof.
  revert r st k. induction vs as [|w vs IH]; intros r st k Hk; [done|]. rewrite reverse_cons in Hk. cbn [push_words length].
  apply lookup_snoc_Some in Hk as [[Hlt Hk]|[Hlen Hk]].
  - rewrite <-(IH (r - 8) (<[r - 8 := w]> st) k Hk) at 1. f_equal. lia.
  - subst w. rewrite length_reverse in Hlen. rewrite push_words_above by lia. replace (_ + _) with (r - 8) by lia. by rewrite fn_lookup_insert.
Qed.

(** ** Entry *)

Definition pushed_gprs : list gpr := [RAX; RBX; RCX; RDX; RSI; RDI; RBP; R8; R9; R10; R11; R12; R13; R14; R15].

(** The words of a delivery, in the order they are pushed: those of the
    processor, then those of the stub. *)
Definition cpu_words {X} (s : imach X) (vec err : Z) : list Z :=
  [ss s; rsp s; rflags s; cs s; rip s] ++ (if has_error_code vec then [err] else []).
Definition entry_words {X} (s : imach X) (vec err : Z) : list Z :=
  cpu_words s vec err ++ [vec] ++ (gprs s <$> pushed_gprs).

Definition aligned_top (top : Z) : Z := top - top mod 16.
(** The address of the frame. *)
Definition frame_at (top vec : Z) : Z := aligned_top top - (if has_error_code vec then 176 else 168).

(** The stack of a delivery that does not change privilege or stack. *)
Definition same_stack {X} (s : imach X) (vec : Z) : Prop := vec ≠ VEC_DOUBLE_FAULT ∧ Z.land (cs s) 3 = 0.

Section entry.
Context {X : Type} (stub_addr : Z → Z) (ra : Z).
Implicit Types s : imach X.

Lemma push_wp v s (Q : () → imach X → Prop) : 8 ≤ rsp s < 2 ^ 64 →
  Q () (set_stack (set_rsp s (rsp s - 8)) (<[rsp s - 8 := v]> (stack s))) → wp (push v) Q s.
Proof. intros Hr HQ. unfold push. wp_run. by rewrite wrap_small by lia. Qed.

Lemma pop_wp s (Q : Z → imach X → Prop) : 0 ≤ rsp s < 2 ^ 64 - 8 → Q (stack s (rsp s)) (set_rsp s (rsp s + 8)) → wp pop Q s.
Proof. intros Hr HQ. unfold pop. wp_run. cbn beta. by rewrite wrap_small by lia. Qed.

(** The state after the words [vs] were pushed from [r] on. *)
Definition pushed (r : Z) (vs : list Z) s : imach X :=
  set_stack (set_rsp s (r - 8 * Z.of_nat (length vs))) (push_words r vs (stack s)).

Lemma push_pushed_wp v r vs s (Q : () → imach X → Prop) : 8 * Z.of_nat (length vs) + 8 ≤ r < 2 ^ 64 →
  Q () (pushed r (vs ++ [v]) s) → wp (push v) Q (pushed r vs s).
Proof.
  intros Hr HQ. apply push_wp; [cbn [rsp set_stack set_rsp pushed]; lia|]. unfold pushed in *.
  rewrite length_app, push_words_app in HQ. cbn [length push_words] in HQ. cbn [stack set_rsp set_stack rsp].
  replace (r - 8 * Z.of_nat (length vs) - 8) with (r - 8 * Z.of_nat (length vs + 1)) in * by lia. exact HQ.
Qed.

Lemma save_gprs_wp r vs s (Q : () → imach X → Prop) : 8 * Z.of_nat (length vs) + 120 ≤ r < 2 ^ 64 →
  Q () (pushed r (vs ++ (gprs s <$> pushed_gprs)) s) → wp save_gprs Q (pushed r vs s).
Proof.
  intros Hr HQ. unfold save_gprs, pushq. cbn [pushed_gprs fmap list_fmap] in HQ.
  do 15 (wp_run; apply push_pushed_wp; [rewrite ?length_app; simpl; lia|]; cbn [gprs pushed set_stack set_rsp]).
  rewrite <-!app_assoc. exact HQ.
Qed.

(** The state in which a stub is entered. *)
Definition delivered (top vec err : Z) s : imach X :=
  let e := boot_gate stub_addr vec in
  pushed (aligned_top top) (cpu_words s vec err)
    (set_flow s (stub_addr vec) KERNEL_CS (if clears_if e then clear_flag 64 (rflags s) RFLAGS_IF else rflags s)
       (if Z.land (cs s) 3 =? 0 then ss s else 0)).

Definition stack_room (top : Z) : Prop := 256 ≤ top < 2 ^ 64.

Lemma deliver_wp vec err top s (Q : () → imach X → Prop) :
  idt_ready stub_addr s → stubs_ok stub_addr → 0 ≤ vec < 256 → entry_stack s (boot_gate stub_addr vec) = Some top → stack_room top →
  Q () (delivered top vec err s) → wp (deliver vec err) Q s.
Proof.
  intros (Hg & _ & Hlim & _) [Hs _] Hv Ht Hr HQ. unfold deliver, stack_room in *. do 2 wp_step. apply wp_bind. rewrite Hg by done. wp_step.
  rewrite Hlim, (proj2 (Z.ltb_ge _ _)) by (unfold sizeof_IdtEntry; lia).
  assert (Hp : gate_present (boot_gate stub_addr vec) = true) by (unfold boot_gate; by case_if). rewrite Hp. cbn [negb orb]. rewrite Ht. wp_run.
  pose proof (Z.mod_pos_bound top 16 ltac:(lia)) as Hb. fold (aligned_top top) in *.
  assert (E : set_rsp s (aligned_top top) = pushed (aligned_top top) [] s).
  { unfold pushed. cbn [length push_words]. rewrite Z.mul_0_r, Z.sub_0_r. by destruct s. }
  fold (aligned_top top). rewrite E. unfold aligned_top in *.
  do 5 (wp_run; apply push_pushed_wp; [rewrite ?length_app; simpl; lia|]). cbn [app]. unfold delivered, cpu_words, aligned_top in HQ.
  assert (Ho : gate_offset (boot_gate stub_addr vec) = stub_addr vec) by (apply gate_offset_gate, Hs; lia).
  wp_run. unfold has_error_code in *. case_bool_decide as He.
  - apply push_pushed_wp; [simpl; lia|]. wp_run. rewrite Ho. exact HQ.
  - wp_run. rewrite Ho. exact HQ.
Qed.
End entry.

(** ** Return *)

Section return_.
Context {X : Type} (hw : hardware) (fuel : nat) (stub_addr : Z → Z) (ra : Z).
Context (pfh : Z → M (imach X) ()) (regh : Z → Z → M (imach X) ()) (c_regs : (gpr → Z) → gpr → Z) (c_stack : Z → Z).
Implicit Types s : imach X.
Local Abbreviation dispatch := (isr_dispatch hw fuel pfh regh).
Local Abbreviation dar := (dispatch_and_return hw fuel ra pfh regh c_regs c_stack).

(** The state in which the dispatcher runs, called with the frame at [f]. *)
Definition called (f : Z) s : imach X :=
  set_stack (set_rsp (set_gprs s (<[RDI := f]> (gprs s))) (f - 8)) (<[f - 8 := ra]> (stack s)).

(** What is left when the dispatcher has returned in [s2] and the handler's
    epilogue has run: every register is what the frame of [s1] holds, and the
    processor's part is taken from the words above the vector. *)
Definition resumed (f : Z) (s1 s2 s3 : imach X) : Prop :=
  (∀ r, gprs s3 r = frame_field (stack s1) f (F_gpr r)) ∧
  rip s3 = frame_field (stack s1) f F_error_code ∧ cs s3 = u16 (frame_field (stack s1) f F_rip) ∧
  rflags s3 = frame_field (stack s1) f F_cs ∧ rsp s3 = frame_field (stack s1) f F_rflags ∧
  ss s3 = u16 (frame_field (stack s1) f F_rsp) ∧
  env s3 = env s2 ∧ i_ports s3 = i_ports s2 ∧ kIdt s3 = kIdt s2 ∧ kHandlers s3 = kHandlers s2 ∧ idtr s3 = idtr s2 ∧ tss s3 = tss s2 ∧
  ∀ a, f ≤ a → stack s3 a = stack s1 a.

(** Compiled code returns with the stack pointer it was called with and the
    caller's part of the stack untouched. *)
Definition kept (f : Z) (s1 s2 : imach X) : Prop := rsp s2 = f - 8 ∧ ∀ a, f ≤ a → stack s2 a = stack s1 a.

Lemma popq_wp r s (Q : () → imach X → Prop) : 0 ≤ rsp s < 2 ^ 64 - 8 →
  Q () (set_gprs (set_rsp s (rsp s + 8)) (<[r := stack s (rsp s)]> (gprs s))) → wp (popq r) Q s.
Proof. intros Hr HQ. unfold popq. wp_run. apply pop_wp; [done|]. by wp_run. Qed.

Lemma restore_gprs_wp s (Q : () → imach X → Prop) : 0 ≤ rsp s < 2 ^ 64 - 120 →
  (∀ g, (∀ r, g r = frame_field (stack s) (rsp s) (F_gpr r)) → Q () (set_gprs (set_rsp s (rsp s + 120)) g)) → wp restore_gprs Q s.
Proof.
  intros Hr HQ. unfold restore_gprs.
  do 15 (wp_run; apply popq_wp; [cbn [rsp set_gprs set_rsp]; lia|]; cbn [rsp set_gprs set_rsp stack gprs]).
  rewrite <-!Z.add_assoc. cbn [Z.add Pos.add Pos.succ]. apply HQ. intros r. unfold frame_field.
  destruct r; cbn [frame_index]; repeat (rewrite fn_lookup_insert || rewrite fn_lookup_insert_ne by done); f_equal; lia.
Qed.

Lemma iretq_wp s (Q : () → imach X → Prop) : 0 ≤ rsp s < 2 ^ 64 - 40 →
  (let w k := stack s (rsp s + 8 * k) in Q () (set_rsp (set_flow s (w 0) (u16 (w 1)) (w 2) (u16 (w 4))) (w 3))) → wp iretq Q s.
Proof.
  intros Hr HQ. unfold iretq.
  do 5 (wp_run; apply pop_wp; [cbn [rsp set_rsp]; lia|]; cbn [rsp set_rsp stack]). wp_run.
  rewrite <-!Z.add_assoc. cbn [Z.add Pos.add Pos.succ]. cbn beta zeta in HQ. rewrite Z.mul_0_r, Z.add_0_r in HQ. exact HQ.
Qed.

Lemma dispatch_and_return_wp f s1 (P : imach X → Prop) (Q : () → imach X → Prop) :
  rsp s1 = f → 8 ≤ f < 2 ^ 64 - 176 →
  wp (dispatch f) (λ _ s2, kept f s1 s2 ∧ P s2) (called f s1) →
  (∀ s2 s3, P s2 → resumed f s1 s2 s3 → Q () s3) → wp dar Q s1.
Proof.
  intros Hf Hr Hd HQ. unfold dispatch_and_return, callq, compiled. wp_run. cbn [gprs set_gprs rsp].
  rewrite fn_lookup_insert, Hf. apply push_wp; [cbn [rsp set_gprs]; lia|]. wp_run. cbn [rsp set_gprs stack]. rewrite Hf.
  eapply wp_mono; [exact Hd|]. intros [] s2 [[Hk Hst] HP]. cbn beta. wp_run.
  apply pop_wp; [cbn [rsp set_gprs set_stack]; lia|]. wp_run. cbn [rsp set_gprs set_stack set_rsp stack]. rewrite Hk.
  apply restore_gprs_wp; [cbn [rsp set_gprs set_stack set_rsp]; lia|]. intros g Hg. wp_run. cbn [rsp set_gprs set_stack set_rsp stack] in *.
  rewrite wrap_small by lia. apply iretq_wp; [cbn [rsp set_gprs set_stack set_rsp]; lia|]. cbn beta zeta. cbn [rsp set_gprs set_stack set_rsp stack].
  assert (Hword : ∀ k, 0 ≤ k → (if f - 8 + 8 + 8 * k <? f - 8 then c_stack (f - 8 + 8 + 8 * k) else stack s2 (f - 8 + 8 + 8 * k)) = stack s1 (f + 8 * k)).
  { intros k Hk0. rewrite (proj2 (Z.ltb_ge _ _)) by lia. rewrite Hst by lia. f_equal. lia. }
  apply (HQ s2); [done|]. unfold resumed. cbn [gprs rip cs rflags rsp ss env i_ports kIdt kHandlers idtr tss stack set_rsp set_flow set_gprs set_stack].
  unfold frame_field in *. cbn [frame_index] in *.
  split_and!; try done.
  - intros r. rewrite Hg. apply Hword. by destruct r.
  - rewrite <-(Hword 16) by lia. by replace (f - 8 + 8 + 120 + 8 + 8 * 0) with (f - 8 + 8 + 8 * 16) by lia.
  - rewrite <-(Hword 17) by lia. by replace (f - 8 + 8 + 120 + 8 + 8 * 1) with (f - 8 + 8 + 8 * 17) by lia.
  - rewrite <-(Hword 18) by lia. by replace (f - 8 + 8 + 120 + 8 + 8 * 2) with (f - 8 + 8 + 8 * 18) by lia.
  - rewrite <-(Hword 19) by lia. by replace (f - 8 + 8 + 120 + 8 + 8 * 3) with (f - 8 + 8 + 8 * 19) by lia.
  - rewrite <-(Hword 20) by lia. by replace (f - 8 + 8 + 120 + 8 + 8 * 4) with (f - 8 + 8 + 8 * 20) by lia.
  - intros a Ha. rewrite (proj2 (Z.ltb_ge _ _)) by lia. by apply Hst.
Qed.
End return_.

(** ** A whole interrupt *)

Section whole.
Context {X : Type} (hw : hardware) (fuel : nat) (stub_addr : Z → Z) (ra : Z).
Context (pfh : Z → M (imach X) ()) (regh : Z → Z → M (imach X) ()) (c_regs : (gpr → Z) → gpr → Z) (c_stack : Z → Z).
Context (Hstubs : stubs_ok stub_addr).
Implicit Types s : imach X.
Local Abbreviation dispatch := (isr_dispatch hw fuel pfh regh).
Local Abbreviation dar := (dispatch_and_return hw fuel ra pfh regh c_regs c_stack).
Local Abbreviation interrupt := (interrupt hw fuel stub_addr ra pfh regh c_regs c_stack).

Lemma exec_at_stub v : 0 ≤ v < 256 →
  exec_at hw fuel stub_addr ra pfh regh c_regs c_stack (stub_addr v) = isr_stub hw fuel ra pfh regh c_regs c_stack v.
Proof using Hstubs.
  intros Hv. unfold exec_at. destruct Hstubs as [_ Hinj].
  destruct (list_find _ (seqZ 0 256)) as [[i n]|] eqn:E.
  - apply list_find_Some in E as (Hi & Hn & _). apply lookup_seqZ in Hi as [-> Hi].
    rewrite (Hinj (0 + Z.of_nat i) v); [reflexivity|lia|lia|exact Hn].
  - apply list_find_None in E. rewrite Forall_forall in E. exfalso. apply (E v); [apply elem_of_seqZ; lia|done].
Qed.

(** The state in which the frame is complete. *)
Definition entered (top vec err : Z) s : imach X :=
  let d := delivered stub_addr top vec err s in
  pushed (aligned_top top) (entry_words s vec err) (set_flow s (rip d) (cs d) (rflags d) (ss d)).

Lemma interrupt_eq vec err top s :
  idt_ready stub_addr s → 0 ≤ vec < 256 → entry_stack s (boot_gate stub_addr vec) = Some top → stack_room top →
  interrupt vec err s = dar (entered top vec err s).
Proof using Hstubs.
  intros Hi Hv Ht Hr. unfold Interrupts.interrupt.
  destruct (proj1 (wp_ok _ _ _) (deliver_wp stub_addr vec err top s (λ _ s', s' = delivered stub_addr top vec err s) Hi Hstubs Hv Ht Hr eq_refl))
    as ([] & s1 & E1 & ->).
  rewrite (bind_ok _ _ _ _ _ E1). unfold mbind at 1, M_bind at 1, get. change (rip (delivered stub_addr top vec err s)) with (stub_addr vec).
  rewrite exec_at_stub by done. unfold isr_stub, isr_common_handler. unfold stack_room in Hr.
  pose proof (Z.mod_pos_bound top 16 ltac:(lia)) as Hb.
  assert (Hw : wp (push vec;; save_gprs) (λ _ s', s' = entered top vec err s) (delivered stub_addr top vec err s)).
  { unfold delivered. wp_run. assert (Hl : (length (cpu_words s vec err) ≤ 6)%nat) by (unfold cpu_words; case_match; simpl; lia).
    apply push_pushed_wp; [unfold aligned_top; lia|]. apply save_gprs_wp; [rewrite length_app; unfold aligned_top; cbn [length]; lia|].
    unfold entered, entry_words. cbn [gprs set_flow delivered pushed set_stack set_rsp rip cs rflags ss]. by rewrite <-app_assoc. }
  destruct (proj1 (wp_ok _ _ _) Hw) as ([] & s2 & E2 & ->). revert E2. unfold mbind, M_bind.
  destruct (push vec (delivered stub_addr top vec err s)) as [[[] s3]| |]; [|done..].
  by destruct (save_gprs s3) as [[[] s4]| |]; [intros [= ->]|..].
Qed.

Lemma entered_rsp top vec err s : rsp (entered top vec err s) = frame_at top vec.
Proof.
  unfold entered, frame_at. cbn [rsp set_stack set_rsp pushed]. unfold entry_words, cpu_words. rewrite !length_app, length_fmap.
  destruct (has_error_code vec); simpl; lia.
Qed.

Lemma entered_word top vec err s k v : reverse (entry_words s vec err) !! k = Some v →
  stack (entered top vec err s) (frame_at top vec + 8 * Z.of_nat k) = v.
Proof.
  intros Hk. rewrite <-(entered_rsp top vec err s). unfold entered. cbn [rsp set_stack set_rsp pushed stack set_flow].
  by apply push_words_lookup.
Qed.

(** The words a handler finds in the fields of the frame. *)
Definition frame_ok (f : Z) (vec err : Z) (s s1 : imach X) : Prop :=
  let get := frame_field (stack s1) f in
  (∀ r, get (F_gpr r) = gprs s r) ∧ get F_vector = vec ∧
  if has_error_code vec then
    get F_error_code = err ∧ get F_rip = rip s ∧ get F_cs = cs s ∧ get F_rflags = rflags s ∧ get F_rsp = rsp s ∧ get F_ss = ss s
  else
    get F_error_code = rip s ∧ get F_rip = cs s ∧ get F_cs = rflags s ∧ get F_rflags = rsp s ∧ get F_rsp = ss s.

Lemma entered_frame top vec err s : frame_ok (frame_at top vec) vec err s (entered top vec err s).
Proof.
  unfold frame_ok, frame_field. cbn zeta. pose proof (λ k v, entered_word top vec err s k v) as Hw.
  unfold entry_words, cpu_words in Hw. split_and!.
  - intros r. destruct (has_error_code vec); destruct r; [apply (Hw 14%nat)|apply (Hw 13%nat)|apply (Hw 12%nat)|apply (Hw 11%nat)|apply (Hw 10%nat)|
      apply (Hw 9%nat)|apply (Hw 8%nat)|apply (Hw 7%nat)|apply (Hw 6%nat)|apply (Hw 5%nat)|apply (Hw 4%nat)|apply (Hw 3%nat)|apply (Hw 2%nat)|apply (Hw 1%nat)|apply (Hw 0%nat)|
      apply (Hw 14%nat)|apply (Hw 13%nat)|apply (Hw 12%nat)|apply (Hw 11%nat)|apply (Hw 10%nat)|
      apply (Hw 9%nat)|apply (Hw 8%nat)|apply (Hw 7%nat)|apply (Hw 6%nat)|apply (Hw 5%nat)|apply (Hw 4%nat)|apply (Hw 3%nat)|apply (Hw 2%nat)|apply (Hw 1%nat)|apply (Hw 0%nat)]; reflexivity.
  - destruct (has_error_code vec); apply (Hw 15%nat); reflexivity.
  - destruct (has_error_code vec); split_and!;
      [apply (Hw 16%nat)|apply (Hw 17%nat)|apply (Hw 18%nat)|apply (Hw 19%nat)|apply (Hw 20%nat)|apply (Hw 21%nat)|
       apply (Hw 16%nat)|apply (Hw 17%nat)|apply (Hw 18%nat)|apply (Hw 19%nat)|apply (Hw 20%nat)]; reflexivity.
Qed.

(** A handler that returns, and what then comes back. *)
Lemma interrupt_wp vec err top s (P : imach X → Prop) (Q : () → imach X → Prop) :
  idt_ready stub_addr s → 0 ≤ vec < 256 → entry_stack s (boot_gate stub_addr vec) = Some top → stack_room top →
  (let f := frame_at top vec in wp (dispatch f) (λ _ s2, kept f (entered top vec err s) s2 ∧ P s2) (called ra f (entered top vec err s))) →
  (∀ s2 s3, P s2 → resumed (frame_at top vec) (entered top vec err s) s2 s3 → Q () s3) →
  wp (interrupt vec err) Q s.
Proof using Hstubs.
  intros Hi Hv Ht Hr Hd HQ. unfold wp. rewrite (interrupt_eq vec err top) by done.
  unfold stack_room in Hr. pose proof (Z.mod_pos_bound top 16 ltac:(lia)) as Hb.
  eapply (dispatch_and_return_wp hw fuel ra pfh regh c_regs c_stack (frame_at top vec)); [apply entered_rsp| |exact Hd|exact HQ].
  pose proof (Z.div_mod top 16 ltac:(lia)). unfold frame_at, aligned_top. destruct (has_error_code vec); lia.
Qed.
End whole.

(** ** Dispatch *)

Section dispatch.
Context {X : Type} (hw : hardware) (fuel : nat) (stub_addr : Z → Z) (ra : Z).
Context (pfh : Z → M (imach X) ()) (regh : Z → Z → M (imach X) ()).
Implicit Types s : imach X.

Lemma called_field f s k : frame_field (stack (called ra f s)) f k = frame_field (stack s) f k.
Proof.
  unfold frame_field, called. cbn [stack set_stack]. rewrite fn_lookup_insert_ne; [done|].
  assert (0 ≤ frame_index k) by (destruct k as [r| | | | | | |]; [destruct r|..]; done). lia.
Qed.

(** The dispatcher runs the handler of the vector, whatever the frame. *)
Lemma isr_dispatch_eq top vec err s h : 0 ≤ vec < 256 → kHandlers s !! Z.to_nat vec = Some (Some h) →
  let f := frame_at top vec in let s1 := called ra f (entered stub_addr top vec err s) in
  isr_dispatch hw fuel pfh regh f s1 = call_handler hw fuel pfh regh h f s1.
Proof.
  intros Hv Hh. cbn zeta. unfold isr_dispatch, read_field. unfold mbind at 1, M_bind at 1, gets at 1. rewrite called_field.
  destruct (entered_frame stub_addr top vec err s) as (_ & -> & _). rewrite wrap_small by lia.
  unfold mbind at 1, M_bind at 1, get at 1. change (kHandlers (called ra (frame_at top vec) (entered stub_addr top vec err s))) with (kHandlers s).
  rewrite Hh. reflexivity.
Qed.

(** Compiled code that returns from every state with the stack pointer it had,
    leaves the stack above it alone, and changes the rest of the kernel as [R]. *)
Definition well_behaved (R : X → X → Prop) (m : M (imach X) ()) : Prop := ∀ s,
  wp m (λ _ s', rsp s' = rsp s ∧ (∀ a, rsp s ≤ a → stack s' a = stack s a) ∧ R (env s) (env s')) s.

Lemma well_behaved_kept (R : X → X → Prop) m f s : well_behaved R m →
  wp m (λ _ s2, kept f s s2 ∧ R (env s) (env s2)) (called ra f s).
Proof.
  intros Hm. eapply wp_mono; [apply Hm|]. intros [] s2 (Hr & Hst & HR). cbn [rsp env stack called set_stack set_rsp set_gprs] in *.
  split; [split; [done|]|done]. intros a Ha. rewrite Hst, fn_lookup_insert_ne by lia. done.
Qed.
End dispatch.

(** ** Properties *)


(** A machine at boot, its stubs in a row. *)
Definition row_stubs (v : Z) : Z := 0xffffffff80100000 + 16 * v.
Lemma row_stubs_ok : stubs_ok row_stubs.
Proof. unfold stubs_ok, row_stubs. split; lia. Qed.

Definition boot_imach {X} (x : X) : imach X :=
  mkImach (replicate 256 zero_gate) (replicate 256 None) [] (mkIdtr 0 0) (mkTss 0xffff800000010000 0xffffffff80300000 0xffffffff80302000 104)
    (λ _, 7) 0xffff800000020008 0xffffffff80001234 KERNEL_CS 0x246 KERNEL_DS 0x400008 (λ _, 0) [] x.


(** C31: what a handler is given.  On every interrupt the dispatcher is entered
    with a frame that holds all the registers and the vector.  For the vectors
    with an error code the other fields hold what their names say and the stack
    is aligned for the call.  For all other vectors nothing is pushed in place of
    the error code: the error code field holds the interrupted RIP, the RIP
    field the code selector, and so on, one word off each, and the stack is 8
    bytes off the alignment that compiled code expects. *)
Theorem interrupt_frame {X} hw fuel stub_addr ra pfh regh c_regs c_stack vec err top (s : imach X) :
  stubs_ok stub_addr → idt_ready stub_addr s → 0 ≤ vec < 256 →
  entry_stack s (boot_gate stub_addr vec) = Some top → stack_room top →
  ∃ f s1, interrupt hw fuel stub_addr ra pfh regh c_regs c_stack vec err s =
            dispatch_and_return hw fuel ra pfh regh c_regs c_stack s1 ∧
    rsp s1 = f ∧ f mod 16 = (if has_error_code vec then 0 else 8) ∧ env s1 = env s ∧ cr2 s1 = cr2 s ∧
    frame_ok f vec err s s1 ∧ ∀ a, top ≤ a → stack s1 a = stack s a.
Proof.
  intros Hs Hi Hv Ht Hr. exists (frame_at top vec), (entered stub_addr top vec err s). split_and!.
  - by apply interrupt_eq.
  - apply entered_rsp.
  - unfold frame_at, aligned_top. pose proof (Z.div_mod top 16 ltac:(lia)) as E.
    replace (top - top mod 16 - (if has_error_code vec then 176 else 168)) with
      ((if has_error_code vec then 0 else 8) + (top / 16 - 11) * 16) by (destruct (has_error_code vec); lia).
    rewrite Z_mod_plus_full. by destruct (has_error_code vec).
  - done.
  - done.
  - apply entered_frame.
  - intros a Ha. unfold entered. cbn [stack pushed set_stack set_flow]. pose proof (Z.mod_pos_bound top 16 ltac:(lia)).
    apply push_words_above. unfold aligned_top. lia.
Qed.

(** The machine of the examples, with a handler for the timer. *)
Definition ready_imach {X} (x : X) : imach X :=
  mkImach (boot_gate row_stubs <$> seqZ 0 256)
    (<[239%nat := Some (registered 1)]> (boot_handlers (replicate 256 None))) [] (mkIdtr 4095 0xffffffff80200000)
    (tss (boot_imach x)) (gprs (boot_imach x)) (rsp (boot_imach x)) (rip (boot_imach x)) KERNEL_CS 0x246 KERNEL_DS 0x400008 (λ _, 0) [] x.

Lemma ready_imach_ready {X} (x : X) : idt_ready row_stubs (ready_imach x).
Proof.
  split_and!; [|done..]. intros v Hv. cbn [kIdt ready_imach]. rewrite list_lookup_fmap, lookup_seqZ_lt by lia.
  cbn [fmap option_fmap option_map]. do 2 f_equal. lia.
Qed.

Lemma interrupt_frame_witness : ∃ f s1,
  interrupt (λ _ _ _, 0x60) 1 row_stubs 0 (λ _, mret ()) (λ _ _, mret ()) id id 6 0 (ready_imach ()) =
    dispatch_and_return (λ _ _ _, 0x60) 1 0 (λ _, mret ()) (λ _ _, mret ()) id id s1 ∧ rsp s1 = f ∧ f mod 16 = 8 ∧
  frame_field (stack s1) f F_vector = 6 ∧ frame_field (stack s1) f F_error_code = 0xffffffff80001234 ∧
  frame_field (stack s1) f F_rip = KERNEL_CS.
Proof.
  destruct (interrupt_frame (λ _ _ _, 0x60) 1 row_stubs 0 (λ _, mret ()) (λ _ _, mret ()) id id 6 0 0xffff800000020008 (ready_imach ())
    row_stubs_ok (ready_imach_ready ()) ltac:(lia) eq_refl ltac:(split; lia)) as (f & s1 & E & Hr & Hm & _ & _ & (_ & Hv & He & Hp & _) & _).
  exists f, s1. split; [exact E|]. split; [exact Hr|]. split; [exact Hm|]. split; [exact Hv|]. split; [exact He|exact Hp].
Defined.

(** C14: an interrupt whose vector has no error code is invisible to the code it
    interrupts: when the handler behaves as compiled code does, whatever it
    leaves in the registers, the interrupted code goes on at its instruction
    with all its registers, its flags, its selectors and its stack. *)
Theorem interrupt_resumes {X} hw fuel stub_addr ra pfh regh c_regs c_stack vec h R err top (s : imach X) :
  stubs_ok stub_addr → idt_ready stub_addr s → 0 ≤ vec < 256 → has_error_code vec = false →
  kHandlers s !! Z.to_nat vec = Some (Some (registered h)) → (∀ f, well_behaved R (regh h f)) →
  entry_stack s (boot_gate stub_addr vec) = Some top → stack_room top → 0 ≤ cs s < 2 ^ 16 → 0 ≤ ss s < 2 ^ 16 →
  ∃ s', interrupt hw fuel stub_addr ra pfh regh c_regs c_stack vec err s = Ok ((), s') ∧
    (∀ r, gprs s' r = gprs s r) ∧ rip s' = rip s ∧ rsp s' = rsp s ∧ cs s' = cs s ∧ ss s' = ss s ∧ rflags s' = rflags s ∧
    R (env s) (env s') ∧ ∀ a, top ≤ a → stack s' a = stack s a.
Proof.
  intros Hs Hi Hv He Hh Hb Ht Hr Hcs Hss. set (s1 := entered stub_addr top vec err s).
  destruct (entered_frame stub_addr top vec err s) as (Hg & _ & Hf). rewrite He in Hf. destruct Hf as (F1 & F2 & F3 & F4 & F5).
  assert (Hw : wp (interrupt hw fuel stub_addr ra pfh regh c_regs c_stack vec err) (λ _ s', (∀ r, gprs s' r = gprs s r) ∧ rip s' = rip s ∧
    rsp s' = rsp s ∧ cs s' = cs s ∧ ss s' = ss s ∧ rflags s' = rflags s ∧ R (env s) (env s') ∧ ∀ a, top ≤ a → stack s' a = stack s a) s).
  { apply (interrupt_wp hw fuel stub_addr ra pfh regh c_regs c_stack Hs vec err top s (λ s2, R (env s) (env s2))); [done..| |].
    - cbn zeta. unfold wp. rewrite (isr_dispatch_eq hw fuel stub_addr ra pfh regh top vec err s (registered h)) by done.
      apply (well_behaved_kept ra R (regh h (frame_at top vec)) (frame_at top vec) s1). apply Hb.
    - intros s2 s3 HR (G1 & G2 & G3 & G4 & G5 & G6 & G7 & _ & _ & _ & _ & _ & G8).
      split_and!; [intros r; by rewrite G1|by rewrite G2|by rewrite G5|by rewrite G3, F2, wrap_small|by rewrite G6, F5, wrap_small|by rewrite G4|by rewrite G7|].
      intros a Ha. pose proof (Z.mod_pos_bound top 16 ltac:(lia)).
      rewrite G8 by (unfold frame_at, aligned_top; destruct (has_error_code vec); lia).
      unfold entered. cbn [stack pushed set_stack set_flow]. apply push_words_above. unfold aligned_top. lia. }
  destruct (proj1 (wp_ok _ _ _) Hw) as ([] & s' & E & HQ). exists s'. split; [exact E|exact HQ].
Qed.

(** A handler that counts, as the timer's would. *)
Definition count_ticks (_ _ : Z) : M (imach nat) () := modify (λ s, set_env s (S (env s))).

Lemma count_ticks_ok f : well_behaved (λ x y, y = S x) (count_ticks 1 f).
Proof. intros s. by split_and!. Qed.

Lemma interrupt_resumes_witness : ∃ s',
  interrupt (λ _ _ _, 0x60) 1 row_stubs 0 (λ _, mret ()) count_ticks (λ _ _, 99) id VEC_APIC_TIMER 0 (ready_imach 41%nat) = Ok ((), s') ∧
  (∀ r, gprs s' r = 7) ∧ rip s' = 0xffffffff80001234 ∧ rsp s' = 0xffff800000020008 ∧ env s' = 42%nat.
Proof.
  destruct (interrupt_resumes (λ _ _ _, 0x60) 1 row_stubs 0 (λ _, mret ()) count_ticks (λ _ _, 99) id VEC_APIC_TIMER 1 (λ x y, y = S x) 0 0xffff800000020008
    (ready_imach 41%nat) row_stubs_ok (ready_imach_ready 41%nat) ltac:(unfold VEC_APIC_TIMER; lia) eq_refl eq_refl count_ticks_ok eq_refl
    ltac:(split; lia) ltac:(split; done) ltac:(split; done)) as (s' & E & Hg & Hp & Hr & _ & _ & _ & HR & _).
  exists s'. split; [exact E|]. split; [exact Hg|]. split; [exact Hp|]. split; [exact Hr|exact HR].
Defined.
