(* ===== verification/PageFaultReturn.v ===== *)
(** * Returning from a page fault

    The composition of the interrupt path with the page fault handler of
    src/kernel/pf.cpp: the copy-on-write fault of [Vmm], run from the
    processor's delivery to the return from the interrupt. *)

From S2P Require Import Prelude PageAlloc PmmTheorems KernelHeap Vmm VmmTheorems PortIo Serial Descriptors Interrupts.
Open Scope Z_scope.

Section fault.
Context {H PA : Type} `{!PageAllocator PA} (hw : hardware) (fuel : nat) (stub_addr : Z → Z) (ra : Z).
Context (regh : Z → Z → M (imach (vmm H PA)) ()) (c_regs : (gpr → Z) → gpr → Z) (c_stack : Z → Z).
Implicit Types s : imach (vmm H PA).

(** The handler as the dispatcher calls it. *)
Definition fault_handler : Z → M (imach (vmm H PA)) () := pf_entry Vmm.page_fault_handler.

(** On the vector of the page fault the handler is called with the error code
    and the address the processor gave. *)
Lemma fault_dispatch top err s x : kHandlers s !! 14%nat = Some (Some page_fault) →
  Vmm.page_fault_handler err (cr2 s) (env s) = Ok ((), x) →
  let f := frame_at top VEC_PAGE_FAULT in let s1 := entered stub_addr top VEC_PAGE_FAULT err s in
  wp (isr_dispatch hw fuel fault_handler regh f) (λ _ s2, Interrupts.kept f s1 s2 ∧ env s2 = x) (called ra f s1).
Proof.
  intros Hh Hpf. cbn zeta. unfold wp. rewrite (isr_dispatch_eq hw fuel stub_addr ra fault_handler regh top VEC_PAGE_FAULT err s page_fault) by done.
  cbn [call_handler]. unfold fault_handler, pf_entry, read_field, on_env. unfold mbind, M_bind, gets. rewrite called_field.
  destruct (entered_frame stub_addr top VEC_PAGE_FAULT err s) as (_ & _ & He). change (has_error_code VEC_PAGE_FAULT) with true in He.
  destruct He as (-> & _). cbn [cr2 env called entered pushed set_stack set_rsp set_gprs set_flow].
  change (env (called ra (frame_at top VEC_PAGE_FAULT) (entered stub_addr top VEC_PAGE_FAULT err s))) with (env s).
  change (cr2 (called ra (frame_at top VEC_PAGE_FAULT) (entered stub_addr top VEC_PAGE_FAULT err s))) with (cr2 s).
  rewrite Hpf. split; [|done]. split; [done|]. intros a Ha. cbn [stack set_env called set_stack]. by rewrite fn_lookup_insert_ne by lia.
Qed.
End fault.

(** C15: a page fault that was handled never resumes the program.  The common
    handler drops the vector from the stack but not the error code, so the
    return takes the error code as the instruction pointer, the faulting
    instruction's address as the code selector, the selector as the flags and
    the flags as the stack pointer.  A resolved copy-on-write fault (error code
    7) thus returns to address 7. *)
Theorem fault_never_resumes {H PA : Type} `{!PageAllocator PA} hw fuel stub_addr ra regh c_regs c_stack err top (s : imach (vmm H PA)) x :
  stubs_ok stub_addr → idt_ready stub_addr s → kHandlers s !! 14%nat = Some (Some page_fault) →
  entry_stack s (boot_gate stub_addr VEC_PAGE_FAULT) = Some top → stack_room top →
  Vmm.page_fault_handler err (cr2 s) (env s) = Ok ((), x) →
  ∃ s', interrupt hw fuel stub_addr ra fault_handler regh c_regs c_stack VEC_PAGE_FAULT err s = Ok ((), s') ∧ env s' = x ∧
    rip s' = err ∧ cs s' = u16 (rip s) ∧ rflags s' = cs s ∧ rsp s' = rflags s ∧ ∀ r, gprs s' r = gprs s r.
Proof.
  intros Hs Hi Hh Ht Hr Hpf. destruct (entered_frame stub_addr top VEC_PAGE_FAULT err s) as (Hg & _ & He).
  change (has_error_code VEC_PAGE_FAULT) with true in He. destruct He as (F1 & F2 & F3 & F4 & _).
  assert (Hw : wp (interrupt hw fuel stub_addr ra fault_handler regh c_regs c_stack VEC_PAGE_FAULT err) (λ _ s', env s' = x ∧
    rip s' = err ∧ cs s' = u16 (rip s) ∧ rflags s' = cs s ∧ rsp s' = rflags s ∧ ∀ r, gprs s' r = gprs s r) s).
  { apply (interrupt_wp hw fuel stub_addr ra fault_handler regh c_regs c_stack Hs VEC_PAGE_FAULT err top s (λ s2, env s2 = x)); [done|done|done|done| |].
    - by apply fault_dispatch.
    - intros s2 s3 HP (G1 & G2 & G3 & G4 & G5 & _ & G7 & _).
      split_and!; [by rewrite G7|by rewrite G2|by rewrite G3, F2|by rewrite G4|by rewrite G5|intros r; by rewrite G1]. }
  destruct (proj1 (wp_ok _ _ _) Hw) as ([] & s' & E & HQ). exists s'. split; [exact E|exact HQ].
Qed.

Lemma fault_never_resumes_witness : ∃ s' x,
  interrupt (λ _ _ _, 0x60) 1 row_stubs 0 fault_handler (λ _ _, mret ()) id id VEC_PAGE_FAULT 7 (ready_imach small_mapped) = Ok ((), s') ∧
  Vmm.page_fault_handler 7 0x400008 small_mapped = Ok ((), x) ∧ env s' = x ∧ rip s' = 7.
Proof.
  destruct small_fault_returns as (x & Hx).
  destruct (fault_never_resumes (λ _ _ _, 0x60) 1 row_stubs 0 (λ _ _, mret ()) id id 7 0xffff800000020008 (ready_imach small_mapped) x
    row_stubs_ok (ready_imach_ready small_mapped) eq_refl eq_refl ltac:(split; lia) Hx) as (s' & E & He & Hp & _).
  exists s', x. split; [exact E|]. split; [exact Hx|]. split; [exact He|exact Hp].
Defined.
