(* ===== verification/Apic.v ===== *)
(** * The local APIC

    Model of src/arch/x86_64/apic.cpp over port accesses, memory-mapped
    registers and machine-specific registers.  [hw] answers the reads of ports
    and [dev] those of the APIC's registers.  The two loops that wait for the
    hardware have no bound in the code; [fuel] bounds their turns.  [rest] is
    the state of the clients. *)

From S2P Require Import Prelude PortIo.
Open Scope Z_scope.

Definition APIC_BASE_PHYS : Z := 0xFEE00000.
Module apic_regs.
Definition ID : Z := 0x020.
Definition VERSION : Z := 0x030.
Definition TPR : Z := 0x080.
Definition EOI : Z := 0x0B0.
Definition SVR : Z := 0x0F0.
Definition ICR_LO : Z := 0x300.
Definition ICR_HI : Z := 0x310.
Definition LVT_TIMER : Z := 0x320.
Definition LVT_ERROR : Z := 0x370.
Definition TIMER_INIT : Z := 0x380.
Definition TIMER_CUR : Z := 0x390.
Definition TIMER_DIV : Z := 0x3E0.
End apic_regs.
Definition SVR_APIC_ENABLE : Z := Z.shiftl 1 8.
Definition TIMER_ONESHOT : Z := Z.shiftl 0 17.
Definition TIMER_PERIODIC : Z := Z.shiftl 1 17.
Definition TIMER_DIV_16 : Z := 0x03.
Definition LVT_MASKED : Z := Z.shiftl 1 16.
Definition IA32_APIC_BASE : Z := 0x01B.
Definition APIC_GLOBAL_ENABLE : Z := Z.shiftl 1 11.
Definition ICR_INIT : Z := Z.shiftl 5 8.
Definition ICR_STARTUP : Z := Z.shiftl 6 8.
Definition ICR_DELIVERY_PENDING : Z := Z.shiftl 1 12.
Definition ICR_ASSERT : Z := Z.shiftl 1 14.
Definition ICR_LEVEL_TRIGGER : Z := Z.shiftl 1 15.
Definition VEC_APIC_TIMER : Z := 0xEF.

Definition CALIBRATE_COUNT : Z := 11932.
Definition CALIBRATE_MS : Z := 10.
Definition PIT_CH2_DATA : Z := 0x42.
Definition PIT_CMD : Z := 0x43.
Definition PIT_CH2_GATE : Z := 0x61.

(** [kApicBase] is 0 before the initialisation. *)
Record apic (X : Type) := mkApic {
  kApicBase : Z; kTicksPerMs : Z; kTicksPerUs : Z;
  a_ports : list io_event; a_mmio : list mmio_event; a_msrs : Z → Z; rest : X
}.
Arguments mkApic {X}. Arguments kApicBase {X}. Arguments kTicksPerMs {X}. Arguments kTicksPerUs {X}.
Arguments a_ports {X}. Arguments a_mmio {X}. Arguments a_msrs {X}. Arguments rest {X}.

Section setters.
Context {X : Type}.
Implicit Types r : apic X.
Definition set_kApicBase v r := mkApic v (kTicksPerMs r) (kTicksPerUs r) (a_ports r) (a_mmio r) (a_msrs r) (rest r).
Definition set_kTicksPerMs v r := mkApic (kApicBase r) v (kTicksPerUs r) (a_ports r) (a_mmio r) (a_msrs r) (rest r).
Definition set_kTicksPerUs v r := mkApic (kApicBase r) (kTicksPerMs r) v (a_ports r) (a_mmio r) (a_msrs r) (rest r).
Definition set_a_ports v r := mkApic (kApicBase r) (kTicksPerMs r) (kTicksPerUs r) v (a_mmio r) (a_msrs r) (rest r).
Definition set_a_mmio v r := mkApic (kApicBase r) (kTicksPerMs r) (kTicksPerUs r) (a_ports r) v (a_msrs r) (rest r).
Definition set_a_msrs v r := mkApic (kApicBase r) (kTicksPerMs r) (kTicksPerUs r) (a_ports r) (a_mmio r) v (rest r).
Definition set_rest (v : X) r := mkApic (kApicBase r) (kTicksPerMs r) (kTicksPerUs r) (a_ports r) (a_mmio r) (a_msrs r) v.
End setters.

#[export] Program Instance apic_ports X : HasPorts (apic X) := {| ports := a_ports; set_ports := set_a_ports |}.
Next Obligation. done. Qed.
Next Obligation. done. Qed.
Next Obligation. by intros X []. Qed.
#[export] Program Instance apic_mmio X : HasMmio (apic X) := {| mmio := a_mmio; set_mmio := set_a_mmio |}.
Next Obligation. done. Qed.
Next Obligation. done. Qed.
Next Obligation. by intros X []. Qed.
#[export] Instance apic_msrs X : HasMsrs (apic X) := {| msrs := a_msrs; set_msrs := set_a_msrs; msrs_set := λ _ _, eq_refl |}.

Section apic.
Context {X : Type} (hw : hardware) (dev : mmio_device) (fuel : nat).
Local Abbreviation W := (M (apic X)).

(** [kApicBase[reg / 4]]: a null base is undefined. *)
Definition apic_reg (reg : Z) : W Z :=
  b ← gets kApicBase; if b =? 0 then undefined else mret (b +64 (4 * (reg / 4))).
Definition apic_write (reg value : Z) : W () := a ← apic_reg reg; mmio_store 32 a value.
Definition apic_read (reg : Z) : W Z := a ← apic_reg reg; mmio_load dev 32 a.

(** [while ((inb(PIT_CH2_GATE) & 0x20) == 0) pause;] *)
Fixpoint wait_pit (n : nat) : W () :=
  match n with
  | O => undefined
  | S n =>
    v ← inb hw PIT_CH2_GATE;
    if Z.land v 0x20 =? 0 then pause;; wait_pit n else mret ()
  end.

Definition calibrate_timer : W Z :=
  gate ← inb hw PIT_CH2_GATE;
  let gate := u8 (Z.land gate (Z.lnot 0x02)) in
  let gate := u8 (Z.lor gate 0x01) in
  outb PIT_CH2_GATE gate;;
  outb PIT_CMD 0xB0;;
  outb PIT_CH2_DATA (u8 (Z.land CALIBRATE_COUNT 0xFF));;
  outb PIT_CH2_DATA (u8 (Z.land (Z.shiftr CALIBRATE_COUNT 8) 0xFF));;
  apic_write apic_regs.TIMER_DIV TIMER_DIV_16;;
  apic_write apic_regs.LVT_TIMER (Z.lor TIMER_ONESHOT VEC_APIC_TIMER);;
  apic_write apic_regs.TIMER_INIT 0xFFFFFFFF;;
  wait_pit fuel;;
  apic_write apic_regs.LVT_TIMER (Z.lor TIMER_ONESHOT LVT_MASKED);;
  cur ← apic_read apic_regs.TIMER_CUR;
  let elapsed := u32 (0xFFFFFFFF - cur) in
  modify (set_kTicksPerMs (elapsed / CALIBRATE_MS));;
  s ← get;
  modify (set_kTicksPerUs (kTicksPerMs s / 1000));;
  s ← get;
  when (kTicksPerUs s =? 0) (modify (set_kTicksPerUs 1));;
  gets kTicksPerMs.

Definition apic_init (hhdm_offset : Z) : W () :=
  apic_msr ← rdmsr IA32_APIC_BASE;
  wrmsr IA32_APIC_BASE (Z.lor apic_msr APIC_GLOBAL_ENABLE);;
  modify (set_kApicBase (APIC_BASE_PHYS +64 hhdm_offset));;
  _ ← apic_read apic_regs.VERSION;
  _ ← apic_read apic_regs.ID;
  apic_write apic_regs.TPR 0;;
  apic_write apic_regs.SVR (Z.lor SVR_APIC_ENABLE 0xFF);;
  apic_write apic_regs.LVT_ERROR 0xFE;;
  _ ← calibrate_timer;
  mret ().

(** [while (apic_read(ICR_LO) & ICR_DELIVERY_PENDING) pause;] *)
Fixpoint wait_icr (n : nat) : W () :=
  match n with
  | O => undefined
  | S n =>
    v ← apic_read apic_regs.ICR_LO;
    if Z.land v ICR_DELIVERY_PENDING =? 0 then mret () else pause;; wait_icr n
  end.

Definition apic_send_ipi (lapic_id flags : Z) : W () :=
  wait_icr fuel;;
  apic_write apic_regs.ICR_HI (u32 (Z.shiftl lapic_id 24));;
  apic_write apic_regs.ICR_LO flags.

Definition apic_timer_oneshot (ticks : Z) : W () :=
  apic_write apic_regs.LVT_TIMER (Z.lor TIMER_ONESHOT VEC_APIC_TIMER);;
  apic_write apic_regs.TIMER_INIT ticks.
Definition apic_timer_periodic (ticks : Z) : W () :=
  apic_write apic_regs.LVT_TIMER (Z.lor TIMER_PERIODIC VEC_APIC_TIMER);;
  apic_write apic_regs.TIMER_INIT ticks.
Definition apic_timer_stop : W () :=
  apic_write apic_regs.LVT_TIMER (Z.lor LVT_MASKED VEC_APIC_TIMER);;
  apic_write apic_regs.TIMER_INIT 0.
Definition apic_eoi : W () := apic_write apic_regs.EOI 0.
Definition apic_ticks_per_ms : W Z := gets kTicksPerMs.
Definition apic_ticks_per_us : W Z := gets kTicksPerUs.
End apic.

(** * Properties of the local APIC driver *)

(** ** Registers *)

Definition reg_at (b reg : Z) : Z := b +64 reg.
Definition store (b reg v : Z) : mmio_event := MStore 32 (reg_at b reg) (u32 v).
Definition load (b reg v : Z) : mmio_event := MLoad 32 (reg_at b reg) v.

(** The stores of a run, in order. *)
Definition stores (tr : list mmio_event) : list (Z * Z) :=
  omap (λ e, match e with MStore 32 a v => Some (a, v) | _ => None end) tr.

Lemma stores_app tr tr' : stores (tr ++ tr') = stores tr ++ stores tr'.
Proof. apply omap_app. Qed.

Lemma stores_pauses n : stores (replicate n Pause) = [].
Proof. induction n as [|n IH]; [done|exact IH]. Qed.

Section regs.
Context {X : Type} (hw : hardware) (dev : mmio_device) (fuel : nat).
Implicit Types s : apic X.

Lemma apic_reg_wp reg s (Q : Z → apic X → Prop) : reg mod 4 = 0 → kApicBase s ≠ 0 → Q (reg_at (kApicBase s) reg) s → wp (apic_reg reg) Q s.
Proof.
  intros Hm Hb HQ. unfold apic_reg. wp_run. rewrite (proj2 (Z.eqb_neq _ _)) by done. wp_run.
  by replace (4 * (reg / 4)) with reg by (pose proof (Z.div_mod reg 4); lia).
Qed.

Lemma apic_write_wp reg v s (Q : () → apic X → Prop) : reg mod 4 = 0 → kApicBase s ≠ 0 →
  Q () (set_a_mmio (a_mmio s ++ [store (kApicBase s) reg v]) s) → wp (apic_write reg v) Q s.
Proof. intros Hm Hb HQ. unfold apic_write. wp_run. by apply apic_reg_wp. Qed.

Lemma apic_read_wp reg s (Q : Z → apic X → Prop) : reg mod 4 = 0 → kApicBase s ≠ 0 →
  (let v := u32 (dev (a_mmio s) 32 (reg_at (kApicBase s) reg)) in
   Q v (set_a_mmio (a_mmio s ++ [load (kApicBase s) reg v]) s)) → wp (apic_read dev reg) Q s.
Proof. intros Hm Hb HQ. unfold apic_read. wp_run. by apply apic_reg_wp. Qed.

(** The wait for the reference timer: the reads that showed it running, the one
    that showed it expired, and a pause after each of the former. *)
Lemma wait_pit_wp n : ∀ s (Q : () → apic X → Prop), polls hw PIT_CH2_GATE 0x20 n (a_ports s) = true →
  (∀ vs v, Forall (λ v, has_flag v 0x20 = false) vs → has_flag v 0x20 = true →
     Q () (set_a_mmio (a_mmio s ++ replicate (length vs) Pause)
            (set_a_ports (a_ports s ++ (In 8 PIT_CH2_GATE <$> vs) ++ [In 8 PIT_CH2_GATE v]) s))) →
  wp (wait_pit hw n) Q s.
Proof.
  induction n as [|n IH]; intros s Q Hn HQ; [done|]. cbn [polls] in Hn. cbn [wait_pit]. unfold inb. apply wp_bind.
  eapply wp_eq; [apply in_eq|]. change (u16 PIT_CH2_GATE) with PIT_CH2_GATE. cbn [ports set_ports apic_ports] in *. set (v := wrap 8 _) in *.
  destruct (has_flag v 0x20) eqn:Hv; unfold has_flag in Hv.
  - apply negb_true_iff in Hv. rewrite Hv. apply wp_ret. specialize (HQ [] v (List.Forall_nil _)). cbn [length replicate fmap list_fmap app] in HQ.
    rewrite app_nil_r in HQ. unfold has_flag in HQ. rewrite Hv in HQ. specialize (HQ eq_refl). by destruct s.
  - apply negb_false_iff in Hv. rewrite Hv. unfold pause. wp_run. unfold mmio_add. cbn [orb] in Hn.
    apply IH; [done|]. intros vs w Hvs Hw. specialize (HQ (v :: vs) w). cbn [mmio set_mmio apic_mmio a_mmio a_ports set_a_mmio set_a_ports] in *.
    rewrite <-!app_assoc. apply HQ; [|done]. constructor; [|done]. unfold has_flag. by rewrite Hv.
Qed.

(** ** Calibration *)

(** The accesses of the calibration: the reference timer is loaded with 11932
    ticks of 1.193182 MHz, which is 10 ms, and the APIC timer counts down from
    its largest value until the reference has expired. *)
Definition calibration_ports (g : Z) (vs : list Z) (v : Z) : list io_event :=
  [In 8 PIT_CH2_GATE g; Out 8 PIT_CH2_GATE (u8 (u8 (Z.lor (u8 (Z.land g (Z.lnot 2))) 1))); Out 8 PIT_CMD 0xB0;
   Out 8 PIT_CH2_DATA 0x9C; Out 8 PIT_CH2_DATA 0x2E] ++ (In 8 PIT_CH2_GATE <$> vs) ++ [In 8 PIT_CH2_GATE v].
Definition calibration_mmio (b : Z) (n : nat) (c : Z) : list mmio_event :=
  [store b apic_regs.TIMER_DIV 3; store b apic_regs.LVT_TIMER 0xEF; store b apic_regs.TIMER_INIT 0xFFFFFFFF] ++
  replicate n Pause ++ [store b apic_regs.LVT_TIMER 0x10000; load b apic_regs.TIMER_CUR c].

Definition ticks_ms (c : Z) : Z := (0xFFFFFFFF - c) / 10.
Definition ticks_us (c : Z) : Z := if ticks_ms c / 1000 =? 0 then 1 else ticks_ms c / 1000.

(** The state after a calibration that read the count [c]. *)
Definition calibrated (g : Z) (vs : list Z) (v c : Z) s : apic X :=
  mkApic (kApicBase s) (ticks_ms c) (ticks_us c) (a_ports s ++ calibration_ports g vs v)
    (a_mmio s ++ calibration_mmio (kApicBase s) (length vs) c) (a_msrs s) (rest s).

Definition pit_expires : Prop := ∀ tr, polls hw PIT_CH2_GATE 0x20 fuel tr = true.

Lemma calibrate_timer_wp s (Q : Z → apic X → Prop) : kApicBase s ≠ 0 → pit_expires →
  (∀ g vs v c, Forall (λ v, has_flag v 0x20 = false) vs → has_flag v 0x20 = true → 0 ≤ c < 2 ^ 32 → Q (ticks_ms c) (calibrated g vs v c s)) →
  wp (calibrate_timer hw dev fuel) Q s.
Proof.
  intros Hb Hp HQ. unfold calibrate_timer, inb, outb. apply wp_bind. eapply wp_eq; [apply in_eq|].
  do 4 (apply wp_bind; eapply wp_eq; [apply out_eq|]). do 3 (apply wp_bind, apic_write_wp; [done|done|]).
  apply wp_bind. apply wait_pit_wp; [apply Hp|]. intros vs v Hvs Hv.
  apply wp_bind, apic_write_wp; [done|done|]. apply wp_bind, apic_read_wp; [done|done|]. intros c.
  assert (Hc : 0 ≤ c < 2 ^ 32) by (by apply wrap_range). cbn beta. clearbody c. wp_run. rewrite (wrap_small 32 (0xFFFFFFFF - c)) by lia.
  unfold CALIBRATE_MS. change ((0xFFFFFFFF - c) / 10) with (ticks_ms c). cbn [kTicksPerMs kTicksPerUs set_kTicksPerMs set_kTicksPerUs].
  set (g := wrap 8 _). specialize (HQ g vs v c Hvs Hv Hc). unfold calibrated, ticks_us, calibration_ports, calibration_mmio in HQ.
  destruct (ticks_ms c / 1000 =? 0); wp_run; cbn [kTicksPerMs set_kTicksPerMs set_kTicksPerUs];
    cbn [a_ports a_mmio set_a_ports set_a_mmio ports set_ports apic_ports mmio set_mmio apic_mmio kApicBase] in *;
    rewrite <-!app_assoc; exact HQ.
Qed.

(** ** Interprocessor interrupts *)

(** Whether the command register is seen free within [n] reads. *)
Fixpoint frees (b : Z) (n : nat) (tr : list mmio_event) : bool :=
  match n with
  | O => false
  | S n =>
    let v := u32 (dev tr 32 (reg_at b apic_regs.ICR_LO)) in
    negb (has_flag v ICR_DELIVERY_PENDING) || frees b n (tr ++ [load b apic_regs.ICR_LO v; Pause])
  end.

(** The accesses of one command: reads that found one pending, one that did
    not, the destination, and the command last. *)
Definition ipi_events (b : Z) (busy : list Z) (free lapic_id flags : Z) : list mmio_event :=
  (busy ≫= λ v, [load b apic_regs.ICR_LO v; Pause]) ++
  [load b apic_regs.ICR_LO free; store b apic_regs.ICR_HI (u32 (Z.shiftl lapic_id 24)); store b apic_regs.ICR_LO flags].

Lemma wait_icr_wp n : ∀ s (Q : () → apic X → Prop), kApicBase s ≠ 0 → frees (kApicBase s) n (a_mmio s) = true →
  (∀ vs v, Forall (λ v, has_flag v ICR_DELIVERY_PENDING = true) vs → has_flag v ICR_DELIVERY_PENDING = false →
     let b := kApicBase s in
     Q () (set_a_mmio (a_mmio s ++ (vs ≫= λ v, [load b apic_regs.ICR_LO v; Pause]) ++ [load b apic_regs.ICR_LO v]) s)) →
  wp (wait_icr dev n) Q s.
Proof.
  induction n as [|n IH]; intros s Q Hb Hn HQ; [done|]. cbn [frees] in Hn. cbn [wait_icr]. apply wp_bind, apic_read_wp; [done|done|].
  intros v. fold v in Hn. cbn zeta in Hn. destruct (has_flag v ICR_DELIVERY_PENDING) eqn:Hv.
  - pose proof Hv as Hv'. unfold has_flag in Hv'. apply negb_true_iff in Hv'. rewrite Hv'. unfold pause. wp_run. cbn [negb orb] in Hn.
    apply IH; [done| |].
    + unfold mmio_add. cbn [mmio set_mmio apic_mmio a_mmio set_a_mmio kApicBase] in *. by rewrite <-app_assoc.
    + intros vs w Hvs Hw. specialize (HQ (v :: vs) w). unfold mmio_add. cbn [mmio set_mmio apic_mmio a_mmio set_a_mmio kApicBase] in *.
      rewrite <-!app_assoc in *. apply HQ; [by constructor|done].
  - pose proof Hv as Hv'. unfold has_flag in Hv'. apply negb_false_iff in Hv'. rewrite Hv'. wp_run. by apply (HQ []).
Qed.

Lemma apic_send_ipi_wp lapic_id flags s (Q : () → apic X → Prop) : kApicBase s ≠ 0 → frees (kApicBase s) fuel (a_mmio s) = true →
  (∀ vs v, Forall (λ v, has_flag v ICR_DELIVERY_PENDING = true) vs → has_flag v ICR_DELIVERY_PENDING = false →
     Q () (set_a_mmio (a_mmio s ++ ipi_events (kApicBase s) vs v lapic_id flags) s)) →
  wp (apic_send_ipi dev fuel lapic_id flags) Q s.
Proof.
  intros Hb Hf HQ. unfold apic_send_ipi. apply wp_bind, wait_icr_wp; [done|done|]. intros vs v Hvs Hv. cbn zeta.
  apply wp_bind, apic_write_wp; [done|done|]. apply apic_write_wp; [done|done|].
  specialize (HQ vs v Hvs Hv). unfold ipi_events in HQ. cbn [a_mmio set_a_mmio kApicBase] in *. by rewrite <-!app_assoc in *.
Qed.

(** ** Initialisation *)

Definition init_mmio (b ver id : Z) : list mmio_event :=
  [load b apic_regs.VERSION ver; load b apic_regs.ID id; store b apic_regs.TPR 0; store b apic_regs.SVR 0x1FF; store b apic_regs.LVT_ERROR 0xFE].

Definition enabled_msr (m : Z → Z) : Z → Z := <[IA32_APIC_BASE := Z.lor (m IA32_APIC_BASE) APIC_GLOBAL_ENABLE]> m.

Lemma apic_init_wp hhdm s (Q : () → apic X → Prop) :
  let b := APIC_BASE_PHYS +64 hhdm in
  b ≠ 0 → pit_expires → 0 ≤ a_msrs s IA32_APIC_BASE < 2 ^ 64 →
  (∀ ver id g vs v c, Forall (λ v, has_flag v 0x20 = false) vs → has_flag v 0x20 = true → 0 ≤ c < 2 ^ 32 →
     Q () (calibrated g vs v c (mkApic b (kTicksPerMs s) (kTicksPerUs s) (a_ports s) (a_mmio s ++ init_mmio b ver id) (enabled_msr (a_msrs s)) (rest s)))) →
  wp (apic_init hw dev fuel hhdm) Q s.
Proof.
  intros b Hb Hp Hm HQ. unfold apic_init. apply wp_bind, rdmsr_wp; [done|]. apply wp_bind, wrmsr_wp.
  { apply lor_bound; [done|done|by split]. }
  apply wp_bind, wp_modify. do 2 (apply wp_bind, apic_read_wp; [done|done|]; intros ?). do 3 (apply wp_bind, apic_write_wp; [done|done|]).
  apply wp_bind, calibrate_timer_wp; [done|done|]. intros g vs w c Hvs Hw Hc. apply wp_ret.
  specialize (HQ v v0 g vs w c Hvs Hw Hc). unfold init_mmio, calibrated in *.
  cbn [a_ports a_mmio a_msrs rest kApicBase set_a_mmio set_kApicBase set_msrs msrs apic_msrs set_a_msrs] in *. rewrite <-!app_assoc in *. exact HQ.
Qed.
End regs.

(** ** Properties *)


(** A machine whose reference timer is seen expired at the third read, and whose APIC
    timer has counted 62500000 ticks by then. *)
Definition pit_machine : hardware := λ tr _ _, if Nat.eqb (Nat.modulo (length tr) 3) 2 then 0x20 else 0.
Definition apic_timer_device : mmio_device := λ _ _ _, 0xFFFFFFFF - 62500000.
Definition cold_apic : apic () := mkApic 0 0 0 [] [] (λ _, 0xFEE00900) ().

Lemma pit_machine_expires tr : polls pit_machine PIT_CH2_GATE 0x20 3 tr = true.
Proof.
  cbn [polls]. unfold pit_machine. rewrite !length_app. cbn [length].
  assert (H : (length tr mod 3 < 3)%nat) by (apply Nat.mod_upper_bound; lia).
  rewrite <-(Nat.Div0.add_mod_idemp_l (length tr) 1), <-(Nat.Div0.add_mod_idemp_l (length tr + 1) 1), <-(Nat.Div0.add_mod_idemp_l (length tr) 1).
  destruct (length tr mod 3)%nat as [|[|[|n]]]; [done..|lia].
Qed.


(** [m] returns and its stores to the registers are [l], as offsets and values. *)
Definition programs {X} (m : M (apic X) ()) (s : apic X) (l : list (Z * Z)) : Prop :=
  ∃ tr, m s = Ok ((), set_a_mmio (a_mmio s ++ tr) s) ∧ stores tr = prod_map (reg_at (kApicBase s)) id <$> l.

Lemma programs_write {X} reg v (s : apic X) : reg mod 4 = 0 → kApicBase s ≠ 0 → programs (apic_write reg v) s [(reg, u32 v)].
Proof.
  intros Hm Hb. pose proof (apic_write_wp reg v s (λ _ s', s' = set_a_mmio (a_mmio s ++ [store (kApicBase s) reg v]) s) Hm Hb eq_refl) as Hw.
  destruct (proj1 (wp_ok _ _ _) Hw) as ([] & s' & E & ->). eexists. split; [exact E|done].
Qed.

Lemma programs_seq {X} m1 m2 (s : apic X) l1 l2 : programs m1 s l1 → (∀ tr, programs m2 (set_a_mmio tr s) l2) → programs (m1;; m2) s (l1 ++ l2).
Proof.
  intros (tr1 & E1 & H1) H2. destruct (H2 (a_mmio s ++ tr1)) as (tr2 & E2 & H3). exists (tr1 ++ tr2). split.
  - rewrite (bind_ok _ _ _ _ _ E1), E2. cbn [a_mmio set_a_mmio]. by rewrite app_assoc.
  - rewrite stores_app, H1, H3. by rewrite fmap_app.
Qed.

(** The timer operations: what reaches the registers, in order. *)
Theorem apic_timer_ops {X} (s : apic X) ticks : kApicBase s ≠ 0 → 0 ≤ ticks < 2 ^ 32 →
  programs (apic_timer_oneshot ticks) s [(apic_regs.LVT_TIMER, 0xEF); (apic_regs.TIMER_INIT, ticks)] ∧
  programs (apic_timer_periodic ticks) s [(apic_regs.LVT_TIMER, 0x200EF); (apic_regs.TIMER_INIT, ticks)] ∧
  programs apic_timer_stop s [(apic_regs.LVT_TIMER, 0x100EF); (apic_regs.TIMER_INIT, 0)] ∧
  programs apic_eoi s [(apic_regs.EOI, 0)].
Proof.
  intros Hb Ht. assert (E : u32 ticks = ticks) by (by apply wrap_small).
  pose proof (λ r v1 v2, programs_seq (apic_write apic_regs.LVT_TIMER v1) (apic_write r v2) s [(apic_regs.LVT_TIMER, u32 v1)] [(r, u32 v2)]) as Hseq.
  split_and!; [rewrite <-E at 2|rewrite <-E at 2|..]; [apply Hseq..|by apply programs_write];
    first [by apply programs_write | intros tr; by apply programs_write].
Qed.

(** A command to another processor is written only when none is pending, the
    destination before the command that sends it. *)
Theorem apic_send_ipi_correct {X} dev fuel lapic_id flags (s : apic X) :
  kApicBase s ≠ 0 → frees dev (kApicBase s) fuel (a_mmio s) = true → 0 ≤ lapic_id < 256 → 0 ≤ flags < 2 ^ 32 →
  programs (apic_send_ipi dev fuel lapic_id flags) s [(apic_regs.ICR_HI, Z.shiftl lapic_id 24); (apic_regs.ICR_LO, flags)].
Proof.
  intros Hb Hf Hl Hfl.
  pose proof (apic_send_ipi_wp dev fuel lapic_id flags s (λ _ s', ∃ vs v, s' = set_a_mmio (a_mmio s ++ ipi_events (kApicBase s) vs v lapic_id flags) s) Hb Hf
    ltac:(intros vs v _ _; by exists vs, v)) as Hw. destruct (proj1 (wp_ok _ _ _) Hw) as ([] & s' & E & vs & v & ->).
  eexists. split; [exact E|]. unfold ipi_events. rewrite stores_app.
  assert (Ev : stores (vs ≫= λ v, [load (kApicBase s) apic_regs.ICR_LO v; Pause]) = []) by (clear; induction vs; [done|exact IHvs]).
  rewrite Ev. unfold store. rewrite Z.shiftl_mul_pow2 by lia. cbn. rewrite !wrap_small by (rewrite ?wrap_small; lia). done.
Qed.
