(* ===== verification/Acpi.v ===== *)
(** * Firmware tables

    What src/kernel/hpet.cpp and src/arch/x86_64/smp.cpp rely on to read the
    ACPI tables: memory that may not be mapped, where a read faults, and the
    layout of the root pointer and the root table (ACPI specification, 5.2.5 to
    5.2.8). *)

From S2P Require Import Prelude Bytes.
Open Scope Z_scope.

#[export] Instance bytes_ok_dec l : Decision (bytes_ok l).
Proof. unfold bytes_ok, byte_ok. apply _. Defined.

(** [None] is an address that is not mapped. *)
Definition amem : Type := Z → option Z.

Definition peek (mem : amem) (n : nat) (a : Z) : option Z :=
  le_value <$> mapM (λ i : nat, mem (a + Z.of_nat i)) (seq 0 n).

Fixpoint poke (mem : amem) (a : Z) (bs : list Z) : option amem :=
  match bs with
  | [] => Some mem
  | b :: bs => match mem a with Some _ => poke (<[a := Some b]> mem) (a + 1) bs | None => None end
  end.

Definition sizeof_SdtHeader : Z := 36.
Definition entry_size (revision : Z) : Z := if 2 <=? revision then 8 else 4.

(** "RSD PTR " *)
Definition rsdp_sig : list Z := [82; 83; 68; 32; 80; 84; 82; 32].

(** ** The root table

    [rsdp] is where the root pointer is read, [ts] the physical addresses the root
    table at [sdt] lists; every table listed has a readable signature. *)
Record acpi_root (mem : amem) (hhdm rsdp revision sdt : Z) (ts : list Z) : Prop := mkRoot {
  ar_sig : ∀ i b, rsdp_sig !! i = Some b → mem (rsdp +64 Z.of_nat i) = Some b;
  ar_rev : mem (rsdp +64 15) = Some revision;
  ar_pointer : peek mem (if 2 <=? revision then 8%nat else 4%nat) (rsdp +64 (if 2 <=? revision then 24 else 16)) = Some sdt;
  ar_nonnull : sdt ≠ 0;
  ar_count : Z.of_nat (length ts) < 2 ^ 28;
  ar_length : peek mem 4 ((sdt +64 hhdm) +64 4) = Some (sizeof_SdtHeader + entry_size revision * Z.of_nat (length ts));
  ar_entry : ∀ i t, ts !! i = Some t →
    peek mem (Z.to_nat (entry_size revision)) ((sdt +64 hhdm) +64 (sizeof_SdtHeader + entry_size revision * Z.of_nat i)) = Some t;
  ar_tables : ∀ t, t ∈ ts → is_Some (peek mem 4 (t +64 hhdm)) ∧ t +64 hhdm ≤ 2 ^ 64 - 4
}.

Lemma peek_1 mem a b : mem a = Some b → peek mem 1 a = Some b.
Proof. intros E. unfold peek. cbn. rewrite Z.add_0_r, E. cbn. f_equal. lia. Qed.

Lemma entry_size_pos revision : entry_size revision = 8 ∨ entry_size revision = 4.
Proof. unfold entry_size. destruct (2 <=? revision); auto. Qed.

(** Memory of bytes. *)
Definition amem_ok (mem : amem) : Prop := ∀ a b, mem a = Some b → byte_ok b.

Lemma peek_4 mem a v : peek mem 4 a = Some v →
  ∃ b0 b1 b2 b3, mem a = Some b0 ∧ mem (a + 1) = Some b1 ∧ mem (a + 2) = Some b2 ∧ mem (a + 3) = Some b3 ∧ v = le_value [b0; b1; b2; b3].
Proof.
  unfold peek. intros (l & Hl & ->)%fmap_Some. apply mapM_Some in Hl. cbn [seq] in Hl.
  do 4 (apply Forall2_cons_inv_l in Hl as (? & ? & ? & Hl & ->)). apply Forall2_nil_inv_l in Hl as ->.
  eexists _, _, _, _. split_and!; [|eassumption..|reflexivity]. by rewrite <-(Z.add_0_r a).
Qed.

(** A store to mapped memory changes the bytes stored. *)
Lemma poke_some bs : ∀ mem a, (∀ x, a ≤ x < a + Z.of_nat (length bs) → is_Some (mem x)) →
  ∃ m', poke mem a bs = Some m' ∧ (∀ i b, bs !! i = Some b → m' (a + Z.of_nat i) = Some b) ∧
    ∀ x, ¬ a ≤ x < a + Z.of_nat (length bs) → m' x = mem x.
Proof.
  induction bs as [|b bs IH]; intros mem a Hm; cbn [poke length]; [by exists mem|].
  destruct (Hm a) as [v Hv]; [simpl; lia|]. rewrite Hv.
  destruct (IH (<[a := Some b]> mem) (a + 1)) as (m' & E & Hin & Hout).
  { intros x Hx. rewrite fn_lookup_insert_ne by lia. apply Hm. simpl. lia. }
  exists m'. split; [exact E|]. split.
  - intros [|i] c Hc; cbn in Hc.
    + injection Hc as <-. rewrite Z.add_0_r, Hout by lia. apply fn_lookup_insert.
    + rewrite <-(Hin i c Hc). f_equal. lia.
  - intros x Hx. rewrite Hout by lia. apply fn_lookup_insert_ne. lia.
Qed.

(** The first listed table with a signature. *)
Definition has_sig (mem : amem) (hhdm sig t : Z) : bool := bool_decide (peek mem 4 (t +64 hhdm) = Some sig).
Definition first_table (mem : amem) (hhdm sig : Z) (ts : list Z) : option Z := snd <$> list_find (λ t, has_sig mem hhdm sig t = true) ts.

Lemma first_table_nil mem hhdm sig : first_table mem hhdm sig [] = None.
Proof. done. Qed.

Lemma first_table_cons mem hhdm sig t ts :
  first_table mem hhdm sig (t :: ts) = if has_sig mem hhdm sig t then Some t else first_table mem hhdm sig ts.
Proof.
  unfold first_table. cbn [list_find]. destruct (has_sig mem hhdm sig t) eqn:E.
  - by rewrite decide_True.
  - rewrite decide_False by done. by destruct (list_find _ ts) as [[]|].
Qed.

(** ** A firmware for the examples

    A root pointer at 0xF0000, a root table at 0xE0000 that lists an HPET table
    at 0xE1000 and a processor table at 0xE2000, and the memory of the start-up
    code at 0x8000. *)

Definition bytes_at (base : Z) (bs : list Z) (p : Z) : option Z := if base <=? p then bs !! Z.to_nat (p - base) else None.
Definition sdt_header (sig : list Z) (len : Z) : list Z := sig ++ le_bytes 4 len ++ replicate 28 0.
Definition example_rsdp : list Z := rsdp_sig ++ [0] ++ replicate 6 32 ++ [2] ++ le_bytes 4 0 ++ le_bytes 4 36 ++ le_bytes 8 0xE0000 ++ [0; 0; 0; 0].
Definition example_xsdt : list Z := sdt_header [88; 83; 68; 84] 52 ++ le_bytes 8 0xE1000 ++ le_bytes 8 0xE2000.
(** The table of the specification: 56 bytes, the base address at byte 44. *)
Definition example_hpet : list Z :=
  sdt_header [72; 80; 69; 84] 56 ++ le_bytes 4 0x8086A201 ++ [0; 64; 0; 0] ++ le_bytes 8 0xFED00000 ++ [0; 0x80; 0; 0].

Definition example_mem (hhdm : Z) (after_hpet madt low : list Z) : amem := λ a,
  let p := a - hhdm in
  match bytes_at 0xF0000 example_rsdp p with
  | Some b => Some b
  | None => match bytes_at 0xE2000 madt p with
            | Some b => Some b
            | None => match bytes_at 0xE1000 (example_hpet ++ after_hpet) p with
                      | Some b => Some b
                      | None => match bytes_at 0xE0000 example_xsdt p with
                                | Some b => Some b
                                | None => bytes_at 0x8000 low p
                                end
                      end
            end
  end.

Lemma example_root after_hpet madt low : let hhdm := 0xffff800000000000 in take 4 madt = [65; 80; 73; 67] →
  acpi_root (example_mem hhdm after_hpet madt low) hhdm (0xF0000 + hhdm) 2 0xE0000 [0xE1000; 0xE2000].
Proof.
  intros hhdm Hs. unfold hhdm. destruct madt as [|a [|b [|c [|d madt]]]]; try discriminate Hs. injection Hs as -> -> -> ->. constructor; try reflexivity.
  - intros i b Hb. do 8 (destruct i as [|i]; [injection Hb as <-; reflexivity|]). done.
  - done.
  - intros i t Ht. do 2 (destruct i as [|i]; [injection Ht as <-; reflexivity|]). done.
  - intros t Ht. repeat (apply elem_of_cons in Ht as [->|Ht]; [split; [by eexists|done]|]). by apply not_elem_of_nil in Ht.
Qed.

Lemma bytes_at_ok base bs p b : bytes_ok bs → bytes_at base bs p = Some b → byte_ok b.
Proof. unfold bytes_at. intros Hb. case_match; [|done]. intros Hin%list_elem_of_lookup_2. by apply (proj1 (Forall_forall _ _) Hb). Qed.

Lemma example_mem_ok hhdm after_hpet madt low : bytes_ok after_hpet → bytes_ok madt → bytes_ok low → amem_ok (example_mem hhdm after_hpet madt low).
Proof.
  intros Ha Hm Hl a b. unfold example_mem.
  assert (H1 : bytes_ok example_rsdp) by (apply (bool_decide_unpack (bytes_ok example_rsdp)); vm_compute; exact I).
  assert (H2 : bytes_ok example_hpet) by (apply (bool_decide_unpack (bytes_ok example_hpet)); vm_compute; exact I).
  assert (H3 : bytes_ok example_xsdt) by (apply (bool_decide_unpack (bytes_ok example_xsdt)); vm_compute; exact I).
  assert (H4 : bytes_ok (example_hpet ++ after_hpet)) by (by apply Forall_app).
  destruct (bytes_at 0xF0000 _ _) eqn:E1; [intros [= <-]; eapply bytes_at_ok; [|exact E1]; done|].
  destruct (bytes_at 0xE2000 _ _) eqn:E2; [intros [= <-]; eapply bytes_at_ok; [|exact E2]; done|].
  destruct (bytes_at 0xE1000 _ _) eqn:E3; [intros [= <-]; eapply bytes_at_ok; [|exact E3]; done|].
  destruct (bytes_at 0xE0000 _ _) eqn:E4; [intros [= <-]; eapply bytes_at_ok; [|exact E4]; done|]. by apply bytes_at_ok.
Qed.

(** The page of the start-up code. *)
Lemma example_low hhdm after_hpet madt x : hhdm + 0x8000 ≤ x < hhdm + 0x9000 →
  example_mem hhdm after_hpet madt (replicate (Z.to_nat 4096) 0) x = Some 0.
Proof.
  intros Hx. unfold example_mem, bytes_at. rewrite !(proj2 (Z.leb_gt _ (x - hhdm))) by lia. rewrite (proj2 (Z.leb_le _ _)) by lia.
  apply lookup_replicate. split; [done|]. lia.
Qed.
