(* ===== verification/Hpet.v ===== *)
(** * The HPET timer

    Model of src/kernel/hpet.cpp: finding the table, programming timer 0 and
    reading the counter.  The firmware's memory [mem] and the offset of the
    direct map are parameters; the registers are answered by [dev].  The busy
    wait of [hpet_sleep_us] has no bound in the code; [fuel] bounds its turns. *)

From S2P Require Import Prelude Bytes PortIo Acpi.
Open Scope Z_scope.

Definition HPET_GENERAL_CAPABILITIES : Z := 0x000.
Definition HPET_GENERAL_CONFIG : Z := 0x010.
Definition HPET_MAIN_COUNTER : Z := 0x0F0.
Definition HPET_TIMER0_CONFIG : Z := 0x100.
Definition HPET_TIMER0_COMPARATOR : Z := 0x108.
Definition HPET_CAP_PERIOD_MASK : Z := 0xFFFFFFFFFFFF.
Definition HPET_CAP_COUNT_SIZE : Z := Z.shiftl 1 13.
Definition HPET_CAP_LEGACY_RT : Z := Z.shiftl 1 15.
Definition HPET_CONFIG_ENABLE : Z := Z.shiftl 1 0.
Definition HPET_TN_TYPE : Z := Z.shiftl 1 1.
Definition HPET_TN_ENABLE : Z := Z.shiftl 1 2.
Definition HPET_TN_PERIODIC : Z := Z.shiftl 1 3.
Definition HPET_TN_PERIODIC_CNT : Z := Z.shiftl 1 6.
Definition HPET_TN_64BIT : Z := Z.shiftl 1 5.
Definition HPET_SIGNATURE : Z := 0x54455048.
(** 36 + 1 + 1 + 2 + 36 + 1 + 2 + 1, packed. *)
Definition sizeof_AcpiHpetTable : Z := 80.

Record hpet := mkHpet { kHpetBase : Z; kPeriodFs : Z; kFsPerUs : Z; kTimerMask : Z; h_mmio : list mmio_event }.
Definition set_kHpetBase v (r : hpet) := mkHpet v (kPeriodFs r) (kFsPerUs r) (kTimerMask r) (h_mmio r).
Definition set_kPeriodFs v (r : hpet) := mkHpet (kHpetBase r) v (kFsPerUs r) (kTimerMask r) (h_mmio r).
Definition set_kFsPerUs v (r : hpet) := mkHpet (kHpetBase r) (kPeriodFs r) v (kTimerMask r) (h_mmio r).
Definition set_kTimerMask v (r : hpet) := mkHpet (kHpetBase r) (kPeriodFs r) (kFsPerUs r) v (h_mmio r).
Definition set_h_mmio v (r : hpet) := mkHpet (kHpetBase r) (kPeriodFs r) (kFsPerUs r) (kTimerMask r) v.

#[export] Program Instance hpet_mmio : HasMmio hpet := {| mmio := h_mmio; set_mmio := set_h_mmio |}.
Next Obligation. done. Qed.
Next Obligation. done. Qed.
Next Obligation. by intros []. Qed.

Section hpet.
Context (mem : amem) (hhdm : Z) (dev : mmio_device).
Local Abbreviation W := (M hpet).

(** A volatile load of [n] bytes of the tables. *)
Definition rd (n : nat) (a : Z) : W Z := deref (peek mem n a).

Definition reg_ptr (offset : Z) : W Z := s ← get; mret (kHpetBase s +64 offset).
Definition reg_read (offset : Z) : W Z := a ← reg_ptr offset; mmio_load dev 64 a.
Definition reg_write (offset value : Z) : W () := a ← reg_ptr offset; mmio_store 64 a value.

(** [for (i = 0; i < 8; ++i) if (rsdp[i] != rsdp_sig[i]) return 0;] *)
Fixpoint check_sig (rsdp i : Z) (sig : list Z) : W bool :=
  match sig with
  | [] => mret true
  | b :: sig =>
    v ← rd 1 (rsdp +64 i);
    if negb (v =? b) then mret false else check_sig rsdp (i + 1) sig
  end.

(** The loop over the entries, [n] of them left from the [i]th on. *)
Fixpoint scan_entries (revision sdt : Z) (n : nat) (i : Z) : W Z :=
  match n with
  | O => mret 0
  | S n =>
    let entry_offset := u32 (sizeof_SdtHeader +64 u32 (i * entry_size revision)) in
    table_addr ← rd (if 2 <=? revision then 8 else 4) (sdt +64 entry_offset);
    if table_addr =? 0 then scan_entries revision sdt n (u32 (i + 1))
    else
      let table_addr := table_addr +64 hhdm in
      sig ← rd 4 table_addr;
      if sig =? HPET_SIGNATURE then mret table_addr else scan_entries revision sdt n (u32 (i + 1))
  end.

Definition find_hpet_table (rsdp : Z) : W Z :=
  ok ← check_sig rsdp 0 rsdp_sig;
  if negb ok then mret 0
  else
    revision ← rd 1 (rsdp +64 15);
    rsdt_addr ← if 2 <=? revision then rd 8 (rsdp +64 24) else rd 4 (rsdp +64 16);
    if rsdt_addr =? 0 then mret 0
    else
      let sdt := rsdt_addr +64 hhdm in
      sdt_length ← rd 4 (sdt +64 4);
      let entry_count := u32 ((sdt_length -64 sizeof_SdtHeader) / entry_size revision) in
      scan_entries revision sdt (Z.to_nat entry_count) 0.

Definition hpet_init (rsdp_addr : Z) : W () :=
  hpet_table_addr ← find_hpet_table rsdp_addr;
  if hpet_table_addr =? 0 then mret ()
  else
    let gen_addr := hpet_table_addr +64 sizeof_AcpiHpetTable in
    hpet_base ← rd 8 (gen_addr +64 8);
    if hpet_base =? 0 then mret ()
    else
      modify (set_kHpetBase (hpet_base +64 hhdm));;
      cap ← reg_read HPET_GENERAL_CAPABILITIES;
      modify (set_kPeriodFs (Z.land (Z.shiftr cap 32) HPET_CAP_PERIOD_MASK));;
      modify (set_kFsPerUs 1000000000);;
      let num_timers := u32 (Z.land (Z.shiftr cap 8) 0x1F + 1) in
      modify (set_kTimerMask (u32 (u64 (Z.shiftl 1 num_timers) - 1)));;
      reg_write HPET_GENERAL_CONFIG 0;;
      s ← get;
      let one_ms_fs := u64 (1000 * kFsPerUs s) in
      if kPeriodFs s =? 0 then undefined
      else
        let tick_count := one_ms_fs / kPeriodFs s in
        reg_write HPET_TIMER0_COMPARATOR tick_count;;
        let timer_config := Z.lor (Z.lor (Z.lor HPET_TN_TYPE HPET_TN_PERIODIC) HPET_TN_ENABLE) HPET_TN_PERIODIC_CNT in
        let timer_config := if has_flag cap HPET_CAP_COUNT_SIZE then timer_config else clear_flag 64 timer_config HPET_TN_64BIT in
        reg_write HPET_TIMER0_CONFIG timer_config;;
        reg_write HPET_GENERAL_CONFIG HPET_CONFIG_ENABLE.

Definition hpet_read_us : W Z :=
  s ← get;
  if kHpetBase s =? 0 then mret 0
  else
    counter ← reg_read HPET_MAIN_COUNTER;
    if kFsPerUs s =? 0 then undefined else mret (u64 (counter * kPeriodFs s) / kFsPerUs s).

(** [while (hpet_read_us() < end) pause;] *)
Fixpoint sleep_loop (fuel : nat) (end_ : Z) : W () :=
  match fuel with
  | O => undefined
  | S fuel =>
    t ← hpet_read_us;
    if t <? end_ then pause;; sleep_loop fuel end_ else mret ()
  end.

Definition hpet_sleep_us (fuel : nat) (microseconds : Z) : W () :=
  s ← get;
  if kHpetBase s =? 0 then mret ()
  else
    start ← hpet_read_us;
    sleep_loop fuel (start +64 microseconds).
End hpet.

(** * Properties of the HPET driver *)

(** ** Finding the table *)

Section find.
Context (mem : amem) (hhdm rsdp revision sdt : Z) (ts : list Z) (Hroot : acpi_root mem hhdm rsdp revision sdt ts).
Implicit Types s : hpet.

Lemma rd_wp n a v s (Q : Z → hpet → Prop) : peek mem n a = Some v → Q v s → wp (rd mem n a) Q s.
Proof. intros E HQ. unfold rd. rewrite E. by apply wp_ret. Qed.

Lemma check_sig_wp sig s (Q : bool → hpet → Prop) i : 0 ≤ i →
  (∀ k b, sig !! k = Some b → mem (rsdp +64 (i + Z.of_nat k)) = Some b) → Q true s → wp (check_sig mem rsdp i sig) Q s.
Proof.
  intros Hi Hm HQ. revert i Hi Hm. induction sig as [|b sig IH]; intros i Hi Hm; cbn [check_sig]; [by apply wp_ret|].
  apply wp_bind. eapply rd_wp; [apply peek_1; rewrite <-(Hm 0%nat b eq_refl); do 2 f_equal; lia|]. rewrite Z.eqb_refl. cbn [negb].
  apply IH; [lia|]. intros k c Hk. rewrite <-(Hm (S k) c Hk). do 2 f_equal. lia.
Qed.

(** The result of a search: the virtual address, or null. *)
Definition found (o : option Z) : Z := match o with Some t => t +64 hhdm | None => 0 end.

Lemma scan_entries_wp us : ∀ i s (Q : Z → hpet → Prop), (∀ k t, us !! k = Some t → ts !! (i + k)%nat = Some t) →
  Q (found (first_table mem hhdm HPET_SIGNATURE (filter (.≠ 0) us))) s →
  wp (scan_entries mem hhdm revision (sdt +64 hhdm) (length us) (Z.of_nat i)) Q s.
Proof using Hroot.
  induction us as [|t us IH]; intros i s Q Hus HQ; cbn [length scan_entries]; [by apply wp_ret|].
  pose proof (Hus 0%nat t eq_refl) as Ht. rewrite Nat.add_0_r in Ht. pose proof (ar_count _ _ _ _ _ _ Hroot) as Hc.
  assert (Hi : Z.of_nat i < 2 ^ 28) by (apply lookup_lt_Some in Ht; lia).
  assert (Eo : u32 (sizeof_SdtHeader +64 u32 (Z.of_nat i * entry_size revision)) = sizeof_SdtHeader + entry_size revision * Z.of_nat i).
  { destruct (entry_size_pos revision) as [-> | ->]; unfold sizeof_SdtHeader; rewrite (wrap_small 32 (Z.of_nat i * _)) by lia;
      rewrite (wrap_small 64) by lia; rewrite wrap_small by lia; lia. }
  assert (Esz : (if 2 <=? revision then 8%nat else 4%nat) = Z.to_nat (entry_size revision)) by (unfold entry_size; by destruct (2 <=? revision)).
  rewrite Eo, Esz. apply wp_bind. eapply rd_wp; [by apply (ar_entry _ _ _ _ _ _ Hroot)|].
  assert (Hnext : wp (scan_entries mem hhdm revision (sdt +64 hhdm) (length us) (u32 (Z.of_nat i + 1)))
    (λ r s', s' = s ∧ r = found (first_table mem hhdm HPET_SIGNATURE (filter (.≠ 0) us))) s).
  { rewrite (wrap_small 32) by lia. replace (Z.of_nat i + 1) with (Z.of_nat (S i)) by lia. apply IH; [|done].
    intros k u Hk. rewrite <-(Hus (S k) u Hk). f_equal. lia. }
  destruct (Z.eqb_spec t 0) as [->|Hne].
  { rewrite filter_cons_False in HQ by lia. eapply wp_mono; [exact Hnext|]. by intros r s' [-> ->]. }
  rewrite filter_cons_True, first_table_cons in HQ by done. unfold has_sig in HQ.
  destruct (ar_tables _ _ _ _ _ _ Hroot t) as [[sig Hs] _]; [by eapply list_elem_of_lookup_2|]. rewrite Hs in HQ.
  apply wp_bind. eapply rd_wp; [exact Hs|]. destruct (Z.eqb_spec sig HPET_SIGNATURE) as [->|Hs'].
  - apply wp_ret. by rewrite bool_decide_true in HQ.
  - rewrite bool_decide_false in HQ by congruence. eapply wp_mono; [exact Hnext|]. by intros r s' [-> ->].
Qed.

Lemma find_hpet_table_wp s (Q : Z → hpet → Prop) :
  Q (found (first_table mem hhdm HPET_SIGNATURE (filter (.≠ 0) ts))) s → wp (find_hpet_table mem hhdm rsdp) Q s.
Proof using Hroot.
  intros HQ. unfold find_hpet_table. apply wp_bind. apply check_sig_wp; [done|apply (ar_sig _ _ _ _ _ _ Hroot)|]. cbn [negb].
  apply wp_bind. eapply rd_wp; [apply peek_1, (ar_rev _ _ _ _ _ _ Hroot)|]. pose proof (ar_pointer _ _ _ _ _ _ Hroot) as Hp.
  pose proof (ar_count _ _ _ _ _ _ Hroot) as Hc. apply wp_bind.
  assert (Hrest : wp (if sdt =? 0 then mret 0 else sdt_length ← rd mem 4 ((sdt +64 hhdm) +64 4);
    scan_entries mem hhdm revision (sdt +64 hhdm) (Z.to_nat (u32 ((sdt_length -64 sizeof_SdtHeader) / entry_size revision))) 0) Q s).
  { rewrite (proj2 (Z.eqb_neq _ _)) by apply (ar_nonnull _ _ _ _ _ _ Hroot). apply wp_bind. eapply rd_wp; [apply (ar_length _ _ _ _ _ _ Hroot)|].
    assert (E : u32 ((sizeof_SdtHeader + entry_size revision * Z.of_nat (length ts) -64 sizeof_SdtHeader) / entry_size revision) = Z.of_nat (length ts)).
    { destruct (entry_size_pos revision) as [-> | ->]; unfold sizeof_SdtHeader; rewrite (wrap_small 64) by lia;
        rewrite Z.add_simpl_l, Z.mul_comm, Z.div_mul, wrap_small by lia; done. }
    rewrite E, Nat2Z.id. apply (scan_entries_wp ts 0); [done|done]. }
  destruct (2 <=? revision); (eapply rd_wp; [exact Hp|exact Hrest]).
Qed.
End find.

(** ** Programming the timer *)

Definition hstore (b reg v : Z) : mmio_event := MStore 64 (b +64 reg) v.
Definition hload (b reg v : Z) : mmio_event := MLoad 64 (b +64 reg) v.

(** The accesses of the initialisation, for a counter of the given capabilities. *)
Definition init_events (b cap : Z) : list mmio_event :=
  [hload b HPET_GENERAL_CAPABILITIES cap; hstore b HPET_GENERAL_CONFIG 0;
   hstore b HPET_TIMER0_COMPARATOR (10 ^ 12 / (cap / 2 ^ 32)); hstore b HPET_TIMER0_CONFIG 0x4E; hstore b HPET_GENERAL_CONFIG 1].

Definition initialised (b cap : Z) (s : hpet) : hpet :=
  mkHpet b (cap / 2 ^ 32) 1000000000 (u32 (2 ^ (Z.land (Z.shiftr cap 8) 0x1F + 1) - 1)) (h_mmio s ++ init_events b cap).

Lemma timer_config_value cap : (if has_flag cap HPET_CAP_COUNT_SIZE
   then Z.lor (Z.lor (Z.lor HPET_TN_TYPE HPET_TN_PERIODIC) HPET_TN_ENABLE) HPET_TN_PERIODIC_CNT
   else clear_flag 64 (Z.lor (Z.lor (Z.lor HPET_TN_TYPE HPET_TN_PERIODIC) HPET_TN_ENABLE) HPET_TN_PERIODIC_CNT) HPET_TN_64BIT) = 0x4E.
Proof. by destruct (has_flag cap HPET_CAP_COUNT_SIZE). Qed.

Lemma cap_period cap : 0 ≤ cap < 2 ^ 64 → Z.land (Z.shiftr cap 32) HPET_CAP_PERIOD_MASK = cap / 2 ^ 32.
Proof.
  intros Hc. change HPET_CAP_PERIOD_MASK with (Z.ones 48). rewrite Z.land_ones, Z.shiftr_div_pow2 by lia. apply Z.mod_small. split; [by apply Z.div_pos; lia|].
  apply Z.div_lt_upper_bound; lia.
Qed.

Lemma num_timers_bound cap : 0 ≤ Z.land (Z.shiftr cap 8) 0x1F < 32.
Proof. change 0x1F with (Z.ones 5). rewrite Z.land_ones by lia. by apply Z.mod_pos_bound. Qed.

Section init.
Context (mem : amem) (hhdm : Z) (dev : mmio_device).
Implicit Types s : hpet.

Lemma reg_read_wp reg s (Q : Z → hpet → Prop) :
  (let v := u64 (dev (h_mmio s) 64 (kHpetBase s +64 reg)) in Q v (set_h_mmio (h_mmio s ++ [hload (kHpetBase s) reg v]) s)) →
  wp (reg_read dev reg) Q s.
Proof. done. Qed.

Lemma reg_write_wp reg v s (Q : () → hpet → Prop) : 0 ≤ v < 2 ^ 64 →
  Q () (set_h_mmio (h_mmio s ++ [hstore (kHpetBase s) reg v]) s) → wp (reg_write reg v) Q s.
Proof.
  intros Hv HQ. unfold reg_write, reg_ptr. wp_run. eapply wp_eq; [apply mmio_store_eq|]. by rewrite (wrap_small 64 v).
Qed.

Lemma hpet_init_wp rsdp T base s (Q : () → hpet → Prop) :
  find_hpet_table mem hhdm rsdp s = Ok (T, s) → T ≠ 0 → peek mem 8 ((T +64 sizeof_AcpiHpetTable) +64 8) = Some base → base ≠ 0 →
  let b := base +64 hhdm in let cap := u64 (dev (h_mmio s) 64 (b +64 0)) in
  cap / 2 ^ 32 ≠ 0 → Q () (initialised b cap s) → wp (hpet_init mem hhdm dev rsdp) Q s.
Proof.
  intros HT HT0 Hp Hb b cap Hper HQ. unfold hpet_init. apply wp_bind. eapply wp_eq; [exact HT|].
  rewrite (proj2 (Z.eqb_neq T 0)) by done. apply wp_bind. eapply rd_wp; [exact Hp|]. rewrite (proj2 (Z.eqb_neq base 0)) by done.
  assert (Hcap : 0 ≤ cap < 2 ^ 64) by (by apply wrap_range). pose proof (num_timers_bound cap) as Hn.
  assert (Hd : 0 ≤ cap / 2 ^ 32 < 2 ^ 32) by (split; [by apply Z.div_pos; lia|apply Z.div_lt_upper_bound; lia]).
  apply wp_bind, wp_modify. apply wp_bind, reg_read_wp. change (u64 (dev (h_mmio (set_kHpetBase (base +64 hhdm) s)) 64 (kHpetBase (set_kHpetBase (base +64 hhdm) s) +64 HPET_GENERAL_CAPABILITIES))) with cap.
  cbn zeta. clearbody cap. do 3 (apply wp_bind, wp_modify). apply wp_bind, reg_write_wp; [done|].
  apply wp_bind, wp_get. cbn [kPeriodFs kFsPerUs set_h_mmio set_kTimerMask set_kFsPerUs set_kPeriodFs].
  rewrite cap_period, (proj2 (Z.eqb_neq _ 0)), timer_config_value by done. change (u64 (1000 * 1000000000)) with (10 ^ 12).
  apply wp_bind, reg_write_wp.
  { split; [by apply Z.div_pos; lia|]. apply Z.div_lt_upper_bound; [lia|]. assert (1 ≤ cap / 2 ^ 32) by lia. nia. }
  apply wp_bind, reg_write_wp; [done|]. apply reg_write_wp; [done|].
  unfold initialised, init_events in HQ. cbn [h_mmio kHpetBase set_h_mmio set_kTimerMask set_kFsPerUs set_kPeriodFs set_kHpetBase] in *.
  rewrite <-!app_assoc. rewrite (wrap_small 32 (Z.land _ _ + 1)) by lia. rewrite Z.shiftl_1_l.
  rewrite (wrap_small 64 (2 ^ _)); [exact HQ|]. split; [lia|]. apply Z.pow_lt_mono_r; lia.
Qed.
End init.

(** ** The clock *)

(** The time a counter value stands for, in microseconds. *)
Definition time_us (period c : Z) : Z := u64 (c * period) / 1000000000.

(** A clock that runs: it has a base and the conversion of [hpet_init]. *)
Definition running (s : hpet) : Prop := kHpetBase s ≠ 0 ∧ kFsPerUs s = 1000000000.

Section clock.
Context (dev : mmio_device).
Implicit Types s : hpet.

Definition reading s : Z := u64 (dev (h_mmio s) 64 (kHpetBase s +64 HPET_MAIN_COUNTER)).
Definition after_reading s : hpet := set_h_mmio (h_mmio s ++ [hload (kHpetBase s) HPET_MAIN_COUNTER (reading s)]) s.

Lemma hpet_read_us_eq s : running s → hpet_read_us dev s = Ok (time_us (kPeriodFs s) (reading s), after_reading s).
Proof.
  intros [Hb Hf]. unfold hpet_read_us, mbind, M_bind, get. rewrite (proj2 (Z.eqb_neq _ 0)) by done. rewrite Hf. reflexivity.
Qed.

(** Whether a reading of at least [t] comes within [n] readings. *)
Fixpoint reaches (n : nat) (t : Z) s : bool :=
  match n with
  | O => false
  | S n => (t <=? time_us (kPeriodFs s) (reading s)) || reaches n t (mmio_add Pause (after_reading s))
  end.

Lemma running_add e s : running (mmio_add e (after_reading s)) ↔ running s.
Proof. done. Qed.

(** The turns of the wait. *)
Lemma sleep_loop_wp n t : ∀ s (Q : () → hpet → Prop), running s → reaches n t s = true →
  (∀ cs c, Forall (λ c, time_us (kPeriodFs s) c < t) cs → t ≤ time_us (kPeriodFs s) c →
     Q () (set_h_mmio (h_mmio s ++ (cs ≫= λ c, [hload (kHpetBase s) HPET_MAIN_COUNTER c; Pause]) ++ [hload (kHpetBase s) HPET_MAIN_COUNTER c]) s)) →
  wp (sleep_loop dev n t) Q s.
Proof.
  induction n as [|n IH]; intros s Q Hs Hr HQ; [done|]. cbn [reaches] in Hr. cbn [sleep_loop]. apply wp_bind. eapply wp_eq; [by apply hpet_read_us_eq|].
  destruct (Z.ltb_spec (time_us (kPeriodFs s) (reading s)) t) as [Hlt|Hge].
  - rewrite (proj2 (Z.leb_gt _ _)) in Hr by lia. cbn [orb] in Hr. apply wp_bind, wp_modify.
    apply IH; [done|done|]. intros cs c Hcs Hc. specialize (HQ (reading s :: cs) c). unfold mmio_add, after_reading.
    cbn [mmio set_mmio hpet_mmio h_mmio set_h_mmio kHpetBase kPeriodFs] in *. rewrite <-!app_assoc in *. apply HQ; [by constructor|done].
  - apply wp_ret. by apply (HQ [] (reading s)).
Qed.

Lemma sleep_loop_stuck n t : ∀ s, running s → 2 ^ 64 / 1000000000 < t → sleep_loop dev n t s = UB.
Proof.
  induction n as [|n IH]; intros s Hs Ht; [done|]. cbn [sleep_loop]. rewrite (bind_ok _ _ _ _ _ (hpet_read_us_eq s Hs)).
  assert (Hm : time_us (kPeriodFs s) (reading s) ≤ 2 ^ 64 / 1000000000).
  { unfold time_us. apply Z.div_le_mono; [lia|]. pose proof (wrap_range 64 (reading s * kPeriodFs s)). lia. }
  rewrite (proj2 (Z.ltb_lt _ _)) by lia. unfold pause. unfold mbind at 1, M_bind at 1, modify. by apply IH.
Qed.
End clock.

(** ** Properties *)

(** With readable tables, [hpet_init] takes the first HPET table listed and
    reads the word 88 bytes behind its start; when that is the address of a
    counter whose period is not 0, the counter is stopped, comparator 0 gets the
    number of periods in a millisecond, the timer is configured and the counter
    started, in this order. *)
Theorem hpet_init_correct mem hhdm dev rsdp revision sdt ts t base (s : hpet) :
  acpi_root mem hhdm rsdp revision sdt ts → first_table mem hhdm HPET_SIGNATURE (filter (.≠ 0) ts) = Some t → t +64 hhdm ≠ 0 →
  peek mem 8 ((t +64 hhdm +64 80) +64 8) = Some base → base ≠ 0 →
  let b := base +64 hhdm in let cap := u64 (dev (h_mmio s) 64 (b +64 0)) in let period := cap / 2 ^ 32 in
  period ≠ 0 →
  ∃ s' ticks, hpet_init mem hhdm dev rsdp s = Ok ((), s') ∧ kHpetBase s' = b ∧ kPeriodFs s' = period ∧ kFsPerUs s' = 10 ^ 9 ∧
    ticks * period ≤ 10 ^ 12 < (ticks + 1) * period ∧
    h_mmio s' = h_mmio s ++ [MLoad 64 (b +64 0) cap; MStore 64 (b +64 HPET_GENERAL_CONFIG) 0; MStore 64 (b +64 HPET_TIMER0_COMPARATOR) ticks;
                             MStore 64 (b +64 HPET_TIMER0_CONFIG) 0x4E; MStore 64 (b +64 HPET_GENERAL_CONFIG) 1].
Proof.
  intros Hroot Hf Ht Hp Hb b cap period Hper.
  assert (Hfind : find_hpet_table mem hhdm rsdp s = Ok (t +64 hhdm, s)).
  { destruct (proj1 (wp_ok _ _ _) (find_hpet_table_wp mem hhdm rsdp revision sdt ts Hroot s (λ r s', r = t +64 hhdm ∧ s' = s) ltac:(by rewrite Hf)))
      as (r & s' & E & -> & ->). exact E. }
  destruct (proj1 (wp_ok _ _ _) (hpet_init_wp mem hhdm dev rsdp (t +64 hhdm) base s (λ _ s', s' = initialised b cap s) Hfind Ht Hp Hb Hper eq_refl))
    as ([] & s' & E & ->). eexists _, (10 ^ 12 / period). split; [exact E|].
  assert (0 < period). { assert (0 ≤ period); [|lia]. unfold period, cap. apply Z.div_pos; [apply wrap_range; lia|lia]. }
  cbn [kHpetBase kPeriodFs kFsPerUs initialised h_mmio]. split_and!; try done.
  - pose proof (Z.mul_div_le (10 ^ 12) period ltac:(lia)). lia.
  - pose proof (Z.mul_succ_div_gt (10 ^ 12) period ltac:(lia)). lia.
Qed.

(** A counter of 100 ns with 64 bits, and a firmware that puts its address where
    the driver looks. *)
Definition hpet_device : mmio_device := λ _ _ a, if a =? 0xffff8000fed00000 then Z.shiftl 100000000 32 + 0x8086A201 else 0.
Definition apic_sig : list Z := [65; 80; 73; 67].
Definition lucky_mem : amem := example_mem 0xffff800000000000 (replicate 32 0 ++ le_bytes 8 0xFED00000) apic_sig [].
Definition cold_hpet : hpet := mkHpet 0 0 0 0 [].

Lemma hpet_init_correct_witness : ∃ s' ticks, hpet_init lucky_mem 0xffff800000000000 hpet_device 0xffff8000000f0000 cold_hpet = Ok ((), s') ∧
  kHpetBase s' = 0xffff8000fed00000 ∧ kPeriodFs s' = 100000000 ∧ ticks * kPeriodFs s' ≤ 10 ^ 12 < (ticks + 1) * kPeriodFs s'.
Proof.
  destruct (hpet_init_correct lucky_mem 0xffff800000000000 hpet_device 0xffff8000000f0000 2 0xE0000 [0xE1000; 0xE2000] 0xE1000 0xFED00000 cold_hpet
    (example_root _ apic_sig [] eq_refl) ltac:(vm_compute; reflexivity) ltac:(by vm_compute) ltac:(vm_compute; reflexivity) ltac:(done) ltac:(by vm_compute))
    as (s' & ticks & E & Hb & Hp & _ & Ht & _).
  exists s', ticks. split; [exact E|]. split; [exact Hb|]. split; [rewrite Hp; vm_compute; reflexivity|]. rewrite Hp. exact Ht.
Defined.

(** The address is looked for behind the table.  For a table laid out as the
    specification says (56 bytes, the base address at byte 44), whatever base
    it gives, the driver does not initialise the counter when the memory it reads
    instead is 0; the clock then reads 0 and every sleep returns at once. *)
Theorem hpet_base_missed mem hhdm dev rsdp revision sdt ts t B us fuel (s : hpet) :
  acpi_root mem hhdm rsdp revision sdt ts → first_table mem hhdm HPET_SIGNATURE (filter (.≠ 0) ts) = Some t →
  peek mem 8 (t +64 hhdm +64 44) = Some B → peek mem 8 ((t +64 hhdm +64 80) +64 8) = Some 0 → kHpetBase s = 0 →
  hpet_init mem hhdm dev rsdp s = Ok ((), s) ∧ hpet_read_us dev s = Ok (0, s) ∧ hpet_sleep_us dev fuel us s = Ok ((), s).
Proof.
  intros Hroot Hf _ Hp Hs. split_and!.
  - assert (Hw : wp (hpet_init mem hhdm dev rsdp) (λ _ s', s' = s) s).
    { unfold hpet_init. apply wp_bind. eapply find_hpet_table_wp; [exact Hroot|]. rewrite Hf. cbn [found].
      destruct (t +64 hhdm =? 0); [by apply wp_ret|]. apply wp_bind. eapply rd_wp; [exact Hp|]. by apply wp_ret. }
    destruct (proj1 (wp_ok _ _ _) Hw) as ([] & s' & E & ->). exact E.
  - unfold hpet_read_us, mbind, M_bind, get. by rewrite Hs.
  - unfold hpet_sleep_us, mbind, M_bind, get. by rewrite Hs.
Qed.

Definition plain_mem : amem := example_mem 0xffff800000000000 (replicate 64 0) apic_sig [].

Lemma hpet_base_missed_witness : peek plain_mem 8 (0xE1000 +64 0xffff800000000000 +64 44) = Some 0xFED00000 ∧
  hpet_init plain_mem 0xffff800000000000 hpet_device 0xffff8000000f0000 cold_hpet = Ok ((), cold_hpet).
Proof.
  assert (E : peek plain_mem 8 (0xE1000 +64 0xffff800000000000 +64 44) = Some 0xFED00000) by (vm_compute; reflexivity). split; [exact E|].
  exact (proj1 (hpet_base_missed plain_mem 0xffff800000000000 hpet_device 0xffff8000000f0000 2 0xE0000 [0xE1000; 0xE2000] 0xE1000 0xFED00000 5 1 cold_hpet
    (example_root _ apic_sig [] eq_refl) ltac:(vm_compute; reflexivity) E ltac:(vm_compute; reflexivity) eq_refl)).
Defined.


(** A clock of one microsecond that advances one with every access. *)
Definition tick_device : mmio_device := λ tr _ _, Z.of_nat (length tr).
Definition tick_hpet : hpet := mkHpet 0xffff8000fed00000 1000000000 1000000000 0 [].

