(* ===== verification/Smp.v ===== *)
(** * Starting the other processors

    Model of src/arch/x86_64/smp.cpp over the APIC driver: the search for the
    processor table, the list of processors, the start-up code at 0x8000 and
    the interrupts that start each processor.  [kCpusStarted] is memory shared with the
    other processors, so its reads are answered by [dev] like those of a device.
    The start-up code, its entry point and the address of the shared counter are
    parameters; [fuel] bounds the loops that have no bound in the code. *)

From S2P Require Import Prelude Bytes Pmm PmmBlocks PmmInv PageAlloc PmmTheorems PortIo Descriptors Apic Acpi.
Open Scope Z_scope.

Definition MAX_CPUS : Z := 64.
Definition TRAMPOLINE_PHYS : Z := 0x8000.
Definition OFF_GDT64_PTR : Z := 0x40.
Definition OFF_PML4 : Z := 0x4A.
Definition OFF_STACK : Z := 0x4E.
Definition OFF_ENTRY : Z := 0x56.
(** The offset of the flexible array of a [MADT]. *)
Definition MADT_ENTRIES : Z := 44.

(** The encoded lengths of the instructions of src/arch/x86_64/trampoline.asm, in
    16, 32 and 64 bits, and the offset of the data the code loads: the block is
    aligned to 8 bytes and starts with the 6 bytes of [gdt32_ptr]. *)
Definition trampoline_code : list Z :=
  [1; 1; 2; 2; 2; 2; 3; 5; 3; 4; 3; 5] ++ [4; 2; 2; 2; 3; 3; 3; 5; 3; 5; 2; 5; 2; 3; 5; 3; 7; 7] ++ [4; 2; 2; 2; 2; 2; 7; 7; 2; 1; 2].
Definition trampoline_data : Z := 8 * ((foldr Z.add 0 trampoline_code + 7) / 8).
Definition LABEL_GDT64_PTR : Z := trampoline_data + 6.
Definition LABEL_PML4 : Z := LABEL_GDT64_PTR + 10.
Definition LABEL_STACK : Z := LABEL_PML4 + 4.
Definition LABEL_ENTRY : Z := LABEL_STACK + 8.

Record smp (PA : Type) := mkSmp {
  kCpuCount : Z; kLapicIds : list Z; kHhdm : Z; s_mem : amem; s_pages : PA; s_cr3 : Z
}.
Arguments mkSmp {PA}. Arguments kCpuCount {PA}. Arguments kLapicIds {PA}. Arguments kHhdm {PA}. Arguments s_mem {PA}.
Arguments s_pages {PA}. Arguments s_cr3 {PA}.

Section setters.
Context {PA : Type}.
Implicit Types r : smp PA.
Definition set_kCpuCount v r := mkSmp v (kLapicIds r) (kHhdm r) (s_mem r) (s_pages r) (s_cr3 r).
Definition set_kLapicIds v r := mkSmp (kCpuCount r) v (kHhdm r) (s_mem r) (s_pages r) (s_cr3 r).
Definition set_kHhdm v r := mkSmp (kCpuCount r) (kLapicIds r) v (s_mem r) (s_pages r) (s_cr3 r).
Definition set_s_mem v r := mkSmp (kCpuCount r) (kLapicIds r) (kHhdm r) v (s_pages r) (s_cr3 r).
Definition set_s_pages (v : PA) r := mkSmp (kCpuCount r) (kLapicIds r) (kHhdm r) (s_mem r) v (s_cr3 r).
End setters.

Section smp.
Context {PA : Type} `{!PageAllocator PA} (hw : hardware) (dev : mmio_device) (fuel : nat).
Context (trampoline : list Z) (gdt_addr ap_entry started_addr : Z).
Local Abbreviation W := (M (apic (smp PA))).

Definition upd (f : smp PA → smp PA) : W () := modify (λ s, set_rest (f (rest s)) s).
Definition rd (n : nat) (a : Z) : W Z := s ← get; deref (peek (s_mem (rest s)) n a).
Definition wr (a : Z) (bs : list Z) : W () :=
  s ← get; m ← deref (poke (s_mem (rest s)) a bs); upd (set_s_mem m).
Definition page_op {A} (m : M PA A) : W A := λ s,
  match m (s_pages (rest s)) with
  | Ok (a, pa) => Ok (a, set_rest (set_s_pages pa (rest s)) s)
  | Panic msg => Panic msg
  | UB => UB
  end.

(** [signature[0] == 'A' && ... && signature[3] == 'C'] *)
Fixpoint sig_is (header i : Z) (sig : list Z) : W bool :=
  match sig with
  | [] => mret true
  | b :: sig => v ← rd 1 (header +64 i); if v =? b then sig_is header (i + 1) sig else mret false
  end.

(** The loop over the entries of the root table, [n] of them left. *)
Fixpoint find_madt (revision xsdt hhdm : Z) (n : nat) (i : Z) : W Z :=
  match n with
  | O => mret 0
  | S n =>
    table_phys ← rd (if 2 <=? revision then 8 else 4) ((xsdt +64 sizeof_SdtHeader) +64 (i * entry_size revision));
    let header := table_phys +64 hhdm in
    b ← sig_is header 0 [65; 80; 73; 67];
    if (b : bool) then mret header else find_madt revision xsdt hhdm n (u32 (i + 1))
  end.

(** [kLapicIds[kCpuCount++] = lapic_id] *)
Definition add_cpu (lapic_id : Z) : W () :=
  s ← get;
  let c := kCpuCount (rest s) in
  if c <? Z.of_nat (length (kLapicIds (rest s))) then
    upd (set_kLapicIds (<[Z.to_nat c := lapic_id]> (kLapicIds (rest s))));;
    upd (set_kCpuCount (u32 (c + 1)))
  else undefined.

Definition madt_entry (ptr type : Z) : W () :=
  when (type =? 0) (
    lapic_id ← rd 1 (ptr +64 3);
    flags ← rd 4 (ptr +64 4);
    s ← get;
    when (has_flag flags 1 && (kCpuCount (rest s) <? MAX_CPUS))
      (when (negb (lapic_id =? 0)) (add_cpu lapic_id))).

(** [while (ptr < end)] *)
Fixpoint parse_madt (n : nat) (ptr end_ : Z) : W () :=
  if negb (ptr <? end_) then mret ()
  else
    match n with
    | O => undefined
    | S n =>
      type ← rd 1 ptr;
      len ← rd 1 (ptr +64 1);
      madt_entry ptr type;;
      parse_madt n (ptr +64 len) end_
    end.

(** Copying the start-up code and the values it needs. *)
Definition prepare_trampoline (hhdm : Z) : W () :=
  let dest := TRAMPOLINE_PHYS +64 hhdm in
  wr dest trampoline;;
  let gdtr := gdt_get_gdtr gdt_addr in
  wr (dest +64 OFF_GDT64_PTR) (le_bytes 2 (gdtr_limit gdtr));;
  wr (dest +64 (OFF_GDT64_PTR + 2)) (le_bytes 8 (gdtr_base gdtr));;
  s ← get;
  wr (dest +64 OFF_PML4) (le_bytes 4 (u32 (s_cr3 (rest s))));;
  wr (dest +64 OFF_ENTRY) (le_bytes 8 ap_entry).

(** [for (int j = 0; j < n; j++) pause;] *)
Fixpoint pauses (n : nat) : W () := match n with O => mret () | S n => pause;; pauses n end.

Definition boot_ap (hhdm i : Z) : W () :=
  s ← get;
  lapic_id ← deref (kLapicIds (rest s) !! Z.to_nat i);
  stack_phys ← page_op (pa_alloc 4);
  let stack_top := (stack_phys +64 hhdm) +64 4 * PAGE_SIZE in
  wr ((TRAMPOLINE_PHYS +64 hhdm) +64 OFF_STACK) (le_bytes 8 stack_top);;
  apic_send_ipi dev fuel lapic_id (Z.lor (Z.lor ICR_INIT ICR_ASSERT) ICR_LEVEL_TRIGGER);;
  pauses (Z.to_nat 10000000);;
  apic_send_ipi dev fuel lapic_id (Z.lor ICR_STARTUP 0x08);;
  pauses (Z.to_nat 1000000);;
  apic_send_ipi dev fuel lapic_id (Z.lor ICR_STARTUP 0x08).

(** [while (kCpusStarted < kCpuCount) pause;] *)
Fixpoint wait_started (n : nat) : W () :=
  match n with
  | O => undefined
  | S n =>
    v ← mmio_load dev 32 started_addr;
    s ← get;
    if v <? kCpuCount (rest s) then pause;; wait_started n else mret ()
  end.

Definition boot_aps (hhdm : Z) : W () :=
  s ← get;
  for_each (seqZ 1 (kCpuCount (rest s) - 1)) (boot_ap hhdm);;
  wait_started fuel.

Definition smp_init (rsdp_phys hhdm_offset : Z) : W () :=
  upd (set_kHhdm hhdm_offset);;
  let rsdp := rsdp_phys +64 hhdm_offset in
  revision ← rd 1 (rsdp +64 15);
  xsdt ← if 2 <=? revision then rd 8 (rsdp +64 24) else rd 4 (rsdp +64 16);
  let xsdt := xsdt +64 hhdm_offset in
  len ← rd 4 (xsdt +64 4);
  let entries := u32 ((len -64 sizeof_SdtHeader) / entry_size revision) in
  madt ← find_madt revision xsdt hhdm_offset (Z.to_nat entries) 0;
  if madt =? 0 then mret ()
  else
    len ← rd 4 (madt +64 4);
    parse_madt fuel (madt +64 MADT_ENTRIES) (madt +64 len);;
    prepare_trampoline hhdm_offset;;
    boot_aps hhdm_offset.

Definition smp_get_cpu_count : W Z := gets (λ s, kCpuCount (rest s)).

(** Up to the idle loop of the processor that was started. *)
Definition ap_kernel_entry : W () :=
  s ← get;
  apic_init hw dev fuel (kHhdm (rest s));;
  v ← mmio_load dev 32 started_addr;
  mmio_store 32 started_addr (v + 1).
End smp.

(** * Properties of the processor start *)

Definition APIC_SIGNATURE : Z := 0x43495041.

(** ** The processor table

    An entry as the parser reads it; [me_id] and [me_flags] are those of a local
    APIC entry. *)
Record madt_ent := mkEnt { me_type : Z; me_len : Z; me_id : Z; me_flags : Z }.

Fixpoint layout (mem : amem) (ptr : Z) (es : list madt_ent) (end_ : Z) : Prop :=
  match es with
  | [] => ptr = end_
  | e :: es =>
    mem ptr = Some (me_type e) ∧ mem (ptr + 1) = Some (me_len e) ∧ 2 ≤ me_len e ∧
    (me_type e = 0 → mem (ptr + 3) = Some (me_id e) ∧ peek mem 4 (ptr + 4) = Some (me_flags e)) ∧
    layout mem (ptr + me_len e) es end_
  end.

(** The processors to start: those usable, apart from the one with identifier 0. *)
Definition usable (e : madt_ent) : bool := (me_type e =? 0) && has_flag (me_flags e) 1 && negb (me_id e =? 0).
Definition cpus (es : list madt_ent) : list Z := me_id <$> filter (λ e, usable e = true) es.

Lemma layout_end mem es : ∀ ptr end_, layout mem ptr es end_ → ptr ≤ end_.
Proof. induction es as [|e es IH]; intros ptr end_; cbn [layout]; [lia|]. intros (_ & _ & Hl & _ & H%IH). lia. Qed.

(** The processors found so far. *)
Definition listed {PA} (L : list Z) (r : smp PA) : Prop :=
  kCpuCount r = 1 + Z.of_nat (length L) ∧ length (kLapicIds r) = 64%nat ∧ (length L ≤ 63)%nat ∧
  ∀ i x, L !! i = Some x → kLapicIds r !! S i = Some x.

Section parse.
Context {PA : Type} `{!PageAllocator PA}.
Implicit Types s : apic (smp PA).

Lemma mem_rd_wp n a v s (Q : Z → apic (smp PA) → Prop) : peek (s_mem (rest s)) n a = Some v → Q v s → wp (rd n a) Q s.
Proof. intros E HQ. unfold rd. apply wp_bind, wp_get. rewrite E. by apply wp_ret. Qed.

Lemma upd_wp f s (Q : () → apic (smp PA) → Prop) : Q () (set_rest (f (rest s)) s) → wp (upd f) Q s.
Proof. done. Qed.

(** The client's state with another list of processors. *)
Definition with_cpus (c : Z) (l : list Z) s : apic (smp PA) :=
  set_rest (mkSmp c l (kHhdm (rest s)) (s_mem (rest s)) (s_pages (rest s)) (s_cr3 (rest s))) s.

Lemma with_cpus_id s : with_cpus (kCpuCount (rest s)) (kLapicIds (rest s)) s = s.
Proof. destruct s as [? ? ? ? ? ? []]. done. Qed.

Lemma with_cpus_twice c l c' l' s : with_cpus c l (with_cpus c' l' s) = with_cpus c l s.
Proof. done. Qed.

Lemma madt_entry_wp ptr e L s (Q : () → apic (smp PA) → Prop) : 0 ≤ ptr → ptr + 8 ≤ 2 ^ 64 → listed L (rest s) →
  (me_type e = 0 → s_mem (rest s) (ptr + 3) = Some (me_id e) ∧ peek (s_mem (rest s)) 4 (ptr + 4) = Some (me_flags e)) →
  (∀ c l, let s' := with_cpus c l s in listed (take 63 (L ++ (if usable e then [me_id e] else []))) (rest s') → Q () s') →
  wp (madt_entry ptr (me_type e)) Q s.
Proof.
  intros Hp0 Hp HL He HQ.
  destruct HL as (Hc & Hk & HL & Hl).
  assert (Hkeep : usable e = false ∨ length L = 63%nat → Q () s).
  { intros Hu. specialize (HQ (kCpuCount (rest s)) (kLapicIds (rest s))). rewrite with_cpus_id in HQ. apply HQ.
    assert (E : take 63 (L ++ (if usable e then [me_id e] else [])) = L).
    { destruct Hu as [->|Hu]; [by rewrite app_nil_r, take_ge|]. rewrite take_app_le, take_ge by lia. done. }
    by rewrite E. }
  unfold madt_entry. apply wp_when. destruct (Z.eqb_spec (me_type e) 0) as [Ht|Ht].
  2: { apply Hkeep. left. unfold usable. by rewrite (proj2 (Z.eqb_neq _ _) Ht). }
  destruct (He Ht) as [Hid Hfl]. apply wp_bind. eapply mem_rd_wp; [apply peek_1; rewrite wrap_small by lia; exact Hid|].
  apply wp_bind. eapply mem_rd_wp; [rewrite wrap_small by lia; exact Hfl|]. apply wp_bind, wp_get, wp_when.
  destruct (has_flag (me_flags e) 1) eqn:Hf; cbn [andb].
  2: { apply Hkeep. left. unfold usable. rewrite Hf. by destruct (me_type e =? 0). }
  destruct (Z.ltb_spec (kCpuCount (rest s)) MAX_CPUS) as [Hlt|Hge]; [|apply Hkeep; right; unfold MAX_CPUS in Hge; lia].
  apply wp_when. destruct (Z.eqb_spec (me_id e) 0) as [H0|H0]; cbn [negb].
  { apply Hkeep. left. unfold usable. rewrite H0. cbn. apply andb_false_r. }
  unfold MAX_CPUS in Hlt. unfold add_cpu. apply wp_bind, wp_get. rewrite (proj2 (Z.ltb_lt _ _)) by lia. apply wp_bind, upd_wp, upd_wp.
  specialize (HQ (u32 (kCpuCount (rest s) + 1)) (<[Z.to_nat (kCpuCount (rest s)) := me_id e]> (kLapicIds (rest s)))).
  apply HQ. assert (Hu : usable e = true) by (unfold usable; by rewrite Ht, Hf, (proj2 (Z.eqb_neq _ _) H0)). rewrite Hu.
  rewrite take_ge by (rewrite length_app; simpl; lia). cbn [kCpuCount kLapicIds rest with_cpus set_rest].
  split_and!; cbn [kCpuCount kLapicIds rest with_cpus set_rest].
  - rewrite wrap_small, length_app, Hc by lia. simpl. lia.
  - by rewrite length_insert.
  - rewrite length_app. simpl. lia.
  - intros i x Hi. rewrite Hc. replace (Z.to_nat (1 + Z.of_nat (length L))) with (S (length L)) by lia.
    apply lookup_snoc_Some in Hi as [[Hi Hx]|[-> <-]]; [|apply list_lookup_insert_eq; lia].
    rewrite list_lookup_insert_ne by lia. by apply Hl.
Qed.

Lemma parse_madt_wp es : ∀ ptr end_ L n s (Q : () → apic (smp PA) → Prop),
  layout (s_mem (rest s)) ptr es end_ → 0 ≤ ptr → end_ + 8 ≤ 2 ^ 64 → (length es ≤ n)%nat → listed L (rest s) →
  (∀ c l, let s' := with_cpus c l s in listed (take 63 (L ++ cpus es)) (rest s') → Q () s') →
  wp (parse_madt n ptr end_) Q s.
Proof.
  induction es as [|e es IH]; intros ptr end_ L n s Q Hlay Hp Hend Hn HL HQ.
  { cbn [layout] in Hlay. subst end_. destruct n; cbn [parse_madt]; rewrite Z.ltb_irrefl; cbn [negb]; apply wp_ret;
      specialize (HQ (kCpuCount (rest s)) (kLapicIds (rest s))); rewrite with_cpus_id in HQ; apply HQ; cbn [cpus filter list_filter fmap list_fmap];
      rewrite app_nil_r, take_ge by (destruct HL as (_ & _ & ? & _); lia); done. }
  destruct n as [|n]; [simpl in Hn; lia|]. cbn [layout] in Hlay. destruct Hlay as (Ht & Hl & Hlen & Hloc & Hrest).
  pose proof (layout_end _ _ _ _ Hrest) as He. cbn [parse_madt]. rewrite (proj2 (Z.ltb_lt ptr end_)) by lia. cbn [negb].
  apply wp_bind. eapply mem_rd_wp; [by apply peek_1|]. apply wp_bind. eapply mem_rd_wp; [apply peek_1; rewrite wrap_small by lia; exact Hl|].
  apply wp_bind. eapply (madt_entry_wp ptr e L); [done|lia|done|exact Hloc|]. intros c l s1 Hs1.
  rewrite wrap_small by lia. apply (IH (ptr + me_len e) end_ (take 63 (L ++ (if usable e then [me_id e] else [])))); [exact Hrest|lia|lia|simpl in Hn; lia|done|].
  intros c' l' s2 Hs2. apply (HQ c' l'). change (with_cpus c' l' s1) with (with_cpus c' l' s) in s2.
  assert (E : take 63 (L ++ cpus (e :: es)) = take 63 (take 63 (L ++ (if usable e then [me_id e] else [])) ++ cpus es)).
  { assert (Ec : cpus (e :: es) = (if usable e then [me_id e] else []) ++ cpus es).
    { unfold cpus. destruct (usable e) eqn:Hu; [by rewrite filter_cons_True|by rewrite filter_cons_False by congruence]. }
    rewrite Ec, app_assoc. generalize (L ++ (if usable e then [me_id e] else [])) as A. intros A.
    rewrite !take_app, take_take, length_take, Nat.min_id. f_equal. f_equal. lia. }
  by rewrite E.
Qed.
End parse.

(** ** Finding the table *)

Section find.
Context {PA : Type} `{!PageAllocator PA} (mem : amem) (hhdm rsdp revision sdt : Z) (ts : list Z).
Context (Hroot : acpi_root mem hhdm rsdp revision sdt ts) (Hok : amem_ok mem).
Implicit Types s : apic (smp PA).

Lemma sig_is_wp t s (Q : bool → apic (smp PA) → Prop) : s_mem (rest s) = mem → t ∈ ts →
  Q (has_sig mem hhdm APIC_SIGNATURE t) s → wp (sig_is (t +64 hhdm) 0 [65; 80; 73; 67]) Q s.
Proof using Hroot Hok.
  intros Hm Ht HQ. destruct (ar_tables _ _ _ _ _ _ Hroot t Ht) as [[v Hv] Hb]. unfold has_sig in HQ. rewrite Hv in HQ.
  assert (H0 : 0 ≤ t +64 hhdm) by (apply wrap_range; lia). revert Hv Hb H0. generalize (t +64 hhdm) as a. intros a Hv Hb H0.
  destruct (peek_4 _ _ _ Hv) as (b0 & b1 & b2 & b3 & E0 & E1 & E2 & E3 & ->).
  assert (Hsig : bool_decide (Some (le_value [b0; b1; b2; b3]) = Some APIC_SIGNATURE) = bool_decide ([b0; b1; b2; b3] = [65; 80; 73; 67])).
  { apply bool_decide_ext. split; [intros [= E]|by intros [= -> -> -> ->]].
    apply le_value_inj; [repeat (constructor; [by eapply Hok|]); constructor|by repeat (constructor; [unfold byte_ok; lia|])|done|exact E]. }
  rewrite Hsig in HQ. cbn [sig_is].
  assert (Hstep : ∀ i b c rest0, mem (a + i) = Some b → 0 ≤ i ≤ 3 → wp (if b =? c then rest0 else mret false) Q s →
    wp (v ← rd 1 (a +64 i); if v =? c then rest0 else mret false) Q s).
  { intros i b c rest0 Hb' Hi HQ'. apply wp_bind. eapply mem_rd_wp; [|exact HQ']. rewrite Hm. apply peek_1. by rewrite wrap_small by lia. }
  assert (Hno : [b0; b1; b2; b3] ≠ [65; 80; 73; 67] → Q false s) by (intros Hne; by rewrite bool_decide_false in HQ).
  change (0 + 1) with 1. change (1 + 1) with 2. change (2 + 1) with 3.
  apply (Hstep 0 b0); [by rewrite Z.add_0_r|lia|]. destruct (Z.eqb_spec b0 65) as [->|Hne]; [|apply wp_ret, Hno; congruence].
  apply (Hstep 1 b1); [done|lia|]. destruct (Z.eqb_spec b1 80) as [->|Hne]; [|apply wp_ret, Hno; congruence].
  apply (Hstep 2 b2); [done|lia|]. destruct (Z.eqb_spec b2 73) as [->|Hne]; [|apply wp_ret, Hno; congruence].
  apply (Hstep 3 b3); [done|lia|]. destruct (Z.eqb_spec b3 67) as [->|Hne]; [|apply wp_ret, Hno; congruence].
  apply wp_ret. by rewrite bool_decide_true in HQ.
Qed.

Lemma find_madt_wp us : ∀ i s (Q : Z → apic (smp PA) → Prop), s_mem (rest s) = mem → sdt +64 hhdm + 2 ^ 32 ≤ 2 ^ 64 →
  (∀ k t, us !! k = Some t → ts !! (i + k)%nat = Some t) →
  Q (match first_table mem hhdm APIC_SIGNATURE us with Some t => t +64 hhdm | None => 0 end) s →
  wp (find_madt revision (sdt +64 hhdm) hhdm (length us) (Z.of_nat i)) Q s.
Proof using Hroot Hok.
  induction us as [|t us IH]; intros i s Q Hm Hb Hus HQ; cbn [length find_madt]; [by apply wp_ret|].
  pose proof (Hus 0%nat t eq_refl) as Ht. rewrite Nat.add_0_r in Ht. pose proof (ar_count _ _ _ _ _ _ Hroot) as Hc.
  assert (Hi : Z.of_nat i < 2 ^ 28) by (apply lookup_lt_Some in Ht; lia). pose proof (wrap_range 64 (sdt + hhdm) ltac:(lia)) as Hw.
  assert (Ea : (sdt +64 hhdm +64 sizeof_SdtHeader) +64 (Z.of_nat i * entry_size revision) =
               (sdt +64 hhdm) +64 (sizeof_SdtHeader + entry_size revision * Z.of_nat i)).
  { revert Hw Hb. generalize (sdt +64 hhdm) as a. intros a Hw Hb. destruct (entry_size_pos revision) as [-> | ->]; unfold sizeof_SdtHeader;
      rewrite (wrap_small 64 (a + 36)) by lia; rewrite !wrap_small by lia; lia. }
  assert (Esz : (if 2 <=? revision then 8%nat else 4%nat) = Z.to_nat (entry_size revision)) by (unfold entry_size; by destruct (2 <=? revision)).
  rewrite Ea, Esz. apply wp_bind. eapply mem_rd_wp; [rewrite Hm; by apply (ar_entry _ _ _ _ _ _ Hroot)|].
  apply wp_bind. apply sig_is_wp; [done|by eapply list_elem_of_lookup_2|]. rewrite first_table_cons in HQ.
  destruct (has_sig mem hhdm APIC_SIGNATURE t); [by apply wp_ret|]. rewrite (wrap_small 32) by lia.
  replace (Z.of_nat i + 1) with (Z.of_nat (S i)) by lia. apply IH; [done|done| |done]. intros k u Hk. rewrite <-(Hus (S k) u Hk). f_equal. lia.
Qed.
End find.

(** ** The start-up code *)

(** The page of the start-up code is mapped. *)
Definition page_mapped (mem : amem) (dest : Z) : Prop := ∀ x, dest ≤ x < dest + PAGE_SIZE → is_Some (mem x).

(** [m'] is [m] but for the page at [dest]. *)
Definition outside (dest : Z) (m m' : amem) : Prop := ∀ x, ¬ dest ≤ x < dest + PAGE_SIZE → m' x = m x.

Section boot.
Context {PA : Type} `{!PageAllocator PA} (hw : hardware) (dev : mmio_device) (fuel : nat).
Context (trampoline : list Z) (gdt_addr ap_entry started_addr hhdm : Z).
Implicit Types s : apic (smp PA).
Local Abbreviation dest := (TRAMPOLINE_PHYS +64 hhdm).

Definition with_mem (m : amem) s : apic (smp PA) := set_rest (set_s_mem m (rest s)) s.

Lemma wr_wp off bs s (Q : () → apic (smp PA) → Prop) : page_mapped (s_mem (rest s)) dest → dest + PAGE_SIZE ≤ 2 ^ 64 →
  0 ≤ off → off + Z.of_nat (length bs) ≤ PAGE_SIZE →
  (∀ m, page_mapped m dest → outside dest (s_mem (rest s)) m → (∀ i b, bs !! i = Some b → m (dest + off + Z.of_nat i) = Some b) →
     (∀ x, ¬ dest + off ≤ x < dest + off + Z.of_nat (length bs) → m x = s_mem (rest s) x) → Q () (with_mem m s)) →
  wp (wr (dest +64 off) bs) Q s.
Proof.
  intros Hp Hd H0 Hl HQ. pose proof (wrap_range 64 (TRAMPOLINE_PHYS + hhdm) ltac:(lia)) as Hw. unfold wr. apply wp_bind, wp_get.
  destruct (decide (length bs = 0%nat)) as [Hz|Hz].
  { destruct bs; [|done]. cbn [poke]. apply wp_bind, wp_ret, wp_modify. apply HQ; [done|done|done|done]. }
  rewrite (wrap_small 64 (dest + off)) by lia.
  destruct (poke_some bs (s_mem (rest s)) (dest + off)) as (m & -> & Hin & Hout); [intros x Hx; apply Hp; lia|].
  apply wp_bind, wp_ret, wp_modify. apply HQ; [|intros x Hx; apply Hout; lia|done|done].
  intros x Hx. destruct (decide (dest + off ≤ x < dest + off + Z.of_nat (length bs))) as [Hi|Hi]; [|rewrite Hout by done; by apply Hp].
  destruct (lookup_lt_is_Some_2 bs (Z.to_nat (x - (dest + off)))) as [b Hb]; [lia|]. exists b. rewrite <-(Hin _ _ Hb). f_equal. lia.
Qed.

(** The bytes of the page after the start-up code was copied and patched. *)
Definition patched (cr3 : Z) (m : amem) : Prop :=
  (∀ i b, le_bytes 2 55 !! i = Some b → m (dest + OFF_GDT64_PTR + Z.of_nat i) = Some b) ∧
  (∀ i b, le_bytes 8 gdt_addr !! i = Some b → m (dest + (OFF_GDT64_PTR + 2) + Z.of_nat i) = Some b) ∧
  (∀ i b, le_bytes 4 (u32 cr3) !! i = Some b → m (dest + OFF_PML4 + Z.of_nat i) = Some b) ∧
  (∀ i b, le_bytes 8 ap_entry !! i = Some b → m (dest + OFF_ENTRY + Z.of_nat i) = Some b) ∧
  (∀ i b, trampoline !! i = Some b → ¬ OFF_GDT64_PTR ≤ Z.of_nat i < OFF_STACK → ¬ OFF_ENTRY ≤ Z.of_nat i < OFF_ENTRY + 8 →
     m (dest + Z.of_nat i) = Some b).

Lemma kept_bytes (m m' : amem) off bs off' n : (∀ i b, bs !! i = Some b → m (dest + off + Z.of_nat i) = Some b) →
  (∀ x, ¬ dest + off' ≤ x < dest + off' + n → m' x = m x) → off + Z.of_nat (length bs) ≤ off' ∨ off' + n ≤ off →
  ∀ i b, bs !! i = Some b → m' (dest + off + Z.of_nat i) = Some b.
Proof. intros Hm Hk Ho i b Hi. pose proof (lookup_lt_Some _ _ _ Hi). rewrite Hk by lia. by apply Hm. Qed.

Lemma prepare_trampoline_wp s (Q : () → apic (smp PA) → Prop) :
  page_mapped (s_mem (rest s)) dest → dest + PAGE_SIZE ≤ 2 ^ 64 → Z.of_nat (length trampoline) ≤ PAGE_SIZE →
  (∀ m, page_mapped m dest → outside dest (s_mem (rest s)) m → patched (s_cr3 (rest s)) m → Q () (with_mem m s)) →
  wp (prepare_trampoline trampoline gdt_addr ap_entry hhdm) Q s.
Proof.
  intros Hp Hd Hl HQ. unfold prepare_trampoline. pose proof (wrap_range 64 (TRAMPOLINE_PHYS + hhdm) ltac:(lia)) as Hw.
  assert (Ez : wr (PA:=PA) dest trampoline = wr (dest +64 0) trampoline) by (f_equal; rewrite Z.add_0_r; symmetry; apply wrap_idemp; lia).
  rewrite Ez. apply wp_bind, wr_wp; [done|done|lia|lia|]. intros m1 P1 O1 B1 K1.
  apply wp_bind, wr_wp; [done|done|done|rewrite le_bytes_length; done|]. intros m2 P2 O2 B2 K2.
  apply wp_bind, wr_wp; [done|done|done|rewrite le_bytes_length; done|]. intros m3 P3 O3 B3 K3. apply wp_bind, wp_get.
  apply wp_bind, wr_wp; [done|done|done|rewrite le_bytes_length; done|]. intros m4 P4 O4 B4 K4.
  apply wr_wp; [done|done|done|rewrite le_bytes_length; done|]. intros m5 P5 O5 B5 K5.
  cbn [with_mem rest set_rest s_mem set_s_mem s_cr3] in *. rewrite !le_bytes_length in *.
  apply (HQ m5); [done| |].
  - intros x Hx. rewrite O5, O4, O3, O2, O1 by done. done.
  - change (gdtr_limit (gdt_get_gdtr gdt_addr)) with 55 in B2. change (gdtr_base (gdt_get_gdtr gdt_addr)) with gdt_addr in B3.
    unfold patched. split_and!; [..|done|].
    + eapply kept_bytes; [eapply kept_bytes; [eapply kept_bytes; [exact B2|exact K3|]|exact K4|]|exact K5|]; rewrite le_bytes_length; by (left + right).
    + eapply kept_bytes; [eapply kept_bytes; [exact B3|exact K4|]|exact K5|]; rewrite le_bytes_length; by (left + right).
    + eapply kept_bytes; [exact B4|exact K5|]; rewrite le_bytes_length; by (left + right).
    + intros i b Hi H1 H2. unfold OFF_GDT64_PTR, OFF_STACK, OFF_ENTRY, OFF_PML4 in *. rewrite K5, K4, K3, K2 by lia.
      replace (dest + Z.of_nat i) with (dest + 0 + Z.of_nat i) by lia. by apply B1.
Qed.
End boot.

(** ** Starting the processors *)

(** The commands that start one processor: INIT, then the start-up page twice. *)
Definition start_commands (b id : Z) : list (Z * Z) :=
  let hi := (reg_at b apic_regs.ICR_HI, Z.shiftl id 24) in
  [hi; (reg_at b apic_regs.ICR_LO, 0xC500); hi; (reg_at b apic_regs.ICR_LO, 0x608); hi; (reg_at b apic_regs.ICR_LO, 0x608)].

Section start.
Context {PA : Type} `{!PageAllocator PA} (dev : mmio_device) (fuel : nat) (started_addr hhdm : Z).
Implicit Types s : apic (smp PA).
Local Abbreviation dest := (TRAMPOLINE_PHYS +64 hhdm).

Lemma pauses_wp n : ∀ s (Q : () → apic (smp PA) → Prop), Q () (set_a_mmio (a_mmio s ++ replicate n Pause) s) → wp (pauses n) Q s.
Proof.
  induction n as [|n IH]; intros s Q HQ; cbn [pauses]; [apply wp_ret; cbn [replicate] in HQ; rewrite app_nil_r in HQ; by destruct s|].
  apply wp_bind, wp_modify, IH. unfold mmio_add. cbn [mmio set_mmio apic_mmio a_mmio set_a_mmio] in *. rewrite <-app_assoc. exact HQ.
Qed.

Lemma send_ipi_wp id flags s (Q : () → apic (smp PA) → Prop) : kApicBase s ≠ 0 → (∀ tr, frees dev (kApicBase s) fuel tr = true) →
  0 ≤ id < 256 → 0 ≤ flags < 2 ^ 32 →
  (∀ tr, stores tr = [(reg_at (kApicBase s) apic_regs.ICR_HI, Z.shiftl id 24); (reg_at (kApicBase s) apic_regs.ICR_LO, flags)] →
     Q () (set_a_mmio (a_mmio s ++ tr) s)) → wp (apic_send_ipi dev fuel id flags) Q s.
Proof.
  intros Hb Hf Hi Hfl HQ. apply apic_send_ipi_wp; [done|done|]. intros vs v _ _. apply HQ. unfold ipi_events. rewrite stores_app.
  assert (Ev : stores (vs ≫= λ v, [load (kApicBase s) apic_regs.ICR_LO v; Pause]) = []) by (clear; induction vs; [done|exact IHvs]).
  rewrite Ev. cbn. rewrite (wrap_small 32 flags), wrap_idemp, wrap_small; [done| |lia|lia]. rewrite Z.shiftl_mul_pow2 by lia. lia.
Qed.

(** What starting processors leaves as it was, and what it has sent. *)
Definition sent (s0 : apic (smp PA)) (cmds : list (Z * Z)) s : Prop :=
  (∃ tr, a_mmio s = a_mmio s0 ++ tr ∧ stores tr = cmds) ∧ kApicBase s = kApicBase s0 ∧
  kCpuCount (rest s) = kCpuCount (rest s0) ∧ kLapicIds (rest s) = kLapicIds (rest s0) ∧
  page_mapped (s_mem (rest s)) dest ∧ outside dest (s_mem (rest s0)) (s_mem (rest s)) ∧
  ∃ F A, pa_inv (s_pages (rest s)) F A.

Lemma boot_ap_wp i id s0 cmds s : kApicBase s0 ≠ 0 → (∀ tr, frees dev (kApicBase s0) fuel tr = true) →
  dest + PAGE_SIZE ≤ 2 ^ 64 → kLapicIds (rest s0) !! Z.to_nat i = Some id → 0 ≤ id < 256 → sent s0 cmds s →
  wp (boot_ap dev fuel hhdm i) (λ _, sent s0 (cmds ++ start_commands (kApicBase s0) id)) s.
Proof.
  intros Hb Hf Hd Hid Hi ((tr & Et & Es) & Eb & Ec & El & Hp & Ho & F & A & Hpa). unfold boot_ap. apply wp_bind, wp_get. rewrite El, Hid.
  apply wp_bind, wp_ret. apply wp_bind. pose proof (pa_alloc_spec (s_pages (rest s)) F A 4 Hpa ltac:(lia)) as Hal.
  destruct (proj1 (wp_ok _ _ _) Hal) as (r & pa & Ea & Hpost & _).
  assert (Hpa' : ∃ F A, pa_inv pa F A) by (destruct Hpost as [[_ ->]|(p & o & _ & _ & _ & H)]; [by exists F, A|eauto]). clear Hal Hpost.
  eapply wp_eq; [unfold page_op; by rewrite Ea|]. set (s1 := set_rest _ s).
  apply wp_bind, wr_wp; [done|done|done|rewrite le_bytes_length; done|]. intros m Hm Hom _ _. set (s2 := with_mem m s1).
  assert (Hb2 : kApicBase s2 = kApicBase s0) by exact Eb.
  apply wp_bind, send_ipi_wp; [by rewrite Hb2|by rewrite Hb2|done|done|]. intros t1 S1. apply wp_bind, pauses_wp.
  apply wp_bind, send_ipi_wp; [exact (eq_ind_r (λ b, b ≠ 0) Hb Hb2)|intros t; change (kApicBase (set_a_mmio _ _)) with (kApicBase s2); by rewrite Hb2|done|done|]. intros t2 S2.
  apply wp_bind, pauses_wp.
  apply send_ipi_wp; [exact (eq_ind_r (λ b, b ≠ 0) Hb Hb2)|intros t; change (kApicBase (set_a_mmio _ _)) with (kApicBase s2); by rewrite Hb2|done|done|]. intros t3 S3.
  cbn [kApicBase set_a_mmio a_mmio rest] in *. change (kApicBase s2) with (kApicBase s) in *. rewrite Eb in *. unfold sent.
  cbn [kApicBase set_a_mmio a_mmio rest s2 s1 with_mem set_rest kCpuCount kLapicIds s_mem s_pages set_s_mem set_s_pages] in *.
  split_and!; try done.
  - eexists. split; [rewrite Et, <-!app_assoc; reflexivity|]. rewrite !stores_app, !stores_pauses, Es, S1, S2, S3. by rewrite !app_nil_l.
  - intros x Hx. by rewrite Hom, Ho.
Qed.

(** Whether the counter of started processors is seen to reach [n]. *)
Fixpoint all_started (k : nat) (n : Z) (tr : list mmio_event) : bool :=
  match k with
  | O => false
  | S k => let v := u32 (dev tr 32 started_addr) in (n <=? v) || all_started k n (tr ++ [MLoad 32 started_addr v; Pause])
  end.

Lemma wait_started_wp k : ∀ s (Q : () → apic (smp PA) → Prop), all_started k (kCpuCount (rest s)) (a_mmio s) = true →
  (∀ tr, stores tr = [] → Q () (set_a_mmio (a_mmio s ++ tr) s)) → wp (wait_started dev started_addr k) Q s.
Proof.
  induction k as [|k IH]; intros s Q Hk HQ; [done|]. cbn [all_started] in Hk. cbn [wait_started]. apply wp_bind. eapply wp_eq; [apply mmio_load_eq|].
  cbn [mmio apic_mmio] in *. set (v := wrap 32 _) in *. apply wp_bind, wp_get. change (kCpuCount (rest (mmio_add _ s))) with (kCpuCount (rest s)).
  destruct (Z.ltb_spec v (kCpuCount (rest s))) as [Hlt|Hge].
  - rewrite (proj2 (Z.leb_gt _ _)) in Hk by lia. cbn [orb] in Hk. apply wp_bind, wp_modify, IH.
    + unfold mmio_add. cbn [mmio set_mmio apic_mmio a_mmio set_a_mmio rest]. by rewrite <-app_assoc.
    + intros tr Ht. unfold mmio_add. cbn [mmio set_mmio apic_mmio a_mmio set_a_mmio rest]. rewrite <-!app_assoc.
      apply (HQ ([MLoad 32 started_addr v] ++ [Pause] ++ tr)). exact Ht.
  - apply wp_ret. by apply (HQ [MLoad 32 started_addr v]).
Qed.

Lemma boot_aps_wp L s : kApicBase s ≠ 0 → (∀ tr, frees dev (kApicBase s) fuel tr = true) → dest + PAGE_SIZE ≤ 2 ^ 64 →
  listed L (rest s) → Forall (λ id, 0 ≤ id < 256) L → (∀ tr, all_started fuel (kCpuCount (rest s)) tr = true) →
  sent s [] s → wp (boot_aps dev fuel started_addr hhdm) (λ _, sent s (L ≫= start_commands (kApicBase s))) s.
Proof.
  intros Hb Hf Hd (Hc & Hl & Hlen & HL) Hids Hst Hs. unfold boot_aps. apply wp_bind, wp_get. apply wp_bind. rewrite Hc.
  replace (1 + Z.of_nat (length L) - 1) with (Z.of_nat (length L)) by lia.
  eapply wp_mono.
  - apply (for_each_wp (λ i, sent s (take (Z.to_nat (i - 1)) L ≫= start_commands (kApicBase s))) 1); [lia|by apply Hs|].
    intros i s' Hi Hs'. destruct (lookup_lt_is_Some_2 L (Z.to_nat (i - 1))) as [id Hid]; [lia|].
    assert (Hrange : 0 ≤ id < 256) by (rewrite Forall_lookup in Hids; by eapply Hids).
    eapply wp_mono; [apply (boot_ap_wp i id s); [done|done|done| |done|exact Hs']|].
    + rewrite <-(HL _ _ Hid). f_equal. lia.
    + intros [] s2 H2. replace (Z.to_nat (i + 1 - 1)) with (S (Z.to_nat (i - 1))) by lia. rewrite (take_S_r _ _ id), bind_app by done.
      exact H2.
  - intros [] s1 H1. cbn beta in H1. rewrite take_ge in H1 by lia. destruct H1 as ((tr & Et & Es) & Eb & Ec & El & Hp & Ho & HF).
    apply wait_started_wp; [rewrite Ec; apply Hst|]. intros tr' Ht. unfold sent. cbn [kApicBase set_a_mmio a_mmio rest].
    split_and!; try done. exists (tr ++ tr'). split; [by rewrite Et, app_assoc|]. by rewrite stores_app, Es, Ht, app_nil_r.
Qed.
End start.

(** ** The whole of it *)

Section init.
Context {PA : Type} `{!PageAllocator PA} (dev : mmio_device) (fuel : nat).
Context (trampoline : list Z) (gdt_addr ap_entry started_addr rsdp_phys hhdm revision sdt : Z) (ts : list Z).
Implicit Types s : apic (smp PA).
Local Abbreviation dest := (TRAMPOLINE_PHYS +64 hhdm).

(** The state before any processor was looked for. *)
Definition smp_cold (r : smp PA) : Prop := kCpuCount r = 1 ∧ length (kLapicIds r) = 64%nat.

Lemma smp_init_wp t len es s F A :
  acpi_root (s_mem (rest s)) hhdm (rsdp_phys +64 hhdm) revision sdt ts → amem_ok (s_mem (rest s)) → sdt +64 hhdm + 2 ^ 32 ≤ 2 ^ 64 →
  first_table (s_mem (rest s)) hhdm APIC_SIGNATURE ts = Some t →
  let madt := t +64 hhdm in
  madt ≠ 0 → madt + len + 8 ≤ 2 ^ 64 → 44 ≤ len → peek (s_mem (rest s)) 4 (madt + 4) = Some len →
  layout (s_mem (rest s)) (madt + 44) es (madt + len) → (length es ≤ fuel)%nat → smp_cold (rest s) →
  page_mapped (s_mem (rest s)) dest → dest + PAGE_SIZE ≤ 2 ^ 64 → Z.of_nat (length trampoline) ≤ PAGE_SIZE →
  pa_inv (s_pages (rest s)) F A → kApicBase s ≠ 0 → (∀ tr, frees dev (kApicBase s) fuel tr = true) →
  Forall (λ e, 0 ≤ me_id e < 256) es →
  let ids := take 63 (cpus es) in
  (∀ tr, all_started dev started_addr fuel (1 + Z.of_nat (length ids)) tr = true) →
  wp (smp_init dev fuel trampoline gdt_addr ap_entry started_addr rsdp_phys hhdm)
    (λ _ s', (∃ tr, a_mmio s' = a_mmio s ++ tr ∧ stores tr = ids ≫= start_commands (kApicBase s)) ∧ listed ids (rest s')) s.
Proof.
  intros Hroot Hok Hsdt Hf madt Hm0 Hm Hlen Hpl Hlay Hfuel (Hc & Hk) Hp Hd Htr Hpa Hb Hfr Hids ids Hst.
  pose proof (wrap_range 64 (t + hhdm) ltac:(lia)) as Hw. fold madt in Hw. pose proof (ar_count _ _ _ _ _ _ Hroot) as Hcount.
  unfold smp_init. apply wp_bind, upd_wp. set (s0 := set_rest _ s).
  apply wp_bind. eapply mem_rd_wp; [apply peek_1, (ar_rev _ _ _ _ _ _ Hroot)|]. apply wp_bind. pose proof (ar_pointer _ _ _ _ _ _ Hroot) as Hptr.
  match goal with |- wp _ ?Q _ => assert (HX : Q sdt s0) end; [|destruct (2 <=? revision); (eapply mem_rd_wp; [exact Hptr|exact HX])].
  apply wp_bind. eapply mem_rd_wp; [apply (ar_length _ _ _ _ _ _ Hroot)|].
  assert (E : u32 ((sizeof_SdtHeader + entry_size revision * Z.of_nat (length ts) -64 sizeof_SdtHeader) / entry_size revision) = Z.of_nat (length ts)).
  { destruct (entry_size_pos revision) as [-> | ->]; unfold sizeof_SdtHeader; rewrite (wrap_small 64) by lia;
      rewrite Z.add_simpl_l, Z.mul_comm, Z.div_mul, wrap_small by lia; done. }
  rewrite E, Nat2Z.id. apply wp_bind. apply (find_madt_wp (s_mem (rest s)) hhdm _ _ _ ts Hroot Hok ts 0); [done|done|done|].
  rewrite Hf. fold madt. rewrite (proj2 (Z.eqb_neq _ _) Hm0). apply wp_bind. eapply mem_rd_wp; [rewrite wrap_small by lia; exact Hpl|].
  apply wp_bind. unfold MADT_ENTRIES. rewrite !(wrap_small 64 (madt + _)) by lia.
  eapply (parse_madt_wp es _ _ []); [exact Hlay|lia|lia|done|split_and!; [done|done|simpl; lia|done]|]. intros c l s1 Hl. rewrite app_nil_l in Hl. fold ids in Hl.
  apply wp_bind, prepare_trampoline_wp; [exact Hp|done|done|]. intros m Hmp Hom _. set (s2 := with_mem m s1).
  assert (Hl2 : listed ids (rest s2)) by exact Hl.
  eapply wp_mono; [apply (boot_aps_wp dev fuel started_addr hhdm ids s2); [done|exact Hfr|done|done| | |]|].
  - apply Forall_take. unfold cpus. rewrite Forall_fmap, Forall_forall. intros e [_ He]%list_elem_of_filter. rewrite Forall_forall in Hids. by apply Hids.
  - destruct Hl2 as (-> & _). exact Hst.
  - unfold sent. split_and!; try done; [exists []; by rewrite app_nil_r|by exists F, A].
  - intros [] s3 ((tr & Et & Es) & _ & Ec & El & _). split; [by exists tr|]. destruct Hl2 as (H1 & H2 & H3 & H4). split_and!; [by rewrite Ec|by rewrite El|done|by rewrite El].
Qed.
End init.

(** ** Properties *)


(** A table of two processors and an I/O controller. *)
Definition example_madt : list Z :=
  sdt_header [65; 80; 73; 67] 72 ++ le_bytes 4 0xFEE00000 ++ le_bytes 4 1 ++
  [0; 8; 0; 0] ++ le_bytes 4 1 ++ [1; 12] ++ replicate 10 0 ++ [0; 8; 1; 2] ++ le_bytes 4 1.
Definition example_ents : list madt_ent := [mkEnt 0 8 0 1; mkEnt 1 12 0 0; mkEnt 0 8 2 1].
Definition smp_mem : amem := example_mem 0xffff800000000000 [] example_madt (replicate (Z.to_nat 4096) 0).
Definition smp_boot : apic (smp pmm) :=
  mkApic 0xffff8000fee00000 0 0 [] [] (λ _, 0) (mkSmp 1 (replicate 64 0) 0 smp_mem small_pmm 0x1000).
(** No command is ever pending and two processors run. *)
Definition two_cpus : mmio_device := λ _ _ _, 2.

Lemma smp_boot_facts : amem_ok smp_mem ∧ page_mapped smp_mem (TRAMPOLINE_PHYS +64 0xffff800000000000) ∧ ∃ F, pa_inv small_pmm F [].
Proof.
  split_and!.
  - apply example_mem_ok; [constructor| |apply Forall_replicate; unfold byte_ok; lia].
    apply (bool_decide_unpack (bytes_ok example_madt)). vm_compute. exact I.
  - intros x Hx. change (TRAMPOLINE_PHYS +64 0xffff800000000000) with 0xffff800000008000 in Hx. exists 0. apply example_low. unfold PAGE_SIZE in Hx. lia.
  - destruct small_pmm_inv as (L & Hi). exists (page_set (blocks L)), L. by split.
Qed.

Lemma example_layout : layout smp_mem (0xffff8000000e2000 + 44) example_ents (0xffff8000000e2000 + 72).
Proof.
  cbn [layout example_ents me_type me_len me_id me_flags].
  split_and!; try (vm_compute; reflexivity); try lia; intros; try lia; split; vm_compute; reflexivity.
Qed.


(** The values for the started processor never reach the start-up code.  The
    offsets [smp_init] writes to do not match the assembled code: they all lie
    before the end of its instructions, which they overwrite, while the four words
    the code loads (the descriptor table, the page table root, the stack and the
    entry point) stay at the zeros they were assembled with. *)
Theorem trampoline_never_patched {PA : Type} `{!PageAllocator PA} trampoline gdt_addr ap_entry hhdm (s : apic (smp PA)) :
  page_mapped (s_mem (rest s)) (TRAMPOLINE_PHYS +64 hhdm) → (TRAMPOLINE_PHYS +64 hhdm) + PAGE_SIZE ≤ 2 ^ 64 →
  Z.of_nat (length trampoline) ≤ PAGE_SIZE →
  (∀ i, LABEL_GDT64_PTR ≤ i < LABEL_ENTRY + 8 → trampoline !! Z.to_nat i = Some 0) →
  ∃ s', prepare_trampoline trampoline gdt_addr ap_entry hhdm s = Ok ((), s') ∧
    (OFF_ENTRY + 8 ≤ foldr Z.add 0 trampoline_code ∧ 0 ≤ OFF_GDT64_PTR) ∧
    (∀ i b, le_bytes 8 ap_entry !! i = Some b → s_mem (rest s') ((TRAMPOLINE_PHYS +64 hhdm) + OFF_ENTRY + Z.of_nat i) = Some b) ∧
    peek (s_mem (rest s')) 4 ((TRAMPOLINE_PHYS +64 hhdm) + LABEL_PML4) = Some 0 ∧
    peek (s_mem (rest s')) 8 ((TRAMPOLINE_PHYS +64 hhdm) + LABEL_STACK) = Some 0 ∧
    peek (s_mem (rest s')) 8 ((TRAMPOLINE_PHYS +64 hhdm) + LABEL_ENTRY) = Some 0.
Proof.
  intros Hp Hd Hl Hz. set (dest := TRAMPOLINE_PHYS +64 hhdm) in *.
  pose proof (prepare_trampoline_wp trampoline gdt_addr ap_entry hhdm s (λ _ s', patched trampoline gdt_addr ap_entry hhdm (s_cr3 (rest s)) (s_mem (rest s')))
    Hp Hd Hl ltac:(intros m _ _ Hm; exact Hm)) as Hw. destruct (proj1 (wp_ok _ _ _) Hw) as ([] & s' & E & _ & _ & _ & He & Hk).
  exists s'. split; [exact E|]. split; [by split|]. split; [exact He|].
  assert (Hzero : ∀ i, LABEL_GDT64_PTR ≤ i < LABEL_ENTRY + 8 → s_mem (rest s') (dest + i) = Some 0).
  { intros i Hi. change LABEL_GDT64_PTR with 142 in *. change (LABEL_ENTRY + 8) with 172 in *. specialize (Hz i Hi).
    rewrite <-(Z2Nat.id i) by lia. apply (Hk _ _ Hz); unfold OFF_GDT64_PTR, OFF_STACK, OFF_ENTRY; lia. }
  assert (Hpeek : ∀ n a, LABEL_GDT64_PTR ≤ a → a + Z.of_nat n ≤ LABEL_ENTRY + 8 → peek (s_mem (rest s')) n (dest + a) = Some (le_value (replicate n 0))).
  { intros n a H1 H2. unfold peek. apply fmap_Some. exists (replicate n 0). split; [|done]. apply mapM_Some, Forall2_same_length_lookup_2;
      [by rewrite length_seq, length_replicate|]. intros i j b Hi Hb. apply lookup_seq in Hi as [-> Hi]. apply lookup_replicate in Hb as [-> _].
    rewrite <-Z.add_assoc. apply Hzero. lia. }
  split_and!; (rewrite Hpeek; [done|done|done]).
Qed.

Lemma trampoline_never_patched_witness : ∃ s',
  prepare_trampoline (replicate (Z.to_nat 176) 0) 0xffffffff80200000 0xffffffff80100000 0xffff800000000000 smp_boot = Ok ((), s') ∧
  peek (s_mem (rest s')) 8 (0xffff800000008000 + LABEL_ENTRY) = Some 0.
Proof.
  destruct smp_boot_facts as (_ & Hp & _).
  destruct (trampoline_never_patched (replicate (Z.to_nat 176) 0) 0xffffffff80200000 0xffffffff80100000 0xffff800000000000 smp_boot Hp ltac:(by vm_compute)
    ltac:(rewrite length_replicate; by vm_compute)
    ltac:(intros i Hi; change LABEL_GDT64_PTR with 142 in Hi; change (LABEL_ENTRY + 8) with 172 in Hi; apply lookup_replicate; split; [done|lia]))
    as (s' & E & _ & _ & _ & _ & H). exists s'. split; [exact E|exact H].
Defined.

(** An entry of length 0 is never left: no bound on the turns is enough. *)
Theorem madt_zero_length_diverges {PA : Type} `{!PageAllocator PA} ty ptr end_ (s : apic (smp PA)) n :
  s_mem (rest s) ptr = Some ty → ty ≠ 0 → s_mem (rest s) (ptr + 1) = Some 0 → 0 ≤ ptr < end_ → end_ < 2 ^ 64 → parse_madt n ptr end_ s = UB.
Proof.
  intros Ht Hty Hl Hp He. induction n as [|n IH]; cbn [parse_madt]; rewrite (proj2 (Z.ltb_lt _ _)) by lia; cbn [negb]; [done|].
  assert (Hrd : ∀ a v, s_mem (rest s) a = Some v → rd 1 a s = Ok (v, s)).
  { intros a v Ha. unfold rd, mbind, M_bind, get. by rewrite (peek_1 _ _ _ Ha). }
  rewrite (bind_ok _ _ _ _ _ (Hrd _ _ Ht)), (wrap_small 64 (ptr + 1)), (bind_ok _ _ _ _ _ (Hrd _ _ Hl)) by lia.
  assert (Hm : madt_entry ptr ty s = Ok ((), s)) by (unfold madt_entry; by rewrite (proj2 (Z.eqb_neq _ _) Hty)).
  rewrite (bind_ok _ _ _ _ _ Hm), Z.add_0_r, wrap_small by lia. exact IH.
Qed.
