(* ===== verification/CLib.v ===== *)
(** * Memory routines and panic

    Model of src/kernel/string.cpp, of src/kernel/panic.cpp and of the delay of
    include/vortex/arch/x86_64/io.hpp.  Memory is a function of the address;
    the routines return their first argument. *)

From S2P Require Import Prelude PortIo Serial Interrupts.
Open Scope Z_scope.

(** ** string.cpp *)

(** [for (i = 0; i < count; ++i) d[i] = ch], [n] bytes left from index [i] on. *)
Fixpoint memset_loop (dest ch : Z) (n : nat) (i : Z) (mem : Z → Z) : Z → Z :=
  match n with
  | O => mem
  | S n => memset_loop dest ch n (i + 1) (<[dest + i := u8 ch]> mem)
  end.
Definition memset (dest ch count : Z) : M (Z → Z) Z :=
  modify (memset_loop dest ch (Z.to_nat count) 0);; mret dest.

Fixpoint memcpy_loop (dest src : Z) (n : nat) (i : Z) (mem : Z → Z) : Z → Z :=
  match n with
  | O => mem
  | S n => memcpy_loop dest src n (i + 1) (<[dest + i := mem (src + i)]> mem)
  end.
Definition memcpy (dest src count : Z) : M (Z → Z) Z :=
  modify (memcpy_loop dest src (Z.to_nat count) 0);; mret dest.

Lemma memset_loop_spec dest ch n : ∀ i mem x,
  memset_loop dest ch n i mem x = if decide (dest + i ≤ x < dest + i + Z.of_nat n) then u8 ch else mem x.
Proof.
  induction n as [|n IH]; intros i mem x; cbn [memset_loop]; [by rewrite decide_False by lia|]. rewrite IH.
  destruct (decide (dest + (i + 1) ≤ x < dest + (i + 1) + Z.of_nat n)); [by rewrite decide_True by lia|].
  destruct (decide (x = dest + i)) as [->|Hne]; [by rewrite fn_lookup_insert, decide_True by lia|].
  rewrite fn_lookup_insert_ne, decide_False by lia. done.
Qed.

(** Copying upwards is right when no byte is overwritten before it is read. *)
Lemma memcpy_loop_spec dest src n : ∀ i mem x, dest ≤ src ∨ src + i + Z.of_nat n ≤ dest + i →
  memcpy_loop dest src n i mem x = if decide (dest + i ≤ x < dest + i + Z.of_nat n) then mem (x - dest + src) else mem x.
Proof.
  induction n as [|n IH]; intros i mem x Ho; cbn [memcpy_loop]; [by rewrite decide_False by lia|]. rewrite IH by lia.
  destruct (decide (dest + (i + 1) ≤ x < dest + (i + 1) + Z.of_nat n)).
  - rewrite decide_True by lia. apply fn_lookup_insert_ne. lia.
  - destruct (decide (x = dest + i)) as [->|Hne].
    + rewrite fn_lookup_insert, decide_True by lia. f_equal. lia.
    + rewrite fn_lookup_insert_ne, decide_False by lia. done.
Qed.

(** [memset] fills exactly the bytes of its range. *)
Theorem memset_correct dest ch count mem : 0 ≤ count →
  ∃ mem', memset dest ch count mem = Ok (dest, mem') ∧ ∀ x, mem' x = if decide (dest ≤ x < dest + count) then u8 ch else mem x.
Proof.
  intros Hc. eexists. split; [reflexivity|]. intros x. rewrite memset_loop_spec, Z.add_0_r, Z2Nat.id by done. done.
Qed.

(** [memcpy] copies: when the ranges do not overlap, or the destination starts
    at or below the source, every byte of the destination is the byte the source held
    before the call, and no other byte changes. *)
Theorem memcpy_correct dest src count mem : 0 ≤ count → dest ≤ src ∨ src + count ≤ dest →
  ∃ mem', memcpy dest src count mem = Ok (dest, mem') ∧
    ∀ x, mem' x = if decide (dest ≤ x < dest + count) then mem (x - dest + src) else mem x.
Proof.
  intros Hc Ho. eexists. split; [reflexivity|]. intros x. rewrite memcpy_loop_spec, Z.add_0_r, Z2Nat.id by lia. done.
Qed.

Lemma memcpy_correct_witness : ∃ mem', memcpy 100 103 8 (λ x, x) = Ok (100, mem') ∧ mem' 107 = 110 ∧ mem' 108 = 108.
Proof.
  destruct (memcpy_correct 100 103 8 (λ x, x) ltac:(lia) ltac:(lia)) as (mem' & E & H). exists mem'. split; [exact E|].
  split; [exact (H 107)|exact (H 108)].
Defined.

(** ** panic.cpp *)

Section panic.
Context {St : Type} `{!HasPorts St} (hw : hardware) (fuel : nat).

Definition banner : list Z := replicate 48 33 ++ nl.
Definition say (bytes : list Z) : M St () := serial_write hw fuel (Some bytes).

(** What [panic] does before it halts the machine for good. *)
Definition panic_report (msg file : list Z) (line : Z) : M St () :=
  say nl;;
  say banner;;
  say (chars "  KERNEL PANIC" ++ nl);;
  say banner;;
  say (chars "Message: ");;
  say msg;;
  say nl;;
  say (chars "File:    ");;
  say file;;
  say nl;;
  say (chars "Line:    ");;
  serial_write_dec hw fuel line;;
  say nl;;
  say banner;;
  say (chars "System halted." ++ nl).

Lemma say_sends bytes : uart_drains hw fuel → sends (say bytes) (crlf bytes).
Proof. intros Hd. by apply write_sends. Qed.

(** A panic is reported in full before the machine stops: on a UART that
    drains, the bytes sent are the banner, the message, the file and the decimal
    number of the line, with carriage returns, and the banner again. *)
Theorem panic_report_correct msg file line (s : St) : uart_drains hw fuel → 0 ≤ line < 2 ^ 32 →
  ∃ tr digits, panic_report msg file line s = Ok ((), set_ports (ports s ++ tr) s) ∧ is_decimal digits line ∧
    transmits (crlf (nl ++ banner ++ chars "  KERNEL PANIC" ++ nl ++ banner ++ chars "Message: " ++ msg ++ nl ++ chars "File:    " ++ file ++ nl ++
                     chars "Line:    ") ++ digits ++ crlf (nl ++ banner ++ chars "System halted." ++ nl)) tr.
Proof.
  intros Hd Hl. destruct (write_dec_sends (St:=St) hw fuel line Hd ltac:(lia)) as (digits & Hdig & Hdec).
  assert (Hs : sends (panic_report msg file line) (crlf (nl ++ banner ++ chars "  KERNEL PANIC" ++ nl ++ banner ++ chars "Message: " ++ msg ++ nl ++
     chars "File:    " ++ file ++ nl ++ chars "Line:    ") ++ digits ++ crlf (nl ++ banner ++ chars "System halted." ++ nl))).
  { assert (Happ : ∀ a b, crlf (a ++ b) = crlf a ++ crlf b) by (intros a b; apply bind_app).
    eassert (H : sends (panic_report msg file line) _).
    { unfold panic_report. do 14 (eapply sends_seq; [first [by apply say_sends | exact Hdig]|]). by apply say_sends. }
    rewrite !Happ, <-!app_assoc in H. rewrite !Happ, <-!app_assoc. exact H. }
  destruct (proj1 (wp_ok _ _ _) (Hs s)) as ([] & s' & E & tr & Ht & ->). by exists tr, digits.
Qed.
End panic.

Lemma panic_report_correct_witness : ∃ tr digits,
  panic_report slow_uart 2 (chars "oops") (chars "mm.cpp") 42 (@nil io_event) = Ok ((), set_ports (ports (@nil io_event) ++ tr) (@nil io_event)) ∧
  is_decimal digits 42.
Proof.
  destruct (panic_report_correct slow_uart 2 (chars "oops") (chars "mm.cpp") 42 (@nil io_event) slow_uart_drains ltac:(lia)) as (tr & digits & E & Hd & _).
  exists tr, digits. split; [exact E|exact Hd].
Defined.
