(* ===== verification/Types.v ===== *)
(** * Shared headers

    Model of include/vortex/types.hpp (strong types, user pointers, results),
    include/vortex/kernel/ktest.hpp (time stamps and the latency check) and
    include/vortex/userland.hpp (the system call wrappers).  [syscall6] is
    declared there and defined nowhere: it is a parameter. *)

From S2P Require Import Prelude Bytes PortIo Serial Interrupts CLib.
Open Scope Z_scope.

(** ** Strong types

    [Tag] keeps addresses and times apart; the value is 64 bits wide. *)

Record StrongType (Tag : Type) := strong { value : Z }.
Arguments strong {Tag}. Arguments value {Tag}.

Inductive PhysAddrTag :=.
Inductive VirtAddrTag :=.
Inductive NsTag :=.
Inductive CyclesTag :=.
Definition PhysAddr : Type := StrongType PhysAddrTag.
Definition VirtAddr : Type := StrongType VirtAddrTag.
Definition NanoSeconds : Type := StrongType NsTag.
Definition Cycles : Type := StrongType CyclesTag.

#[export] Instance strong_eq_dec Tag : EqDecision (StrongType Tag).
Proof. solve_decision. Defined.

Section strong.
Context {Tag : Type}.
Implicit Types a b : StrongType Tag.

Definition strong_default : StrongType Tag := strong 0.
Definition raw a : Z := value a.
Definition st_eq a b : bool := value a =? value b.
Definition st_ne a b : bool := negb (value a =? value b).
Definition st_lt a b : bool := value a <? value b.
Definition st_gt a b : bool := value b <? value a.
Definition st_le a b : bool := value a <=? value b.
Definition st_ge a b : bool := value b <=? value a.
(** [operator+], [operator-] and the compound forms, which return the same value. *)
Definition st_add a (n : Z) : StrongType Tag := strong (value a +64 n).
Definition st_sub a (n : Z) : StrongType Tag := strong (value a -64 n).

Definition st_ok a : Prop := 0 ≤ value a < 2 ^ 64.

Lemma st_value_inj a b : value a = value b → a = b.
Proof. destruct a, b. by intros [= ->]. Qed.

(** The six comparisons are those of one total order on the values. *)
Lemma st_order a b : st_eq a b = bool_decide (a = b) ∧ st_ne a b = negb (st_eq a b) ∧ st_gt a b = st_lt b a ∧ st_le a b = negb (st_lt b a) ∧ st_ge a b = st_le b a.
Proof.
  unfold st_eq, st_ne, st_lt, st_gt, st_le, st_ge. split_and!; try done.
  - destruct (Z.eqb_spec (value a) (value b)) as [E|E]; [by rewrite bool_decide_true by by apply st_value_inj|].
    rewrite bool_decide_false; [done|]. by intros ->.
  - by rewrite Z.leb_antisym.
Qed.

(** Arithmetic is modulo 2^64: an offset can be taken back, and whether it moved
    the value up tells whether it overflowed. *)
Theorem st_arith a n : st_ok a → 0 ≤ n < 2 ^ 64 →
  st_sub (st_add a n) n = a ∧ st_add (st_sub a n) n = a ∧ st_ok (st_add a n) ∧ st_ok (st_sub a n) ∧
  (st_le a (st_add a n) = true ↔ value a + n < 2 ^ 64) ∧ (st_le (st_sub a n) a = true ↔ n ≤ value a).
Proof.
  intros Ha Hn. unfold st_ok, st_le, st_add, st_sub in *. cbn [value].
  assert (Hadd : value a +64 n = if decide (value a + n < 2 ^ 64) then value a + n else value a + n - 2 ^ 64).
  { destruct (decide _); [by apply wrap_small; lia|]. symmetry. apply (Z.mod_unique _ _ 1); lia. }
  assert (Hsub : value a -64 n = if decide (n ≤ value a) then value a - n else value a - n + 2 ^ 64).
  { destruct (decide (n ≤ _)); [by apply wrap_small; lia|]. symmetry. apply (Z.mod_unique _ _ (-1)); lia. }
  split_and!; try apply wrap_range; try lia.
  - apply st_value_inj. cbn [value]. unfold wrap. rewrite Zminus_mod_idemp_l, Z.add_simpl_r. by apply Z.mod_small.
  - apply st_value_inj. cbn [value]. unfold wrap. rewrite Zplus_mod_idemp_l, Z.sub_add. by apply Z.mod_small.
  - rewrite Hadd, Z.leb_le. destruct (decide _); lia.
  - rewrite Hsub, Z.leb_le. destruct (decide (n ≤ _)); lia.
Qed.
End strong.

(** ** User pointers *)

Record UserPtr := mkUserPtr { ptr : Z }.
(** The address as it is: nothing is checked. *)
Definition unsafe_get (p : UserPtr) : Z := ptr p.

(** ** Results *)

Inductive KernelError := NONE | OUT_OF_MEMORY | INVALID_ARGUMENT | NOT_FOUND | ACCESS_DENIED | ALREADY_EXISTS | UNSUPPORTED.
#[export] Instance KernelError_eq_dec : EqDecision KernelError.
Proof. solve_decision. Defined.
Definition error_code (e : KernelError) : Z :=
  match e with NONE => 0 | OUT_OF_MEMORY => 1 | INVALID_ARGUMENT => 2 | NOT_FOUND => 3 | ACCESS_DENIED => 4 | ALREADY_EXISTS => 5 | UNSUPPORTED => 6 end.

(** The union holds one member; reading the other is undefined. *)
Record Expected (T E : Type) := mkExpected { member : T + E; has_value : bool }.
Arguments mkExpected {T E}. Arguments member {T E}. Arguments has_value {T E}.
Section expected.
Context {T E : Type}.
Definition expected_value (v : T) : Expected T E := mkExpected (inl v) true.
Definition expected_error (e : E) : Expected T E := mkExpected (inr e) false.
Definition has_val (x : Expected T E) : bool := has_value x.
Definition get_value (x : Expected T E) : option T := match member x with inl v => Some v | inr _ => None end.
Definition err (x : Expected T E) : option E := match member x with inr e => Some e | inl _ => None end.

(** On what the constructors build, the flag tells which access is defined. *)
Lemma expected_access x : (∃ v, x = expected_value v) ∨ (∃ e, x = expected_error e) →
  (is_Some (get_value x) ↔ has_val x = true) ∧ (is_Some (err x) ↔ has_val x = false).
Proof. intros [[v ->]|[e ->]]; cbn; (split; split); intros H; try done; try (by destruct H); eauto. Qed.
End expected.

(** ** Latency checks

    [tsc] is the count of cycles at a state, of which the instruction gives the low
    64 bits in two halves. *)

Section ktest.
Context {St : Type} `{!HasPorts St} (hw : hardware) (fuel : nat) (tsc : St → Z).

Definition rdtsc : M St Z :=
  s ← get;
  let lo := u32 (tsc s) in
  let hi := u32 (Z.shiftr (tsc s) 32) in
  mret (Z.lor (Z.shiftl hi 32) lo).

Local Abbreviation tell s := (serial_write hw fuel (Some s)).

(** Whether the test goes on. *)
Definition KEXPECT_LT (val limit : Z) (text : list Z) : M St bool :=
  if limit <=? val then tell (chars "[KTEST] FAIL: ");; tell text;; mret false else mret true.

Definition KTEST_LATENCY (name : list Z) (target_ns : Z) (code_block : M St ()) : M St () :=
  start ← rdtsc;
  code_block;;
  end_ ← rdtsc;
  let diff := end_ -64 start in
  let ns := diff / 3 in
  tell (chars "[KTEST] LATENCY: ");;
  tell name;;
  tell (chars " = ");;
  serial_write_dec hw fuel ns;;
  tell (chars " ns (Target: ");;
  serial_write_dec hw fuel target_ns;;
  tell (chars " ns) ");;
  if ns <=? target_ns then tell (chars "[PASS]" ++ nl) else tell (chars "[FAIL]" ++ nl).

Lemma rdtsc_eq s : rdtsc s = Ok (u64 (tsc s), s).
Proof.
  unfold rdtsc, mbind, M_bind, get, mret, M_ret. do 2 f_equal. rewrite <-(word_halves (u64 (tsc s))) by (apply wrap_range; lia). f_equal.
  - f_equal. apply Z.bits_inj'. intros n Hn. unfold wrap. destruct (Z.ltb_spec n 32); [|by rewrite !Z.mod_pow2_bits_high by lia].
    rewrite !Z.mod_pow2_bits_low, !Z.shiftr_spec, Z.mod_pow2_bits_low by lia. done.
  - unfold wrap. by rewrite Z.mod_mod_divide by by exists (2 ^ 32).
Qed.

Definition verdict (ns target : Z) : list Z := crlf ((if ns <=? target then chars "[PASS]" else chars "[FAIL]") ++ nl).

(** The latency check on every outcome: the line it prints has the cycles the block
    took, divided by three, and the target, and passes exactly when the former is at
    most the latter, also when the counter wrapped around in between. *)
Theorem ktest_latency_verdict name target code s s1 : uart_drains hw fuel → code s = Ok ((), s1) →
  0 ≤ target < 2 ^ 64 → 0 ≤ tsc s1 - tsc s < 2 ^ 64 →
  ∃ ns tgt tr, KTEST_LATENCY name target code s = Ok ((), set_ports (ports s1 ++ tr) s1) ∧
    is_decimal ns ((tsc s1 - tsc s) / 3) ∧ is_decimal tgt target ∧
    transmits (chars "[KTEST] LATENCY: " ++ crlf name ++ chars " = " ++ ns ++ chars " ns (Target: " ++ tgt ++ chars " ns) " ++
      verdict ((tsc s1 - tsc s) / 3) target) tr.
Proof.
  intros Hd Hc Ht Hdiff. assert (Hns : 0 ≤ (tsc s1 - tsc s) / 3 < 2 ^ 64) by (split; [apply Z.div_pos|apply Z.div_lt_upper_bound]; lia).
  destruct (write_dec_sends (St:=St) hw fuel _ Hd Hns) as (ns & S1 & D1). destruct (write_dec_sends (St:=St) hw fuel _ Hd Ht) as (tgt & S2 & D2).
  assert (E : u64 (tsc s1) -64 u64 (tsc s) = tsc s1 - tsc s) by (unfold wrap; rewrite <-Zminus_mod; by apply Z.mod_small).
  assert (Hw : wp (KTEST_LATENCY name target code) (λ _ s', ∃ tr, transmits (chars "[KTEST] LATENCY: " ++ crlf name ++ chars " = " ++ ns ++ chars " ns (Target: " ++ tgt ++
      chars " ns) " ++ verdict ((tsc s1 - tsc s) / 3) target) tr ∧ s' = set_ports (ports s1 ++ tr) s1) s).
  { unfold KTEST_LATENCY. apply wp_bind, (wp_eq _ _ _ _ _ (rdtsc_eq s)), wp_bind, (wp_eq _ _ _ _ _ Hc), wp_bind, (wp_eq _ _ _ _ _ (rdtsc_eq s1)). rewrite E.
    pose proof (write_sends (St:=St) hw fuel Hd) as Hs. revert s1 Hc Hdiff Hns S1 D1 E. intros s1 _ _ _ S1 _ _.
    refine ((_ : sends _ _) s1). repeat (apply sends_seq; [first [exact S1|exact S2|apply Hs]|]). unfold verdict. destruct (_ <=? _); apply Hs. }
  destruct (proj1 (wp_ok _ _ _) Hw) as ([] & s' & Er & tr & Htr & ->). by exists ns, tgt, tr.
Qed.
End ktest.

(** ** Userland *)

Definition SYS_EXIT : Z := 60.
Definition SYS_WRITE : Z := 1.
(** [(int)] of a 64-bit value. *)
Definition to_int (v : Z) : Z := let w := u32 v in if w <? 2 ^ 31 then w else w - 2 ^ 32.

Section userland.
Context {St : Type} (syscall6 : Z → Z → Z → Z → Z → Z → Z → M St Z).
Definition exit (status : Z) : M St () := syscall6 SYS_EXIT status 0 0 0 0 0;; mret ().
Definition write (fd buf count : Z) : M St Z := r ← syscall6 SYS_WRITE fd buf count 0 0 0; mret (to_int r).

(** The wrapper narrows the result of the call to 32 bits: what the kernel reports is
    what the program sees exactly for results in the range of an [int]; a write
    of 2^31 bytes that succeeds is reported as a negative number. *)
Theorem write_narrows fd buf count r s s' : syscall6 SYS_WRITE fd buf count 0 0 0 s = Ok (r, s') → - 2 ^ 63 ≤ r < 2 ^ 63 →
  ∃ v, write fd buf count s = Ok (v, s') ∧ - 2 ^ 31 ≤ v < 2 ^ 31 ∧ (v = r ↔ - 2 ^ 31 ≤ r < 2 ^ 31) ∧ (2 ^ 31 ≤ r < 2 ^ 32 → v < 0).
Proof.
  intros E Hr. exists (to_int r). split; [unfold write; by rewrite (bind_ok _ _ _ _ _ E)|]. unfold to_int.
  pose proof (wrap_range 32 r ltac:(lia)) as Hw. pose proof (Z.div_mod r (2 ^ 32) ltac:(lia)) as Hq. fold (wrap 32 r) in Hq. set (w := u32 r) in *.
  destruct (Z.ltb_spec w (2 ^ 31)); split_and!; try lia; try (split; intros; nia).
Qed.
End userland.

Lemma write_narrows_witness : ∃ v, write (λ _ _ _ n _ _ _, mret n) 1 0x400000 (2 ^ 31) () = Ok (v, ()) ∧ v < 0.
Proof.
  destruct (write_narrows (λ _ _ _ n _ _ _, mret n) 1 0x400000 (2 ^ 31) (2 ^ 31) () () eq_refl ltac:(lia)) as (v & E & _ & _ & H).
  exists v. split; [exact E|]. apply H. lia.
Defined.
