(* ===== verification/Limine.v ===== *)
(** * The boot protocol

    Model of include/limine/limine.hpp and of the requests at the top of
    src/kernel/entry.cpp.  The kernel image holds one request object per thing it
    wants to know; the boot loader finds them by their identifier and stores
    the address of its answer in them.  [answer] is the boot loader's part: the
    address of the answer to an identifier, none when it has no answer.  Reads go
    through [load], a load of [n] bytes from memory. *)

From S2P Require Import Prelude Bytes Pmm Acpi.
Open Scope Z_scope.

(** ** Identifiers *)

Definition LIMINE_COMMON_MAGIC_0 : Z := 0xC7B1DD30DF4C8B88.
Definition LIMINE_COMMON_MAGIC_1 : Z := 0x0A82E883A194F07B.
Definition LIMINE_BASE_REVISION_MAGIC_0 : Z := 0xF9562B2D5C95A6C8.
Definition LIMINE_BASE_REVISION_MAGIC_1 : Z := 0x6A7B384944536BDC.
Definition LIMINE_HHDM_ID : list Z := [LIMINE_COMMON_MAGIC_0; LIMINE_COMMON_MAGIC_1; 0x48DCF1CB8AD2B852; 0x63984E959A98244B].
Definition LIMINE_MEMMAP_ID : list Z := [LIMINE_COMMON_MAGIC_0; LIMINE_COMMON_MAGIC_1; 0x67CF3D9D378A806F; 0xE304ACDFC50C3C62].
Definition LIMINE_BOOTLOADER_INFO_ID : list Z := [LIMINE_COMMON_MAGIC_0; LIMINE_COMMON_MAGIC_1; 0xF55038D8E2A1202F; 0x279426FCF5F59740].
Definition LIMINE_RSDP_ID : list Z := [LIMINE_COMMON_MAGIC_0; LIMINE_COMMON_MAGIC_1; 0xC5E77B6B397E7B43; 0x27637845ACCDCF3C].
Definition LIMINE_EXEC_ADDR_ID : list Z := [LIMINE_COMMON_MAGIC_0; LIMINE_COMMON_MAGIC_1; 0x71BA76863CC55F63; 0xB2644A48C516A487].
Definition LIMINE_FRAMEBUFFER_ID : list Z := [LIMINE_COMMON_MAGIC_0; LIMINE_COMMON_MAGIC_1; 0x9D5827DCD881DD75; 0xA3148604F6FAB11B].

(** ** Requests *)

Record LimineBaseRevision := mkBaseRevision { magic_0 : Z; magic_1 : Z; br_revision : Z }.
Record LimineRequest := mkRequest { rq_id : list Z; rq_revision : Z; rq_response : Z }.

Definition base_revision : LimineBaseRevision := mkBaseRevision LIMINE_BASE_REVISION_MAGIC_0 LIMINE_BASE_REVISION_MAGIC_1 3.
Definition hhdm_request : LimineRequest := mkRequest LIMINE_HHDM_ID 0 0.
Definition memmap_request : LimineRequest := mkRequest LIMINE_MEMMAP_ID 0 0.
Definition bootloader_info_request : LimineRequest := mkRequest LIMINE_BOOTLOADER_INFO_ID 0 0.
Definition exec_addr_request : LimineRequest := mkRequest LIMINE_EXEC_ADDR_ID 0 0.
Definition rsdp_request : LimineRequest := mkRequest LIMINE_RSDP_ID 0 0.

(** The objects as they lie in the image. *)
Definition base_revision_bytes (r : LimineBaseRevision) : list Z := le_bytes 8 (magic_0 r) ++ le_bytes 8 (magic_1 r) ++ le_bytes 8 (br_revision r).
Definition request_bytes (r : LimineRequest) : list Z := (rq_id r ≫= le_bytes 8) ++ le_bytes 8 (rq_revision r) ++ le_bytes 8 (rq_response r).
Definition RESPONSE_OFFSET : Z := 40.

(** The requests and their addresses in the image. *)
Record requests := mkRequests { at_hhdm : Z; at_memmap : Z; at_bootloader_info : Z; at_exec_addr : Z; at_rsdp : Z }.
Definition image_requests (q : requests) : list (Z * LimineRequest) :=
  [(at_hhdm q, hhdm_request); (at_memmap q, memmap_request); (at_bootloader_info q, bootloader_info_request);
   (at_exec_addr q, exec_addr_request); (at_rsdp q, rsdp_request)].

(** ** Memory map types *)

Inductive MemmapType :=
  | USABLE | RESERVED | ACPI_RECLAIMABLE | ACPI_NVS | BAD_MEMORY | BOOTLOADER_RECLAIMABLE | EXECUTABLE_AND_MODULES | FRAMEBUFFER.
Definition memmap_type_code (t : MemmapType) : Z :=
  match t with
  | USABLE => 0 | RESERVED => 1 | ACPI_RECLAIMABLE => 2 | ACPI_NVS => 3 | BAD_MEMORY => 4
  | BOOTLOADER_RECLAIMABLE => 5 | EXECUTABLE_AND_MODULES => 6 | FRAMEBUFFER => 7
  end.

(** ** Reading the answers *)

Section read.
Context {X : Type} (load : nat → Z → M X Z).

Definition get_response (req : Z) : M X (option Z) :=
  r ← load 8 (req +64 RESPONSE_OFFSET);
  mret (if r =? 0 then None else Some r).

(** [LimineHhdmResponse::offset] *)
Definition hhdm_offset_of (resp : Z) : M X Z := load 8 (resp +64 8).
(** [LimineRsdpResponse::address] *)
Definition rsdp_address_of (resp : Z) : M X Z := load 8 (resp +64 8).

Definition read_entry (p : Z) : M X MemmapEntry :=
  base ← load 8 p;
  length ← load 8 (p +64 8);
  type ← load 8 (p +64 16);
  mret (mkMemmapEntry base length type).

(** [entries[i]] for the next [n] indices. *)
Fixpoint read_entries (entries : Z) (n : nat) (i : Z) : M X (list MemmapEntry) :=
  match n with
  | O => mret []
  | S n =>
    p ← load 8 (entries +64 8 * i);
    e ← read_entry p;
    es ← read_entries entries n (i + 1);
    mret (e :: es)
  end.

Definition read_memmap (resp : Z) : M X (list MemmapEntry) :=
  entry_count ← load 8 (resp +64 8);
  entries ← load 8 (resp +64 16);
  read_entries entries (Z.to_nat entry_count) 0.
End read.

(** ** What the boot loader leaves in memory *)

Definition entry_at (mem : amem) (p : Z) (e : MemmapEntry) : Prop :=
  peek mem 8 p = Some (me_base e) ∧ peek mem 8 (p +64 8) = Some (me_length e) ∧ peek mem 8 (p +64 16) = Some (me_type e).
Definition memmap_at (mem : amem) (resp : Z) (es : list MemmapEntry) : Prop :=
  peek mem 8 (resp +64 8) = Some (Z.of_nat (length es)) ∧
  ∃ arr, peek mem 8 (resp +64 16) = Some arr ∧
    ∀ i e, es !! i = Some e → ∃ p, peek mem 8 (arr +64 8 * Z.of_nat i) = Some p ∧ entry_at mem p e.

(** Every request of the image holds the address of the answer to its
    identifier, 0 when there is none. *)
Definition requests_filled (answer : list Z → option Z) (q : requests) (mem : amem) : Prop :=
  ∀ a r, (a, r) ∈ image_requests q → peek mem 8 (a +64 RESPONSE_OFFSET) = Some (default 0 (answer (rq_id r))).

Record responses := mkResponses { r_hhdm : option Z; r_memmap : option (list MemmapEntry); r_rsdp : option Z }.

Definition answered {V} (o : option Z) (v : option V) (P : Z → V → Prop) : Prop :=
  match o, v with Some p, Some x => p ≠ 0 ∧ P p x | None, None => True | _, _ => False end.

Definition limine_answers (q : requests) (mem : amem) (r : responses) : Prop := ∃ answer,
  requests_filled answer q mem ∧
  answered (answer LIMINE_HHDM_ID) (r_hhdm r) (λ p off, peek mem 8 (p +64 8) = Some off) ∧
  answered (answer LIMINE_MEMMAP_ID) (r_memmap r) (memmap_at mem) ∧
  answered (answer LIMINE_RSDP_ID) (r_rsdp r) (λ p a, peek mem 8 (p +64 8) = Some a).

(** ** Reading back *)

Section reading.
Context {X : Type} (load : nat → Z → M X Z) (mem : amem) (s : X).
Context (Hload : ∀ n a v, peek mem n a = Some v → load n a s = Ok (v, s)).

Lemma get_response_eq req v : peek mem 8 (req +64 RESPONSE_OFFSET) = Some v →
  get_response load req s = Ok (if v =? 0 then None else Some v, s).
Proof. intros E. unfold get_response. by rewrite (bind_ok _ _ _ _ _ (Hload _ _ _ E)). Qed.

Lemma get_response_answer answer q a r : requests_filled answer q mem → (a, r) ∈ image_requests q → answer (rq_id r) ≠ Some 0 →
  get_response load a s = Ok (answer (rq_id r), s).
Proof.
  intros Hf Hin H0. rewrite (get_response_eq _ _ (Hf _ _ Hin)). destruct (answer (rq_id r)) as [p|]; [|done].
  change (default 0 (Some p)) with p. rewrite (proj2 (Z.eqb_neq p 0)) by congruence. done.
Qed.

Lemma read_entry_eq p e : entry_at mem p e → read_entry load p s = Ok (e, s).
Proof.
  intros (E1 & E2 & E3). unfold read_entry. rewrite (bind_ok _ _ _ _ _ (Hload _ _ _ E1)), (bind_ok _ _ _ _ _ (Hload _ _ _ E2)),
    (bind_ok _ _ _ _ _ (Hload _ _ _ E3)). by destruct e.
Qed.

Lemma read_entries_eq arr es : ∀ i, 0 ≤ i →
  (∀ j e, es !! j = Some e → ∃ p, peek mem 8 (arr +64 8 * (i + Z.of_nat j)) = Some p ∧ entry_at mem p e) →
  read_entries load arr (length es) i s = Ok (es, s).
Proof.
  induction es as [|e es IH]; intros i Hi He; cbn [read_entries length]; [done|].
  destruct (He 0%nat e eq_refl) as (p & Ep & Hp). rewrite Z.add_0_r in Ep. rewrite (bind_ok _ _ _ _ _ (Hload _ _ _ Ep)).
  rewrite (bind_ok _ _ _ _ _ (read_entry_eq p e Hp)). rewrite (bind_ok _ _ _ es s); [done|]. apply IH; [lia|].
  intros j e' Hj. destruct (He (S j) e' Hj) as (p' & Ep' & Hp'). exists p'. split; [|done]. rewrite <-Ep'. do 2 f_equal. lia.
Qed.

(** The memory map is read as the boot loader wrote it. *)
Lemma read_memmap_eq p es : memmap_at mem p es → read_memmap load p s = Ok (es, s).
Proof.
  intros (En & arr & Ea & He). unfold read_memmap. rewrite (bind_ok _ _ _ _ _ (Hload _ _ _ En)), (bind_ok _ _ _ _ _ (Hload _ _ _ Ea)), Nat2Z.id.
  by apply read_entries_eq.
Qed.
End reading.

(** ** The objects in the image *)

(** Every request is 48 bytes that start with the common magic and end with the
    word the boot loader fills, and no two have the same identifier. *)
Lemma requests_layout :
  NoDup (rq_id <$> (image_requests (mkRequests 0 0 0 0 0)).*2) ∧
  Forall (λ r, length (request_bytes r) = 48%nat ∧ take 2 (rq_id r) = [LIMINE_COMMON_MAGIC_0; LIMINE_COMMON_MAGIC_1] ∧
    drop (Z.to_nat RESPONSE_OFFSET) (request_bytes r) = le_bytes 8 0) (image_requests (mkRequests 0 0 0 0 0)).*2.
Proof. split; [|repeat constructor; vm_compute; reflexivity]. apply (bool_decide_unpack _). by vm_compute. Qed.
