(* ===== verification/Boot.v ===== *)
(** * The boot sequence

    Model of [kernel_main] (src/kernel/entry.cpp).  The boot loader's answers
    are read from memory as the code does, at each use, except what is only read for
    the log.  The components it
    initialises are the operations of [boot_ops], over any kernel state; [halt]
    stops the machine. *)

From S2P Require Import Prelude Bytes Pmm Acpi Limine Descriptors PortIo Serial Interrupts.
Open Scope Z_scope.

Definition EXCEPTION_STACK_SIZE : Z := 8192.

(** What the boot calls, by name. *)
Record boot_ops (X : Type) := mkBootOps {
  load : nat → Z → M X Z;
  store8 : Z → Z → M X ();
  op_serial_init : M X bool;
  op_gdt_init : TaskStateSegment → M X ();
  op_idt_init : M X ();
  op_pmm_init : list MemmapEntry → Z → M X ();
  op_heap_init : M X ();
  op_thread_init : M X ();
  op_apic_init : Z → M X ();
  op_smp_init : Z → Z → M X ();
  op_scheduler_init : M X ();
  op_vfs_init : M X ();
  op_vfs_root_name : M X string;
  op_device_manager_init : M X ();
  op_pci_scan_bus : Z → M X ();
  op_hpet_init : Z → M X ();
  op_net_init : M X ();
  op_scheduler_start : M X ()
}.
Arguments mkBootOps {X}. Arguments load {X}. Arguments store8 {X}. Arguments op_serial_init {X}. Arguments op_gdt_init {X}. Arguments op_idt_init {X}.
Arguments op_pmm_init {X}. Arguments op_heap_init {X}. Arguments op_thread_init {X}. Arguments op_apic_init {X}.
Arguments op_smp_init {X}. Arguments op_scheduler_init {X}. Arguments op_vfs_init {X}. Arguments op_vfs_root_name {X}. Arguments op_device_manager_init {X}.
Arguments op_pci_scan_bus {X}. Arguments op_hpet_init {X}. Arguments op_net_init {X}. Arguments op_scheduler_start {X}.

Section boot.
Context {X : Type} (ops : boot_ops X) (bss_start bss_end current_rsp ist1_stack ist2_stack : Z).

Definition halt {A} : M X A := panic "halt".

(** [while (bss < _bss_end) *bss++ = 0;] *)
Definition clear_bss : M X () := for_each (seqZ bss_start (bss_end - bss_start)) (λ a, store8 ops a 0).

(** [usable_bytes] of the log. *)
Definition usable_bytes (entries : list MemmapEntry) : Z :=
  foldl (λ a e, if me_type e =? MEMMAP_USABLE then a +64 me_length e else a) 0 entries.

(** The task state: the top of each stack, and no I/O bitmap. *)
Definition setup_tss : TaskStateSegment :=
  mkTss current_rsp (ist1_stack +64 EXCEPTION_STACK_SIZE) (ist2_stack +64 EXCEPTION_STACK_SIZE) sizeof_Tss.

(** [memmap], [hhdm] and [rsdp] are the addresses of the answers. *)
Definition phase1 (memmap hhdm : Z) : M X () :=
  op_gdt_init ops setup_tss;;
  op_idt_init ops;;
  entries ← read_memmap (load ops) memmap;
  offset ← hhdm_offset_of (load ops) hhdm;
  op_pmm_init ops entries offset;;
  op_heap_init ops.

Definition phase2 (hhdm : Z) (rsdp : option Z) : M X () :=
  op_thread_init ops;;
  offset ← hhdm_offset_of (load ops) hhdm;
  op_apic_init ops offset;;
  (match rsdp with
   | Some p => address ← rsdp_address_of (load ops) p; offset ← hhdm_offset_of (load ops) hhdm; op_smp_init ops address offset
   | None => mret ()
   end);;
  op_scheduler_init ops.

Definition phases_4_to_6 (rsdp : option Z) : M X () :=
  op_vfs_init ops;;
  _ ← op_vfs_root_name ops;
  op_device_manager_init ops;;
  op_pci_scan_bus ops 0;;
  (match rsdp with Some p => address ← rsdp_address_of (load ops) p; op_hpet_init ops address | None => mret () end);;
  op_net_init ops.

(** Up to the idle loop. *)
Definition kernel_main (q : requests) : M X () :=
  clear_bss;;
  ok ← op_serial_init ops;
  if negb ok then halt
  else
    hhdm ← get_response (load ops) (at_hhdm q);
    match hhdm with
    | None => halt
    | Some hhdm =>
      memmap ← get_response (load ops) (at_memmap q);
      match memmap with
      | None => halt
      | Some memmap =>
        entries ← read_memmap (load ops) memmap;
        let _ := usable_bytes entries in
        rsdp ← get_response (load ops) (at_rsdp q);
        phase1 memmap hhdm;;
        phase2 hhdm rsdp;;
        phases_4_to_6 rsdp;;
        op_scheduler_start ops
      end
    end.

(** ** The same with the answers at hand *)

Definition boot_phases (memmap : list MemmapEntry) (hhdm : Z) (rsdp : option Z) : M X () :=
  (op_gdt_init ops setup_tss;; op_idt_init ops;; op_pmm_init ops memmap hhdm;; op_heap_init ops);;
  (op_thread_init ops;; op_apic_init ops hhdm;; (match rsdp with Some a => op_smp_init ops a hhdm | None => mret () end);; op_scheduler_init ops);;
  (op_vfs_init ops;; _ ← op_vfs_root_name ops; op_device_manager_init ops;; op_pci_scan_bus ops 0;; (match rsdp with Some a => op_hpet_init ops a | None => mret () end);; op_net_init ops);;
  op_scheduler_start ops.

Definition boot_with (r : responses) : M X () :=
  clear_bss;;
  ok ← op_serial_init ops;
  if negb ok then halt
  else match r_hhdm r, r_memmap r with
    | Some hhdm, Some memmap => boot_phases memmap hhdm (r_rsdp r)
    | _, _ => halt
    end.

(** When no operation changes the memory the answers lie in, they may be read in advance. *)
Lemma kernel_main_reads mem q r s : (∀ n a v s, peek mem n a = Some v → load ops n a s = Ok (v, s)) → limine_answers q mem r →
  kernel_main q s = boot_with r s.
Proof.
  intros Hl (answer & Hf & Hh & Hm & Hr). unfold kernel_main, boot_with.
  assert (Hg : ∀ a x s, (a, x) ∈ image_requests q → answer (rq_id x) ≠ Some 0 → get_response (load ops) a s = Ok (answer (rq_id x), s)).
  { intros a x s' Hin H0. apply (get_response_answer (load ops) mem s' ltac:(auto) answer q a x Hf Hin H0). }
  assert (H0 : ∀ V (o : option Z) (v : option V) P, answered o v P → o ≠ Some 0) by (intros V [p|] [v|] P H; try done; destruct H; congruence).
  apply bind_ext. intros [] s1. apply bind_ext. intros [] s2; cbn [negb]; [|done].
  rewrite (bind_ok _ _ _ _ _ (Hg (at_hhdm q) hhdm_request s2 ltac:(set_solver) (H0 _ _ _ _ Hh))).
  destruct (answer (rq_id hhdm_request)) as [hp|] eqn:Ehp; change (rq_id hhdm_request) with LIMINE_HHDM_ID in Ehp; rewrite Ehp in Hh;
    destruct (r_hhdm r) as [hhdm|]; try (by destruct Hh). destruct Hh as [_ Hh].
  rewrite (bind_ok _ _ _ _ _ (Hg (at_memmap q) memmap_request s2 ltac:(set_solver) (H0 _ _ _ _ Hm))).
  destruct (answer (rq_id memmap_request)) as [mp|] eqn:Emp; change (rq_id memmap_request) with LIMINE_MEMMAP_ID in Emp; rewrite Emp in Hm;
    destruct (r_memmap r) as [es|]; try (by destruct Hm). destruct Hm as [_ Hm].
  assert (Hes : ∀ s, read_memmap (load ops) mp s = Ok (es, s)) by (intros s'; exact (read_memmap_eq (load ops) mem s' ltac:(auto) mp es Hm)).
  rewrite (bind_ok _ _ _ _ _ (Hes s2)), (bind_ok _ _ _ _ _ (Hg (at_rsdp q) rsdp_request s2 ltac:(set_solver) (H0 _ _ _ _ Hr))).
  change (rq_id rsdp_request) with LIMINE_RSDP_ID. unfold boot_phases, phase1, phase2, phases_4_to_6.
  apply bind_ext2; [|intros [] s3; apply bind_ext2; [|intros [] s4; apply bind_ext2; [|done]]].
  - apply bind_ext. intros [] s3. apply bind_ext. intros [] s4. rewrite (bind_ok _ _ _ _ _ (Hes s4)). by rewrite (bind_ok _ _ _ _ _ (Hl _ _ _ s4 Hh)).
  - apply bind_ext. intros [] s4. rewrite (bind_ok _ _ _ _ _ (Hl _ _ _ s4 Hh)). apply bind_ext. intros [] s5. apply bind_ext2; [|done].
    destruct (answer LIMINE_RSDP_ID) as [rp|], (r_rsdp r) as [a|]; try (by destruct Hr). destruct Hr as [_ Hr].
    by rewrite (bind_ok _ _ _ _ _ (Hl _ _ _ s5 Hr)), (bind_ok _ _ _ _ _ (Hl _ _ _ s5 Hh)).
  - apply bind_ext. intros [] s5. apply bind_ext. intros name s5'. apply bind_ext. intros [] s6. apply bind_ext. intros [] s7. apply bind_ext2; [|done].
    destruct (answer LIMINE_RSDP_ID) as [rp|], (r_rsdp r) as [a|]; try (by destruct Hr). destruct Hr as [_ Hr].
    by rewrite (bind_ok _ _ _ _ _ (Hl _ _ _ s7 Hr)).
Qed.
End boot.

(** ** Order

    The same boot with operations that only note that they ran. *)

Inductive boot_event :=
  | Bss (a : Z) | SerialUp | Gdt (t : TaskStateSegment) | Idt | PmmUp (entries : list MemmapEntry) (hhdm : Z) | HeapUp | Threads
  | ApicUp (hhdm : Z) | SmpUp (rsdp hhdm : Z) | SchedulerUp | VfsUp | VfsRootName | Devices | PciScan (bus : Z) | HpetUp (rsdp : Z) | NetUp | SchedulerStart.

Definition note (e : boot_event) : M (list boot_event) () := modify (λ tr, tr ++ [e]).
Definition noting_ops (mem : amem) (serial_ok : bool) : boot_ops (list boot_event) :=
  mkBootOps (λ n a, deref (peek mem n a)) (λ a _, note (Bss a)) (note SerialUp;; mret serial_ok) (λ t, note (Gdt t)) (note Idt) (λ es h, note (PmmUp es h)) (note HeapUp)
    (note Threads) (λ h, note (ApicUp h)) (λ a h, note (SmpUp a h)) (note SchedulerUp) (note VfsUp) (note VfsRootName;; mret EmptyString) (note Devices) (λ b, note (PciScan b))
    (λ a, note (HpetUp a)) (note NetUp) (note SchedulerStart).

(** The order the components depend on. *)
Definition boot_order (tss : TaskStateSegment) (memmap : list MemmapEntry) (hhdm : Z) (rsdp : option Z) : list boot_event :=
  [Gdt tss; Idt; PmmUp memmap hhdm; HeapUp; Threads; ApicUp hhdm] ++ (match rsdp with Some a => [SmpUp a hhdm] | None => [] end) ++
  [SchedulerUp; VfsUp; VfsRootName; Devices; PciScan 0] ++ (match rsdp with Some a => [HpetUp a] | None => [] end) ++ [NetUp; SchedulerStart].

Lemma note_bss mem ok n : ∀ a tr, for_each (seqZ a (Z.of_nat n)) (λ a, store8 (noting_ops mem ok) a 0) tr = Ok ((), tr ++ (Bss <$> seqZ a (Z.of_nat n))).
Proof.
  induction n as [|n IH]; intros a tr; [by rewrite app_nil_r|]. rewrite seqZ_cons by lia. replace (Z.pred (Z.of_nat (S n))) with (Z.of_nat n) by lia.
  cbn [for_each fmap list_fmap]. rewrite (bind_ok _ _ _ () (tr ++ [Bss a]) eq_refl), IH, <-app_assoc. done.
Qed.


(** Memory as a boot loader leaves it: the five requests from 0x1000 on, and the
    answers to the first two. *)
Definition loader_words : gmap Z Z :=
  list_to_map [(0x1028, 0x2000); (0x1058, 0x2010); (0x1088, 0); (0x10B8, 0); (0x10E8, 0);
    (0x2008, 0xffff800000000000); (0x2018, 1); (0x2020, 0x2100); (0x2100, 0x2200);
    (0x2200, 0x1000); (0x2208, 0x8000); (0x2210, 0)].
Definition word_mem (words : gmap Z Z) : amem := λ a, match words !! (a - a mod 8) with
  | Some w => le_bytes 8 w !! Z.to_nat (a mod 8)
  | None => None
  end.
Definition loader_mem : amem := word_mem loader_words.
Definition loader_requests : requests := mkRequests 0x1000 0x1030 0x1060 0x1090 0x10C0.
Definition loader_responses : responses := mkResponses (Some 0xffff800000000000) (Some [mkMemmapEntry 0x1000 0x8000 MEMMAP_USABLE]) None.
Definition loader_answer (id : list Z) : option Z :=
  if decide (id = LIMINE_HHDM_ID) then Some 0x2000 else if decide (id = LIMINE_MEMMAP_ID) then Some 0x2010 else None.

(** Checks such a memory, the entries' table at 0x2100 and its one entry at 0x2200. *)
Ltac check_answers answer := exists answer; split_and!;
  [ let Hin := fresh in intros ? ? Hin; unfold image_requests in Hin; rewrite !elem_of_cons, elem_of_nil in Hin;
    destruct Hin as [Hin|[Hin|[Hin|[Hin|[Hin|[]]]]]]; injection Hin as -> ->; vm_compute; reflexivity
  | split; [done|vm_compute; reflexivity]
  | split; [done|split; [vm_compute; reflexivity|exists 0x2100; split; [vm_compute; reflexivity|]]]; intros [|?] ?; [|done]; intros [= <-];
    exists 0x2200; split; [|unfold entry_at; split_and!]; vm_compute; reflexivity
  | vm_compute; first [exact I|split; [discriminate|reflexivity]] ].

Lemma loader_answers : limine_answers loader_requests loader_mem loader_responses.
Proof. check_answers loader_answer. Qed.


(** ** The stacks of the boot

    What the task state set up here means for the gates of [idt_init]. *)

Lemma push_words_below r vs st a : a < r - 8 * Z.of_nat (length vs) → push_words r vs st a = st a.
Proof.
  revert r st. induction vs as [|v vs IH]; intros r st Ha; cbn [push_words]; [done|]. cbn [length] in Ha.
  rewrite IH by lia. apply fn_lookup_insert_ne. lia.
Qed.

(** With the task state of the boot, a double fault is handled on the stack
    set aside for it, whatever the stack pointer was when it struck: the whole frame
    lies in [ist1_stack] and no word outside it is written.  The second stack
    set aside, meant for the non-maskable interrupt, is never used: in the kernel that
    interrupt is delivered on the interrupted stack. *)
Theorem double_fault_own_stack {X} hw fuel stub_addr ra pfh regh c_regs c_stack err rsp0 ist1 ist2 (s : imach X) :
  stubs_ok stub_addr → idt_ready stub_addr s → tss s = setup_tss rsp0 ist1 ist2 → 0 ≤ ist1 → ist1 + EXCEPTION_STACK_SIZE < 2 ^ 64 → ist1 mod 16 = 0 →
  (∃ f s1, interrupt hw fuel stub_addr ra pfh regh c_regs c_stack VEC_DOUBLE_FAULT err s = dispatch_and_return hw fuel ra pfh regh c_regs c_stack s1 ∧
     rsp s1 = f ∧ ist1 ≤ f ∧ f + 8 * 22 = ist1 + EXCEPTION_STACK_SIZE ∧ frame_ok f VEC_DOUBLE_FAULT err s s1 ∧
     ∀ a, ¬ ist1 ≤ a < ist1 + EXCEPTION_STACK_SIZE → stack s1 a = stack s a) ∧
  (Z.land (cs s) 3 = 0 → entry_stack s (boot_gate stub_addr VEC_NMI) = Some (rsp s)).
Proof.
  intros Hs Hi Ht H0 Hm Ha. unfold EXCEPTION_STACK_SIZE in *. split.
  - assert (Htop : entry_stack s (boot_gate stub_addr VEC_DOUBLE_FAULT) = Some (ist1 + 8192)).
    { unfold entry_stack. cbn. rewrite Ht. unfold setup_tss, EXCEPTION_STACK_SIZE. cbn [Descriptors.ist1]. by rewrite wrap_small by lia. }
    assert (Hal : aligned_top (ist1 + 8192) = ist1 + 8192).
    { unfold aligned_top. replace (ist1 + 8192) with (ist1 + 512 * 16) at 2 by lia. rewrite Z_mod_plus_full, Ha. lia. }
    exists (frame_at (ist1 + 8192) VEC_DOUBLE_FAULT), (entered stub_addr (ist1 + 8192) VEC_DOUBLE_FAULT err s).
    split; [apply interrupt_eq; [done|done|done|done|unfold stack_room; lia]|]. split; [apply entered_rsp|].
    assert (Hf : frame_at (ist1 + 8192) VEC_DOUBLE_FAULT = ist1 + 8192 - 176) by (unfold frame_at; by rewrite Hal).
    split_and!; [lia|lia|apply entered_frame|]. intros a Hout. unfold entered. cbn [stack pushed set_stack set_flow]. rewrite Hal.
    destruct (decide (ist1 + 8192 ≤ a)); [by apply push_words_above|]. apply push_words_below.
    assert (Hlen : length (entry_words s VEC_DOUBLE_FAULT err) = 22%nat) by done. rewrite Hlen. lia.
  - intros Hc. unfold entry_stack. cbn. by rewrite Hc.
Qed.

Definition booted_imach : imach () :=
  mkImach (boot_gate row_stubs <$> seqZ 0 256) (boot_handlers (replicate 256 None)) [] (mkIdtr 4095 0xffffffff80200000)
    (setup_tss 0xffff800000010000 0xffffffff80300000 0xffffffff80302000) (λ _, 7) 0x13 0xffffffff80001234 KERNEL_CS 0x246 KERNEL_DS 0 (λ _, 0) [] ().

Lemma booted_imach_ready : idt_ready row_stubs booted_imach.
Proof. destruct (ready_imach_ready ()) as (H & _). split; [exact H|done]. Qed.

Lemma double_fault_own_stack_witness : ∃ f s1,
  interrupt (λ _ _ _, 0x60) 1 row_stubs 0 (λ _, mret ()) (λ _ _, mret ()) id id VEC_DOUBLE_FAULT 0 booted_imach =
    dispatch_and_return (λ _ _ _, 0x60) 1 0 (λ _, mret ()) (λ _ _, mret ()) id id s1 ∧ rsp s1 = f ∧ f + 8 * 22 = 0xffffffff80302000.
Proof.
  destruct (proj1 (double_fault_own_stack (λ _ _ _, 0x60) 1 row_stubs 0 (λ _, mret ()) (λ _ _, mret ()) id id 0 0xffff800000010000 0xffffffff80300000 0xffffffff80302000
    booted_imach row_stubs_ok booted_imach_ready eq_refl ltac:(lia) ltac:(by vm_compute) eq_refl)) as (f & s1 & E & Hr & _ & Hf & _).
  exists f, s1. split; [exact E|]. split; [exact Hr|exact Hf].
Defined.
