(* ===== verification/System.v ===== *)
(** * The whole kernel at boot

    The operations [kernel_main] calls are those of the components, over one
    state.  What components share is kept once and lent to a component for the
    length of a call: memory, the traces of port and register accesses, the
    machine-specific registers, and the store of pages and objects.

    Parameters: what the hardware answers, the addresses the linker assigns, and
    bounds on the loops that wait for the hardware. *)

From S2P Require Import Prelude LinkedList Bytes Pmm PmmBlocks PmmInv PmmInit PageAlloc PmmTheorems KernelHeap Heap HeapLists HeapInv HeapPages HeapSpec HeapPmm HeapTheorems HeapShared.
From S2P Require Import Thread Sched SchedInv SchedRefine SchedRun Vfs VfsInv VfsTree Net NetInv Device PortIo Pci Eth.
From S2P Require Import Serial Descriptors Interrupts Apic Acpi Hpet Smp Limine Boot.
Open Scope Z_scope.

(** ** State *)

Record system := mkSystem {
  y_mem : amem;
  y_ports : list io_event;
  y_mmio : list mmio_event;
  y_msrs : Z → Z;
  y_store : heap pmm;
  y_gdt : gdt;
  y_idt : imach ();
  y_threads : machine (heap pmm);
  y_apic : apic (smp (heap pmm));
  y_files : vfs (heap pmm) (heap pmm);
  y_devices : devices;
  y_hpet : hpet;
  y_net : net eth
}.

Definition set_y_mem v y := mkSystem v (y_ports y) (y_mmio y) (y_msrs y) (y_store y) (y_gdt y) (y_idt y) (y_threads y) (y_apic y) (y_files y) (y_devices y) (y_hpet y) (y_net y).
Definition set_y_ports v y := mkSystem (y_mem y) v (y_mmio y) (y_msrs y) (y_store y) (y_gdt y) (y_idt y) (y_threads y) (y_apic y) (y_files y) (y_devices y) (y_hpet y) (y_net y).
Definition set_y_mmio v y := mkSystem (y_mem y) (y_ports y) v (y_msrs y) (y_store y) (y_gdt y) (y_idt y) (y_threads y) (y_apic y) (y_files y) (y_devices y) (y_hpet y) (y_net y).
Definition set_y_msrs v y := mkSystem (y_mem y) (y_ports y) (y_mmio y) v (y_store y) (y_gdt y) (y_idt y) (y_threads y) (y_apic y) (y_files y) (y_devices y) (y_hpet y) (y_net y).
Definition set_y_store v y := mkSystem (y_mem y) (y_ports y) (y_mmio y) (y_msrs y) v (y_gdt y) (y_idt y) (y_threads y) (y_apic y) (y_files y) (y_devices y) (y_hpet y) (y_net y).
Definition set_y_gdt v y := mkSystem (y_mem y) (y_ports y) (y_mmio y) (y_msrs y) (y_store y) v (y_idt y) (y_threads y) (y_apic y) (y_files y) (y_devices y) (y_hpet y) (y_net y).
Definition set_y_idt v y := mkSystem (y_mem y) (y_ports y) (y_mmio y) (y_msrs y) (y_store y) (y_gdt y) v (y_threads y) (y_apic y) (y_files y) (y_devices y) (y_hpet y) (y_net y).
Definition set_y_threads v y := mkSystem (y_mem y) (y_ports y) (y_mmio y) (y_msrs y) (y_store y) (y_gdt y) (y_idt y) v (y_apic y) (y_files y) (y_devices y) (y_hpet y) (y_net y).
Definition set_y_apic v y := mkSystem (y_mem y) (y_ports y) (y_mmio y) (y_msrs y) (y_store y) (y_gdt y) (y_idt y) (y_threads y) v (y_files y) (y_devices y) (y_hpet y) (y_net y).
Definition set_y_files v y := mkSystem (y_mem y) (y_ports y) (y_mmio y) (y_msrs y) (y_store y) (y_gdt y) (y_idt y) (y_threads y) (y_apic y) v (y_devices y) (y_hpet y) (y_net y).
Definition set_y_devices v y := mkSystem (y_mem y) (y_ports y) (y_mmio y) (y_msrs y) (y_store y) (y_gdt y) (y_idt y) (y_threads y) (y_apic y) (y_files y) v (y_hpet y) (y_net y).
Definition set_y_hpet v y := mkSystem (y_mem y) (y_ports y) (y_mmio y) (y_msrs y) (y_store y) (y_gdt y) (y_idt y) (y_threads y) (y_apic y) (y_files y) (y_devices y) v (y_net y).
Definition set_y_net v y := mkSystem (y_mem y) (y_ports y) (y_mmio y) (y_msrs y) (y_store y) (y_gdt y) (y_idt y) (y_threads y) (y_apic y) (y_files y) (y_devices y) (y_hpet y) v.

(** ** Lending *)

(** Runs a component's routine on its part of the state. *)
Definition on {S T A} (look : S → T) (put : T → S → S) (m : M T A) : M S A := λ s,
  match m (look s) with
  | Ok (a, t) => Ok (a, put t s)
  | Panic msg => Panic msg
  | UB => UB
  end.

Lemma wp_on {S T A} (look : S → T) (put : T → S → S) (m : M T A) (Q : A → S → Prop) s :
  wp m (λ a t, Q a (put t s)) (look s) → wp (on look put m) Q s.
Proof. unfold wp, on. by destruct (m (look s)) as [[a t]| |]. Qed.

(** The threads with the store. *)
Definition look_threads y : machine (heap pmm) := set_m_pages (y_store y) (y_threads y).
Definition put_threads m y : system := set_y_threads m (set_y_store (m_pages m) y).
(** The APIC with accesses, memory and store, which the start of the processors uses. *)
Definition look_apic y : apic (smp (heap pmm)) :=
  let a := y_apic y in
  mkApic (kApicBase a) (kTicksPerMs a) (kTicksPerUs a) (y_ports y) (y_mmio y) (y_msrs y) (set_s_mem (y_mem y) (set_s_pages (y_store y) (rest a))).
Definition put_apic a y : system :=
  set_y_apic a (set_y_ports (a_ports a) (set_y_mmio (a_mmio a) (set_y_msrs (a_msrs a) (set_y_mem (s_mem (rest a)) (set_y_store (s_pages (rest a)) y))))).
(** The file system with the store, as a heap. *)
Definition look_files y : vfs (heap pmm) (heap pmm) := set_v_heap (y_store y) (y_files y).
Definition put_files v y : system := set_y_files v (set_y_store (v_heap v) y).
Definition look_hpet y : hpet := set_h_mmio (y_mmio y) (y_hpet y).
Definition put_hpet h y : system := set_y_hpet h (set_y_mmio (h_mmio h) y).
(** The network stack with the ports of its card. *)
Definition look_net y : net eth := set_nic (set_e_ports (y_ports y) (nic (y_net y))) (y_net y).
Definition put_net n y : system := set_y_net n (set_y_ports (e_ports (nic n)) y).

Definition set_tss {X} (t : TaskStateSegment) (r : imach X) : imach X :=
  mkImach (kIdt r) (kHandlers r) (kStubTable r) (idtr r) t (gprs r) (Interrupts.rsp r) (Interrupts.rip r) (cs r) (rflags r) (ss r) (cr2 r) (stack r) (i_ports r) (env r).

(** ** Operations *)

Section ops.
Context (hw : hardware) (dev : mmio_device) (fuel pci_fuel : nat) (raw : Z → Z).
Context (gdt_addr tss_addr idt_addr timer_handler ap_entry started_addr : Z) (stub_addr : Z → Z) (trampoline : list Z).
Local Abbreviation W := (M system).

Definition sys_load (n : nat) (a : Z) : W Z := y ← get; deref (peek (y_mem y) n a).
Definition sys_store8 (a v : Z) : W () := y ← get; m ← deref (poke (y_mem y) a [v]); modify (set_y_mem m).

(** The task state lies at [tss_addr], where the processor finds it. *)
Definition sys_gdt_init (t : TaskStateSegment) : W () :=
  on y_gdt set_y_gdt (modify (λ g, set_tss_objs (<[tss_addr := t]> (tss_objs g)) g);; gdt_init gdt_addr tss_addr);;
  modify (λ y, set_y_idt (set_tss t (y_idt y)) y).

(** [scheduler_init] registers the timer's handler. *)
Definition scheduler_init : M (imach ()) () := idt_set_handler VEC_APIC_TIMER (Some (registered timer_handler)).

(** [vfs_root()->name]: without a root undefined. *)
Definition vfs_root_name : M (vfs (heap pmm) (heap pmm)) string := r ← vfs_root; a ← deref r; n ← read_node a; mret (n_name n).

Definition sys_hpet_init (rsdp : Z) : W () :=
  y ← get; on look_hpet put_hpet (hpet_init (y_mem y) (pa_hhdm (y_store y)) dev rsdp).
Definition sys_scheduler_start : W () :=
  y ← get; on look_threads put_threads (scheduler_start (kTicksPerMs (y_apic y))).

Definition kernel_ops : boot_ops system :=
  mkBootOps sys_load sys_store8
    (on y_ports set_y_ports (serial_init hw))
    sys_gdt_init
    (on y_idt set_y_idt (idt_init idt_addr stub_addr))
    (λ entries hhdm, on y_store set_y_store (hp_op (pmm_init raw entries hhdm)))
    (mret ())
    (on look_threads put_threads thread_init)
    (λ hhdm, on look_apic put_apic (apic_init hw dev fuel hhdm))
    (λ rsdp hhdm, on look_apic put_apic (smp_init dev fuel trampoline gdt_addr ap_entry started_addr rsdp hhdm))
    (on y_idt set_y_idt scheduler_init)
    (on look_files put_files vfs_init)
    (on look_files put_files vfs_root_name)
    (on y_devices set_y_devices device_manager_init)
    (λ bus, on y_ports set_y_ports (pci_scan_bus hw pci_fuel bus))
    sys_hpet_init
    (on look_net put_net net_init)
    sys_scheduler_start.
End ops.

(** ** Memory *)

(** Memory after a range was zeroed. *)
Definition cleared (lo hi : Z) (mem : amem) : amem := λ x, if decide (lo ≤ x < hi) then Some 0 else mem x.

Lemma peek_ext mem mem' n a : (∀ x, mem x = mem' x) → peek mem n a = peek mem' n a.
Proof. intros H. unfold peek. f_equal. apply mapM_ext. intros i. apply H. Qed.

Lemma limine_answers_ext q mem mem' r : (∀ x, mem x = mem' x) → limine_answers q mem r → limine_answers q mem' r.
Proof.
  intros H (answer & Hf & H1 & H2 & H3). pose proof (λ n a, peek_ext mem mem' n a H) as E. exists answer.
  unfold requests_filled, memmap_at, entry_at in *. split_and!.
  - intros a x Hin. rewrite <-E. by apply Hf.
  - destruct (answer LIMINE_HHDM_ID), (r_hhdm r); try done. unfold answered in *. by rewrite <-E.
  - destruct (answer LIMINE_MEMMAP_ID), (r_memmap r); try done. unfold answered in *. setoid_rewrite <-E. exact H2.
  - destruct (answer LIMINE_RSDP_ID), (r_rsdp r); try done. unfold answered in *. by rewrite <-E.
Qed.

(** An invariant over the memory is an invariant of the heap over its allocator. *)
Lemma mem_inv_unframe U (h : heap pmm) F B L : mem_inv U h F B L → heap_inv h L.
Proof.
  intros (A & fl & D & place & [H1 H2 H3 H4 H5 H6 H7] & Hl & Hb). exists F, (A ++ B), fl, D, place. split_and!; [|done|done].
  split; [apply H1|done|done|done| | |done].
  - intros a f n c Ha. destruct (H5 a f n c Ha) as (q & size & Hok & HA & Hrest). exists q, size. split; [done|]. split; [set_solver|done].
  - intros b HD. destruct (H6 b HD) as [HA Hok]. split; [set_solver|done].
Qed.

(** ** The first object *)

(** The page allocator has a page as long as one is free and page 0 is not. *)
Lemma pmm_alloc_some (s : pmm) F A x : pa_inv s F A → x ∈ F → 0 ∉ F → wlp (pa_alloc 1) (λ r _, r ≠ 0) s.
Proof.
  intros (L & Hi & ->) Hx H0. pose proof (pmm_alloc_wp s L A 1 Hi ltac:(lia)) as Hw. unfold wp, wlp in *.
  cbn [pa_alloc pmm_allocator]. destruct (pmm_alloc_pages 1 s) as [[r s']| |]; [|done..].
  destruct Hw as [([?|H1] & _)|(t & _ & _ & Hf & Hr)]; [lia|by vm_compute in H1|]. apply fits_one in Hf as ->.
  destruct Hr as [(He & _)|(o & p & l & (Ho & HL & _) & -> & _)].
  - apply elem_of_page_set, elem_of_pages in Hx as ([p o] & [Ho Hp]%elem_of_blocks & _). rewrite He in Hp by lia. by apply not_elem_of_nil in Hp.
  - intros E. assert (p = 0) as -> by (unfold PAGE_SIZE in E; lia). apply H0, elem_of_page_set, elem_of_pages. exists (0, o).
    split; [apply elem_of_blocks; split; [lia|]; rewrite HL; by left|]. cbn. pose proof (block_size_pos o). lia.
Qed.

Lemma boot_kmalloc s U hhdm x : mem_inv (mkArena U hhdm) (heap_boot s) U [] ∅ → x ∈ U → 0 ∉ U → wp (Heap.kmalloc sizeof_VfsNode) (λ p _, 0 < p) (heap_boot s).
Proof.
  intros Hm Hx H0. destruct (mem_pages _ _ _ _ _ Hm) as (A & Hpa & _).
  eapply kmalloc_some; [by eapply mem_inv_unframe|done|reflexivity|]. by eapply (pmm_alloc_some s).
Qed.

Section steps.
Context (hw : hardware) (dev : mmio_device) (fuel pci_fuel : nat) (raw : Z → Z).
Context (gdt_addr tss_addr idt_addr timer_handler ap_entry started_addr : Z) (stub_addr : Z → Z) (trampoline : list Z).
Context (bss_start bss_end rsp0 ist1 ist2 : Z).
Local Abbreviation kops := (kernel_ops hw dev fuel pci_fuel raw gdt_addr tss_addr idt_addr timer_handler ap_entry started_addr stub_addr trampoline).
Implicit Types (y : system) (Q : () → system → Prop).

Lemma sys_load_eq y n a v : peek (y_mem y) n a = Some v → sys_load n a y = Ok (v, y).
Proof. intros E. unfold sys_load, mbind, M_bind, get. by rewrite E. Qed.

(** Clearing the zero-initialised data. *)
Lemma clear_loop_wp n : ∀ a y Q, (∀ x, a ≤ x < a + Z.of_nat n → is_Some (y_mem y x)) →
  (∀ m, (∀ x, m x = cleared a (a + Z.of_nat n) (y_mem y) x) → Q () (set_y_mem m y)) →
  wp (for_each (seqZ a (Z.of_nat n)) (λ a, sys_store8 a 0)) Q y.
Proof.
  induction n as [|n IH]; intros a y Q Hm HQ.
  - apply wp_ret. specialize (HQ (y_mem y)). destruct y. apply HQ. intros x. unfold cleared. rewrite decide_False by lia. done.
  - rewrite seqZ_cons by lia. replace (Z.pred (Z.of_nat (S n))) with (Z.of_nat n) by lia. cbn [for_each]. apply wp_bind.
    destruct (Hm a ltac:(lia)) as [v Hv]. unfold sys_store8. apply wp_bind, wp_get, wp_bind. cbn [poke].
    eapply (wp_deref _ (<[a := Some 0]> (y_mem y : Z → option Z))); [by rewrite Hv|]. apply wp_modify. apply IH.
    + intros x Hx. cbn [y_mem set_y_mem]. rewrite fn_lookup_insert_ne by lia. apply Hm. lia.
    + intros m Hx. change (set_y_mem m (set_y_mem (<[a := Some 0]> (y_mem y : Z → option Z)) y)) with (set_y_mem m y). apply HQ. intros x. rewrite Hx.
      unfold cleared. cbn [y_mem set_y_mem]. destruct (decide (x = a)) as [->|Hne].
      * rewrite decide_False, decide_True, fn_lookup_insert by lia. done.
      * rewrite fn_lookup_insert_ne by done. repeat case_decide; try lia; done.
Qed.

Lemma clear_bss_wp y Q : bss_start ≤ bss_end → (∀ x, bss_start ≤ x < bss_end → is_Some (y_mem y x)) →
  (∀ m, (∀ x, m x = cleared bss_start bss_end (y_mem y) x) → Q () (set_y_mem m y)) → wp (clear_bss kops bss_start bss_end) Q y.
Proof.
  intros Hb Hm HQ. unfold clear_bss. cbn [store8 kernel_ops]. replace (bss_end - bss_start) with (Z.of_nat (Z.to_nat (bss_end - bss_start))) by lia.
  apply clear_loop_wp; rewrite Z2Nat.id by lia; replace (bss_start + (bss_end - bss_start)) with bss_end by lia; done.
Qed.

(** The scratch register of the serial port gives back what was written. *)
Definition uart_present : Prop := ∀ tr, u8 (hw (tr ++ [Out 8 0x3FF 0xAE]) 8 0x3FF) = 0xAE.

Lemma serial_present (tr : list io_event) : uart_present → wp (serial_init hw) (λ ok _, ok = true) tr.
Proof.
  intros Hu. unfold serial_init, outb, inb, in_, out_. wp_run. rewrite !ports_set, !set_ports_set.
  set (v := wrap 8 _). assert (Hv : v = 0xAE) by apply Hu. rewrite Hv. cbn. done.
Qed.

(** ** Phase 1 *)

Definition boot_tss : TaskStateSegment := setup_tss rsp0 ist1 ist2.
(** The descriptors after [gdt_init]. *)
Definition gdt_up (g : gdt) : gdt := gdt_after gdt_addr tss_addr (set_tss_objs (<[tss_addr := boot_tss]> (tss_objs g)) g).

(** What the memory map has to offer. *)
Definition memory_fits (es : list MemmapEntry) (hhdm : Z) (e : MemmapEntry) : Prop :=
  memmap_ok es ∧ 0 ≤ hhdm < 2 ^ 64 ∧ hhdm + highest_addr es < 2 ^ 64 ∧
  find_metadata es (phys_to_pfn (highest_addr es) * sizeof_PageFrame) = Some e ∧ (∀ i, raw i = 0) ∧
  (∃ x, initially_free es e x) ∧ ¬ initially_free es e 0.

(** The store from boot on: its pages are the usable ones. *)
Definition store_up (es : list MemmapEntry) (hhdm : Z) (e : MemmapEntry) (U : gset Z) : Prop :=
  (∀ x, x ∈ U ↔ initially_free es e x) ∧ ∀ x, x ∈ U → (x + 1) * PAGE_SIZE + hhdm < 2 ^ 64.

Lemma phase1_wp y mp hp es hhdm e Q :
  y_store y = heap_boot pmm_boot → kGdt (y_gdt y) = kGdt_boot → length (kIdt (y_idt y)) = 256%nat → length (kHandlers (y_idt y)) = 256%nat →
  memmap_at (y_mem y) mp es → peek (y_mem y) 8 (hp +64 8) = Some hhdm → memory_fits es hhdm e →
  (∀ im s U, idt_ready stub_addr im → kHandlers im = boot_handlers (kHandlers (y_idt y)) → tss im = boot_tss →
     mem_inv (mkArena U hhdm) (heap_boot s) U [] ∅ → store_up es hhdm e U → Q () (set_y_store (heap_boot s) (set_y_idt im (set_y_gdt (gdt_up (y_gdt y)) y)))) →
  wp (phase1 kops rsp0 ist1 ist2 mp hp) Q y.
Proof.
  intros Hst Hg Hi Hh Hm Hp (Hok & Hhh & Htop & He & Hraw & _) HQ. unfold phase1. cbn [op_gdt_init op_idt_init op_pmm_init op_heap_init kernel_ops load].
  apply wp_bind. unfold sys_gdt_init. apply wp_bind, wp_on, wp_bind, wp_modify. apply (wp_eq _ _ _ () (gdt_up (y_gdt y))); [by apply gdt_init_eq|].
  apply wp_modify. set (y1 := set_y_gdt _ y). apply wp_bind, wp_on. eapply wp_mono; [by apply (idt_init_wp idt_addr stub_addr)|].
  intros [] im (Hr & _ & Hk & _ & _ & _ & Ht). set (y2 := set_y_idt im _).
  apply wp_bind. apply (wp_eq _ _ _ es y2); [by apply (read_memmap_eq sys_load (y_mem y) y2 (sys_load_eq y2))|].
  apply wp_bind. apply (wp_eq _ _ _ hhdm y2); [by apply sys_load_eq|]. apply wp_bind, wp_on, wp_hp_op.
  change (y_store y2) with (y_store y). rewrite Hst.
  eapply wp_mono; [apply (boot_mem raw es hhdm e); try done; lia|]. intros [] s (U & HU & Hfree & Hb). apply wp_ret.
  apply (HQ im s U); [done|done|done|done|]. split; [done|]. intros x Hx. specialize (Hb x Hx). unfold PAGE_SIZE in *. lia.
Qed.

(** ** Phase 2 *)

Lemma mem_inv_pages_ok U (h : heap pmm) F B L : mem_inv U h F B L → 0 ≤ ar_hhdm U → (∀ x, x ∈ ar_pages U → (x + 1) * PAGE_SIZE + ar_hhdm U < 2 ^ 64) →
  pa_inv h F B ∧ 0 ≤ pa_hhdm h ∧ ∀ x, x ∈ F → (x + 1) * PAGE_SIZE + pa_hhdm h < 2 ^ 64.
Proof.
  intros Hm H0 HU. destruct (mem_pages _ _ _ _ _ Hm) as (A & _ & Hsub & Eh). change (pa_hhdm h) with (pa_hhdm (hp_pages h)). rewrite Eh.
  split_and!; [by exists U, L|done|]. intros x Hx. apply HU. set_solver.
Qed.

Lemma thread_phase_wp y U F hhdm pa cpu st Q :
  y_threads y = sched_boot pa cpu st → 56 ≤ Thread.rsp cpu < 2 ^ 64 → mem_inv (mkArena U hhdm) (y_store y) F [] ∅ → 0 ≤ hhdm →
  (∀ x, x ∈ U → (x + 1) * PAGE_SIZE + hhdm < 2 ^ 64) →
  (∀ m, kernel_inv m (λ _, []) 0 0 → SchedRefine.running m 0 = true → m_pages m = y_store y → Q () (put_threads m y)) →
  wp (on look_threads put_threads thread_init) Q y.
Proof.
  intros Ht Hr Hm H0 HU HQ. apply wp_on. unfold look_threads. rewrite Ht.
  change (set_m_pages (y_store y) (sched_boot pa cpu st)) with (sched_boot (y_store y) cpu st).
  destruct (mem_inv_pages_ok _ _ _ _ _ Hm H0 HU) as (Hpa & Hh & HF).
  pose proof (thread_init_run (y_store y) cpu st) as E. apply (wp_eq _ _ _ _ _ E).
  destruct (wp_result _ _ _ _ _ (thread_init_inv (y_store y) cpu st F [] Hpa Hh HF Hr) E) as [Hk Hrun]. by apply HQ.
Qed.

Lemma apic_phase_wp y hhdm Q : APIC_BASE_PHYS +64 hhdm ≠ 0 → (∀ tr, polls hw PIT_CH2_GATE 0x20 fuel tr = true) →
  0 ≤ y_msrs y IA32_APIC_BASE < 2 ^ 64 →
  (∀ a, kApicBase a = APIC_BASE_PHYS +64 hhdm → 0 ≤ kTicksPerMs a < 2 ^ 32 → rest a = rest (look_apic y) → Q () (put_apic a y)) →
  wp (on look_apic put_apic (apic_init hw dev fuel hhdm)) Q y.
Proof.
  intros Hb Hp Hm HQ. apply wp_on, apic_init_wp; [done|done|done|]. intros ver id g vs v c _ _ Hc. apply HQ; [done| |done].
  cbn [kTicksPerMs calibrated]. unfold ticks_ms. split; [apply Z.div_pos; lia|]. apply Z.div_lt_upper_bound; lia.
Qed.

(** The file system over the lent store: while others hold nothing, the store stays one. *)
Lemma files_phase_wp y U F h pa mem Q :
  y_files y = vfs_boot h pa mem → mem_inv U (y_store y) F [] ∅ → wp (Heap.kmalloc sizeof_VfsNode) (λ p _, 0 < p) (y_store y) →
  (∀ v F' L r n, mem_inv U (v_heap v) F' [] L → init_post v → kRootNode v = Some r → v_nodes v !! r = Some n → root_node r n → Q () (put_files v y)) →
  wp (on look_files put_files vfs_init) Q y.
Proof.
  intros Hf Hm Hk HQ. apply wp_on. unfold look_files. rewrite Hf.
  change (set_v_heap (y_store y) (vfs_boot h pa mem)) with (vfs_boot (y_store y) pa mem).
  assert (Hv : @heap_view pmm (framed U []) (framed_store U []) (y_store y) ∅).
  { exists ∅. split; [by eapply mem_inv_heap|done]. }
  pose proof (@vfs_init_wp (heap pmm) (heap pmm) (@slab_heap pmm (framed U []) (framed_store U [])) (y_store y) pa mem ∅ Hv) as Hw.
  change (@vfs_init (heap pmm) (heap pmm) (@slab_heap pmm (framed U []) (framed_store U []))) with (@vfs_init (heap pmm) (heap pmm) slab_heap) in Hw.
  assert (Hroot : wlp vfs_init (λ _ v, is_Some (kRootNode v)) (vfs_boot (y_store y) pa mem)).
  { apply vfs_init_root. change (wlp (Heap.kmalloc sizeof_VfsNode) (λ p _, p ≠ 0) (y_store y)). clear - Hk. unfold wp, wlp in *.
    destruct (Heap.kmalloc _ _) as [[p h']| |]; [lia|done..]. }
  eapply wp_mono; [exact (wp_wlp _ _ _ _ Hw Hroot)|]. intros [] v [[(C & ms & Hi) Hr] [rt Ert]]. destruct (Hr rt Ert) as (n & Hn & Hrn).
  destruct (vi_heap _ _ _ Hi) as (L0 & (L & Hheap & <-) & Hnd & Hmt). destruct (heap_inv_mem _ _ _ _ Hheap) as [F' Hm'].
  apply (HQ v F' L rt n Hm'); [|done..]. split; [|exact Hr]. exists C, ms. destruct Hi. split; try done.
  exists (dom L). split; [|done]. exists L. split; [by eapply mem_inv_unframe|done].
Qed.

Lemma net_phase_wp y e Q : y_net y = net_boot e →
  (∀ n, net_inv n → g_our_mac n = Eth.eth_get_mac (set_e_ports (y_ports y) e) → g_our_ip n = 0 → g_net_ready n = false →
     g_dhcp_state n = WAITING_OFFER → Q () (put_net n y)) →
  wp (on look_net put_net net_init) Q y.
Proof.
  intros Hn HQ. apply wp_on, net_init_wp.
  - unfold look_net. rewrite Hn. apply (net_boot_inv (set_e_ports (y_ports y) e)).
  - unfold look_net. rewrite Hn. intros n Hi Hmac Hip _ Hr Hd _. by apply HQ.
Qed.

Lemma pci_phase_wp y cfg Q : config_space hw cfg → bridges_up cfg → (256 ≤ pci_fuel)%nat → (∀ tr, Q () (set_y_ports tr y)) →
  wp (on y_ports set_y_ports (pci_scan_bus hw pci_fuel 0)) Q y.
Proof.
  intros Hc Hu Hf HQ. apply wp_on. eapply wp_mono; [apply (scan_bus_returns hw cfg Hc pci_fuel 0); [done|lia|lia]|]. intros [] tr _. apply HQ.
Qed.

(** ** The machine and its image *)

(** Hardware that answers: a serial port, a reference timer that expires within
    [fuel] reads, and a PCI configuration space whose bridges lead upwards. *)
Record hardware_answers (cfg : Z → Z) : Prop := {
  ha_uart : uart_present;
  ha_pit : ∀ tr, polls hw PIT_CH2_GATE 0x20 fuel tr = true;
  ha_config : config_space hw cfg;
  ha_bridges : bridges_up cfg;
  ha_depth : (256 ≤ pci_fuel)%nat
}.

(** The image as it is loaded: every component's static data as the linker laid it out. *)
Record cold y : Prop := {
  co_store : y_store y = heap_boot pmm_boot;
  co_gdt : kGdt (y_gdt y) = kGdt_boot;
  co_idt : length (kIdt (y_idt y)) = 256%nat ∧ kHandlers (y_idt y) = replicate 256 None;
  co_threads : ∃ pa cpu st, y_threads y = sched_boot pa cpu st ∧ 56 ≤ Thread.rsp cpu < 2 ^ 64;
  co_files : ∃ h pa mem, y_files y = vfs_boot h pa mem;
  co_net : y_net y = net_boot eth_boot;
  co_msr : 0 ≤ y_msrs y IA32_APIC_BASE < 2 ^ 64;
  co_bss : ∀ x, bss_start ≤ x < bss_end → is_Some (y_mem y x)
}.

(** The kernel when the idle loop is reached. *)
Record booted (es : list MemmapEntry) (hhdm : Z) (e : MemmapEntry) y : Prop := {
  bo_bss : ∀ x, bss_start ≤ x < bss_end → y_mem y x = Some 0;
  bo_gdt : gdt_wf (kGdt (y_gdt y)) tss_addr ∧ sg_tr (segs (y_gdt y)) = TSS_SEL ∧ tss_objs (y_gdt y) !! tss_addr = Some boot_tss;
  bo_idt : idt_ready stub_addr (y_idt y) ∧ tss (y_idt y) = boot_tss ∧
    ∀ v, 0 ≤ v < 256 → kHandlers (y_idt y) !! Z.to_nat v =
      Some (if v =? VEC_DOUBLE_FAULT then Some double_fault else if v =? VEC_GENERAL_PROTECT then Some gp_fault
            else if v =? VEC_PAGE_FAULT then Some page_fault else if v =? VEC_APIC_TIMER then Some (registered timer_handler) else None);
  bo_store : ∃ U F L, mem_inv (mkArena U hhdm) (y_store y) F [] L ∧ ∀ x, x ∈ U ↔ initially_free es e x;
  bo_threads : kernel_inv (look_threads y) (λ _, []) 0 0 ∧ SchedRefine.running (look_threads y) 0 = true ∧ kSchedulingEnabled (y_threads y) = true;
  bo_timer : kApicBase (y_apic y) = APIC_BASE_PHYS +64 hhdm ∧ m_timer (y_threads y) = Some (u32 (kTicksPerMs (y_apic y) * TICK_INTERVAL_MS)) ∧
    m_interrupts (y_threads y) = true;
  bo_files : init_post (look_files y) ∧ is_Some (kRootNode (y_files y));
  bo_devices : registry (y_devices y) [];
  bo_net : net_inv (y_net y) ∧ g_our_mac (y_net y) = replicate 6 0 ∧ g_our_ip (y_net y) = 0 ∧ g_net_ready (y_net y) = false ∧
    g_dhcp_state (y_net y) = WAITING_OFFER
}.

Lemma boot_vectors (hs : list (option ExceptionHandler)) v : hs = replicate 256 None → 0 ≤ v < 256 →
  (<[Z.to_nat VEC_APIC_TIMER := Some (registered timer_handler)]> (boot_handlers hs)) !! Z.to_nat v =
    Some (if v =? VEC_DOUBLE_FAULT then Some double_fault else if v =? VEC_GENERAL_PROTECT then Some gp_fault
          else if v =? VEC_PAGE_FAULT then Some page_fault else if v =? VEC_APIC_TIMER then Some (registered timer_handler) else None).
Proof.
  intros -> Hv. unfold boot_handlers, VEC_APIC_TIMER, VEC_DOUBLE_FAULT, VEC_GENERAL_PROTECT, VEC_PAGE_FAULT.
  rewrite !list_lookup_insert, !length_insert, length_replicate, lookup_replicate_2 by lia.
  destruct (Z.eqb_spec v 8) as [->|]; [done|]. destruct (Z.eqb_spec v 13) as [->|]; [done|]. destruct (Z.eqb_spec v 14) as [->|]; [done|].
  destruct (Z.eqb_spec v 0xEF) as [->|]; [done|].
  repeat (rewrite decide_False by lia). done.
Qed.

(** Up to the phases: cleared data, a serial port, and the answers read back. *)
Lemma boot_reads_wp y q r es hhdm (Q : () → system → Prop) :
  (∀ x, bss_start ≤ x < bss_end → is_Some (y_mem y x)) → uart_present → bss_start ≤ bss_end →
  limine_answers q (cleared bss_start bss_end (y_mem y)) r → r_hhdm r = Some hhdm → r_memmap r = Some es → r_rsdp r = None →
  (∀ m tr mp hp, (∀ x, m x = cleared bss_start bss_end (y_mem y) x) → memmap_at m mp es → peek m 8 (hp +64 8) = Some hhdm →
     wp (phase1 kops rsp0 ist1 ist2 mp hp;; phase2 kops hp None;; phases_4_to_6 kops None;; op_scheduler_start kops) Q (set_y_ports tr (set_y_mem m y))) →
  wp (kernel_main kops bss_start bss_end rsp0 ist1 ist2 q) Q y.
Proof.
  intros Hbss Hua Hb Hans Ehh Emm Ers HQ. unfold kernel_main. apply wp_bind, clear_bss_wp; [done|done|]. intros m Hm.
  apply (limine_answers_ext _ _ m) in Hans; [|done]. destruct Hans as (answer & Hf & H1 & H2 & H3). rewrite Ehh in H1. rewrite Emm in H2. rewrite Ers in H3.
  destruct (answer LIMINE_HHDM_ID) as [hp|] eqn:Eh; [|done]. destruct (answer LIMINE_MEMMAP_ID) as [mp|] eqn:Em; [|done].
  destruct (answer LIMINE_RSDP_ID) as [|] eqn:Er; [done|]. destruct H1 as [Hhp H1]. destruct H2 as [Hmp H2].
  apply wp_bind. cbn [op_serial_init kernel_ops]. apply wp_on. eapply wp_mono; [by apply serial_present|]. intros ok tr ->. cbn [negb].
  set (y1 := set_y_ports tr _). assert (Hl : ∀ n a v, peek m n a = Some v → sys_load n a y1 = Ok (v, y1)) by (intros n a v; apply (sys_load_eq y1)).
  apply wp_bind. apply (wp_eq _ _ _ (Some hp) y1); [rewrite <-Eh; apply (get_response_answer sys_load m y1 Hl answer q _ hhdm_request); [done|set_solver|change (answer LIMINE_HHDM_ID ≠ Some 0); congruence]|].
  apply wp_bind. apply (wp_eq _ _ _ (Some mp) y1); [rewrite <-Em; apply (get_response_answer sys_load m y1 Hl answer q _ memmap_request); [done|set_solver|change (answer LIMINE_MEMMAP_ID ≠ Some 0); congruence]|].
  apply wp_bind. apply (wp_eq _ _ _ es y1); [by apply (read_memmap_eq sys_load m y1 Hl)|].
  apply wp_bind. apply (wp_eq _ _ _ None y1); [rewrite <-Er; apply (get_response_answer sys_load m y1 Hl answer q _ rsdp_request); [done|set_solver|change (answer LIMINE_RSDP_ID ≠ Some 0); congruence]|].
  by apply HQ.
Qed.

(** The whole run without ACPI tables, from the answers of the boot loader. *)
Lemma kernel_main_wp y q r cfg es hhdm e :
  cold y → hardware_answers cfg → bss_start ≤ bss_end → 0 ≤ tss_addr < 2 ^ 64 →
  limine_answers q (cleared bss_start bss_end (y_mem y)) r → r_hhdm r = Some hhdm → r_memmap r = Some es → r_rsdp r = None →
  memory_fits es hhdm e → APIC_BASE_PHYS +64 hhdm ≠ 0 →
  wp (kernel_main kops bss_start bss_end rsp0 ist1 ist2 q) (λ _, booted es hhdm e) y.
Proof.
  intros [Hst Hg [Hi Hh] (pa & cpu & stk & Hthr & Hrsp) (h0 & pa0 & mem0 & Hfs) Hnet Hmsr Hbss] [Hua Hpit Hcfg Hup Hdep] Hb Ht Hans Ehh Emm Ers Hfit Hapic.
  eapply (boot_reads_wp y q r es hhdm); [done|done|done|done|done|done|done|]. intros m tr mp hp Hm H2 H1. set (y1 := set_y_ports tr _).
  apply wp_bind. apply (phase1_wp y1 mp hp es hhdm e); [done|done|done|cbn; by rewrite Hh|done|done|done|]. intros im st0 U Hidt Hhs Htss Hmem [HU HUb].
  set (st := heap_boot st0) in *. set (y2 := set_y_store st _). apply wp_bind. unfold phase2. cbn [op_thread_init op_apic_init op_scheduler_init kernel_ops load].
  assert (Hhh : 0 ≤ hhdm) by (destruct Hfit as (_ & ? & _); lia).
  apply wp_bind. apply (thread_phase_wp y2 U U hhdm pa cpu stk); [done|done|done|done|done|]. intros mch Hk Hrun Hpg.
  apply wp_bind. apply (wp_eq _ _ _ hhdm (put_threads mch y2)); [by apply sys_load_eq|].
  apply wp_bind. apply apic_phase_wp; [done|done|done|]. intros a Hab Hat Har. set (y3 := put_apic a _).
  assert (Em3 : y_mem y3 = m) by (cbn; by rewrite Har). assert (Es3 : y_store y3 = st) by (cbn; rewrite Har; exact Hpg).
  apply wp_bind, wp_ret. apply wp_on. unfold scheduler_init. apply idt_set_handler_wp.
  { cbn. rewrite Hhs. cbn. rewrite Hh. done. }
  set (im' := set_kHandlers _ _). set (y4 := set_y_idt im' y3). apply wp_bind. unfold phases_4_to_6.
  cbn [op_vfs_init op_vfs_root_name op_device_manager_init op_pci_scan_bus op_net_init kernel_ops].
  apply wp_bind. apply (files_phase_wp y4 (mkArena U hhdm) U h0 pa0 mem0); [exact Hfs|change (y_store y4) with (y_store y3); by rewrite Es3| |].
  { change (y_store y4) with (y_store y3). rewrite Es3. destruct Hfit as (_ & _ & _ & _ & _ & [x Hx] & H0). eapply boot_kmalloc; [exact Hmem|by apply HU|by rewrite HU]. }
  intros v F L rt n0 Hmv Hpost Hrt Hn0 Hrn. apply wp_bind, wp_on. unfold vfs_root_name, vfs_root. apply wp_bind, wp_gets, wp_bind.
  eapply wp_deref; [exact Hrt|]. unfold read_node. apply wp_bind, wp_bind, wp_get. eapply wp_deref; [exact Hn0|]. apply wp_ret.
  apply wp_bind, wp_on. unfold device_manager_init. apply wp_bind, wp_modify, wp_modify.
  apply wp_bind. apply (pci_phase_wp _ cfg); [done|done|done|]. intros tr2. apply wp_bind, wp_ret.
  apply (net_phase_wp _ eth_boot); [exact Hnet|]. intros n Hn Hmac Hip Hrd Hdh. cbn [op_scheduler_start kernel_ops].
  unfold sys_scheduler_start. apply wp_bind, wp_get, wp_on. unfold scheduler_start, Sched.apic_timer_oneshot. do 2 apply wp_bind, wp_modify. apply wp_modify.
  split.
  - intros x Hx. change (y_mem y3 x = Some 0). rewrite Em3, Hm. unfold cleared. by rewrite decide_True.
  - split_and!; [by apply gdt_after_wf|done|apply lookup_insert_eq].
  - destruct Hidt as (Hi1 & Hi2 & Hi3 & Hi4). split_and!; [split_and!; [exact Hi1|exact Hi2|exact Hi3|]|exact Htss|].
    + cbn. by rewrite length_insert.
    + intros x Hx. change (kHandlers (y_idt _)) with (<[Z.to_nat VEC_APIC_TIMER := Some (registered timer_handler)]> (kHandlers im)). rewrite Hhs. by apply boot_vectors.
  - exists U, F, L. by split.
  - destruct (mem_inv_pages_ok _ _ _ _ _ Hmv Hhh HUb) as (Hpa & Hh0 & HF).
    pose proof (kernel_inv_pages mch _ _ _ (v_heap v) Hk) as Hk2. split_and!; [|exact Hrun|done].
    eapply (kernel_inv_start (set_m_pages (v_heap v) mch)), Hk2. exists F, []. by split_and!.
  - done.
  - assert (Hv : set_v_heap (v_heap v) v = v) by (by destruct v). change (init_post (set_v_heap (v_heap v) v) ∧ is_Some (kRootNode v)). rewrite Hv. by split; [|exists rt].
  - split; [by constructor|set_solver|done|done|set_solver].
  - split_and!; try done.
Qed.
End steps.


(** ** A machine *)

(** The scratch register holds what was written, the reference timer has expired at the first read,
    and no PCI device answers. *)
Definition plain_machine : hardware := λ tr _ port,
  if port =? 0x61 then 0x20 else if port =? PCI_CONFIG_DATA then 0xFFFFFFFF
  else match last tr with Some (Out _ _ v) => v | _ => 0 end.

Definition image_start : Z := 0x3000.
Definition image_end : Z := 0x3010.
Definition image_mem : amem := λ a, if decide (image_start ≤ a < image_end) then Some 0xCC else loader_mem a.
Definition image : system :=
  mkSystem image_mem [] [] (λ _, 0xFEE00900) (heap_boot pmm_boot) (gdt_boot 0xffffffff80201234) (boot_imach ())
    (sched_boot (heap_boot pmm_boot) (mkCpu 1 2 3 4 5 6 0xffff900000000000 0) (λ _, 0))
    (mkApic 0 0 0 [] [] (λ _, 0) (mkSmp 1 (replicate 64 0) 0 image_mem (heap_boot pmm_boot) 0x1000))
    (vfs_boot (heap_boot pmm_boot) (heap_boot pmm_boot) (λ _, 0)) (mkDevices ∅ None 0) (mkHpet 0 0 0 0 []) (net_boot eth_boot).

Lemma image_cold : cold image_start image_end image.
Proof.
  split; try done.
  - eexists _, _, _. split; [reflexivity|]. cbn. lia.
  - eexists _, _, _. reflexivity.
  - intros x Hx. exists 0xCC. cbn. unfold image_mem. by rewrite decide_True.
Qed.

Lemma plain_machine_answers : hardware_answers plain_machine 1 256 (λ _, 0xFFFFFFFF).
Proof.
  split.
  - intros tr. unfold plain_machine. cbn [Z.eqb]. by rewrite last_snoc.
  - intros tr. reflexivity.
  - split; [|lia]. intros tr a. reflexivity.
  - intros bus dv func _. discriminate.
  - lia.
Qed.

Lemma image_answers : limine_answers loader_requests (cleared image_start image_end image_mem) loader_responses.
Proof. check_answers loader_answer. Qed.

Lemma image_fits : memory_fits (λ _, 0) small_memmap 0xffff800000000000 (mkMemmapEntry 0x1000 0x8000 MEMMAP_USABLE).
Proof. split_and!; [apply small_memmap_ok|lia|lia|by vm_compute|by vm_compute|done| |].
  - exists 2, (mkMemmapEntry 0x1000 0x8000 MEMMAP_USABLE). split_and!; [by left|done|split; by vm_compute|]. intros [_ H]. by vm_compute in H.
  - intros (e' & Hin & _ & [H _] & _). apply list_elem_of_singleton in Hin as ->. by vm_compute in H.
Qed.

