(* ===== verification/SystemAcpi.v ===== *)
(** * The boot with ACPI tables

    With base revision 3 the boot loader gives the physical address of the
    tables' root pointer.  [smp_init] adds the direct-map offset to it;
    [hpet_init] reads it as it is. *)

From S2P Require Import Prelude Bytes Pmm PageAlloc PmmTheorems KernelHeap Heap HeapPages HeapTheorems HeapShared Thread Sched Vfs Net Device PortIo Eth.
From S2P Require Import Descriptors Interrupts Apic Acpi Hpet Smp Limine Boot System.
Open Scope Z_scope.

(** ** What the interrupt controller leaves alone *)

Definition same_rest {X} (s s' : apic X) : Prop := rest s' = rest s.
#[export] Instance same_rest_preorder X : PreOrder (@same_rest X).
Proof. split; [done|]. unfold same_rest. intros s1 s2 s3. congruence. Qed.

Section controller.
Context {X : Type} (hw : hardware) (dev : mmio_device).
Local Abbreviation still := (keeps (@same_rest X)).

Lemma still_out w p v : still (out_ w p v).
Proof. by apply keeps_modify. Qed.
Lemma still_in w p : still (in_ hw w p).
Proof. unfold in_. keeps_tac. by apply keeps_modify. Qed.
Lemma still_store w a v : still (mmio_store w a v).
Proof. by apply keeps_modify. Qed.
Lemma still_load w a : still (mmio_load dev w a).
Proof. unfold mmio_load. keeps_tac. by apply keeps_modify. Qed.
Lemma still_pause : still pause.
Proof. by apply keeps_modify. Qed.
Hint Resolve still_out still_in still_store still_load still_pause : vortex.

Lemma still_write reg v : still (apic_write reg v).
Proof. unfold apic_write, apic_reg. keeps_tac. Qed.
Lemma still_read reg : still (apic_read dev reg).
Proof. unfold apic_read, apic_reg. keeps_tac. Qed.
Hint Resolve still_write still_read : vortex.

Lemma still_wait_pit n : still (wait_pit hw n).
Proof. induction n; cbn [wait_pit]; unfold inb; keeps_tac. Qed.
Lemma still_wait_icr n : still (wait_icr dev n).
Proof. induction n; cbn [wait_icr]; keeps_tac. Qed.
Hint Resolve still_wait_pit still_wait_icr : vortex.

Lemma still_calibrate n : still (calibrate_timer hw dev n).
Proof. unfold calibrate_timer, inb, outb. keeps_tac; try apply keeps_when; by apply keeps_modify. Qed.
Hint Resolve still_calibrate : vortex.

Lemma still_apic_init n hhdm : still (apic_init hw dev n hhdm).
Proof. unfold apic_init, rdmsr, wrmsr. keeps_tac; by apply keeps_modify. Qed.
Lemma still_send_ipi n id flags : still (apic_send_ipi dev n id flags).
Proof. unfold apic_send_ipi. keeps_tac. Qed.
End controller.

(** ** What the start of the processors writes *)

(** Memory that differs at most in [lo, hi). *)
Definition same_outside (lo hi : Z) (m m' : amem) : Prop := ∀ x, ¬ lo ≤ x < hi → m' x = m x.

Lemma poke_outside lo hi bs : ∀ m a m', poke m a bs = Some m' → lo ≤ a → a + Z.of_nat (length bs) ≤ hi → same_outside lo hi m m'.
Proof.
  induction bs as [|b bs IH]; intros m a m' E Hlo Hhi; cbn [poke length] in *; [by injection E as ->|].
  destruct (m a); [|done]. intros x Hx. rewrite (IH _ _ _ E ltac:(lia) ltac:(lia) x Hx). apply fn_lookup_insert_ne. lia.
Qed.

Section processors.
Context {PA : Type} `{!PageAllocator PA} (hw : hardware) (dev : mmio_device) (fuel : nat).
Context (trampoline : list Z) (gdt_addr ap_entry started_addr hhdm : Z).
Let page : Z := TRAMPOLINE_PHYS +64 hhdm.
Context (Htop : page + PAGE_SIZE ≤ 2 ^ 64) (Hlen : Z.of_nat (length trampoline) ≤ PAGE_SIZE).
Implicit Types s : apic (smp PA).

Definition page_only s s' : Prop := same_outside page (page + PAGE_SIZE) (s_mem (rest s)) (s_mem (rest s')).
Instance page_only_preorder : PreOrder page_only.
Proof. split; [done|]. intros s1 s2 s3 H1 H2 x Hx. by rewrite H2, H1. Qed.
Local Abbreviation local := (keeps page_only).

Lemma local_still {A} (m : M (apic (smp PA)) A) : keeps same_rest m → local m.
Proof. apply keeps_weaken. intros s s' E x _. by rewrite E. Qed.
Lemma local_rd n a : local (Smp.rd n a).
Proof. unfold Smp.rd. keeps_tac. Qed.
Lemma local_upd f : (∀ r, s_mem (f r) = s_mem r) → local (upd f).
Proof. intros Hf. apply keeps_modify. intros s x _. cbn. by rewrite Hf. Qed.
Lemma local_page_op {A} (m : M PA A) : local (page_op m).
Proof. intros s. unfold wlp, page_op. destruct (m (s_pages (rest s))) as [[a pa]| |]; [|done..]. by intros x _. Qed.
Lemma local_wr off bs : 0 ≤ off → off + Z.of_nat (length bs) ≤ PAGE_SIZE → local (wr (page +64 off) bs).
Proof using Htop.
  clear Hlen. intros H0 Hb s. unfold wr. apply wlp_bind, wlp_get, wlp_bind, wlp_deref. intros m E. apply wlp_modify.
  pose proof (wrap_range 64 (TRAMPOLINE_PHYS + hhdm) ltac:(lia)) as Hp. fold page in Hp. pose proof Htop as Ht. unfold PAGE_SIZE in Hb, Ht.
  destruct (decide (off = 4096)) as [->|].
  - assert (bs = []) as -> by (destruct bs; [done|cbn [length] in Hb; lia]). injection E as <-. by intros x _.
  - rewrite wrap_small in E by lia. apply (poke_outside _ _ _ _ _ _ E); unfold PAGE_SIZE; lia.
Qed.
Hint Resolve local_rd local_page_op : vortex.
Hint Extern 1 (local (upd _)) => apply local_upd; reflexivity : vortex.

Lemma local_sig_is h sig : ∀ i, local (sig_is h i sig).
Proof. induction sig; intros i; cbn [sig_is]; keeps_tac. Qed.
Hint Resolve local_sig_is : vortex.
Lemma local_find_madt revision xsdt off n : ∀ i, local (find_madt revision xsdt off n i).
Proof. induction n; intros i; cbn [find_madt]; keeps_tac. Qed.
Lemma local_madt_entry ptr type : local (madt_entry ptr type).
Proof. unfold madt_entry, add_cpu. apply keeps_when. keeps_tac. apply keeps_when, keeps_when. keeps_tac. Qed.
Hint Resolve local_find_madt local_madt_entry : vortex.
Lemma local_parse_madt n : ∀ ptr end_, local (parse_madt n ptr end_).
Proof. induction n; intros ptr end_; cbn [parse_madt]; keeps_tac. Qed.
Lemma local_prepare : local (prepare_trampoline trampoline gdt_addr ap_entry hhdm).
Proof using Htop Hlen.
  unfold prepare_trampoline. apply keeps_bind; [|intros; keeps_tac; try apply local_wr; try done].
  intros s. pose proof (local_wr 0 trampoline ltac:(done) ltac:(lia) s) as H.
  assert (E : page +64 0 = page) by (rewrite wrap_small; [lia|pose proof (wrap_range 64 (TRAMPOLINE_PHYS + hhdm) ltac:(lia)); unfold page; lia]).
  by rewrite E in H.
Qed.
Lemma local_pauses n : local (pauses n).
Proof. induction n; cbn [pauses]; keeps_tac. apply local_still, still_pause. Qed.
Hint Resolve local_parse_madt local_prepare local_pauses : vortex.
Lemma local_ipi id flags : local (apic_send_ipi dev fuel id flags).
Proof. apply local_still, still_send_ipi. Qed.
Hint Resolve local_ipi : vortex.
Lemma local_boot_ap i : local (boot_ap dev fuel hhdm i).
Proof using Htop. unfold boot_ap. keeps_tac. by apply local_wr. Qed.
Lemma local_wait_started n : local (wait_started dev started_addr n).
Proof. induction n; cbn [wait_started]; keeps_tac; apply local_still; [apply still_load|apply still_pause]. Qed.
Hint Resolve local_boot_ap local_wait_started : vortex.

Lemma local_smp_init rsdp : local (smp_init dev fuel trampoline gdt_addr ap_entry started_addr rsdp hhdm).
Proof using Htop Hlen. unfold smp_init, boot_aps. keeps_tac. Qed.
End processors.

(** ** Memory through the boot *)

Lemma wlp_bind_keeps {S A B} (R : S → S → Prop) (m : M S A) (k : A → M S B) Q s :
  keeps R m → (∀ a s', R s s' → wlp (k a) Q s') → wlp (m ≫= k) Q s.
Proof. intros Hm Hk. apply wlp_bind. eapply wlp_mono; [apply Hm|]. exact Hk. Qed.

Lemma wlp_bind_ok {S A B} (m : M S A) (k : A → M S B) Q s a s' : m s = Ok (a, s') → wlp (k a) Q s' → wlp (m ≫= k) Q s.
Proof. intros E Hk. unfold wlp. by rewrite (bind_ok _ _ _ _ _ E). Qed.

Lemma peek_outside lo hi m m' n a : same_outside lo hi m m' → (∀ i, 0 ≤ i < Z.of_nat n → ¬ lo ≤ a + i < hi) → peek m' n a = peek m n a.
Proof.
  intros H Ha. unfold peek. f_equal. assert (Hl : Forall (λ i, (i < n)%nat) (seq 0 n)) by (apply Forall_forall; intros i Hi%elem_of_seq; lia).
  induction Hl as [|i l Hi _ IH]; [done|]. cbn [mapM]. rewrite IH. by rewrite (H _ (Ha (Z.of_nat i) ltac:(lia))).
Qed.

Lemma same_everywhere m m' : same_outside 0 0 m m' → ∀ x, m' x = m x.
Proof. intros H x. apply H. lia. Qed.

Definition mem_moved (lo hi : Z) (y y' : system) : Prop := same_outside lo hi (y_mem y) (y_mem y').
#[export] Instance mem_moved_preorder lo hi : PreOrder (mem_moved lo hi).
Proof. split; [done|]. intros y1 y2 y3 H1 H2 x Hx. by rewrite H2, H1. Qed.

(** A component that is not lent memory leaves it alone. *)
Lemma keeps_lent {T A} lo hi (look : system → T) put (m : M T A) : (∀ t y, y_mem (put t y) = y_mem y) → keeps (mem_moved lo hi) (on look put m).
Proof. intros Hp y. unfold wlp, on. destruct (m (look y)) as [[a t]| |]; [|done..]. intros x _. by rewrite Hp. Qed.

Lemma keeps_apic {A} lo hi R (m : M (apic (smp (heap pmm))) A) :
  (∀ s s', R s s' → same_outside lo hi (s_mem (rest s)) (s_mem (rest s'))) → keeps R m → keeps (mem_moved lo hi) (on look_apic put_apic m).
Proof.
  intros HR Hm y. specialize (Hm (look_apic y)). unfold wlp, on in *. destruct (m (look_apic y)) as [[a t]| |]; [|done..]. exact (HR _ _ Hm).
Qed.

Lemma keeps_load lo hi n a : keeps (mem_moved lo hi) (sys_load n a).
Proof. unfold sys_load. keeps_tac. Qed.
#[export] Hint Resolve keeps_load : vortex.
#[export] Hint Extern 1 (keeps _ (on _ _ _)) => apply keeps_lent; reflexivity : vortex.

Lemma keeps_get_response lo hi a : keeps (mem_moved lo hi) (get_response sys_load a).
Proof. unfold get_response. keeps_tac. Qed.
Lemma keeps_read_entries lo hi arr n : ∀ i, keeps (mem_moved lo hi) (read_entries sys_load arr n i).
Proof. induction n; intros i; cbn [read_entries]; unfold read_entry; keeps_tac. Qed.
#[export] Hint Resolve keeps_get_response keeps_read_entries : vortex.
Lemma keeps_read_memmap lo hi a : keeps (mem_moved lo hi) (read_memmap sys_load a).
Proof. unfold read_memmap. keeps_tac. Qed.
#[export] Hint Resolve keeps_read_memmap : vortex.

(** Clearing leaves zeroes there and the rest as it was, whatever is mapped. *)
Lemma clear_loop_wlp n : ∀ a y, wlp (for_each (seqZ a (Z.of_nat n)) (λ a, sys_store8 a 0)) (λ _ y', ∀ x, y_mem y' x = cleared a (a + Z.of_nat n) (y_mem y) x) y.
Proof.
  induction n as [|n IH]; intros a y; [apply wlp_ret; intros x; unfold cleared; by rewrite decide_False by lia|].
  rewrite seqZ_cons by lia. replace (Z.pred (Z.of_nat (S n))) with (Z.of_nat n) by lia. cbn [for_each]. apply wlp_bind.
  unfold sys_store8. apply wlp_bind, wlp_get, wlp_bind, wlp_deref. cbn [poke]. intros m E. destruct (y_mem y a) eqn:Ea; [|done]. injection E as <-.
  apply wlp_modify. eapply wlp_mono; [apply IH|]. intros [] y' Hy x. rewrite Hy. unfold cleared. cbn [y_mem set_y_mem].
  destruct (decide (x = a)) as [->|Hne].
  - rewrite decide_False, decide_True by lia. apply fn_lookup_insert.
  - repeat case_decide; try lia; [done|]. by apply fn_lookup_insert_ne.
Qed.

Section acpi.
Context (hw : hardware) (dev : mmio_device) (fuel pci_fuel : nat) (raw : Z → Z).
Context (gdt_addr tss_addr idt_addr timer_handler ap_entry started_addr : Z) (stub_addr : Z → Z) (trampoline : list Z).
Context (rsp0 ist1 ist2 : Z).
Local Abbreviation kops := (kernel_ops hw dev fuel pci_fuel raw gdt_addr tss_addr idt_addr timer_handler ap_entry started_addr stub_addr trampoline).
Implicit Types y : system.

Lemma keeps_phase1 mp hp : keeps (mem_moved 0 0) (phase1 kops rsp0 ist1 ist2 mp hp).
Proof.
  unfold phase1. cbn [op_gdt_init op_idt_init op_pmm_init op_heap_init kernel_ops load]. unfold sys_gdt_init, hhdm_offset_of. keeps_tac.
  by apply keeps_modify.
Qed.

(** Reading the root pointer where nothing is mapped. *)
Lemma sys_hpet_init_unmapped a y : y_mem y (a +64 0) = None → sys_hpet_init dev a y = UB.
Proof.
  intros H. unfold sys_hpet_init, mbind, M_bind, get, on, hpet_init, find_hpet_table. cbn [check_sig rsdp_sig]. unfold Hpet.rd, peek. cbn [seq mapM].
  cbn [Z.of_nat]; rewrite !Z.add_0_r in *; rewrite H. done.
Qed.

(** With the answers at [hp] and [rp], and memory [m]. *)
Lemma phase2_moved y m hp rp hhdm : (∀ x, y_mem y x = m x) → peek m 8 (hp +64 8) = Some hhdm →
  (TRAMPOLINE_PHYS +64 hhdm) + PAGE_SIZE ≤ 2 ^ 64 → Z.of_nat (length trampoline) ≤ PAGE_SIZE →
  wlp (phase2 kops hp (Some rp)) (λ _ y', same_outside (TRAMPOLINE_PHYS +64 hhdm) ((TRAMPOLINE_PHYS +64 hhdm) + PAGE_SIZE) m (y_mem y')) y.
Proof.
  intros Hm Hp Ht Hl. unfold phase2. cbn [op_thread_init op_apic_init op_smp_init op_scheduler_init kernel_ops load].
  assert (Hload : ∀ y', (∀ x, y_mem y' x = m x) → hhdm_offset_of sys_load hp y' = Ok (hhdm, y')).
  { intros y' H. apply sys_load_eq. rewrite <-Hp. by apply peek_ext. }
  eapply (wlp_bind_keeps (mem_moved 0 0)); [auto with vortex|]. intros [] y1 H1. assert (Hm1 : ∀ x, y_mem y1 x = m x) by (intros x; by rewrite (same_everywhere _ _ H1)).
  eapply wlp_bind_ok; [by apply Hload|]. eapply (wlp_bind_keeps (mem_moved 0 0)).
  { eapply keeps_apic; [|apply still_apic_init]. intros s s' E x _. by rewrite E. }
  intros [] y2 H2. assert (Hm2 : ∀ x, y_mem y2 x = m x) by (intros x; by rewrite (same_everywhere _ _ H2)).
  apply wlp_bind. eapply (wlp_bind_keeps (mem_moved 0 0)); [apply keeps_load|]. intros a y3 H3.
  assert (Hm3 : ∀ x, y_mem y3 x = m x) by (intros x; by rewrite (same_everywhere _ _ H3)).
  eapply wlp_bind_ok; [by apply Hload|]. eapply wlp_mono; [eapply keeps_apic; [|apply (local_smp_init dev fuel trampoline gdt_addr ap_entry started_addr hhdm Ht Hl)]; done|].
  intros [] y4 H4. eapply (wlp_mono _ (λ _ y', mem_moved 0 0 y4 y')); [apply keeps_lent; done|].
  intros [] y5 H5 x Hx. rewrite (same_everywhere _ _ H5), H4, Hm3 by done. done.
Qed.

Lemma phases_4_to_6_unmapped y rp a : peek (y_mem y) 8 (rp +64 8) = Some a → y_mem y (a +64 0) = None → wlp (phases_4_to_6 kops (Some rp)) (λ _ _, False) y.
Proof.
  intros Hp Ha. unfold phases_4_to_6. cbn [op_vfs_init op_vfs_root_name op_device_manager_init op_pci_scan_bus op_hpet_init op_net_init kernel_ops load].
  eapply (wlp_bind_keeps (mem_moved 0 0)); [auto with vortex|]. intros [] y0 H0.
  eapply (wlp_bind_keeps (mem_moved 0 0)); [auto with vortex|]. intros name y1 H1.
  eapply (wlp_bind_keeps (mem_moved 0 0)); [auto with vortex|]. intros [] y2 H2.
  eapply (wlp_bind_keeps (mem_moved 0 0)); [auto with vortex|]. intros [] y3 H3.
  assert (Hm : ∀ x, y_mem y3 x = y_mem y x) by (intros x; by rewrite (same_everywhere _ _ H3), (same_everywhere _ _ H2), (same_everywhere _ _ H1), (same_everywhere _ _ H0)).
  apply wlp_bind. eapply wlp_bind_ok; [apply sys_load_eq; rewrite <-Hp; by apply peek_ext|].
  unfold wlp. rewrite sys_hpet_init_unmapped; [done|]. by rewrite Hm.
Qed.
End acpi.

(** The page the start-up code is copied to, through the direct map. *)
Definition in_startup_page (hhdm x : Z) : Prop := TRAMPOLINE_PHYS +64 hhdm ≤ x < (TRAMPOLINE_PHYS +64 hhdm) + PAGE_SIZE.

(** C16: a machine that has ACPI tables is not booted, whatever its hardware
    does.  When the boot loader answers the request for the tables with their
    physical address, as it does for base revision 3, and nothing is mapped at
    that number, [kernel_main] does not come to its idle loop: every step up to
    there leaves the address unmapped and the answer in place, and [hpet_init]
    reads the address as it is.  The answer only has to lie outside the page
    into which [smp_init] copies the start-up code. *)
Theorem acpi_never_boots hw dev fuel pci_fuel raw gdt_addr tss_addr idt_addr timer_handler ap_entry started_addr stub_addr trampoline
    bss_start bss_end rsp0 ist1 ist2 y q r hhdm a y' :
  bss_start ≤ bss_end → limine_answers q (cleared bss_start bss_end (y_mem y)) r → r_hhdm r = Some hhdm → r_rsdp r = Some a →
  (TRAMPOLINE_PHYS +64 hhdm) + PAGE_SIZE ≤ 2 ^ 64 → Z.of_nat (length trampoline) ≤ PAGE_SIZE →
  (∀ p i, peek (cleared bss_start bss_end (y_mem y)) 8 (at_rsdp q +64 RESPONSE_OFFSET) = Some p → 0 ≤ i < 8 → ¬ in_startup_page hhdm ((p +64 8) + i)) →
  ¬ in_startup_page hhdm (u64 a) → cleared bss_start bss_end (y_mem y) (u64 a) = None →
  kernel_main (kernel_ops hw dev fuel pci_fuel raw gdt_addr tss_addr idt_addr timer_handler ap_entry started_addr stub_addr trampoline)
    bss_start bss_end rsp0 ist1 ist2 q y ≠ Ok ((), y').
Proof.
  intros Hb Hans Ehh Ers Ht Hl Hout Ha Hun E.
  enough (Hw : wlp (kernel_main (kernel_ops hw dev fuel pci_fuel raw gdt_addr tss_addr idt_addr timer_handler ap_entry started_addr stub_addr trampoline)
    bss_start bss_end rsp0 ist1 ist2 q) (λ _ _, False) y) by (unfold wlp in Hw; by rewrite E in Hw).
  clear E. set (m := cleared bss_start bss_end (y_mem y)) in *. destruct Hans as (answer & Hf & H1 & _ & H3). rewrite Ehh in H1. rewrite Ers in H3.
  destruct (answer LIMINE_HHDM_ID) as [hp|] eqn:Eh; [|done]. destruct (answer LIMINE_RSDP_ID) as [rp|] eqn:Er; [|done].
  destruct H1 as [Hhp H1]. destruct H3 as [Hrp H3].
  assert (Hrq : peek m 8 (at_rsdp q +64 RESPONSE_OFFSET) = Some rp).
  { rewrite (Hf (at_rsdp q) rsdp_request) by set_solver. change (Some (default 0 (answer LIMINE_RSDP_ID)) = Some rp). by rewrite Er. }
  unfold kernel_main. apply wlp_bind. unfold clear_bss. cbn [store8 kernel_ops].
  replace (bss_end - bss_start) with (Z.of_nat (Z.to_nat (bss_end - bss_start))) by lia.
  eapply wlp_mono; [apply clear_loop_wlp|]. rewrite Z2Nat.id by lia. replace (bss_start + (bss_end - bss_start)) with bss_end by lia. fold m. intros [] y1 Hm1.
  eapply (wlp_bind_keeps (mem_moved 0 0)); [cbn [op_serial_init kernel_ops]; auto with vortex|]. intros [] y2 M2; cbn [negb]; [|done].
  assert (Hm2 : ∀ x, y_mem y2 x = m x) by (intros x; by rewrite (same_everywhere _ _ M2)).
  assert (Hg : ∀ y' b x, (∀ z, y_mem y' z = m z) → (b, x) ∈ image_requests q → answer (rq_id x) ≠ Some 0 → get_response sys_load b y' = Ok (answer (rq_id x), y')).
  { intros y0 b x Hy Hin H0. apply (get_response_answer sys_load m y0 ltac:(intros n c v Hv; apply sys_load_eq; rewrite <-Hv; by apply peek_ext) answer q b x Hf Hin H0). }
  eapply wlp_bind_ok; [apply (Hg y2 (at_hhdm q) hhdm_request Hm2); [set_solver|change (answer LIMINE_HHDM_ID ≠ Some 0); congruence]|].
  change (answer (rq_id hhdm_request)) with (answer LIMINE_HHDM_ID). rewrite Eh.
  eapply (wlp_bind_keeps (mem_moved 0 0)); [auto with vortex|]. intros [mp|] y3 M3; [|done].
  eapply (wlp_bind_keeps (mem_moved 0 0)); [auto with vortex|]. intros es y4 M4.
  assert (Hm4 : ∀ x, y_mem y4 x = m x) by (intros x; by rewrite (same_everywhere _ _ M4), (same_everywhere _ _ M3)).
  eapply wlp_bind_ok; [apply (Hg y4 (at_rsdp q) rsdp_request Hm4); [set_solver|change (answer LIMINE_RSDP_ID ≠ Some 0); congruence]|].
  change (answer (rq_id rsdp_request)) with (answer LIMINE_RSDP_ID). rewrite Er.
  eapply (wlp_bind_keeps (mem_moved 0 0)); [apply keeps_phase1|]. intros [] y5 M5.
  apply wlp_bind. eapply wlp_mono; [apply (phase2_moved _ _ _ _ _ _ _ _ _ _ _ _ _ y5 m hp rp hhdm); try done; intros x; by rewrite (same_everywhere _ _ M5)|].
  intros [] y6 M6. apply wlp_bind. eapply wlp_mono; [eapply (phases_4_to_6_unmapped _ _ _ _ _ _ _ _ _ _ _ _ _ y6 rp a)|done].
  - rewrite (peek_outside _ _ _ _ _ _ M6); [done|]. intros i Hi. apply (Hout rp i Hrq). lia.
  - rewrite Z.add_0_r, (M6 _ Ha). done.
Qed.

(** The same image with the tables' root pointer at 0xF0000. *)
Definition acpi_mem : amem := word_mem (<[0x10E8 := 0x2300]> (<[0x2308 := 0xF0000]> loader_words)).
Definition acpi_answer (id : list Z) : option Z := if decide (id = LIMINE_RSDP_ID) then Some 0x2300 else loader_answer id.
Definition acpi_responses : responses := mkResponses (r_hhdm loader_responses) (r_memmap loader_responses) (Some 0xF0000).

Lemma acpi_answers : limine_answers loader_requests (cleared 0x3000 0x3000 acpi_mem) acpi_responses.
Proof. check_answers acpi_answer. Qed.

Lemma acpi_never_boots_witness : ¬ ∃ y',
  kernel_main (kernel_ops plain_machine (λ _ _ _, 0xFFFFFFFF - 62500000) 1 256 (λ _, 0) 0xffffffff80200000 0xffffffff80201234 0xffffffff80202000
    0xffffffff80101000 0xffffffff80102000 0xffffffff80203000 row_stubs []) 0x3000 0x3000 0xffff800000010000 0xffffffff80300000 0xffffffff80302000
    loader_requests (set_y_mem acpi_mem image) = Ok ((), y').
Proof.
  intros [y' E]. revert E.
  apply (acpi_never_boots plain_machine (λ _ _ _, 0xFFFFFFFF - 62500000) 1 256 (λ _, 0) 0xffffffff80200000 0xffffffff80201234 0xffffffff80202000
    0xffffffff80101000 0xffffffff80102000 0xffffffff80203000 row_stubs [] 0x3000 0x3000 0xffff800000010000 0xffffffff80300000 0xffffffff80302000
    (set_y_mem acpi_mem image) loader_requests acpi_responses 0xffff800000000000 0xF0000 y').
  - done.
  - exact acpi_answers.
  - reflexivity.
  - reflexivity.
  - by vm_compute.
  - by vm_compute.
  - intros p i E Hi. assert (Ep : p = 0x2300) by (vm_compute in E; by injection E as <-). subst p. intros [H _].
    change (TRAMPOLINE_PHYS +64 0xffff800000000000) with 0xffff800000008000 in H. change (0x2300 +64 8) with 0x2308 in H. lia.
  - intros [H _]. by apply H.
  - by vm_compute.
Defined.
