(* ===== verification/VfsTests.v ===== *)
(** * The file system's own tests

    tests/test_vfs.cpp, run on the model: every case as a routine that tells
    whether it passed, and the suite that initialises the file system and runs them in
    order on one state. *)

From Stdlib Require Import Ascii.
From S2P Require Import Prelude Pmm PageAlloc PmmTheorems KernelHeap Heap HeapPmm HeapTheorems Vfs VfsTheorems Interrupts.
Open Scope Z_scope.

Section tests.
Context {H PA : Type} `{!KernelHeap H} `{!PageAllocator PA}.
Local Abbreviation V := (M (vfs H PA)).
(** The bytes that follow the literal of [tmpfs_file_write_read] in the image. *)
Context (after_literal : list Z).

(** [TEST_ASSERT(cond, msg)]: the case ends when the condition does not hold. *)
Definition TEST_ASSERT (cond : bool) (k : V bool) : V bool := if cond then k else mret false.
Definition TEST_PASS : V bool := mret true.
Local Notation "'ASSERT' c ;; k" := (TEST_ASSERT c k) (at level 100, c at level 0, k at level 200, right associativity).

(** [open(path)] and the node found. *)
Definition find (path : string) (k : Z → VfsNode → V bool) : V bool :=
  p ← vfs_open (Some path);
  match p with None => mret false | Some a => n ← read_node a; k a n end.
(** [node->ops->read] and [node->ops->write]. *)
Definition call_read (a offset size : Z) (capacity : nat) : V (Z * list Z) :=
  n ← read_node a; o ← deref (n_ops n); f ← deref (ops_read o); f (Some a) offset size (Some capacity).
Definition call_write (a offset size : Z) (bytes : list Z) : V Z :=
  n ← read_node a; o ← deref (n_ops n); f ← deref (ops_write o); f (Some a) offset size (Some bytes).
Definition size_of (a : Z) : V Z := n ← read_node a; mret (n_size n).

Definition test_vfs_init : V bool := r ← vfs_root; ASSERT (bool_decide (is_Some r));; TEST_PASS.

Definition test_vfs_root_properties : V bool :=
  r ← vfs_root;
  match r with
  | None => mret false
  | Some root =>
    n ← read_node root;
    ASSERT (bool_decide (n_type n = DIRECTORY));; ASSERT (bool_decide (is_Some (n_ops n)));; ASSERT (bool_decide (n_parent n = Some root));; TEST_PASS
  end.

Definition test_vfs_open_root : V bool := find "/" (λ a _, r ← vfs_root; ASSERT (bool_decide (r = Some a));; TEST_PASS).

Definition test_vfs_open_dev_null : V bool :=
  find "/dev/null" (λ a n, ASSERT (bool_decide (n_type n = CHAR_DEVICE));; ASSERT (bool_decide (is_Some (n_ops n)));;
    r ← call_read a 0 16 16; ASSERT (r.1 =? 0);; TEST_PASS).

Definition test_vfs_dev_null_write_discard : V bool :=
  find "/dev/null" (λ a _, let data := chars "hello world" ++ [0] in
    w ← call_write a 0 12 data; ASSERT (w =? 12);; TEST_PASS).

Definition test_vfs_dev_zero_read : V bool :=
  find "/dev/zero" (λ a _, r ← call_read a 0 32 32; ASSERT (r.1 =? 32);; ASSERT (bool_decide (r.2 = replicate 32 0));; TEST_PASS).

Definition test_vfs_dev_console_write : V bool :=
  find "/dev/console" (λ a _, let msg := chars "VFS test: console write OK" ++ [10; 0] in
    w ← call_write a 0 28 msg; ASSERT (w =? 28);; TEST_PASS).

Definition test_vfs_dev_rtc_read : V bool :=
  find "/dev/rtc" (λ a n, ASSERT (n_size n =? 8);; r ← call_read a 0 8 8; ASSERT (r.1 =? 8);; TEST_PASS).

Definition test_vfs_dev_rtc_read_offset_past : V bool :=
  find "/dev/rtc" (λ a _, r ← call_read a 8 4 4; ASSERT (r.1 =? 0);; TEST_PASS).

Definition open_char_device (path : string) : V bool := find path (λ _ n, ASSERT (bool_decide (n_type n = CHAR_DEVICE));; TEST_PASS).
Definition test_vfs_open_dev_zero : V bool := open_char_device "/dev/zero".
Definition test_vfs_open_dev_console : V bool := open_char_device "/dev/console".
Definition test_vfs_open_dev_rtc : V bool := open_char_device "/dev/rtc".

Definition test_vfs_open_nonexistent : V bool := p ← vfs_open (Some "/nonexistent/path"); ASSERT (bool_decide (p = None));; TEST_PASS.

Definition is_root (path : string) : V bool := find path (λ a _, r ← vfs_root; ASSERT (bool_decide (r = Some a));; TEST_PASS).
Definition test_vfs_open_empty : V bool := is_root "".
Definition test_vfs_path_dot : V bool := is_root "/.".
Definition test_vfs_path_dotdot : V bool := find "/dev" (λ _ _, is_root "/dev/..").

Definition test_vfs_path_trailing_slash : V bool := find "/dev/" (λ _ n, ASSERT (bool_decide (n_type n = DIRECTORY));; TEST_PASS).

(** The children of a directory, along the list. *)
Fixpoint children (fuel : nat) (child : option Z) : V (list (Z * VfsNode)) :=
  match child, fuel with
  | None, _ => mret []
  | Some _, O => undefined
  | Some c, S fuel => n ← read_node c; l ← children fuel (n_next_sibling n); mret ((c, n) :: l)
  end.
Definition children_of (a : Z) : V (list (Z * VfsNode)) := n ← read_node a; s ← get; children (node_fuel s) (n_children n).
Definition the_root : V Z := r ← vfs_root; deref r.

Definition test_vfs_devfs_children : V bool :=
  find "/dev" (λ a _, l ← children_of a;
    ASSERT (bool_decide (Forall (λ name, name ∈ (n_name <$> l.*2)) ["null"; "zero"; "console"; "rtc"]));; TEST_PASS).

Definition test_vfs_mount_traversal : V bool := find "/dev" (λ _ n, ASSERT (bool_decide (n_ops n = Some kDevDirOps));; TEST_PASS).

Definition test_vfs_mkdir_and_readdir : V bool :=
  root ← the_root;
  d ← vfs_mkdir (Some root) (Some "testdir");
  match d with
  | None => mret false
  | Some d =>
    n ← read_node d;
    ASSERT (bool_decide (n_type n = DIRECTORY));; ASSERT (bool_decide (n_parent n = Some root));;
    p ← vfs_open (Some "/testdir"); ASSERT (bool_decide (p = Some d));;
    e ← vfs_readdir (Some root) 0; ASSERT (bool_decide (is_Some e));;
    l ← children_of root; ASSERT (bool_decide (d ∈ l.*1));; TEST_PASS
  end.

Definition test_vfs_mkdir_duplicate : V bool :=
  root ← the_root;
  d1 ← vfs_mkdir (Some root) (Some "dupdir"); ASSERT (bool_decide (is_Some d1));;
  d2 ← vfs_mkdir (Some root) (Some "dupdir"); ASSERT (bool_decide (d2 = None));; TEST_PASS.

Definition test_vfs_mkdir_on_file_fails : V bool :=
  find "/dev/null" (λ a _, d ← vfs_mkdir (Some a) (Some "fail"); ASSERT (bool_decide (d = None));; TEST_PASS).

(** A directory of that name with one empty file in it. *)
Definition with_file (dir file : string) (k : Z → V bool) : V bool :=
  root ← the_root;
  d ← vfs_mkdir (Some root) (Some dir);
  match d with
  | None => mret false
  | Some d =>
    f ← create_node file FILE;
    match f with
    | None => mret false
    | Some f => write_node f (set_n_ops (Some kTmpFileOps));; dir_add_child d f;; k f
    end
  end.

Definition test_vfs_tmpfs_file_write_read : V bool :=
  with_file "filerdir" "test.txt" (λ f,
    let test_str := (chars "Hello, VortexOS VFS!" ++ [0]) ++ after_literal in
    w ← call_write f 0 22 test_str; ASSERT (w =? 22);;
    z ← size_of f; ASSERT (z =? 22);;
    r ← call_read f 0 32 32; ASSERT (r.1 =? 22);; ASSERT (bool_decide (take 22 r.2 = take 22 test_str));; TEST_PASS).

Definition test_vfs_tmpfs_file_write_grow : V bool :=
  with_file "growdir" "grow.txt" (λ f,
    _ ← call_write f 0 8 (chars "AAAABBBB"); z ← size_of f; ASSERT (z =? 8);;
    _ ← call_write f 8 8 (chars "CCCCDDDD"); z ← size_of f; ASSERT (z =? 16);;
    _ ← call_write f 4 4 (chars "1234"); z ← size_of f; ASSERT (z =? 16);;
    r ← call_read f 0 16 16; ASSERT (bool_decide (r.2 = chars "AAAA1234CCCCDDDD"));; TEST_PASS).

Definition test_vfs_tmpfs_file_write_past_end_zero_fill : V bool :=
  with_file "zerofill" "zfill.txt" (λ f,
    _ ← call_write f 10 5 (chars "HELLO"); z ← size_of f; ASSERT (z =? 15);;
    r ← call_read f 0 15 15; ASSERT (bool_decide (r.2 = replicate 10 0 ++ chars "HELLO"));; TEST_PASS).

Definition test_vfs_readdir_enumeration : V bool :=
  root ← the_root;
  before ← children_of root;
  e ← vfs_readdir (Some root) 0; ASSERT (bool_decide (is_Some e));;
  _ ← vfs_mkdir (Some root) (Some "readdirtest");
  after ← children_of root;
  ASSERT (bool_decide (length after = S (length before)));; TEST_PASS.

(** The table of [run_vfs_tests], in its order. *)
Definition tests : list (string * V bool) :=
  [("vfs_init", test_vfs_init); ("vfs_root_properties", test_vfs_root_properties); ("vfs_open_root", test_vfs_open_root);
   ("vfs_open_dev_null", test_vfs_open_dev_null); ("vfs_dev_null_write_discard", test_vfs_dev_null_write_discard); ("vfs_dev_zero_read", test_vfs_dev_zero_read);
   ("vfs_dev_console_write", test_vfs_dev_console_write); ("vfs_dev_rtc_read", test_vfs_dev_rtc_read);
   ("vfs_dev_rtc_read_offset_past", test_vfs_dev_rtc_read_offset_past); ("vfs_open_dev_zero", test_vfs_open_dev_zero);
   ("vfs_open_dev_console", test_vfs_open_dev_console); ("vfs_open_dev_rtc", test_vfs_open_dev_rtc); ("vfs_open_nonexistent", test_vfs_open_nonexistent);
   ("vfs_open_empty", test_vfs_open_empty); ("vfs_path_dot", test_vfs_path_dot); ("vfs_path_dotdot", test_vfs_path_dotdot);
   ("vfs_path_trailing_slash", test_vfs_path_trailing_slash); ("vfs_devfs_children", test_vfs_devfs_children); ("vfs_mount_traversal", test_vfs_mount_traversal);
   ("vfs_mkdir_and_readdir", test_vfs_mkdir_and_readdir); ("vfs_mkdir_duplicate", test_vfs_mkdir_duplicate); ("vfs_mkdir_on_file_fails", test_vfs_mkdir_on_file_fails);
   ("vfs_tmpfs_file_write_read", test_vfs_tmpfs_file_write_read); ("vfs_tmpfs_file_write_grow", test_vfs_tmpfs_file_write_grow);
   ("vfs_tmpfs_file_write_past_end_zero_fill", test_vfs_tmpfs_file_write_past_end_zero_fill); ("vfs_readdir_enumeration", test_vfs_readdir_enumeration)].

Fixpoint run_tests (ts : list (string * V bool)) : V (list string) :=
  match ts with
  | [] => mret []
  | (name, test) :: ts => ok ← test; failed ← run_tests ts; mret (if ok : bool then failed else name :: failed)
  end.
(** The names of the cases that failed. *)
Definition run_vfs_tests : V (list string) := vfs_init;; run_tests tests.
End tests.

(** The result of a run, without its state. *)
Definition outcome {S A} (m : M S A) (s : S) : option A := match m s with Ok (a, _) => Some a | _ => None end.

(** The suite on the slab heap over the page allocator of a machine with eight
    pages, whatever byte follows the literal of one of the cases: the walk out of a
    mount fails its case, the other 25 pass. *)
Theorem vfs_suite b : 0 ≤ b < 256 →
  outcome (run_vfs_tests [b]) (vfs_boot (heap_boot small_pmm) small_pmm (λ _, 0)) = Some ["vfs_path_dotdot"].
Proof.
  intros Hb.
  assert (Hall : Forall (λ b, outcome (run_vfs_tests [b]) (vfs_boot (heap_boot small_pmm) small_pmm (λ _, 0)) = Some ["vfs_path_dotdot"]) (seqZ 0 256))
    by (apply (bool_decide_unpack _); vm_compute; exact I).
  apply (proj1 (Forall_forall _ _) Hall). apply elem_of_seqZ. lia.
Qed.

(** With nothing after the literal the suite is undefined: the case writes 22
    bytes of a literal of 21, its terminator included. *)
Theorem vfs_suite_overreads : run_vfs_tests [] (vfs_boot (heap_boot small_pmm) small_pmm (λ _, 0)) = UB.
Proof. vm_compute. reflexivity. Qed.
